(* ===== verification/_CoqProject ===== *)
-Q . S2P
Prelude.v
Segments.v
Chunks.v
AllocSpec.v
Alloc.v
Ealloc.v
Bytes.v
SsufsDisk.v
SsufsRep.v
SsufsOps.v
SsufsInv.v
SsufsLoops.v
SsufsRefine.v
Ssufs.v
Xv6String.v
Proc.v
ProcInv.v
Processes.v
MasterWorker.v
SsuSem.v
RwLock.v
RwWriter.v
RwReader.v
SsuShell.v
SsuPs.v
Xv6Pipe.v
Xv6Kalloc.v
Xv6Locks.v
Xv6Bio.v
Xv6Cache.v
Xv6Log.v
Xv6Fs.v
Xv6Dir.v
Xv6Bitmap.v
Xv6Inode.v
Xv6Dinode.v
Xv6Content.v
Xv6Trunc.v
Xv6Files.v
Xv6Path.v
Xv6Icache.v
Xv6Dirs.v
Xv6Syscall.v
Xv6File.v
Xv6Txn.v
Xv6FileIo.v
Xv6Sysfile.v
Xv6Fds.v
Xv6Sh.v
Xv6Shell.v
Xv6Run.v
Xv6Vm.v
Xv6Pgtab.v
Xv6Uvm.v
Xv6Vmem.v
Xv6Print.v
Xv6Console.v
Xv6Umalloc.v
Xv6Uheap.v
Xv6Grep.v
Xv6Kbd.v
Xv6Exec.v
Xv6Image.v
Xv6Execs.v
Xv6Trap.v
Xv6Ide.v
Xv6Mkfs.v
Xv6Mkimage.v
Xv6Mkfiles.v
Xv6Mkmain.v
Xv6Mkboot.v
Xv6Namex.v
