(* ===== verification/Prelude.v ===== *)
(** * Verification of the SSU operating-systems projects

    The repository holds five course projects in C.  This library models the
    logic of four small ones and of most of the xv6 kernel with its shell, its
    allocator and some of its programs, and proves what makes them correct.

    ** Parts and files

    Files are listed with the sources they model.

    - Foundation.  [Prelude]: outcomes of a C computation ([Ok], or [Stuck] with
      a [fault]), arrays with bounds, [int] overflow and [uint] wrap-around,
      tactics, hints.  [Bytes]: little-endian integers, NUL-terminated strings,
      files accessed by offset.
    - Project 5, page allocators (src/설계 5/project#5-code/alloc.c, ealloc.c).
      [Segments]: the page as a list of segments, with first fit and coalescing
      (specification).  [Chunks]: the chunk table that both allocators use and
      its loops.  [AllocSpec]: the class of block allocators and the theorem for
      their clients.  [Alloc], [Ealloc]: the two programs, as instances.
    - Project 6, file system (src/설계 6/ssufs-disk.c, ssufs-ops.c).  [SsufsDisk],
      [SsufsOps]: the code over the bytes of the disk file.  [SsufsRep],
      [SsufsInv], [SsufsLoops], [SsufsRefine]: abstract disk, invariant, loops,
      and the refinement of an abstract file system of named files and handles.
      [Ssufs]: theorems.
    - Project 3, xv6 (src/설계 3번/xv6/).
      -- Strings: [Xv6String] (string.c, ulib.c).
      -- Processes: [Proc] (proc.c, proc.h: the code), [ProcInv] (the kernel as
         a transition system and its invariant), [Processes] (theorems).  The
         rest of the kernel is the class [KernelOps].
      -- Memory: [Xv6Kalloc] (kalloc.c), [Xv6Vm] (vm.c: the code), with page
         tables as maps in [Xv6Pgtab], mapping and unmapping in [Xv6Uvm] and what
         a process sees in [Xv6Vmem].
      -- Programs: [Xv6Exec] (exec.c, elf.h: the code), [Xv6Image] and [Xv6Execs]
         (its proof).
      -- Traps: [Xv6Trap] (trap.c, traps.h, sysproc.c).
      -- Devices: [Xv6Console] (console.c), [Xv6Kbd] (kbd.c, kbd.h).
      -- Locks: [Xv6Locks] (spinlock.c, sleeplock.c).
      -- Disk: [Xv6Ide] (ide.c), [Xv6Bio] and [Xv6Cache] (bio.c, memide.c), [Xv6Log] (log.c).
      -- Files: [Xv6Fs] (fs.c: blocks and inodes), [Xv6Dir] (fs.c: inode cache,
         directories, paths), with their proofs in [Xv6Bitmap], [Xv6Inode],
         [Xv6Dinode], [Xv6Content], [Xv6Trunc], [Xv6Files], [Xv6Path],
         [Xv6Icache], [Xv6Dirs] and [Xv6Namex] (path lookup in a tree of
         directories).
      -- Image: [Xv6Mkfs] (mkfs.c: the code), with its proofs in [Xv6Mkimage] (the
         image as the kernel sees it, [iappend] against [writei]), [Xv6Mkfiles]
         (invariant), [Xv6Mkmain] (the whole program) and [Xv6Mkboot] (the kernel
         on the image).
      -- System calls: [Xv6Syscall] (syscall.c), [Xv6Pipe] (pipe.c), [Xv6File],
         [Xv6Txn] (what a transaction changes) and [Xv6FileIo] (file.c), [Xv6Sysfile] and [Xv6Fds] (sysfile.c).
      -- Shell: [Xv6Sh] and [Xv6Shell] (sh.c: the parser), [Xv6Run] (sh.c:
         [runcmd]).
      -- User library and programs: [Xv6Print] (printf.c, and cprintf of
         console.c), [Xv6Umalloc] (umalloc.c: the code) and [Xv6Uheap] (its
         proof), [Xv6Grep] (grep.c).
    - Project 4, threads (src/설계 4/).  [MasterWorker] (1/master-worker.c),
      [RwLock] (2/rw_lock.c, and what both locks share), [RwWriter] and [RwReader]
      (2/rw_lock-w-test.c, 2/rw_lock-r-test.c), [SsuSem] (3/SSU_Sem.c).
    - Project 2, user programs (src/설계 2번/).  [SsuShell] (ssu_shell.c), [SsuPs]
      (ssu_ps.c).

    ** How the parts interact

    The layers of xv6 are joined where one promises something to the next.
    [Xv6Kalloc] shows the page allocator to be a pool of pages, and the pipes of
    [Xv6File] take their pages from a pool.  [Xv6Cache] shows that through the
    buffer cache a client sees the bare disk, and [Xv6Log] that a transaction
    reaches that disk as a whole or not at all; [Xv6Fs] therefore works on an
    array of blocks and records the blocks a transaction writes, and
    [Xv6FileIo] shows that a long write is a sequence of finished transactions,
    each of which changes only blocks in the log and stays within what the log
    reserves for it.  System calls ([Xv6Sysfile]) fetch their arguments
    through [Xv6Syscall] and act on the open files ([Xv6File]) and the file
    system ([Xv6Dir]).  Address spaces ([Xv6Vm]) take their pages from the pool,
    and [Xv6Execs] builds on the theorems about them: it shows that what [exec]
    puts on the new stack is what the argument checks of [Xv6Syscall] read back.
    The disk driver ([Xv6Ide]) works against the class of ATA drives.
    [exec] asks the file system for a file through the class [ExecFs], whose
    reads behave as [Xv6Files] shows [readi] to behave.  The keyboard ([Xv6Kbd])
    feeds the console ([Xv6Console]), and the clock of [Xv6Trap] wakes processes
    of [Proc].  The image that mkfs.c writes is a disk of [Xv6Fs]: [Xv6Mkboot]
    runs [iinit], [namei], [ilock] and [readi] of the kernel on it, and
    [Xv6Namex] shows it to be a tree of directories.  Both allocators of project 5 implement the class of
    [AllocSpec], against which the theorem for clients is proved once.

    ** How code is modelled

    A C function is a Rocq function with its state passed explicitly; it
    returns [Ok] or [Stuck] with the reason.  A [panic], a failed [assert], an
    access outside an array, a signed overflow and a wait that nothing ends are
    faults, so a theorem that concludes [Ok] excludes all of them.  Pointers to
    elements of an array are indices; pointers into memory are addresses or
    offsets.  Unsigned arithmetic wraps explicitly ([u32]).

    Loops that are not structural take fuel and return [Stuck OutOfFuel] when it
    runs out.  The callers give a bound that the theorems prove sufficient: the
    number of entries of a table or bytes of a range for the scans ([S n] for
    [n] steps), [4 n + 4] for the shell parser on [n] characters (four functions
    per nesting level), the size of a directory in entries for directory
    searches, twice the number of headers and four for [malloc] (once around the
    list, and once more after [morecore]), the length of a path for [namex].

    Concurrency is interleaving of atomic steps: critical sections under a lock
    for the process table, the pipes and the threads of project 4, single
    accesses to memory for spin locks, the semaphore and the read-write locks.  A
    crash keeps a prefix of the writes to the disk ([Xv6Log]).  The file system runs one
    process at a time; a lock it would wait for is [Stuck Blocked].

    ** What the theorems show

    - Refinement: the project-6 file system implements named files and handles;
      the allocators implement first fit; the buffer cache implements a disk;
      [writei] implements overwriting a segment of a file, [filewrite] the same
      in transactions; directories are finite maps and [namei] walks the tree they
      form, leaving no reference or lock behind; [kalloc] is a pool; the ring
      buffer of the console is a queue with an editable line; [copyuvm] makes an
      equal and separate address space; the disk driver is a queue of requests
      in front of two disks; [exec] puts the image of an ELF file and
      its arguments in place of the old program, or changes nothing.
    - Safety and invariants: process table, waiting without lost wakeups,
      atomic transactions under repeated crashes, mutual exclusion of spin
      locks and of read-write locks with their preference, pipes as queues across
      the wrap of their counters, reference counts of inodes, open files and pipes, sleeping on the clock, traps that never
      return a killed process, and a user allocator whose blocks are apart, large
      enough and left alone.
    - Total behaviour of operations on every branch: block allocation,
      truncation, allocation and release of memory, [fork], the scheduler, the
      argument checks of system calls, growing and shrinking a process.
    - Languages and round trips: the xv6 shell parser accepts exactly the
      command lines and builds their meaning; [runcmd] connects the processes of
      a line as the line says; the project-2 shell cuts a pipeline into its
      commands; [skipelem] walks the elements of a path; [grep] prints the lines
      in which its pattern occurs; a file put into an image by mkfs is read back by
      the kernel, and the image is a well-formed file system with these files and
      nothing else; what is typed on the keyboard is what a read of
      the console returns; numbers are printed so that [atoi] reads them back.
    - Where the code falls short: lost names of eight characters in project 6,
      handles that outlive a deleted file there, a failed [mmap] handed out as a
      block, a shell line of 1023 characters that is read past its array,
      starvation among equal priorities, two threads inside a binary semaphore,
      log overcommitment, a [link] that waits for itself, [malloc] of sizes near
      2^32, [copyout] where there is no page table, a [grep] that loses lines of a
      pipe, disk errors that go unnoticed, a missing last block of the root
      directory of an image, and a read-write lock that prefers readers only once
      and keeps writers waiting while no reader has come.

    ** Not modelled

    Device drivers and boot code (lapic.c, ioapic.c, mp.c, picirq.c,
    uart.c, bootmain.c, main.c) only drive hardware.  Printing is left
    out where it is the only effect.  In ssu_ps.c the rows with floating-point
    percentages and the reading of /proc are input; in ssu_shell.c the starting
    of processes is the operating system's.  Test drivers and programs that only
    make system calls are not modelled: what they show is what the calls return,
    which the theorems about the calls state.  The files alloc_2.c and ealloc_2.c
    are copies of alloc.c and ealloc.c.

    The file system is shown for one process at a time; path lookup assumes that
    no inode on the way is unlinked meanwhile (each has a link) and that two
    entries of the inode cache are unused. *)

From stdpp Require Export base tactics option list numbers sets gmap strings.
From Stdlib Require Export ZArith Lia.

#[global] Open Scope Z_scope.

(** ** Outcomes of a C computation

    [Ok a] is a normal return.  [Stuck f] is a run that leaves defined C (or
    the program's own [assert] / [panic]), or a wait that nothing can end
    ([Blocked]); [f] says why.  Loops that are not
    structural carry fuel and end in [Stuck OutOfFuel] when it runs out, so a
    theorem that concludes [Ok _] also proves termination. *)

Inductive fault : Type :=
| OutOfBounds
| Uninitialised
| IntOverflow
| AssertFailed
| Panicked
| Blocked
| OutOfFuel.

Inductive res (A : Type) : Type :=
| Ok (a : A)
| Stuck (f : fault).
Arguments Ok {A} a.
Arguments Stuck {A} f.

#[global] Instance fault_eq_dec : EqDecision fault.
Proof. solve_decision. Defined.

#[global] Instance res_ret : MRet res := fun A a => Ok a.
#[global] Instance res_bind : MBind res :=
  fun A B k m => match m with Ok a => k a | Stuck f => Stuck f end.

(** [assert(b)] of <assert.h>. *)
Definition c_assert (b : bool) : res unit :=
  if b then Ok tt else Stuck AssertFailed.

(** Signed [int] arithmetic: an overflow is undefined behaviour. *)
Definition c_int (z : Z) : res Z :=
  if (- 2 ^ 31 <=? z) && (z <? 2 ^ 31) then Ok z else Stuck IntOverflow.

(** [uint] arithmetic wraps. *)
Definition u32 (z : Z) : Z := z mod 2 ^ 32.

(** ** C arrays: indexed by an [int], undefined outside their bounds *)

Definition aget {A} (l : list A) (i : Z) : res A :=
  if 0 <=? i then match l !! Z.to_nat i with Some x => Ok x | None => Stuck OutOfBounds end
  else Stuck OutOfBounds.

Definition aset {A} (l : list A) (i : Z) (x : A) : res (list A) :=
  if (0 <=? i) && (i <? Z.of_nat (length l)) then Ok (<[Z.to_nat i := x]> l)
  else Stuck OutOfBounds.

(** ** Tactics *)

(** Turns the boolean comparisons of the translated conditions into
    propositions. *)
Ltac zbool :=
  repeat match goal with
  | H : (_ =? _) = true |- _ => apply Z.eqb_eq in H
  | H : (_ =? _) = false |- _ => apply Z.eqb_neq in H
  | H : (_ <? _) = true |- _ => apply Z.ltb_lt in H
  | H : (_ <? _) = false |- _ => apply Z.ltb_ge in H
  | H : (_ <=? _) = true |- _ => apply Z.leb_le in H
  | H : (_ <=? _) = false |- _ => apply Z.leb_gt in H
  | H : (_ && _) = true |- _ => apply andb_true_iff in H as [? ?]
  | H : (_ || _) = false |- _ => apply orb_false_iff in H as [? ?]
  | H : negb _ = true |- _ => apply negb_true_iff in H
  | H : negb _ = false |- _ => apply negb_false_iff in H
  end.

(** Case analysis on the condition of an [if] of the goal. *)
Ltac case_if :=
  match goal with
  | |- context [if ?b then _ else _] => destruct b eqn:?; zbool
  end.

(** Runs the binds of a translated function whose first action is known. *)
Ltac run := cbn [mbind res_bind mret res_ret].

(** The same as a rewrite rule, for steps whose conversion is costly. *)
Lemma run_Ok {A B} (a : A) (f : A -> res B) : Ok a ≫= f = f a.
Proof. done. Qed.

(** A run that ends well, taken apart. *)
Lemma bind_Ok {A B} (m : res A) (k : A -> res B) b : m ≫= k = Ok b -> exists a, m = Ok a /\ k a = Ok b.
Proof. destruct m; cbn; [eauto|done]. Qed.

Create HintDb ssu.

(** ** Arrays: lemmas *)

Lemma aget_nat {A} (l : list A) (i : nat) x :
  l !! i = Some x -> aget l (Z.of_nat i) = Ok x.
Proof.
  intros H. unfold aget. rewrite (proj2 (Z.leb_le _ _)) by lia.
  by rewrite Nat2Z.id, H.
Qed.

Lemma aget_Ok {A} (l : list A) (i : Z) x :
  aget l i = Ok x <-> 0 <= i /\ l !! Z.to_nat i = Some x.
Proof.
  unfold aget. destruct (Z.leb_spec 0 i).
  - destruct (l !! Z.to_nat i); naive_solver.
  - naive_solver lia.
Qed.

Lemma aset_nat {A} (l : list A) (i : nat) x :
  (i < length l)%nat -> aset l (Z.of_nat i) x = Ok (<[i := x]> l).
Proof.
  intros H. unfold aset.
  rewrite (proj2 (Z.leb_le _ _)), (proj2 (Z.ltb_lt _ _)) by lia.
  simpl. by rewrite Nat2Z.id.
Qed.

Lemma aset_Ok {A} (l : list A) (i : Z) x :
  0 <= i < Z.of_nat (length l) -> aset l i x = Ok (<[Z.to_nat i := x]> l).
Proof.
  intros H. unfold aset. by rewrite (proj2 (Z.leb_le _ _)), (proj2 (Z.ltb_lt _ _)) by lia.
Qed.

Lemma c_int_Ok z : - 2 ^ 31 <= z < 2 ^ 31 -> c_int z = Ok z.
Proof.
  intros H. unfold c_int. by rewrite (proj2 (Z.leb_le _ _)), (proj2 (Z.ltb_lt _ _)) by lia.
Qed.

Lemma lookup_some_lt {A} (l : list A) (i : nat) x : l !! i = Some x -> (i < length l)%nat.
Proof. apply lookup_lt_Some. Qed.

#[export] Hint Resolve lookup_some_lt : ssu.
#[export] Hint Resolve aget_nat aset_nat : ssu.

Lemma alter_insert {A} (f : A -> A) (l : list A) (i : nat) x :
  l !! i = Some x -> alter f i l = <[i := f x]> l.
Proof.
  intros Hx. apply list_eq. intros j. destruct (decide (i = j)) as [<-|Hne].
  - rewrite list_lookup_alter_eq, Hx, list_lookup_insert_eq; [done|by eapply lookup_lt_Some].
  - by rewrite list_lookup_alter_ne, list_lookup_insert_ne.
Qed.

(** A duplicate-free list that holds every index below [n] has at least [n]
    elements. *)
Lemma covers_length (n : nat) (l : list nat) :
  (forall i, (i < n)%nat -> i ∈ l) -> (n <= length l)%nat.
Proof.
  intros H. rewrite <- (length_seq n 0). apply submseteq_length.
  apply NoDup_submseteq; [apply NoDup_seq|].
  intros x Hx. apply elem_of_seq in Hx. apply H. lia.
Qed.
