(* ===== verification/Segments.v ===== *)
(** The abstract view of one page of memory: a list of segments in address
    order, each used or free.  [first_fit], [mark_free] and [coalesce] are the
    specifications that the chunk-table loops of the two allocators implement
    (see [Chunks]); this file proves what they promise on their own: the
    segments always tile the page, and the live blocks never overlap. *)

From S2P Require Import Prelude.

(** ** Abstract view: the segments of a page, from low to high addresses *)

Record seg : Type := Seg { s_addr : Z; s_size : Z; s_used : bool }.

Fixpoint first_fit (size : Z) (l : list seg) : option (Z * list seg) :=
  match l with
  | [] => None
  | s :: r =>
      if negb (s_used s) && (size <=? s_size s) then
        if s_size s =? size then Some (s_addr s, Seg (s_addr s) size true :: r)
        else Some (s_addr s, Seg (s_addr s) size true
                             :: Seg (s_addr s + size) (s_size s - size) false :: r)
      else match first_fit size r with
           | Some (a, r') => Some (a, s :: r')
           | None => None
           end
  end.

Fixpoint mark_free (a : Z) (l : list seg) : option (list seg) :=
  match l with
  | [] => None
  | s :: r =>
      if s_addr s =? a then Some (Seg (s_addr s) (s_size s) false :: r)
      else match mark_free a r with Some r' => Some (s :: r') | None => None end
  end.

Fixpoint coalesce_from (s : seg) (r : list seg) : list seg :=
  match r with
  | [] => [s]
  | t :: r' =>
      if negb (s_used s) && negb (s_used t)
      then coalesce_from (Seg (s_addr s) (s_size s + s_size t) false) r'
      else s :: coalesce_from t r'
  end.

Definition coalesce (l : list seg) : list seg :=
  match l with [] => [] | s :: r => coalesce_from s r end.

(** The segments tile [[a, b)] without gaps or overlaps, each with a positive
    size that is a multiple of [unit]. *)
Fixpoint tiles (unit a : Z) (l : list seg) (b : Z) : Prop :=
  match l with
  | [] => a = b
  | s :: r => s_addr s = a /\ 0 < s_size s /\ (unit | s_size s) /\ tiles unit (a + s_size s) r b
  end.

(** The blocks a client holds: address and size of every used segment. *)
Fixpoint live (l : list seg) : list (Z * Z) :=
  match l with
  | [] => []
  | s :: r => if s_used s then (s_addr s, s_size s) :: live r else live r
  end.

(** Two different entries of the list never share an address. *)
Definition blocks_disjoint (l : list (Z * Z)) : Prop :=
  forall i j x y, i <> j -> l !! i = Some x -> l !! j = Some y ->
    x.1 + x.2 <= y.1 \/ y.1 + y.2 <= x.1.

(** No two neighbouring segments are both free. *)
Fixpoint no_adjacent_free (l : list seg) : Prop :=
  match l with
  | s :: ((t :: _) as r) => (s_used s = true \/ s_used t = true) /\ no_adjacent_free r
  | _ => True
  end.

(** ** Tiling *)

Lemma tiles_le unit a l b : tiles unit a l b -> a <= b.
Proof.
  revert a. induction l as [|s l IH]; intros a; simpl; [lia|].
  intros (_ & Hs & _ & H). apply IH in H. lia.
Qed.

Lemma tiles_app unit a l1 l2 b :
  tiles unit a (l1 ++ l2) b <-> exists m, tiles unit a l1 m /\ tiles unit m l2 b.
Proof.
  revert a. induction l1 as [|s l1 IH]; intros a; simpl.
  - split; [eauto|]. by intros (m & -> & H).
  - setoid_rewrite IH. naive_solver.
Qed.

Lemma tiles_bounds unit a l b s :
  tiles unit a l b -> s ∈ l -> a <= s_addr s /\ s_addr s + s_size s <= b /\ 0 < s_size s.
Proof.
  intros H (l1 & l2 & ->)%list_elem_of_split. apply tiles_app in H as (m & H1 & H2).
  simpl in H2. destruct H2 as (-> & Hs & _ & H3).
  apply tiles_le in H1, H3. lia.
Qed.

(** Each segment takes at least one unit, so a page of [n] units has at most
    [n] segments. *)
Lemma tiles_length unit a l b :
  0 < unit -> tiles unit a l b -> unit * Z.of_nat (length l) <= b - a.
Proof.
  intros Hu. revert a. induction l as [|s l IH]; intros a; simpl; [lia|].
  intros (_ & Hs & Hd & H). apply IH in H. apply Z.divide_pos_le in Hd; lia.
Qed.

(** ... and strictly fewer when one segment is larger than [size] units. *)
Lemma tiles_length_lt unit size a l b s :
  0 < unit -> (unit | size) -> 0 < size -> s ∈ l -> size < s_size s ->
  tiles unit a l b -> unit * Z.of_nat (length l) < b - a.
Proof.
  intros Hu Hd Hp (l1 & l2 & ->)%list_elem_of_split Hlt H.
  apply tiles_app in H as (m & H1 & H2). simpl in H2. destruct H2 as (_ & Hs & Hds & H3).
  apply tiles_length in H1, H3; [|done..]. rewrite length_app. simpl.
  assert (unit <= size) by (by apply Z.divide_pos_le).
  lia.
Qed.

Lemma first_fit_tiles unit size a l b x l' :
  0 < size -> (unit | size) -> tiles unit a l b -> first_fit size l = Some (x, l') ->
  tiles unit a l' b.
Proof.
  intros Hp Hd. revert a l'. induction l as [|s l IH]; intros a l' Ht Hf; simpl in *; [done|].
  destruct Ht as (Ha & Hs & Hds & Ht). case_match eqn:Hc; zbool.
  - case_match eqn:He; zbool; simplify_eq; simpl; split_and!; try done; try lia.
    + apply Z.divide_sub_r; done.
    + by replace (s_addr s + size + (s_size s - size)) with (s_addr s + s_size s) by lia.
  - destruct (first_fit size l) as [[x' r]|] eqn:Hff; [|done]. simplify_eq. simpl.
    split_and!; try done. by apply IH.
Qed.

Lemma mark_free_tiles unit a l b x l' :
  tiles unit a l b -> mark_free x l = Some l' -> tiles unit a l' b.
Proof.
  revert a l'. induction l as [|s l IH]; intros a l' Ht Hf; simpl in *; [done|].
  destruct Ht as (Ha & Hs & Hds & Ht). case_match.
  - simplify_eq. simpl. by split_and!.
  - destruct (mark_free x l) as [r|]; [|done]. simplify_eq. simpl. split_and!; try done. by apply IH.
Qed.

Lemma coalesce_from_tiles unit a s l b :
  tiles unit a (s :: l) b -> tiles unit a (coalesce_from s l) b.
Proof.
  revert a s. induction l as [|t l IH]; intros a s; [done|].
  intros (Ha & Hs & Hds & (Ha' & Ht & Hdt & H)). cbn [coalesce_from]. case_if.
  - apply IH. simpl. split_and!; [done|lia|by apply Z.divide_add_r|].
    by replace (a + (s_size s + s_size t)) with (a + s_size s + s_size t) by lia.
  - cbn [tiles]. split_and!; try done. apply IH. simpl. by split_and!.
Qed.

Lemma coalesce_tiles unit a l b : tiles unit a l b -> tiles unit a (coalesce l) b.
Proof. destruct l; [done|]. apply coalesce_from_tiles. Qed.

(** ** Live blocks *)

Lemma live_app l1 l2 : live (l1 ++ l2) = live l1 ++ live l2.
Proof. induction l1 as [|s l1 IH]; simpl; [done|]. case_match; simpl; by rewrite IH. Qed.

Lemma elem_of_live l x n : (x, n) ∈ live l <-> Seg x n true ∈ l.
Proof.
  induction l as [|[a k u] l IH]; simpl; [set_solver|].
  destruct u; rewrite ?elem_of_cons, IH; naive_solver.
Qed.

Lemma live_disjoint unit a l b : tiles unit a l b -> blocks_disjoint (live l).
Proof.
  revert a. induction l as [|s l IH]; intros a; simpl; [by intros _ i j x y|].
  intros (Ha & Hs & _ & Ht).
  assert (forall k z, live l !! k = Some z -> s_addr s + s_size s <= z.1) as Hafter.
  { intros k [z n] Hz%list_elem_of_lookup_2. apply elem_of_live in Hz.
    apply (tiles_bounds _ _ _ _ _ Ht) in Hz. simpl in *. lia. }
  destruct (s_used s); [|by apply (IH _ Ht)].
  intros [|i] [|j] x y Hne Hx Hy; simpl in *; simplify_eq; simpl.
  - left. eauto.
  - right. eauto.
  - by eapply (IH _ Ht i j); [congruence|..].
Qed.

(** The new block joins the live ones. *)
Lemma first_fit_live size l x l' :
  first_fit size l = Some (x, l') -> live l' ≡ₚ (x, size) :: live l.
Proof.
  revert l'. induction l as [|s l IH]; intros l' Hf; simpl in *; [done|].
  case_match eqn:Hc; zbool.
  - replace (s_used s) with false. case_match; zbool; by simplify_eq.
  - destruct (first_fit size l) as [[x' r]|] eqn:Hff; [|done]. simplify_eq. simpl.
    specialize (IH _ eq_refl). destruct (s_used s); rewrite IH; [apply perm_swap|done].
Qed.

(** ... and it is carved out of a free part of the page. *)
Lemma first_fit_bounds unit size a l b x l' :
  0 < size -> tiles unit a l b -> first_fit size l = Some (x, l') -> a <= x /\ x + size <= b.
Proof.
  intros Hp. revert a l'. induction l as [|s l IH]; intros a l' Ht Hf; simpl in *; [done|].
  destruct Ht as (Ha & Hs & Hd & Ht). pose proof (tiles_le _ _ _ _ Ht). case_match eqn:Hc; zbool.
  - case_match; zbool; simplify_eq; lia.
  - destruct (first_fit size l) as [[x' r]|] eqn:Hff; [|done]. simplify_eq.
    pose proof (IH _ _ Ht eq_refl). lia.
Qed.

(** Freeing a live block takes exactly that block out. *)
Lemma mark_free_live unit a l b x n :
  tiles unit a l b -> (x, n) ∈ live l ->
  exists l', mark_free x l = Some l' /\ live l ≡ₚ (x, n) :: live l'.
Proof.
  revert a. induction l as [|s l IH]; intros a Ht Hx; simpl in *; [set_solver|].
  destruct Ht as (Ha & Hs & Hd & Ht).
  assert ((x, n) ∈ live l -> s_addr s <> x) as Hne.
  { intros Hin%elem_of_live. apply (tiles_bounds _ _ _ _ _ Ht) in Hin. simpl in Hin. lia. }
  destruct (s_addr s =? x) eqn:He; zbool.
  - exists (Seg (s_addr s) (s_size s) false :: l). split; [done|]. simpl.
    destruct (s_used s); [|naive_solver]. apply elem_of_cons in Hx as [[= -> ->]|Hx]; [done|naive_solver].
  - assert ((x, n) ∈ live l) as Hin.
    { destruct (s_used s); [|done]. apply elem_of_cons in Hx as [[= -> ->]|Hx]; [lia|done]. }
    destruct (IH _ Ht Hin) as (l' & -> & Hp). exists (s :: l'). split; [done|]. simpl.
    destruct (s_used s); [rewrite Hp; apply perm_swap|done].
Qed.

Lemma coalesce_from_live s l : live (coalesce_from s l) = live (s :: l).
Proof.
  revert s. induction l as [|t l IH]; intros s; [done|]. cbn [coalesce_from]. case_if.
  - rewrite IH. simpl. replace (s_used s) with false. by replace (s_used t) with false.
  - simpl. rewrite IH. simpl. by destruct (s_used s).
Qed.

Lemma coalesce_live l : live (coalesce l) = live l.
Proof. destruct l; [done|]. apply coalesce_from_live. Qed.

(** After coalescing, free space is maximal: no two free segments touch. *)
Lemma coalesce_from_no_adjacent s l : no_adjacent_free (coalesce_from s l).
Proof.
  revert s. induction l as [|t l IH]; intros s; [done|]. cbn [coalesce_from]. case_if; [apply IH|].
  specialize (IH t).
  assert (exists t' r', coalesce_from t l = t' :: r' /\ s_used t' = s_used t) as (t' & r' & Heq & Hu).
  { clear. revert t. induction l as [|u l IH]; intros t; [by exists t, []|]. cbn [coalesce_from]. case_if.
    - destruct (IH (Seg (s_addr t) (s_size t + s_size u) false)) as (t' & r' & -> & Hu).
      exists t', r'. split; [done|]. rewrite Hu. simpl. by replace (s_used t) with false.
    - by exists t, (coalesce_from u l). }
  rewrite Heq in *. cbn [no_adjacent_free]. split; [|done]. rewrite Hu.
  destruct (s_used s), (s_used t); simpl in *; naive_solver.
Qed.

Lemma coalesce_no_adjacent l : no_adjacent_free (coalesce l).
Proof. destruct l; [done|]. apply coalesce_from_no_adjacent. Qed.

Lemma no_adjacent_free_tail s l : no_adjacent_free (s :: l) -> no_adjacent_free l.
Proof. destruct l; [done|]. by intros [_ H]. Qed.

(** ** Giving a block back undoes its allocation *)

Lemma coalesce_from_cons s l :
  (forall t r, l = t :: r -> s_used s = true \/ s_used t = true) ->
  coalesce_from s l = s :: coalesce l.
Proof.
  destruct l as [|t r]; [done|]. intros H. cbn [coalesce_from coalesce].
  destruct (H t r eq_refl) as [-> | ->]; [done|by rewrite andb_false_r].
Qed.

Lemma coalesce_id l : no_adjacent_free l -> coalesce l = l.
Proof.
  induction l as [|s l IH]; [done|]. intros H. cbn [coalesce].
  rewrite coalesce_from_cons, IH; [done|by eapply no_adjacent_free_tail|].
  intros t r ->. by destruct H.
Qed.

(** In a page without adjacent free segments, freeing the block [first_fit]
    just returned and coalescing gives the page as it was. *)
Lemma first_fit_undo unit size a l b x l' :
  0 < size -> tiles unit a l b -> no_adjacent_free l -> first_fit size l = Some (x, l') ->
  exists l'', mark_free x l' = Some l'' /\ coalesce l'' = l.
Proof.
  intros Hp. revert a l'. induction l as [|s l IH]; intros a l' Ht Hna Hf; simpl in *; [done|].
  destruct Ht as (Ha & Hs & Hd & Ht). case_match eqn:Hc; zbool.
  - assert (s = Seg (s_addr s) (s_size s) false) as Hseg by (destruct s; naive_solver).
    case_match eqn:He; zbool; simplify_eq; cbn [mark_free s_addr]; rewrite Z.eqb_refl;
      eexists; (split; [done|]).
    + cbn [s_size s_addr]. rewrite <- Hseg. by apply coalesce_id.
    + cbn [coalesce coalesce_from s_used negb andb s_addr s_size s_used].
      replace (size + (s_size s - size)) with (s_size s) by lia. rewrite <- Hseg.
      by apply (coalesce_id (s :: l)).
  - destruct (first_fit size l) as [[x' r]|] eqn:Hff; [|done]. simplify_eq.
    pose proof (first_fit_bounds _ _ _ _ _ _ _ Hp Ht Hff) as [Hx _].
    destruct (IH _ _ Ht (no_adjacent_free_tail _ _ Hna) eq_refl) as (l'' & Hm & Hco).
    cbn [mark_free]. rewrite (proj2 (Z.eqb_neq _ _)), Hm by lia. eexists. split; [done|].
    cbn [coalesce]. rewrite coalesce_from_cons, Hco; [done|].
    intros t q ->. destruct l as [|t0 l]; [done|]. destruct Hna as [[Hu|Hu] _]; [by left|right].
    simpl in Hff. rewrite Hu in Hff. simpl in Hff.
    destruct (first_fit size l) as [[x1 r1]|] eqn:Hff1; [|done]. simplify_eq. simpl in Hm.
    destruct Ht as (Ha0 & Hs0 & _ & Ht). pose proof (first_fit_bounds _ _ _ _ _ _ _ Hp Ht Hff1) as [Hx1 _].
    case_match eqn:He; zbool; [|destruct (mark_free x r1); by simplify_eq]. simpl in *. lia.
Qed.

(** ** Permutations of the live blocks *)

#[global] Instance blocks_disjoint_proper : Proper ((≡ₚ) ==> iff) blocks_disjoint.
Proof.
  assert (forall l1 l2, l1 ≡ₚ l2 -> blocks_disjoint l2 -> blocks_disjoint l1) as H.
  { intros l1 l2 (_ & f & Hinj & Hf)%Permutation_inj Hd i j x y Hne Hx Hy.
    apply (Hd (f i) (f j)); [naive_solver|by rewrite <- Hf..]. }
  intros l1 l2 Hp. split; apply H; [symmetry|]; done.
Qed.

Lemma blocks_disjoint_app l1 l2 :
  blocks_disjoint l1 -> blocks_disjoint l2 ->
  (forall x y, x ∈ l1 -> y ∈ l2 -> x.1 + x.2 <= y.1 \/ y.1 + y.2 <= x.1) ->
  blocks_disjoint (l1 ++ l2).
Proof.
  intros H1 H2 Hc i j x y Hne Hx Hy.
  apply lookup_app_Some in Hx as [Hx|[Hi Hx]], Hy as [Hy|[Hj Hy]].
  - by eapply (H1 i j).
  - apply Hc; by eapply list_elem_of_lookup_2.
  - destruct (Hc y x); [by eapply list_elem_of_lookup_2..|by right|by left].
  - eapply (H2 (i - length l1)%nat (j - length l1)%nat); [lia|done|done].
Qed.
