(* ===== verification/Chunks.v ===== *)
(** The chunk table of one page: the data structure and loops that the two
    page allocators ([alloc.c] and [ealloc.c] of project 5) have in common.

    A page is described by a table [chunks] of descriptors, linked into a
    doubly linked list by index ([next_idx], [prev_idx], -1 at the ends) whose
    first element is [head_idx].  The operations are translated over the table
    as the code has it; [lseg] and [repr] relate a table to the list of memory
    segments it stands for, and every loop is proved to compute a function on
    that list ([first_fit], [mark_free], [coalesce]). *)

From S2P Require Import Prelude Segments.

(** ** Data *)

Record mm : Type := Mm {
  addr : Z;
  chunk_size : Z;
  flag : Z;
  using_ : Z;
  next_idx : Z;
  prev_idx : Z
}.

Record page : Type := Page { head_idx : Z; chunks : list mm }.

Definition set_head (p : page) (i : Z) : page := Page i (chunks p).
Definition set_chunks (p : page) (c : list mm) : page := Page (head_idx p) c.

Definition set_flag (m : mm) (f : Z) : mm :=
  Mm (addr m) (chunk_size m) f (using_ m) (next_idx m) (prev_idx m).
Definition set_next (m : mm) (i : Z) : mm :=
  Mm (addr m) (chunk_size m) (flag m) (using_ m) i (prev_idx m).
Definition set_prev (m : mm) (i : Z) : mm :=
  Mm (addr m) (chunk_size m) (flag m) (using_ m) (next_idx m) i.
Definition set_using (m : mm) (u : Z) : mm :=
  Mm (addr m) (chunk_size m) (flag m) u (next_idx m) (prev_idx m).

(** ** [find_next]: the first descriptor that is not in use, -1 if none *)

Fixpoint find_next_from (i : Z) (c : list mm) : Z :=
  match c with
  | [] => -1
  | m :: c' => if using_ m =? 0 then i else find_next_from (i + 1) c'
  end.

Definition find_next (p : page) : Z := find_next_from 0 (chunks p).

(** ** [alloc]: the search loop over one page *)

(** How the loop over a page ends: a block was carved out ([Hit]), the loop
    stopped at a last chunk that is too small ([LastTooSmall]), or [tmp_idx]
    became -1 ([FellOff]). *)
Inductive scan : Type :=
| Hit (a : Z) (p : page)
| LastTooSmall
| FellOff.

(** What precedes [tmp] is made to point to the new descriptor: the
    [next_idx] of its predecessor, or the head of the list. *)
Definition relink (p : page) (tmp : mm) (new_idx : Z) : res page :=
  if prev_idx tmp =? -1 then Ok (set_head p new_idx)
  else pm ← aget (chunks p) (prev_idx tmp);
       c ← aset (chunks p) (prev_idx tmp) (set_next pm new_idx);
       Ok (set_chunks p c).

(** The branch of the loop that splits [tmp] (at [tmp_idx]) in two: the new
    descriptor takes the low [size] bytes. *)
Definition split_chunk (size : Z) (p : page) (tmp_idx : Z) (tmp : mm) : res scan :=
  let new_idx := find_next p in
  let new := Mm (addr tmp) size 1 1 tmp_idx
               (if prev_idx tmp =? -1 then -1 else prev_idx tmp) in
  p1 ← relink p tmp new_idx;
  let tmp' := Mm (addr tmp + chunk_size new) (chunk_size tmp - chunk_size new)
                (flag tmp) (using_ tmp) (next_idx tmp) new_idx in
  c2 ← aset (chunks p1) tmp_idx tmp';
  c3 ← aset c2 new_idx new;
  Ok (Hit (addr new) (set_chunks p1 c3)).

Fixpoint alloc_loop (fuel : nat) (size : Z) (p : page) (tmp_idx : Z) : res scan :=
  match fuel with
  | O => Stuck OutOfFuel
  | S fuel' =>
      if tmp_idx =? -1 then Ok FellOff else
      tmp ← aget (chunks p) tmp_idx;
      if (next_idx tmp =? -1) && (chunk_size tmp <? size) then Ok LastTooSmall else
      if (size <=? chunk_size tmp) && (flag tmp =? 0) then
        if chunk_size tmp =? size then
          c ← aset (chunks p) tmp_idx (set_flag tmp 1);
          Ok (Hit (addr tmp) (set_chunks p c))
        else split_chunk size p tmp_idx tmp
      else alloc_loop fuel' size p (next_idx tmp)
  end.

(** ** [dealloc]: the loop that clears the flag of the chunk at [a]

    [None] when the loop reaches the end of the list without finding it. *)
Fixpoint dealloc_loop (fuel : nat) (a : Z) (p : page) (tmp_idx : Z) : res (option page) :=
  match fuel with
  | O => Stuck OutOfFuel
  | S fuel' =>
      if tmp_idx =? -1 then Ok None else
      tmp ← aget (chunks p) tmp_idx;
      if addr tmp =? a then
        c ← aset (chunks p) tmp_idx (set_flag tmp 0);
        Ok (Some (set_chunks p c))
      else dealloc_loop fuel' a p (next_idx tmp)
  end.

(** ** [merge_chunk]: joins neighbouring free chunks

    [absorb] is the body of the [if]: the chunk after [tmp] is merged into it
    and its descriptor is given back. *)
Definition absorb (p : page) (tmp_idx : Z) (tmp : mm) : res page :=
  let del_idx := next_idx tmp in
  del ← aget (chunks p) del_idx;
  let tmp' := Mm (addr tmp) (chunk_size tmp + chunk_size del) (flag tmp) (using_ tmp)
                (next_idx del) (prev_idx tmp) in
  c1 ← (if next_idx del =? -1 then Ok (chunks p)
        else nm ← aget (chunks p) (next_idx del);
             aset (chunks p) (next_idx del) (set_prev nm tmp_idx));
  c2 ← aset c1 tmp_idx tmp';
  c3 ← aset c2 del_idx (set_using del 0);
  Ok (set_chunks p c3).

Fixpoint merge_loop (fuel : nat) (p : page) (tmp_idx : Z) : res page :=
  match fuel with
  | O => Stuck OutOfFuel
  | S fuel' =>
      if tmp_idx =? -1 then Ok p else
      tmp ← aget (chunks p) tmp_idx;
      b ← (if (flag tmp =? 0) && negb (next_idx tmp =? -1)
           then nx ← aget (chunks p) (next_idx tmp); Ok (flag nx =? 0)
           else Ok false);
      if (b : bool) then p' ← absorb p tmp_idx tmp; merge_loop fuel' p' tmp_idx
      else merge_loop fuel' p (next_idx tmp)
  end.

(** ** Representation *)

(** Descriptor [m] stands for segment [s] and is preceded by [prev]. *)
Definition node_ok (m : mm) (prev : Z) (s : seg) : Prop :=
  prev_idx m = prev /\ using_ m = 1 /\ addr m = s_addr s /\ chunk_size m = s_size s /\
  flag m = Z.b2z (s_used s).

(** A list segment: following [next_idx] from [idx], the table visits the
    indices [path], which stand for [segs]; it is entered from [prev] and left
    from [prev'] to [idx']. *)
Fixpoint lseg (c : list mm) (prev idx : Z) (path : list nat) (segs : list seg)
    (prev' idx' : Z) : Prop :=
  match path, segs with
  | [], [] => prev = prev' /\ idx = idx'
  | i :: path', s :: segs' =>
      idx = Z.of_nat i /\
      exists m, c !! i = Some m /\ node_ok m prev s /\
                lseg c (Z.of_nat i) (next_idx m) path' segs' prev' idx'
  | _, _ => False
  end.

Definition repr_path (p : page) (path : list nat) (segs : list seg) : Prop :=
  NoDup path /\
  (exists last, lseg (chunks p) (-1) (head_idx p) path segs last (-1)) /\
  (forall i m, chunks p !! i = Some m -> i ∉ path -> using_ m = 0).

(** The table of [max] descriptors represents the segments [segs]. *)
Definition repr (max : nat) (p : page) (segs : list seg) : Prop :=
  length (chunks p) = max /\ exists path, repr_path p path segs.

(** ** Lemmas on list segments *)

Lemma idx_not_end (i : nat) : (Z.of_nat i =? -1) = false.
Proof. apply Z.eqb_neq. lia. Qed.

Lemma lseg_length c prev idx path segs prev' idx' :
  lseg c prev idx path segs prev' idx' -> length path = length segs.
Proof.
  revert prev idx segs. induction path as [|i path IH]; intros prev idx [|s segs]; simpl; try done.
  intros (_ & m & _ & _ & H). f_equal. by eapply IH.
Qed.

(** A list segment only depends on the descriptors along its path. *)
Lemma lseg_frame c c' prev idx path segs prev' idx' :
  (forall i, i ∈ path -> c' !! i = c !! i) ->
  lseg c prev idx path segs prev' idx' -> lseg c' prev idx path segs prev' idx'.
Proof.
  revert prev idx segs. induction path as [|i path IH]; intros prev idx [|s segs] Hc; simpl; try done.
  intros (-> & m & Hm & Hok & H). split; [done|]. exists m. rewrite Hc by set_solver.
  split_and!; try done. apply IH; [|done]. intros j Hj. apply Hc. set_solver.
Qed.

Lemma lseg_insert_notin c i m prev idx path segs prev' idx' :
  i ∉ path ->
  lseg c prev idx path segs prev' idx' -> lseg (<[i := m]> c) prev idx path segs prev' idx'.
Proof.
  intros Hi. apply lseg_frame. intros j Hj. apply list_lookup_insert_ne. set_solver.
Qed.

Lemma lseg_app c prev idx p1 s1 p2 s2 mid_prev mid prev' idx' :
  lseg c prev idx p1 s1 mid_prev mid ->
  lseg c mid_prev mid p2 s2 prev' idx' ->
  lseg c prev idx (p1 ++ p2) (s1 ++ s2) prev' idx'.
Proof.
  revert prev idx s1. induction p1 as [|i p1 IH]; intros prev idx [|s s1]; simpl; try done.
  - by intros [-> ->].
  - intros (-> & m & Hm & Hok & H1) H2. split; [done|]. exists m. split_and!; eauto.
Qed.

Lemma lseg_bound c prev idx path segs prev' idx' i :
  lseg c prev idx path segs prev' idx' -> i ∈ path -> (i < length c)%nat.
Proof.
  revert prev idx segs. induction path as [|j path IH]; intros prev idx [|s segs]; simpl; try set_solver.
  intros (_ & m & Hm & _ & H) Hi. apply elem_of_cons in Hi as [->|Hi]; [by eapply lookup_lt_Some|].
  by eapply IH.
Qed.

Lemma lseg_using c prev idx path segs prev' idx' i m :
  lseg c prev idx path segs prev' idx' -> i ∈ path -> c !! i = Some m -> using_ m = 1.
Proof.
  revert prev idx segs. induction path as [|j path IH]; intros prev idx [|s segs]; simpl; try set_solver.
  intros (_ & m' & Hm & Hok & H) Hi Hm'. apply elem_of_cons in Hi as [->|Hi].
  - destruct Hok as (_ & Hu & _). congruence.
  - by eapply IH.
Qed.

(** The end of a non-empty list segment: its last descriptor points to
    [idx'], and can be redirected. *)
Lemma lseg_snoc_inv c prev idx path i segs prev' idx' :
  lseg c prev idx (path ++ [i]) segs prev' idx' ->
  exists segs' s m, segs = segs' ++ [s] /\ c !! i = Some m /\ prev' = Z.of_nat i /\
    next_idx m = idx' /\ node_ok m (prev_idx m) s /\
    lseg c prev idx path segs' (prev_idx m) (Z.of_nat i).
Proof.
  revert prev idx segs. induction path as [|j path IH]; intros prev idx [|s segs]; simpl; try done.
  - intros (-> & m & Hm & Hok & H). destruct segs; simpl in H; [|done]. destruct H as [<- <-].
    assert (prev_idx m = prev) as Hp by apply Hok.
    exists [], s, m. rewrite Hp. done.
  - intros (-> & m & Hm & Hok & H). apply IH in H as (segs' & s' & m' & -> & Hm' & -> & Hn & Hok' & H).
    exists (s :: segs'), s', m'. split_and!; try done. exists m. done.
Qed.

Lemma node_ok_set_next m prev s k : node_ok m prev s -> node_ok (set_next m k) prev s.
Proof. done. Qed.

Lemma node_ok_set_prev m prev s k : node_ok m prev s -> node_ok (set_prev m k) k s.
Proof. intros (_ & H). done. Qed.

Lemma lseg_retarget c prev idx path i segs prev' idx' m k :
  NoDup (path ++ [i]) -> c !! i = Some m ->
  lseg c prev idx (path ++ [i]) segs prev' idx' ->
  lseg (<[i := set_next m k]> c) prev idx (path ++ [i]) segs (Z.of_nat i) k.
Proof.
  intros Hnd Hm H. apply lseg_snoc_inv in H as (segs' & s & m' & -> & Hm' & -> & _ & Hok & H).
  assert (m' = m) as -> by congruence. apply NoDup_app in Hnd as (_ & Hni & _).
  eapply lseg_app.
  - apply lseg_insert_notin; [|exact H]. set_solver.
  - simpl. split; [done|]. exists (set_next m k).
    rewrite list_lookup_insert_eq by (by eapply lookup_lt_Some).
    by split_and!.
Qed.

(** The first descriptor of a list segment can be given another
    predecessor. *)
Lemma lseg_reprev c prev idx i path s segs prev' idx' m k :
  i ∉ path -> c !! i = Some m ->
  lseg c prev idx (i :: path) (s :: segs) prev' idx' ->
  lseg (<[i := set_prev m k]> c) k idx (i :: path) (s :: segs) prev' idx'.
Proof.
  intros Hi Hm (-> & m' & Hm' & Hok & H). assert (m' = m) as -> by congruence. simpl. split; [done|].
  exists (set_prev m k). rewrite list_lookup_insert_eq by (by eapply lookup_lt_Some).
  split_and!; [done|by eapply node_ok_set_prev|]. by apply lseg_insert_notin.
Qed.

(** ** [find_next] *)

Lemma find_next_from_spec i c :
  0 <= i ->
  match find_next_from i c with
  | -1 => forall j m, c !! j = Some m -> using_ m <> 0
  | k => exists j m, k = i + Z.of_nat j /\ c !! j = Some m /\ using_ m = 0
  end.
Proof.
  revert i. induction c as [|m c IH]; intros i Hi; simpl; [done|]. case_if.
  - destruct i as [|i|i]; [| |lia]; exists 0%nat, m; split_and!; [lia|done|done|lia|done|done].
  - specialize (IH (i + 1) ltac:(lia)).
    assert (forall k, (exists j m0, k = i + 1 + Z.of_nat j /\ c !! j = Some m0 /\ using_ m0 = 0) ->
      exists j m0, k = i + Z.of_nat j /\ (m :: c) !! j = Some m0 /\ using_ m0 = 0) as Hs.
    { intros k (j & m0 & -> & Hj & H0). exists (S j), m0. split_and!; [lia|done|done]. }
    destruct (find_next_from (i + 1) c) as [|k|[k|k|]]; try by apply Hs.
    intros [|j] m0 Hj; simpl in Hj; [by simplify_eq|eauto].
Qed.

(** While fewer descriptors are linked than the table holds, [find_next] finds
    one outside the list. *)
Lemma find_next_repr p path segs :
  repr_path p path segs -> (length segs < length (chunks p))%nat ->
  exists k m, find_next p = Z.of_nat k /\ chunks p !! k = Some m /\ k ∉ path.
Proof.
  intros (Hnd & [last Hl] & Hout) Hlt.
  pose proof (find_next_from_spec 0 (chunks p) ltac:(lia)) as Hf. fold (find_next p) in Hf.
  assert ((exists j m, find_next p = 0 + Z.of_nat j /\ chunks p !! j = Some m /\ using_ m = 0) \/
          (forall j m, chunks p !! j = Some m -> using_ m <> 0)) as [(k & m & -> & Hm & H0)|Hall].
  { destruct (find_next p) as [|?|[?|?|]]; eauto. }
  - exists k, m. split_and!; [lia|done|]. intros Hk.
    pose proof (lseg_using _ _ _ _ _ _ _ _ _ Hl Hk Hm). lia.
  - exfalso. apply lseg_length in Hl.
    assert (length (chunks p) <= length path)%nat; [|lia].
    apply covers_length. intros i Hi. destruct (lookup_lt_is_Some_2 _ _ Hi) as [m Hm].
    destruct (decide (i ∈ path)) as [|Hn]; [done|]. by destruct (Hall i m Hm (Hout i m Hm Hn)).
Qed.

(** ** The loops refine the operations on segments *)

(** A scan in progress: [pre] has been visited, [path] is still ahead. *)
Record scanning (p : page) (pre : list nat) (spre : list seg) (prev idx : Z)
    (path : list nat) (segs : list seg) : Prop := Scanning {
  sc_nodup : NoDup (pre ++ path);
  sc_pre : lseg (chunks p) (-1) (head_idx p) pre spre prev idx;
  sc_rest : exists last, lseg (chunks p) prev idx path segs last (-1);
  sc_out : forall i m, chunks p !! i = Some m -> i ∉ pre ++ path -> using_ m = 0
}.

Lemma repr_scanning p path segs :
  repr_path p path segs -> scanning p [] [] (-1) (head_idx p) path segs.
Proof. intros (Hnd & Hl & Hout). by split. Qed.

Lemma scanning_repr p pre spre prev idx path segs :
  scanning p pre spre prev idx path segs -> repr_path p (pre ++ path) (spre ++ segs).
Proof.
  intros [Hnd H1 [last H2] Hout]. split_and!; [done| |done].
  exists last. by eapply lseg_app.
Qed.

(** One step of a scan. *)
Lemma scanning_cons p pre spre prev idx i path s segs :
  scanning p pre spre prev idx (i :: path) (s :: segs) ->
  exists m, idx = Z.of_nat i /\ chunks p !! i = Some m /\ node_ok m prev s /\
    scanning p (pre ++ [i]) (spre ++ [s]) (Z.of_nat i) (next_idx m) path segs.
Proof.
  intros [Hnd H1 [last (-> & m & Hm & Hok & H2)] Hout]. exists m. split_and!; try done. split.
  - by rewrite <- app_assoc.
  - eapply lseg_app; [exact H1|]. simpl. split; [done|]. exists m. by split_and!.
  - by exists last.
  - by rewrite <- app_assoc.
Qed.

(** Changing the flag of the current descriptor changes the segment. *)
Lemma scanning_set_flag p pre spre prev idx i path s segs m (b : bool) :
  scanning p pre spre prev idx (i :: path) (s :: segs) -> chunks p !! i = Some m ->
  repr_path (set_chunks p (<[i := set_flag m (Z.b2z b)]> (chunks p))) (pre ++ i :: path)
    (spre ++ Seg (s_addr s) (s_size s) b :: segs).
Proof.
  intros [Hnd H1 [last (-> & m' & Hm' & Hok & H2)] Hout] Hm.
  assert (m' = m) as -> by congruence.
  pose proof Hnd as (_ & Hpre & [Hi _]%NoDup_cons)%NoDup_app.
  split_and!; [done| |].
  - exists last. simpl. eapply lseg_app.
    + apply lseg_insert_notin; [|exact H1]. set_solver.
    + simpl. split; [done|]. exists (set_flag m (Z.b2z b)).
      rewrite list_lookup_insert_eq by (by eapply lookup_lt_Some).
      split_and!; [done| |by apply lseg_insert_notin].
      destruct Hok as (? & ? & ? & ? & ?). done.
  - simpl. intros j mj Hj Hn. rewrite list_lookup_insert_ne in Hj by set_solver. eauto.
Qed.

(** [relink] makes the visited part of the list lead to [k]. *)
Lemma relink_spec p pre spre prev idx i path s segs m (k : nat) :
  scanning p pre spre prev idx (i :: path) (s :: segs) -> chunks p !! i = Some m ->
  exists p1 last, relink p m (Z.of_nat k) = Ok p1 /\ length (chunks p1) = length (chunks p) /\
    lseg (chunks p1) (-1) (head_idx p1) pre spre prev (Z.of_nat k) /\
    lseg (chunks p1) (Z.of_nat i) (next_idx m) path segs last (-1) /\
    (forall j mj, chunks p1 !! j = Some mj -> j ∉ pre ++ i :: path -> using_ mj = 0).
Proof.
  intros [Hnd H1 [last (-> & m' & Hm' & Hok & H2)] Hout] Hm.
  assert (m' = m) as -> by congruence. destruct Hok as [Hprev _].
  pose proof Hnd as (_ & Hpre & _)%NoDup_app. unfold relink. rewrite Hprev.
  destruct pre as [|j0 pre _] using rev_ind.
  - destruct spre; simpl in H1; [|done]. destruct H1 as [<- Hh].
    exists (set_head p (Z.of_nat k)), last. by split_and!.
  - pose proof H1 as (segs' & s0 & m0 & -> & Hm0 & -> & _)%lseg_snoc_inv.
    rewrite idx_not_end, (aget_nat _ _ _ Hm0). cbn. rewrite aset_nat by (by eapply lookup_lt_Some). cbn.
    exists (set_chunks p (<[j0 := set_next m0 (Z.of_nat k)]> (chunks p))), last.
    split_and!; [done|by apply length_insert| | |].
    + eapply lseg_retarget; [|done|exact H1]. apply NoDup_app in Hnd. naive_solver.
    + apply lseg_insert_notin; [|done]. intros Hj. apply (Hpre j0); set_solver.
    + cbn. intros j mj Hj Hn. rewrite list_lookup_insert_ne in Hj by set_solver. eauto.
Qed.

(** Splitting the current chunk: a fresh descriptor takes its low end and
    enters the list just before it. *)
Lemma split_chunk_spec size p pre spre prev idx i path s segs m :
  scanning p pre spre prev idx (i :: path) (s :: segs) -> chunks p !! i = Some m ->
  (length (spre ++ s :: segs) < length (chunks p))%nat ->
  s_used s = false ->
  exists p' path', split_chunk size p idx m = Ok (Hit (s_addr s) p') /\
    length (chunks p') = length (chunks p) /\
    repr_path p' path' (spre ++ Seg (s_addr s) size true
                             :: Seg (s_addr s + size) (s_size s - size) false :: segs).
Proof.
  intros Hsc Hm Hroom Hfree.
  destruct (find_next_repr p _ _ (scanning_repr _ _ _ _ _ _ _ Hsc) Hroom) as (k & mk & Hfind & Hk & Hnk).
  destruct (relink_spec _ _ _ _ _ _ _ _ _ _ k Hsc Hm) as (p1 & last & Heq & Hlen & Hl1 & Hl2 & Hout).
  destruct (scanning_cons _ _ _ _ _ _ _ _ _ Hsc) as (m' & -> & Hm' & Hok & _).
  assert (m' = m) as -> by congruence. destruct Hok as (Hprev & Hu & Ha & Hs & Hf).
  pose proof (sc_nodup _ _ _ _ _ _ _ Hsc) as (Hndpre & Hpre & Hnd2)%NoDup_app.
  pose proof Hnd2 as [Hi Hndp]%NoDup_cons.
  pose proof (lookup_lt_Some _ _ _ Hm) as Hil. pose proof (lookup_lt_Some _ _ _ Hk) as Hkl.
  assert (k <> i) as Hki by set_solver.
  set (new := Mm (addr m) size 1 1 (Z.of_nat i) prev).
  set (tmp' := Mm (addr m + size) (chunk_size m - size) (flag m) (using_ m) (next_idx m) (Z.of_nat k)).
  exists (set_chunks p1 (<[k := new]> (<[i := tmp']> (chunks p1)))), (pre ++ k :: i :: path).
  unfold repr_path. split_and!.
  - unfold split_chunk. rewrite Hfind, Heq. cbn. rewrite aset_nat by lia. cbn.
    rewrite aset_nat by (rewrite length_insert; lia). cbn. unfold new, tmp'.
    rewrite Ha, Hprev. by destruct (Z.eqb_spec prev (-1)) as [->|].
  - cbn. by rewrite !length_insert.
  - apply NoDup_app. split_and!; [done| |constructor; [set_solver|done]].
    intros x Hx. specialize (Hpre x Hx). set_solver.
  - exists last. cbn. eapply lseg_app.
    + do 2 (apply lseg_insert_notin; [set_solver|]). exact Hl1.
    + simpl. split; [done|]. exists new.
      rewrite list_lookup_insert_eq by (rewrite length_insert; lia).
      split; [done|]. split; [by split_and!|]. split; [done|]. exists tmp'.
      rewrite list_lookup_insert_ne, list_lookup_insert_eq by lia.
      split; [done|]. rewrite Hfree in Hf.
      split; [unfold node_ok; cbn; rewrite Ha, Hs; by split_and!|].
      by do 2 (apply lseg_insert_notin; [set_solver|]).
  - cbn. intros j mj Hj Hn. rewrite !list_lookup_insert_ne in Hj by set_solver.
    apply (Hout j mj Hj). set_solver.
Qed.

(** What the loop reports when no chunk fits depends on the last chunk. *)
Definition no_fit (size : Z) (segs : list seg) : scan :=
  match last segs with
  | Some s => if s_size s <? size then LastTooSmall else FellOff
  | None => FellOff
  end.

(** The loop ends with [r] as [first_fit] says on the segments ahead. *)
Definition scan_post (size : Z) (p : page) (r : res scan) (spre segs : list seg) : Prop :=
  match first_fit size segs with
  | Some (a, segs') => exists p' path', r = Ok (Hit a p') /\
      length (chunks p') = length (chunks p) /\ repr_path p' path' (spre ++ segs')
  | None => r = Ok (no_fit size segs)
  end.

Lemma scan_post_skip size p r spre s segs :
  negb (s_used s) && (size <=? s_size s) = false -> segs <> [] ->
  scan_post size p r (spre ++ [s]) segs -> scan_post size p r spre (s :: segs).
Proof.
  intros Hskip Hne. unfold scan_post. cbn [first_fit]. rewrite Hskip.
  destruct (first_fit size segs) as [[a segs']|].
  - intros (p' & path' & -> & ? & Hr). exists p', path'. by rewrite <- app_assoc in Hr.
  - intros ->. by destruct segs.
Qed.

Lemma scanning_next_end p pre spre prev m path segs :
  scanning p pre spre prev (next_idx m) path segs ->
  (next_idx m =? -1) = bool_decide (segs = []).
Proof.
  intros Hsc. pose proof (sc_rest _ _ _ _ _ _ _ Hsc) as [l Hl]. destruct path as [|j path], segs; try done.
  - destruct Hl as [_ ->]. done.
  - destruct Hl as [-> _]. apply idx_not_end.
Qed.

Lemma alloc_loop_spec fuel size p pre spre prev idx path segs :
  scanning p pre spre prev idx path segs ->
  (length path < fuel)%nat ->
  (forall s, s ∈ segs -> s_used s = false -> size < s_size s ->
     (length (spre ++ segs) < length (chunks p))%nat) ->
  scan_post size p (alloc_loop fuel size p idx) spre segs.
Proof.
  revert fuel pre spre prev idx segs.
  induction path as [|i path IH]; intros fuel pre spre prev idx segs Hsc Hfuel Hroom.
  { destruct Hsc as [_ _ [l Hl] _]. destruct segs; [|done]. destruct Hl as [_ ->].
    destruct fuel; [lia|done]. }
  destruct segs as [|s segs]; [by destruct Hsc as [_ _ [l Hl] _]|].
  destruct (scanning_cons _ _ _ _ _ _ _ _ _ Hsc) as (m & -> & Hm & Hok & Hnext).
  pose proof Hok as (_ & _ & Ha & Hs & Hf).
  destruct fuel as [|fuel]; [lia|]. cbn [alloc_loop].
  rewrite idx_not_end, (aget_nat _ _ _ Hm). cbn. simpl in Hfuel.
  specialize (IH fuel _ _ _ _ _ Hnext ltac:(lia)). rewrite <- app_assoc in IH. simpl in IH.
  specialize (IH ltac:(intros; eapply Hroom; [by right|done|done])).
  rewrite (scanning_next_end _ _ _ _ _ _ _ Hnext), Hf, Hs.
  destruct (negb (s_used s) && (size <=? s_size s)) eqn:Hfit.
  - zbool. replace (s_used s) with false by done. cbn [Z.b2z].
    rewrite (proj2 (Z.ltb_ge _ _)), (proj2 (Z.leb_le _ _)), andb_false_r by done.
    unfold scan_post. cbn [first_fit]. rewrite (proj2 (Z.leb_le _ _)) by done.
    replace (s_used s) with false by done. cbn.
    destruct (Z.eqb_spec (s_size s) size) as [Heq|Hne].
    + rewrite aset_nat by (by eapply lookup_lt_Some). cbn. rewrite Ha.
      eexists _, _. split_and!; [done|apply length_insert|]. rewrite <- Heq.
      by apply (scanning_set_flag _ _ _ _ _ _ _ _ _ _ true Hsc).
    + eapply split_chunk_spec; [done|done| |done]. eapply Hroom; [by left|done|lia].
  - replace ((size <=? s_size s) && (Z.b2z (s_used s) =? 0)) with false
      by (destruct (s_used s); [by rewrite andb_false_r|by rewrite andb_true_r]).
    destruct segs as [|s' segs].
    + unfold scan_post, no_fit. cbn. rewrite Hfit. destruct (s_size s <? size); [done|exact IH].
    + apply scan_post_skip; [done|done|]. exact IH.
Qed.

Lemma dealloc_loop_spec fuel a p pre spre prev idx path segs :
  scanning p pre spre prev idx path segs ->
  (length path < fuel)%nat ->
  match mark_free a segs with
  | Some segs' => exists p', dealloc_loop fuel a p idx = Ok (Some p') /\
      length (chunks p') = length (chunks p) /\ repr_path p' (pre ++ path) (spre ++ segs')
  | None => dealloc_loop fuel a p idx = Ok None
  end.
Proof.
  revert fuel pre spre prev idx segs.
  induction path as [|i path IH]; intros fuel pre spre prev idx segs Hsc Hfuel.
  { destruct Hsc as [_ _ [l Hl] _]. destruct segs; [|done]. destruct Hl as [_ ->].
    destruct fuel; [lia|done]. }
  destruct segs as [|s segs]; [by destruct Hsc as [_ _ [l Hl] _]|].
  destruct (scanning_cons _ _ _ _ _ _ _ _ _ Hsc) as (m & -> & Hm & Hok & Hnext).
  pose proof Hok as (_ & _ & Ha & _).
  destruct fuel as [|fuel]; [lia|]. cbn [dealloc_loop mark_free].
  rewrite idx_not_end, (aget_nat _ _ _ Hm). cbn. simpl in Hfuel.
  specialize (IH fuel _ _ _ _ _ Hnext ltac:(lia)). rewrite Ha.
  destruct (s_addr s =? a).
  - rewrite aset_nat by (by eapply lookup_lt_Some). cbn.
    eexists. split_and!; [done|apply length_insert|].
    by apply (scanning_set_flag _ _ _ _ _ _ _ _ _ _ false Hsc).
  - destruct (mark_free a segs) as [segs'|]; [|exact IH].
    destruct IH as (p' & -> & ? & Hr). exists p'. by rewrite <- !app_assoc in Hr.
Qed.

(** Taking the chunk after the current one out of the list: its successor, if
    there is one, gets the current chunk as predecessor. *)
Lemma unlink_succ c (i : nat) prev idx path segs last :
  lseg c prev idx path segs last (-1) -> NoDup path ->
  exists c1, (if idx =? -1 then Ok c else nm ← aget c idx; aset c idx (set_prev nm (Z.of_nat i))) = Ok c1 /\
    length c1 = length c /\ (forall k, k ∉ path -> c1 !! k = c !! k) /\
    exists last', lseg c1 (Z.of_nat i) idx path segs last' (-1).
Proof.
  intros Hl Hnd. destruct path as [|j path], segs as [|s segs]; try done.
  - destruct Hl as [-> ->]. exists c. split_and!; try done. by exists (Z.of_nat i).
  - pose proof Hl as (-> & m & Hm & _). rewrite idx_not_end, (aget_nat _ _ _ Hm). cbn.
    apply NoDup_cons in Hnd as [Hj _].
    rewrite aset_nat by (by eapply lookup_lt_Some). eexists. split; [done|].
    split_and!; [apply length_insert|intros k Hk; apply list_lookup_insert_ne; set_solver|].
    exists last. by eapply lseg_reprev.
Qed.

Lemma absorb_spec p pre spre prev i j path s t segs m :
  scanning p pre spre prev (Z.of_nat i) (i :: j :: path) (s :: t :: segs) ->
  chunks p !! i = Some m -> s_used s = false ->
  exists p', absorb p (Z.of_nat i) m = Ok p' /\ length (chunks p') = length (chunks p) /\
    scanning p' pre spre prev (Z.of_nat i) (i :: path)
      (Seg (s_addr s) (s_size s + s_size t) false :: segs).
Proof.
  intros [Hnd H1 [last (_ & m' & Hm' & Hok & (Hnx & d & Hd & Hdok & H2))] Hout] Hm Hfree.
  assert (m' = m) as -> by congruence. clear Hm'.
  pose proof Hnd as (Hndpre & Hpre & [Hi Hndj]%NoDup_cons)%NoDup_app.
  pose proof Hndj as [Hj Hndp]%NoDup_cons.
  pose proof (lookup_lt_Some _ _ _ Hm) as Hil. pose proof (lookup_lt_Some _ _ _ Hd) as Hjl.
  destruct (unlink_succ _ i _ _ _ _ _ H2 Hndp) as (c1 & Heq & Hlen & Hframe & last' & H3).
  unfold absorb. rewrite Hnx, (aget_nat _ _ _ Hd). cbn. rewrite Heq. cbn.
  rewrite aset_nat by lia. cbn. rewrite aset_nat by (rewrite length_insert; lia). cbn.
  eexists. split; [done|]. cbn. rewrite !length_insert. split; [done|].
  destruct Hok as (Hp & Hu & Ha & Hs & Hf), Hdok as (_ & _ & _ & Hds & _).
  assert (i <> j) by set_solver. split; cbn.
  - apply NoDup_app. split_and!; [done|intros x Hx; specialize (Hpre x Hx); set_solver|].
    constructor; [set_solver|done].
  - do 2 (apply lseg_insert_notin; [intros Hx; apply (Hpre _ Hx); set_solver|]).
    eapply lseg_frame; [|exact H1]. intros k Hk. apply Hframe. specialize (Hpre k Hk). set_solver.
  - exists last'. split; [done|].
    eexists. rewrite list_lookup_insert_ne, list_lookup_insert_eq by lia. split; [done|].
    split; [unfold node_ok; cbn; rewrite Hs, Hds, Hf, Hfree; by split_and!|].
    cbn. by do 2 (apply lseg_insert_notin; [set_solver|]).
  - intros k mk Hk Hn. destruct (decide (k = j)) as [->|Hkj].
    + rewrite list_lookup_insert_eq in Hk by (rewrite length_insert; lia). by injection Hk as <-.
    + rewrite !list_lookup_insert_ne in Hk by set_solver. rewrite Hframe in Hk by set_solver.
      apply (Hout k mk Hk). set_solver.
Qed.

Lemma merge_loop_spec fuel p pre spre prev i path s segs :
  scanning p pre spre prev (Z.of_nat i) (i :: path) (s :: segs) ->
  (S (length path) < fuel)%nat ->
  exists p' path', merge_loop fuel p (Z.of_nat i) = Ok p' /\
    length (chunks p') = length (chunks p) /\ repr_path p' path' (spre ++ coalesce_from s segs).
Proof.
  revert p pre spre prev i path s segs.
  induction fuel as [|fuel IH]; intros p pre spre prev i path s segs Hsc Hfuel; [lia|].
  destruct (scanning_cons _ _ _ _ _ _ _ _ _ Hsc) as (m & _ & Hm & Hok & Hnext).
  pose proof Hok as (_ & _ & _ & _ & Hf).
  cbn [merge_loop]. rewrite idx_not_end, (aget_nat _ _ _ Hm). cbn.
  rewrite (scanning_next_end _ _ _ _ _ _ _ Hnext).
  destruct path as [|j path], segs as [|t segs];
    try by destruct (sc_rest _ _ _ _ _ _ _ Hnext) as [? ?].
  - (* last chunk: the loop leaves the list at the next iteration *)
    rewrite andb_false_r. destruct (sc_rest _ _ _ _ _ _ _ Hnext) as [? [_ ->]].
    destruct fuel; [simpl in Hfuel; lia|]. cbn. eexists _, _. split_and!; [done|done|].
    exact (scanning_repr _ _ _ _ _ _ _ Hsc).
  - destruct (scanning_cons _ _ _ _ _ _ _ _ _ Hnext) as (d & Hnx & Hd & Hdok & _).
    pose proof Hdok as (_ & _ & _ & _ & Hdf). cbn [length] in Hfuel.
    rewrite Hf, Hnx. cbn [bool_decide negb]. rewrite andb_true_r, (aget_nat _ _ _ Hd). cbn.
    rewrite Hdf.
    destruct (negb (s_used s) && negb (s_used t)) eqn:Hb.
    + zbool. replace (s_used s) with false by done. replace (s_used t) with false by done. cbn.
      destruct (absorb_spec _ _ _ _ _ _ _ _ _ _ _ Hsc Hm ltac:(done)) as (p1 & -> & Hlen & Hsc1). cbn.
      destruct (IH _ _ _ _ _ _ _ _ Hsc1 ltac:(lia)) as (p' & path' & -> & Hlen' & Hr).
      exists p', path'. split_and!; [done|congruence|done].
    + replace (if Z.b2z (s_used s) =? 0 then Ok (Z.b2z (s_used t) =? 0) else Ok false) with
        (Ok false) by (by destruct (s_used s), (s_used t)).
      cbn. rewrite Hnx in Hnext. destruct (IH _ _ _ _ _ _ _ _ Hnext ltac:(lia)) as (p' & path' & -> & ? & Hr).
      exists p', path'. by rewrite <- app_assoc in Hr.
Qed.

(** ** Pages in their invariant *)

Section page_ok.
(** A table of [max] descriptors for a page of [max] units of memory. *)
Context (max : nat) (unit : Z).

Definition page_ok (base : Z) (p : page) (segs : list seg) : Prop :=
  0 < base /\ repr max p segs /\ tiles unit base segs (base + unit * Z.of_nat max).

(** A request that is served in units. *)
Definition size_ok (size : Z) : Prop := 0 < size <= unit * Z.of_nat max /\ (unit | size).

Context (Hmax : (0 < max)%nat) (Hunit : 0 < unit).

Lemma page_ok_path base p segs :
  page_ok base p segs ->
  exists path, repr_path p path segs /\ (length path <= max)%nat /\ length (chunks p) = max.
Proof using Hmax Hunit.
  intros (_ & (Hlen & path & Hr) & _). exists path. split_and!; [done| |done].
  pose proof Hr as (Hnd & [l Hl] & _). rewrite <- Hlen.
  rewrite <- (length_seq (length (chunks p)) 0). apply submseteq_length.
  apply NoDup_submseteq; [done|]. intros x Hx. apply elem_of_seq.
  pose proof (lseg_bound _ _ _ _ _ _ _ _ Hl Hx). lia.
Qed.

(** The first descriptor of the list describes the start of the page. *)
Lemma page_ok_head base p segs :
  page_ok base p segs ->
  exists i path s segs' m, segs = s :: segs' /\ repr_path p (i :: path) segs /\
    (length path < max)%nat /\ head_idx p = Z.of_nat i /\ chunks p !! i = Some m /\ addr m = base.
Proof using Hmax Hunit.
  intros Hok. destruct (page_ok_path _ _ _ Hok) as (path & Hr & Hpl & Hlen).
  destruct Hok as (Hb & _ & Ht). destruct segs as [|s segs]; [simpl in Ht; nia|].
  pose proof (repr_scanning _ _ _ Hr) as Hsc.
  destruct path as [|i path]; [by destruct (sc_rest _ _ _ _ _ _ _ Hsc) as [? ?]|].
  destruct (scanning_cons _ _ _ _ _ _ _ _ _ Hsc) as (m & Hh & Hm & (_ & _ & Ha & _) & _).
  exists i, path, s, segs, m. destruct Ht as (Hs & _). simpl in Hpl.
  do 2 (split; [done|]). split; [lia|]. do 2 (split; [done|]). congruence.
Qed.

Lemma page_alloc_loop base p segs size :
  page_ok base p segs -> 0 < size -> (unit | size) ->
  match first_fit size segs with
  | Some (a, segs') => exists p', alloc_loop (S max) size p (head_idx p) = Ok (Hit a p') /\
      page_ok base p' segs'
  | None => alloc_loop (S max) size p (head_idx p) = Ok (no_fit size segs)
  end.
Proof using Hmax Hunit.
  intros Hok Hs Hd. destruct (page_ok_path _ _ _ Hok) as (path & Hr & Hpl & Hlen).
  pose proof Hok as (Hb & _ & Ht).
  pose proof (alloc_loop_spec (S max) size p [] [] _ _ path segs (repr_scanning _ _ _ Hr)) as Hpost.
  unfold scan_post in Hpost. destruct (first_fit size segs) as [[a segs']|] eqn:Hff.
  - destruct Hpost as (p' & path' & -> & Hlen' & Hr'); [lia| |].
    { intros s Hin _ Hlt. pose proof (tiles_length_lt _ _ _ _ _ _ Hunit Hd Hs Hin Hlt Ht). simpl. nia. }
    exists p'. split; [done|]. split_and!; [done| |by eapply (first_fit_tiles unit size)].
    split; [lia|by exists path'].
  - apply Hpost; [lia|]. intros s Hin _ Hlt.
    pose proof (tiles_length_lt _ _ _ _ _ _ Hunit Hd Hs Hin Hlt Ht). simpl. nia.
Qed.

Lemma page_dealloc_loop base p segs a :
  page_ok base p segs ->
  match mark_free a segs with
  | Some segs' => exists p', dealloc_loop (S max) a p (head_idx p) = Ok (Some p') /\
      page_ok base p' segs'
  | None => dealloc_loop (S max) a p (head_idx p) = Ok None
  end.
Proof using Hmax Hunit.
  intros Hok. destruct (page_ok_path _ _ _ Hok) as (path & Hr & Hpl & Hlen).
  pose proof (dealloc_loop_spec (S max) a p [] [] _ _ path segs (repr_scanning _ _ _ Hr)
    ltac:(lia)) as Hd. destruct (mark_free a segs) as [segs'|] eqn:Hm; [|done].
  destruct Hd as (p1 & -> & Hlen1 & Hr1). exists p1. split; [done|].
  destruct Hok as (Hb & _ & Ht). split_and!; [done| |by eapply mark_free_tiles].
  split; [lia|by exists path].
Qed.

Lemma page_merge_loop base p segs :
  page_ok base p segs ->
  exists p', merge_loop (S max) p (head_idx p) = Ok p' /\ page_ok base p' (coalesce segs).
Proof using Hmax Hunit.
  intros Hok. destruct (page_ok_head _ _ _ Hok) as (i & path & s & segs' & m & -> & Hr & Hpl & Hh & _).
  pose proof (repr_scanning _ _ _ Hr) as Hsc. rewrite Hh in *.
  destruct (merge_loop_spec (S max) _ _ _ _ _ _ _ _ Hsc ltac:(lia)) as (p' & path' & -> & Hlen' & Hr').
  exists p'. split; [done|]. destruct Hok as (Hb & (Hlen & _) & Ht).
  split_and!; [done| |by apply (coalesce_tiles _ _ (s :: segs'))]. split; [lia|by exists path'].
Qed.

(** A page that was just mapped: one free segment, described by descriptor 0
    of a table in which no descriptor was in use. *)
Lemma page_fresh base (c : list mm) :
  0 < base -> length c = max -> (forall i m, c !! i = Some m -> using_ m = 0) ->
  page_ok base (Page 0 (<[0%nat := Mm base (unit * Z.of_nat max) 0 1 (-1) (-1)]> c))
    [Seg base (unit * Z.of_nat max) false].
Proof using Hmax Hunit.
  intros Hb Hlen Hz. split_and!; [done| |].
  - split; [cbn; by rewrite length_insert|]. exists [0%nat]. split_and!.
    + apply NoDup_singleton.
    + exists 0. split; [done|]. eexists. cbn. rewrite list_lookup_insert_eq by lia.
      split; [done|]. by split_and!.
    + intros i m Hm Hi. cbn in Hm. rewrite list_lookup_insert_ne in Hm by set_solver. eauto.
  - simpl. split_and!; [done|nia|by exists (Z.of_nat max); lia|done].
Qed.

End page_ok.
