(* ===== verification/AllocSpec.v ===== *)
(** The promise of a block allocator to its clients, as an interface: a
    successful request returns a block that overlaps no block the client
    holds, and giving a block back releases exactly that block.  [alloc.c] and
    [ealloc.c] are instances (files [Alloc] and [Ealloc]); the client's
    theorem is proved once, against the interface. *)

From S2P Require Import Prelude Segments.

Class BlockAllocator {St : Type} (op_alloc : Z -> St -> res (Z * St))
    (op_dealloc : Z -> St -> res St) : Type := {
  (** [ba_rep st blocks]: the live blocks of state [st] are [blocks]. *)
  ba_rep : St -> list (Z * Z) -> Prop;
  (** The request sizes the allocator serves. *)
  ba_valid : Z -> Prop;
  ba_disjoint : forall st bl, ba_rep st bl -> blocks_disjoint bl;
  ba_alloc : forall st bl size a st', ba_rep st bl -> ba_valid size ->
    op_alloc size st = Ok (a, st') ->
    exists bl', ba_rep st' bl' /\
      ((a = 0 /\ bl' ≡ₚ bl) \/ (a <> 0 /\ bl' ≡ₚ (a, size) :: bl));
  ba_dealloc : forall st bl a n, ba_rep st bl -> (a, n) ∈ bl ->
    exists st' bl', op_dealloc a st = Ok st' /\ ba_rep st' bl' /\ bl ≡ₚ (a, n) :: bl'
}.

(** A client: it requests blocks and gives back blocks it holds. *)
Inductive request : Type :=
| Request (size : Z)
| GiveBack (k : nat).

Section client.
Context {St : Type} (op_alloc : Z -> St -> res (Z * St)) (op_dealloc : Z -> St -> res St).

(** Runs the client's requests; [held] are the blocks it holds, newest
    first, and [GiveBack k] frees the [k]-th of them. *)
Fixpoint client (rs : list request) (st : St) (held : list (Z * Z)) : res (St * list (Z * Z)) :=
  match rs with
  | [] => Ok (st, held)
  | Request size :: rs' =>
      r ← op_alloc size st;
      client rs' r.2 (if r.1 =? 0 then held else (r.1, size) :: held)
  | GiveBack k :: rs' =>
      match held !! k with
      | Some b => st' ← op_dealloc b.1 st; client rs' st' (delete k held)
      | None => client rs' st held
      end
  end.

Context `{!BlockAllocator op_alloc op_dealloc}.

Lemma client_inv rs st held bl st' held' :
  ba_rep st bl -> bl ≡ₚ held ->
  (forall size, Request size ∈ rs -> ba_valid size) ->
  client rs st held = Ok (st', held') ->
  exists bl', ba_rep st' bl' /\ bl' ≡ₚ held' /\ blocks_disjoint held'.
Proof.
  revert st held bl. induction rs as [|[size|k] rs IH]; intros st held bl Hi Hl Hv Hr; simpl in Hr.
  - simplify_eq. exists bl. split_and!; [done|done|]. rewrite <- Hl. by eapply ba_disjoint.
  - destruct (op_alloc size st) as [[a st1]|] eqn:Ha; [|done]. cbn in Hr.
    destruct (ba_alloc _ _ _ _ _ Hi (Hv size ltac:(set_solver)) Ha) as (bl1 & Hi1 & [[-> Hl1]|[Hne Hl1]]).
    + apply (IH _ _ _ Hi1) in Hr; [done|by rewrite Hl1|set_solver].
    + rewrite (proj2 (Z.eqb_neq _ _)) in Hr by done.
      apply (IH _ _ _ Hi1) in Hr; [done|by rewrite Hl1, Hl|set_solver].
  - destruct (held !! k) as [[a n]|] eqn:Hk; [|by apply (IH _ _ _ Hi) in Hr; [..|set_solver]].
    pose proof (delete_Permutation _ _ _ Hk) as Hd.
    destruct (ba_dealloc st bl a n Hi) as (st1 & bl1 & Ho & Hi1 & Hl1).
    { rewrite Hl, Hd. set_solver. }
    simpl in Hr. rewrite Ho in Hr. apply (IH _ _ _ Hi1) in Hr; [done| |set_solver].
    rewrite Hl, Hd in Hl1. symmetry. by apply Permutation_cons_inv in Hl1.
Qed.
End client.
