(* ===== verification/Alloc.v ===== *)
(** The one-page allocator of project 5, [alloc.c]: [init_alloc], [cleanup],
    [alloc] and [dealloc] over the global chunk table.

    The page of memory comes from [mmap]; its address is an argument of
    [init_alloc], and the result of [munmap] is a function argument of
    [cleanup].  Addresses are the unsigned numbers of C pointers. *)

From S2P Require Import Prelude Segments Chunks AllocSpec.

Definition PAGESIZE : Z := 4096.
Definition MINALLOC : Z := 8.
Definition CHUNKMAX : nat := Z.to_nat (PAGESIZE / MINALLOC).

(** A descriptor of the zero-initialised table. *)
Definition mm_zero : mm := Mm 0 0 0 0 0 0.

(** [int head_idx = -1; mm chunks[CHUNKMAX];] at program start. *)
Definition heap0 : page := Page (-1) (replicate CHUNKMAX mm_zero).

Definition init_alloc (mmap_addr : Z) (p : page) : res (Z * page) :=
  if mmap_addr <? 0 then Ok (1, p) else
  c ← aset (chunks p) 0 (Mm mmap_addr PAGESIZE 0 1 (-1) (-1));
  Ok (0, Page 0 c).

Definition cleanup (munmap : Z -> Z) (p : page) : res (Z * page) :=
  h ← aget (chunks p) (head_idx p);
  let r := munmap (addr h) in
  Ok (if r <? 0 then 1 else 0, heap0).

Definition alloc (size : Z) (p : page) : res (Z * page) :=
  if negb (Z.rem size MINALLOC =? 0) || (PAGESIZE <? size) then Ok (0, p) else
  r ← alloc_loop (S CHUNKMAX) size p (head_idx p);
  match r with
  | Hit a p' => Ok (a, p')
  | LastTooSmall => Ok (0, p)
  | FellOff => Stuck Uninitialised
  end.

Definition merge_chunk (p : page) : res page := merge_loop (S CHUNKMAX) p (head_idx p).

Definition dealloc (a : Z) (p : page) : res page :=
  r ← dealloc_loop (S CHUNKMAX) a p (head_idx p);
  match r with
  | Some p' => merge_chunk p'
  | None => merge_chunk p
  end.

(** ** Invariant *)

(** The table represents a list of segments that tile the page at [base]. *)
Definition heap_ok (base : Z) (p : page) (segs : list seg) : Prop :=
  page_ok CHUNKMAX MINALLOC base p segs.

(** A request the allocator accepts: a positive multiple of [MINALLOC] of at
    most a page. *)
Definition valid_size (size : Z) : Prop := size_ok CHUNKMAX MINALLOC size.

Lemma CHUNKMAX_pos : (0 < CHUNKMAX)%nat.
Proof. vm_compute. lia. Qed.

Lemma MINALLOC_pos : 0 < MINALLOC.
Proof. done. Qed.

Lemma page_bytes : MINALLOC * Z.of_nat CHUNKMAX = PAGESIZE.
Proof. reflexivity. Qed.

Lemma valid_size_guard size :
  valid_size size -> negb (Z.rem size MINALLOC =? 0) || (PAGESIZE <? size) = false.
Proof.
  intros [Hs Hd]. apply orb_false_iff. split; [|apply Z.ltb_ge; apply Hs].
  apply negb_false_iff, Z.eqb_eq. apply Z.rem_divide; [done|done].
Qed.

(** [alloc] on a valid request, in terms of [first_fit]. *)
Lemma alloc_spec base p segs size :
  heap_ok base p segs -> valid_size size ->
  match first_fit size segs with
  | Some (a, segs') => exists p', alloc size p = Ok (a, p') /\ heap_ok base p' segs'
  | None => alloc size p =
      match no_fit size segs with LastTooSmall => Ok (0, p) | _ => Stuck Uninitialised end
  end.
Proof.
  intros Hok Hv. unfold alloc. rewrite (valid_size_guard _ Hv). destruct Hv as [[Hs _] Hd].
  pose proof (page_alloc_loop CHUNKMAX MINALLOC CHUNKMAX_pos MINALLOC_pos _ _ _ _ Hok Hs Hd) as Hl.
  destruct (first_fit size segs) as [[a segs']|].
  - destruct Hl as (p' & -> & Hok'). cbn. eauto.
  - rewrite Hl. cbn. unfold no_fit. destruct (last segs); [|done]. by case_if.
Qed.

(** [dealloc] frees the block at [a], if there is one, and coalesces. *)
Lemma dealloc_spec base p segs a :
  heap_ok base p segs ->
  exists p', dealloc a p = Ok p' /\
    heap_ok base p' (coalesce (default segs (mark_free a segs))).
Proof.
  intros Hok. pose proof (page_dealloc_loop _ _ CHUNKMAX_pos MINALLOC_pos _ _ _ a Hok) as Hd. unfold dealloc.
  destruct (mark_free a segs) as [segs'|]; cbn [from_option].
  - destruct Hd as (p1 & -> & Hok1). cbn. by apply (page_merge_loop _ _ CHUNKMAX_pos MINALLOC_pos).
  - rewrite Hd. cbn. by apply (page_merge_loop _ _ CHUNKMAX_pos MINALLOC_pos).
Qed.

Lemma init_alloc_ok base :
  0 < base -> exists p, init_alloc base heap0 = Ok (0, p) /\ heap_ok base p [Seg base PAGESIZE false].
Proof.
  intros Hb. unfold init_alloc. rewrite (proj2 (Z.ltb_ge _ _)) by lia.
  eexists. split; [reflexivity|].
  apply (page_fresh CHUNKMAX MINALLOC CHUNKMAX_pos MINALLOC_pos base (chunks heap0)); [done|done|].
  intros i m Hm. cbn [chunks heap0] in Hm. apply lookup_replicate in Hm as [-> _]. done.
Qed.

(** ** Properties *)

(** [alloc.c] implements the block-allocator interface. *)
#[global] Program Instance alloc_block_allocator (base : Z) : BlockAllocator alloc dealloc := {|
  ba_rep p bl := exists segs, heap_ok base p segs /\ bl = live segs;
  ba_valid := valid_size
|}.
Next Obligation. intros base p bl (segs & (_ & _ & Ht) & ->). by eapply live_disjoint. Qed.
Next Obligation.
  intros base p bl size a p' (segs & Hok & ->) Hv Ha.
  pose proof (alloc_spec _ _ _ _ Hok Hv) as Hs.
  destruct (first_fit size segs) as [[x segs']|] eqn:Hff.
  - destruct Hs as (p1 & Heq & Hok'). rewrite Heq in Ha. simplify_eq.
    exists (live segs'). split; [eauto|]. right. split; [|by apply first_fit_live].
    pose proof Hok as (Hb & _ & Ht). destruct Hv as [Hsz _].
    pose proof (first_fit_bounds _ _ _ _ _ _ _ (proj1 Hsz) Ht Hff). lia.
  - rewrite Hs in Ha. destruct (no_fit size segs); simplify_eq. exists (live segs). naive_solver.
Qed.
Next Obligation.
  intros base p bl a n (segs & Hok & ->) Hin. pose proof Hok as (_ & _ & Ht).
  destruct (mark_free_live _ _ _ _ _ _ Ht Hin) as (segs' & Hm & Hp).
  destruct (dealloc_spec _ _ _ a Hok) as (p' & Hd & Hok'). rewrite Hm in Hok'. simpl in Hok'.
  exists p', (live (coalesce segs')). split_and!; [done|by eauto|]. by rewrite coalesce_live.
Qed.

(** C22: [alloc] refines first fit.  On a heap in its invariant and a request
    that is a positive multiple of [MINALLOC] up to a page, [alloc] takes the
    first free segment that is large enough: it returns an address inside the
    page, the invariant holds again, the new block is added to the live ones
    and overlaps none of them; a descriptor is always left for the split. *)
Theorem alloc_refines_first_fit base p segs size a segs' :
  heap_ok base p segs -> valid_size size -> first_fit size segs = Some (a, segs') ->
  exists p', alloc size p = Ok (a, p') /\ heap_ok base p' segs' /\
    base <= a /\ a + size <= base + PAGESIZE /\
    live segs' ≡ₚ (a, size) :: live segs /\ blocks_disjoint (live segs').
Proof.
  intros Hok Hv Hff. pose proof (alloc_spec _ _ _ _ Hok Hv) as Hs. rewrite Hff in Hs.
  destruct Hs as (p' & Ha & Hok'). exists p'. pose proof Hok as (_ & _ & Ht).
  pose proof Hok' as (_ & _ & Ht'). destruct Hv as [Hsz _].
  pose proof (first_fit_bounds _ _ _ _ _ _ _ (proj1 Hsz) Ht Hff) as Hb. rewrite page_bytes in Hb.
  split_and!; [done|done|lia|lia|by apply first_fit_live|by eapply live_disjoint].
Qed.

(** what [alloc] does when no free segment is large enough: it returns
    NULL and leaves the heap alone if the last segment of the page is smaller
    than the request, and otherwise returns the [addr] field of a local
    variable that was never written. *)
Theorem alloc_exhausted base p segs size s :
  heap_ok base p segs -> valid_size size -> first_fit size segs = None -> last segs = Some s ->
  alloc size p = if s_size s <? size then Ok (0, p) else Stuck Uninitialised.
Proof.
  intros Hok Hv Hff Hl. pose proof (alloc_spec _ _ _ _ Hok Hv) as Hs. rewrite Hff in Hs. rewrite Hs.
  unfold no_fit. rewrite Hl. by case_if.
Qed.

(** [dealloc] of a live block terminates, gives back exactly that block,
    and leaves no two neighbouring free segments. *)
Theorem dealloc_releases_block base p segs a n :
  heap_ok base p segs -> (a, n) ∈ live segs ->
  exists p' segs', dealloc a p = Ok p' /\ heap_ok base p' segs' /\
    live segs ≡ₚ (a, n) :: live segs' /\ no_adjacent_free segs'.
Proof.
  intros Hok Hin. pose proof Hok as (_ & _ & Ht).
  destruct (mark_free_live _ _ _ _ _ _ Ht Hin) as (segs' & Hm & Hp).
  destruct (dealloc_spec _ _ _ a Hok) as (p' & Hd & Hok'). rewrite Hm in Hok'. simpl in Hok'.
  exists p', (coalesce segs'). rewrite coalesce_live.
  split_and!; [done|done|done|apply coalesce_no_adjacent].
Qed.

(** allocating a block and giving it back restores the page: the heap
    represents the same segments as before. *)
Theorem alloc_dealloc_roundtrip base p segs size a segs' :
  heap_ok base p segs -> valid_size size -> no_adjacent_free segs ->
  first_fit size segs = Some (a, segs') ->
  exists p1 p2, alloc size p = Ok (a, p1) /\ dealloc a p1 = Ok p2 /\ heap_ok base p2 segs.
Proof.
  intros Hok Hv Hna Hff. pose proof (alloc_spec _ _ _ _ Hok Hv) as Hs. rewrite Hff in Hs.
  destruct Hs as (p1 & Ha & Hok1). pose proof Hok as (_ & _ & Ht). destruct Hv as [Hsz _].
  destruct (first_fit_undo _ _ _ _ _ _ _ (proj1 Hsz) Ht Hna Hff) as (l'' & Hm & Hco).
  destruct (dealloc_spec _ _ _ a Hok1) as (p2 & Hd & Hok2). rewrite Hm in Hok2. simpl in Hok2.
  exists p1, p2. by rewrite Hco in Hok2.
Qed.

(** client safety.  After [init_alloc] on a fresh table, whatever sequence
    of valid requests and frees of held blocks a client performs, the blocks
    it holds are pairwise disjoint and are exactly the live blocks of the
    heap. *)
Theorem alloc_client_safe base p rs p' held :
  0 < base -> init_alloc base heap0 = Ok (0, p) ->
  (forall size, Request size ∈ rs -> valid_size size) ->
  client alloc dealloc rs p [] = Ok (p', held) ->
  blocks_disjoint held /\ exists segs, heap_ok base p' segs /\ live segs ≡ₚ held.
Proof.
  intros Hb Hi Hv Hc. destruct (init_alloc_ok _ Hb) as (p0 & Hp0 & Hok).
  rewrite Hi in Hp0. simplify_eq.
  destruct (client_inv alloc dealloc (BlockAllocator0 := alloc_block_allocator base) rs p0 [] [] p' held)
    as (bl & (segs & Hok' & ->) & Hl & Hd); [by eexists|done|done|done|]. eauto.
Qed.

(** [cleanup] unmaps the page [init_alloc] mapped, whatever is allocated
    at that time, reports the result of [munmap], and resets the table to its
    initial state. *)
Theorem cleanup_unmaps_page munmap base p segs :
  heap_ok base p segs ->
  cleanup munmap p = Ok (if munmap base <? 0 then 1 else 0, heap0).
Proof.
  intros Hok. unfold heap_ok in Hok.
  destruct (page_ok_head CHUNKMAX MINALLOC CHUNKMAX_pos MINALLOC_pos _ _ _ Hok)
    as (i & path & s & segs' & m & -> & _ & _ & Hh & Hm & Ha).
  unfold cleanup. rewrite Hh, (aget_nat _ _ _ Hm). cbn. by rewrite Ha.
Qed.

(** [mmap] reports failure with [MAP_FAILED], the largest address; the test
    [addr < 0] of [init_alloc] is never true of a pointer. *)
Definition MAP_FAILED : Z := 2 ^ 64 - 1.

(** [init_alloc] does not notice a failing [mmap]: it returns 0 and
    installs [MAP_FAILED] as the page. *)
Theorem init_alloc_accepts_map_failed :
  exists p m, init_alloc MAP_FAILED heap0 = Ok (0, p) /\ chunks p !! 0%nat = Some m /\
    addr m = MAP_FAILED /\ flag m = 0.
Proof. eexists _, _. split_and!; reflexivity. Qed.

(** ** Witnesses *)

(** A heap in use: one block of 16 bytes at the start of the page. *)
Definition heap_start : page := Page 0 (<[0%nat := Mm 4096 PAGESIZE 0 1 (-1) (-1)]> (chunks heap0)).

Lemma heap_start_ok : heap_ok 4096 heap_start [Seg 4096 PAGESIZE false].
Proof. destruct (init_alloc_ok 4096 ltac:(done)) as (p & Hp & Hok). injection Hp as <-. exact Hok. Qed.

Lemma valid_16 : valid_size 16.
Proof. split; [done|by exists 2]. Qed.

Lemma alloc_refines_first_fit_witness :
  exists p', alloc 16 heap_start = Ok (4096, p') /\
    heap_ok 4096 p' [Seg 4096 16 true; Seg 4112 4080 false].
Proof.
  destruct (alloc_refines_first_fit 4096 heap_start _ 16 _ _ heap_start_ok valid_16 eq_refl)
    as (p' & H1 & H2 & _). by exists p'.
Defined.

Definition heap_full : page := Page 0 (<[0%nat := Mm 4096 PAGESIZE 1 1 (-1) (-1)]> (chunks heap0)).

Lemma heap_full_ok : heap_ok 4096 heap_full [Seg 4096 PAGESIZE true].
Proof.
  destruct (alloc_spec 4096 heap_start _ PAGESIZE heap_start_ok) as (p' & Hp & Hok).
  { split; [done|by exists 512]. }
  vm_compute in Hp. injection Hp as <-. exact Hok.
Qed.

Lemma alloc_exhausted_witness : alloc 16 heap_full = Stuck Uninitialised.
Proof. exact (alloc_exhausted 4096 heap_full _ 16 _ heap_full_ok valid_16 eq_refl eq_refl). Defined.

Lemma dealloc_releases_block_witness :
  exists p' segs', dealloc 4096 heap_full = Ok p' /\ heap_ok 4096 p' segs' /\ live segs' = [].
Proof.
  destruct (dealloc_releases_block 4096 heap_full _ 4096 PAGESIZE heap_full_ok) as (p' & segs' & H1 & H2 & H3 & _).
  { by left. }
  exists p', segs'. split_and!; [exact H1|exact H2|].
  simpl in H3. apply Permutation_cons_inv in H3. by apply Permutation_nil in H3.
Defined.

Lemma alloc_dealloc_roundtrip_witness :
  exists p1 p2, alloc 16 heap_start = Ok (4096, p1) /\ dealloc 4096 p1 = Ok p2 /\
    heap_ok 4096 p2 [Seg 4096 PAGESIZE false].
Proof.
  exact (alloc_dealloc_roundtrip 4096 heap_start _ 16 _ _ heap_start_ok valid_16 I eq_refl).
Defined.

Lemma alloc_client_safe_witness :
  exists p' held, client alloc dealloc [Request 16; Request 32; GiveBack 1; Request 8] heap_start []
    = Ok (p', held) /\ held = [(4096, 8); (4112, 32)] /\ blocks_disjoint held.
Proof.
  eexists _, _. split; [vm_compute; reflexivity|]. split; [reflexivity|].
  eapply (alloc_client_safe 4096 heap_start [Request 16; Request 32; GiveBack 1; Request 8]);
    [done|reflexivity| |vm_compute; reflexivity].
  intros size Hin. repeat (apply elem_of_cons in Hin as [Hin|Hin]; [simplify_eq|]); [..|by apply not_elem_of_nil in Hin];
    (split; [done|]); [by exists 2|by exists 4|by exists 1].
Defined.

Lemma cleanup_unmaps_page_witness : cleanup (fun a => if a =? 4096 then 0 else -1) heap_full = Ok (0, heap0).
Proof. exact (cleanup_unmaps_page (fun a => if a =? 4096 then 0 else -1) 4096 heap_full _ heap_full_ok). Defined.
