(* ===== verification/Ealloc.v ===== *)
(** The elastic allocator of project 5, [ealloc.c]: up to [PAGEMAX] pages, each
    with its own chunk table, mapped one at a time when the pages in use have
    no room.

    [head_idx[i]] and [chunks[i]] of the code are page [i] of [pages].  The
    pages come from [mmap]: its [n]-th call returns [mmap n], an argument of
    the model (the calls are exactly the increments of [pagenum], so the call
    in progress is number [pagenum]).  As documented, a call returns
    [MAP_FAILED] or a page that is not at address 0 and overlaps no other
    ([mmap_ok]).  The code does not test for [MAP_FAILED]. *)

From S2P Require Import Prelude Segments Chunks AllocSpec.

Definition PAGESIZE : Z := 4096.
Definition MINALLOC : Z := 256.
Definition PAGEMAX : nat := 4.
Definition CHUNKMAX : nat := Z.to_nat (PAGESIZE / MINALLOC).

Record state : Type := State { pagenum : Z; pages : list page }.

Definition mm_zero : mm := Mm 0 0 0 0 0 0.

(** The zero-initialised globals. *)
Definition state0 : state := State 0 (replicate PAGEMAX (Page 0 (replicate CHUNKMAX mm_zero))).

Definition init_alloc (st : state) : state :=
  State (pagenum st) ((fun p => set_head p (-1)) <$> pages st).

Definition cleanup (st : state) : state := st.

(** The [for] loop over the pages in use: [n] pages are left, page [i] is
    next.  [None] when no page has room. *)
Fixpoint alloc_pages (n : nat) (i : Z) (size : Z) (st : state) : res (option (Z * state)) :=
  match n with
  | O => Ok None
  | S n' =>
      p ← aget (pages st) i;
      r ← alloc_loop (S CHUNKMAX) size p (head_idx p);
      match r with
      | Hit a p' => ps ← aset (pages st) i p'; Ok (Some (a, State (pagenum st) ps))
      | _ => alloc_pages n' (i + 1) size st
      end
  end.

Definition merge_chunk (idx : Z) (st : state) : res state :=
  p ← aget (pages st) idx;
  p' ← merge_loop (S CHUNKMAX) p (head_idx p);
  ps ← aset (pages st) idx p';
  Ok (State (pagenum st) ps).

Fixpoint dealloc_pages (n : nat) (i : Z) (a : Z) (st : state) : res state :=
  match n with
  | O => Ok st
  | S n' =>
      p ← aget (pages st) i;
      r ← dealloc_loop (S CHUNKMAX) a p (head_idx p);
      match r with
      | Some p' => ps ← aset (pages st) i p'; merge_chunk i (State (pagenum st) ps)
      | None => dealloc_pages n' (i + 1) a st
      end
  end.

Definition dealloc (a : Z) (st : state) : res state :=
  dealloc_pages (Z.to_nat (pagenum st)) 0 a st.

(** [(void * ) -1] *)
Definition MAP_FAILED : Z := 2 ^ 64 - 1.

Section mmap.
(** The address the [n]-th call of [mmap] returns. *)
Context (mmap : nat -> Z).

(** The part of [alloc] that maps one more page. *)
Definition grow (st : state) : res state :=
  p ← aget (pages st) (pagenum st);
  c ← aset (chunks p) 0 (Mm (mmap (Z.to_nat (pagenum st))) PAGESIZE 0 1 (-1) (-1));
  ps ← aset (pages st) (pagenum st) (Page 0 c);
  Ok (State (pagenum st + 1) ps).

(** [fuel] bounds the recursive calls: each one follows a [grow], so
    [PAGEMAX + 1] calls are enough. *)
Fixpoint alloc_rec (fuel : nat) (size : Z) (st : state) : res (Z * state) :=
  match fuel with
  | O => Stuck OutOfFuel
  | S fuel' =>
      if negb (Z.rem size MINALLOC =? 0) || (PAGESIZE <? size) then Ok (0, st) else
      r ← alloc_pages (Z.to_nat (pagenum st)) 0 size st;
      match r with
      | Some hit => Ok hit
      | None =>
          if pagenum st =? Z.of_nat PAGEMAX then Ok (0, st) else
          st' ← grow st;
          alloc_rec fuel' size st'
      end
  end.

Definition alloc (size : Z) (st : state) : res (Z * state) := alloc_rec (S PAGEMAX) size st.

(** ** Abstract view: the segments of every mapped page *)

Fixpoint first_fit_pages (size : Z) (ll : list (list seg)) : option (Z * list (list seg)) :=
  match ll with
  | [] => None
  | l :: ll' =>
      match first_fit size l with
      | Some (a, l') => Some (a, l' :: ll')
      | None =>
          match first_fit_pages size ll' with
          | Some (a, ll'') => Some (a, l :: ll'')
          | None => None
          end
      end
  end.

Fixpoint mark_free_pages (a : Z) (ll : list (list seg)) : list (list seg) :=
  match ll with
  | [] => []
  | l :: ll' =>
      match mark_free a l with
      | Some l' => coalesce l' :: ll'
      | None => l :: mark_free_pages a ll'
      end
  end.

Definition live_pages (ll : list (list seg)) : list (Z * Z) := concat (live <$> ll).

(** Page [i] represents its segments at the address of the [i]-th mapping. *)
Definition mapped (st : state) (i : nat) (segs : list seg) : Prop :=
  exists p, pages st !! i = Some p /\ page_ok CHUNKMAX MINALLOC (mmap i) p segs.

(** Pages that are not mapped yet have an unused table. *)
Definition unmapped (st : state) (i : nat) : Prop :=
  exists p, pages st !! i = Some p /\ length (chunks p) = CHUNKMAX /\
    forall j m, chunks p !! j = Some m -> using_ m = 0.

Definition tables_ok (st : state) (ll : list (list seg)) : Prop :=
  pagenum st = Z.of_nat (length ll) /\ length (pages st) = PAGEMAX /\
  (length ll <= PAGEMAX)%nat /\
  (forall i segs, ll !! i = Some segs -> mapped st i segs) /\
  (forall i, (length ll <= i < PAGEMAX)%nat -> unmapped st i).

Definition valid_size (size : Z) : Prop := size_ok CHUNKMAX MINALLOC size.

(** The state represents [ll], and all its pages were really mapped. *)
Definition state_ok (st : state) (ll : list (list seg)) : Prop :=
  tables_ok st ll /\ forall i, (i < length ll)%nat -> mmap i <> MAP_FAILED.

(** A call of [mmap] fails, or it returns a page below [MAP_FAILED]; pages do not
    overlap. *)
Definition mmap_ok : Prop :=
  (forall i, mmap i = MAP_FAILED \/ 0 < mmap i /\ mmap i + PAGESIZE <= MAP_FAILED) /\
  (forall i j, i <> j -> mmap i <> MAP_FAILED -> mmap j <> MAP_FAILED ->
     mmap i + PAGESIZE <= mmap j \/ mmap j + PAGESIZE <= mmap i).

(** ** Lemmas *)

Lemma mmap_pos i : mmap_ok -> 0 < mmap i.
Proof using. intros [H _]. destruct (H i) as [->|[? _]]; done. Qed.

Lemma e_CHUNKMAX_pos : (0 < CHUNKMAX)%nat.
Proof using. vm_compute. lia. Qed.

Lemma e_MINALLOC_pos : 0 < MINALLOC.
Proof using. done. Qed.

Lemma e_page_bytes : MINALLOC * Z.of_nat CHUNKMAX = PAGESIZE.
Proof using. reflexivity. Qed.

Lemma e_valid_size_guard size :
  valid_size size -> negb (Z.rem size MINALLOC =? 0) || (PAGESIZE <? size) = false.
Proof using.
  intros [Hs Hd]. apply orb_false_iff. split; [|apply Z.ltb_ge; apply Hs].
  apply negb_false_iff, Z.eqb_eq. apply Z.rem_divide; [done|done].
Qed.

(** Replacing page [i]. *)
Lemma tables_ok_insert st ll i segs segs' p' :
  tables_ok st ll -> ll !! i = Some segs -> page_ok CHUNKMAX MINALLOC (mmap i) p' segs' ->
  aset (pages st) (Z.of_nat i) p' = Ok (<[i := p']> (pages st)) /\
  tables_ok (State (pagenum st) (<[i := p']> (pages st))) (<[i := segs']> ll).
Proof using.
  intros (Hn & Hlen & Hle & Hm & Hu) Hi Hok. pose proof (lookup_lt_Some _ _ _ Hi) as Hlt.
  split; [apply aset_nat; lia|]. unfold tables_ok. cbn. rewrite !length_insert.
  split_and!; [done|done|done| |].
  - intros j sj Hj. destruct (decide (i = j)) as [<-|Hne].
    + rewrite list_lookup_insert_eq in Hj by lia. simplify_eq. exists p'. cbn.
      rewrite list_lookup_insert_eq by lia. done.
    + rewrite list_lookup_insert_ne in Hj by done. destruct (Hm _ _ Hj) as (p & Hp & Hpok).
      exists p. cbn. by rewrite list_lookup_insert_ne.
  - intros j Hj. destruct (Hu j Hj) as (p & Hp & Hz). exists p. cbn.
    by rewrite list_lookup_insert_ne by lia.
Qed.

(** The page loop of [alloc] refines [first_fit_pages]. *)
Lemma alloc_pages_spec n st ll (i : nat) size :
  tables_ok st ll -> 0 < size -> (MINALLOC | size) -> (i + n = length ll)%nat ->
  match first_fit_pages size (drop i ll) with
  | Some (a, ll') => exists st', alloc_pages n (Z.of_nat i) size st = Ok (Some (a, st')) /\
      tables_ok st' (take i ll ++ ll')
  | None => alloc_pages n (Z.of_nat i) size st = Ok None
  end.
Proof using.
  intros Hok Hs Hd. revert i. induction n as [|n IH]; intros i Hi.
  { rewrite drop_ge by lia. done. }
  destruct (lookup_lt_is_Some_2 ll i ltac:(lia)) as [segs Hsegs].
  rewrite (drop_S _ _ _ Hsegs). cbn [alloc_pages first_fit_pages].
  pose proof Hok as (_ & _ & _ & Hm & _). destruct (Hm _ _ Hsegs) as (p & Hp & Hpok).
  rewrite (aget_nat _ _ _ Hp). run.
  pose proof (page_alloc_loop _ _ e_CHUNKMAX_pos e_MINALLOC_pos _ _ _ _ Hpok Hs Hd) as Hl.
  destruct (first_fit size segs) as [[a segs']|].
  - destruct Hl as (p' & -> & Hpok'). run.
    destruct (tables_ok_insert _ _ _ _ _ _ Hok Hsegs Hpok') as [-> Hok']. run.
    eexists. split; [done|]. by rewrite <- insert_take_drop by (by eapply lookup_lt_Some).
  - rewrite Hl. run.
    replace (match no_fit size segs with Hit _ _ => _ | _ => alloc_pages n (Z.of_nat i + 1) size st end)
      with (alloc_pages n (Z.of_nat (S i)) size st).
    2: { replace (Z.of_nat (S i)) with (Z.of_nat i + 1) by lia.
         unfold no_fit. destruct (last segs); [|done]. by case_if. }
    specialize (IH (S i) ltac:(lia)). destruct (first_fit_pages size (drop (S i) ll)) as [[a ll']|]; [|done].
    destruct IH as (st' & -> & Hok'). exists st'. split; [done|].
    rewrite (take_S_r _ _ _ Hsegs), <- app_assoc in Hok'. done.
Qed.

(** Mapping one more page. *)
Lemma grow_spec st ll :
  mmap_ok -> tables_ok st ll -> (length ll < PAGEMAX)%nat ->
  exists st', grow st = Ok st' /\ tables_ok st' (ll ++ [[Seg (mmap (length ll)) PAGESIZE false]]).
Proof using.
  intros Hmm (Hn & Hlen & Hle & Hm & Hu) Hlt.
  destruct (Hu (length ll) ltac:(lia)) as (p & Hp & Hc & Hz).
  unfold grow. rewrite Hn, Nat2Z.id, (aget_nat _ _ _ Hp). cbn.
  rewrite (aset_nat (chunks p) 0) by (rewrite Hc; apply e_CHUNKMAX_pos). cbn.
  rewrite aset_nat by lia. cbn. eexists. split; [done|].
  pose proof (page_fresh _ _ e_CHUNKMAX_pos e_MINALLOC_pos (mmap (length ll)) (chunks p) (mmap_pos _ Hmm) Hc Hz) as Hf.
  rewrite e_page_bytes in Hf.
  unfold tables_ok. cbn. rewrite length_app, length_insert. split_and!; [simpl; lia|done|simpl; lia| |].
  - intros j sj [Hj|[Hge Hj]]%lookup_app_Some.
    + destruct (Hm _ _ Hj) as (pj & Hpj & Hpok). exists pj. cbn.
      rewrite list_lookup_insert_ne by (apply lookup_lt_Some in Hj; lia). done.
    + apply list_lookup_singleton_Some in Hj as [Hj <-].
      assert (j = length ll) as -> by lia. eexists. cbn.
      rewrite list_lookup_insert_eq by lia. done.
  - intros j Hj. destruct (Hu j ltac:(simpl in Hj; lia)) as (pj & Hpj & Hzj). exists pj. cbn.
    by rewrite list_lookup_insert_ne by (simpl in Hj; lia).
Qed.

Lemma first_fit_pages_app size ll1 ll2 :
  first_fit_pages size ll1 = None ->
  first_fit_pages size (ll1 ++ ll2) =
    match first_fit_pages size ll2 with Some (a, l) => Some (a, ll1 ++ l) | None => None end.
Proof using.
  induction ll1 as [|l ll1 IH]; simpl; [by destruct (first_fit_pages size ll2) as [[]|]|].
  destruct (first_fit size l) as [[]|]; [done|]. destruct (first_fit_pages size ll1) as [[]|]; [done|].
  intros _. rewrite IH by done. by destruct (first_fit_pages size ll2) as [[]|].
Qed.

Lemma first_fit_fresh size b :
  valid_size size -> exists l, first_fit_pages size [[Seg b PAGESIZE false]] = Some (b, [l]).
Proof using.
  intros [[_ Hs] _]. rewrite e_page_bytes in Hs. cbn [first_fit_pages first_fit s_used s_size s_addr].
  rewrite (proj2 (Z.leb_le _ _)) by done. cbn [negb andb]. case_if; eauto.
Qed.

(** The pages after a request: first fit over the mapped pages, else first fit
    in a new page, else nothing. *)
Definition alloc_abs (size : Z) (ll : list (list seg)) : option (Z * list (list seg)) :=
  match first_fit_pages size ll with
  | Some r => Some r
  | None => if (length ll <? PAGEMAX)%nat
            then first_fit_pages size (ll ++ [[Seg (mmap (length ll)) PAGESIZE false]])
            else None
  end.

Lemma e_alloc_spec st ll size :
  mmap_ok -> tables_ok st ll -> valid_size size ->
  match alloc_abs size ll with
  | Some (a, ll') => exists st', alloc size st = Ok (a, st') /\ tables_ok st' ll'
  | None => alloc size st = Ok (0, st) /\ length ll = PAGEMAX
  end.
Proof using.
  intros Hmm Hok Hv. pose proof Hv as [[Hs Hs2] Hd]. rewrite e_page_bytes in Hs2.
  unfold alloc, alloc_abs. cbn [alloc_rec]. rewrite (e_valid_size_guard _ Hv).
  pose proof (alloc_pages_spec (length ll) st ll 0 size Hok Hs Hd ltac:(lia)) as Hp. rewrite drop_0 in Hp.
  pose proof Hok as (Hn & _ & Hle & _). rewrite Hn, Nat2Z.id. change (Z.of_nat 0) with 0 in Hp.
  destruct (first_fit_pages size ll) as [[a ll']|] eqn:Hff.
  { destruct Hp as (st' & -> & Hok'). cbn. eauto. }
  rewrite Hp. cbn [mbind res_bind].
  destruct (Nat.ltb_spec (length ll) PAGEMAX) as [Hlt|Hge].
  - rewrite (proj2 (Z.eqb_neq _ _)) by lia.
    destruct (grow_spec _ _ Hmm Hok Hlt) as (st1 & -> & Hok1). cbn [mbind res_bind].
    set (ll1 := ll ++ [[Seg (mmap (length ll)) PAGESIZE false]]) in *.
    change PAGEMAX with 4%nat. cbn [alloc_rec]. rewrite (e_valid_size_guard _ Hv).
    pose proof (alloc_pages_spec (length ll1) st1 ll1 0 size Hok1 Hs Hd ltac:(lia)) as Hp1.
    rewrite drop_0 in Hp1. pose proof Hok1 as (Hn1 & _). rewrite Hn1, Nat2Z.id. change (Z.of_nat 0) with 0 in Hp1.
    assert (exists r, first_fit_pages size ll1 = Some r) as [[a ll'] Hr].
    { unfold ll1. rewrite first_fit_pages_app by done.
      destruct (first_fit_fresh size (mmap (length ll)) Hv) as [l ->]. eauto. }
    rewrite Hr in Hp1 |- *. destruct Hp1 as (st' & -> & Hok'). cbn. eauto.
  - assert (length ll = PAGEMAX) as -> by lia. rewrite Z.eqb_refl. done.
Qed.

Lemma merge_chunk_spec st ll i segs :
  tables_ok st ll -> ll !! i = Some segs ->
  exists st', merge_chunk (Z.of_nat i) st = Ok st' /\ tables_ok st' (<[i := coalesce segs]> ll).
Proof using.
  intros Hok Hi. pose proof Hok as (_ & _ & _ & Hm & _). destruct (Hm _ _ Hi) as (p & Hp & Hpok).
  unfold merge_chunk. rewrite (aget_nat _ _ _ Hp). run.
  destruct (page_merge_loop _ _ e_CHUNKMAX_pos e_MINALLOC_pos _ _ _ Hpok) as (p' & -> & Hpok'). run.
  destruct (tables_ok_insert _ _ _ _ _ _ Hok Hi Hpok') as [-> Hok']. run. eauto.
Qed.

Lemma dealloc_pages_spec n st ll (i : nat) a :
  tables_ok st ll -> (i + n = length ll)%nat ->
  exists st', dealloc_pages n (Z.of_nat i) a st = Ok st' /\
    tables_ok st' (take i ll ++ mark_free_pages a (drop i ll)).
Proof using.
  intros Hok. revert i. induction n as [|n IH]; intros i Hi.
  { exists st. rewrite drop_ge, take_ge, app_nil_r by lia. done. }
  destruct (lookup_lt_is_Some_2 ll i ltac:(lia)) as [segs Hsegs].
  rewrite (drop_S _ _ _ Hsegs). cbn [dealloc_pages mark_free_pages].
  pose proof Hok as (_ & _ & _ & Hm & _). destruct (Hm _ _ Hsegs) as (p & Hp & Hpok).
  rewrite (aget_nat _ _ _ Hp). run.
  pose proof (page_dealloc_loop _ _ e_CHUNKMAX_pos e_MINALLOC_pos _ _ _ a Hpok) as Hl.
  destruct (mark_free a segs) as [segs'|].
  - destruct Hl as (p' & -> & Hpok'). run.
    destruct (tables_ok_insert _ _ _ _ _ _ Hok Hsegs Hpok') as [-> Hok']. run.
    destruct (merge_chunk_spec _ _ i segs' Hok') as (st' & -> & Hok2).
    { apply list_lookup_insert_eq. lia. }
    exists st'. split; [done|]. rewrite list_insert_insert_eq in Hok2.
    by rewrite <- insert_take_drop by lia.
  - rewrite Hl. run. replace (Z.of_nat i + 1) with (Z.of_nat (S i)) by lia.
    destruct (IH (S i) ltac:(lia)) as (st' & -> & Hok'). exists st'. split; [done|].
    by rewrite (take_S_r _ _ _ Hsegs), <- app_assoc in Hok'.
Qed.

Lemma e_dealloc_spec st ll a :
  tables_ok st ll -> exists st', dealloc a st = Ok st' /\ tables_ok st' (mark_free_pages a ll).
Proof using.
  intros Hok. pose proof Hok as (Hn & _). unfold dealloc. rewrite Hn, Nat2Z.id.
  destruct (dealloc_pages_spec (length ll) st ll 0 a Hok ltac:(lia)) as (st' & H1 & H2).
  rewrite drop_0 in H2. eauto.
Qed.

(** ** Live blocks over all pages *)

(** Page [i] of [ll] tiles the [off + i]-th mapping. *)
Definition tiled (off : nat) (ll : list (list seg)) : Prop :=
  forall i segs, ll !! i = Some segs ->
    mmap (off + i) <> MAP_FAILED /\ tiles MINALLOC (mmap (off + i)) segs (mmap (off + i) + PAGESIZE).

Lemma state_ok_tiled st ll : state_ok st ll -> tiled 0 ll.
Proof using.
  intros [(_ & _ & _ & Hm & _) Hf] i segs Hi. destruct (Hm i segs Hi) as (p & _ & _ & _ & Ht).
  split; [|done]. apply Hf. by eapply lookup_lt_Some.
Qed.

Lemma tiled_cons off l ll :
  tiled off (l :: ll) -> (mmap off <> MAP_FAILED /\ tiles MINALLOC (mmap off) l (mmap off + PAGESIZE)) /\ tiled (S off) ll.
Proof using.
  intros H. split.
  - specialize (H 0%nat l eq_refl). by rewrite Nat.add_0_r in H.
  - intros i segs Hi. specialize (H (S i) segs Hi). by rewrite Nat.add_succ_r in H.
Qed.

Lemma tiled_live_bounds off ll x n :
  tiled off ll -> (x, n) ∈ live_pages ll ->
  exists k, (off <= k)%nat /\ mmap k <> MAP_FAILED /\ mmap k <= x /\ x + n <= mmap k + PAGESIZE /\ 0 < n.
Proof using.
  revert off. induction ll as [|l ll IH]; intros off Ht Hin; [by apply not_elem_of_nil in Hin|].
  apply tiled_cons in Ht as [[Hne Hl] Ht]. unfold live_pages in Hin. cbn in Hin.
  apply elem_of_app in Hin as [Hin%elem_of_live|Hin].
  - exists off. apply (tiles_bounds _ _ _ _ _ Hl) in Hin. simpl in Hin. split; [lia|]. split; [done|lia].
  - destruct (IH _ Ht Hin) as (k & Hk & H). exists k. split; [lia|done].
Qed.

Lemma live_pages_disjoint off ll : mmap_ok -> tiled off ll -> blocks_disjoint (live_pages ll).
Proof using.
  intros [Hpos Hdis]. revert off. induction ll as [|l ll IH]; intros off Ht; [by intros ? ? ? ? ? ?|].
  apply tiled_cons in Ht as [[Hne Hl] Ht]. unfold live_pages. cbn.
  apply blocks_disjoint_app; [by eapply live_disjoint|by eapply IH|].
  intros [x n] [y k] Hx%elem_of_live Hy. apply (tiles_bounds _ _ _ _ _ Hl) in Hx. cbn in *.
  destruct (tiled_live_bounds _ _ _ _ Ht Hy) as (i & Hi & Hf & Hb).
  destruct (Hdis off i ltac:(lia) Hne Hf); lia.
Qed.

Lemma first_fit_pages_live size ll a ll' :
  first_fit_pages size ll = Some (a, ll') -> live_pages ll' ≡ₚ (a, size) :: live_pages ll.
Proof using.
  revert ll'. induction ll as [|l ll IH]; intros ll' Hf; [done|]. unfold live_pages. cbn in *.
  destruct (first_fit size l) as [[x l']|] eqn:Hff.
  - simplify_eq. cbn. by rewrite (first_fit_live _ _ _ _ Hff).
  - destruct (first_fit_pages size ll) as [[x r]|]; [|done]. simplify_eq. cbn.
    pose proof (IH _ eq_refl) as Hp. unfold live_pages in Hp. rewrite Hp. symmetry. apply Permutation_middle.
Qed.

Lemma alloc_abs_live size ll a ll' :
  alloc_abs size ll = Some (a, ll') -> live_pages ll' ≡ₚ (a, size) :: live_pages ll.
Proof using.
  unfold alloc_abs. destruct (first_fit_pages size ll) as [[x r]|] eqn:Hff.
  - intros [= <- <-]. by apply first_fit_pages_live.
  - case_if; [|done]. intros ->%first_fit_pages_live. unfold live_pages.
    rewrite fmap_app, concat_app. cbn. by rewrite app_nil_r.
Qed.

Lemma mark_free_none unit a l b x : tiles unit a l b -> (x < a \/ b <= x) -> mark_free x l = None.
Proof using.
  revert a. induction l as [|s l IH]; intros a Ht Hx; [done|]. cbn [mark_free].
  destruct Ht as (Ha & Hs & _ & Ht). pose proof (tiles_le _ _ _ _ Ht).
  rewrite (proj2 (Z.eqb_neq _ _)) by lia. by rewrite (IH _ Ht) by lia.
Qed.

Lemma mark_free_pages_live off ll a n :
  mmap_ok -> tiled off ll -> (a, n) ∈ live_pages ll ->
  live_pages ll ≡ₚ (a, n) :: live_pages (mark_free_pages a ll).
Proof using.
  intros Hmm. pose proof Hmm as [Hpos Hdis].
  revert off. induction ll as [|l ll IH]; intros off Ht Hin; [by apply not_elem_of_nil in Hin|].
  apply tiled_cons in Ht as [[Hne Hl] Ht]. cbn [mark_free_pages]. unfold live_pages in *. cbn in Hin |- *.
  apply elem_of_app in Hin as [Hin|Hin].
  - destruct (mark_free_live _ _ _ _ _ _ Hl Hin) as (l' & -> & Hp). cbn.
    by rewrite coalesce_live, Hp.
  - destruct (tiled_live_bounds _ _ _ _ Ht Hin) as (k & Hk & Hf & Hb).
    rewrite (mark_free_none _ _ _ _ a Hl) by (destruct (Hdis off k ltac:(lia) Hne Hf); lia).
    cbn. rewrite (IH _ Ht Hin) at 1. symmetry. apply Permutation_middle.
Qed.

Lemma e_init_alloc_ok : state_ok (init_alloc state0) [].
Proof using.
  split; [|intros i Hi; cbn in Hi; lia]. split_and!; [done|done|simpl; lia|done|].
  intros i Hi. destruct i as [|[|[|[|i]]]]; [..|unfold PAGEMAX in Hi; lia];
    (eexists; split; [reflexivity|]; split; [done|];
     intros j m Hm; cbn [set_head chunks] in Hm; by apply lookup_replicate in Hm as [-> _]).
Qed.

Lemma alloc_abs_nonzero size ll a ll' :
  mmap_ok -> tiled 0 ll -> 0 < size -> alloc_abs size ll = Some (a, ll') -> tiled 0 ll' -> a <> 0.
Proof using.
  intros Hmm Ht Hs Ha Ht'. apply alloc_abs_live in Ha.
  destruct (tiled_live_bounds 0 ll' a size Ht') as (k & _ & _ & Hb); [rewrite Ha; by left|].
  pose proof (mmap_pos k Hmm). lia.
Qed.

Lemma first_fit_pages_length size ll a ll' : first_fit_pages size ll = Some (a, ll') -> length ll' = length ll.
Proof using.
  revert ll'. induction ll as [|l ll IH]; intros ll' Hf; [done|]. cbn in Hf.
  destruct (first_fit size l) as [[x l']|]; [by simplify_eq|].
  destruct (first_fit_pages size ll) as [[x r]|]; [|done]. simplify_eq. cbn. by rewrite (IH _ eq_refl).
Qed.

Lemma mark_free_pages_length a ll : length (mark_free_pages a ll) = length ll.
Proof using. induction ll as [|l ll IH]; [done|]. cbn. destruct (mark_free a l); cbn; congruence. Qed.

(** A request that needs a page when [mmap] fails. *)
Definition map_fails (size : Z) (ll : list (list seg)) : Prop :=
  first_fit_pages size ll = None /\ (length ll < PAGEMAX)%nat /\ mmap (length ll) = MAP_FAILED.

Lemma e_alloc_ok st ll size :
  mmap_ok -> state_ok st ll -> valid_size size ->
  match alloc_abs size ll with
  | Some (a, ll') => exists st', alloc size st = Ok (a, st') /\ pagenum st' = Z.of_nat (length ll') /\
      (map_fails size ll /\ a = MAP_FAILED \/ ~ map_fails size ll /\ state_ok st' ll')
  | None => alloc size st = Ok (0, st) /\ length ll = PAGEMAX
  end.
Proof using.
  intros Hmm [Hok Hf] Hv. pose proof (e_alloc_spec _ _ _ Hmm Hok Hv) as Hs. unfold alloc_abs in *. unfold map_fails.
  destruct (first_fit_pages size ll) as [[a ll']|] eqn:Hff.
  - destruct Hs as (st' & Ha & Hok'). exists st'. split; [done|]. split; [apply Hok'|]. right. split; [intros [[=] _]|]. split; [done|].
    intros i Hi. rewrite (first_fit_pages_length _ _ _ _ Hff) in Hi. by apply Hf.
  - destruct (Nat.ltb_spec (length ll) PAGEMAX) as [Hlt|Hge]; [|done].
    rewrite first_fit_pages_app in * by done. destruct (first_fit_fresh size (mmap (length ll)) Hv) as [l Hl]. rewrite Hl in *.
    destruct Hs as (st' & Ha & Hok'). exists st'. split; [done|]. split; [apply Hok'|].
    destruct (decide (mmap (length ll) = MAP_FAILED)) as [E|E]; [by left|right]. split; [tauto|]. split; [done|].
    intros i Hi. rewrite length_app in Hi. cbn in Hi. destruct (decide (i = length ll)) as [->|Hne]; [done|]. apply Hf. lia.
Qed.

Lemma e_dealloc_ok st ll a :
  state_ok st ll -> exists st', dealloc a st = Ok st' /\ state_ok st' (mark_free_pages a ll).
Proof using.
  intros [Hok Hf]. destruct (e_dealloc_spec _ _ a Hok) as (st' & Hd & Hok'). exists st'. split; [done|]. split; [done|].
  intros i Hi. rewrite mark_free_pages_length in Hi. by apply Hf.
Qed.

(** [ealloc.c] implements the block-allocator interface while [mmap] does not
    fail. *)
#[global] Program Instance ealloc_block_allocator (Hmm : mmap_ok) (Hnf : forall i, (i < PAGEMAX)%nat -> mmap i <> MAP_FAILED) :
  BlockAllocator alloc dealloc := {|
  ba_rep st bl := exists ll, state_ok st ll /\ bl = live_pages ll;
  ba_valid := valid_size
|}.
Next Obligation.
  intros Hmm Hnf st bl (ll & Hok & ->). apply (live_pages_disjoint 0); [done|by eapply state_ok_tiled].
Qed.
Next Obligation.
  intros Hmm Hnf st bl size a st' (ll & Hok & ->) Hv Ha.
  pose proof (e_alloc_ok _ _ _ Hmm Hok Hv) as Hs.
  destruct (alloc_abs size ll) as [[x ll']|] eqn:Hff.
  - destruct Hs as (st1 & Heq & _ & [[(_ & Hlt & E) _]|[_ Hok']]); [by destruct (Hnf _ Hlt E)|]. rewrite Heq in Ha. simplify_eq.
    exists (live_pages ll'). split; [eauto|]. right. split; [|by apply alloc_abs_live].
    destruct Hv as [[Hsz _] _]. eapply (alloc_abs_nonzero size ll); eauto using state_ok_tiled.
  - destruct Hs as [Heq _]. rewrite Heq in Ha. simplify_eq. exists (live_pages ll). naive_solver.
Qed.
Next Obligation.
  intros Hmm Hnf st bl a n (ll & Hok & ->) Hin.
  destruct (e_dealloc_ok _ _ a Hok) as (st' & Hd & Hok').
  exists st', (live_pages (mark_free_pages a ll)). split_and!; [done|by eauto|].
  by apply (mark_free_pages_live 0); [done|eapply state_ok_tiled|].
Qed.

(** ** Properties *)

(** C26: the elastic [alloc] always returns.  On a state in its invariant and a
    valid request it takes the first fit over the mapped pages in order, maps
    one more page when none has room, and returns NULL only when all
    [PAGEMAX] pages are mapped and none has room; the new block overlaps no
    live block of any page.  The exception is a request that needs a page when
    [mmap] fails, which the code does not notice: it counts the failed page and
    returns [MAP_FAILED] as the address of the block. *)
Theorem ealloc_total st ll size :
  mmap_ok -> state_ok st ll -> valid_size size ->
  (~ map_fails size ll /\ exists a st' ll', alloc size st = Ok (a, st') /\ alloc_abs size ll = Some (a, ll') /\
     state_ok st' ll' /\ a <> 0 /\ live_pages ll' ≡ₚ (a, size) :: live_pages ll /\
     blocks_disjoint (live_pages ll')) \/
  (alloc size st = Ok (0, st) /\ pagenum st = Z.of_nat PAGEMAX /\ first_fit_pages size ll = None) \/
  (map_fails size ll /\ exists st', alloc size st = Ok (MAP_FAILED, st') /\ pagenum st' = pagenum st + 1).
Proof using.
  intros Hmm Hok Hv. pose proof (e_alloc_ok _ _ _ Hmm Hok Hv) as Hs. pose proof Hok as [(Hn & _) _].
  destruct (alloc_abs size ll) as [[a ll']|] eqn:Ha.
  - destruct Hs as (st' & H1 & Hn' & [[Hf ->]|[Hf Hok']]).
    + right. right. split; [done|]. exists st'. split; [done|]. rewrite Hn', Hn. destruct Hf as (Hff & Hlt & _).
      unfold alloc_abs in Ha. rewrite Hff, (proj2 (Nat.ltb_lt _ _)) in Ha by done.
      rewrite (first_fit_pages_length _ _ _ _ Ha), length_app. cbn. lia.
    + left. split; [done|]. exists a, st', ll'. destruct Hv as [[Hsz _] _].
      split_and!; try done.
      * eapply (alloc_abs_nonzero size ll); eauto using state_ok_tiled.
      * by apply alloc_abs_live.
      * apply (live_pages_disjoint 0); [done|by eapply state_ok_tiled].
  - destruct Hs as [H1 H2]. right. left. split_and!; [done|lia|].
    unfold alloc_abs in Ha. by destruct (first_fit_pages size ll).
Qed.

(** a request that fits in no mapped page is served at the start of a
    newly mapped page while fewer than [PAGEMAX] pages are mapped. *)
Theorem ealloc_grows st ll size :
  mmap_ok -> state_ok st ll -> valid_size size ->
  first_fit_pages size ll = None -> (length ll < PAGEMAX)%nat ->
  exists st', alloc size st = Ok (mmap (length ll), st') /\ pagenum st' = pagenum st + 1.
Proof using.
  intros Hmm [Hok _] Hv Hff Hlt. pose proof (e_alloc_spec _ _ _ Hmm Hok Hv) as Hs. unfold alloc_abs in Hs.
  rewrite Hff in Hs. rewrite (proj2 (Nat.ltb_lt _ _)), first_fit_pages_app in Hs by done.
  destruct (first_fit_fresh size (mmap (length ll)) Hv) as [l Hl]. rewrite Hl in Hs.
  destruct Hs as (st' & H1 & (Hn' & _)), Hok as (Hn & _). exists st'. split; [done|].
  rewrite Hn', Hn, length_app. simpl. lia.
Qed.

(** [dealloc] of a live block returns and gives back exactly that block,
    in whichever page it lies. *)
Theorem ealloc_dealloc_releases st ll a n :
  mmap_ok -> state_ok st ll -> (a, n) ∈ live_pages ll ->
  exists st' ll', dealloc a st = Ok st' /\ state_ok st' ll' /\
    live_pages ll ≡ₚ (a, n) :: live_pages ll'.
Proof using.
  intros Hmm Hok Hin. destruct (e_dealloc_ok _ _ a Hok) as (st' & Hd & Hok').
  exists st', (mark_free_pages a ll). split_and!; [done|done|].
  by apply (mark_free_pages_live 0); [done|eapply state_ok_tiled|].
Qed.

(** client safety of the elastic allocator: while [mmap] does not fail, from
    [init_alloc] on, for
    every sequence of valid requests and frees of held blocks, the blocks the
    client holds are pairwise disjoint across all pages. *)
Theorem ealloc_client_safe rs st' held :
  mmap_ok -> (forall i, (i < PAGEMAX)%nat -> mmap i <> MAP_FAILED) -> (forall size, Request size ∈ rs -> valid_size size) ->
  client alloc dealloc rs (init_alloc state0) [] = Ok (st', held) ->
  blocks_disjoint held /\ exists ll, state_ok st' ll /\ live_pages ll ≡ₚ held.
Proof using.
  intros Hmm Hnf Hv Hc.
  destruct (client_inv alloc dealloc (BlockAllocator0 := ealloc_block_allocator Hmm Hnf) rs
    (init_alloc state0) [] [] st' held) as (bl & (ll & Hok & ->) & Hl & Hd);
    [|done|done|done|by eauto].
  exists []. split; [exact e_init_alloc_ok|done].
Qed.

End mmap.

(** ** Witnesses *)

(** Four pages mapped one after the other from 4096 on; further calls fail. *)
Definition mmap_seq (n : nat) : Z := if (n <? 4)%nat then 4096 * (Z.of_nat n + 1) else MAP_FAILED.

Lemma mmap_seq_ok : mmap_ok mmap_seq.
Proof.
  unfold mmap_ok, mmap_seq, PAGESIZE, MAP_FAILED. split.
  - intros i. destruct (Nat.ltb_spec i 4); [right; lia|by left].
  - intros i j Hne. destruct (Nat.ltb_spec i 4), (Nat.ltb_spec j 4); intros Hi Hj; [lia|done|done|done].
Qed.

Lemma valid_512 : valid_size 512.
Proof. split; [done|by exists 2]. Qed.

(** The first request, when [mmap] works and when it never does. *)
Lemma ealloc_total_witness :
  (exists st', alloc mmap_seq 512 (init_alloc state0) = Ok (4096, st') /\
    exists ll', state_ok mmap_seq st' ll' /\ live_pages ll' ≡ₚ [(4096, 512)]) /\
  exists st', alloc (fun _ => MAP_FAILED) 512 (init_alloc state0) = Ok (MAP_FAILED, st').
Proof.
  assert (Hbad : mmap_ok (fun _ => MAP_FAILED)) by (split; [by left|done]). split.
  - destruct (ealloc_total mmap_seq _ _ 512 mmap_seq_ok (e_init_alloc_ok mmap_seq) valid_512)
      as [(_ & a & st' & ll' & H1 & H2 & H3 & _ & H4 & _)|[(H1 & H2 & _)|[(_ & _ & H) _]]].
    + vm_compute in H2. injection H2 as <- <-. exists st'. split; [exact H1|]. eauto.
    + vm_compute in H2. discriminate.
    + vm_compute in H. discriminate.
  - destruct (ealloc_total _ _ _ 512 Hbad (e_init_alloc_ok _) valid_512)
      as [[H _]|[(_ & H & _)|(_ & st' & H & _)]]; [|vm_compute in H; discriminate|by exists st'].
    exfalso. apply H. split; [reflexivity|]. split; [vm_compute; lia|reflexivity].
Defined.

Lemma ealloc_grows_witness :
  exists st', alloc mmap_seq 512 (init_alloc state0) = Ok (4096, st') /\ pagenum st' = 1.
Proof.
  refine (ealloc_grows mmap_seq _ _ 512 mmap_seq_ok (e_init_alloc_ok mmap_seq) valid_512 eq_refl _).
  vm_compute. lia.
Defined.

(** One block of 512 bytes allocated. *)
Definition state_one : state :=
  match alloc mmap_seq 512 (init_alloc state0) with Ok (_, st) => st | Stuck _ => state0 end.

Lemma state_one_ok : exists ll, state_ok mmap_seq state_one ll /\ (4096, 512) ∈ live_pages ll.
Proof.
  pose proof (e_alloc_ok mmap_seq _ _ 512 mmap_seq_ok (e_init_alloc_ok mmap_seq) valid_512) as H.
  vm_compute (alloc_abs _ _ _) in H. destruct H as (st' & H1 & _ & [[(_ & _ & H) _]|[_ H2]]); [vm_compute in H; discriminate|].
  unfold state_one. rewrite H1. eexists. split; [exact H2|]. by left.
Qed.

Lemma ealloc_dealloc_releases_witness :
  exists st' ll', dealloc 4096 state_one = Ok st' /\ state_ok mmap_seq st' ll'.
Proof.
  destruct state_one_ok as (ll & Hok & Hin).
  destruct (ealloc_dealloc_releases mmap_seq state_one ll 4096 512 mmap_seq_ok Hok Hin)
    as (st' & ll' & H1 & H2 & _). eauto.
Defined.

Lemma ealloc_client_safe_witness :
  exists st' held, client (alloc mmap_seq) dealloc [Request 4096; Request 512; GiveBack 1; Request 256]
    (init_alloc state0) [] = Ok (st', held) /\ held = [(4096, 256); (8192, 512)] /\ blocks_disjoint held.
Proof.
  eexists _, _. split; [vm_compute; reflexivity|]. split; [reflexivity|].
  eapply (ealloc_client_safe mmap_seq [Request 4096; Request 512; GiveBack 1; Request 256]);
    [exact mmap_seq_ok| | |vm_compute; reflexivity].
  { intros i Hi. unfold mmap_seq. rewrite (proj2 (Nat.ltb_lt i 4)) by exact Hi. unfold PAGEMAX in Hi. unfold MAP_FAILED. lia. }
  intros size Hin. repeat (apply elem_of_cons in Hin as [Hin|Hin]; [simplify_eq|]); [..|by apply not_elem_of_nil in Hin];
    (split; [done|]); [by exists 16|by exists 2|by exists 1].
Defined.
