(* ===== verification/Bytes.v ===== *)
(** Bytes, machine integers and files as the C programs of the repository see
    them: little-endian 32-bit integers in structs, NUL-terminated strings in
    memory, and a disk file accessed with [lseek] followed by [read] or
    [write]. *)

From S2P Require Import Prelude.

(** ** 32-bit integers *)

(** The value of an [int] that holds the low 32 bits of [z]. *)
Definition s32 (z : Z) : Z := (z + 2 ^ 31) mod 2 ^ 32 - 2 ^ 31.

Definition in_s32 (z : Z) : Prop := - 2 ^ 31 <= z < 2 ^ 31.

(** The four bytes of an [int], low byte first. *)
Definition le32 (z : Z) : list Z :=
  [z mod 256; z / 256 mod 256; z / 65536 mod 256; z / 16777216 mod 256].

(** The [int] stored in the first four bytes of [b]. *)
Definition get32 (b : list Z) : Z :=
  match b with
  | b0 :: b1 :: b2 :: b3 :: _ => s32 (b0 + 256 * b1 + 65536 * b2 + 16777216 * b3)
  | _ => 0
  end.

(** ** Strings in memory *)

(** [strlen]: the number of bytes before the first NUL. *)
Fixpoint strlen (m : list Z) : res Z :=
  match m with
  | [] => Stuck OutOfBounds
  | c :: m' => if c =? 0 then Ok 0 else n ← strlen m'; Ok (n + 1)
  end.

(** [strcmp(p, q) == 0] *)
Fixpoint strcmp_eq (p q : list Z) : res bool :=
  match p, q with
  | x :: p', y :: q' =>
      if x =? y then if x =? 0 then Ok true else strcmp_eq p' q' else Ok false
  | _, _ => Stuck OutOfBounds
  end.

(** [memcpy(dst, src, n)] into a fresh destination: the first [n] bytes of
    [src]. *)
Definition memcpy_from (src : list Z) (n : nat) : res (list Z) :=
  if (n <=? length src)%nat then Ok (take n src) else Stuck OutOfBounds.

(** ** Files *)

(** [lseek(fd, off, SEEK_SET); ret = read(fd, buf, n); assert(ret == n);] *)
Definition pread (d : list Z) (off n : Z) : res (list Z) :=
  if off <? 0 then Stuck OutOfBounds
  else if off + n <=? Z.of_nat (length d)
  then Ok (take (Z.to_nat n) (drop (Z.to_nat off) d))
  else Stuck AssertFailed.

(** [lseek(fd, off, SEEK_SET); write(fd, bs, n);] a write past the end of the
    file fills the gap with zeros. *)
Definition pwrite (d : list Z) (off : Z) (bs : list Z) : list Z :=
  let o := Z.to_nat off in
  take o (d ++ replicate (o - length d) 0) ++ bs ++ drop (o + length bs) d.

(** [lseek(fd, off, SEEK_SET); ret = write(fd, bs, n); assert(ret == n);] on
    a device that is never full. *)
Definition fwrite_at (d : list Z) (off : Z) (bs : list Z) : res (list Z) :=
  if off <? 0 then Stuck OutOfBounds else Ok (pwrite d off bs).

(** ** Buffers *)

(** Stores [bs] at offset [off] of a buffer. *)
Definition buf_store (buf : list Z) (off : Z) (bs : list Z) : res (list Z) :=
  if (0 <=? off) && (off + Z.of_nat (length bs) <=? Z.of_nat (length buf))
  then Ok (take (Z.to_nat off) buf ++ bs ++ drop (Z.to_nat off + length bs) buf)
  else Stuck OutOfBounds.

(** Loads [n] bytes at offset [off] of a buffer; [n] is converted to [size_t],
    so a negative count runs out of every buffer. *)
Definition buf_load (buf : list Z) (off n : Z) : res (list Z) :=
  if (0 <=? off) && (0 <=? n) && (off + n <=? Z.of_nat (length buf))
  then Ok (take (Z.to_nat n) (drop (Z.to_nat off) buf))
  else Stuck OutOfBounds.

(** ** Lemmas *)

Lemma buf_store_Ok buf o bs :
  0 <= o -> o + Z.of_nat (length bs) <= Z.of_nat (length buf) ->
  buf_store buf o bs = Ok (take (Z.to_nat o) buf ++ bs ++ drop (Z.to_nat o + length bs) buf).
Proof. intros. unfold buf_store. by rewrite !(proj2 (Z.leb_le _ _)) by lia. Qed.

Lemma buf_load_Ok buf o n :
  0 <= o -> 0 <= n -> o + n <= Z.of_nat (length buf) ->
  buf_load buf o n = Ok (take (Z.to_nat n) (drop (Z.to_nat o) buf)).
Proof. intros. unfold buf_load. by rewrite !(proj2 (Z.leb_le _ _)) by lia. Qed.

(** A buffer with [bs] stored at [o]. *)
Definition splice (o : nat) (bs buf : list Z) : list Z := take o buf ++ bs ++ drop (o + length bs) buf.

Lemma length_splice o bs buf : (o + length bs <= length buf)%nat -> length (splice o bs buf) = length buf.
Proof. intros H. unfold splice. rewrite !length_app, length_take, length_drop. lia. Qed.

Lemma splice_at o bs buf rest :
  (o <= length buf)%nat -> drop o (splice o bs buf ++ rest) = bs ++ drop (o + length bs) buf ++ rest.
Proof.
  intros H. unfold splice. rewrite <- !app_assoc, drop_app_length'; [done|]. rewrite length_take. lia.
Qed.

(** Loading what was stored... *)
Lemma splice_same o bs buf : (o <= length buf)%nat -> take (length bs) (drop o (splice o bs buf)) = bs.
Proof.
  intros H. pose proof (splice_at o bs buf [] H) as E. rewrite !app_nil_r in E.
  by rewrite E, take_app_length.
Qed.

(** ... and what was not changed. *)
Lemma splice_other o bs buf o' n :
  (o + length bs <= length buf)%nat -> (o' + n <= o \/ o + length bs <= o')%nat ->
  take n (drop o' (splice o bs buf)) = take n (drop o' buf).
Proof.
  intros Hl Hd. apply list_eq. intros i.
  destruct (decide (i < n)%nat); [|rewrite !lookup_take_ge by lia; done].
  rewrite !lookup_take_lt, !lookup_drop by lia. unfold splice. destruct Hd.
  - rewrite lookup_app_l by (rewrite length_take; lia). by rewrite lookup_take_lt by lia.
  - rewrite lookup_app_r by (rewrite length_take; lia).
    rewrite length_take, lookup_app_r by lia. rewrite lookup_drop. f_equal. lia.
Qed.

Lemma length_mjoin_uniform {A} (k : nat) (ls : list (list A)) :
  Forall (fun l => length l = k) ls -> length (mjoin ls) = (k * length ls)%nat.
Proof.
  induction 1 as [|l ls Hl _ IH]; [cbn; lia|].
  change (mjoin (l :: ls)) with (l ++ mjoin ls). rewrite length_app, IH, Hl. cbn [length]. lia.
Qed.

Lemma splice_lookup (o : nat) bs buf (j : nat) :
  (o + length bs <= length buf)%nat ->
  splice o bs buf !! j = if decide (o <= j < o + length bs)%nat then bs !! (j - o)%nat else buf !! j.
Proof.
  intros Hl. unfold splice. destruct (decide (j < o)%nat).
  - rewrite lookup_app_l by (rewrite length_take; lia). rewrite decide_False by lia. by rewrite lookup_take_lt.
  - rewrite lookup_app_r, length_take by (rewrite length_take; lia).
    replace (o `min` length buf)%nat with o by lia. case_decide.
    + by rewrite lookup_app_l by lia.
    + rewrite lookup_app_r, lookup_drop by lia. f_equal. lia.
Qed.

Lemma get32_take b : get32 (take 4 b) = get32 b.
Proof. destruct b as [|? [|? [|? [|? ?]]]]; done. Qed.


Lemma s32_id z : in_s32 z -> s32 z = z.
Proof. unfold in_s32, s32. intros H. rewrite Z.mod_small by lia. lia. Qed.

Lemma in_s32_small z : -1 <= z < 1000000 -> in_s32 z.
Proof. unfold in_s32. lia. Qed.

Lemma length_le32 z : length (le32 z) = 4%nat.
Proof. done. Qed.

Lemma le32_mod z :
  z mod 256 + 256 * (z / 256 mod 256) + 65536 * (z / 65536 mod 256)
    + 16777216 * (z / 16777216 mod 256) = z mod 2 ^ 32.
Proof.
  replace (z / 65536) with (z / 256 / 256) by (rewrite Z.div_div by lia; f_equal).
  replace (z / 16777216) with (z / 256 / 256 / 256) by (rewrite !Z.div_div by lia; f_equal).
  change (2 ^ 32) with (256 * (256 * (256 * 256))).
  rewrite !Z.rem_mul_r by lia. lia.
Qed.

(** Reading back a stored [int]. *)
Lemma get32_le32 z rest : in_s32 z -> get32 (le32 z ++ rest) = z.
Proof.
  intros H. unfold get32. cbn [le32 app]. rewrite le32_mod. unfold s32.
  rewrite Zplus_mod_idemp_l. apply (s32_id z H).
Qed.

Lemma length_pwrite d off bs :
  0 <= off -> Z.of_nat (length (pwrite d off bs)) = Z.max (Z.of_nat (length d)) (off + Z.of_nat (length bs)).
Proof.
  intros Ho. unfold pwrite. rewrite !length_app, length_take, length_drop, length_app, length_replicate. lia.
Qed.

Lemma pread_Ok d off n x :
  pread d off n = Ok x <->
  0 <= off /\ off + n <= Z.of_nat (length d) /\ x = take (Z.to_nat n) (drop (Z.to_nat off) d).
Proof.
  unfold pread. destruct (Z.ltb_spec off 0), (Z.leb_spec (off + n) (Z.of_nat (length d))); naive_solver lia.
Qed.

Lemma pread_length d off n x : 0 <= n -> pread d off n = Ok x -> Z.of_nat (length x) = n.
Proof. intros Hn (? & ? & ->)%pread_Ok. rewrite length_take, length_drop. lia. Qed.

(** What was written is read back... *)
Lemma pread_pwrite_same d off bs :
  0 <= off -> pread (pwrite d off bs) off (Z.of_nat (length bs)) = Ok bs.
Proof.
  intros Ho. apply pread_Ok. split_and!; [done|rewrite length_pwrite; lia|].
  unfold pwrite. rewrite drop_app_length'; [by rewrite Nat2Z.id, take_app_length|].
  rewrite length_take, length_app, length_replicate. lia.
Qed.

(** ... and the rest of the file is unchanged. *)
Lemma pread_pwrite_other d off bs off' n x :
  0 <= off -> 0 <= n -> off' + n <= off \/ off + Z.of_nat (length bs) <= off' ->
  pread d off' n = Ok x -> pread (pwrite d off bs) off' n = Ok x.
Proof.
  intros Ho Hn Hdis (Ho' & Hl & ->)%pread_Ok. apply pread_Ok.
  split_and!; [done|rewrite length_pwrite; lia|].
  apply list_eq. intros i.
  destruct (decide (i < Z.to_nat n)%nat); [|rewrite !lookup_take_ge by lia; done].
  rewrite !lookup_take_lt, !lookup_drop by lia. unfold pwrite.
  destruct Hdis.
  - rewrite lookup_app_l by (rewrite length_take, length_app, length_replicate; lia).
    rewrite lookup_take_lt, lookup_app_l by lia. done.
  - rewrite lookup_app_r by (rewrite length_take, length_app, length_replicate; lia).
    rewrite length_take, length_app, length_replicate, lookup_app_r by lia.
    rewrite lookup_drop. f_equal. lia.
Qed.

Lemma fwrite_at_Ok d off bs : 0 <= off -> fwrite_at d off bs = Ok (pwrite d off bs).
Proof. intros H. unfold fwrite_at. by rewrite (proj2 (Z.ltb_ge _ _)). Qed.

Lemma memcpy_from_Ok src n : (n <= length src)%nat -> memcpy_from src n = Ok (take n src).
Proof. intros H. unfold memcpy_from. by rewrite (proj2 (Nat.leb_le _ _)). Qed.

(** A C string: bytes without NUL, followed by a NUL. *)
Lemma strlen_cstr s rest : 0 ∉ s -> strlen (s ++ 0 :: rest) = Ok (Z.of_nat (length s)).
Proof.
  induction s as [|c s IH]; intros Hn; [done|]. cbn [app strlen].
  rewrite (proj2 (Z.eqb_neq _ _)) by set_solver. rewrite IH by set_solver. run. simpl. f_equal. lia.
Qed.

(** Comparing two C strings. *)
Lemma strcmp_cstr s t r1 r2 :
  0 ∉ s -> 0 ∉ t -> strcmp_eq (s ++ 0 :: r1) (t ++ 0 :: r2) = Ok (bool_decide (s = t)).
Proof.
  revert t. induction s as [|c s IH]; intros [|c' t] Hs Ht; cbn [app strcmp_eq].
  - done.
  - rewrite (proj2 (Z.eqb_neq _ _)) by set_solver. done.
  - rewrite (proj2 (Z.eqb_neq _ _)) by set_solver. done.
  - destruct (Z.eqb_spec c c') as [->|Hne].
    + rewrite (proj2 (Z.eqb_neq c' 0)) by set_solver. rewrite IH by set_solver.
      f_equal. apply bool_decide_ext. naive_solver.
    + f_equal. symmetry. apply bool_decide_eq_false. naive_solver.
Qed.
