(* ===== verification/SsufsRep.v ===== *)
(** The abstract disk of the SSU file system and the representation relation
    [rep] between it and the bytes of the disk file.  Each primitive of
    SsufsDisk.v is shown to run without a fault on a represented disk and to
    have its abstract effect. *)

From S2P Require Import Prelude Bytes SsufsDisk.

(** ** Abstract disk *)

Record adisk := ADisk {
  a_sb : superblock_t;
  a_ino : list inode_t;
  a_blk : gmap nat (list Z)
}.

Definition set_sb (s : superblock_t) (a : adisk) : adisk := ADisk s (a_ino a) (a_blk a).
Definition set_ino (i : nat) (n : inode_t) (a : adisk) : adisk :=
  ADisk (a_sb a) (<[i := n]> (a_ino a)) (a_blk a).
Definition set_blk (b : nat) (bs : list Z) (a : adisk) : adisk :=
  ADisk (a_sb a) (a_ino a) (<[b := bs]> (a_blk a)).
Definition set_ifl (fl : list Z) (s : superblock_t) : superblock_t :=
  Superblock (sb_name s) fl (datablock_freelist s).
Definition set_dfl (fl : list Z) (s : superblock_t) : superblock_t :=
  Superblock (sb_name s) (inode_freelist s) fl.

(** The sizes of the struct fields. *)
Definition sb_ok (s : superblock_t) : Prop :=
  length (sb_name s) = 8%nat /\ length (inode_freelist s) = 8%nat /\
  length (datablock_freelist s) = 30%nat.

Definition ino_ok (n : inode_t) : Prop :=
  in_s32 (status n) /\ length (name n) = 8%nat /\ in_s32 (file_size n) /\
  length (direct_blocks n) = 4%nat /\ Forall in_s32 (direct_blocks n).

Definition sb_at (d : list Z) (s : superblock_t) : Prop :=
  exists t, pread d 0 64 = Ok (enc_superblock s ++ t).
Definition ino_at (d : list Z) (i : nat) (n : inode_t) : Prop :=
  pread d (64 + Z.of_nat i * 32) 32 = Ok (enc_inode n).
Definition blk_at (d : list Z) (b : nat) (bs : list Z) : Prop :=
  pread d (64 * (5 + Z.of_nat b)) 64 = Ok bs.

Record rep (d : list Z) (a : adisk) : Prop := {
  rep_sb : sb_ok (a_sb a) /\ sb_at d (a_sb a);
  rep_len : length (a_ino a) = NUM_INODES;
  rep_ino : forall i n, a_ino a !! i = Some n -> ino_ok n /\ ino_at d i n;
  rep_blk : forall b bs, a_blk a !! b = Some bs ->
    (b < NUM_DATA_BLOCKS)%nat /\ length bs = 64%nat /\ blk_at d b bs
}.

(** ** Encodings *)

Lemma length_enc_superblock s : sb_ok s -> length (enc_superblock s) = 46%nat.
Proof. intros (?&?&?). unfold enc_superblock. rewrite !length_app. lia. Qed.

Lemma dec_enc_superblock s t : sb_ok s -> dec_superblock (enc_superblock s ++ t) = s.
Proof.
  destruct s as [nm fl dl]. unfold sb_ok, dec_superblock, enc_superblock. simpl.
  intros (Hn & Hf & Hd). rewrite <- !app_assoc. f_equal.
  - by rewrite take_app_length'.
  - rewrite drop_app_length', take_app_length' by done. done.
  - rewrite app_assoc, drop_app_length' by (rewrite length_app; lia).
    by rewrite take_app_length'.
Qed.

Lemma sb_ok_ifl i c s : sb_ok s -> sb_ok (set_ifl (<[i := c]> (inode_freelist s)) s).
Proof. unfold sb_ok. simpl. by rewrite length_insert. Qed.

Lemma sb_ok_dfl i c s : sb_ok s -> sb_ok (set_dfl (<[i := c]> (datablock_freelist s)) s).
Proof. unfold sb_ok. simpl. by rewrite length_insert. Qed.

Lemma ino_blocks4 n : ino_ok n -> exists b0 b1 b2 b3, direct_blocks n = [b0; b1; b2; b3].
Proof.
  intros (_ & _ & _ & Hl & _).
  destruct (direct_blocks n) as [|b0 [|b1 [|b2 [|b3 [|]]]]]; try discriminate. by do 4 eexists.
Qed.

Lemma length_enc_inode n : ino_ok n -> length (enc_inode n) = 32%nat.
Proof.
  intros Hn. destruct (ino_blocks4 n Hn) as (b0&b1&b2&b3&E). destruct Hn as (_&Hl&_).
  unfold enc_inode. rewrite E, !length_app, Hl. done.
Qed.

Lemma enc_inode_name n :
  drop 4 (enc_inode n) = name n ++ le32 (file_size n) ++ mjoin (le32 <$> direct_blocks n).
Proof. done. Qed.

Lemma dec_enc_inode n : ino_ok n -> dec_inode (enc_inode n) = n.
Proof.
  intros Hn. destruct (ino_blocks4 n Hn) as (b0&b1&b2&b3&E).
  destruct n as [st nm sz bl]. simpl in *. subst bl.
  destruct Hn as (Hst & Hl & Hsz & _ & Hb). simpl in *.
  apply Forall_cons in Hb as [? Hb]. apply Forall_cons in Hb as [? Hb].
  apply Forall_cons in Hb as [? Hb]. apply Forall_cons in Hb as [? _].
  destruct nm as [|n0 [|n1 [|n2 [|n3 [|n4 [|n5 [|n6 [|n7 [|]]]]]]]]]; try discriminate.
  unfold dec_inode, enc_inode. cbn [status name file_size direct_blocks].
  f_equal; [by apply get32_le32|by apply (get32_le32 sz)|].
  f_equal; [by apply (get32_le32 b0)|]. f_equal; [by apply (get32_le32 b1)|].
  f_equal; [by apply (get32_le32 b2)|]. f_equal. by apply (get32_le32 b3).
Qed.

(** ** Primitives on a represented disk *)

Section prim.
Context `{Garbage}.

Lemma readSuperBlock_rep d a : rep d a -> ssufs_readSuperBlock d = Ok (a_sb a).
Proof.
  intros R. destruct (rep_sb _ _ R) as [Hok [t Ht]]. unfold ssufs_readSuperBlock.
  change BLOCKSIZE with 64. rewrite Ht. run. by rewrite dec_enc_superblock.
Qed.

Lemma writeSuperBlock_rep d a s :
  rep d a -> sb_ok s -> exists d', ssufs_writeSuperBlock d s = Ok d' /\ rep d' (set_sb s a).
Proof.
  intros R Hs. unfold ssufs_writeSuperBlock. rewrite fwrite_at_Ok by lia.
  eexists. split; [done|].
  assert (HL : length (enc_superblock s ++ stack_tail d) = 64%nat)
    by (rewrite length_app, length_enc_superblock, length_stack_tail by done; done).
  split; simpl.
  - split; [done|]. exists (stack_tail d).
    rewrite <- (pread_pwrite_same d 0 (enc_superblock s ++ stack_tail d)) by lia.
    rewrite HL. done.
  - apply R.
  - intros i n Hi. destruct (rep_ino _ _ R i n Hi) as [? Hat]. split; [done|].
    apply pread_pwrite_other; [lia..| |done]. right. lia.
  - intros b bs Hb. destruct (rep_blk _ _ R b bs Hb) as (?&?&Hat). split_and!; [done..|].
    apply pread_pwrite_other; [lia..| |done]. right. lia.
Qed.

Lemma readInode_rep d a i n :
  rep d a -> a_ino a !! i = Some n -> ssufs_readInode d (Z.of_nat i) = Ok n.
Proof.
  intros R Hi. destruct (rep_ino _ _ R i n Hi) as [Hok Hat].
  pose proof (lookup_lt_Some _ _ _ Hi) as Hl. rewrite (rep_len _ _ R) in Hl.
  unfold ssufs_readInode, c_assert. rewrite (proj2 (Z.ltb_lt _ _)) by lia. run.
  change BLOCKSIZE with 64. rewrite Hat. run. by rewrite dec_enc_inode.
Qed.

Lemma writeInode_rep d a i n :
  rep d a -> ino_ok n -> (i < NUM_INODES)%nat ->
  exists d', ssufs_writeInode d (Z.of_nat i) n = Ok d' /\ rep d' (set_ino i n a).
Proof.
  intros R Hn Hi. unfold ssufs_writeInode, c_assert.
  rewrite (proj2 (Z.ltb_lt _ _)) by lia. run. change BLOCKSIZE with 64.
  rewrite fwrite_at_Ok by lia. eexists. split; [done|].
  pose proof (length_enc_inode n Hn) as HL. pose proof (rep_len _ _ R) as Hlen.
  unfold NUM_INODES in *. split; simpl.
  - destruct (rep_sb _ _ R) as [Hs [t Ht]]. split; [done|]. exists t.
    apply pread_pwrite_other; [lia..| |done]. left. lia.
  - by rewrite length_insert.
  - intros j m Hj. apply list_lookup_insert_Some in Hj as [(<- & <- & _)|[Hne Hj]].
    + split; [done|]. unfold ino_at. rewrite <- (pread_pwrite_same d (64 + Z.of_nat i * 32) (enc_inode n)) by lia.
      by rewrite HL.
    + destruct (rep_ino _ _ R j m Hj) as [? Hat]. split; [done|].
      apply pread_pwrite_other; [lia..| |done]. rewrite HL. lia.
  - intros b bs Hb. destruct (rep_blk _ _ R b bs Hb) as (?&?&Hat). split_and!; [done..|].
    apply pread_pwrite_other; [lia..| |done]. right. lia.
Qed.

Lemma readDataBlock_rep d a b bs :
  rep d a -> a_blk a !! b = Some bs -> ssufs_readDataBlock d (Z.of_nat b) = Ok bs.
Proof.
  intros R Hb. destruct (rep_blk _ _ R b bs Hb) as (?&?&Hat).
  unfold ssufs_readDataBlock, c_assert. by rewrite (proj2 (Z.ltb_lt _ _)) by lia.
Qed.

Lemma writeDataBlock_rep d a b buf :
  rep d a -> (b < NUM_DATA_BLOCKS)%nat -> (64 <= length buf)%nat ->
  exists d', ssufs_writeDataBlock d (Z.of_nat b) buf = Ok d' /\ rep d' (set_blk b (take 64 buf) a).
Proof.
  intros R Hb Hbuf. unfold ssufs_writeDataBlock, c_assert.
  rewrite (proj2 (Z.ltb_lt _ _)) by lia. run. change BLOCKSIZE with 64. change (Z.to_nat 64) with 64%nat.
  rewrite memcpy_from_Ok by done. run. rewrite fwrite_at_Ok by lia. eexists. split; [done|].
  assert (HL : length (take 64 buf) = 64%nat) by (rewrite length_take; lia).
  pose proof (rep_len _ _ R) as Hlen. unfold NUM_INODES in *. split; simpl.
  - destruct (rep_sb _ _ R) as [Hs [t Ht]]. split; [done|]. exists t.
    apply pread_pwrite_other; [lia..| |done]. left. lia.
  - done.
  - intros j m Hj. destruct (rep_ino _ _ R j m Hj) as [? Hat]. split; [done|].
    pose proof (lookup_lt_Some _ _ _ Hj).
    apply pread_pwrite_other; [lia..| |done]. left. lia.
  - intros c bs Hc. apply lookup_insert_Some in Hc as [[<- <-]|[Hne Hc]].
    + split_and!; [done..|]. unfold blk_at.
      rewrite <- (pread_pwrite_same d (64 * (5 + Z.of_nat b)) (take 64 buf)) by lia. by rewrite HL.
    + destruct (rep_blk _ _ R c bs Hc) as (?&?&Hat). split_and!; [done..|].
      apply pread_pwrite_other; [lia..| |done]. rewrite HL. lia.
Qed.

(** ** The free lists *)

(** What [first_index] returns on entries [[i, i + n)]. *)
Inductive found (l : list Z) (c : Z) : Z -> Prop :=
| found_at j : l !! j = Some c -> (forall k, (k < j)%nat -> l !! k <> Some c) -> found l c (Z.of_nat j)
| found_none : c ∉ l -> found l c (-1).

Lemma first_index_from l c n i :
  length l = (i + n)%nat -> (forall k, (k < i)%nat -> l !! k <> Some c) ->
  exists r, first_index l c n (Z.of_nat i) = Ok r /\ found l c r.
Proof.
  revert i. induction n as [|n IH]; intros i Hl Hlt; cbn [first_index].
  - eexists. split; [done|]. constructor. intros [k Hk]%list_elem_of_lookup.
    apply (Hlt k); [|done]. apply lookup_lt_Some in Hk. lia.
  - destruct (lookup_lt_is_Some_2 l i) as [x Hx]; [lia|].
    rewrite (aget_nat _ _ _ Hx). run. destruct (Z.eqb_spec x c) as [->|Hne].
    + eexists. split; [done|]. by constructor.
    + replace (Z.of_nat i + 1) with (Z.of_nat (S i)) by lia. apply IH; [lia|].
      intros k Hk. destruct (decide (k = i)) as [->|]; [congruence|apply Hlt; lia].
Qed.

Lemma first_index_spec l c n :
  length l = n -> exists r, first_index l c n 0 = Ok r /\ found l c r.
Proof. intros Hl. apply (first_index_from l c n 0); [lia|intros; lia]. Qed.

(** [ssufs_allocInode] takes the first free inode, or reports -1. *)
Lemma allocInode_rep d a :
  rep d a ->
  exists r d', ssufs_allocInode d = Ok (r, d') /\ found (inode_freelist (a_sb a)) INODE_FREE r /\
    rep d' (if r <? 0 then a
            else set_sb (set_ifl (<[Z.to_nat r := INODE_IN_USE]> (inode_freelist (a_sb a))) (a_sb a)) a).
Proof.
  intros R. destruct (rep_sb _ _ R) as [(?&Hl&?) _]. unfold ssufs_allocInode.
  rewrite (readSuperBlock_rep _ _ R). run.
  destruct (first_index_spec _ INODE_FREE NUM_INODES Hl) as (r & -> & Hr). run.
  destruct Hr as [j Hj Hmin|Hnone].
  - rewrite (proj2 (Z.ltb_ge _ _)) by lia. rewrite aset_nat by eauto with ssu. run.
    destruct (writeSuperBlock_rep d a (set_ifl (<[j:=INODE_IN_USE]> (inode_freelist (a_sb a))) (a_sb a)))
      as (d' & E & R'); [done|by apply sb_ok_ifl|].
    unfold set_ifl in E at 1. rewrite E. run. do 2 eexists. split; [done|].
    split; [by constructor|]. by rewrite (proj2 (Z.ltb_ge _ _)), Nat2Z.id by lia.
  - do 2 eexists. split; [done|]. split; [by constructor|done].
Qed.

Lemma allocDataBlock_rep d a :
  rep d a ->
  exists r d', ssufs_allocDataBlock d = Ok (r, d') /\ found (datablock_freelist (a_sb a)) DATA_BLOCK_FREE r /\
    rep d' (if r <? 0 then a
            else set_sb (set_dfl (<[Z.to_nat r := DATA_BLOCK_USED]> (datablock_freelist (a_sb a))) (a_sb a)) a).
Proof.
  intros R. destruct (rep_sb _ _ R) as [(?&?&Hl) _]. unfold ssufs_allocDataBlock.
  rewrite (readSuperBlock_rep _ _ R). run.
  destruct (first_index_spec _ DATA_BLOCK_FREE NUM_DATA_BLOCKS Hl) as (r & -> & Hr). run.
  destruct Hr as [j Hj Hmin|Hnone].
  - rewrite (proj2 (Z.ltb_ge _ _)) by lia. rewrite aset_nat by eauto with ssu. run.
    destruct (writeSuperBlock_rep d a (set_dfl (<[j:=DATA_BLOCK_USED]> (datablock_freelist (a_sb a))) (a_sb a)))
      as (d' & E & R'); [done|by apply sb_ok_dfl|].
    unfold set_dfl in E at 1. rewrite E. run. do 2 eexists. split; [done|].
    split; [by constructor|]. by rewrite (proj2 (Z.ltb_ge _ _)), Nat2Z.id by lia.
  - do 2 eexists. split; [done|]. split; [by constructor|done].
Qed.

Lemma freeDataBlock_rep d a b :
  rep d a -> datablock_freelist (a_sb a) !! b = Some DATA_BLOCK_USED ->
  exists d', ssufs_freeDataBlock d (Z.of_nat b) = Ok d' /\
    rep d' (set_sb (set_dfl (<[b := DATA_BLOCK_FREE]> (datablock_freelist (a_sb a))) (a_sb a)) a).
Proof.
  intros R Hb. destruct (rep_sb _ _ R) as [(?&?&Hl) _]. unfold ssufs_freeDataBlock.
  rewrite (readSuperBlock_rep _ _ R). run. rewrite (aget_nat _ _ _ Hb). run.
  unfold c_assert. rewrite Z.eqb_refl. run. rewrite aset_nat by eauto with ssu. run.
  apply (writeSuperBlock_rep _ _ (set_dfl (<[b:=DATA_BLOCK_FREE]> (datablock_freelist (a_sb a))) (a_sb a)));
    [done|by apply sb_ok_dfl].
Qed.

End prim.
