(* ===== verification/SsufsOps.v ===== *)
(** The SSU file system of project 6, operations (ssufs-ops.c): create, delete,
    open, close, read, write and lseek over the disk and the table of open
    files.  [malloc] is taken to succeed. *)

From S2P Require Import Prelude Bytes SsufsDisk.

(** The globals: the disk file and [file_handle_array]. *)
Record fs := Fs {
  disk : list Z;
  file_handle_array : list filehandle_t
}.

Section ops.
Context `{Garbage}.

(** Formats the disk and clears the handles. *)
Definition ssufs_format : res fs :=
  '(d, hs) ← ssufs_formatDisk; Ok (Fs d hs).

(** The first index in [[i, i + n)] whose handle refers to inode [k], or -1. *)
Fixpoint handle_index (hs : list filehandle_t) (k : Z) (n : nat) (i : Z) : res Z :=
  match n with
  | O => Ok (-1)
  | S n' =>
      h ← aget hs i;
      if inode_number h =? k then Ok i else handle_index hs k n' (i + 1)
  end.

Definition ssufs_allocFileHandle (s : fs) : res Z :=
  handle_index (file_handle_array s) (-1) MAX_OPEN_FILES 0.

Definition ssufs_create (s : fs) (filename : list Z) : res (Z * fs) :=
  r ← open_namei (disk s) filename;
  if r >=? 0 then Ok (-1, s)
  else
    '(inode_number, d) ← ssufs_allocInode (disk s);
    if inode_number <? 0 then Ok (-1, Fs d (file_handle_array s))
    else
      nm ← memcpy_from filename MAX_NAME_STRLEN;
      d ← ssufs_writeInode d inode_number
            (Inode INODE_IN_USE nm 0 (replicate MAX_FILE_SIZE (-1)));
      Ok (inode_number, Fs d (file_handle_array s)).

Definition ssufs_close (s : fs) (file_handle : Z) : res fs :=
  hs ← aset (file_handle_array s) file_handle (Filehandle 0 (-1));
  Ok (Fs (disk s) hs).

(** The loop closes the first handle on the file and stops. *)
Definition ssufs_delete (s : fs) (filename : list Z) : res fs :=
  inode_number ← open_namei (disk s) filename;
  if inode_number <? 0 then Ok s
  else
    i ← handle_index (file_handle_array s) inode_number MAX_OPEN_FILES 0;
    s ← (if i <? 0 then Ok s else ssufs_close s i);
    d ← ssufs_freeInode (disk s) inode_number;
    Ok (Fs d (file_handle_array s)).

Definition ssufs_open (s : fs) (filename : list Z) : res (Z * fs) :=
  inode_number ← open_namei (disk s) filename;
  file_handle ← ssufs_allocFileHandle s;
  if (inode_number <? 0) || (file_handle <? 0) then Ok (-1, s)
  else
    h ← aget (file_handle_array s) file_handle;
    hs ← aset (file_handle_array s) file_handle (Filehandle (offset h) inode_number);
    Ok (file_handle, Fs (disk s) hs).

Definition ssufs_lseek (s : fs) (file_handle nseek : Z) : res (Z * fs) :=
  h ← aget (file_handle_array s) file_handle;
  tmp ← ssufs_readInode (disk s) (inode_number h);
  let fsize := file_size tmp in
  offset ← c_int (offset h + nseek);
  if (fsize =? -1) || (offset <? 0) || (offset >? fsize) then Ok (-1, s)
  else
    hs ← aset (file_handle_array s) file_handle (Filehandle offset (inode_number h));
    Ok (0, Fs (disk s) hs).

(** Loads the blocks of a file into [tmp_buf], up to the first absent one. *)
Fixpoint read_blocks (d : list Z) (blocks : list Z) (i : Z) (tmp_buf : list Z) : res (list Z) :=
  match blocks with
  | [] => Ok tmp_buf
  | idx :: bs =>
      if idx <? 0 then Ok tmp_buf
      else
        b ← ssufs_readDataBlock d idx;
        tmp_buf ← buf_store tmp_buf (BLOCKSIZE * i) b;
        read_blocks d bs (i + 1) tmp_buf
  end.

(** The result and the bytes stored at [buf] (none when -1 is returned). *)
Definition ssufs_read (s : fs) (file_handle nbytes : Z) : res (Z * list Z * fs) :=
  h ← aget (file_handle_array s) file_handle;
  if inode_number h <? 0 then Ok (-1, [], s)
  else
    let tmp_buf := replicate (Z.to_nat BLOCKSIZE * MAX_FILE_SIZE) 0 in
    inode ← ssufs_readInode (disk s) (inode_number h);
    e ← c_int (nbytes + offset h);
    if file_size inode <? e then Ok (-1, [], s)
    else
      tmp_buf ← read_blocks (disk s) (direct_blocks inode) 0 tmp_buf;
      buf ← buf_load tmp_buf (offset h) nbytes;
      '(_, s) ← ssufs_lseek s file_handle nbytes;
      Ok (0, buf, s).

(** The first loop of [ssufs_write]: gives the file the blocks it needs and
    loads all of them.  [inl d] is the early return when no block is left. *)
Fixpoint fill_blocks (d : list Z) (blocks : list Z) (i num_blocks : Z) (tmp_buf : list Z)
    : res (list Z + list Z * list Z * list Z) :=
  match blocks with
  | [] => Ok (inr (d, [], tmp_buf))
  | idx :: bs =>
      if idx <? 0 then
        if i <? num_blocks then
          '(idx, d) ← ssufs_allocDataBlock d;
          if idx <? 0 then Ok (inl d)
          else
            d ← ssufs_writeDataBlock d idx (drop (Z.to_nat (BLOCKSIZE * i)) tmp_buf);
            b ← ssufs_readDataBlock d idx;
            tmp_buf ← buf_store tmp_buf (BLOCKSIZE * i) b;
            r ← fill_blocks d bs (i + 1) num_blocks tmp_buf;
            match r with
            | inl d => Ok (inl d)
            | inr (d, bs, tmp_buf) => Ok (inr (d, idx :: bs, tmp_buf))
            end
        else Ok (inr (d, idx :: bs, tmp_buf))
      else
        b ← ssufs_readDataBlock d idx;
        tmp_buf ← buf_store tmp_buf (BLOCKSIZE * i) b;
        r ← fill_blocks d bs (i + 1) num_blocks tmp_buf;
        match r with
        | inl d => Ok (inl d)
        | inr (d, bs, tmp_buf) => Ok (inr (d, idx :: bs, tmp_buf))
        end
  end.

(** The second loop: writes the blocks back. *)
Fixpoint flush_blocks (d : list Z) (blocks : list Z) (i : Z) (tmp_buf : list Z) : res (list Z) :=
  match blocks with
  | [] => Ok d
  | idx :: bs =>
      if idx <? 0 then Ok d
      else
        d ← ssufs_writeDataBlock d idx (drop (Z.to_nat (BLOCKSIZE * i)) tmp_buf);
        flush_blocks d bs (i + 1) tmp_buf
  end.

Definition ssufs_write (s : fs) (file_handle : Z) (buf : list Z) (nbytes : Z) : res (Z * fs) :=
  h ← aget (file_handle_array s) file_handle;
  if inode_number h <? 0 then Ok (-1, s)
  else
    e ← c_int (offset h + nbytes);
    if e >? BLOCKSIZE * Z.of_nat MAX_FILE_SIZE then Ok (-1, s)
    else
      let tmp_buf := replicate (Z.to_nat BLOCKSIZE * MAX_FILE_SIZE) 0 in
      inode ← ssufs_readInode (disk s) (inode_number h);
      e1 ← c_int (e - 1);
      let num_blocks := Z.quot e1 BLOCKSIZE + 1 in
      r ← fill_blocks (disk s) (direct_blocks inode) 0 num_blocks tmp_buf;
      match r with
      | inl d => Ok (-1, Fs d (file_handle_array s))
      | inr (d, blocks, tmp_buf) =>
          src ← buf_load buf 0 nbytes;
          tmp_buf ← buf_store tmp_buf (offset h) src;
          d ← flush_blocks d blocks 0 tmp_buf;
          let fsize := if file_size inode <? e then e else file_size inode in
          d ← ssufs_writeInode d (inode_number h)
                (Inode (status inode) (name inode) fsize blocks);
          '(_, s) ← ssufs_lseek (Fs d (file_handle_array s)) file_handle nbytes;
          Ok (0, s)
      end.

End ops.
