(* ===== verification/SsufsInv.v ===== *)
(** The invariant of the SSU file system, its abstract view (named files with
    their contents, handles with their offsets), and the loops of
    SsufsDisk.v and SsufsOps.v on a disk in the invariant. *)

From S2P Require Import Prelude Bytes SsufsDisk SsufsRep SsufsOps.

(** ** Abstract view *)

(** The blocks of a file: its direct blocks up to the first absent one. *)
Fixpoint present (l : list Z) : list nat :=
  match l with
  | [] => []
  | b :: l' => if b <? 0 then [] else Z.to_nat b :: present l'
  end.

Definition blocks_of (n : inode_t) : list nat := present (direct_blocks n).

(** The bytes before the NUL. *)
Fixpoint cstr (m : list Z) : list Z :=
  match m with
  | [] => []
  | c :: m' => if c =? 0 then [] else c :: cstr m'
  end.

Definition file_bytes (blk : gmap nat (list Z)) (n : inode_t) : list Z :=
  mjoin ((fun b => default [] (blk !! b)) <$> blocks_of n).

Definition content (blk : gmap nat (list Z)) (n : inode_t) : list Z :=
  take (Z.to_nat (file_size n)) (file_bytes blk n).

Definition view_inode (blk : gmap nat (list Z)) (n : inode_t) : option (list Z * list Z) :=
  if status n =? INODE_IN_USE then Some (cstr (name n), content blk n) else None.

(** The files by inode number: name and contents. *)
Definition view (a : adisk) : list (option (list Z * list Z)) :=
  view_inode (a_blk a) <$> a_ino a.

(** The number of data blocks marked free. *)
Definition free_count (a : adisk) : nat :=
  length (filter (fun c => c = DATA_BLOCK_FREE) (datablock_freelist (a_sb a))).

(** ** Invariant *)

Record inode_wf (a : adisk) (i : nat) (n : inode_t) : Prop := {
  iw_listed : inode_freelist (a_sb a) !! i = Some (status n);
  iw_status : status n = INODE_FREE /\ blocks_of n = [] \/
              status n = INODE_IN_USE /\ 0 ∈ name n;
  iw_shape : direct_blocks n =
    (Z.of_nat <$> blocks_of n) ++ replicate (4 - length (blocks_of n)) (-1);
  iw_size : 0 <= file_size n <= 64 * Z.of_nat (length (blocks_of n));
  iw_blocks : forall b, b ∈ blocks_of n ->
    datablock_freelist (a_sb a) !! b = Some DATA_BLOCK_USED /\ is_Some (a_blk a !! b);
  iw_nodup : NoDup (blocks_of n)
}.

Record wf (a : adisk) : Prop := {
  wf_inode : forall i n, a_ino a !! i = Some n -> inode_wf a i n;
  wf_disjoint : forall i j n m, i <> j -> a_ino a !! i = Some n -> a_ino a !! j = Some m ->
    blocks_of n ## blocks_of m;
  wf_names : forall i j n m, a_ino a !! i = Some n -> a_ino a !! j = Some m ->
    status n = INODE_IN_USE -> status m = INODE_IN_USE -> cstr (name n) = cstr (name m) -> i = j
}.

(** ** Lists *)

Lemma present_map l k : present ((Z.of_nat <$> l) ++ replicate k (-1)) = l.
Proof.
  induction l as [|b l IH]; cbn.
  - by destruct k.
  - rewrite (proj2 (Z.ltb_ge _ _)) by lia. f_equal; [lia|done].
Qed.

Lemma cstr_split m : 0 ∈ m -> exists r, m = cstr m ++ 0 :: r /\ 0 ∉ cstr m.
Proof.
  induction m as [|c m IH]; intros Hm; [set_solver|]. cbn.
  destruct (Z.eqb_spec c 0) as [->|Hc].
  - exists m. split; [done|set_solver].
  - destruct IH as (r & E & Hn); [set_solver|]. exists r. split; [by rewrite <- app_comm_cons, <- E|set_solver].
Qed.

Lemma cstr_app s r : 0 ∉ s -> cstr (s ++ 0 :: r) = s.
Proof.
  induction s as [|c s IH]; intros Hn; [done|]. cbn.
  rewrite (proj2 (Z.eqb_neq _ _)) by set_solver. rewrite IH by set_solver. done.
Qed.

(** The [j]-th block of a buffer. *)
Definition slice (buf : list Z) (j : nat) : list Z := take 64 (drop (64 * j) buf).

Lemma mjoin_slices buf i k :
  (64 * (i + k) <= length buf)%nat ->
  mjoin (slice buf <$> seq i k) = take (64 * k) (drop (64 * i) buf).
Proof.
  revert i. induction k as [|k IH]; intros i Hl.
  - by rewrite Nat.mul_0_r.
  - change (mjoin (slice buf <$> seq i (S k))) with (slice buf i ++ mjoin (slice buf <$> seq (S i) k)).
    rewrite IH by lia. unfold slice. replace (64 * S i)%nat with (64 * i + 64)%nat by lia.
    rewrite <- drop_drop. replace (64 * S k)%nat with (64 + 64 * k)%nat by lia.
    set (x := drop (64 * i) buf). rewrite <- (take_drop 64 x) at 3.
    rewrite take_app_ge by (rewrite length_take; lia). f_equal.
    assert (64 <= length x)%nat by (subst x; rewrite length_drop; lia).
    rewrite length_take. f_equal. lia.
Qed.

(** Storing a block back where it came from changes nothing. *)
Lemma store_slice buf i :
  (64 * (i + 1) <= length buf)%nat ->
  take (64 * i) buf ++ slice buf i ++ drop (64 * i + length (slice buf i)) buf = buf.
Proof.
  intros Hl. unfold slice. rewrite length_take, length_drop.
  replace (64 * i + _)%nat with (64 + 64 * i)%nat by lia.
  rewrite <- (Nat.add_comm (64 * i)), <- (drop_drop _ 64).
  rewrite take_drop, take_drop. done.
Qed.

(** ** The handle table *)

Inductive hfound (hs : list filehandle_t) (k : Z) : Z -> Prop :=
| hfound_at j h : hs !! j = Some h -> inode_number h = k ->
    (forall j' h', (j' < j)%nat -> hs !! j' = Some h' -> inode_number h' <> k) ->
    hfound hs k (Z.of_nat j)
| hfound_none : (forall j h, hs !! j = Some h -> inode_number h <> k) -> hfound hs k (-1).

Lemma handle_index_from hs k n i :
  length hs = (i + n)%nat ->
  (forall j h, (j < i)%nat -> hs !! j = Some h -> inode_number h <> k) ->
  exists r, handle_index hs k n (Z.of_nat i) = Ok r /\ hfound hs k r.
Proof.
  revert i. induction n as [|n IH]; intros i Hl Hlt; cbn [handle_index].
  - eexists. split; [done|]. constructor. intros j h Hj.
    apply (Hlt j); [|done]. apply lookup_lt_Some in Hj. lia.
  - destruct (lookup_lt_is_Some_2 hs i) as [h Hh]; [lia|].
    rewrite (aget_nat _ _ _ Hh). run. destruct (Z.eqb_spec (inode_number h) k) as [E|Hne].
    + eexists. split; [done|]. by econstructor.
    + replace (Z.of_nat i + 1) with (Z.of_nat (S i)) by lia. apply IH; [lia|].
      intros j h' Hj Hh'. destruct (decide (j = i)) as [->|]; [congruence|eapply Hlt; [|done]; lia].
Qed.

Lemma handle_index_spec hs k n :
  length hs = n -> exists r, handle_index hs k n 0 = Ok r /\ hfound hs k r.
Proof. intros Hl. apply (handle_index_from hs k n 0); [lia|intros; lia]. Qed.
