(* ===== verification/SsufsLoops.v ===== *)
(** The loops of the SSU file system on a disk in the invariant: name lookup,
    loading and writing back the blocks of a file, allocating the missing ones
    and freeing them. *)

From S2P Require Import Prelude Bytes SsufsDisk SsufsRep SsufsOps SsufsInv.

Section loops.
Context `{Garbage}.

(** ** Name lookup *)

(** What [open_namei] returns for the name [nm]. *)
Inductive named (a : adisk) (nm : list Z) : Z -> Prop :=
| named_at i n : a_ino a !! i = Some n -> status n = INODE_IN_USE -> cstr (name n) = nm ->
    named a nm (Z.of_nat i)
| named_none : (forall i n, a_ino a !! i = Some n -> status n = INODE_IN_USE -> cstr (name n) <> nm) ->
    named a nm (-1).

Lemma namei_loop_spec d a nm rest n i :
  rep d a -> wf a -> 0 ∉ nm -> (i + n = 8)%nat ->
  (forall j m, (j < i)%nat -> a_ino a !! j = Some m -> status m = INODE_IN_USE -> cstr (name m) <> nm) ->
  exists r, namei_loop d (a_sb a) (nm ++ 0 :: rest) n (Z.of_nat i) = Ok r /\ named a nm r.
Proof.
  intros R W Hnm. pose proof (rep_len _ _ R) as Hlen. unfold NUM_INODES in Hlen.
  revert i. induction n as [|n IH]; intros i Hi Hlt; cbn [namei_loop].
  - eexists. split; [done|]. constructor. intros j m Hj. apply (Hlt j); [|done].
    apply lookup_lt_Some in Hj. lia.
  - destruct (lookup_lt_is_Some_2 (a_ino a) i) as [m Hm]; [lia|].
    pose proof (wf_inode _ W i m Hm) as Wm.
    rewrite (aget_nat _ _ _ (iw_listed _ _ _ Wm)). run.
    assert (Hnext : status m = INODE_IN_USE /\ cstr (name m) = nm \/
                    (status m = INODE_IN_USE -> cstr (name m) <> nm)).
    { destruct (decide (status m = INODE_IN_USE)), (decide (cstr (name m) = nm)); naive_solver. }
    assert (Hrec : (status m = INODE_IN_USE -> cstr (name m) <> nm) ->
      exists r, namei_loop d (a_sb a) (nm ++ 0 :: rest) n (Z.of_nat i + 1) = Ok r /\ named a nm r).
    { intros Hd. replace (Z.of_nat i + 1) with (Z.of_nat (S i)) by lia. apply IH; [lia|].
      intros j m' Hj Hm'. destruct (decide (j = i)) as [->|]; [naive_solver|apply (Hlt j); [lia|done]]. }
    destruct (Z.eqb_spec (status m) INODE_IN_USE) as [Hst|Hst]; [|apply Hrec; naive_solver].
    rewrite (readInode_rep _ _ _ _ R Hm). run. rewrite enc_inode_name.
    destruct (iw_status _ _ _ Wm) as [[E _]|[_ H0]]; [rewrite E in Hst; discriminate|].
    destruct (cstr_split _ H0) as (r & En & Hn0).
    remember (cstr (name m)) as c eqn:Ec. rewrite En, <- app_assoc. cbn [app].
    rewrite strcmp_cstr by done. run.
    destruct Hnext as [[_ Hc]|Hc].
    + rewrite bool_decide_eq_true_2 by done. eexists. split; [done|]. apply (named_at _ _ i m); congruence.
    + rewrite bool_decide_eq_false_2 by auto. by apply Hrec.
Qed.

Lemma open_namei_spec d a nm rest :
  rep d a -> wf a -> 0 ∉ nm -> (length nm <= 8)%nat ->
  exists r, open_namei d (nm ++ 0 :: rest) = Ok r /\ named a nm r.
Proof.
  intros R W Hnm Hl. unfold open_namei. rewrite strlen_cstr by done. run.
  destruct (Z.gtb_spec (Z.of_nat (length nm)) (Z.of_nat MAX_NAME_STRLEN)) as [Hgt|_];
    [unfold MAX_NAME_STRLEN in Hgt; lia|].
  rewrite (readSuperBlock_rep _ _ R). run.
  apply (namei_loop_spec d a nm rest 8 0 R W Hnm); [lia|intros; lia].
Qed.

(** ** Loading and writing back blocks *)

Definition loaded (a : adisk) (bl : list nat) : list Z :=
  mjoin ((fun b => default [] (a_blk a !! b)) <$> bl).

Definition all_present (a : adisk) (bl : list nat) : Prop := forall b, b ∈ bl -> is_Some (a_blk a !! b).

Lemma length_loaded d a bl : rep d a -> all_present a bl -> length (loaded a bl) = (64 * length bl)%nat.
Proof.
  intros R Hb. unfold loaded. rewrite (length_mjoin_uniform 64), length_fmap; [done|].
  apply Forall_fmap, Forall_forall. intros b [bs Hbs]%Hb. cbn. rewrite Hbs.
  by destruct (rep_blk _ _ R b bs Hbs) as (_&?&_).
Qed.

(** One step of a loading loop. *)
Lemma load_step d a b bs i tmp :
  rep d a -> a_blk a !! b = Some bs -> (64 * (i + 1) <= length tmp)%nat ->
  ssufs_readDataBlock d (Z.of_nat b) = Ok bs /\
  buf_store tmp (BLOCKSIZE * Z.of_nat i) bs = Ok (take (64 * i) tmp ++ bs ++ drop (64 * (i + 1)) tmp).
Proof.
  intros R Hb Hl. split; [by eapply readDataBlock_rep|].
  destruct (rep_blk _ _ R b bs Hb) as (_&Hlb&_).
  replace (BLOCKSIZE * Z.of_nat i) with (Z.of_nat (64 * i)) by (unfold BLOCKSIZE; lia).
  rewrite buf_store_Ok, Hlb, Nat2Z.id by lia. do 3 f_equal. f_equal. lia.
Qed.

Lemma load_step_shape (tmp bs : list Z) i k l :
  length bs = 64%nat -> (64 * (i + 1 + k) <= length tmp)%nat -> length l = (64 * k)%nat ->
  let tmp' := take (64 * i) tmp ++ bs ++ drop (64 * (i + 1)) tmp in
  length tmp' = length tmp /\
  take (64 * (i + 1)) tmp' ++ l ++ drop (64 * (i + 1 + k)) tmp' =
  take (64 * i) tmp ++ (bs ++ l) ++ drop (64 * (i + 1 + k)) tmp.
Proof.
  intros Hb Hl Hll tmp'.
  assert (E : tmp' = (take (64 * i) tmp ++ bs) ++ drop (64 * (i + 1)) tmp) by (subst tmp'; by rewrite app_assoc).
  assert (Hp : length (take (64 * i) tmp ++ bs) = (64 * (i + 1))%nat)
    by (rewrite length_app, length_take; lia).
  split.
  - rewrite E, length_app, Hp, length_drop. lia.
  - rewrite E. rewrite take_app_length' by done.
    rewrite drop_app_ge by lia. rewrite Hp, drop_drop.
    rewrite <- !app_assoc. do 4 f_equal. lia.
Qed.

Lemma read_blocks_spec d a bl k i tmp :
  rep d a -> all_present a bl -> (64 * (i + length bl) <= length tmp)%nat ->
  read_blocks d ((Z.of_nat <$> bl) ++ replicate k (-1)) (Z.of_nat i) tmp =
  Ok (take (64 * i) tmp ++ loaded a bl ++ drop (64 * (i + length bl)) tmp).
Proof.
  intros R. revert i tmp. induction bl as [|b bl IH]; intros i tmp Hb Hl.
  - cbn [fmap list_fmap app length]. rewrite Nat.add_0_r. cbn [loaded].
    change (loaded a []) with (@nil Z). cbn [app]. rewrite take_drop. by destruct k.
  - destruct (Hb b) as [bs Hbs]; [set_solver|]. cbn [length] in *.
    cbn [fmap list_fmap app read_blocks]. rewrite (proj2 (Z.ltb_ge _ _)) by lia.
    destruct (load_step d a b bs i tmp R Hbs) as [-> E]; [lia|]. run. rewrite E. run.
    destruct (rep_blk _ _ R b bs Hbs) as (_&Hlb&_).
    assert (Hbl : all_present a bl) by (intros x Hx; apply Hb; set_solver).
    destruct (load_step_shape tmp bs i (length bl) (loaded a bl)) as [Hlen Hsh];
      [done|lia|by eapply length_loaded|].
    replace (Z.of_nat i + 1) with (Z.of_nat (i + 1)) by lia.
    change (list_fmap nat Z Z.of_nat bl) with (Z.of_nat <$> bl).
    rewrite IH by (done || (rewrite Hlen; lia)). rewrite Hsh.
    replace (i + S (length bl))%nat with (i + 1 + length bl)%nat by lia.
    unfold loaded at 2. cbn [fmap list_fmap]. rewrite Hbs. done.
Qed.

(** Writing back: block [j] of [bl] gets slice [i + j] of the buffer. *)
Definition flushed (blk : gmap nat (list Z)) (bl : list nat) (i : nat) (tmp : list Z) (blk' : gmap nat (list Z)) : Prop :=
  (forall j b, bl !! j = Some b -> blk' !! b = Some (slice tmp (i + j))) /\
  (forall b, b ∉ bl -> blk' !! b = blk !! b).

Lemma flush_blocks_spec d a bl k i tmp :
  rep d a -> NoDup bl -> (forall b, b ∈ bl -> (b < NUM_DATA_BLOCKS)%nat) ->
  (64 * (i + length bl) <= length tmp)%nat ->
  exists d' blk', flush_blocks d ((Z.of_nat <$> bl) ++ replicate k (-1)) (Z.of_nat i) tmp = Ok d' /\
    rep d' (ADisk (a_sb a) (a_ino a) blk') /\ flushed (a_blk a) bl i tmp blk'.
Proof.
  intros R Hnd. revert d a i R. induction Hnd as [|b bl Hnb Hnd IH]; intros d a i R Hlt Hl.
  - exists d, (a_blk a). split; [by destruct k|]. split; [by destruct a|]. split; [done|done].
  - cbn [length] in *. cbn [fmap list_fmap app flush_blocks]. rewrite (proj2 (Z.ltb_ge _ _)) by lia.
    replace (Z.to_nat (BLOCKSIZE * Z.of_nat i)) with (64 * i)%nat by (unfold BLOCKSIZE; lia).
    destruct (writeDataBlock_rep d a b (drop (64 * i) tmp) R) as (d1 & -> & R1);
      [apply Hlt; set_solver|rewrite length_drop; lia|]. run.
    replace (Z.of_nat i + 1) with (Z.of_nat (i + 1)) by lia.
    destruct (IH d1 _ (i + 1)%nat R1) as (d' & blk' & E & R' & [F1 F2]); [set_solver|lia|].
    exists d', blk'. split; [exact E|]. split; [exact R'|]. cbn [set_blk a_blk] in F1, F2. split.
    + intros [|j] c Hc; cbn in Hc.
      * injection Hc as <-. rewrite F2 by done. rewrite lookup_insert_eq, Nat.add_0_r. done.
      * rewrite (F1 j c Hc). do 2 f_equal. lia.
    + intros c Hc. rewrite F2 by set_solver. apply lookup_insert_ne. set_solver.
Qed.

(** ** Allocating blocks *)

Lemma filter_insert_out (P : Z -> Prop) `{forall x, Decision (P x)} (l : list Z) i x y :
  l !! i = Some x -> P x -> ~ P y ->
  length (filter P l) = S (length (filter P (<[i := y]> l))).
Proof.
  revert i. induction l as [|z l IH]; intros [|i] Hi Hx Hy; try discriminate.
  - injection Hi as ->. cbn [insert list_insert].
    rewrite filter_cons_True, filter_cons_False by done. done.
  - cbn in Hi. cbn [insert list_insert].
    destruct (decide (P z)).
    + rewrite !filter_cons_True by done. cbn. f_equal. by apply IH.
    + rewrite !filter_cons_False by done. by apply IH.
Qed.

(** [a'] is [a] with the free blocks [new] taken. *)
Record extends (a a' : adisk) (new : list nat) : Prop := {
  ex_ino : a_ino a' = a_ino a;
  ex_name : sb_name (a_sb a') = sb_name (a_sb a);
  ex_ifl : inode_freelist (a_sb a') = inode_freelist (a_sb a);
  ex_nodup : NoDup new;
  ex_new : forall b, b ∈ new ->
    datablock_freelist (a_sb a) !! b = Some DATA_BLOCK_FREE /\
    datablock_freelist (a_sb a') !! b = Some DATA_BLOCK_USED /\ is_Some (a_blk a' !! b);
  ex_old : forall b, b ∉ new ->
    datablock_freelist (a_sb a') !! b = datablock_freelist (a_sb a) !! b /\
    a_blk a' !! b = a_blk a !! b;
  ex_free : free_count a = (length new + free_count a')%nat
}.

Lemma extends_refl a : extends a a [].
Proof. split; try done; [constructor|set_solver]. Qed.

Lemma extends_cons a b bs a' new :
  datablock_freelist (a_sb a) !! b = Some DATA_BLOCK_FREE ->
  extends (set_blk b bs (set_sb (set_dfl (<[b := DATA_BLOCK_USED]> (datablock_freelist (a_sb a))) (a_sb a)) a))
    a' new ->
  extends a a' (b :: new).
Proof.
  intros Hb [E1 E2 E3 E4 E5 E6 E7]. cbn in E1, E2, E3, E5, E6.
  pose proof (lookup_lt_Some _ _ _ Hb) as Hlt.
  assert (Hnb : b ∉ new).
  { intros Hin. destruct (E5 b Hin) as [Hf _].
    rewrite list_lookup_insert_eq in Hf by done. discriminate. }
  split; try done.
  - by constructor.
  - intros c Hc. apply elem_of_cons in Hc as [->|Hc].
    + destruct (E6 b Hnb) as [-> ->].
      rewrite list_lookup_insert_eq, lookup_insert_eq by done. eauto.
    + destruct (E5 c Hc) as (Hf & ? & ?). split_and!; [|done..].
      rewrite list_lookup_insert_ne in Hf by congruence. done.
  - intros c Hc. apply not_elem_of_cons in Hc as [Hne Hc]. destruct (E6 c Hc) as [-> ->].
    by rewrite list_lookup_insert_ne, lookup_insert_ne.
  - cbn [length]. unfold free_count in *. cbn in E7.
    rewrite (filter_insert_out _ _ b _ DATA_BLOCK_USED Hb), E7; done.
Qed.

(** The outcome of the loop of [ssufs_write] over [k] absent blocks from index
    [i] on, when the file must have [num] blocks. *)
Definition fill_outcome (k : nat) (need : Z) (pre : list nat) (tmp : list Z) (d' : list Z) (a' : adisk)
    (new : list nat) (r : list Z + list Z * list Z * list Z) : Prop :=
  (r = inl d' /\ free_count a' = 0%nat /\ Z.of_nat (length new) < Z.min (Z.of_nat k) (Z.max 0 need)) \/
  (r = inr (d', (Z.of_nat <$> (pre ++ new)) ++ replicate (k - length new) (-1), tmp) /\
   Z.of_nat (length new) = Z.min (Z.of_nat k) (Z.max 0 need)).

Lemma no_free_count a : DATA_BLOCK_FREE ∉ datablock_freelist (a_sb a) -> free_count a = 0%nat.
Proof.
  intros Hn. unfold free_count. apply length_zero_iff_nil.
  induction (datablock_freelist (a_sb a)) as [|c l IH]; [done|].
  rewrite filter_cons_False by set_solver. apply IH. set_solver.
Qed.

Lemma fill_alloc_spec d a k i num tmp :
  rep d a -> (64 * (i + k) <= length tmp)%nat ->
  exists d' a' new r, fill_blocks d (replicate k (-1)) (Z.of_nat i) num tmp = Ok r /\
    rep d' a' /\ extends a a' new /\ fill_outcome k (num - Z.of_nat i) [] tmp d' a' new r.
Proof.
  revert d a i. induction k as [|k IH]; intros d a i R Hl.
  - exists d, a, []. eexists. split_and!; [done|done|apply extends_refl|]. right. split; [done|cbn; lia].
  - cbn [replicate fill_blocks]. cbn [Z.ltb Z.compare].
    destruct (Z.ltb_spec (Z.of_nat i) num) as [Hi|Hi].
    2:{ exists d, a, []. eexists. split_and!; [done|done|apply extends_refl|]. right. split; [done|cbn; lia]. }
    destruct (allocDataBlock_rep d a R) as (r & d1 & -> & Hf & R1). run.
    destruct Hf as [b Hb _|Hnone].
    2:{ exists d1, a, []. eexists. split_and!; [done|done|apply extends_refl|]. left.
        split_and!; [done|by apply no_free_count|cbn; lia]. }
    rewrite (proj2 (Z.ltb_ge _ _)) in * by lia. rewrite Nat2Z.id in R1.
    assert (Hb30 : (b < NUM_DATA_BLOCKS)%nat).
    { apply lookup_lt_Some in Hb. destruct (rep_sb _ _ R) as [(_&_&E) _]. unfold NUM_DATA_BLOCKS. lia. }
    replace (Z.to_nat (BLOCKSIZE * Z.of_nat i)) with (64 * i)%nat by (unfold BLOCKSIZE; lia).
    destruct (writeDataBlock_rep d1 _ b (drop (64 * i) tmp) R1 Hb30) as (d2 & -> & R2);
      [rewrite length_drop; lia|]. run. change (take 64 (drop (64 * i) tmp)) with (slice tmp i) in R2.
    destruct (load_step d2 _ b (slice tmp i) i tmp R2) as [-> E]; [by apply lookup_insert_eq|lia|].
    run. rewrite E. run.
    assert (Hs : length (slice tmp i) = 64%nat) by (unfold slice; rewrite length_take, length_drop; lia).
    replace (64 * (i + 1))%nat with (64 * i + length (slice tmp i))%nat by lia.
    rewrite store_slice by lia. replace (Z.of_nat i + 1) with (Z.of_nat (i + 1)) by lia.
    destruct (IH d2 _ (i + 1)%nat R2) as (d' & a' & new & r & -> & R' & Hx & Ho); [lia|]. run.
    exists d', a', (b :: new). apply extends_cons in Hx; [|done].
    destruct Ho as [(-> & ? & ?)|(-> & Hn)]; eexists; (split_and!; [done|done|done|]).
    + left. split_and!; [done|done|cbn; lia].
    + right. cbn [length]. split; [done|lia].
Qed.

Lemma fill_blocks_spec d a bl k i num tmp :
  rep d a -> all_present a bl -> (64 * (i + length bl + k) <= length tmp)%nat ->
  exists d' a' new r,
    fill_blocks d ((Z.of_nat <$> bl) ++ replicate k (-1)) (Z.of_nat i) num tmp = Ok r /\
    rep d' a' /\ extends a a' new /\
    fill_outcome k (num - Z.of_nat (i + length bl)) bl
      (take (64 * i) tmp ++ loaded a bl ++ drop (64 * (i + length bl)) tmp) d' a' new r.
Proof.
  intros R. revert i tmp. induction bl as [|b bl IH]; intros i tmp Hb Hl.
  - cbn [fmap list_fmap app length]. rewrite Nat.add_0_r. change (loaded a []) with (@nil Z). cbn [app].
    rewrite take_drop. apply fill_alloc_spec; [done|cbn in Hl; lia].
  - destruct (Hb b) as [bs Hbs]; [set_solver|]. cbn [length] in *.
    cbn [fmap list_fmap app fill_blocks]. rewrite (proj2 (Z.ltb_ge _ _)) by lia.
    destruct (load_step d a b bs i tmp R Hbs) as [-> E]; [lia|]. run. rewrite E. run.
    destruct (rep_blk _ _ R b bs Hbs) as (_&Hlb&_).
    assert (Hbl : all_present a bl) by (intros x Hx; apply Hb; set_solver).
    destruct (load_step_shape tmp bs i (length bl) (loaded a bl)) as [Hlen Hsh];
      [done|lia|by eapply length_loaded|].
    replace (Z.of_nat i + 1) with (Z.of_nat (i + 1)) by lia.
    destruct (IH (i + 1)%nat (take (64 * i) tmp ++ bs ++ drop (64 * (i + 1)) tmp) Hbl)
      as (d' & a' & new & r & E' & R' & Hx & Ho); [rewrite Hlen; lia|].
    change (list_fmap nat Z Z.of_nat bl) with (Z.of_nat <$> bl).
    rewrite E'. run. exists d', a', new. rewrite Hsh in Ho.
    replace (i + S (length bl))%nat with (i + 1 + length bl)%nat by lia.
    replace (loaded a (b :: bl)) with (bs ++ loaded a bl)
      by (unfold loaded; cbn [fmap list_fmap]; by rewrite Hbs).
    destruct Ho as [(-> & ? & ?)|(-> & Hn)]; eexists; (split_and!; [done|done|done|]); [by left|by right].
Qed.

(** ** Freeing the blocks of a file *)

Definition free_marks (fl : list Z) (bl : list nat) : list Z :=
  foldl (fun fl b => <[b := DATA_BLOCK_FREE]> fl) fl bl.

Lemma free_blocks_spec d a s bl k :
  rep d a -> sb_ok s -> NoDup bl ->
  (forall b, b ∈ bl -> datablock_freelist s !! b = Some DATA_BLOCK_USED) ->
  exists d' s0, free_blocks ((Z.of_nat <$> bl) ++ replicate k (-1)) d s =
      Ok (d', set_dfl (free_marks (datablock_freelist s) bl) s) /\ rep d' (set_sb s0 a).
Proof.
  intros R Hs Hnd. revert d a s R Hs. induction Hnd as [|b bl Hnb Hnd IH]; intros d a s R Hs Hu.
  - exists d, (a_sb a). split; [|by destruct a].
    cbn [fmap list_fmap app]. destruct s. induction k; [done|exact IHk].
  - cbn [fmap list_fmap app free_blocks]. rewrite (proj2 (Z.eqb_neq _ _)) by lia. cbn [negb].
    destruct (writeSuperBlock_rep d a s R Hs) as (d1 & -> & R1). run.
    destruct (freeDataBlock_rep d1 _ b R1) as (d2 & -> & R2); [apply Hu; set_solver|]. run.
    rewrite (readSuperBlock_rep _ _ R2). run. cbn [set_sb a_sb] in *.
    destruct (IH d2 _ (set_dfl (<[b:=DATA_BLOCK_FREE]> (datablock_freelist s)) s) R2)
      as (d' & s0 & E & R'); [by apply sb_ok_dfl| |].
    { intros c Hc. cbn. rewrite list_lookup_insert_ne by set_solver. apply Hu. set_solver. }
    exists d', s0. split; [exact E|exact R'].
Qed.

Lemma free_marks_notin fl bl b : b ∉ bl -> free_marks fl bl !! b = fl !! b.
Proof.
  revert fl. induction bl as [|c bl IH]; intros fl Hb; [done|]. cbn.
  change (free_marks (<[c:=DATA_BLOCK_FREE]> fl) bl !! b = fl !! b).
  rewrite IH by set_solver. apply list_lookup_insert_ne. set_solver.
Qed.

Lemma length_free_marks fl bl : length (free_marks fl bl) = length fl.
Proof.
  revert fl. induction bl as [|c bl IH]; intros fl; [done|]. cbn.
  change (length (free_marks (<[c:=DATA_BLOCK_FREE]> fl) bl) = length fl). by rewrite IH, length_insert.
Qed.

Lemma free_marks_count fl bl :
  NoDup bl -> (forall b, b ∈ bl -> fl !! b = Some DATA_BLOCK_USED) ->
  length (filter (fun c => c = DATA_BLOCK_FREE) (free_marks fl bl)) =
  (length (filter (fun c => c = DATA_BLOCK_FREE) fl) + length bl)%nat.
Proof.
  intros Hnd. revert fl. induction Hnd as [|b bl Hnb Hnd IH]; intros fl Hu; [cbn; lia|].
  change (free_marks fl (b :: bl)) with (free_marks (<[b:=DATA_BLOCK_FREE]> fl) bl).
  pose proof (Hu b ltac:(set_solver)) as Hb. pose proof (lookup_lt_Some _ _ _ Hb).
  rewrite IH.
  - rewrite (filter_insert_out _ (<[b:=DATA_BLOCK_FREE]> fl) b DATA_BLOCK_FREE DATA_BLOCK_USED);
      [|by apply list_lookup_insert_eq|done|done].
    rewrite list_insert_insert_eq, list_insert_id by done. cbn [length]. lia.
  - intros c Hc. rewrite list_lookup_insert_ne by set_solver. apply Hu. set_solver.
Qed.

End loops.
