(* ===== verification/SsufsRefine.v ===== *)
(** The contract of the SSU file system: an abstract file system (named files
    with contents, handles with offsets) and the proof that every operation of
    ssufs-ops.c implements its abstract counterpart. *)

From S2P Require Import Prelude Bytes SsufsDisk SsufsRep SsufsOps SsufsInv SsufsLoops.

(** ** Abstract file system *)

Record afs := AFs {
  files : list (option (list Z * list Z));   (** by inode: name and contents *)
  handles : list (option (nat * Z));         (** by handle: inode and offset *)
  afree : nat                                (** data blocks left *)
}.

(** Names the file system can represent: at most 7 bytes before the NUL, in an
    argument of at least 8 readable bytes. *)
Definition valid_name (nm rest : list Z) : Prop :=
  (0 ∉ nm) /\ (length nm <= 7)%nat /\ (8 <= length (nm ++ 0%Z :: rest))%nat.

Definition has_file (A : afs) (nm : list Z) (i : nat) : Prop :=
  exists c, files A !! i = Some (Some (nm, c)).

Definition close_all (i : nat) (hs : list (option (nat * Z))) : list (option (nat * Z)) :=
  (fun h => match h with Some (j, o) => if decide (j = i) then None else h | None => None end) <$> hs.

(** The bytes [bs] written over [c] at offset [o]. *)
Definition overwrite (c : list Z) (o : nat) (bs : list Z) : list Z :=
  take o c ++ bs ++ drop (o + length bs) c.

(** Calls of the interface; a name comes with the memory behind its NUL, a
    write with its buffer. *)
Inductive op : Type :=
| Create (nm rest : list Z)
| Delete (nm rest : list Z)
| Open (nm rest : list Z)
| Close (h : Z)
| Read (h n : Z)
| Write (h : Z) (buf : list Z) (n : Z)
| Lseek (h k : Z).

(** When a call may be made. *)
Definition op_ok (A : afs) (o : op) : Prop :=
  match o with
  | Create nm rest | Open nm rest => valid_name nm rest
  | Delete nm rest => valid_name nm rest /\
      forall i j1 j2 o1 o2, has_file A nm i ->
        handles A !! j1 = Some (Some (i, o1)) -> handles A !! j2 = Some (Some (i, o2)) -> j1 = j2
  | Close h => 0 <= h < 20
  | Read h n => 0 <= h < 20 /\ 0 <= n < 2 ^ 30
  | Write h buf n => 0 <= h < 20 /\ 0 <= n < 2 ^ 30 /\ n <= Z.of_nat (length buf)
  | Lseek h k => 0 <= h < 20 /\ - 2 ^ 30 <= k < 2 ^ 30 /\ handles A !! Z.to_nat h <> Some None
  end.

(** The promised effect: result, bytes returned, new state. *)
Inductive op_spec (A : afs) : op -> Z -> list Z -> afs -> Prop :=
| create_exists nm rest i : has_file A nm i -> op_spec A (Create nm rest) (-1) [] A
| create_full nm rest : (forall i, ~ has_file A nm i) -> None ∉ files A ->
    op_spec A (Create nm rest) (-1) [] A
| create_new nm rest i : (forall j, ~ has_file A nm j) -> files A !! i = Some None ->
    (forall j, (j < i)%nat -> files A !! j <> Some None) ->
    op_spec A (Create nm rest) (Z.of_nat i) []
      (AFs (<[i := Some (nm, [])]> (files A)) (handles A) (afree A))
| delete_absent nm rest : (forall i, ~ has_file A nm i) -> op_spec A (Delete nm rest) 0 [] A
| delete_file nm rest i c f : files A !! i = Some (Some (nm, c)) ->
    64 * (Z.of_nat f - Z.of_nat (afree A)) >= Z.of_nat (length c) ->
    op_spec A (Delete nm rest) 0 []
      (AFs (<[i := None]> (files A)) (close_all i (handles A)) f)
| open_absent nm rest : (forall i, ~ has_file A nm i) -> op_spec A (Open nm rest) (-1) [] A
| open_full nm rest : None ∉ handles A -> op_spec A (Open nm rest) (-1) [] A
| open_file nm rest i h : has_file A nm i -> handles A !! h = Some None ->
    (forall j, (j < h)%nat -> handles A !! j <> Some None) ->
    op_spec A (Open nm rest) (Z.of_nat h) []
      (AFs (files A) (<[h := Some (i, 0)]> (handles A)) (afree A))
| close_handle h : op_spec A (Close h) 0 []
      (AFs (files A) (<[Z.to_nat h := None]> (handles A)) (afree A))
| read_closed h n : handles A !! Z.to_nat h = Some None -> op_spec A (Read h n) (-1) [] A
| read_short h n i o nm c : handles A !! Z.to_nat h = Some (Some (i, o)) ->
    files A !! i = Some (Some (nm, c)) -> o + n > Z.of_nat (length c) ->
    op_spec A (Read h n) (-1) [] A
| read_bytes h n i o nm c : handles A !! Z.to_nat h = Some (Some (i, o)) ->
    files A !! i = Some (Some (nm, c)) -> o + n <= Z.of_nat (length c) ->
    op_spec A (Read h n) 0 (take (Z.to_nat n) (drop (Z.to_nat o) c))
      (AFs (files A) (<[Z.to_nat h := Some (i, o + n)]> (handles A)) (afree A))
| write_closed h buf n : handles A !! Z.to_nat h = Some None -> op_spec A (Write h buf n) (-1) [] A
| write_large h buf n i o : handles A !! Z.to_nat h = Some (Some (i, o)) -> o + n > 256 ->
    op_spec A (Write h buf n) (-1) [] A
| write_nospace h buf n i o : handles A !! Z.to_nat h = Some (Some (i, o)) -> o + n <= 256 ->
    64 * Z.of_nat (afree A) < Z.max 1 (o + n) ->
    op_spec A (Write h buf n) (-1) [] (AFs (files A) (handles A) 0)
| write_bytes h buf n i o nm c f : handles A !! Z.to_nat h = Some (Some (i, o)) ->
    files A !! i = Some (Some (nm, c)) -> o + n <= 256 -> (f <= afree A <= f + 4)%nat ->
    op_spec A (Write h buf n) 0 []
      (AFs (<[i := Some (nm, overwrite c (Z.to_nat o) (take (Z.to_nat n) buf))]> (files A))
           (<[Z.to_nat h := Some (i, o + n)]> (handles A)) f)
| lseek_ok h k i o nm c : handles A !! Z.to_nat h = Some (Some (i, o)) ->
    files A !! i = Some (Some (nm, c)) -> 0 <= o + k <= Z.of_nat (length c) ->
    op_spec A (Lseek h k) 0 []
      (AFs (files A) (<[Z.to_nat h := Some (i, o + k)]> (handles A)) (afree A))
| lseek_range h k i o nm c : handles A !! Z.to_nat h = Some (Some (i, o)) ->
    files A !! i = Some (Some (nm, c)) -> ~ 0 <= o + k <= Z.of_nat (length c) ->
    op_spec A (Lseek h k) (-1) [] A.

(** ** Refinement relation *)

Definition view_handle (h : filehandle_t) : option (nat * Z) :=
  if inode_number h <? 0 then None else Some (Z.to_nat (inode_number h), offset h).

Record refines_at (s : fs) (A : afs) (a : adisk) : Prop := {
  rf_rep : rep (disk s) a;
  rf_wf : wf a;
  rf_files : files A = view a;
  rf_handles : handles A = view_handle <$> file_handle_array s;
  rf_free : afree A = free_count a;
  rf_nhandles : length (file_handle_array s) = MAX_OPEN_FILES;
  rf_closed : forall j h, file_handle_array s !! j = Some h ->
    inode_number h < 0 -> h = Filehandle 0 (-1);
  rf_open : forall j i o, handles A !! j = Some (Some (i, o)) ->
    exists nm c, files A !! i = Some (Some (nm, c)) /\ 0 <= o <= Z.of_nat (length c)
}.

Definition refines (s : fs) (A : afs) : Prop := exists a, refines_at s A a.

(** Running one call. *)
Definition run_op `{Garbage} (s : fs) (o : op) : res (Z * list Z * fs) :=
  match o with
  | Create nm rest => '(r, s) ← ssufs_create s (nm ++ 0 :: rest); Ok (r, [], s)
  | Delete nm rest => s ← ssufs_delete s (nm ++ 0 :: rest); Ok (0, [], s)
  | Open nm rest => '(r, s) ← ssufs_open s (nm ++ 0 :: rest); Ok (r, [], s)
  | Close h => s ← ssufs_close s h; Ok (0, [], s)
  | Read h n => ssufs_read s h n
  | Write h buf n => '(r, s) ← ssufs_write s h buf n; Ok (r, [], s)
  | Lseek h k => '(r, s) ← ssufs_lseek s h k; Ok (r, [], s)
  end.

(** ** Updating one inode *)

Lemma view_lookup a i : view a !! i = view_inode (a_blk a) <$> (a_ino a !! i).
Proof. apply list_lookup_fmap. Qed.

Lemma view_Some a i nm c :
  view a !! i = Some (Some (nm, c)) <->
  exists n, a_ino a !! i = Some n /\ status n = INODE_IN_USE /\ nm = cstr (name n) /\ c = content (a_blk a) n.
Proof.
  rewrite view_lookup. destruct (a_ino a !! i) as [n|]; cbn; [|naive_solver].
  unfold view_inode. destruct (Z.eqb_spec (status n) INODE_IN_USE); naive_solver.
Qed.

Lemma view_None a i n : wf a -> a_ino a !! i = Some n ->
  view a !! i = Some None <-> status n = INODE_FREE.
Proof.
  intros W Hi. rewrite view_lookup, Hi. cbn. unfold view_inode.
  destruct (iw_status _ _ _ (wf_inode _ W i n Hi)) as [[-> _]|[-> _]]; naive_solver.
Qed.

Lemma content_agree blk blk' n :
  (forall b, b ∈ blocks_of n -> blk' !! b = blk !! b) -> content blk' n = content blk n.
Proof.
  intros Hb. unfold content, file_bytes. f_equal. f_equal.
  apply list_fmap_ext. intros j b Hj. rewrite Hb; [done|]. by eapply list_elem_of_lookup_2.
Qed.

Lemma length_content d a i n :
  rep d a -> wf a -> a_ino a !! i = Some n -> Z.of_nat (length (content (a_blk a) n)) = file_size n.
Proof.
  intros R W Hi. pose proof (wf_inode _ W i n Hi) as Wn. pose proof (iw_size _ _ _ Wn).
  unfold content. rewrite length_take. change (file_bytes (a_blk a) n) with (loaded a (blocks_of n)).
  rewrite (length_loaded d) by (done || (intros b Hb; by apply (iw_blocks _ _ _ Wn))). lia.
Qed.

(** [a'] is [a] with inode [i] replaced by [n'], the other inodes keeping their
    list entries and their blocks. *)
Record updates (a a' : adisk) (i : nat) (n' : inode_t) : Prop := {
  up_ino : a_ino a' = <[i := n']> (a_ino a);
  up_ifl : forall j, j <> i -> inode_freelist (a_sb a') !! j = inode_freelist (a_sb a) !! j;
  up_blocks : forall j m b, j <> i -> a_ino a !! j = Some m -> b ∈ blocks_of m ->
    datablock_freelist (a_sb a') !! b = datablock_freelist (a_sb a) !! b /\ a_blk a' !! b = a_blk a !! b
}.

Lemma updates_lookup a a' i n' j m :
  updates a a' i n' -> a_ino a' !! j = Some m ->
  (j = i /\ m = n') \/ (j <> i /\ a_ino a !! j = Some m).
Proof.
  intros U Hj. rewrite (up_ino _ _ _ _ U) in Hj.
  apply list_lookup_insert_Some in Hj as [(<- & <- & _)|[? ?]]; [by left|right; auto].
Qed.

Lemma updates_view a a' i n' :
  updates a a' i n' -> view a' = <[i := view_inode (a_blk a') n']> (view a).
Proof.
  intros U. unfold view. rewrite (up_ino _ _ _ _ U), list_fmap_insert.
  destruct (decide (i < length (a_ino a))%nat) as [Hi|Hi].
  2:{ rewrite !list_insert_ge by (rewrite ?length_fmap; lia).
      apply list_fmap_ext. intros j m Hj. unfold view_inode.
      rewrite (content_agree (a_blk a)); [done|]. intros b Hb.
      apply (up_blocks _ _ _ _ U j m b); [|done|done]. apply lookup_lt_Some in Hj. lia. }
  apply list_eq. intros j. destruct (decide (j = i)) as [->|Hne].
  - rewrite !list_lookup_insert_eq by (rewrite length_fmap; done). done.
  - rewrite !list_lookup_insert_ne by done. rewrite !list_lookup_fmap.
    destruct (a_ino a !! j) as [m|] eqn:Hj; [|done]. cbn. f_equal. unfold view_inode.
    rewrite (content_agree (a_blk a)); [done|]. intros b Hb. by apply (up_blocks _ _ _ _ U j m b).
Qed.

Lemma updates_wf a a' i n' :
  wf a -> updates a a' i n' -> inode_wf a' i n' ->
  (forall j m, j <> i -> a_ino a !! j = Some m -> blocks_of n' ## blocks_of m) ->
  (forall j m, j <> i -> a_ino a !! j = Some m -> status n' = INODE_IN_USE -> status m = INODE_IN_USE ->
     cstr (name m) <> cstr (name n')) ->
  wf a'.
Proof.
  intros W U Wn Hdis Hnm. split.
  - intros j m Hj. destruct (updates_lookup _ _ _ _ _ _ U Hj) as [[-> ->]|[Hne Hj']]; [done|].
    destruct (wf_inode _ W j m Hj') as [L S Sh Sz B N]. split; try done.
    + by rewrite (up_ifl _ _ _ _ U).
    + intros b Hb. destruct (up_blocks _ _ _ _ U j m b) as [-> ->]; [done..|]. by apply B.
  - intros j k m m' Hjk Hj Hk.
    destruct (updates_lookup _ _ _ _ _ _ U Hj) as [[-> ->]|[Hne Hj']],
      (updates_lookup _ _ _ _ _ _ U Hk) as [[-> ->]|[Hne' Hk']]; [done|by eapply Hdis| |by eapply (wf_disjoint _ W j k)].
    pose proof (Hdis j m Hne Hj'). set_solver.
  - intros j k m m' Hj Hk Hs Hs' E.
    destruct (updates_lookup _ _ _ _ _ _ U Hj) as [[-> ->]|[Hne Hj']],
      (updates_lookup _ _ _ _ _ _ U Hk) as [[-> ->]|[Hne' Hk']]; [done| | |by eapply (wf_names _ W)].
    + by destruct (Hnm k m' Hne' Hk' Hs Hs').
    + by destruct (Hnm j m Hne Hj' Hs' Hs).
Qed.

(** ** Rebuilding the refinement after an update *)

Definition handles_ok (hs : list (option (nat * Z))) (fl : list (option (list Z * list Z))) : Prop :=
  forall j i o, hs !! j = Some (Some (i, o)) ->
    exists nm c, fl !! i = Some (Some (nm, c)) /\ 0 <= o <= Z.of_nat (length c).

Lemma refines_disk s A a d' a' :
  refines_at s A a -> rep d' a' -> wf a' -> handles_ok (handles A) (view a') ->
  refines_at (Fs d' (file_handle_array s)) (AFs (view a') (handles A) (free_count a')) a'.
Proof. intros [? ? ? Hh ? ? ? ?] R W Ho. by split. Qed.

Lemma refines_handle s A a j h :
  refines_at s A a -> (j < 20)%nat -> (inode_number h < 0 -> h = Filehandle 0 (-1)) ->
  (forall i o, view_handle h = Some (i, o) ->
     exists nm c, files A !! i = Some (Some (nm, c)) /\ 0 <= o <= Z.of_nat (length c)) ->
  refines_at (Fs (disk s) (<[j := h]> (file_handle_array s)))
    (AFs (files A) (<[j := view_handle h]> (handles A)) (afree A)) a.
Proof.
  intros [? ? ? Hh ? Hn Hc Ho] Hj Hneg Hfile. split; try done; cbn.
  - by rewrite Hh, list_fmap_insert.
  - by rewrite length_insert.
  - intros k h' Hk. apply list_lookup_insert_Some in Hk as [(_ & <- & _)|[_ Hk]]; [done|by eapply Hc].
  - intros k i o Hk. apply list_lookup_insert_Some in Hk as [(_ & E & _)|[_ Hk]]; [by apply Hfile|by eapply Ho].
Qed.

Lemma refines_free_entry s A a j :
  refines_at s A a ->
  files A !! j = Some None <-> inode_freelist (a_sb a) !! j = Some INODE_FREE.
Proof.
  intros F. rewrite (rf_files _ _ _ F). pose proof (rf_wf _ _ _ F) as W.
  destruct (a_ino a !! j) as [n|] eqn:Hj.
  - rewrite (view_None _ _ _ W Hj), (iw_listed _ _ _ (wf_inode _ W j n Hj)). split; congruence.
  - rewrite view_lookup, Hj. cbn. split; [done|]. intros E%lookup_lt_Some.
    apply lookup_ge_None_1 in Hj. pose proof (rep_len _ _ (rf_rep _ _ _ F)).
    destruct (rep_sb _ _ (rf_rep _ _ _ F)) as [(_&?&_) _]. unfold NUM_INODES in *. lia.
Qed.

Lemma refines_handle_at s A a j h :
  refines_at s A a -> file_handle_array s !! j = Some h -> handles A !! j = Some (view_handle h).
Proof. intros F Hh. by rewrite (rf_handles _ _ _ F), list_lookup_fmap, Hh. Qed.

Lemma refines_handle_lt s A a j :
  refines_at s A a -> (j < 20)%nat -> exists h, file_handle_array s !! j = Some h.
Proof. intros F Hj. apply lookup_lt_is_Some_2. by rewrite (rf_nhandles _ _ _ F). Qed.

Inductive names_file (A : afs) (nm : list Z) : Z -> Prop :=
| names_at i : has_file A nm i -> names_file A nm (Z.of_nat i)
| names_none : (forall i, ~ has_file A nm i) -> names_file A nm (-1).

Section refinement.
Context `{Garbage}.

Lemma open_namei_refines s A a nm rest :
  refines_at s A a -> valid_name nm rest ->
  exists r, open_namei (disk s) (nm ++ 0 :: rest) = Ok r /\ names_file A nm r.
Proof.
  intros F (H0 & Hl & _).
  destruct (open_namei_spec (disk s) a nm rest) as (r & -> & Hr); [apply F|apply F|done|lia|].
  eexists. split; [done|]. destruct Hr as [i n Hi Hs Hn|Hno]; constructor.
  - exists (content (a_blk a) n). rewrite (rf_files _ _ _ F). apply view_Some. eauto.
  - intros i [c Hc]. rewrite (rf_files _ _ _ F) in Hc. apply view_Some in Hc as (n & ? & ? & ? & _).
    by eapply Hno.
Qed.

(** ** Opening and closing *)

Lemma close_ok s A h :
  refines s A -> op_ok A (Close h) ->
  exists s' A', ssufs_close s h = Ok s' /\ op_spec A (Close h) 0 [] A' /\ refines s' A'.
Proof.
  intros [a F] Hh. cbn in Hh. unfold ssufs_close.
  replace h with (Z.of_nat (Z.to_nat h)) by lia.
  rewrite aset_nat by (rewrite (rf_nhandles _ _ _ F); unfold MAX_OPEN_FILES; lia). run.
  do 2 eexists. split_and!; [done|apply close_handle|]. rewrite Nat2Z.id.
  exists a. apply (refines_handle s A a (Z.to_nat h) (Filehandle 0 (-1)) F); [lia|done|done].
Qed.

Lemma free_handle_slot s A a r :
  refines_at s A a -> hfound (file_handle_array s) (-1) r ->
  (r = -1 /\ None ∉ handles A) \/
  exists j, r = Z.of_nat j /\ file_handle_array s !! j = Some (Filehandle 0 (-1)) /\
    (forall k, (k < j)%nat -> handles A !! k <> Some None).
Proof.
  intros F Hr. assert (Hneg : forall k, handles A !! k = Some None ->
    exists h, file_handle_array s !! k = Some h /\ inode_number h = -1).
  { intros k Hk. rewrite (rf_handles _ _ _ F), list_lookup_fmap in Hk.
    destruct (file_handle_array s !! k) as [h|] eqn:E; [|done]. cbn in Hk. exists h. split; [done|].
    unfold view_handle in Hk. destruct (Z.ltb_spec (inode_number h) 0); [|done].
    by rewrite (rf_closed _ _ _ F k h E). }
  destruct Hr as [j h Hj Hk Hmin|Hnone].
  - right. exists j. split; [done|]. split.
    + rewrite Hj. f_equal. apply (rf_closed _ _ _ F j h Hj). lia.
    + intros k Hkj Hn. destruct (Hneg k Hn) as (h' & Hh' & E). by eapply Hmin.
  - left. split; [done|]. intros [k Hk]%list_elem_of_lookup.
    destruct (Hneg k Hk) as (h' & Hh' & E). by eapply Hnone.
Qed.

Lemma open_ok s A nm rest :
  refines s A -> op_ok A (Open nm rest) ->
  exists r s' A', ssufs_open s (nm ++ 0 :: rest) = Ok (r, s') /\
    op_spec A (Open nm rest) r [] A' /\ refines s' A'.
Proof.
  intros [a F] Hnm. unfold ssufs_open, ssufs_allocFileHandle.
  destruct (open_namei_refines s A a nm rest F Hnm) as (r & -> & Hr). run.
  destruct (handle_index_spec _ (-1) _ (rf_nhandles _ _ _ F)) as (k & -> & Hk). run.
  destruct Hr as [i Hi|Hno].
  2:{ cbn. do 3 eexists. split_and!; [done|by apply open_absent|by exists a]. }
  rewrite (proj2 (Z.ltb_ge _ _)) by lia. cbn [orb].
  destruct (free_handle_slot s A a k F Hk) as [[-> Hfull]|(j & -> & Hj & Hmin)].
  { cbn. do 3 eexists. split_and!; [done|by apply open_full|by exists a]. }
  rewrite (proj2 (Z.ltb_ge _ _)) by lia. rewrite (aget_nat _ _ _ Hj). run.
  rewrite aset_nat by eauto with ssu. run. do 3 eexists. split_and!; [done| |].
  - apply (open_file A nm rest i j); [done| |done]. by rewrite (refines_handle_at _ _ _ _ _ F Hj).
  - exists a. assert (Hjl : (j < 20)%nat) by (apply lookup_lt_Some in Hj; by rewrite (rf_nhandles _ _ _ F) in Hj).
    pose proof (refines_handle s A a j (Filehandle 0 (Z.of_nat i)) F Hjl) as E.
    unfold view_handle in E. cbn in E. rewrite (proj2 (Z.ltb_ge _ _)) in E by lia.
    rewrite Nat2Z.id in E. apply E; [lia|]. intros i' o' [= <- <-].
    destruct Hi as [c Hc]. exists nm, c. split; [done|lia].
Qed.

(** ** Creating *)

Lemma create_ok s A nm rest :
  refines s A -> op_ok A (Create nm rest) ->
  exists r s' A', ssufs_create s (nm ++ 0 :: rest) = Ok (r, s') /\
    op_spec A (Create nm rest) r [] A' /\ refines s' A'.
Proof.
  intros [a F] Hnm. pose proof (rf_rep _ _ _ F) as R. pose proof (rf_wf _ _ _ F) as W.
  unfold ssufs_create.
  destruct (open_namei_refines s A a nm rest F Hnm) as (r & -> & Hr). run.
  destruct Hr as [i Hi|Hno].
  { rewrite Z.geb_leb, (proj2 (Z.leb_le _ _)) by lia. do 3 eexists.
    split_and!; [done|by eapply create_exists|by exists a]. }
  cbn [Z.geb Z.compare]. destruct (allocInode_rep _ _ R) as (r & d1 & -> & Hf & R1). run.
  destruct Hf as [i Hi Hmin|Hfull].
  2:{ cbn. do 3 eexists. split_and!; [done|apply create_full; [done|]|].
      - intros [j Hj]%list_elem_of_lookup. apply Hfull.
        apply (refines_free_entry _ _ _ _ F) in Hj. by eapply list_elem_of_lookup_2.
      - exists a. cbn in R1. destruct F. by split. }
  rewrite (proj2 (Z.ltb_ge _ _)) in * by lia. rewrite Nat2Z.id in R1.
  destruct Hnm as (H0 & Hl7 & Hl8). rewrite memcpy_from_Ok by done. run.
  set (n' := Inode INODE_IN_USE (take MAX_NAME_STRLEN (nm ++ 0 :: rest)) 0 (replicate MAX_FILE_SIZE (-1))).
  assert (En : name n' = nm ++ 0 :: take (7 - length nm) rest).
  { cbn [n' name]. unfold MAX_NAME_STRLEN. rewrite take_app_ge by lia.
    replace (8 - length nm)%nat with (S (7 - length nm)) by lia. done. }
  assert (Hok : ino_ok n').
  { unfold ino_ok. cbn [n' status name file_size direct_blocks]. unfold in_s32, INODE_IN_USE.
    rewrite length_take. unfold MAX_NAME_STRLEN.
    split; [lia|]. split; [lia|]. split; [lia|]. split; [done|]. apply Forall_replicate. lia. }
  assert (Hi8 : (i < 8)%nat).
  { apply lookup_lt_Some in Hi. destruct (rep_sb _ _ R) as [(_&E&_) _]. lia. }
  destruct (writeInode_rep d1 _ i n' R1 Hok Hi8) as (d2 & -> & R2). run.
  do 3 eexists. split_and!; [done|apply create_new; [done|by apply (refines_free_entry _ _ _ _ F)|]|].
  { intros j Hj Hn. apply (refines_free_entry _ _ _ _ F) in Hn. by eapply Hmin. }
  match type of R2 with rep _ ?x => set (a' := x) in * end.
  assert (U : updates a a' i n').
  { split; [done| |done]. intros j Hj. cbn. by rewrite list_lookup_insert_ne. }
  assert (Hv : view a' = <[i := Some (nm, [])]> (files A)).
  { rewrite (updates_view _ _ _ _ U), (rf_files _ _ _ F). do 2 f_equal.
    unfold view_inode. cbn [n' status]. f_equal. f_equal. rewrite En. by apply cstr_app. }
  exists a'. rewrite <- Hv. rewrite (rf_free _ _ _ F : _ = free_count a').
  apply (refines_disk s A a); [done|done| |].
  - apply (updates_wf a a' i n' W U).
    + split; [cbn; by rewrite list_lookup_insert_eq by eauto with ssu|right|done|cbn; lia|set_solver|constructor].
      split; [done|]. rewrite En. set_solver.
    + intros j m _ _. change (blocks_of n') with (@nil nat). set_solver.
    + intros j m Hj Hm _ Hs. rewrite En, cstr_app by done. intros E. apply (Hno j).
      exists (content (a_blk a) m). rewrite (rf_files _ _ _ F). apply view_Some. eauto.
  - intros j k o Hk. destruct (rf_open _ _ _ F j k o Hk) as (nm' & c & Hc & Ho).
    exists nm', c. split; [|done]. rewrite Hv. rewrite list_lookup_insert_ne; [done|].
    intros <-. apply (refines_free_entry _ _ _ _ F) in Hi. congruence.
Qed.

(** ** Seeking and reading *)

(** An open handle: its entry, its inode and its file. *)
Lemma open_handle s A a j h :
  refines_at s A a -> file_handle_array s !! j = Some h -> 0 <= inode_number h ->
  exists i n, inode_number h = Z.of_nat i /\ handles A !! j = Some (Some (i, offset h)) /\
    a_ino a !! i = Some n /\ status n = INODE_IN_USE /\
    files A !! i = Some (Some (cstr (name n), content (a_blk a) n)) /\
    0 <= offset h <= file_size n /\ Z.of_nat (length (content (a_blk a) n)) = file_size n.
Proof.
  intros F Hh Hi. pose proof (refines_handle_at _ _ _ _ _ F Hh) as Hv.
  unfold view_handle in Hv. rewrite (proj2 (Z.ltb_ge _ _)) in Hv by lia.
  destruct (rf_open _ _ _ F _ _ _ Hv) as (nm & c & Hc & Ho).
  pose proof Hc as Hc'. rewrite (rf_files _ _ _ F) in Hc'.
  apply view_Some in Hc' as (n & Hn & Hs & -> & ->).
  pose proof (length_content _ _ _ _ (rf_rep _ _ _ F) (rf_wf _ _ _ F) Hn) as Hl.
  exists (Z.to_nat (inode_number h)), n. split_and!; try done; lia.
Qed.

Lemma file_size_bound s A a i n : refines_at s A a -> a_ino a !! i = Some n -> 0 <= file_size n <= 256.
Proof.
  intros F Hn. pose proof (wf_inode _ (rf_wf _ _ _ F) i n Hn) as Wn.
  destruct (rep_ino _ _ (rf_rep _ _ _ F) i n Hn) as [(_&_&_&Hl&_) _].
  rewrite (iw_shape _ _ _ Wn), length_app, length_fmap in Hl. pose proof (iw_size _ _ _ Wn). lia.
Qed.

Lemma lseek_ok_open s A a j h k i n :
  refines_at s A a -> file_handle_array s !! j = Some h -> inode_number h = Z.of_nat i ->
  a_ino a !! i = Some n -> status n = INODE_IN_USE -> 0 <= offset h <= 256 -> - 2 ^ 30 <= k < 2 ^ 30 ->
  ssufs_lseek s (Z.of_nat j) k =
    Ok (if decide (0 <= offset h + k <= file_size n)
        then (0, Fs (disk s) (<[j := Filehandle (offset h + k) (Z.of_nat i)]> (file_handle_array s)))
        else (-1, s)).
Proof.
  intros F Hh Hi Hn Hs Ho Hk. unfold ssufs_lseek. rewrite (aget_nat _ _ _ Hh). run.
  rewrite Hi, (readInode_rep _ _ _ _ (rf_rep _ _ _ F) Hn). run.
  rewrite c_int_Ok by lia. run. pose proof (file_size_bound _ _ _ _ _ F Hn).
  rewrite (proj2 (Z.eqb_neq (file_size n) (-1))) by lia. cbn [orb].
  destruct (Z.ltb_spec (offset h + k) 0), (Z.gtb_spec (offset h + k) (file_size n)); cbn [orb];
    destruct (decide _); try lia; try done.
  rewrite aset_nat by eauto with ssu. done.
Qed.

(** Moving the offset of an open handle inside its file. *)
Lemma refines_move s A a j h i n o :
  refines_at s A a -> file_handle_array s !! j = Some h -> inode_number h = Z.of_nat i ->
  a_ino a !! i = Some n -> status n = INODE_IN_USE -> 0 <= o <= file_size n ->
  refines_at (Fs (disk s) (<[j := Filehandle o (Z.of_nat i)]> (file_handle_array s)))
    (AFs (files A) (<[j := Some (i, o)]> (handles A)) (afree A)) a.
Proof.
  intros F Hh Hi Hn Hs Ho.
  assert (Hj : (j < 20)%nat) by (apply lookup_lt_Some in Hh; by rewrite (rf_nhandles _ _ _ F) in Hh).
  pose proof (refines_handle s A a j (Filehandle o (Z.of_nat i)) F Hj) as E.
  unfold view_handle in E. cbn in E. rewrite (proj2 (Z.ltb_ge _ _)) in E by lia.
  rewrite Nat2Z.id in E. apply E; [lia|]. intros i' o' [= <- <-].
  exists (cstr (name n)), (content (a_blk a) n). split.
  - rewrite (rf_files _ _ _ F). apply view_Some. eauto.
  - by rewrite (length_content _ _ _ _ (rf_rep _ _ _ F) (rf_wf _ _ _ F) Hn).
Qed.

Lemma lseek_refines s A h k :
  refines s A -> op_ok A (Lseek h k) ->
  exists r s' A', ssufs_lseek s h k = Ok (r, s') /\ op_spec A (Lseek h k) r [] A' /\ refines s' A'.
Proof.
  intros [a F] (Hh & Hk & Hopen). set (j := Z.to_nat h). replace h with (Z.of_nat j) by lia.
  destruct (refines_handle_lt s A a j F) as [fh Hfh]; [lia|].
  pose proof (refines_handle_at _ _ _ _ _ F Hfh) as Hv. unfold view_handle in Hv.
  destruct (Z.ltb_spec (inode_number fh) 0) as [|Hpos]; [by destruct Hopen|].
  destruct (open_handle s A a j fh F Hfh Hpos) as (i & n & Ei & Ha & Hn & Hs & Hf & Ho & Hl).
  pose proof (file_size_bound _ _ _ _ _ F Hn).
  rewrite (lseek_ok_open s A a j fh k i n) by (done || lia).
  destruct (decide _) as [Hin|Hout]; do 3 eexists; (split; [done|]).
  - split; [eapply lseek_ok; rewrite ?Nat2Z.id; [done..|lia]|]. rewrite Nat2Z.id. exists a.
    by eapply refines_move.
  - split; [eapply lseek_range; rewrite ?Nat2Z.id; [done..|lia]|by exists a].
Qed.

Lemma read_refines s A h k :
  refines s A -> op_ok A (Read h k) ->
  exists r out s' A', ssufs_read s h k = Ok (r, out, s') /\ op_spec A (Read h k) r out A' /\ refines s' A'.
Proof.
  intros [a F] (Hh & Hk). set (j := Z.to_nat h). replace h with (Z.of_nat j) by lia.
  destruct (refines_handle_lt s A a j F) as [fh Hfh]; [lia|].
  pose proof (refines_handle_at _ _ _ _ _ F Hfh) as Hv. unfold view_handle in Hv.
  unfold ssufs_read. rewrite (aget_nat _ _ _ Hfh). run.
  destruct (Z.ltb_spec (inode_number fh) 0) as [|Hpos].
  { do 4 eexists. split_and!; [done|apply read_closed; by rewrite Nat2Z.id|by exists a]. }
  destruct (open_handle s A a j fh F Hfh Hpos) as (i & n & Ei & Ha & Hn & Hs & Hf & Ho & Hl).
  pose proof (file_size_bound _ _ _ _ _ F Hn) as Hsz. pose proof (rf_rep _ _ _ F) as R.
  rewrite Ei, (readInode_rep _ _ _ _ R Hn). run. rewrite c_int_Ok by lia. run.
  destruct (Z.ltb_spec (file_size n) (k + offset fh)) as [Hshort|Hfit].
  { do 4 eexists. split_and!; [done|eapply read_short; rewrite ?Nat2Z.id; [done..|lia]|by exists a]. }
  pose proof (wf_inode _ (rf_wf _ _ _ F) i n Hn) as Wn. pose proof (iw_size _ _ _ Wn).
  destruct (rep_ino _ _ R i n Hn) as [(_&_&_&Hl4&_) _].
  rewrite (iw_shape _ _ _ Wn), length_app, length_fmap, length_replicate in Hl4.
  assert (Hp : all_present a (blocks_of n)) by (intros b Hb; by apply (iw_blocks _ _ _ Wn)).
  rewrite (iw_shape _ _ _ Wn). change 0 with (Z.of_nat 0) at 1.
  change (Z.to_nat BLOCKSIZE * MAX_FILE_SIZE)%nat with 256%nat.
  rewrite (read_blocks_spec _ a _ _ 0 _ R Hp) by (rewrite length_replicate; lia). run.
  pose proof (length_loaded _ _ _ R Hp) as Hld.
  rewrite buf_load_Ok by (rewrite ?length_app, ?length_drop, ?length_replicate, ?length_take, ?Hld; lia). run.
  rewrite (lseek_ok_open s A a j fh k i n) by (done || lia). rewrite decide_True by lia. run.
  do 4 eexists. split; [done|]. split.
  - replace (take (Z.to_nat k) _) with
      (take (Z.to_nat k) (drop (Z.to_nat (offset fh)) (content (a_blk a) n))).
    + eapply read_bytes; rewrite ?Nat2Z.id; [done..|lia].
    + rewrite Nat.mul_0_r, take_0, app_nil_l. unfold content. change (file_bytes (a_blk a) n) with (loaded a (blocks_of n)).
      rewrite drop_app_le by (rewrite Hld; lia). rewrite take_app_le by (rewrite length_drop, Hld; lia).
      rewrite !take_drop_commute. rewrite take_take. f_equal. f_equal. lia.
  - rewrite Nat2Z.id. exists a. eapply refines_move; (done || lia).
Qed.

(** ** Deleting *)

(** [ssufs_freeInode] removes the file and gives all its blocks back. *)
Lemma freeInode_rep d a i n :
  rep d a -> wf a -> a_ino a !! i = Some n -> status n = INODE_IN_USE ->
  exists d' a', ssufs_freeInode d (Z.of_nat i) = Ok d' /\ rep d' a' /\ wf a' /\
    view a' = <[i := None]> (view a) /\ free_count a' = (free_count a + length (blocks_of n))%nat.
Proof.
  intros R W Hn Hs. pose proof (wf_inode _ W i n Hn) as Wn.
  assert (Hi8 : (i < 8)%nat) by (apply lookup_lt_Some in Hn; by rewrite (rep_len _ _ R) in Hn).
  pose proof (iw_listed _ _ _ Wn) as Hfl. destruct (rep_sb _ _ R) as [Hsb _].
  destruct (rep_ino _ _ R i n Hn) as [Hok _].
  unfold ssufs_freeInode, c_assert. rewrite (proj2 (Z.ltb_lt _ _)) by (unfold NUM_INODES; lia). run.
  rewrite (readSuperBlock_rep _ _ R). run. rewrite (readInode_rep _ _ _ _ R Hn). run.
  rewrite (aget_nat _ _ _ Hfl). run. rewrite Hs, Z.eqb_refl. run. rewrite aset_nat by eauto with ssu. run.
  change (Superblock (sb_name (a_sb a)) (<[i:=INODE_FREE]> (inode_freelist (a_sb a)))
    (datablock_freelist (a_sb a))) with (set_ifl (<[i:=INODE_FREE]> (inode_freelist (a_sb a))) (a_sb a)).
  set (s1 := set_ifl _ _). assert (Hs1 : sb_ok s1) by by apply sb_ok_ifl.
  assert (Hused : forall b, b ∈ blocks_of n -> datablock_freelist (a_sb a) !! b = Some DATA_BLOCK_USED)
    by (intros b Hb; by apply (iw_blocks _ _ _ Wn)).
  rewrite (iw_shape _ _ _ Wn).
  destruct (free_blocks_spec d a s1 (blocks_of n) (4 - length (blocks_of n)) R Hs1 (iw_nodup _ _ _ Wn))
    as (d1 & s0 & -> & R1); [done|]. run.
  set (s2 := set_dfl _ _). assert (Hs2 : sb_ok s2).
  { destruct Hs1 as (?&?&?). unfold s2, sb_ok. cbn [set_dfl sb_name inode_freelist datablock_freelist].
    by rewrite length_free_marks. }
  destruct (writeSuperBlock_rep d1 _ s2 R1 Hs2) as (d2 & -> & R2). run.
  set (n' := Inode INODE_FREE (name n) 0 (replicate MAX_FILE_SIZE (-1))).
  assert (Hok' : ino_ok n').
  { destruct Hok as (_ & ? & _). unfold ino_ok. cbn [n' status name file_size direct_blocks].
    unfold in_s32, INODE_FREE. split; [lia|]. split; [done|]. split; [lia|]. split; [done|].
    apply Forall_replicate. lia. }
  destruct (writeInode_rep d2 _ i n' R2 Hok' Hi8) as (d3 & -> & R3).
  exists d3, (set_ino i n' (set_sb s2 a)). split; [done|]. split; [exact R3|].
  assert (U : updates a (set_ino i n' (set_sb s2 a)) i n').
  { split; [done| |].
    - intros j Hj. cbn. by rewrite list_lookup_insert_ne.
    - intros j m b Hj Hm Hb. split; [|done]. cbn. apply free_marks_notin.
      pose proof (wf_disjoint _ W i j n m (not_eq_sym Hj) Hn Hm). set_solver. }
  split_and!.
  - apply (updates_wf _ _ i n' W U).
    + split; [cbn; by rewrite list_lookup_insert_eq by eauto with ssu|by left|done|cbn; lia|set_solver|constructor].
    + intros j m _ _. change (blocks_of n') with (@nil nat). set_solver.
    + intros j m _ _ E. discriminate E.
  - by rewrite (updates_view _ _ _ _ U).
  - unfold free_count. cbn. apply free_marks_count; [apply Wn|done].
Qed.

Lemma close_all_other i hs :
  (forall j o, hs !! j <> Some (Some (i, o))) -> close_all i hs = hs.
Proof.
  intros Hno. unfold close_all. rewrite <- (list_fmap_id hs) at 2. apply list_fmap_ext.
  intros j [[k o]|] Hj; [|done]. cbn. rewrite decide_False; [done|]. intros ->. by apply (Hno j o).
Qed.

Lemma close_all_sole i j o hs :
  hs !! j = Some (Some (i, o)) -> (forall k o', hs !! k = Some (Some (i, o')) -> k = j) ->
  close_all i hs = <[j := None]> hs.
Proof.
  intros Hj Hsole. apply list_eq. intros k. unfold close_all. rewrite list_lookup_fmap.
  destruct (decide (k = j)) as [->|Hne].
  - rewrite Hj. cbn. rewrite decide_True by done. by rewrite list_lookup_insert_eq by eauto with ssu.
  - rewrite list_lookup_insert_ne by done. destruct (hs !! k) as [[[i' o']|]|] eqn:Hk; [|done|done].
    cbn. rewrite decide_False; [done|]. intros ->. by apply Hne, (Hsole k o').
Qed.

(** Closing the first handle on file [i], when there is at most one. *)
Lemma delete_closes s A a i :
  refines_at s A a ->
  (forall j1 j2 o1 o2, handles A !! j1 = Some (Some (i, o1)) -> handles A !! j2 = Some (Some (i, o2)) -> j1 = j2) ->
  exists r s1, handle_index (file_handle_array s) (Z.of_nat i) MAX_OPEN_FILES 0 = Ok r /\
    (if r <? 0 then Ok s else ssufs_close s r) = Ok s1 /\
    refines_at s1 (AFs (files A) (close_all i (handles A)) (afree A)) a.
Proof.
  intros F Hsole.
  destruct (handle_index_spec _ (Z.of_nat i) _ (rf_nhandles _ _ _ F)) as (r & -> & Hr).
  destruct Hr as [j h Hj Hi Hmin|Hnone].
  - destruct (open_handle s A a j h F Hj) as (i' & n & Ei & Ha & _); [lia|].
    assert (i' = i) as -> by lia. exists (Z.of_nat j). eexists. split; [done|].
    rewrite (proj2 (Z.ltb_ge _ _)) by lia. unfold ssufs_close.
    rewrite aset_nat by eauto with ssu. split; [done|].
    rewrite (close_all_sole i j (offset h)) by (done || (intros k o' Hk; by eapply Hsole)).
    apply (refines_handle s A a j (Filehandle 0 (-1)) F); [|done|done].
    apply lookup_lt_Some in Hj. by rewrite (rf_nhandles _ _ _ F) in Hj.
  - exists (-1), s. split; [done|]. split; [done|].
    rewrite close_all_other; [by destruct A|]. intros j o Hj.
    rewrite (rf_handles _ _ _ F), list_lookup_fmap in Hj.
    destruct (file_handle_array s !! j) as [h|] eqn:Eh; [|done]. cbn in Hj. unfold view_handle in Hj.
    destruct (Z.ltb_spec (inode_number h) 0); [done|]. apply (Hnone j h Eh).
    injection Hj as <- _. lia.
Qed.

Lemma delete_ok s A nm rest :
  refines s A -> op_ok A (Delete nm rest) ->
  exists s' A', ssufs_delete s (nm ++ 0 :: rest) = Ok s' /\ op_spec A (Delete nm rest) 0 [] A' /\ refines s' A'.
Proof.
  intros [a F] [Hnm Hsole]. unfold ssufs_delete.
  destruct (open_namei_refines s A a nm rest F Hnm) as (r & -> & Hr). run.
  destruct Hr as [i Hi|Hno].
  2:{ cbn. do 2 eexists. split_and!; [done|by apply delete_absent|by exists a]. }
  rewrite (proj2 (Z.ltb_ge _ _)) by lia.
  destruct (delete_closes s A a i F) as (r & s1 & -> & E & F1); [by intros; eapply Hsole|].
  run. rewrite E. run. destruct Hi as [c Hc]. pose proof Hc as Hv. rewrite (rf_files _ _ _ F) in Hv.
  apply view_Some in Hv as (n & Hn & Hs & -> & ->).
  pose proof (length_content _ _ _ _ (rf_rep _ _ _ F) (rf_wf _ _ _ F) Hn) as Hl.
  pose proof (iw_size _ _ _ (wf_inode _ (rf_wf _ _ _ F) i n Hn)) as Hsz.
  destruct (freeInode_rep _ a i n (rf_rep _ _ _ F1) (rf_wf _ _ _ F1) Hn Hs)
    as (d' & a' & -> & R' & W' & V' & C'). run.
  do 2 eexists. split; [done|]. split.
  - eapply (delete_file A _ rest i _ (free_count a')); [exact Hc|].
    rewrite C', (rf_free _ _ _ F). lia.
  - exists a'. rewrite (rf_files _ _ _ F : files A = view a), <- V'.
    apply (refines_disk s1 _ a d' a' F1 R' W'). intros j k o Hk. cbn in Hk.
    destruct (rf_open _ _ _ F1 j k o Hk) as (nm' & c' & Hc' & Ho). exists nm', c'. split; [|done].
    rewrite V', list_lookup_insert_ne, <- (rf_files _ _ _ F); [done|]. intros <-.
    unfold close_all in Hk. rewrite list_lookup_fmap in Hk.
    destruct (handles A !! j) as [[[i' o']|]|]; cbn in Hk; [|done|done].
    destruct (decide (i' = i)); naive_solver.
Qed.

(** ** Writing *)

Lemma extends_keeps a a' new j m b :
  extends a a' new -> wf a -> a_ino a !! j = Some m -> b ∈ blocks_of m ->
  (b ∉ new) /\ datablock_freelist (a_sb a') !! b = datablock_freelist (a_sb a) !! b /\ a_blk a' !! b = a_blk a !! b.
Proof.
  intros X W Hm Hb. destruct (iw_blocks _ _ _ (wf_inode _ W j m Hm) b Hb) as [Hu _].
  assert (Hn : b ∉ new).
  { intros Hin. destruct (ex_new _ _ _ X b Hin) as [Hf _]. rewrite Hu in Hf. discriminate Hf. }
  split; [done|]. by apply (ex_old _ _ _ X).
Qed.

(** Taking free blocks that no inode refers to leaves the files unchanged. *)
Lemma extends_wf a a' new : extends a a' new -> wf a -> wf a' /\ view a' = view a.
Proof.
  intros X W. split.
  - split; rewrite (ex_ino _ _ _ X); [|apply W|apply W].
    intros i n Hn. destruct (wf_inode _ W i n Hn) as [L S Sh Sz B N]. split; try done.
    + by rewrite (ex_ifl _ _ _ X).
    + intros b Hb. destruct (extends_keeps _ _ _ _ _ _ X W Hn Hb) as (_ & -> & ->). by apply B.
  - unfold view. rewrite (ex_ino _ _ _ X). apply list_fmap_ext. intros i n Hn. unfold view_inode.
    rewrite (content_agree (a_blk a)); [done|]. intros b Hb.
    by destruct (extends_keeps _ _ _ _ _ _ X W Hn Hb) as (_ & _ & ->).
Qed.

(** The buffer of [ssufs_write] holds the new contents. *)
Lemma overwrite_buffer (l z src : list Z) (size o : nat) :
  (o <= size)%nat -> (size <= length l)%nat ->
  take (Nat.max size (o + length src)) (take o (l ++ z) ++ src ++ drop (o + length src) (l ++ z)) =
  overwrite (take size l) o src.
Proof.
  intros Ho Hs. unfold overwrite. rewrite take_take, (Nat.min_l o size), (take_app_le l z o) by lia.
  rewrite take_app_ge by (rewrite length_take; lia). f_equal.
  rewrite length_take, (Nat.min_l o) by lia.
  rewrite take_app_ge by lia. f_equal.
  destruct (decide (size <= o + length src)%nat) as [Hge|Hlt].
  - rewrite Nat.max_r by done. replace (_ - _ - _)%nat with 0%nat by lia.
    rewrite take_0, drop_ge; [done|]. rewrite length_take. lia.
  - rewrite Nat.max_l by lia. rewrite take_drop_commute.
    replace (o + length src + _)%nat with size by lia. by rewrite take_app_le.
Qed.

(** The inode written back by [ssufs_write]. *)
Definition grown (n : inode_t) (new : list nat) (e : Z) : inode_t :=
  Inode (status n) (name n) (if file_size n <? e then e else file_size n)
    ((Z.of_nat <$> (blocks_of n ++ new)) ++ replicate (4 - length (blocks_of n) - length new) (-1)).

Lemma blocks_of_grown n new e : blocks_of (grown n new e) = blocks_of n ++ new.
Proof. apply present_map. Qed.

Lemma grown_ok d a a' new i n e :
  rep d a -> wf a -> extends a a' new -> a_ino a !! i = Some n ->
  (length (blocks_of n) + length new <= 4)%nat -> 0 <= e <= 256 -> ino_ok (grown n new e).
Proof.
  intros R W X Hn Hl He. destruct (rep_ino _ _ R i n Hn) as [(H1 & H2 & H3 & H4 & H5) _].
  unfold ino_ok, grown. cbn [status name file_size direct_blocks].
  split; [done|]. split; [done|]. split; [unfold in_s32 in *; case_if; lia|].
  split; [rewrite length_app, length_fmap, length_app, length_replicate; lia|].
  apply Forall_app. split; [|apply Forall_replicate; unfold in_s32; lia].
  apply Forall_fmap, Forall_forall. intros b Hb. cbn.
  assert (Hb30 : is_Some (datablock_freelist (a_sb a) !! b)).
  { apply elem_of_app in Hb as [Hb|Hb].
    - destruct (iw_blocks _ _ _ (wf_inode _ W i n Hn) b Hb) as [-> _]. eauto.
    - destruct (ex_new _ _ _ X b Hb) as [-> _]. eauto. }
  apply lookup_lt_is_Some_1 in Hb30. destruct (rep_sb _ _ R) as [(_&_&E) _].
  unfold in_s32. lia.
Qed.

Lemma new_disjoint a a' new j m : wf a -> extends a a' new -> a_ino a !! j = Some m -> new ## blocks_of m.
Proof.
  intros W X Hm b Hb Hb'. by destruct (extends_keeps _ _ _ _ _ _ X W Hm Hb') as (? & _).
Qed.

Section write_commit.
(** The state when [ssufs_write] has its blocks: [a'] extends [a] by [new],
    the buffer [tmp] was flushed and inode [i] is about to be written. *)
Context (a a' : adisk) (new : list nat) (i : nat) (n : inode_t) (e : Z) (tmp : list Z) (blk : gmap nat (list Z)).
Hypothesis W : wf a.
Hypothesis X : extends a a' new.
Hypothesis Hn : a_ino a !! i = Some n.
Hypothesis Hs : status n = INODE_IN_USE.
Hypothesis Hl : (length (blocks_of n) + length new <= 4)%nat.
Hypothesis He : 0 <= e <= 64 * Z.of_nat (length (blocks_of n ++ new)).
Hypothesis Htmp : (256 <= length tmp)%nat.
Hypothesis Hfl : flushed (a_blk a') (blocks_of n ++ new) 0 tmp blk.

Definition committed : adisk := set_ino i (grown n new e) (ADisk (a_sb a') (a_ino a') blk).

Lemma committed_updates : updates a committed i (grown n new e).
Proof using All.
  split.
  - cbn. by rewrite (ex_ino _ _ _ X).
  - intros j _. cbn. by rewrite (ex_ifl _ _ _ X).
  - intros j m b Hj Hm Hb. cbn. destruct (extends_keeps _ _ _ _ _ _ X W Hm Hb) as (Hnb & -> & E).
    split; [done|]. rewrite (proj2 Hfl); [done|].
    pose proof (wf_disjoint _ W i j n m (not_eq_sym Hj) Hn Hm). set_solver.
Qed.

Lemma committed_wf : wf committed.
Proof using All.
  pose proof (wf_inode _ W i n Hn) as Wn. pose proof (iw_size _ _ _ Wn).
  apply (updates_wf a _ i (grown n new e) W committed_updates).
  - split; try rewrite blocks_of_grown.
    + cbn. rewrite (ex_ifl _ _ _ X). apply Wn.
    + right. split; [done|]. destruct (iw_status _ _ _ Wn) as [[E _]|[_ ?]]; [|done].
      rewrite Hs in E. discriminate.
    + cbn [grown direct_blocks]. rewrite length_app. do 2 f_equal. lia.
    + cbn [grown file_size]. rewrite length_app in *. case_if; lia.
    + intros b Hb. cbn. split.
      * apply elem_of_app in Hb as [Hb|Hb]; [|by apply (ex_new _ _ _ X)].
        destruct (extends_keeps _ _ _ _ _ _ X W Hn Hb) as (_ & -> & _). by apply (iw_blocks _ _ _ Wn).
      * apply list_elem_of_lookup in Hb as [j Hj]. rewrite (proj1 Hfl j b Hj). eauto.
    + apply NoDup_app. split_and!; [apply Wn| |apply X].
      intros b Hb Hb'. by apply (new_disjoint a a' new i n W X Hn b).
  - intros j m Hj Hm. rewrite blocks_of_grown. pose proof (new_disjoint a a' new j m W X Hm).
    pose proof (wf_disjoint _ W i j n m (not_eq_sym Hj) Hn Hm). set_solver.
  - intros j m Hj Hm _ Hsm E. apply Hj. by eapply (wf_names _ W j i m n).
Qed.

Lemma committed_content :
  content blk (grown n new e) = take (Z.to_nat (Z.max (file_size n) e)) tmp.
Proof using All.
  pose proof (iw_size _ _ _ (wf_inode _ W i n Hn)).
  unfold content, file_bytes. rewrite blocks_of_grown.
  replace ((fun b => default [] (blk !! b)) <$> (blocks_of n ++ new))
    with (slice tmp <$> seq 0 (length (blocks_of n ++ new))).
  2:{ apply list_eq. intros j. rewrite !list_lookup_fmap.
      destruct ((blocks_of n ++ new) !! j) as [b|] eqn:E.
      - rewrite lookup_seq_lt by eauto with ssu. cbn. by rewrite (proj1 Hfl j b E).
      - rewrite lookup_seq_ge by (by apply lookup_ge_None_1). done. }
  rewrite length_app in *. rewrite mjoin_slices by lia. cbn [Nat.mul drop]. rewrite take_take.
  cbn [grown file_size]. f_equal. case_if; lia.
Qed.

End write_commit.

(** The outcome of the first loop, as [ssufs_write] uses it: either the disk
    ran out of blocks, or the file has [num_blocks] of them and [tmp_buf] holds
    its bytes followed by zeros. *)
Lemma write_fill s A a i n e :
  refines_at s A a -> a_ino a !! i = Some n -> 0 <= e <= 256 ->
  let tmp0 := replicate (Z.to_nat BLOCKSIZE * MAX_FILE_SIZE) 0 in
  exists d' a' new r,
    fill_blocks (disk s) (direct_blocks n) 0 (Z.quot (e - 1) BLOCKSIZE + 1) tmp0 = Ok r /\
    rep d' a' /\ extends a a' new /\
    ((r = inl d' /\ free_count a' = 0%nat /\ 64 * Z.of_nat (free_count a) < Z.max 1 e) \/
     (exists tmp, r = inr (d', direct_blocks (grown n new e), tmp) /\
      tmp = loaded a (blocks_of n) ++ drop (64 * length (blocks_of n)) tmp0 /\ length tmp = 256%nat /\
      (length (blocks_of n) + length new <= 4)%nat /\
      e <= 64 * Z.of_nat (length (blocks_of n ++ new)))).
Proof.
  intros F Hn He tmp0. pose proof (rf_rep _ _ _ F) as R.
  pose proof (wf_inode _ (rf_wf _ _ _ F) i n Hn) as Wn. pose proof (iw_size _ _ _ Wn).
  destruct (rep_ino _ _ R i n Hn) as [(_&_&_&Hl4&_) _]. rewrite (iw_shape _ _ _ Wn) in Hl4 |- *.
  rewrite length_app, length_fmap, length_replicate in Hl4.
  assert (Hp : all_present a (blocks_of n)) by (intros b Hb; by apply (iw_blocks _ _ _ Wn)).
  assert (Ht : length tmp0 = 256%nat) by done.
  change 0 with (Z.of_nat 0) at 1.
  destruct (fill_blocks_spec (disk s) a (blocks_of n) (4 - length (blocks_of n)) 0
    (Z.quot (e - 1) BLOCKSIZE + 1) tmp0 R Hp) as (d' & a' & new & r & E & R' & X & Ho); [lia|].
  exists d', a', new, r. split; [exact E|]. split; [done|]. split; [done|].
  change BLOCKSIZE with 64 in Ho. pose proof (ex_free _ _ _ X) as Hfree. unfold fill_outcome in Ho.
  rewrite Nat.add_0_l, Nat.mul_0_r, take_0, app_nil_l in Ho.
  assert (Hq : e <= 64 * (Z.quot (e - 1) 64 + 1) /\ 64 * Z.quot (e - 1) 64 < Z.max 1 e /\ Z.quot (e - 1) 64 <= 3).
  { destruct (decide (e = 0)) as [->|]; [done|]. rewrite Z.quot_div_nonneg by lia.
    pose proof (Z.div_mod (e - 1) 64). pose proof (Z.mod_pos_bound (e - 1) 64). lia. }
  destruct Ho as [(-> & Hz & Hlt)|(-> & Hlen)].
  - left. split; [done|]. split; [done|]. lia.
  - right. eexists. split; [done|]. split; [done|]. rewrite !length_app, (length_loaded _ _ _ R Hp), length_drop.
    lia.
Qed.

Lemma flush_grown d a a' new i n e tmp :
  rep d a' -> wf a -> extends a a' new -> a_ino a !! i = Some n ->
  (length (blocks_of n) + length new <= 4)%nat -> length tmp = 256%nat ->
  exists d' blk, flush_blocks d (direct_blocks (grown n new e)) 0 tmp = Ok d' /\
    rep d' (ADisk (a_sb a') (a_ino a') blk) /\ flushed (a_blk a') (blocks_of n ++ new) 0 tmp blk.
Proof.
  intros R W X Hn Hl Ht. pose proof (wf_inode _ W i n Hn) as Wn.
  apply (flush_blocks_spec d a' (blocks_of n ++ new) (4 - length (blocks_of n) - length new) 0 tmp R).
  - apply NoDup_app. split_and!; [apply Wn| |apply X]. intros b Hb Hb'.
    by apply (new_disjoint a a' new i n W X Hn b).
  - intros b Hb. destruct (rep_sb _ _ R) as [(_&_&E) _]. unfold NUM_DATA_BLOCKS. rewrite <- E.
    apply elem_of_app in Hb as [Hb|Hb].
    + destruct (extends_keeps _ _ _ _ _ _ X W Hn Hb) as (_ & Eb & _).
      destruct (iw_blocks _ _ _ Wn b Hb) as [Hu _]. rewrite <- Eb in Hu. eauto with ssu.
    + destruct (ex_new _ _ _ X b Hb) as (_ & Hu & _). eauto with ssu.
  - rewrite length_app. lia.
Qed.

(** Writing back the buffer and the inode commits the new contents. *)
Lemma write_commit s A a d1 a1 new i n o src tmp :
  refines_at s A a -> rep d1 a1 -> extends a a1 new -> a_ino a !! i = Some n -> status n = INODE_IN_USE ->
  (length (blocks_of n) + length new <= 4)%nat ->
  0 <= o <= file_size n -> o + Z.of_nat (length src) <= 64 * Z.of_nat (length (blocks_of n ++ new)) ->
  (exists z, tmp = loaded a (blocks_of n) ++ z) -> length tmp = 256%nat ->
  let e := o + Z.of_nat (length src) in
  let tmp' := take (Z.to_nat o) tmp ++ src ++ drop (Z.to_nat o + length src) tmp in
  exists d2 d3 a', flush_blocks d1 (direct_blocks (grown n new e)) 0 tmp' = Ok d2 /\
    ssufs_writeInode d2 (Z.of_nat i) (grown n new e) = Ok d3 /\
    refines_at (Fs d3 (file_handle_array s))
      (AFs (<[i := Some (cstr (name n), overwrite (content (a_blk a) n) (Z.to_nat o) src)]> (files A))
           (handles A) (free_count a1)) a' /\
    a_ino a' !! i = Some (grown n new e).
Proof.
  intros F R1 X Hn Hs Hl Ho He [z Ez] Ht e tmp'.
  pose proof (rf_rep _ _ _ F) as R. pose proof (rf_wf _ _ _ F) as W.
  pose proof (wf_inode _ W i n Hn) as Wn. pose proof (iw_size _ _ _ Wn) as Hsz.
  assert (Hp : all_present a (blocks_of n)) by (intros b Hb; by apply (iw_blocks _ _ _ Wn)).
  pose proof (length_loaded _ _ _ R Hp) as Hld. rewrite length_app in He.
  assert (Ht' : length tmp' = 256%nat)
    by (unfold tmp'; rewrite !length_app, length_take, length_drop; lia).
  destruct (flush_grown d1 a a1 new i n e tmp' R1 W X Hn Hl Ht') as (d2 & blk & -> & R2 & Hfl).
  assert (Hi8 : (i < NUM_INODES)%nat) by (apply lookup_lt_Some in Hn; by rewrite (rep_len _ _ R) in Hn).
  assert (Hgok : ino_ok (grown n new e)) by (apply (grown_ok (disk s) a a1 new i n e R W X Hn Hl); unfold e; lia).
  destruct (writeInode_rep d2 _ i (grown n new e) R2 Hgok Hi8) as (d3 & E3 & R3).
  assert (He' : 0 <= e <= 64 * Z.of_nat (length (blocks_of n ++ new))) by (rewrite length_app; unfold e; lia).
  exists d2, d3, (committed a1 new i n e blk). do 2 (split; [done|]).
  pose proof (committed_updates a a1 new i n e tmp' blk W X Hn Hs Hl He' ltac:(lia) Hfl) as U.
  pose proof (committed_wf a a1 new i n e tmp' blk W X Hn Hs Hl He' ltac:(lia) Hfl) as W'.
  pose proof (committed_content a a1 new i n e tmp' blk W X Hn Hs Hl He' ltac:(lia) Hfl) as C'.
  assert (V' : view (committed a1 new i n e blk) =
    <[i := Some (cstr (name n), overwrite (content (a_blk a) n) (Z.to_nat o) src)]> (files A)).
  { rewrite (updates_view _ _ _ _ U), (rf_files _ _ _ F). f_equal. unfold view_inode. cbn [grown status name].
    rewrite Hs. cbn [Z.eqb Pos.eqb INODE_IN_USE]. do 2 f_equal. cbn [committed set_ino a_blk]. rewrite C'.
    unfold tmp'. rewrite Ez. unfold content. change (file_bytes (a_blk a) n) with (loaded a (blocks_of n)).
    rewrite <- (overwrite_buffer _ z) by lia. f_equal. unfold e. lia. }
  split; [|cbn; apply list_lookup_insert_eq; rewrite (ex_ino _ _ _ X); eauto with ssu].
  rewrite <- V'. apply (refines_disk s A a d3 (committed a1 new i n e blk) F R3 W').
  intros j i' o' Hj. destruct (rf_open _ _ _ F j i' o' Hj) as (nm & c & Hc & Hoc). rewrite V'.
  destruct (decide (i' = i)) as [->|Hne].
  - exists (cstr (name n)). eexists. split; [apply list_lookup_insert_eq; eauto with ssu|].
    rewrite (rf_files _ _ _ F) in Hc. apply view_Some in Hc as (n1 & Hn1 & _ & _ & ->).
    assert (n1 = n) as -> by congruence. unfold overwrite.
    rewrite !length_app, length_take, length_drop. lia.
  - exists nm, c. split; [by rewrite list_lookup_insert_ne|done].
Qed.

Lemma write_refines s A h buf k :
  refines s A -> op_ok A (Write h buf k) ->
  exists r s' A', ssufs_write s h buf k = Ok (r, s') /\ op_spec A (Write h buf k) r [] A' /\ refines s' A'.
Proof.
  intros [a F] (Hh & Hk & Hbuf). set (j := Z.to_nat h). replace h with (Z.of_nat j) by lia.
  destruct (refines_handle_lt s A a j F) as [fh Hfh]; [lia|].
  pose proof (refines_handle_at _ _ _ _ _ F Hfh) as Hv. unfold view_handle in Hv.
  unfold ssufs_write. rewrite (aget_nat _ _ _ Hfh). run.
  destruct (Z.ltb_spec (inode_number fh) 0) as [|Hpos].
  { do 3 eexists. split_and!; [done|apply write_closed; by rewrite Nat2Z.id|by exists a]. }
  destruct (open_handle s A a j fh F Hfh Hpos) as (i & n & Ei & Ha & Hn & Hs & Hf & Ho & Hl).
  pose proof (file_size_bound _ _ _ _ _ F Hn) as Hsz. pose proof (rf_rep _ _ _ F) as R.
  pose proof (rf_wf _ _ _ F) as W. rewrite c_int_Ok by lia. run.
  change (BLOCKSIZE * Z.of_nat MAX_FILE_SIZE) with 256.
  destruct (Z.gtb_spec (offset fh + k) 256) as [Hbig|Hfit].
  { do 3 eexists. split_and!; [done|eapply write_large; rewrite ?Nat2Z.id; [done..|lia]|by exists a]. }
  rewrite Ei, (readInode_rep _ _ _ _ R Hn). run. rewrite c_int_Ok by lia. run.
  destruct (write_fill s A a i n (offset fh + k) F Hn) as (d1 & a1 & new & r & -> & R1 & X & Hr); [lia|]. run.
  destruct Hr as [(-> & Hz & Hfree)|(tmp & -> & Etmp & Hlt & Hb4 & Hbe)].
  { do 3 eexists. split; [done|]. destruct (extends_wf _ _ _ X W) as [W1 V1]. split.
    - eapply write_nospace; rewrite ?Nat2Z.id; [done..|]. by rewrite (rf_free _ _ _ F).
    - exists a1. rewrite (rf_files _ _ _ F), <- V1, <- Hz. apply (refines_disk s A a d1 a1 F R1 W1).
      intros ? ? ? ?. rewrite V1, <- (rf_files _ _ _ F). by eapply (rf_open _ _ _ F). }
  rewrite buf_load_Ok by lia. run. change (Z.to_nat 0) with 0%nat. rewrite drop_0.
  set (src := take (Z.to_nat k) buf).
  assert (Hsrc : Z.of_nat (length src) = k) by (unfold src; rewrite length_take; lia).
  rewrite buf_store_Ok by lia. run. rewrite <- Hsrc in Hbe |- *.
  destruct (write_commit s A a d1 a1 new i n (offset fh) src tmp F R1 X Hn Hs Hb4 Ho Hbe)
    as (d2 & d3 & a' & -> & E3 & F' & Hn'); [eauto|done|]. run.
  unfold grown in E3 at 1. cbn [direct_blocks grown]. rewrite E3. run.
  rewrite (lseek_ok_open _ _ _ j fh _ i _ F' Hfh Ei Hn' Hs) by lia.
  cbn [grown file_size]. rewrite decide_True by (case_if; lia). run.
  do 3 eexists. split; [done|]. rewrite Hsrc. split.
  - eapply (write_bytes A _ _ _ i (offset fh) _ _ (free_count a1)); rewrite ?Nat2Z.id; [done|done|lia|].
    rewrite (rf_free _ _ _ F), (ex_free _ _ _ X). lia.
  - exists a'. rewrite Nat2Z.id.
    apply (refines_move _ _ a' j fh i _ (offset fh + k) F' Hfh Ei Hn' Hs). cbn [grown file_size]. case_if; lia.
Qed.

End refinement.
