(* ===== verification/Ssufs.v ===== *)
(** The SSU file system of project 6 as a whole: what its users can rely on,
    from formatting the disk through any sequence of calls, and the inputs on
    which it falls short of that. *)

From S2P Require Import Prelude Bytes SsufsDisk SsufsRep SsufsOps SsufsInv SsufsLoops SsufsRefine.

(** ** Formatting *)

(** The empty file system: 8 free inodes, 20 free handles, 30 free blocks. *)
Definition empty_afs : afs := AFs (replicate 8 None) (replicate 20 None) 30.

Lemma pwrite_append d bs : pwrite d (Z.of_nat (length d)) bs = d ++ bs.
Proof.
  unfold pwrite. rewrite Nat2Z.id, Nat.sub_diag. cbn [replicate]. rewrite app_nil_r, firstn_all.
  rewrite drop_ge by lia. by rewrite app_nil_r.
Qed.

Lemma pread_middle l1 x l2 : pread (l1 ++ x ++ l2) (Z.of_nat (length l1)) (Z.of_nat (length x)) = Ok x.
Proof.
  apply pread_Ok. rewrite !length_app. split_and!; [lia|lia|].
  rewrite !Nat2Z.id, drop_app_length, take_app_length. done.
Qed.

Lemma mjoin_replicate_split {A} (e : list A) i k :
  mjoin (replicate (i + S k) e) = mjoin (replicate i e) ++ e ++ mjoin (replicate k e).
Proof.
  induction i as [|i IH]; [done|]. cbn [Nat.add replicate].
  change (e ++ mjoin (replicate (i + S k) e) = (e ++ mjoin (replicate i e)) ++ e ++ mjoin (replicate k e)).
  by rewrite IH, app_assoc.
Qed.

Section format.
Context `{Garbage}.

Definition fresh_inode : inode_t :=
  Inode INODE_FREE (0 :: heap_name_tail) 0 (replicate MAX_FILE_SIZE (-1)).
Definition fresh_superblock : superblock_t :=
  Superblock ([115; 115; 117; 102; 115; 0] ++ literal_tail)
             (replicate NUM_INODES INODE_FREE) (replicate NUM_DATA_BLOCKS DATA_BLOCK_FREE).

Lemma fresh_inode_ok : ino_ok fresh_inode.
Proof.
  unfold ino_ok, fresh_inode. cbn [status name file_size direct_blocks length].
  rewrite length_heap_name_tail. unfold in_s32, INODE_FREE.
  split; [lia|]. split; [done|]. split; [lia|]. split; [done|]. apply Forall_replicate. lia.
Qed.

Lemma fresh_superblock_ok : sb_ok fresh_superblock.
Proof. unfold sb_ok. cbn [fresh_superblock sb_name inode_freelist datablock_freelist]. rewrite length_app, length_literal_tail. done. Qed.

Lemma length_fresh_inodes k : length (mjoin (replicate k (enc_inode fresh_inode))) = (32 * k)%nat.
Proof.
  rewrite (length_mjoin_uniform 32), length_replicate; [done|].
  apply Forall_replicate, length_enc_inode, fresh_inode_ok.
Qed.

Lemma format_inodes_append p k i :
  length p = 64%nat -> (i + k <= 8)%nat ->
  format_inodes k (Z.of_nat i) fresh_inode (p ++ mjoin (replicate i (enc_inode fresh_inode))) =
  Ok (p ++ mjoin (replicate (i + k) (enc_inode fresh_inode))).
Proof.
  intros Hp. revert i. induction k as [|k IH]; intros i Hi; cbn [format_inodes].
  - by rewrite Nat.add_0_r.
  - unfold ssufs_writeInode at 1, c_assert. rewrite (proj2 (Z.ltb_lt _ _)) by (unfold NUM_INODES; lia). run.
    set (d := p ++ _). assert (Hd : length d = (64 + 32 * i)%nat)
      by (unfold d; rewrite length_app, length_fresh_inodes; lia).
    replace (BLOCKSIZE + Z.of_nat i * 32) with (Z.of_nat (length d)) by (unfold BLOCKSIZE; lia).
    rewrite fwrite_at_Ok, pwrite_append by lia. run. replace (Z.of_nat i + 1) with (Z.of_nat (S i)) by lia.
    replace (d ++ enc_inode fresh_inode) with (p ++ mjoin (replicate (S i) (enc_inode fresh_inode))).
    + rewrite IH by lia. do 4 f_equal. lia.
    + unfold d. rewrite <- app_assoc. f_equal.
      pose proof (mjoin_replicate_split (enc_inode fresh_inode) i 0) as E.
      rewrite Nat.add_1_r in E. rewrite E. cbn. by rewrite app_nil_r.
Qed.

Lemma format_disk :
  exists t, ssufs_format = Ok (Fs ((enc_superblock fresh_superblock ++ t) ++ mjoin (replicate 8 (enc_inode fresh_inode)))
                               (replicate MAX_OPEN_FILES (Filehandle 0 (-1)))) /\ length t = 18%nat.
Proof.
  exists (stack_tail []). split; [|apply length_stack_tail].
  set (p := enc_superblock fresh_superblock ++ stack_tail []).
  assert (Hp : length p = 64%nat)
    by (unfold p; rewrite length_app, length_enc_superblock, length_stack_tail by apply fresh_superblock_ok; done).
  assert (Ew : ssufs_writeSuperBlock [] fresh_superblock = Ok p).
  { unfold ssufs_writeSuperBlock. rewrite fwrite_at_Ok by lia. by rewrite (pwrite_append []). }
  pose proof (format_inodes_append p 8 0 Hp ltac:(lia)) as E. change (Z.of_nat 0) with 0 in E.
  change (mjoin (replicate 0 _)) with (@nil Z) in E. rewrite app_nil_r in E.
  unfold ssufs_format, ssufs_formatDisk. fold fresh_superblock fresh_inode. rewrite Ew. run.
  unfold NUM_INODES. rewrite E. done.
Qed.

Lemma format_ok : exists s, ssufs_format = Ok s /\ refines s empty_afs.
Proof.
  destruct format_disk as (t & -> & Ht). eexists. split; [done|].
  pose proof fresh_superblock_ok as Hsb. pose proof fresh_inode_ok as Hin.
  pose proof (length_enc_superblock _ Hsb) as Lsb. pose proof (length_enc_inode _ Hin) as Lin.
  set (e := enc_inode fresh_inode) in *.
  exists (ADisk fresh_superblock (replicate 8 fresh_inode) ∅). split; try done.
  - split; [split; [done|]|done| |done].
    + exists t. pose proof (pread_middle [] (enc_superblock fresh_superblock ++ t) (mjoin (replicate 8 e))) as E.
      rewrite length_app, Lsb, Ht in E. exact E.
    + intros i n [-> Hi]%lookup_replicate. split; [done|]. unfold ino_at. cbn [disk].
      replace 8%nat with (i + S (7 - i))%nat by lia. rewrite mjoin_replicate_split, app_assoc.
      pose proof (pread_middle ((enc_superblock fresh_superblock ++ t) ++ mjoin (replicate i e)) e
        (mjoin (replicate (7 - i) e))) as E.
      rewrite Lin, !length_app, Lsb, Ht, length_fresh_inodes in E.
      etransitivity; [|exact E]. f_equal; lia.
  - split.
    + intros i n [-> Hi]%lookup_replicate.
      split; [by apply lookup_replicate_2|by left|done|cbn; lia|set_solver|constructor].
    + intros i j n m _ [-> _]%lookup_replicate [-> _]%lookup_replicate. change (blocks_of fresh_inode) with (@nil nat). set_solver.
    + intros i j n m [-> _]%lookup_replicate _ E. discriminate E.
  - intros j h [-> _]%lookup_replicate. done.
  - intros j i o [E _]%lookup_replicate. discriminate E.
Qed.

End format.

(** ** Sequences of calls *)

Section client.
Context `{Garbage}.

Lemma run_op_refines s A o :
  refines s A -> op_ok A o ->
  exists r out s' A', run_op s o = Ok (r, out, s') /\ op_spec A o r out A' /\ refines s' A'.
Proof.
  intros F Ho. destruct o as [nm rest|nm rest|nm rest|h|h k|h buf k|h k]; unfold run_op.
  - destruct (create_ok s A nm rest F Ho) as (r & s' & A' & -> & S & F'). run. by do 4 eexists.
  - destruct (delete_ok s A nm rest F Ho) as (s' & A' & -> & S & F'). run. by do 4 eexists.
  - destruct (open_ok s A nm rest F Ho) as (r & s' & A' & -> & S & F'). run. by do 4 eexists.
  - destruct (close_ok s A h F Ho) as (s' & A' & -> & S & F'). run. by do 4 eexists.
  - destruct (read_refines s A h k F Ho) as (r & out & s' & A' & -> & S & F'). by do 4 eexists.
  - destruct (write_refines s A h buf k F Ho) as (r & s' & A' & -> & S & F'). run. by do 4 eexists.
  - destruct (lseek_refines s A h k F Ho) as (r & s' & A' & -> & S & F'). run. by do 4 eexists.
Qed.

Fixpoint run_ops (s : fs) (os : list op) : res (list (Z * list Z) * fs) :=
  match os with
  | [] => Ok ([], s)
  | o :: os' =>
      '(r, out, s) ← run_op s o;
      '(rs, s) ← run_ops s os';
      Ok ((r, out) :: rs, s)
  end.

(** Every call of the sequence is allowed when its turn comes, whatever the
    earlier calls were permitted to answer. *)
Fixpoint permitted (A : afs) (os : list op) : Prop :=
  match os with
  | [] => True
  | o :: os' => op_ok A o /\ forall r out A', op_spec A o r out A' -> permitted A' os'
  end.

Inductive spec_trace : afs -> list op -> list (Z * list Z) -> afs -> Prop :=
| trace_nil A : spec_trace A [] [] A
| trace_cons A o r out A' os rs A'' : op_spec A o r out A' -> spec_trace A' os rs A'' ->
    spec_trace A (o :: os) ((r, out) :: rs) A''.

Lemma run_ops_refines s A os :
  refines s A -> permitted A os ->
  exists rs s' A', run_ops s os = Ok (rs, s') /\ spec_trace A os rs A' /\ refines s' A'.
Proof.
  revert s A. induction os as [|o os IH]; intros s A F Hp.
  - do 3 eexists. split_and!; [done|constructor|done].
  - destruct Hp as [Ho Hp]. destruct (run_op_refines s A o F Ho) as (r & out & s1 & A1 & E & S & F1).
    destruct (IH s1 A1 F1 (Hp _ _ _ S)) as (rs & s' & A' & E' & T & F').
    cbn [run_ops]. rewrite E. run. rewrite E'. run. do 3 eexists. split_and!; [done|by econstructor|done].
Qed.

End client.

(** A demonstration state: a formatted disk (all unassigned bytes zero) with
    one file "a", open on handle 0. *)
#[global] Instance garbage0 : Garbage := {|
  stack_tail := fun _ => replicate 18 0;
  literal_tail := replicate 2 0;
  heap_name_tail := replicate 7 0;
  length_stack_tail := fun _ => eq_refl;
  length_literal_tail := eq_refl;
  length_heap_name_tail := eq_refl
|}.

Definition demo_rest : list Z := replicate 7 0.

(** Formats and runs a sequence of calls. *)
Definition session (os : list op) : res (list (Z * list Z) * fs) :=
  s ← ssufs_format; run_ops s os.

Definition state_after (os : list op) : fs :=
  match session os with Ok (_, s) => s | Stuck _ => Fs [] [] end.

Definition demo_ops : list op := [Create [97] demo_rest; Open [97] demo_rest].
Definition demo_afs : afs :=
  AFs (Some ([97], []) :: replicate 7 None) (Some (0%nat, 0) :: replicate 19 None) 30.

Lemma demo_name : valid_name [97] demo_rest.
Proof. split; [set_solver|]. cbn. lia. Qed.

Lemma no_file_empty nm i : ~ has_file empty_afs nm i.
Proof. intros [c Hc]. apply (lookup_replicate 8) in Hc as [E _]. discriminate E. Qed.

Lemma demo_create r out A :
  op_spec empty_afs (Create [97] demo_rest) r out A ->
  A = AFs (Some ([97], []) :: replicate 7 None) (replicate 20 None) 30.
Proof.
  inversion 1 as [? ? i Hi|? ? _ Hfull|? ? i _ Hi Hmin| | | | | | | | | | | | | | |]; subst.
  - by destruct (no_file_empty _ _ Hi).
  - destruct Hfull. cbn. set_solver.
  - destruct i as [|i]; [done|]. by destruct (Hmin 0%nat); [lia|].
Qed.

Lemma demo_open r out A :
  op_spec (AFs (Some ([97], []) :: replicate 7 None) (replicate 20 None) 30) (Open [97] demo_rest) r out A ->
  A = demo_afs.
Proof.
  inversion 1 as [| | | | |? ? Hno|? ? Hfull|? ? i h Hi Hh Hmin| | | | | | | | | |]; subst.
  - destruct (Hno 0%nat). by exists [].
  - destruct Hfull. cbn. set_solver.
  - destruct h as [|h]; [|by destruct (Hmin 0%nat); [lia|]].
    assert (i = 0%nat) as ->; [|done]. destruct Hi as [c Hc]. destruct i as [|i]; [done|].
    cbn in Hc. apply (lookup_replicate 7) in Hc as [E _]. discriminate E.
Qed.

Lemma demo_permitted : permitted empty_afs demo_ops.
Proof.
  split; [apply demo_name|]. intros r out A HA. rewrite (demo_create r out A HA).
  split; [apply demo_name|done].
Qed.

Lemma demo_refines : refines (state_after demo_ops) demo_afs.
Proof.
  destruct format_ok as (s & Es & F).
  destruct (run_ops_refines s empty_afs demo_ops F demo_permitted) as (rs & s' & A & E & T & F').
  unfold state_after, session. rewrite Es. run. rewrite E.
  inversion T as [|? ? ? ? ? ? ? ? S1 T1]; subst. apply demo_create in S1 as ->.
  inversion T1 as [|? ? ? ? ? ? ? ? S2 T2]; subst. apply demo_open in S2 as ->.
  inversion T2; subst. done.
Qed.

(** ** Calls whose answer is determined *)

Section steps.
Context `{Garbage}.

Lemma lseek_step s A h k i o nm c :
  refines s A -> op_ok A (Lseek h k) -> handles A !! Z.to_nat h = Some (Some (i, o)) ->
  files A !! i = Some (Some (nm, c)) -> 0 <= o + k <= Z.of_nat (length c) ->
  exists s', ssufs_lseek s h k = Ok (0, s') /\
    refines s' (AFs (files A) (<[Z.to_nat h := Some (i, o + k)]> (handles A)) (afree A)).
Proof.
  intros F Hok Ha Hf Hr. destruct (lseek_refines s A h k F Hok) as (r & s' & A' & E & S & F').
  inversion S as [| | | | | | | | | | | | | | | |? ? i' o' nm' c' Ha' Hf' Hr'|? ? i' o' nm' c' Ha' Hf' Hr']; subst.
  - exists s'. assert (i' = i /\ o' = o) as [-> ->] by naive_solver. done.
  - destruct Hr'. assert (i' = i /\ o' = o) as [-> ->] by naive_solver.
    assert (c' = c) as -> by congruence. done.
Qed.

Lemma read_step s A h k i o nm c :
  refines s A -> op_ok A (Read h k) -> handles A !! Z.to_nat h = Some (Some (i, o)) ->
  files A !! i = Some (Some (nm, c)) -> o + k <= Z.of_nat (length c) ->
  exists s', ssufs_read s h k = Ok (0, take (Z.to_nat k) (drop (Z.to_nat o) c), s').
Proof.
  intros F Hok Ha Hf Hr. destruct (read_refines s A h k F Hok) as (r & out & s' & A' & E & S & F').
  inversion S as [| | | | | | | | |? ? Ha'|? ? i' o' nm' c' Ha' Hf' Hr'|? ? i' o' nm' c' Ha' Hf' Hr'| | | | | |]; subst.
  - congruence.
  - assert (i' = i /\ o' = o) as [-> ->] by naive_solver. assert (c' = c) as -> by congruence. lia.
  - assert (i' = i /\ o' = o) as [-> ->] by naive_solver. assert (c' = c) as -> by congruence. eauto.
Qed.

(** A successful write. *)
Lemma write_step s A h buf n s1 :
  refines s A -> op_ok A (Write h buf n) -> ssufs_write s h buf n = Ok (0, s1) ->
  exists i o nm c f, handles A !! Z.to_nat h = Some (Some (i, o)) /\ files A !! i = Some (Some (nm, c)) /\
    0 <= o <= Z.of_nat (length c) /\ o + n <= 256 /\
    refines s1 (AFs (<[i := Some (nm, overwrite c (Z.to_nat o) (take (Z.to_nat n) buf))]> (files A))
                    (<[Z.to_nat h := Some (i, o + n)]> (handles A)) f).
Proof.
  intros F Hok Ew. destruct (write_refines s A h buf n F Hok) as (r & s1' & A1 & E & S & F1).
  rewrite Ew in E. injection E as <- <-.
  inversion S as [| | | | | | | | | | | | | | |? ? ? i o nm c f Ha Hf Ho Hfree| |]; subst.
  exists i, o, nm, c, f. destruct F as [a F]. destruct (rf_open _ _ _ F _ _ _ Ha) as (nm' & c' & Hc' & Hoc).
  assert (c' = c) as -> by congruence. done.
Qed.

End steps.

(** The written bytes are found at their offset. *)
Lemma overwrite_read (c bs : list Z) o :
  (o <= length c)%nat -> take (length bs) (drop o (overwrite c o bs)) = bs.
Proof.
  intros Ho. unfold overwrite. rewrite drop_app_length' by (rewrite length_take; lia).
  apply take_app_length.
Qed.

(** ** What a user relies on *)

(** C1: A call of the file system on a disk in the invariant that keeps the
    rules of [op_ok] terminates without an assertion failure or an access out of
    bounds, and does exactly what the abstract file system promises.  The rules:
    names have at most seven characters (one of eight is lost, see
    [ssufs_name8_lost]); a file that is deleted is open on at most one handle (a
    second one goes stale, see [ssufs_delete_stale_handle]); a seek is made on an
    open handle (see [ssufs_lseek_closed]); handles are in their table, counts
    and offsets below 2^30 in size, and a buffer holds the bytes to be written.
    The promise: create takes the first free inode
    unless the name exists, delete removes the file, its handle and reclaims
    its blocks, open takes the first free handle at offset 0, read returns the
    bytes at the offset and advances it, write overwrites the bytes at the
    offset (and only of that file), seek moves inside the file. *)
Theorem ssufs_simulation `{Garbage} s A o :
  refines s A -> op_ok A o ->
  exists r out s' A', run_op s o = Ok (r, out, s') /\ op_spec A o r out A' /\ refines s' A'.
Proof. apply run_op_refines. Qed.

Lemma ssufs_simulation_witness :
  exists r out s' A', run_op (state_after demo_ops) (Write 0 [1; 2; 3] 3) = Ok (r, out, s') /\
    op_spec demo_afs (Write 0 [1; 2; 3] 3) r out A' /\ refines s' A'.
Proof. apply ssufs_simulation; [apply demo_refines|cbn; lia]. Defined.

(** From formatting on, every sequence of allowed calls runs to its end,
    its answers are those of the abstract file system started empty, and the
    invariant holds at the end; in particular no call ever fails one of the
    file system's own assertions. *)
Theorem ssufs_client_runs `{Garbage} os :
  permitted empty_afs os ->
  exists s rs s' A', ssufs_format = Ok s /\ run_ops s os = Ok (rs, s') /\
    spec_trace empty_afs os rs A' /\ refines s' A'.
Proof.
  intros Hp. destruct format_ok as (s & E & F).
  destruct (run_ops_refines s _ os F Hp) as (rs & s' & A' & ? & ? & ?). by exists s, rs, s', A'.
Qed.

Lemma ssufs_client_runs_witness :
  exists s rs s' A', ssufs_format = Ok s /\ run_ops s demo_ops = Ok (rs, s') /\
    spec_trace empty_afs demo_ops rs A' /\ refines s' A'.
Proof. apply ssufs_client_runs. apply demo_permitted. Defined.

(** Bytes that [ssufs_write] accepted are read back unchanged after seeking
    back over them. *)
Theorem ssufs_write_read_back `{Garbage} s A h buf n s1 :
  refines s A -> op_ok A (Write h buf n) -> ssufs_write s h buf n = Ok (0, s1) ->
  exists s2 s3, ssufs_lseek s1 h (- n) = Ok (0, s2) /\
    ssufs_read s2 h n = Ok (0, take (Z.to_nat n) buf, s3).
Proof.
  intros F Hok Ew. destruct (write_step s A h buf n s1 F Hok Ew) as (i & o & nm & c & f & Ha & Hf & Ho & Hfit & F1).
  destruct Hok as (Hh & Hn & Hb). set (bs := take (Z.to_nat n) buf) in *.
  assert (Hbs : length bs = Z.to_nat n) by (unfold bs; rewrite length_take; lia).
  assert (Hlen : o + n <= Z.of_nat (length (overwrite c (Z.to_nat o) bs)))
    by (unfold overwrite; rewrite !length_app, length_take, length_drop; lia).
  match type of F1 with refines _ ?x => set (A1 := x) in * end.
  assert (Hf1 : files A1 !! i = Some (Some (nm, overwrite c (Z.to_nat o) bs)))
    by (apply list_lookup_insert_eq; eauto with ssu).
  assert (Hh1 : handles A1 !! Z.to_nat h = Some (Some (i, o + n)))
    by (apply list_lookup_insert_eq; eauto with ssu).
  destruct (lseek_step s1 A1 h (- n) i (o + n) nm (overwrite c (Z.to_nat o) bs) F1) as (s2 & E2 & F2); [|done|done|lia|].
  { split; [done|]. split; [lia|]. by rewrite Hh1. }
  destruct (read_step s2 _ h n i o nm (overwrite c (Z.to_nat o) bs) F2) as (s3 & E3); [cbn; lia| |done|lia|].
  { cbn [handles]. rewrite list_lookup_insert_eq by eauto with ssu. do 3 f_equal. lia. }
  exists s2, s3. split; [done|]. rewrite E3, <- Hbs, overwrite_read by lia. done.
Qed.

Lemma ssufs_write_read_back_witness :
  exists s1 s2 s3, ssufs_write (state_after demo_ops) 0 [104; 105] 2 = Ok (0, s1) /\
    ssufs_lseek s1 0 (-2) = Ok (0, s2) /\ ssufs_read s2 0 2 = Ok (0, [104; 105], s3).
Proof.
  destruct (ssufs_write (state_after demo_ops) 0 [104; 105] 2) as [[r s1]|] eqn:E; [|vm_compute in E; discriminate E].
  assert (r = 0) as -> by (vm_compute in E; congruence).
  destruct (ssufs_write_read_back (state_after demo_ops) demo_afs 0 [104; 105] 2 s1) as (s2 & s3 & E2 & E3);
    [apply demo_refines|cbn; lia|exact E|]. exists s1, s2, s3.
  split; [reflexivity|]. split; [exact E2|exact E3].
Defined.

(** A write through an open handle succeeds whenever the end of the written
    range stays within the 256 bytes a file can have and the disk has enough
    free blocks for the whole range. *)
Theorem ssufs_write_succeeds `{Garbage} s A h buf n i o :
  refines s A -> op_ok A (Write h buf n) -> handles A !! Z.to_nat h = Some (Some (i, o)) ->
  o + n <= 256 -> Z.max 1 (o + n) <= 64 * Z.of_nat (afree A) ->
  exists s', ssufs_write s h buf n = Ok (0, s').
Proof.
  intros F Hok Ha Hfit Hfree. destruct (write_refines s A h buf n F Hok) as (r & s' & A' & E & S & F').
  inversion S as [| | | | | | | | | | | |? ? ? Ha'|? ? ? i' o' Ha' Hl|? ? ? i' o' Ha' _ Hl|? ? ? i' o' ? ? ? Ha'| |]; subst;
    rewrite Ha in Ha'; simplify_eq; [lia|lia|eauto].
Qed.

Lemma ssufs_write_succeeds_witness :
  exists s', ssufs_write (state_after demo_ops) 0 (replicate 256 7) 256 = Ok (0, s').
Proof.
  apply (ssufs_write_succeeds _ demo_afs 0 (replicate 256 7) 256 0 0);
    [apply demo_refines|cbn; lia|reflexivity|lia|cbn; lia].
Defined.

(** After [ssufs_delete] the name is gone: opening it fails, and creating it
    again succeeds. *)
Theorem ssufs_delete_removes `{Garbage} s A nm rest i :
  refines s A -> op_ok A (Delete nm rest) -> has_file A nm i ->
  exists s1 r s2, ssufs_delete s (nm ++ 0 :: rest) = Ok s1 /\
    ssufs_open s1 (nm ++ 0 :: rest) = Ok (-1, s1) /\
    ssufs_create s1 (nm ++ 0 :: rest) = Ok (r, s2) /\ 0 <= r.
Proof.
  intros F Hok Hi. destruct (delete_ok s A nm rest F Hok) as (s1 & A1 & E1 & S & F1).
  destruct Hok as [Hnm _].
  inversion S as [| | |? ? Hno|? ? i' c f Hc Hf| | | | | | | | | | | | |]; subst; [by destruct (Hno i)|].
  pose proof F as [a Fa]. pose proof F1 as [a1 Fa1].
  assert (Hil : (i' < length (files A))%nat) by eauto with ssu.
  assert (Huniq : forall j, ~ has_file (AFs (<[i':=None]> (files A)) (close_all i' (handles A)) f) nm j).
  { intros j [c' Hc']. cbn in Hc'. apply list_lookup_insert_Some in Hc' as [(_ & E & _)|[Hne Hc']]; [discriminate E|].
    rewrite (rf_files _ _ _ Fa) in Hc, Hc'. apply view_Some in Hc as (n & ? & ? & E & _).
    apply view_Some in Hc' as (n' & ? & ? & E' & _). apply Hne.
    by eapply (wf_names _ (rf_wf _ _ _ Fa) i' j n n'); [..|congruence]. }
  destruct (create_ok s1 _ nm rest F1 Hnm) as (r & s2 & A2 & E2 & S2 & _).
  exists s1, r, s2. split; [done|]. split.
  - destruct (open_namei_refines s1 _ a1 nm rest Fa1 Hnm) as (r1 & Er & Hr1).
    unfold ssufs_open, ssufs_allocFileHandle. rewrite Er. run.
    destruct (handle_index_spec _ (-1) _ (rf_nhandles _ _ _ Fa1)) as (k & -> & _). run.
    destruct Hr1 as [j Hj|_]; [by destruct (Huniq j)|done].
  - split; [done|]. inversion S2 as [? ? j Hj|? ? _ Hfull|? ? j| | | | | | | | | | | | | | |]; subst; [| |lia].
    + by destruct (Huniq j).
    + destruct Hfull. cbn. eapply list_elem_of_lookup_2. by apply list_lookup_insert_eq.
Qed.

Lemma ssufs_delete_removes_witness :
  exists s1 r s2, ssufs_delete (state_after demo_ops) ([97] ++ 0 :: demo_rest) = Ok s1 /\
    ssufs_open s1 ([97] ++ 0 :: demo_rest) = Ok (-1, s1) /\
    ssufs_create s1 ([97] ++ 0 :: demo_rest) = Ok (r, s2) /\ 0 <= r.
Proof.
  apply (ssufs_delete_removes _ demo_afs [97] demo_rest 0); [apply demo_refines| |by exists []].
  split; [apply demo_name|]. intros i j1 j2 o1 o2 _ H1 H2.
  assert (Hz : forall j o, handles demo_afs !! j = Some (Some (i, o)) -> j = 0%nat).
  { intros [|j] o Hj; [done|]. apply (lookup_replicate 19) in Hj as [E _]. discriminate E. }
  by rewrite (Hz j1 o1 H1), (Hz j2 o2 H2).
Defined.

(** ** Where it falls short *)

(** The answers of a session. *)
Definition answers (r : res (list (Z * list Z) * fs)) : res (list (Z * list Z)) :=
  '(l, _) ← r; Ok l.

Definition name8 : list Z := [97; 98; 99; 100; 101; 102; 103; 104].

(** A file whose name has the full 8 characters that [MAX_NAME_STRLEN]
    allows is lost by the first write to it: its name has no NUL in the inode,
    so [strcmp] reads on into the size; the name cannot be opened any more, and
    creating it again makes a second file of that name. *)
Theorem ssufs_name8_lost :
  answers (session [Create name8 [0]; Open name8 [0]; Write 0 [1] 1; Open name8 [0]; Create name8 [0]]) =
  Ok [(0, []); (0, []); (0, []); (-1, []); (1, [])].
Proof. vm_compute. reflexivity. Qed.

(** [ssufs_delete] closes only the first handle on the file.  A second
    handle keeps its inode, which a new file takes over: a write through the
    stale handle of the deleted file "a" ends up in the new file "b". *)
Theorem ssufs_delete_stale_handle :
  answers (session [Create [97] demo_rest; Open [97] demo_rest; Open [97] demo_rest;
                   Delete [97] demo_rest; Create [98] demo_rest; Write 1 [7; 8] 2;
                   Open [98] demo_rest; Read 0 2]) =
  Ok [(0, []); (0, []); (1, []); (0, []); (0, []); (0, []); (0, []); (0, [7; 8])].
Proof. vm_compute. reflexivity. Qed.

Definition fill_ops : list op :=
  mjoin ((fun i => [Create [Z.of_nat i + 97] demo_rest; Open [Z.of_nat i + 97] demo_rest;
                    Write (Z.of_nat i) (replicate 256 1) 256]) <$> seq 0 7)
  ++ [Create [110] demo_rest; Open [110] demo_rest].

Definition last_answers (k : nat) (r : res (list (Z * list Z) * fs)) : res (list (Z * list Z)) :=
  '(l, _) ← r; Ok (drop (length l - k) l).

(** A write that does not find enough free blocks reports -1 but keeps the
    blocks it had already taken marked as used without giving them to the file:
    with two blocks left, a write of 64 bytes succeeds, but not after a failed
    write of 256 bytes. *)
Theorem ssufs_failed_write_leaks :
  last_answers 1 (session (fill_ops ++ [Write 7 (replicate 64 1) 64])) = Ok [(0, [])] /\
  last_answers 2 (session (fill_ops ++ [Write 7 (replicate 256 1) 256; Write 7 (replicate 64 1) 64])) =
  Ok [(-1, []); (-1, [])].
Proof. vm_compute. done. Qed.

(** [ssufs_lseek] does not check that the handle is open: on a closed handle
    it reads "inode -1", that is the end of the superblock, takes two entries of
    the block list for a file size and moves the offset; the next open of that
    handle then starts at that offset instead of 0. *)
Theorem ssufs_lseek_closed :
  file_handle_array (state_after [Create [97] demo_rest; Lseek 0 5; Open [97] demo_rest]) !! 0%nat =
  Some (Filehandle 5 0).
Proof. vm_compute. reflexivity. Qed.
