(* ===== verification/Xv6String.v ===== *)
(** The string library of the xv6 kernel (string.c) and the string functions of
    its user library (ulib.c).

    [memset] and [memmove] work on a flat memory addressed by integers, since
    alignment and overlap matter to them.  The other functions work on the
    memory at their pointer arguments: a list of bytes that ends where the
    object ends. *)

From S2P Require Import Prelude Bytes.

(** ** Memory blocks *)

(** [rep stosb]: [n] bytes. *)
Fixpoint stosb (m : list Z) (a : Z) (c : Z) (n : nat) : res (list Z) :=
  match n with
  | O => Ok m
  | S n' => m ← aset m a (c mod 256); stosb m (a + 1) c n'
  end.

(** [rep stosl]: [n] little-endian words. *)
Fixpoint stosl (m : list Z) (a : Z) (w : Z) (n : nat) : res (list Z) :=
  match n with
  | O => Ok m
  | S n' =>
      m ← aset m a (w mod 256);
      m ← aset m (a + 1) (w / 256 mod 256);
      m ← aset m (a + 2) (w / 65536 mod 256);
      m ← aset m (a + 3) (w / 16777216 mod 256);
      stosl m (a + 4) w n'
  end.

Module Kernel.

Definition memset (m : list Z) (dst c n : Z) : res (list Z) :=
  if (Z.rem dst 4 =? 0) && (n mod 4 =? 0) then
    let c := Z.land c 255 in
    stosl m dst (Z.lor (Z.lor (Z.lor (Z.shiftl c 24) (Z.shiftl c 16)) (Z.shiftl c 8)) c)
      (Z.to_nat (n / 4))
  else stosb m dst c (Z.to_nat n).

(** [while(n-- > 0) *d++ = *s++;] *)
Fixpoint copy_up (m : list Z) (d s : Z) (n : nat) : res (list Z) :=
  match n with
  | O => Ok m
  | S n' => c ← aget m s; m ← aset m d c; copy_up m (d + 1) (s + 1) n'
  end.

(** [while(n-- > 0) *--d = *--s;] *)
Fixpoint copy_down (m : list Z) (d s : Z) (n : nat) : res (list Z) :=
  match n with
  | O => Ok m
  | S n' => c ← aget m (s - 1); m ← aset m (d - 1) c; copy_down m (d - 1) (s - 1) n'
  end.

Definition memmove (m : list Z) (dst src n : Z) : res (list Z) :=
  if (src <? dst) && (dst <? src + n)
  then copy_down m (dst + n) (src + n) (Z.to_nat n)
  else copy_up m dst src (Z.to_nat n).

Definition memcpy (m : list Z) (dst src n : Z) : res (list Z) := memmove m dst src n.

Fixpoint memcmp (s1 s2 : list Z) (n : nat) : res Z :=
  match n with
  | O => Ok 0
  | S n' =>
      match s1, s2 with
      | a :: s1', b :: s2' => if negb (a =? b) then Ok (a - b) else memcmp s1' s2' n'
      | _, _ => Stuck OutOfBounds
      end
  end.

(** ** Strings *)

Fixpoint strncmp (p q : list Z) (n : nat) : res Z :=
  match n with
  | O => Ok 0
  | S n' =>
      match p, q with
      | a :: p', b :: q' => if negb (a =? 0) && (a =? b) then strncmp p' q' n' else Ok (a - b)
      | _, _ => Stuck OutOfBounds
      end
  end.

(** [while(n-- > 0) *s++ = 0;] *)
Fixpoint zero_fill (s : list Z) (n : nat) : res (list Z) :=
  match n with
  | O => Ok s
  | S n' => match s with _ :: s' => r ← zero_fill s' n'; Ok (0 :: r) | [] => Stuck OutOfBounds end
  end.

(** The new contents of the destination [s]. *)
Fixpoint strncpy (s t : list Z) (n : nat) : res (list Z) :=
  match n with
  | O => Ok s
  | S n' =>
      match s, t with
      | _ :: s', c :: t' =>
          if c =? 0 then r ← zero_fill s' n'; Ok (0 :: r)
          else r ← strncpy s' t' n'; Ok (c :: r)
      | _, _ => Stuck OutOfBounds
      end
  end.

(** [*s = 0;] *)
Definition terminate (s : list Z) : res (list Z) :=
  match s with _ :: s' => Ok (0 :: s') | [] => Stuck OutOfBounds end.

(** The loop of [safestrcpy] entered with [--n] equal to [n], then the final
    store; a NUL in the source is copied before the pointer stops behind it. *)
Fixpoint safe_copy (s t : list Z) (n : nat) : res (list Z) :=
  match n with
  | O => terminate s
  | S n' =>
      match s, t with
      | _ :: s', c :: t' =>
          if c =? 0 then r ← terminate s'; Ok (0 :: r)
          else r ← safe_copy s' t' n'; Ok (c :: r)
      | _, _ => Stuck OutOfBounds
      end
  end.

Definition safestrcpy (s t : list Z) (n : Z) : res (list Z) :=
  if n <=? 0 then Ok s else safe_copy s t (Z.to_nat (n - 1)).

(** [strlen] is that of Bytes.v. *)

End Kernel.

(** ** The user library *)

Module User.

Fixpoint strcpy (s t : list Z) : res (list Z) :=
  match s, t with
  | _ :: s', c :: t' => if c =? 0 then Ok (0 :: s') else r ← strcpy s' t'; Ok (c :: r)
  | _, _ => Stuck OutOfBounds
  end.

Fixpoint strcmp (p q : list Z) : res Z :=
  match p, q with
  | a :: p', b :: q' => if negb (a =? 0) && (a =? b) then strcmp p' q' else Ok (a - b)
  | _, _ => Stuck OutOfBounds
  end.

(** The offset of the first [c], or [None] for the null pointer. *)
Fixpoint strchr (s : list Z) (c : Z) : res (option nat) :=
  match s with
  | [] => Stuck OutOfBounds
  | x :: s' =>
      if x =? 0 then Ok None
      else if x =? c then Ok (Some 0%nat)
      else r ← strchr s' c; Ok (option_map S r)
  end.

Definition memset (m : list Z) (dst c n : Z) : res (list Z) := stosb m dst c (Z.to_nat n).

(** Copies upwards whatever the overlap. *)
Definition memmove (m : list Z) (vdst vsrc n : Z) : res (list Z) :=
  Kernel.copy_up m vdst vsrc (Z.to_nat n).

(** The digits at [s], with the value so far; an overflow is undefined. *)
Fixpoint atoi_loop (s : list Z) (n : Z) : res Z :=
  match s with
  | [] => Stuck OutOfBounds
  | c :: s' =>
      if (48 <=? c) && (c <=? 57) then
        n10 ← c_int (n * 10); n1 ← c_int (n10 + c); n2 ← c_int (n1 - 48); atoi_loop s' n2
      else Ok n
  end.

Definition atoi (s : list Z) : res Z := atoi_loop s 0.

(** [gets]: [input] is what [read(0, ...)] delivers, byte by byte, and ends at
    end of file; [i] bytes are in the buffer.  The new buffer and the rest of
    the input. *)
Fixpoint gets_loop (buf : list Z) (i : Z) (max : Z) (input : list Z) : res (list Z * list Z) :=
  if i + 1 <? max then
    match input with
    | [] => buf ← aset buf i 0; Ok (buf, [])
    | c :: input' =>
        buf ← aset buf i c;
        if (c =? 10) || (c =? 13) then buf ← aset buf (i + 1) 0; Ok (buf, input')
        else gets_loop buf (i + 1) max input'
    end
  else buf ← aset buf i 0; Ok (buf, input).

Definition gets (buf : list Z) (max : Z) (input : list Z) : res (list Z * list Z) :=
  gets_loop buf 0 max input.

End User.

(** ** Lemmas *)

(** Result of an operation that stores [f i] in the cells [[d, d + n)]. *)
Definition stored (m m' : list Z) (d n : nat) (f : nat -> option Z) : Prop :=
  length m' = length m /\
  forall i, m' !! i = if decide (d <= i < d + n)%nat then f i else m !! i.

Lemma stosb_spec m a c n :
  (a + n <= length m)%nat ->
  exists m', stosb m (Z.of_nat a) c n = Ok m' /\ stored m m' a n (fun _ => Some (c mod 256)).
Proof.
  revert m a. induction n as [|n IH]; intros m a Hl; cbn [stosb].
  - exists m. split; [done|]. split; [done|]. intros i. by rewrite decide_False by lia.
  - rewrite aset_nat by lia. run. replace (Z.of_nat a + 1) with (Z.of_nat (S a)) by lia.
    destruct (IH (<[a := c mod 256]> m) (S a)) as (m' & -> & Hlen & Hm'); [rewrite length_insert; lia|].
    exists m'. split; [done|]. split; [by rewrite Hlen, length_insert|]. intros i. rewrite Hm'.
    destruct (decide (i = a)) as [->|Hne].
    + rewrite decide_False, decide_True by lia. apply list_lookup_insert_eq. lia.
    + rewrite list_lookup_insert_ne by done. repeat destruct (decide _); done || lia.
Qed.

(** The word of four equal bytes. *)
Lemma word_of_bytes c :
  0 <= c < 256 ->
  let w := Z.lor (Z.lor (Z.lor (Z.shiftl c 24) (Z.shiftl c 16)) (Z.shiftl c 8)) c in
  w mod 256 = c /\ w / 256 mod 256 = c /\ w / 65536 mod 256 = c /\ w / 16777216 mod 256 = c.
Proof.
  intros Hc. set (ok := fun c : Z =>
    let w := Z.lor (Z.lor (Z.lor (Z.shiftl c 24) (Z.shiftl c 16)) (Z.shiftl c 8)) c in
    (w mod 256 =? c) && (w / 256 mod 256 =? c) && (w / 65536 mod 256 =? c) && (w / 16777216 mod 256 =? c)).
  assert (Hall : forallb ok (Z.of_nat <$> seq 0 256) = true) by (vm_compute; done).
  rewrite forallb_forall in Hall. specialize (Hall c). unfold ok in Hall.
  assert (Hin : In c (Z.of_nat <$> seq 0 256)).
  { apply list_elem_of_In, list_elem_of_fmap. exists (Z.to_nat c). split; [lia|]. apply elem_of_seq. lia. }
  specialize (Hall Hin). zbool. done.
Qed.

Lemma stosl_stosb m a w c n :
  w mod 256 = c -> w / 256 mod 256 = c -> w / 65536 mod 256 = c -> w / 16777216 mod 256 = c ->
  c mod 256 = c -> stosl m a w n = stosb m a c (4 * n).
Proof.
  intros H0 H1 H2 H3 Hc. revert m a. induction n as [|n IH]; intros m a; [done|].
  replace (4 * S n)%nat with (S (S (S (S (4 * n))))) by lia. cbn [stosl stosb]. rewrite H0, H1, H2, H3, Hc.
  replace (a + 1 + 1) with (a + 2) by lia. replace (a + 2 + 1) with (a + 3) by lia.
  replace (a + 3 + 1) with (a + 4) by lia.
  destruct (aset m a c) as [m1|]; run; [|done]. destruct (aset m1 (a + 1) c) as [m2|]; run; [|done].
  destruct (aset m2 (a + 2) c) as [m3|]; run; [|done]. destruct (aset m3 (a + 3) c); run; [apply IH|done].
Qed.

Lemma copy_up_spec m d s n :
  (d + n <= length m)%nat -> (s + n <= length m)%nat -> (d <= s \/ s + n <= d)%nat ->
  exists m', Kernel.copy_up m (Z.of_nat d) (Z.of_nat s) n = Ok m' /\
    stored m m' d n (fun i => m !! (s + (i - d))%nat).
Proof.
  revert m d s. induction n as [|n IH]; intros m d s Hd Hs Hov; cbn [Kernel.copy_up].
  - exists m. split; [done|]. split; [done|]. intros i. by rewrite decide_False by lia.
  - destruct (lookup_lt_is_Some_2 m s) as [c Hc]; [lia|]. rewrite (aget_nat _ _ _ Hc). run.
    rewrite aset_nat by lia. run.
    replace (Z.of_nat d + 1) with (Z.of_nat (S d)) by lia. replace (Z.of_nat s + 1) with (Z.of_nat (S s)) by lia.
    destruct (IH (<[d := c]> m) (S d) (S s)) as (m' & -> & Hlen & Hm'); [rewrite length_insert; lia..|lia|].
    exists m'. split; [done|]. split; [by rewrite Hlen, length_insert|]. intros i. rewrite Hm'.
    destruct (decide (i = d)) as [->|Hne].
    + rewrite decide_False, decide_True, list_lookup_insert_eq, <- Hc by lia. f_equal. lia.
    + destruct (decide (S d <= i < S d + n)%nat).
      * rewrite decide_True, list_lookup_insert_ne by lia. f_equal. lia.
      * rewrite decide_False, list_lookup_insert_ne by lia. done.
Qed.

Lemma copy_down_spec m d s n :
  (d + n <= length m)%nat -> (s + n <= length m)%nat -> (s <= d)%nat ->
  exists m', Kernel.copy_down m (Z.of_nat (d + n)) (Z.of_nat (s + n)) n = Ok m' /\
    stored m m' d n (fun i => m !! (s + (i - d))%nat).
Proof.
  revert m. induction n as [|n IH]; intros m Hd Hs Hov; cbn [Kernel.copy_down].
  - exists m. split; [done|]. split; [done|]. intros i. by rewrite decide_False by lia.
  - destruct (lookup_lt_is_Some_2 m (s + n)) as [c Hc]; [lia|].
    replace (Z.of_nat (s + S n) - 1) with (Z.of_nat (s + n)) by lia.
    replace (Z.of_nat (d + S n) - 1) with (Z.of_nat (d + n)) by lia.
    rewrite (aget_nat _ _ _ Hc). run. rewrite aset_nat by lia. run.
    destruct (IH (<[(d + n)%nat := c]> m)) as (m' & -> & Hlen & Hm'); [rewrite length_insert; lia..|lia|].
    exists m'. split; [done|]. split; [by rewrite Hlen, length_insert|]. intros i. rewrite Hm'.
    destruct (decide (d <= i < d + n)%nat).
    + rewrite decide_True, list_lookup_insert_ne by lia. done.
    + destruct (decide (i = d + n)%nat) as [->|Hne].
      * rewrite decide_True, list_lookup_insert_eq, <- Hc by lia. f_equal. lia.
      * rewrite decide_False, list_lookup_insert_ne by lia. done.
Qed.

(** [stored] determines the memory. *)
Lemma stored_splice m m' d bs :
  (d + length bs <= length m)%nat ->
  stored m m' d (length bs) (fun i => bs !! (i - d)%nat) ->
  m' = take d m ++ bs ++ drop (d + length bs) m.
Proof.
  intros Hl [_ Hm']. apply list_eq. intros i. rewrite Hm'.
  assert (Hd : length (take d m) = d) by (rewrite length_take; lia).
  destruct (decide (d <= i < d + length bs)%nat).
  - rewrite lookup_app_r by lia. rewrite Hd, lookup_app_l by lia. done.
  - destruct (decide (i < d)%nat).
    + rewrite lookup_app_l by lia. by rewrite lookup_take_lt.
    + rewrite lookup_app_r by lia. rewrite Hd, lookup_app_r by lia. rewrite lookup_drop. f_equal. lia.
Qed.

Lemma stored_ext m m' d n f g :
  (forall i, (d <= i < d + n)%nat -> f i = g i) -> stored m m' d n f -> stored m m' d n g.
Proof.
  intros E [Hl Hm]. split; [done|]. intros i. rewrite Hm. destruct (decide _); [by apply E|done].
Qed.

Lemma terminate_Ok s : s <> [] -> Kernel.terminate s = Ok (0 :: drop 1 s).
Proof. by destruct s. Qed.

(** ** Properties *)

(** The kernel's [memset] has one effect whether it takes the word-wise or
    the byte-wise path: it stores the low byte of [c] in the [n] bytes at [dst]
    and nowhere else. *)
Theorem memset_paths_agree m dst c n :
  0 <= dst -> 0 <= n -> dst + n <= Z.of_nat (length m) ->
  Kernel.memset m dst c n =
  Ok (take (Z.to_nat dst) m ++ replicate (Z.to_nat n) (c mod 256) ++ drop (Z.to_nat (dst + n)) m).
Proof.
  intros Hd Hn Hl. unfold Kernel.memset.
  set (r := Ok _). assert (Hb : stosb m dst c (Z.to_nat n) = r).
  { destruct (stosb_spec m (Z.to_nat dst) c (Z.to_nat n)) as (m' & E & Hs); [lia|].
    rewrite Z2Nat.id in E by done. rewrite E. unfold r. f_equal.
    rewrite (stored_splice m m' (Z.to_nat dst) (replicate (Z.to_nat n) (c mod 256))).
    - rewrite length_replicate. do 3 f_equal. lia.
    - rewrite length_replicate. lia.
    - rewrite length_replicate. eapply stored_ext; [|exact Hs]. intros i Hi. cbn.
      symmetry. apply lookup_replicate. split; [done|lia]. }
  destruct (_ && _) eqn:E; [|done]. zbool.
  assert (Hc : Z.land c 255 = c mod 256) by (change 255 with (Z.ones 8); by rewrite Z.land_ones).
  pose proof (Z.mod_pos_bound c 256 ltac:(lia)) as Hcb. rewrite Hc.
  destruct (word_of_bytes (c mod 256) Hcb) as (W0 & W1 & W2 & W3).
  rewrite (stosl_stosb m dst _ (c mod 256)) by (done || (by rewrite Z.mod_mod)).
  rewrite <- Hb. replace (4 * Z.to_nat (n / 4))%nat with (Z.to_nat n).
  - clear - Hcb. generalize (Z.to_nat n) as k. intros k. revert m dst.
    induction k as [|k IH]; intros m dst; [done|]. cbn [stosb]. rewrite Z.mod_mod by lia.
    destruct (aset m dst (c mod 256)); run; [apply IH|done].
  - pose proof (Z.div_mod n 4). lia.
Qed.

Lemma memset_paths_agree_witness :
  Kernel.memset [1; 2; 3; 4; 5; 6; 7; 8; 9] 4 511 4 = Ok [1; 2; 3; 4; 255; 255; 255; 255; 9] /\
  Kernel.memset [1; 2; 3; 4; 5; 6; 7; 8; 9] 3 (-1) 2 = Ok [1; 2; 3; 255; 255; 6; 7; 8; 9].
Proof.
  split; [apply (memset_paths_agree [1; 2; 3; 4; 5; 6; 7; 8; 9] 4 511 4); cbn; lia|].
  apply (memset_paths_agree [1; 2; 3; 4; 5; 6; 7; 8; 9] 3 (-1) 2); cbn; lia.
Defined.

(** The kernel's [memmove] copies correctly for every overlap of source and
    destination: the [n] bytes at [dst] become the bytes that were at [src]
    before the call, and nothing else changes. *)
Theorem memmove_any_overlap m dst src n :
  0 <= dst -> 0 <= src -> 0 <= n ->
  dst + n <= Z.of_nat (length m) -> src + n <= Z.of_nat (length m) ->
  Kernel.memmove m dst src n =
  Ok (take (Z.to_nat dst) m ++ take (Z.to_nat n) (drop (Z.to_nat src) m) ++ drop (Z.to_nat (dst + n)) m).
Proof.
  intros Hd Hs Hn Hld Hls. set (d := Z.to_nat dst). set (s := Z.to_nat src). set (k := Z.to_nat n).
  assert (Hlen : length (take k (drop s m)) = k) by (rewrite length_take, length_drop; lia).
  assert (Hfin : forall m', stored m m' d k (fun i => m !! (s + (i - d))%nat) ->
    m' = take d m ++ take k (drop s m) ++ drop (Z.to_nat (dst + n)) m).
  { intros m' Hst. rewrite (stored_splice m m' d (take k (drop s m))).
    - do 3 f_equal. lia.
    - lia.
    - rewrite Hlen. eapply stored_ext; [|exact Hst]. intros i Hi. cbn.
      rewrite lookup_take_lt by lia. by rewrite lookup_drop. }
  unfold Kernel.memmove. replace dst with (Z.of_nat d) by lia. replace src with (Z.of_nat s) by lia.
  replace n with (Z.of_nat k) by lia. rewrite !Nat2Z.id. destruct (_ && _) eqn:E; zbool.
  - destruct (copy_down_spec m d s k) as (m' & Em & Hst); [lia..|].
    rewrite !Nat2Z.inj_add in Em. rewrite Em. f_equal. rewrite (Hfin m' Hst). do 3 f_equal. lia.
  - destruct (copy_up_spec m d s k) as (m' & -> & Hst); [lia|lia| |].
    + apply andb_false_iff in E as [E|E]; zbool; lia.
    + f_equal. rewrite (Hfin m' Hst). do 3 f_equal. lia.
Qed.

Lemma memmove_any_overlap_witness :
  Kernel.memmove [1; 2; 3; 4; 5] 1 0 3 = Ok [1; 1; 2; 3; 5] /\
  Kernel.memmove [1; 2; 3; 4; 5] 0 1 3 = Ok [2; 3; 4; 4; 5].
Proof.
  split; [apply (memmove_any_overlap [1; 2; 3; 4; 5] 1 0 3); cbn; lia|].
  apply (memmove_any_overlap [1; 2; 3; 4; 5] 0 1 3); cbn; lia.
Defined.

(** [safestrcpy] into a buffer of at least [n] bytes always stores a
    NUL-terminated string of at most [n - 1] characters, the longest prefix of
    the source that fits, and keeps the size of the buffer. *)
Theorem safestrcpy_terminates s str r n :
  0 ∉ str -> 0 < n -> n <= Z.of_nat (length s) ->
  exists s' rest, Kernel.safestrcpy s (str ++ 0 :: r) n = Ok s' /\ length s' = length s /\
    s' = take (Z.to_nat (n - 1)) str ++ 0 :: rest.
Proof.
  intros H0 Hn Hl. unfold Kernel.safestrcpy. rewrite (proj2 (Z.leb_gt _ _)) by lia.
  assert (Hk : (Z.to_nat (n - 1) < length s)%nat) by lia. clear Hn Hl. generalize dependent (Z.to_nat (n - 1)).
  intros k. revert s k. induction str as [|c str IH]; intros s k Hk.
  - destruct k as [|k], s as [|x s]; cbn in *; try lia; [by do 2 eexists|].
    destruct s as [|y s]; cbn in *; [lia|]. by do 2 eexists.
  - destruct k as [|k], s as [|x s]; cbn [length] in Hk; try lia; [by do 2 eexists|].
    cbn [app Kernel.safe_copy]. rewrite (proj2 (Z.eqb_neq _ _)) by set_solver.
    destruct (IH ltac:(set_solver) s k ltac:(lia)) as (s' & rest & E & Hlen & ->). rewrite E. run.
    do 2 eexists. split; [done|]. split; [cbn; by rewrite <- Hlen|done].
Qed.

Lemma safestrcpy_terminates_witness :
  exists s' rest, Kernel.safestrcpy [9; 9; 9] ([104; 105; 106] ++ 0 :: []) 3 = Ok s' /\ length s' = 3%nat /\
    s' = [104; 105] ++ 0 :: rest.
Proof. apply (safestrcpy_terminates [9; 9; 9] [104; 105; 106] [] 3); [set_solver|lia|cbn; lia]. Defined.

(** The [memmove] of the user library, unlike the kernel's, is wrong when
    the destination overlaps the end of the source: moving three bytes up by
    one repeats the first byte. *)
Theorem user_memmove_overlap :
  User.memmove [1; 2; 3; 4; 5] 1 0 3 = Ok [1; 1; 1; 1; 5] /\
  Kernel.memmove [1; 2; 3; 4; 5] 1 0 3 = Ok [1; 1; 2; 3; 5].
Proof. vm_compute. done. Qed.
