(* ===== verification/Proc.v ===== *)
(** The process table of xv6 (proc.c, proc.h) with the additions of project 3:
    creating, ending and waiting for processes, sleeping and waking, the
    priority scheduler, and the calls that report on processes.

    The kernel runs on one CPU ([NCPU] is 1), so a critical section under
    [ptable.lock] is one transition of the table.  A [struct proc *] is the
    index of its slot.  The rest of the kernel (memory, files, inodes) is
    reached through the operations of the class [KernelOps], whose state is
    carried along. *)

From S2P Require Import Prelude Bytes Xv6String.

(** ** Data *)

Definition NPROC : nat := 64.
Definition NOFILE : nat := 16.
Definition PGSIZE : Z := 4096.

Inductive procstate := UNUSED | EMBRYO | SLEEPING | RUNNABLE | RUNNING | ZOMBIE.

#[global] Instance procstate_eq_dec : EqDecision procstate.
Proof. solve_decision. Defined.

Record context := Context_ { c_edi : Z; c_esi : Z; c_ebx : Z; c_ebp : Z; c_eip : Z }.

(** The registers of a trap frame that the kernel sets, and the others. *)
Record trapframe := Trapframe {
  t_eax : Z; t_es : Z; t_ds : Z; t_cs : Z; t_ss : Z;
  t_eflags : Z; t_esp : Z; t_eip : Z; t_others : list Z
}.

(** What a process sleeps on: nothing, the address of a process slot (only
    [wait] does that), or another kernel address. *)
Inductive channel := NoChan | ProcChan (p : nat) | AddrChan (a : Z).

#[global] Instance channel_eq_dec : EqDecision channel.
Proof. solve_decision. Defined.

(** [struct proc]; the trap frame and the context live in the kernel stack. *)
Record proc := Proc {
  sz : Z;
  pgdir : Z;
  kstack : Z;
  state : procstate;
  pid : Z;
  ppid : Z;
  parent : option nat;
  tf : trapframe;
  ctx : context;
  chan : channel;
  killed : Z;
  ofile : list Z;
  cwd : Z;
  name : list Z;
  nswitch : Z;
  priority : Z
}.

(** The zero-initialised slots of [ptable]. *)
Definition proc0 : proc :=
  Proc 0 0 0 UNUSED 0 0 None (Trapframe 0 0 0 0 0 0 0 0 (replicate 9 0)) (Context_ 0 0 0 0 0) NoChan 0
       (replicate NOFILE 0) 0 (replicate 16 0) 0 0.

(** Assignments to fields. *)
Definition set_sz v p := Proc v (pgdir p) (kstack p) (state p) (pid p) (ppid p) (parent p) (tf p) (ctx p) (chan p) (killed p) (ofile p) (cwd p) (name p) (nswitch p) (priority p).
Definition set_pgdir v p := Proc (sz p) v (kstack p) (state p) (pid p) (ppid p) (parent p) (tf p) (ctx p) (chan p) (killed p) (ofile p) (cwd p) (name p) (nswitch p) (priority p).
Definition set_kstack v p := Proc (sz p) (pgdir p) v (state p) (pid p) (ppid p) (parent p) (tf p) (ctx p) (chan p) (killed p) (ofile p) (cwd p) (name p) (nswitch p) (priority p).
Definition set_state v p := Proc (sz p) (pgdir p) (kstack p) v (pid p) (ppid p) (parent p) (tf p) (ctx p) (chan p) (killed p) (ofile p) (cwd p) (name p) (nswitch p) (priority p).
Definition set_pid v p := Proc (sz p) (pgdir p) (kstack p) (state p) v (ppid p) (parent p) (tf p) (ctx p) (chan p) (killed p) (ofile p) (cwd p) (name p) (nswitch p) (priority p).
Definition set_ppid v p := Proc (sz p) (pgdir p) (kstack p) (state p) (pid p) v (parent p) (tf p) (ctx p) (chan p) (killed p) (ofile p) (cwd p) (name p) (nswitch p) (priority p).
Definition set_parent v p := Proc (sz p) (pgdir p) (kstack p) (state p) (pid p) (ppid p) v (tf p) (ctx p) (chan p) (killed p) (ofile p) (cwd p) (name p) (nswitch p) (priority p).
Definition set_tf v p := Proc (sz p) (pgdir p) (kstack p) (state p) (pid p) (ppid p) (parent p) v (ctx p) (chan p) (killed p) (ofile p) (cwd p) (name p) (nswitch p) (priority p).
Definition set_ctx v p := Proc (sz p) (pgdir p) (kstack p) (state p) (pid p) (ppid p) (parent p) (tf p) v (chan p) (killed p) (ofile p) (cwd p) (name p) (nswitch p) (priority p).
Definition set_chan v p := Proc (sz p) (pgdir p) (kstack p) (state p) (pid p) (ppid p) (parent p) (tf p) (ctx p) v (killed p) (ofile p) (cwd p) (name p) (nswitch p) (priority p).
Definition set_killed v p := Proc (sz p) (pgdir p) (kstack p) (state p) (pid p) (ppid p) (parent p) (tf p) (ctx p) (chan p) v (ofile p) (cwd p) (name p) (nswitch p) (priority p).
Definition set_ofile v p := Proc (sz p) (pgdir p) (kstack p) (state p) (pid p) (ppid p) (parent p) (tf p) (ctx p) (chan p) (killed p) v (cwd p) (name p) (nswitch p) (priority p).
Definition set_cwd v p := Proc (sz p) (pgdir p) (kstack p) (state p) (pid p) (ppid p) (parent p) (tf p) (ctx p) (chan p) (killed p) (ofile p) v (name p) (nswitch p) (priority p).
Definition set_name v p := Proc (sz p) (pgdir p) (kstack p) (state p) (pid p) (ppid p) (parent p) (tf p) (ctx p) (chan p) (killed p) (ofile p) (cwd p) v (nswitch p) (priority p).
Definition set_nswitch v p := Proc (sz p) (pgdir p) (kstack p) (state p) (pid p) (ppid p) (parent p) (tf p) (ctx p) (chan p) (killed p) (ofile p) (cwd p) (name p) v (priority p).
Definition set_priority v p := Proc (sz p) (pgdir p) (kstack p) (state p) (pid p) (ppid p) (parent p) (tf p) (ctx p) (chan p) (killed p) (ofile p) (cwd p) (name p) (nswitch p) v.

(** ** The rest of the kernel *)

(** What the process code calls in kalloc.c, vm.c, file.c, fs.c and log.c;
    address 0 reports failure. *)
Class KernelOps (K : Type) := {
  kalloc : K -> Z * K;
  kfree : Z -> K -> K;
  setupkvm : K -> Z * K;
  inituvm : Z -> K -> K;
  copyuvm : Z -> Z -> K -> Z * K;
  freevm : Z -> K -> K;
  allocuvm : Z -> Z -> Z -> K -> Z * K;
  deallocuvm : Z -> Z -> Z -> K -> Z * K;
  filedup : Z -> K -> K;
  fileclose : Z -> K -> K;
  namei_root : K -> Z * K;
  idup : Z -> K -> K;
  iput : Z -> K -> K;
  begin_op : K -> K;
  end_op : K -> K;
  forkret : Z                 (** the address new processes start at *)
}.

(** The globals of proc.c, the [proc] field of the CPU, and the rest of the
    kernel. *)
Record kst (K : Type) := Kst {
  ptable : list proc;
  nextpid : Z;
  initproc : option nat;
  cpu_proc : option nat;
  env : K
}.
Arguments Kst {K}.
Arguments ptable {K}.
Arguments nextpid {K}.
Arguments initproc {K}.
Arguments cpu_proc {K}.
Arguments env {K}.

Section proc.
Context {K : Type} `{KernelOps K}.

Definition with_ptable (l : list proc) (s : kst K) : kst K :=
  Kst l (nextpid s) (initproc s) (cpu_proc s) (env s).
Definition with_env (k : K) (s : kst K) : kst K :=
  Kst (ptable s) (nextpid s) (initproc s) (cpu_proc s) k.
Definition with_cpu (c : option nat) (s : kst K) : kst K :=
  Kst (ptable s) (nextpid s) (initproc s) c (env s).

(** [p->field = v] *)
Definition upd (p : nat) (f : proc -> proc) (s : kst K) : kst K :=
  with_ptable (alter f p (ptable s)) s.

(** [*p] *)
Definition at_ (s : kst K) (p : nat) : res proc :=
  match ptable s !! p with Some x => Ok x | None => Stuck OutOfBounds end.

(** [myproc()], dereferenced by every caller below. *)
Definition myproc (s : kst K) : res nat :=
  match cpu_proc s with Some p => Ok p | None => Stuck OutOfBounds end.

(** The first slot from [i] on with the given state. *)
Fixpoint find_state (st : procstate) (l : list proc) (i : nat) : option nat :=
  match l with
  | [] => None
  | p :: l' => if decide (state p = st) then Some i else find_state st l' (S i)
  end.

(** ** Creation *)

Definition fresh_context : context := Context_ 0 0 0 0 forkret.

(** The part of [allocproc] under [ptable.lock]: the slot, or [None]. *)
Definition allocproc_slot (s : kst K) : res (option nat * kst K) :=
  match find_state UNUSED (ptable s) 0 with
  | None => Ok (None, s)
  | Some p =>
      next ← c_int (nextpid s + 1);
      let s := upd p (set_state EMBRYO) s in
      let s := upd p (set_pid (nextpid s)) s in
      let s := Kst (ptable s) next (initproc s) (cpu_proc s) (env s) in
      let s := upd p (set_ppid 0) s in
      let s := upd p (set_nswitch 0) s in
      Ok (Some p, upd p (set_priority 500) s)
  end.

(** The part after it, without the lock: the kernel stack. *)
Definition allocproc_stack (s : kst K) (p : nat) : option nat * kst K :=
  let '(a, k) := kalloc (env s) in
  let s := upd p (set_kstack a) (with_env k s) in
  if a =? 0 then (None, upd p (set_state UNUSED) s)
  else (Some p, upd p (set_ctx fresh_context) s).

(** Returns the slot, or [None] for the null pointer. *)
Definition allocproc (s : kst K) : res (option nat * kst K) :=
  '(p, s) ← allocproc_slot s;
  match p with
  | None => Ok (None, s)
  | Some p => Ok (allocproc_stack s p)
  end.

(** Segment selectors [(SEG << 3) | DPL_USER] and the interrupt flag. *)
Definition SEG_UCODE : Z := 3.
Definition SEG_UDATA : Z := 4.
Definition DPL_USER : Z := 3.
Definition FL_IF : Z := 512.

Definition user_frame : trapframe :=
  let cs := Z.lor (Z.shiftl SEG_UCODE 3) DPL_USER in
  let ds := Z.lor (Z.shiftl SEG_UDATA 3) DPL_USER in
  Trapframe 0 ds ds cs ds FL_IF PGSIZE 0 (replicate 9 0).

(** The literal ["initcode"]. *)
Definition initcode_literal : list Z := [105; 110; 105; 116; 99; 111; 100; 101; 0].

Definition userinit (s : kst K) : res (kst K) :=
  '(p, s) ← allocproc s;
  match p with
  | None => Stuck OutOfBounds
  | Some p =>
      let s := Kst (ptable s) (nextpid s) (Some p) (cpu_proc s) (env s) in
      let '(d, k) := setupkvm (env s) in
      let s := upd p (set_pgdir d) (with_env k s) in
      if d =? 0 then Stuck Panicked
      else
        let s := with_env (inituvm d (env s)) s in
        let s := upd p (set_sz PGSIZE) s in
        let s := upd p (set_tf user_frame) s in
        x ← at_ s p;
        nm ← Kernel.safestrcpy (name x) initcode_literal 16;
        let s := upd p (set_name nm) s in
        let '(root, k) := namei_root (env s) in
        let s := upd p (set_cwd root) (with_env k s) in
        Ok (upd p (set_state RUNNABLE) s)
  end.

(** [uint] arithmetic wraps. *)
Definition u32 (z : Z) : Z := z mod 2 ^ 32.

Definition growproc (s : kst K) (n : Z) : res (Z * kst K) :=
  cur ← myproc s;
  c ← at_ s cur;
  if 0 <? n then
    let '(sz', k) := allocuvm (pgdir c) (sz c) (u32 (sz c + n)) (env s) in
    if sz' =? 0 then Ok (-1, with_env k s)
    else Ok (0, upd cur (set_sz sz') (with_env k s))
  else if n <? 0 then
    let '(sz', k) := deallocuvm (pgdir c) (sz c) (u32 (sz c + n)) (env s) in
    if sz' =? 0 then Ok (-1, with_env k s)
    else Ok (0, upd cur (set_sz sz') (with_env k s))
  else Ok (0, upd cur (set_sz (sz c)) s).

(** [filedup] on every open file of the parent; a null entry of the parent
    leaves the child's entry as it was. *)
Fixpoint dup_files (parent_files child_files : list Z) (k : K) : list Z * K :=
  match parent_files, child_files with
  | f :: fs, g :: gs =>
      if f =? 0 then let '(l, k) := dup_files fs gs k in (g :: l, k)
      else let '(l, k) := dup_files fs gs (filedup f k) in (f :: l, k)
  | _, _ => (child_files, k)
  end.

(** The part of [fork] between its two critical sections, for a child [np] in
    state EMBRYO: the new state, or [None] when the memory cannot be copied. *)
Definition fork_copy (s : kst K) (cur np : nat) : res (bool * kst K) :=
  c ← at_ s cur;
  n ← at_ s np;
  let '(d, k) := copyuvm (pgdir c) (sz c) (env s) in
  let s := upd np (set_pgdir d) (with_env k s) in
  if d =? 0 then
    let s := with_env (kfree (kstack n) (env s)) s in
    let s := upd np (set_kstack 0) s in
    Ok (false, upd np (set_state UNUSED) s)
  else
    let s := upd np (set_sz (sz c)) s in
    let s := upd np (set_parent (Some cur)) s in
    let s := upd np (set_ppid (pid c)) s in
    let t := tf c in
    let s := upd np (set_tf (Trapframe 0 (t_es t) (t_ds t) (t_cs t) (t_ss t)
                               (t_eflags t) (t_esp t) (t_eip t) (t_others t))) s in
    let '(files, k) := dup_files (ofile c) (ofile n) (env s) in
    let s := upd np (set_ofile files) (with_env k s) in
    let s := upd np (set_cwd (cwd c)) (with_env (idup (cwd c) (env s)) s) in
    nm ← Kernel.safestrcpy (name n) (name c) 16;
    Ok (true, upd np (set_name nm) s).

Definition fork (s : kst K) : res (Z * kst K) :=
  cur ← myproc s;
  '(np, s) ← allocproc s;
  match np with
  | None => Ok (-1, s)
  | Some np =>
      '(ok, s) ← fork_copy s cur np;
      if (ok : bool) then
        n ← at_ s np;
        Ok (pid n, upd np (set_state RUNNABLE) s)
      else Ok (-1, s)
  end.

(** ** Sleeping and waking *)

Definition wake (c : channel) (p : proc) : proc :=
  if decide (state p = SLEEPING /\ chan p = c) then set_state RUNNABLE p else p.

Definition wakeup1 (c : channel) (s : kst K) : kst K :=
  with_ptable (wake c <$> ptable s) s.

Definition wakeup (c : channel) (s : kst K) : kst K := wakeup1 c s.

(** Switches to the scheduler, which continues in [switched_back]; the other
    checks of [sched] are about the lock and the interrupt flag, which every
    caller below holds as required. *)
Definition sched (s : kst K) : res (kst K) :=
  cur ← myproc s;
  p ← at_ s cur;
  if decide (state p = RUNNING) then Stuck Panicked else Ok s.

Definition yield (s : kst K) : res (kst K) :=
  cur ← myproc s;
  sched (upd cur (set_state RUNNABLE) s).

(** The part of [sleep] before the switch. *)
Definition sleep (c : channel) (s : kst K) : res (kst K) :=
  match cpu_proc s with
  | None => Stuck Panicked
  | Some p => sched (upd p (set_state SLEEPING) (upd p (set_chan c) s))
  end.

(** The part of [sleep] after it, when the process runs again. *)
Definition sleep_resume (s : kst K) : res (kst K) :=
  p ← myproc s;
  Ok (upd p (set_chan NoChan) s).

(** The first slot whose pid is [n]. *)
Fixpoint find_pid (n : Z) (l : list proc) (i : nat) : option nat :=
  match l with
  | [] => None
  | p :: l' => if pid p =? n then Some i else find_pid n l' (S i)
  end.

Definition kill (s : kst K) (n : Z) : Z * kst K :=
  match find_pid n (ptable s) 0 with
  | Some p =>
      let s := upd p (set_killed 1) s in
      (0, upd p (fun x => if decide (state x = SLEEPING) then set_state RUNNABLE x else x) s)
  | None => (-1, s)
  end.

(** ** Ending and waiting *)

(** Closes the open files of the current process. *)
Fixpoint close_files (files : list Z) (k : K) : list Z * K :=
  match files with
  | [] => ([], k)
  | f :: fs =>
      if f =? 0 then let '(l, k) := close_files fs k in (f :: l, k)
      else let '(l, k) := close_files fs (fileclose f k) in (0 :: l, k)
  end.

(** A process pointer as a channel. *)
Definition proc_chan (p : option nat) : channel :=
  match p with Some q => ProcChan q | None => NoChan end.

(** The loop that passes the children of [cur] to init, over slots [i], ... *)
Fixpoint reparent (n i : nat) (cur : nat) (s : kst K) : res (kst K) :=
  match n with
  | O => Ok s
  | S n' =>
      p ← at_ s i;
      if decide (parent p = Some cur) then
        let s := upd i (set_parent (initproc s)) s in
        let s := if decide (state p = ZOMBIE) then wakeup1 (proc_chan (initproc s)) s else s in
        reparent n' (S i) cur s
      else reparent n' (S i) cur s
  end.

(** The files are closed outside the critical section. *)
Definition exit_close (s : kst K) : res (kst K) :=
  cur ← myproc s;
  c ← at_ s cur;
  if decide (Some cur = initproc s) then Stuck Panicked
  else
    let '(files, k) := close_files (ofile c) (env s) in
    let s := upd cur (set_ofile files) (with_env k s) in
    let s := with_env (end_op (iput (cwd c) (begin_op (env s)))) s in
    Ok (upd cur (set_cwd 0) s).

(** The critical section of [exit], up to the switch. *)
Definition exit_final (s : kst K) : res (kst K) :=
  cur ← myproc s;
  c ← at_ s cur;
  s ← reparent NPROC 0 cur (wakeup1 (proc_chan (parent c)) s);
  sched (upd cur (set_state ZOMBIE) s).

Definition exit (s : kst K) : res (kst K) :=
  s ← exit_close s; exit_final s.

(** Outcome of one pass of [wait] over the table. *)
Inductive wait_result := Reaped (pid : Z) | NoChildren | Blocked.

(** The first zombie child, and whether there is any child. *)
Fixpoint scan_children (cur : nat) (l : list proc) (i : nat) (havekids : bool) : option nat * bool :=
  match l with
  | [] => (None, havekids)
  | p :: l' =>
      if decide (parent p = Some cur) then
        if decide (state p = ZOMBIE) then (Some i, true)
        else scan_children cur l' (S i) true
      else scan_children cur l' (S i) havekids
  end.

(** One pass; [Blocked] leaves the process asleep on its own slot, and the pass
    is repeated when it runs again. *)
Definition wait_pass (s : kst K) : res (wait_result * kst K) :=
  cur ← myproc s;
  c ← at_ s cur;
  match scan_children cur (ptable s) 0 false with
  | (Some i, _) =>
      p ← at_ s i;
      let s := with_env (kfree (kstack p) (env s)) s in
      let s := upd i (set_kstack 0) s in
      let s := with_env (freevm (pgdir p) (env s)) s in
      let s := upd i (set_pid 0) s in
      let s := upd i (set_parent None) s in
      let s := upd i (fun x => set_name (0 :: drop 1 (name x)) x) s in
      let s := upd i (set_killed 0) s in
      Ok (Reaped (pid p), upd i (set_state UNUSED) s)
  | (None, havekids) =>
      if negb havekids || negb (killed c =? 0) then Ok (NoChildren, s)
      else s ← sleep (ProcChan cur) s; Ok (Blocked, s)
  end.

(** ** Scheduling *)

(** The inner loop: the runnable process of highest priority, starting from
    [hp]. *)
Fixpoint highest (l : list proc) (i : nat) (hp : nat) (hprio : Z) : nat :=
  match l with
  | [] => hp
  | np :: l' =>
      if decide (state np = RUNNABLE) then
        if hprio <? priority np then highest l' (S i) i (priority np)
        else highest l' (S i) hp hprio
      else highest l' (S i) hp hprio
  end.

(** The scheduler with its loop variable at slot [i], up to the next switch:
    the process it chooses, or [None] at the end of the table. *)
Definition choose (s : kst K) (i : nat) : res (option nat) :=
  match find_state RUNNABLE (drop i (ptable s)) i with
  | None => Ok None
  | Some p => x ← at_ s p; Ok (Some (highest (ptable s) 0 p (priority x)))
  end.

(** The switch to the chosen process. *)
Definition dispatch (s : kst K) (i : nat) : res (option (nat * kst K)) :=
  c ← choose s i;
  match c with
  | None => Ok None
  | Some p => Ok (Some (p, upd p (set_state RUNNING) (with_cpu (Some p) s)))
  end.

(** Back in the scheduler after process [p] gave up the CPU. *)
Definition switched_back (s : kst K) (p : nat) : res (kst K) :=
  x ← at_ s p;
  n ← c_int (nswitch x + 1);
  Ok (with_cpu None (upd p (set_nswitch n) s)).

(** ** Reports and priorities *)

Definition get_num_proc (s : kst K) : Z :=
  Z.of_nat (length (filter (fun p => pid p <> 0) (ptable s))).

Fixpoint max_pid (l : list proc) (m : Z) : Z :=
  match l with
  | [] => m
  | p :: l' => max_pid l' (if negb (pid p =? 0) && (m <? pid p) then pid p else m)
  end.

Definition get_max_pid (s : kst K) : Z := max_pid (ptable s) 0.

Record processInfo := ProcessInfo { i_pid : Z; i_ppid : Z; i_psize : Z; i_nswitch : Z }.

(** The result and what is stored at [processinfo], if anything. *)
Definition get_proc_info (s : kst K) (n : Z) : Z * option processInfo :=
  match find_pid n (ptable s) 0 with
  | Some i =>
      match ptable s !! i with
      | Some p => (0, Some (ProcessInfo (pid p) (ppid p) (sz p) (nswitch p)))
      | None => (-1, None)
      end
  | None => (-1, None)
  end.

Definition set_prio (s : kst K) (n : Z) : res (Z * kst K) :=
  cur ← myproc s;
  if n <? 0 then Ok (-1, s) else Ok (0, upd cur (set_priority n) s).

Definition get_prio (s : kst K) : res Z :=
  cur ← myproc s;
  c ← at_ s cur;
  Ok (priority c).

End proc.
