(* ===== verification/ProcInv.v ===== *)
(** The xv6 process table as a transition system: one transition per critical
    section of proc.c and per switch of the scheduler, and the invariant of its
    reachable states. *)

From S2P Require Import Prelude Bytes Xv6String Proc.

(** ** The fields the invariant is about *)

Record core := Core { k_state : procstate; k_pid : Z; k_parent : option nat; k_chan : channel }.

Definition core_of (p : proc) : core := Core (state p) (pid p) (parent p) (chan p).

(** Who has the CPU: a process, the scheduler just after a switch back, or the
    scheduler's loop at a slot. *)
Inductive control := Run | Back | At (i : nat).

Definition alive (st : procstate) : Prop := st <> UNUSED /\ st <> EMBRYO /\ st <> ZOMBIE.

(** ** Invariant *)

Record inv (l : list core) (next : Z) (init cpu : option nat) (ctl : control) : Prop := {
  i_len : length l = NPROC;
  i_next : 0 < next;
  i_pid : forall i c, l !! i = Some c -> 0 <= k_pid c < next;
  i_live : forall i c, l !! i = Some c -> k_state c <> UNUSED -> k_pid c <> 0;
  i_uniq : forall i j c d, l !! i = Some c -> l !! j = Some d ->
    k_pid c <> 0 -> k_pid c = k_pid d -> i = j;
  i_unused : forall i c, l !! i = Some c -> k_state c = UNUSED -> k_parent c = None;
  i_parent : forall i c q, l !! i = Some c -> k_parent c = Some q ->
    q <> i /\ exists d, l !! q = Some d /\ alive (k_state d);
  i_init : exists q d, init = Some q /\ l !! q = Some d /\ alive (k_state d) /\ k_parent d = None;
  i_running : forall i c, l !! i = Some c -> k_state c = RUNNING -> ctl = Run /\ cpu = Some i;
  i_current : ctl = Run -> exists i c, cpu = Some i /\ l !! i = Some c /\ k_state c = RUNNING;
  i_back : ctl = Back -> exists i, cpu = Some i /\ (i < NPROC)%nat;
  i_wait : forall i c q, l !! i = Some c -> k_state c = SLEEPING -> k_chan c = ProcChan q ->
    q = i /\ forall j d, l !! j = Some d -> k_parent d = Some i -> k_state d <> ZOMBIE
}.

Definition cores {K} (s : kst K) : list core := core_of <$> ptable s.

Definition kinv {K} (s : kst K) (ctl : control) : Prop :=
  inv (cores s) (nextpid s) (initproc s) (cpu_proc s) ctl.

(** ** Transitions *)

Section system.
Context {K : Type} `{KernelOps K}.

Inductive step : kst K * control -> kst K * control -> Prop :=
| S_alloc s np s' : allocproc_slot s = Ok (np, s') -> step (s, Run) (s', Run)
| S_stack s np p r s' : ptable s !! np = Some p -> state p = EMBRYO -> parent p = None ->
    allocproc_stack s np = (r, s') -> step (s, Run) (s', Run)
| S_copy s cur np p ok s' : cpu_proc s = Some cur ->
    ptable s !! np = Some p -> state p = EMBRYO -> parent p = None ->
    fork_copy s cur np = Ok (ok, s') -> step (s, Run) (s', Run)
| S_publish s np p : ptable s !! np = Some p -> state p = EMBRYO ->
    step (s, Run) (upd np (set_state RUNNABLE) s, Run)
| S_exit_close s s' : exit_close s = Ok s' -> step (s, Run) (s', Run)
| S_exit_final s s' : cpu_proc s <> initproc s -> exit_final s = Ok s' -> step (s, Run) (s', Back)
| S_wait s r s' : wait_pass s = Ok (r, s') ->
    step (s, Run) (s', match r with Blocked => Back | _ => Run end)
| S_sleep s a s' : (forall p, a <> ProcChan p) -> sleep a s = Ok s' -> step (s, Run) (s', Back)
| S_resume s s' : sleep_resume s = Ok s' -> step (s, Run) (s', Run)
| S_yield s s' : yield s = Ok s' -> step (s, Run) (s', Back)
| S_wakeup s a ctl : step (s, ctl) (wakeup a s, ctl)
| S_kill s n : step (s, Run) (snd (kill s n), Run)
| S_set_prio s n r s' : set_prio s n = Ok (r, s') -> step (s, Run) (s', Run)
| S_growproc s n r s' : growproc s n = Ok (r, s') -> step (s, Run) (s', Run)
| S_back s p s' : cpu_proc s = Some p -> switched_back s p = Ok s' -> step (s, Back) (s', At (S p))
| S_dispatch s i p s' : dispatch s i = Ok (Some (p, s')) -> step (s, At i) (s', Run)
| S_rescan s i : dispatch s i = Ok None -> step (s, At i) (s, At 0).

Inductive reachable : kst K * control -> Prop :=
| R_boot s0 s : ptable s0 = replicate NPROC proc0 ->
    nextpid s0 = 1 -> cpu_proc s0 = None -> userinit s0 = Ok s -> reachable (s, At 0)
| R_step x y : reachable x -> step x y -> reachable y.

End system.

(** ** Changing one slot *)

Section change.
Context (l : list core) (next next' : Z) (init cpu cpu' : option nat) (ctl ctl' : control).
Context (i : nat) (c c' : core).
Hypothesis I : inv l next init cpu ctl.
Hypothesis Hi : l !! i = Some c.

(** What slot [i] may become. *)
Record change_ok : Prop := {
  ch_next : next <= next';
  ch_pid : 0 <= k_pid c' < next' /\ (k_state c' <> UNUSED -> k_pid c' <> 0);
  ch_uniq : k_pid c' = k_pid c \/ k_pid c' = 0 \/ next <= k_pid c';
  ch_unused : k_state c' = UNUSED -> k_parent c' = None;
  ch_parent : k_parent c' = k_parent c \/ k_parent c' = None \/
    (init <> Some i /\ exists q d, k_parent c' = Some q /\ q <> i /\ l !! q = Some d /\ alive (k_state d));
  ch_alive : alive (k_state c) -> alive (k_state c') \/
    (init <> Some i /\ forall j d, l !! j = Some d -> k_parent d <> Some i);
  ch_running : k_state c' = RUNNING -> ctl' = Run /\ cpu' = Some i;
  ch_others : forall j d, j <> i -> l !! j = Some d -> k_state d = RUNNING -> ctl' = Run /\ cpu' = Some j;
  ch_current : ctl' = Run -> exists j d, cpu' = Some j /\ <[i := c']> l !! j = Some d /\ k_state d = RUNNING;
  ch_back : ctl' = Back -> exists j, cpu' = Some j /\ (j < NPROC)%nat;
  ch_sleep : forall q, k_state c' = SLEEPING -> k_chan c' = ProcChan q ->
    q = i /\ forall j d, j <> i -> l !! j = Some d -> k_parent d = Some i -> k_state d <> ZOMBIE;
  ch_zombie : k_state c' = ZOMBIE -> forall q d, k_parent c' = Some q -> l !! q = Some d ->
    k_state d = SLEEPING -> k_chan d <> ProcChan q
}.

Lemma change_lookup j d : <[i := c']> l !! j = Some d -> (j = i /\ d = c') \/ (j <> i /\ l !! j = Some d).
Proof using. intros [(<- & <- & _)|[? ?]]%list_lookup_insert_Some; [by left|right; auto]. Qed.

Lemma change_at : <[i := c']> l !! i = Some c'.
Proof using Hi. apply list_lookup_insert_eq. by eapply lookup_lt_Some. Qed.

Lemma change_alive q d : l !! q = Some d -> alive (k_state d) ->
  (exists d', <[i := c']> l !! q = Some d' /\ alive (k_state d')) \/ q = i /\ ~ alive (k_state c').
Proof using Hi.
  intros Hq Ha. destruct (decide (q = i)) as [->|Hne].
  - assert (Hdec : alive (k_state c') \/ ~ alive (k_state c'))
      by (unfold alive; destruct (k_state c'); naive_solver).
    destruct Hdec; [left; eexists; split; [apply change_at|done]|by right].
  - left. exists d. by rewrite list_lookup_insert_ne.
Qed.

Lemma inv_change : change_ok -> inv (<[i := c']> l) next' init cpu' ctl'.
Proof using I Hi.
  intros [N P U Un Pa Al R Ro Cu Ba Sl Zo]. destruct I as [I1 I2 I3 I4 I5 I6 I7 I8 I9 I10 I11 I12]. split.
  - by rewrite length_insert.
  - lia.
  - intros j d [[-> ->]|[? Hj]]%change_lookup; [apply P|]. pose proof (I3 j d Hj). lia.
  - intros j d [[-> ->]|[? Hj]]%change_lookup; [apply P|by eapply I4].
  - intros j k d e [[-> ->]|[Hne Hj]]%change_lookup [[-> ->]|[Hne' Hk]]%change_lookup Hnz E; [done| | |by eapply I5].
    + destruct U as [U|[U|U]]; [|congruence|pose proof (I3 k e Hk); lia].
      apply (I5 i k c e); congruence.
    + destruct U as [U|[U|U]]; [|congruence|pose proof (I3 j d Hj); lia].
      apply (I5 j i d c); congruence.
  - intros j d [[-> ->]|[? Hj]]%change_lookup; [done|exact (I6 j d Hj)].
  - assert (Hkeep : forall q j, l !! q = Some j -> alive (k_state j) ->
        (q = i -> exists k f, l !! k = Some f /\ k_parent f = Some i) ->
        exists d', <[i := c']> l !! q = Some d' /\ alive (k_state d')).
    { intros q j Hq Ha Hch. destruct (change_alive q j Hq Ha) as [(d' & ? & ?)|[-> Hna]]; [by exists d'|].
      destruct (Hch eq_refl) as (k & f & Hk & Hf). assert (j = c) as -> by congruence.
      destruct (Al Ha) as [?|[_ Hno]]; [done|]. by destruct (Hno k f Hk). }
    intros j d q [[-> ->]|[Hne Hj]]%change_lookup Hq.
    + destruct Pa as [Pa|[Pa|(_ & q' & e & Pa & Hqi & He & Ha)]]; [|congruence|].
      * rewrite Pa in Hq. destruct (I7 i c q Hi Hq) as (Hqi & e & He & Ha). split; [done|].
        exists e. by rewrite list_lookup_insert_ne.
      * assert (q' = q) as -> by congruence. split; [done|]. exists e. by rewrite list_lookup_insert_ne.
    + destruct (I7 j d q Hj Hq) as (Hqj & e & He & Ha). split; [done|].
      apply (Hkeep q e He Ha). intros ->. by exists j, d.
  - destruct I8 as (q & d & -> & Hq & Ha & Hp). destruct (decide (q = i)) as [->|Hne].
    + assert (d = c) as -> by congruence. exists i, c'. split; [done|]. split; [apply change_at|].
      destruct (Al Ha) as [?|[Hni _]]; [|done]. split; [done|].
      destruct Pa as [Pa|[Pa|(Hni & _)]]; [congruence|done|done].
    + exists q, d. by rewrite list_lookup_insert_ne.
  - intros j d [[-> ->]|[? Hj]]%change_lookup; [done|by eapply Ro].
  - done.
  - done.
  - intros j d q [[-> ->]|[Hne Hj]]%change_lookup Hs Hc.
    + destruct (Sl q Hs Hc) as [-> Hz]. split; [done|].
      intros k e [[-> ->]|[? Hk]]%change_lookup; [congruence|by eapply (Hz k)].
    + destruct (I12 j d q Hj Hs Hc) as [-> Hz]. split; [done|].
      intros k e [[-> ->]|[? Hk]]%change_lookup He; [|by eapply (Hz k)].
      intros Hzo. by apply (Zo Hzo j d).
Qed.

End change.

(** ** Waking *)

Definition wake_core (a : channel) (c : core) : core :=
  if decide (k_state c = SLEEPING /\ k_chan c = a) then Core RUNNABLE (k_pid c) (k_parent c) (k_chan c) else c.

Lemma wake_core_cases a c :
  (k_state c = SLEEPING /\ k_chan c = a /\ wake_core a c = Core RUNNABLE (k_pid c) (k_parent c) (k_chan c)) \/
  wake_core a c = c.
Proof. unfold wake_core. destruct (decide _) as [[? ?]|]; [by left|by right]. Qed.

Lemma wake_lookup a (l : list core) (i : nat) d :
  (wake_core a <$> l) !! i = Some d -> exists c, l !! i = Some c /\ d = wake_core a c.
Proof. rewrite list_lookup_fmap, fmap_Some. done. Qed.

Lemma wake_core_fields a c :
  k_pid (wake_core a c) = k_pid c /\ k_parent (wake_core a c) = k_parent c /\
  (alive (k_state c) -> alive (k_state (wake_core a c))) /\
  (k_state (wake_core a c) <> k_state c -> k_state c = SLEEPING /\ k_state (wake_core a c) = RUNNABLE).
Proof.
  destruct (wake_core_cases a c) as [(E & _ & ->)| ->]; cbn; [|done].
  rewrite E. by split_and!.
Qed.

Lemma wake_state a c st :
  st <> SLEEPING -> st <> RUNNABLE -> k_state (wake_core a c) = st <-> k_state c = st.
Proof. destruct (wake_core_cases a c) as [(E & _ & ->)| ->]; cbn; naive_solver. Qed.

Lemma inv_wake a l next init cpu ctl :
  inv l next init cpu ctl -> inv (wake_core a <$> l) next init cpu ctl.
Proof.
  intros [I1 I2 I3 I4 I5 I6 I7 I8 I9 I10 I11 I12].
  assert (Hfwd : forall i c, l !! i = Some c -> (wake_core a <$> l) !! i = Some (wake_core a c))
    by (intros i c Hc; by rewrite list_lookup_fmap, Hc).
  split; try done.
  - by rewrite length_fmap.
  - intros i d (c & Hc & ->)%wake_lookup. destruct (wake_core_fields a c) as (-> & _). by eapply I3.
  - intros i d (c & Hc & ->)%wake_lookup. destruct (wake_core_fields a c) as (-> & _ & _ & Hst). intros Hu.
    apply (I4 i c Hc). intros E. rewrite E in Hst. naive_solver.
  - intros i j d e (c & Hc & ->)%wake_lookup (c' & Hc' & ->)%wake_lookup.
    destruct (wake_core_fields a c) as (-> & _), (wake_core_fields a c') as (-> & _). by eapply I5.
  - intros i d (c & Hc & ->)%wake_lookup E. destruct (wake_core_fields a c) as (_ & -> & _).
    apply (I6 i c Hc). by apply (wake_state a c UNUSED).
  - intros i d q (c & Hc & ->)%wake_lookup. destruct (wake_core_fields a c) as (_ & -> & _). intros Hq.
    destruct (I7 i c q Hc Hq) as (? & e & He & Ha). split; [done|]. exists (wake_core a e).
    split; [by apply Hfwd|]. by apply wake_core_fields.
  - destruct I8 as (q & d & -> & Hq & Ha & Hp). exists q, (wake_core a d).
    destruct (wake_core_fields a d) as (_ & -> & Hal & _). split_and!; [done|by apply Hfwd|by apply Hal|done].
  - intros i d (c & Hc & ->)%wake_lookup E. apply (I9 i c Hc). by apply (wake_state a c RUNNING).
  - intros E. destruct (I10 E) as (i & c & -> & Hc & Hs). exists i, (wake_core a c).
    split_and!; [done|by apply Hfwd|by apply wake_state].
  - intros i d q (c & Hc & ->)%wake_lookup Hs Hch.
    destruct (wake_core_cases a c) as [(_ & _ & E)|E]; rewrite E in Hs, Hch; [discriminate Hs|].
    destruct (I12 i c q Hc Hs Hch) as [-> Hz]. split; [done|].
    intros j e (f & Hf & ->)%wake_lookup. destruct (wake_core_fields a f) as (_ & -> & _).
    intros Hp Hzo. apply (Hz j f Hf Hp). by apply (wake_state a f ZOMBIE).
Qed.

Lemma core_of_wake a p : core_of (wake a p) = wake_core a (core_of p).
Proof. unfold wake, wake_core. cbn. by repeat destruct (decide _). Qed.

(** ** The operations on the cores *)

Section cores.
Context {K : Type} `{KernelOps K}.
Implicit Types s : kst K.

Lemma cores_Some s i p : ptable s !! i = Some p -> cores s !! i = Some (core_of p).
Proof. intros Hp. unfold cores. by rewrite list_lookup_fmap, Hp. Qed.

Lemma cores_lookup s i c : cores s !! i = Some c -> exists p, ptable s !! i = Some p /\ c = core_of p.
Proof. unfold cores. by rewrite list_lookup_fmap, fmap_Some. Qed.

(** A sequence of assignments to the fields of slot [i]. *)
Lemma cores_alter s s' i f p :
  ptable s !! i = Some p -> ptable s' = alter f i (ptable s) ->
  cores s' = <[i := core_of (f p)]> (cores s).
Proof. intros Hp E. unfold cores. by rewrite E, (alter_insert _ _ _ _ Hp), list_fmap_insert. Qed.

(** ... that leaves its core alone. *)
Lemma cores_same s s' i f p :
  ptable s !! i = Some p -> ptable s' = alter f i (ptable s) -> core_of (f p) = core_of p ->
  cores s' = cores s.
Proof.
  intros Hp E Ec. rewrite (cores_alter s s' i f p Hp E), Ec.
  apply list_insert_id. by apply cores_Some.
Qed.

Lemma cores_wakeup1 s a : cores (wakeup1 a s) = wake_core a <$> cores s.
Proof.
  unfold cores, wakeup1. cbn. rewrite <- !list_fmap_compose.
  apply list_fmap_ext. intros i p _. apply core_of_wake.
Qed.

Lemma find_state_Some st (l : list proc) (i k : nat) :
  find_state st l i = Some k ->
  (i <= k)%nat /\ exists p, l !! (k - i)%nat = Some p /\ state p = st.
Proof.
  revert i. induction l as [|p l IH]; intros i; cbn [find_state]; [done|].
  destruct (decide _) as [Hp|Hp].
  - intros [= <-]. split; [done|]. exists p. by rewrite Nat.sub_diag.
  - intros E%IH. destruct E as (Hle & q & Hq & ?). split; [lia|]. exists q. split; [|done].
    replace (k - i)%nat with (S (k - S i)) by lia. done.
Qed.

Lemma at_Ok s i p : at_ s i = Ok p <-> ptable s !! i = Some p.
Proof. unfold at_. destruct (ptable s !! i); naive_solver. Qed.

Lemma myproc_Ok s i : myproc s = Ok i <-> cpu_proc s = Some i.
Proof. unfold myproc. destruct (cpu_proc s); naive_solver. Qed.

End cores.

(** Peels a translated function that is known to return: one hypothesis per
    bind. *)
Ltac peel H :=
  repeat match type of H with
  | (_ ≫= _) = Ok _ =>
      let x := fresh "x" in let E := fresh "E" in
      match type of H with (?m ≫= _) = Ok _ => destruct m as [x|] eqn:E; cbn [mbind res_bind] in H; [|discriminate H] end
  | (let '(_, _) := ?p in _) = _ => let E := fresh "E" in destruct p eqn:E
  end.

(** ** Preservation *)

(** A change that leaves the running process alone. *)
Lemma change_keep l next next' init cpu ctl i c c' :
  inv l next init cpu ctl -> l !! i = Some c ->
  (k_state c' = RUNNING <-> k_state c = RUNNING) ->
  next <= next' ->
  0 <= k_pid c' < next' /\ (k_state c' <> UNUSED -> k_pid c' <> 0) ->
  k_pid c' = k_pid c \/ k_pid c' = 0 \/ next <= k_pid c' ->
  (k_state c' = UNUSED -> k_parent c' = None) ->
  k_parent c' = k_parent c \/ k_parent c' = None \/
    (init <> Some i /\ exists q d, k_parent c' = Some q /\ q <> i /\ l !! q = Some d /\ alive (k_state d)) ->
  (alive (k_state c) -> alive (k_state c')) ->
  k_state c' <> SLEEPING \/ (k_state c' = k_state c /\ k_chan c' = k_chan c) ->
  (k_state c' = ZOMBIE -> forall q d, k_parent c' = Some q -> l !! q = Some d ->
    k_state d = SLEEPING -> k_chan d <> ProcChan q) ->
  inv (<[i := c']> l) next' init cpu ctl.
Proof.
  intros I Hi HR N P U Un Pa Al Sl Zo.
  apply (inv_change l next next' init cpu cpu ctl ctl i c c' I Hi). split; try done.
  - intros Ha. left. by apply Al.
  - intros E. apply (i_running _ _ _ _ _ I i c Hi). by apply HR.
  - intros j d _. apply (i_running _ _ _ _ _ I j d).
  - intros E. destruct (i_current _ _ _ _ _ I E) as (j & d & -> & Hj & Hd).
    destruct (decide (j = i)) as [->|Hne].
    + assert (d = c) as -> by congruence. exists i, c'. split; [done|]. split; [|by apply HR].
      apply list_lookup_insert_eq. by eapply lookup_lt_Some.
    + exists j, d. by rewrite list_lookup_insert_ne.
  - apply (i_back _ _ _ _ _ I).
  - intros q Hs Hc. destruct Sl as [Sl|[E1 E2]]; [done|]. rewrite E1 in Hs. rewrite E2 in Hc.
    destruct (i_wait _ _ _ _ _ I i c q Hi Hs Hc) as [-> Hz]. split; [done|].
    intros j d _. apply Hz.
Qed.

(** The running process gives up the CPU with a new state. *)
Lemma change_leave l next init i c c' :
  inv l next init (Some i) Run -> l !! i = Some c ->
  k_pid c' = k_pid c -> k_parent c' = k_parent c -> k_state c' <> RUNNING -> k_state c' <> UNUSED ->
  alive (k_state c') \/ (init <> Some i /\ forall j d, l !! j = Some d -> k_parent d <> Some i) ->
  (forall q, k_state c' = SLEEPING -> k_chan c' = ProcChan q ->
    q = i /\ forall j d, j <> i -> l !! j = Some d -> k_parent d = Some i -> k_state d <> ZOMBIE) ->
  (k_state c' = ZOMBIE -> forall q d, k_parent c' = Some q -> l !! q = Some d ->
    k_state d = SLEEPING -> k_chan d <> ProcChan q) ->
  inv (<[i := c']> l) next init (Some i) Back.
Proof.
  intros I Hi Hpid Hpar HnR HnU Al Sl Zo.
  assert (Hlive : k_state c = RUNNING).
  { destruct (i_current _ _ _ _ _ I eq_refl) as (j & d & [= <-] & Hj & ?). congruence. }
  apply (inv_change l next next init (Some i) (Some i) Run Back i c c' I Hi). split; try done.
  - rewrite Hpid. split; [by apply (i_pid _ _ _ _ _ I i c)|].
    intros _. apply (i_live _ _ _ _ _ I i c Hi). by rewrite Hlive.
  - by left.
  - by left.
  - intros j d Hne Hj Hd. destruct (i_running _ _ _ _ _ I j d Hj Hd) as [_ [= ->]]. done.
  - intros _. exists i. split; [done|]. rewrite <- (i_len _ _ _ _ _ I). by eapply lookup_lt_Some.
Qed.

Section preserve.
Context {K : Type} `{KernelOps K}.
Implicit Types s : kst K.

Lemma kinv_alloc s np s' ctl : kinv s ctl -> allocproc_slot s = Ok (np, s') -> kinv s' ctl.
Proof.
  intros I E. unfold allocproc_slot in E.
  destruct (find_state UNUSED (ptable s) 0) as [p|] eqn:Ef; [|injection E as _ <-; done].
  apply find_state_Some in Ef as (_ & x & Hx & Hst). rewrite Nat.sub_0_r in Hx.
  destruct (c_int (nextpid s + 1)) as [nx|] eqn:En; cbn [mbind res_bind] in E; [|discriminate E].
  assert (nx = nextpid s + 1) as -> by (unfold c_int in En; destruct (_ && _); congruence).
  pose proof (cores_Some _ _ _ Hx) as Hc.
  pose proof (i_unused _ _ _ _ _ I p _ Hc Hst) as Hpar. pose proof (i_next _ _ _ _ _ I) as Hn.
  injection E as _ <-. unfold kinv. erewrite (cores_alter s _ p _ x Hx); [|cbn; rewrite !list_alter_alter_eq; reflexivity].
  cbn. apply (change_keep (cores s) (nextpid s) _ _ _ _ p (core_of x)); cbn; try done; try lia.
  all: try (rewrite Hst; unfold alive; naive_solver). by left.
Qed.

Lemma kinv_stack s np p r s' ctl :
  kinv s ctl -> ptable s !! np = Some p -> state p = EMBRYO -> parent p = None ->
  allocproc_stack s np = (r, s') -> kinv s' ctl.
Proof.
  intros I Hp Hst Hpar E. unfold allocproc_stack in E. pose proof (cores_Some _ _ _ Hp) as Hc.
  pose proof (i_pid _ _ _ _ _ I np _ Hc) as Hpid. pose proof (i_live _ _ _ _ _ I np _ Hc) as Hlive.
  cbn in Hpid, Hlive. rewrite Hst in Hlive. destruct (kalloc (env s)) as [a k].
  destruct (a =? 0); injection E as _ <-; unfold kinv;
    (erewrite (cores_alter s _ np _ p Hp); [|cbn; rewrite !list_alter_alter_eq; reflexivity]); cbn;
    apply (change_keep (cores s) (nextpid s) _ _ _ _ np (core_of p)); cbn; try done; try lia;
    rewrite ?Hst, ?Hpar; unfold alive; naive_solver lia.
Qed.

Lemma kinv_copy s cur np p ok s' :
  kinv s Run -> cpu_proc s = Some cur -> ptable s !! np = Some p -> state p = EMBRYO -> parent p = None ->
  fork_copy s cur np = Ok (ok, s') -> kinv s' Run.
Proof.
  intros I Hcpu Hp Hst Hpar E. unfold fork_copy in E.
  destruct (at_ s cur) as [c|] eqn:Ec; cbn [mbind res_bind] in E; [|discriminate E]. apply at_Ok in Ec.
  rewrite (proj2 (at_Ok s np p) Hp) in E. cbn [mbind res_bind] in E.
  destruct (copyuvm _ _ _) as [d k]. pose proof (cores_Some _ _ _ Hp) as Hc.
  destruct (i_current _ _ _ _ _ I eq_refl) as (j & r & Ej & Hr & Hrun). assert (j = cur) as -> by congruence.
  assert (Hne : cur <> np).
  { intros ->. rewrite Hc in Hr. injection Hr as <-. cbn in Hrun. congruence. }
  assert (Hnp : initproc s <> Some np).
  { destruct (i_init _ _ _ _ _ I) as (q & e & -> & Hq & Ha & _). intros [= ->]. rewrite Hc in Hq.
    injection Hq as <-. destruct Ha as (_ & Ha & _). done. }
  pose proof (i_pid _ _ _ _ _ I np _ Hc) as Hpid. pose proof (i_live _ _ _ _ _ I np _ Hc) as Hlive.
  cbn in Hpid, Hlive. rewrite Hst in Hlive.
  destruct (d =? 0).
  - injection E as _ <-. unfold kinv. erewrite (cores_alter s _ np _ p Hp);
      [|cbn; rewrite !list_alter_alter_eq; reflexivity]. cbn.
    apply (change_keep (cores s) (nextpid s) _ _ _ _ np (core_of p)); cbn; try done; try lia.
    all: rewrite ?Hst, ?Hpar; unfold alive; naive_solver lia.
  - destruct (dup_files _ _ _) as [fl k']. destruct (Kernel.safestrcpy _ _ _) as [nm|]; cbn [mbind res_bind] in E; [|discriminate E].
    injection E as _ <-. unfold kinv. erewrite (cores_alter s _ np _ p Hp);
      [|cbn; rewrite !list_alter_alter_eq; reflexivity]. cbn.
    apply (change_keep (cores s) (nextpid s) _ _ _ _ np (core_of p)); cbn; try done; try lia.
    all: rewrite ?Hst, ?Hpar; try (unfold alive; naive_solver lia).
    right. right. split; [done|]. exists cur, r. rewrite Hrun. by split_and!.
Qed.

(** Facts about the running process. *)
Lemma running_proc s : kinv s Run ->
  exists cur c, cpu_proc s = Some cur /\ ptable s !! cur = Some c /\ state c = RUNNING.
Proof.
  intros I. destruct (i_current _ _ _ _ _ I eq_refl) as (j & d & Hj & Hd & Hs).
  apply cores_lookup in Hd as (p & Hp & ->). by exists j, p.
Qed.

(** Assignments that do not touch the core of a slot. *)
Lemma kinv_same s s' ctl i f p :
  kinv s ctl -> ptable s !! i = Some p -> ptable s' = alter f i (ptable s) -> core_of (f p) = core_of p ->
  nextpid s' = nextpid s -> initproc s' = initproc s -> cpu_proc s' = cpu_proc s -> kinv s' ctl.
Proof. intros I Hp E Ec E1 E2 E3. unfold kinv. by rewrite (cores_same s s' i f p Hp E Ec), E1, E2, E3. Qed.

Lemma kinv_publish s np p :
  kinv s Run -> ptable s !! np = Some p -> state p = EMBRYO -> kinv (upd np (set_state RUNNABLE) s) Run.
Proof.
  intros I Hp Hst. pose proof (cores_Some _ _ _ Hp) as Hc.
  pose proof (i_pid _ _ _ _ _ I np _ Hc) as Hpid. pose proof (i_live _ _ _ _ _ I np _ Hc) as Hlive.
  cbn in Hpid, Hlive. rewrite Hst in Hlive.
  unfold kinv. rewrite (cores_alter s _ np (set_state RUNNABLE) p Hp) by done.
  apply (change_keep (cores s) (nextpid s) _ _ _ _ np (core_of p)); cbn; try done; try lia.
  all: rewrite ?Hst; unfold alive; naive_solver lia.
Qed.

Lemma kinv_exit_close s s' : kinv s Run -> exit_close s = Ok s' -> kinv s' Run.
Proof.
  intros I E. destruct (running_proc s I) as (cur & c & Hcpu & Hc & _). unfold exit_close in E.
  rewrite (proj2 (myproc_Ok s cur) Hcpu) in E. cbn [mbind res_bind] in E.
  rewrite (proj2 (at_Ok s cur c) Hc) in E. cbn [mbind res_bind] in E.
  destruct (decide _); [discriminate E|]. destruct (close_files _ _) as [fl k]. injection E as <-.
  eapply (kinv_same s _ Run cur _ c I Hc); [cbn; rewrite !list_alter_alter_eq; reflexivity|done..].
Qed.

Lemma kinv_resume s s' : kinv s Run -> sleep_resume s = Ok s' -> kinv s' Run.
Proof.
  intros I E. destruct (running_proc s I) as (cur & c & Hcpu & Hc & Hrun). unfold sleep_resume in E.
  rewrite (proj2 (myproc_Ok s cur) Hcpu) in E. injection E as <-.
  pose proof (cores_Some _ _ _ Hc) as Hco.
  pose proof (i_pid _ _ _ _ _ I cur _ Hco) as Hpid. pose proof (i_live _ _ _ _ _ I cur _ Hco) as Hlive.
  cbn in Hpid, Hlive. rewrite Hrun in Hlive.
  unfold kinv. rewrite (cores_alter s _ cur (set_chan NoChan) c Hc) by done.
  apply (change_keep (cores s) (nextpid s) _ _ _ _ cur (core_of c)); cbn; try done; try lia.
  all: rewrite ?Hrun; unfold alive; naive_solver lia.
Qed.

Lemma kinv_kill s n : kinv s Run -> kinv (snd (kill s n)) Run.
Proof.
  intros I. unfold kill. destruct (find_pid n (ptable s) 0) as [i|]; [|done]. cbn [snd].
  destruct (ptable s !! i) as [p|] eqn:Hp.
  2:{ unfold kinv, cores, upd. cbn. rewrite !list_alter_alter_eq. 
      assert (Ha : forall f, alter f i (ptable s) = ptable s).
      { intros f. apply list_eq. intros j. destruct (decide (i = j)) as [<-|].
        - by rewrite list_lookup_alter_eq, Hp. - by rewrite list_lookup_alter_ne. }
      rewrite Ha. apply I. }
  pose proof (cores_Some _ _ _ Hp) as Hc.
  pose proof (i_pid _ _ _ _ _ I i _ Hc) as Hpid. pose proof (i_live _ _ _ _ _ I i _ Hc) as Hlive.
  pose proof (i_unused _ _ _ _ _ I i _ Hc) as Hun. cbn in Hpid, Hlive, Hun.
  unfold kinv. erewrite (cores_alter s _ i _ p Hp); [|cbn; rewrite !list_alter_alter_eq; reflexivity].
  cbn [compose]. unfold compose. cbn.
  destruct (decide (state p = SLEEPING)) as [Hs|Hs].
  - apply (change_keep (cores s) (nextpid s) _ _ _ _ i (core_of p)); cbn; try done; try lia.
    all: rewrite ?Hs in *; unfold alive; naive_solver lia.
  - replace (<[i:=_]> (cores s)) with (cores s); [done|]. symmetry. by apply list_insert_id.
Qed.

Lemma kinv_set_prio s n r s' : kinv s Run -> set_prio s n = Ok (r, s') -> kinv s' Run.
Proof.
  intros I E. destruct (running_proc s I) as (cur & c & Hcpu & Hc & _). unfold set_prio in E.
  rewrite (proj2 (myproc_Ok s cur) Hcpu) in E. cbn [mbind res_bind] in E.
  destruct (n <? 0); injection E as _ <-; [done|].
  by eapply (kinv_same s _ Run cur _ c I Hc).
Qed.

Lemma kinv_growproc s n r s' : kinv s Run -> growproc s n = Ok (r, s') -> kinv s' Run.
Proof.
  intros I E. destruct (running_proc s I) as (cur & c & Hcpu & Hc & _). unfold growproc in E.
  rewrite (proj2 (myproc_Ok s cur) Hcpu) in E. cbn [mbind res_bind] in E.
  rewrite (proj2 (at_Ok s cur c) Hc) in E. cbn [mbind res_bind] in E.
  destruct (0 <? n); [destruct (allocuvm _ _ _ _) as [sz' k]; destruct (sz' =? 0)
    |destruct (n <? 0); [destruct (deallocuvm _ _ _ _) as [sz' k]; destruct (sz' =? 0)|]];
    injection E as _ <-; try done; by eapply (kinv_same s _ Run cur _ c I Hc).
Qed.

(** Switching to the scheduler. *)
Lemma sched_Ok s s' : sched s = Ok s' -> s' = s.
Proof.
  unfold sched. destruct (myproc s) as [cur|]; cbn; [|done]. destruct (at_ s cur) as [p|]; cbn; [|done].
  destruct (decide _); [done|]. by intros [= ->].
Qed.

Lemma kinv_yield s s' : kinv s Run -> yield s = Ok s' -> kinv s' Back.
Proof.
  intros I E. destruct (running_proc s I) as (cur & c & Hcpu & Hc & Hrun). unfold yield in E.
  rewrite (proj2 (myproc_Ok s cur) Hcpu) in E. cbn [mbind res_bind] in E. apply sched_Ok in E as ->.
  unfold kinv in *. rewrite (cores_alter s _ cur (set_state RUNNABLE) c Hc) by done. cbn. rewrite Hcpu in *.
  apply (change_leave (cores s) _ _ cur (core_of c)); try done; [by apply cores_Some|]. by left.
Qed.

Lemma kinv_sleep s a s' :
  kinv s Run ->
  (forall p, a = ProcChan p -> cpu_proc s = Some p /\
     forall j q, ptable s !! j = Some q -> parent q = Some p -> state q <> ZOMBIE) ->
  sleep a s = Ok s' -> kinv s' Back.
Proof.
  intros I Ha E. destruct (running_proc s I) as (cur & c & Hcpu & Hc & Hrun). unfold sleep in E.
  rewrite Hcpu in E. apply sched_Ok in E as ->.
  unfold kinv in *. erewrite (cores_alter s _ cur _ c Hc); [|cbn; rewrite list_alter_alter_eq; reflexivity].
  cbn. rewrite Hcpu in *.
  apply (change_leave (cores s) _ _ cur (core_of c)); try done; [by apply cores_Some|by left|].
  cbn. intros q _ ->. destruct (Ha q eq_refl) as [[= ->] Hz]. split; [done|].
  intros j d _ Hd Hp. apply cores_lookup in Hd as (x & Hx & ->). by eapply Hz.
Qed.

Lemma kinv_back s p s' : kinv s Back -> cpu_proc s = Some p -> switched_back s p = Ok s' -> kinv s' (At (S p)).
Proof.
  intros I Hcpu E. unfold switched_back in E.
  destruct (at_ s p) as [x|] eqn:Ex; cbn [mbind res_bind] in E; [|discriminate E]. apply at_Ok in Ex.
  destruct (c_int _) as [n|]; cbn [mbind res_bind] in E; [|discriminate E]. injection E as <-.
  unfold kinv. cbn [nextpid initproc cpu_proc with_cpu upd with_ptable].
  replace (cores _) with (cores s) by (symmetry; by eapply (cores_same s _ p _ x Ex)).
  destruct I as [I1 I2 I3 I4 I5 I6 I7 I8 I9 I10 I11 I12]. split; try done.
  intros i c Hc Hr. by destruct (I9 i c Hc Hr).
Qed.

(** The inner loop of the scheduler finds the highest priority: the process it
    started from if that has it, else the first slot that has it. *)
Lemma highest_spec (l : list proc) i hp hprio :
  let r := highest l i hp hprio in
  (r = hp /\ forall j x, l !! j = Some x -> state x = RUNNABLE -> priority x <= hprio) \/
  (exists j x, r = (i + j)%nat /\ l !! j = Some x /\ state x = RUNNABLE /\ hprio < priority x /\
    forall k y, l !! k = Some y -> state y = RUNNABLE ->
      priority y <= priority x /\ ((k < j)%nat -> priority y < priority x)).
Proof.
  revert i hp hprio. induction l as [|p l IH]; intros i hp hprio; cbn [highest]; [by left|].
  destruct (decide (state p = RUNNABLE)) as [Hp|Hp]; [destruct (Z.ltb_spec hprio (priority p)) as [Hlt|Hge]|].
  - right. destruct (IH (S i) i (priority p)) as [[-> Hle]|(j & x & -> & Hx & Hs & Hl & Hm)].
    + exists 0%nat, p. split; [lia|]. split_and!; try done. intros [|k] y Hy Hsy; cbn in Hy.
      * simplify_eq. lia.
      * split; [by eapply Hle|lia].
    + exists (S j), x. split; [lia|]. split_and!; try done; [lia|]. intros [|k] y Hy Hsy; cbn in Hy.
      * simplify_eq. lia.
      * destruct (Hm k y Hy Hsy) as [Ha Hb]. split; [done|]. intros Hk. apply Hb. lia.
  - destruct (IH (S i) hp hprio) as [[-> Hle]|(j & x & -> & Hx & Hs & Hl & Hm)].
    + left. split; [done|]. intros [|k] y Hy Hsy; cbn in Hy; [by simplify_eq|by eapply Hle].
    + right. exists (S j), x. split; [lia|]. split_and!; try done. intros [|k] y Hy Hsy; cbn in Hy.
      * simplify_eq. lia.
      * destruct (Hm k y Hy Hsy) as [Ha Hb]. split; [done|]. intros Hk. apply Hb. lia.
  - destruct (IH (S i) hp hprio) as [[-> Hle]|(j & x & -> & Hx & Hs & Hl & Hm)].
    + left. split; [done|]. intros [|k] y Hy Hsy; cbn in Hy; [by simplify_eq|by eapply Hle].
    + right. exists (S j), x. split; [lia|]. split_and!; try done. intros [|k] y Hy Hsy; cbn in Hy.
      * by simplify_eq.
      * destruct (Hm k y Hy Hsy) as [Ha Hb]. split; [done|]. intros Hk. apply Hb. lia.
Qed.

Lemma choose_max s i p :
  choose s i = Ok (Some p) -> exists x, ptable s !! p = Some x /\ state x = RUNNABLE /\
    forall j y, ptable s !! j = Some y -> state y = RUNNABLE -> priority y <= priority x.
Proof.
  unfold choose. destruct (find_state RUNNABLE _ i) as [q|] eqn:Ef; [|done].
  apply find_state_Some in Ef as (Hle & x & Hx & Hs). rewrite lookup_drop in Hx.
  replace (i + (q - i))%nat with q in Hx by lia.
  rewrite (proj2 (at_Ok s q x) Hx). cbn [mbind res_bind]. intros [= <-].
  destruct (highest_spec (ptable s) 0 q (priority x)) as [[-> Hm]|(j & y & -> & Hy & Hsy & _ & Hm)].
  - exists x. by split_and!.
  - exists y. split_and!; [done|done|]. intros k z Hz Hsz. by apply (Hm k z Hz Hsz).
Qed.

Lemma choose_Some s i p :
  choose s i = Ok (Some p) -> exists x, ptable s !! p = Some x /\ state x = RUNNABLE.
Proof. intros E%choose_max. naive_solver. Qed.

Lemma kinv_dispatch s i p s' : kinv s (At i) -> dispatch s i = Ok (Some (p, s')) -> kinv s' Run.
Proof.
  intros I E. unfold dispatch in E. destruct (choose s i) as [[q|]|] eqn:Ec; cbn [mbind res_bind] in E; try discriminate E.
  simplify_eq. destruct (choose_Some s i p Ec) as (x & Hx & Hst).
  pose proof (cores_Some _ _ _ Hx) as Hc. pose proof (i_pid _ _ _ _ _ I p _ Hc) as Hpid.
  pose proof (i_live _ _ _ _ _ I p _ Hc) as Hlive. cbn in Hpid, Hlive. rewrite Hst in Hlive.
  unfold kinv. rewrite (cores_alter s _ p (set_state RUNNING) x Hx) by done. cbn.
  apply (inv_change (cores s) (nextpid s) _ _ _ _ (At i) Run p (core_of x) _ I Hc). split; cbn; try done; try lia.
  all: try (by left); try (intros _; by left); try (split; [done|intros _; by apply Hlive]).
  - intros j d _ Hj Hd. by destruct (i_running _ _ _ _ _ I j d Hj Hd).
  - intros _. exists p. eexists. split; [done|].
    split; [apply list_lookup_insert_eq; by eapply lookup_lt_Some|done].
Qed.

(** *** wait *)

Lemma scan_children_spec cur (l : list proc) i hk :
  match scan_children cur l i hk with
  | (Some k, _) => (i <= k)%nat /\ exists p, l !! (k - i)%nat = Some p /\ parent p = Some cur /\ state p = ZOMBIE
  | (None, hk') => (forall j p, l !! j = Some p -> parent p = Some cur -> state p <> ZOMBIE) /\
      (hk' = true <-> hk = true \/ exists j p, l !! j = Some p /\ parent p = Some cur)
  end.
Proof.
  revert i hk. induction l as [|p l IH]; intros i hk; cbn [scan_children]; [naive_solver|].
  destruct (decide (parent p = Some cur)) as [Hp|Hp]; [destruct (decide (state p = ZOMBIE)) as [Hz|Hz]|].
  - split; [done|]. exists p. by rewrite Nat.sub_diag.
  - specialize (IH (S i) true). destruct (scan_children cur l (S i) true) as [[k|] hk'].
    + destruct IH as (Hle & q & Hq & ?). split; [lia|]. exists q.
      replace (k - i)%nat with (S (k - S i)) by lia. done.
    + destruct IH as [IH1 IH2]. split.
      * intros [|j] q Hq; cbn in Hq; [by simplify_eq|by eapply IH1].
      * rewrite IH2. split; [|naive_solver]. intros _. right. by exists 0%nat, p.
  - specialize (IH (S i) hk). destruct (scan_children cur l (S i) hk) as [[k|] hk'].
    + destruct IH as (Hle & q & Hq & ?). split; [lia|]. exists q.
      replace (k - i)%nat with (S (k - S i)) by lia. done.
    + destruct IH as [IH1 IH2]. split.
      * intros [|j] q Hq; cbn in Hq; [by simplify_eq|by eapply IH1].
      * rewrite IH2. split; (intros [?|(j & q & Hq & ?)]; [by left|right]).
        -- by exists (S j), q.
        -- destruct j as [|j]; cbn in Hq; [by simplify_eq|by exists j, q].
Qed.

Lemma kinv_wait s r s' :
  kinv s Run -> wait_pass s = Ok (r, s') -> kinv s' (match r with Blocked => Back | _ => Run end).
Proof.
  intros I E. destruct (running_proc s I) as (cur & c & Hcpu & Hc & Hrun). unfold wait_pass in E.
  rewrite (proj2 (myproc_Ok s cur) Hcpu) in E. cbn [mbind res_bind] in E.
  rewrite (proj2 (at_Ok s cur c) Hc) in E. cbn [mbind res_bind] in E.
  pose proof (scan_children_spec cur (ptable s) 0 false) as Hscan.
  destruct (scan_children cur (ptable s) 0 false) as [[k|] hk].
  - destruct Hscan as (_ & p & Hp & Hpar & Hz). rewrite Nat.sub_0_r in Hp.
    rewrite (proj2 (at_Ok s k p) Hp) in E. cbn [mbind res_bind] in E. injection E as <- <-.
    pose proof (cores_Some _ _ _ Hp) as Hco.
    unfold kinv. erewrite (cores_alter s _ k _ p Hp); [|cbn; rewrite !list_alter_alter_eq; reflexivity].
    pose proof (i_next _ _ _ _ _ I) as Hn.
    apply (change_keep (cores s) (nextpid s) _ _ _ _ k (core_of p)); cbn; try done; try lia.
    all: rewrite ?Hz; unfold alive; naive_solver lia.
  - destruct (_ || _); [by injection E as <- <-|].
    destruct (sleep (ProcChan cur) s) as [s1|] eqn:Es; cbn [mbind res_bind] in E; [|discriminate E].
    injection E as <- <-. apply (kinv_sleep s (ProcChan cur) s1 I); [|done].
    intros q [= <-]. split; [done|apply Hscan].
Qed.

(** *** exit *)

(** Nobody sleeps on channel [a]. *)
Definition quiet (a : channel) (l : list core) : Prop :=
  forall i c, l !! i = Some c -> k_state c = SLEEPING -> k_chan c <> a.

Lemma quiet_wake a l : quiet a (wake_core a <$> l).
Proof.
  intros i d (c & Hc & ->)%wake_lookup Hs. unfold wake_core in *.
  destruct (decide _) as [?|Hn]; [discriminate Hs|naive_solver].
Qed.

Lemma quiet_wake_other a b l : quiet a l -> quiet a (wake_core b <$> l).
Proof.
  intros Q i d (c & Hc & ->)%wake_lookup Hs.
  destruct (wake_core_cases b c) as [(_ & _ & E)|E]; rewrite E in *; [discriminate Hs|by eapply Q].
Qed.

(** The state of the reparenting loop of process [cur] at slot [i]: the
    invariant holds, the parent [par] of [cur] is awake, and the slots before
    [i] are not children of [cur]. *)
Record reparenting (s : kst K) (cur : nat) (par : option nat) (i : nat) : Prop := {
  rp_inv : kinv s Run;
  rp_quiet : quiet (proc_chan par) (cores s);
  rp_self : exists c, cores s !! cur = Some c /\ k_parent c = par;
  rp_done : forall j c, (j < i)%nat -> cores s !! j = Some c -> k_parent c <> Some cur
}.

Lemma wake_insert_zombie a (l : list core) (i : nat) c :
  k_state c <> SLEEPING -> wake_core a <$> <[i := c]> l = <[i := c]> (wake_core a <$> l).
Proof.
  intros Hs. rewrite list_fmap_insert. f_equal. unfold wake_core. rewrite decide_False by naive_solver. done.
Qed.

Lemma reparent_step s cur par i p :
  reparenting s cur par i -> initproc s <> Some cur -> ptable s !! i = Some p -> parent p = Some cur ->
  let s1 := upd i (set_parent (initproc s)) s in
  let s2 := if decide (state p = ZOMBIE) then wakeup1 (proc_chan (initproc s1)) s1 else s1 in
  reparenting s2 cur par (S i).
Proof.
  intros [I Q [c0 [Hc0 Hp0]] D] Hinit Hp Hpar s1 s2. pose proof (cores_Some _ _ _ Hp) as Hc.
  destruct (i_init _ _ _ _ _ I) as (q & d & Eq & Hq & Ha & Hqp).
  set (c' := Core (state p) (pid p) (Some q) (chan p)).
  assert (E1 : cores s1 = <[i := c']> (cores s)).
  { unfold s1. rewrite (cores_alter s _ i (set_parent (initproc s)) p Hp) by done. by rewrite Eq. }
  assert (Hqi : q <> i). { intros ->. rewrite Hc in Hq. injection Hq as <-. cbn in Hqp. congruence. }
  assert (HU : state p <> UNUSED).
  { intros E. pose proof (i_unused _ _ _ _ _ I i _ Hc E) as Hnone. cbn in Hnone. congruence. }
  pose proof (i_pid _ _ _ _ _ I i _ Hc) as Hpid. pose proof (i_live _ _ _ _ _ I i _ Hc HU) as Hlive.
  assert (Hgo : forall l, inv l (nextpid s) (initproc s) (cpu_proc s) Run -> l !! i = Some (core_of p) ->
     (exists d', l !! q = Some d' /\ alive (k_state d')) ->
     (state p = ZOMBIE -> forall d', l !! q = Some d' -> k_state d' = SLEEPING -> k_chan d' <> ProcChan q) ->
     inv (<[i := c']> l) (nextpid s) (initproc s) (cpu_proc s) Run).
  { intros l I' Hi (d' & Hd' & Ha') Hz. cbn in Hpid, Hlive.
    apply (change_keep l (nextpid s) _ _ _ _ i (core_of p)); cbn; try done; try lia.
    all: try (by left); try (by right).
    - right. right. rewrite Eq. split; [congruence|]. by exists q, d'.
    - intros Hzo q' d1 [= <-]. by apply Hz. }
  assert (Qi : forall a l, quiet a l -> l !! i = Some (core_of p) -> quiet a (<[i := c']> l)).
  { intros a l Ql Hi j e [[-> ->]|[_ Hj]]%change_lookup; [|by eapply Ql]. cbn. apply (Ql i _ Hi). }
  assert (Di : forall l : list core, (forall (j : nat) c, (j < i)%nat -> l !! j = Some c -> k_parent c <> Some cur) ->
     forall j c, (j < S i)%nat -> <[i := c']> l !! j = Some c -> k_parent c <> Some cur).
  { intros l Hl j e Hj [[-> ->]|[? He]]%change_lookup; [cbn; congruence|eapply Hl; [|done]; lia]. }
  assert (Hne : cur <> i) by (destruct (i_parent _ _ _ _ _ I i _ cur Hc Hpar); done).
  unfold s2. destruct (decide (state p = ZOMBIE)) as [Hz|Hz].
  - assert (E2 : cores (wakeup1 (proc_chan (initproc s1)) s1) = <[i := c']> (wake_core (ProcChan q) <$> cores s)).
    { rewrite cores_wakeup1, E1. cbn. rewrite Eq. cbn. apply wake_insert_zombie. cbn. by rewrite Hz. }
    assert (Hi' : (wake_core (ProcChan q) <$> cores s) !! i = Some (core_of p)).
    { rewrite list_lookup_fmap, Hc. cbn. unfold wake_core. rewrite decide_False; [done|]. cbn. rewrite Hz. naive_solver. }
    split; rewrite ?E2.
    + unfold kinv. rewrite E2. apply Hgo; [by apply inv_wake|done| |].
      * exists (wake_core (ProcChan q) d). rewrite list_lookup_fmap, Hq. split; [done|]. by apply wake_core_fields.
      * intros _ d' Hd'. by apply (quiet_wake (ProcChan q) (cores s) q).
    + apply Qi; [by apply quiet_wake_other|done].
    + exists (wake_core (ProcChan q) c0). rewrite list_lookup_insert_ne, list_lookup_fmap, Hc0 by done.
      split; [done|]. by destruct (wake_core_fields (ProcChan q) c0) as (_ & -> & _).
    + apply Di. intros j e Hj (f & Hf & ->)%wake_lookup.
      destruct (wake_core_fields (ProcChan q) f) as (_ & -> & _). by eapply D.
  - split; rewrite ?E1; [|by apply Qi|exists c0; by rewrite list_lookup_insert_ne|by apply Di].
    unfold kinv. rewrite E1. apply Hgo; [done|done|by exists d|done].
Qed.

Lemma reparent_spec s cur par n i s' :
  reparenting s cur par i -> initproc s <> Some cur -> (i + n = NPROC)%nat ->
  reparent n i cur s = Ok s' ->
  reparenting s' cur par NPROC /\ initproc s' = initproc s /\ cpu_proc s' = cpu_proc s.
Proof.
  revert s i. induction n as [|n IH]; intros s i HR Hinit Hn E; cbn [reparent] in E.
  - injection E as <-. by replace NPROC with i by lia.
  - destruct (at_ s i) as [p|] eqn:Ep; cbn [mbind res_bind] in E; [|discriminate E]. apply at_Ok in Ep.
    destruct (decide (parent p = Some cur)) as [Hpar|Hpar].
    + pose proof (reparent_step s cur par i p HR Hinit Ep Hpar) as HR'. cbv zeta in HR'.
      apply (IH _ (S i)) in E; [|exact HR'|by destruct (decide _)|lia].
      by destruct (decide (state p = ZOMBIE)).
    + apply (IH s (S i)) in E; [done| |done|lia]. destruct HR as [I Q P D]. split; [done|done|done|].
      intros j c Hj Hc. destruct (decide (j = i)) as [->|]; [|eapply D; [|done]; lia].
      rewrite (cores_Some _ _ _ Ep) in Hc. by injection Hc as <-.
Qed.

Lemma exit_reparent s cur c s2 :
  kinv s Run -> cpu_proc s = Some cur -> cpu_proc s <> initproc s -> ptable s !! cur = Some c ->
  reparent NPROC 0 cur (wakeup1 (proc_chan (parent c)) s) = Ok s2 ->
  reparenting s2 cur (parent c) NPROC /\ initproc s2 = initproc s /\ cpu_proc s2 = cpu_proc s.
Proof.
  intros I Hcpu Hinit Hc E. set (s1 := wakeup1 (proc_chan (parent c)) s) in E.
  apply (reparent_spec s1 cur (parent c) NPROC 0 s2) in E; [done| |cbn; congruence|done].
  split; unfold kinv, s1; rewrite ?cores_wakeup1.
  - by apply inv_wake.
  - apply quiet_wake.
  - exists (wake_core (proc_chan (parent c)) (core_of c)).
    rewrite list_lookup_fmap, (cores_Some _ _ _ Hc). split; [done|].
    by destruct (wake_core_fields (proc_chan (parent c)) (core_of c)) as (_ & -> & _).
  - intros j e Hj. lia.
Qed.

Lemma exit_final_inv s s' :
  exit_final s = Ok s' ->
  exists cur c s2, cpu_proc s = Some cur /\ ptable s !! cur = Some c /\
    reparent NPROC 0 cur (wakeup1 (proc_chan (parent c)) s) = Ok s2 /\ s' = upd cur (set_state ZOMBIE) s2.
Proof.
  intros (cur & E1 & (c & E2 & (s2 & E3 & E4)%bind_Ok)%bind_Ok)%bind_Ok.
  exists cur, c, s2. split; [by apply myproc_Ok|]. split; [by apply at_Ok|]. split; [exact E3|].
  by apply sched_Ok in E4.
Qed.

Lemma exit_zombie s cur par x :
  reparenting s cur par NPROC -> cpu_proc s = Some cur -> cpu_proc s <> initproc s -> ptable s !! cur = Some x ->
  kinv (upd cur (set_state ZOMBIE) s) Back.
Proof.
  intros [I Q (c2 & Hc2 & Hp2) D] Hcpu Hinit Hx. pose proof (cores_Some _ _ _ Hx) as Hc.
  assert (c2 = core_of x) as -> by congruence.
  unfold kinv in *. rewrite (cores_alter s _ cur (set_state ZOMBIE) x Hx) by done.
  change (nextpid (upd cur (set_state ZOMBIE) s)) with (nextpid s).
  change (initproc (upd cur (set_state ZOMBIE) s)) with (initproc s).
  change (cpu_proc (upd cur (set_state ZOMBIE) s)) with (cpu_proc s). rewrite Hcpu in *.
  apply (change_leave (cores s) _ _ cur (core_of x)); try done.
  - right. split; [congruence|]. intros j d Hj. apply (D j d); [|done].
    rewrite <- (i_len _ _ _ _ _ I). by eapply lookup_lt_Some.
  - intros _ q d Hq Hd Hs. change (parent x = Some q) in Hq. change (parent x = par) in Hp2.
    rewrite <- Hp2, Hq in Q. by apply (Q q d).
Qed.

Lemma kinv_exit_final s s' :
  kinv s Run -> cpu_proc s <> initproc s -> exit_final s = Ok s' -> kinv s' Back.
Proof.
  intros I Hinit E. destruct (exit_final_inv s s' E) as (cur & c & s2 & Hcpu & Hc & Er & ->).
  destruct (exit_reparent s cur c s2 I Hcpu Hinit Hc Er) as (HR & Ei & Ec).
  destruct (rp_self _ _ _ _ HR) as (c2 & Hc2 & _). apply cores_lookup in Hc2 as (x & Hx & _).
  apply (exit_zombie s2 cur (parent c) x HR); [congruence|congruence|done].
Qed.

(** *** Booting *)

Lemma inv_boot :
  inv (<[0%nat := Core RUNNABLE 1 None NoChan]> (replicate NPROC (Core UNUSED 0 None NoChan))) 2 (Some 0%nat) None (At 0).
Proof.
  assert (Hl : forall (i : nat) c, <[0%nat := Core RUNNABLE 1 None NoChan]> (replicate NPROC (Core UNUSED 0 None NoChan)) !! i = Some c ->
    (i = 0%nat /\ c = Core RUNNABLE 1 None NoChan) \/ (i <> 0%nat /\ c = Core UNUSED 0 None NoChan)).
  { intros i c [(<- & <- & _)|[? [-> _]%lookup_replicate]]%list_lookup_insert_Some; [by left|right; auto]. }
  split; try done.
  - intros i c [[-> ->]|[? ->]]%Hl; cbn; lia.
  - by intros i c [[-> ->]|[? ->]]%Hl.
  - by intros i j c d [[-> ->]|[? ->]]%Hl [[-> ->]|[? ->]]%Hl.
  - by intros i c [[-> ->]|[? ->]]%Hl.
  - by intros i c q [[-> ->]|[? ->]]%Hl.
  - exists 0%nat. eexists. split; [done|]. split; [apply list_lookup_insert_eq; rewrite length_replicate; unfold NPROC; lia|done].
  - by intros i c [[-> ->]|[? ->]]%Hl.
  - by intros i c q [[-> ->]|[? ->]]%Hl.
Qed.

Lemma kinv_boot s0 s :
  ptable s0 = replicate NPROC proc0 ->
  nextpid s0 = 1 -> cpu_proc s0 = None -> userinit s0 = Ok s -> kinv s (At 0).
Proof.
  intros Ept En Ecpu E. destruct s0 as [pt nx ini cpu k0]. cbn [ptable nextpid cpu_proc] in Ept, En, Ecpu.
  subst pt nx cpu.
  unfold userinit, allocproc, allocproc_slot, allocproc_stack in E. cbn [ptable nextpid] in E.
  change (find_state UNUSED (replicate NPROC proc0) 0) with (Some 0%nat) in E.
  change (c_int (1 + 1)) with (@Ok Z 2) in E. cbn [mbind res_bind] in E.
  cbn beta iota in E. match type of E with context [kalloc ?k] => destruct (kalloc k) as [a k1] end.
  destruct (a =? 0); cbn [mbind res_bind] in E; [discriminate E|].
  match type of E with context [setupkvm ?k] => destruct (setupkvm k) as [d k2] end.
  destruct (d =? 0); [discriminate E|].
  match type of E with context [at_ ?s ?i] => destruct (at_ s i) as [x|] end; cbn [mbind res_bind] in E; [|discriminate E].
  destruct (Kernel.safestrcpy _ _ _) as [nm|]; cbn [mbind res_bind] in E; [|discriminate E].
  match type of E with context [namei_root ?k] => destruct (namei_root k) as [r k3] end.
  injection E as <-.
  exact inv_boot.
Qed.

Lemma kinv_step x y : kinv (fst x) (snd x) -> step x y -> kinv (fst y) (snd y).
Proof.
  intros I St. destruct St; cbn [fst snd] in *.
  - by eapply kinv_alloc.
  - by eapply kinv_stack.
  - by eapply kinv_copy.
  - by eapply kinv_publish.
  - by eapply kinv_exit_close.
  - by eapply kinv_exit_final.
  - by eapply kinv_wait.
  - eapply kinv_sleep; [done| |done]. naive_solver.
  - by eapply kinv_resume.
  - by eapply kinv_yield.
  - unfold kinv, wakeup. rewrite cores_wakeup1. by apply inv_wake.
  - by apply kinv_kill.
  - by eapply kinv_set_prio.
  - by eapply kinv_growproc.
  - by eapply kinv_back.
  - by eapply kinv_dispatch.
  - destruct I as [I1 I2 I3 I4 I5 I6 I7 I8 I9 I10 I11 I12]. split; try done.
    intros j c Hj Hc. by destruct (I9 j c Hj Hc).
Qed.

Lemma reachable_inv x : reachable x -> kinv (fst x) (snd x).
Proof. induction 1; [by eapply kinv_boot|by eapply kinv_step]. Qed.

End preserve.
