(* ===== verification/Processes.v ===== *)
(** What the xv6 process code of project 3 guarantees, and where it does not. *)

From S2P Require Import Prelude Bytes Xv6String Proc ProcInv.

(** ** A kernel to run examples on *)

(** Memory never runs out while the counter is positive. *)
#[global] Instance demo_kernel : KernelOps nat := {|
  kalloc k := match k with O => (0, O) | S k' => (4096, k') end;
  kfree _ k := S k;
  setupkvm k := (8192, k);
  inituvm _ k := k;
  copyuvm _ _ k := match k with O => (0, O) | S k' => (8192, k') end;
  freevm _ k := k;
  allocuvm _ _ new k := (new, k);
  deallocuvm _ _ new k := (new, k);
  filedup _ k := k;
  fileclose _ k := k;
  namei_root k := (1, k);
  idup _ k := k;
  iput _ k := k;
  begin_op k := k;
  end_op k := k;
  forkret := 1
|}.

Definition boot (k : nat) : kst nat := Kst (replicate NPROC proc0) 1 None None k.

Definition get {A} (d : A) (r : res A) : A := match r with Ok a => a | Stuck _ => d end.

(** The first process, running. *)
Definition init_running (k : nat) : kst nat :=
  match dispatch (get (boot k) (userinit (boot k))) 0 with
  | Ok (Some (_, s)) => s
  | _ => boot k
  end.

Lemma init_running_reachable : reachable (init_running 10, Run).
Proof.
  destruct (userinit (boot 10)) as [s|] eqn:E; [|vm_compute in E; discriminate E].
  assert (Hb : reachable (s, At 0)) by (by apply (R_boot (boot 10))).
  destruct (dispatch s 0) as [[[p s1]|]|] eqn:Ed.
  - apply (R_step _ _ Hb). replace (init_running 10) with s1; [by apply (S_dispatch s 0 p)|].
    unfold init_running. rewrite E. cbn [get]. by rewrite Ed.
  - exfalso. assert (Es : s = get (boot 10) (userinit (boot 10))) by by rewrite E.
    rewrite Es in Ed. vm_compute in Ed. discriminate Ed.
  - exfalso. assert (Es : s = get (boot 10) (userinit (boot 10))) by by rewrite E.
    rewrite Es in Ed. vm_compute in Ed. discriminate Ed.
Qed.

(** ** The table *)

Section table.
Context {K : Type} `{KernelOps K}.
Implicit Types s : kst K.

(** C4: In every reachable state of the kernel, however forks, exits, waits,
    sleeps, wakeups, kills and timer switches interleave: live processes have
    positive, pairwise different pids below [nextpid]; every parent pointer
    leads to a different process that has neither exited nor been freed; and
    the only process in state RUNNING is the one the CPU executes. *)
Theorem reachable_table s ctl :
  reachable (s, ctl) ->
  (forall i p, ptable s !! i = Some p -> state p <> UNUSED -> 0 < pid p < nextpid s) /\
  (forall i j p q, ptable s !! i = Some p -> ptable s !! j = Some q ->
     state p <> UNUSED -> state q <> UNUSED -> pid p = pid q -> i = j) /\
  (forall i p q, ptable s !! i = Some p -> parent p = Some q ->
     q <> i /\ exists x, ptable s !! q = Some x /\ alive (state x)) /\
  (forall i p, ptable s !! i = Some p -> state p = RUNNING -> ctl = Run /\ cpu_proc s = Some i).
Proof.
  intros I%reachable_inv. cbn [fst snd] in I. split_and!.
  - intros i p Hp Hs. pose proof (i_pid _ _ _ _ _ I i _ (cores_Some _ _ _ Hp)) as Hr.
    pose proof (i_live _ _ _ _ _ I i _ (cores_Some _ _ _ Hp) Hs). cbn in *. lia.
  - intros i j p q Hp Hq Hsp _ E. apply (i_uniq _ _ _ _ _ I i j _ _ (cores_Some _ _ _ Hp) (cores_Some _ _ _ Hq)).
    + by apply (i_live _ _ _ _ _ I i _ (cores_Some _ _ _ Hp)).
    + done.
  - intros i p q Hp Hq. destruct (i_parent _ _ _ _ _ I i _ q (cores_Some _ _ _ Hp) Hq) as (? & d & Hd & Ha).
    split; [done|]. apply cores_lookup in Hd as (x & Hx & ->). by exists x.
  - intros i p Hp Hs. by apply (i_running _ _ _ _ _ I i _ (cores_Some _ _ _ Hp)).
Qed.

(** C3: No wakeup of a waiting parent is lost: in every reachable state, a
    process asleep in [wait] (on the address of a process slot) sleeps on its
    own slot and none of its children is a zombie, so there is nothing it could
    have collected. *)
Theorem wait_no_lost_wakeup s ctl i p q :
  reachable (s, ctl) -> ptable s !! i = Some p -> state p = SLEEPING -> chan p = ProcChan q ->
  q = i /\ forall j c, ptable s !! j = Some c -> parent c = Some i -> state c <> ZOMBIE.
Proof.
  intros I%reachable_inv Hp Hs Hc. cbn [fst snd] in I.
  destruct (i_wait _ _ _ _ _ I i _ q (cores_Some _ _ _ Hp) Hs Hc) as [-> Hz].
  split; [done|]. intros j c Hj Hpar. by apply (Hz j _ (cores_Some _ _ _ Hj)).
Qed.

(** ** Scheduling *)

Lemma find_state_None st (l : list proc) i :
  find_state st l i = None -> forall j p, l !! j = Some p -> state p <> st.
Proof.
  revert i. induction l as [|p l IH]; intros i; cbn [find_state]; [done|].
  destruct (decide _); [done|]. intros E [|j] q Hq; cbn in Hq; [by simplify_eq|by eapply (IH (S i))].
Qed.

(** C34: The scheduler never gets stuck: with its loop at slot [i], it either
    switches to a runnable process whose priority no other runnable process
    exceeds, or there is no runnable process in the rest of the table. *)
Theorem scheduler_picks_highest s i :
  (exists p x s', dispatch s i = Ok (Some (p, s')) /\ ptable s !! p = Some x /\ state x = RUNNABLE /\
     (forall j y, ptable s !! j = Some y -> state y = RUNNABLE -> priority y <= priority x) /\
     cpu_proc s' = Some p /\ ptable s' !! p = Some (set_state RUNNING x)) \/
  (dispatch s i = Ok None /\
     forall j y, (i <= j)%nat -> ptable s !! j = Some y -> state y <> RUNNABLE).
Proof.
  unfold dispatch. destruct (find_state RUNNABLE (drop i (ptable s)) i) as [q|] eqn:Ef.
  - left. pose proof (find_state_Some _ _ _ _ Ef) as (Hle & y & Hy & _). rewrite lookup_drop in Hy.
    replace (i + (q - i))%nat with q in Hy by lia.
    destruct (choose s i) as [[p|]|] eqn:Ec; unfold choose in Ec; rewrite Ef, (proj2 (at_Ok s q y) Hy) in Ec;
      cbn [mbind res_bind] in Ec; try discriminate Ec.
    assert (Ec' : choose s i = Ok (Some p))
      by (unfold choose; rewrite Ef, (proj2 (at_Ok s q y) Hy); exact Ec).
    destruct (choose_max s i p Ec') as (x & Hx & Hs & Hm). run.
    exists p, x. eexists. split_and!; try done. cbn. by rewrite list_lookup_alter_eq, Hx.
  - right. unfold choose. rewrite Ef. run. split; [done|]. intros j y Hj Hy.
    apply (find_state_None _ _ _ Ef (j - i)%nat). rewrite lookup_drop. replace (i + (j - i))%nat with j by lia. done.
Qed.

End table.

(** ** An example run: init forks a child and waits for it *)

Definition ex0 : kst nat := init_running 10.
Definition ex0' : kst nat := snd (get (None, ex0) (allocproc_slot ex0)).
Definition ex1 : kst nat := snd (get (None, ex0) (allocproc ex0)).
Definition ex2 : kst nat := snd (get (false, ex1) (fork_copy ex1 0 1)).
Definition ex3 : kst nat := upd 1 (set_state RUNNABLE) ex2.
Definition ex4 : kst nat := snd (get (NoChildren, ex3) (wait_pass ex3)).

Lemma ex3_reachable : reachable (ex3, Run).
Proof.
  assert (R1 : reachable (ex1, Run)).
  { destruct (ptable ex0' !! 1%nat) as [p|] eqn:Ep; [|vm_compute in Ep; discriminate Ep].
    apply (R_step (ex0', Run)).
    { apply (R_step (ex0, Run)); [apply init_running_reachable|]. apply (S_alloc ex0 (Some 1%nat)). vm_compute. reflexivity. }
    apply (S_stack ex0' 1%nat p (Some 1%nat)); [done| | |vm_compute; reflexivity]; vm_compute in Ep; by injection Ep as <-. }
  assert (R2 : reachable (ex2, Run)).
  { apply (R_step (ex1, Run)); [done|].
    destruct (ptable ex1 !! 1%nat) as [p|] eqn:Ep; [|vm_compute in Ep; discriminate Ep].
    apply (S_copy ex1 0%nat 1%nat p true); [vm_compute; done|done| | |vm_compute; reflexivity];
      vm_compute in Ep; by injection Ep as <-. }
  apply (R_step (ex2, Run)); [done|].
  destruct (ptable ex2 !! 1%nat) as [p|] eqn:Ep; [|vm_compute in Ep; discriminate Ep].
  apply (S_publish ex2 1%nat p); [done|]. vm_compute in Ep. by injection Ep as <-.
Qed.

Lemma ex4_reachable : reachable (ex4, Back).
Proof.
  apply (R_step (ex3, Run)); [apply ex3_reachable|].
  apply (S_wait ex3 Blocked ex4). vm_compute. reflexivity.
Qed.

Lemma reachable_table_witness :
  exists p, ptable ex4 !! 1%nat = Some p /\ 0 < pid p < nextpid ex4.
Proof.
  destruct (reachable_table ex4 Back ex4_reachable) as (Hpid & _).
  destruct (ptable ex4 !! 1%nat) as [p|] eqn:Ep; [|vm_compute in Ep; discriminate Ep].
  exists p. split; [reflexivity|]. apply (Hpid 1%nat p Ep). vm_compute in Ep. injection Ep as <-. discriminate.
Defined.

Lemma wait_no_lost_wakeup_witness :
  exists p, ptable ex4 !! 0%nat = Some p /\ state p = SLEEPING /\
    forall j c, ptable ex4 !! j = Some c -> parent c = Some 0%nat -> state c <> ZOMBIE.
Proof.
  destruct (ptable ex4 !! 0%nat) as [p|] eqn:Ep; [|vm_compute in Ep; discriminate Ep].
  assert (Hs : state p = SLEEPING /\ chan p = ProcChan 0)
    by (vm_compute in Ep; injection Ep as <-; split; reflexivity).
  exists p. split; [reflexivity|]. split; [apply Hs|].
  apply (wait_no_lost_wakeup ex4 Back 0%nat p 0%nat ex4_reachable Ep (proj1 Hs) (proj2 Hs)).
Defined.

(** ** Creating and collecting *)

Section life.
Context {K : Type} `{KernelOps K}.
Implicit Types s : kst K.

Lemma allocproc_inv s np s' :
  allocproc s = Ok (np, s') ->
  (np = None /\ s' = s) \/
  exists p x f, ptable s !! p = Some x /\ state x = UNUSED /\ ptable s' = alter f p (ptable s) /\
    cpu_proc s' = cpu_proc s /\ initproc s' = initproc s /\ nextpid s' = nextpid s + 1 /\
    ((np = None /\ state (f x) = UNUSED) \/
     (np = Some p /\ state (f x) = EMBRYO /\ pid (f x) = nextpid s /\ priority (f x) = 500 /\
      nswitch (f x) = 0 /\ killed (f x) = killed x /\ ofile (f x) = ofile x /\ name (f x) = name x /\
      ctx (f x) = fresh_context /\ kalloc (env s) = (kstack (f x), env s') /\ kstack (f x) <> 0)).
Proof.
  unfold allocproc, allocproc_slot. destruct (find_state UNUSED (ptable s) 0) as [p|] eqn:Ef.
  2:{ intros [= <- <-]. by left. }
  apply find_state_Some in Ef as (_ & x & Hx & Hst). rewrite Nat.sub_0_r in Hx. intros E. right.
  destruct (c_int (nextpid s + 1)) as [nx|] eqn:En; cbn [mbind res_bind] in E; [|discriminate E].
  assert (nx = nextpid s + 1) as -> by (unfold c_int in En; destruct (_ && _); congruence).
  unfold allocproc_stack in E. cbn [env upd with_ptable] in E. destruct (kalloc (env s)) as [a k'] eqn:Ek.
  exists p, x. destruct (Z.eqb_spec a 0) as [Ha|Ha]; injection E as <- <-; eexists; (split; [done|]; split; [done|]);
    (split; [cbn [ptable upd with_ptable with_env]; rewrite !list_alter_alter_eq; reflexivity|]);
    do 3 (split; [done|]); [by left|right; by split_and!].
Qed.

(** The descriptors of the child and the references that [filedup] counts. *)
Lemma dup_files_spec fs : forall gs k,
  (dup_files fs gs k).2 = foldl (fun k f => filedup f k) k (filter (fun f => f <> 0) (take (length gs) fs)) /\
  length (dup_files fs gs k).1 = length gs /\
  forall (i : nat) f g, fs !! i = Some f -> gs !! i = Some g ->
    (dup_files fs gs k).1 !! i = Some (if f =? 0 then g else f).
Proof.
  induction fs as [|f fs IH]; intros gs k; [by rewrite take_nil|]. destruct gs as [|g gs]; [done|]. cbn [dup_files length take].
  destruct (Z.eqb_spec f 0) as [Hf|Hf].
  - specialize (IH gs k). destruct (dup_files fs gs k) as [l k']. destruct IH as (H1 & H2 & H3).
    rewrite filter_cons_False by tauto. split; [done|]. split; [cbn [fst length] in *; congruence|].
    intros [|i] f' g' Hf' Hg'; [|by apply (H3 i)]. injection Hf' as <-. injection Hg' as <-. by rewrite Hf.
  - specialize (IH gs (filedup f k)). destruct (dup_files fs gs (filedup f k)) as [l k']. destruct IH as (H1 & H2 & H3).
    rewrite filter_cons_True by done. split; [done|]. split; [cbn [fst length] in *; congruence|].
    intros [|i] f' g' Hf' Hg'; [|by apply (H3 i)]. injection Hf' as <-. by rewrite (proj2 (Z.eqb_neq _ _) Hf).
Qed.

(** What the child [n] has of its parent [c]: the memory copied in [k], giving
    [k'] with the files and the directory referenced once more; [old] is the
    child's slot before.  The caller's open files are the child's; a descriptor
    that is closed in the caller is left as the slot had it. *)
Definition inherits (c old n : proc) (k k' : K) : Prop :=
  exists k1, copyuvm (pgdir c) (sz c) k = (pgdir n, k1) /\ pgdir n <> 0 /\ sz n = sz c /\
    k' = idup (cwd c) (foldl (fun k f => filedup f k) k1 (filter (fun f => f <> 0) (take (length (ofile old)) (ofile c)))) /\
    length (ofile n) = length (ofile old) /\
    (forall (i : nat) f g, ofile c !! i = Some f -> ofile old !! i = Some g -> ofile n !! i = Some (if f =? 0 then g else f)) /\
    cwd n = cwd c /\ Kernel.safestrcpy (name old) (name c) 16 = Ok (name n) /\
    tf n = Trapframe 0 (t_es (tf c)) (t_ds (tf c)) (t_cs (tf c)) (t_ss (tf c))
             (t_eflags (tf c)) (t_esp (tf c)) (t_eip (tf c)) (t_others (tf c)).

Lemma fork_copy_inv s cur np ok s' c n :
  ptable s !! cur = Some c -> ptable s !! np = Some n -> fork_copy s cur np = Ok (ok, s') ->
  exists f, ptable s' = alter f np (ptable s) /\ cpu_proc s' = cpu_proc s /\ nextpid s' = nextpid s /\
    if (ok : bool) then
      inherits c n (f n) (env s) (env s') /\ pid (f n) = pid n /\ parent (f n) = Some cur /\ ppid (f n) = pid c /\
      priority (f n) = priority n /\ nswitch (f n) = nswitch n /\ killed (f n) = killed n /\
      kstack (f n) = kstack n /\ ctx (f n) = ctx n
    else state (f n) = UNUSED.
Proof.
  intros Hc Hn E. unfold fork_copy in E. rewrite (proj2 (at_Ok s cur c) Hc) in E. cbn [mbind res_bind] in E.
  rewrite (proj2 (at_Ok s np n) Hn) in E. cbn [mbind res_bind] in E.
  destruct (copyuvm _ _ _) as [d k] eqn:Ed. destruct (Z.eqb_spec d 0) as [Hd|Hd].
  - injection E as <- <-. eexists. split; [cbn [ptable upd with_ptable with_env]; rewrite !list_alter_alter_eq; reflexivity|done].
  - pose proof (dup_files_spec (ofile c) (ofile n) k) as Hdup. cbn [env upd with_ptable with_env] in E.
    destruct (dup_files (ofile c) (ofile n) k) as [fl k']. destruct Hdup as (Hk & Hlen & Hfl). cbn [fst snd] in *. subst k'.
    destruct (Kernel.safestrcpy _ _ _) as [nm|] eqn:Enm; cbn [mbind res_bind] in E; [|discriminate E].
    injection E as <- <-. eexists.
    split; [cbn [ptable upd with_ptable with_env]; rewrite !list_alter_alter_eq; reflexivity|].
    split; [done|]. split; [done|]. split; [exists k; by split_and!|by split_and!].
Qed.

(** C35: [fork] either fails with -1, in which case every existing process is as
    before and no slot came into use, or it takes an unused slot for a child
    with the fresh pid it returns, runnable, with the caller as parent, a kernel
    stack, a context that starts in [forkret], the default priority 500 and no
    context switches; the child [inherits] from the caller a copy of the memory,
    the open files and the directory with one reference more, the name, and the
    registers except [%eax], which is 0.  All other slots are unchanged. *)
Theorem fork_creates_child s r s' :
  reachable (s, Run) -> fork s = Ok (r, s') ->
  (r = -1 /\ forall j p, ptable s !! j = Some p ->
     if decide (state p = UNUSED) then exists p', ptable s' !! j = Some p' /\ state p' = UNUSED
     else ptable s' !! j = Some p) \/
  (exists cur c np old n, cpu_proc s = Some cur /\ ptable s !! cur = Some c /\
     ptable s !! np = Some old /\ state old = UNUSED /\ ptable s' = <[np := n]> (ptable s) /\
     state n = RUNNABLE /\ pid n = r /\ r = nextpid s /\ nextpid s' = nextpid s + 1 /\
     parent n = Some cur /\ ppid n = pid c /\
     (exists k, kalloc (env s) = (kstack n, k) /\ kstack n <> 0 /\ inherits c old n k (env s')) /\
     ctx n = fresh_context /\ priority n = 500 /\ nswitch n = 0 /\ killed n = killed old).
Proof.
  intros I%reachable_inv E. cbn [fst snd] in I.
  destruct (running_proc s I) as (cur & c & Hcpu & Hc & Hrun). unfold fork in E.
  rewrite (proj2 (myproc_Ok s cur) Hcpu) in E. apply bind_Ok in E as (cur' & [= <-] & E).
  apply bind_Ok in E as ([np s1] & Ea & E).
  destruct (allocproc_inv s np s1 Ea) as [[-> ->]|(p & x & f & Hx & Hst & Ept & Ecpu & _ & En & Hcase)].
  { injection E as <- <-. left. split; [done|]. intros j q Hq. destruct (decide _); eauto. }
  assert (Hfail : forall g s2, ptable s2 = alter g p (ptable s) -> state (g x) = UNUSED ->
    forall j q, ptable s !! j = Some q ->
     if decide (state q = UNUSED) then exists p', ptable s2 !! j = Some p' /\ state p' = UNUSED
     else ptable s2 !! j = Some q).
  { intros g s2 E2 Hg j q Hq. rewrite E2. destruct (decide (j = p)) as [->|Hne].
    - assert (q = x) as -> by congruence. rewrite decide_True by done. rewrite list_lookup_alter_eq, Hx. by eexists.
    - rewrite list_lookup_alter_ne by done. destruct (decide _); eauto. }
  destruct Hcase as [[-> Hu]|(-> & He & Hpid & Hprio & Hsw & Hk & Hof & Hnm & Hctx & Hks & Hks0)].
  { injection E as <- <-. left. split; [done|]. by apply (Hfail f). }
  assert (Hcp : cur <> p) by (intros ->; congruence).
  assert (Hc1 : ptable s1 !! cur = Some c) by (by rewrite Ept, list_lookup_alter_ne by done).
  assert (Hp1 : ptable s1 !! p = Some (f x)) by (by rewrite Ept, list_lookup_alter_eq, Hx).
  apply bind_Ok in E as ([ok s2] & Ef & E).
  destruct (fork_copy_inv s1 cur p ok s2 c (f x) Hc1 Hp1 Ef) as (g & Ept2 & Ecpu2 & En2 & Hok).
  rewrite Ept, list_alter_alter_eq in Ept2. destruct ok.
  - right. assert (Hn : ptable s2 !! p = Some (g (f x))) by (by rewrite Ept2, list_lookup_alter_eq, Hx).
    rewrite (proj2 (at_Ok s2 p _) Hn) in E. injection E as <- <-.
    destruct Hok as (Hinh & O1 & O2 & O3 & O4 & O5 & O6 & O7 & O8).
    exists cur, c, p, x, (set_state RUNNABLE (g (f x))).
    split_and!; try done; cbn; try congruence.
    + rewrite Ept2, list_alter_alter_eq. by rewrite (alter_insert _ _ _ _ Hx).
    + exists (env s1). rewrite O7. split; [exact Hks|]. split; [exact Hks0|]. unfold inherits in Hinh |- *. by rewrite <- Hof, <- Hnm.
  - injection E as <- <-. left. split; [done|]. by apply (Hfail (g ∘ f)).
Qed.

(** One pass of [wait] always completes, in one of three ways: it frees the
    slot of a zombie child and returns that child's pid, leaving the other
    slots alone; or there is no zombie child and the caller has no child at all
    or was killed, and it gives up without changes; or the caller has children,
    none of them a zombie, and goes to sleep on its own slot. *)
Theorem wait_outcomes s cur c :
  reachable (s, Run) -> cpu_proc s = Some cur -> ptable s !! cur = Some c ->
  exists r s', wait_pass s = Ok (r, s') /\
  match r with
  | Reaped n => exists i p p', ptable s !! i = Some p /\ parent p = Some cur /\ state p = ZOMBIE /\ pid p = n /\
      ptable s' = <[i := p']> (ptable s) /\ state p' = UNUSED /\ pid p' = 0 /\ parent p' = None /\ killed p' = 0
  | NoChildren => s' = s /\ (forall j p, ptable s !! j = Some p -> parent p = Some cur -> state p <> ZOMBIE) /\
      (killed c <> 0 \/ forall j p, ptable s !! j = Some p -> parent p <> Some cur)
  | Blocked => (exists j p, ptable s !! j = Some p /\ parent p = Some cur) /\ killed c = 0 /\
      (forall j p, ptable s !! j = Some p -> parent p = Some cur -> state p <> ZOMBIE) /\
      ptable s' = <[cur := set_state SLEEPING (set_chan (ProcChan cur) c)]> (ptable s)
  end.
Proof.
  intros I%reachable_inv Hcpu Hc. cbn [fst snd] in I. unfold wait_pass.
  rewrite (proj2 (myproc_Ok s cur) Hcpu). run. rewrite (proj2 (at_Ok s cur c) Hc). run.
  pose proof (scan_children_spec cur (ptable s) 0 false) as Hscan.
  destruct (scan_children cur (ptable s) 0 false) as [[k|] hk].
  - destruct Hscan as (_ & p & Hp & Hpar & Hz). rewrite Nat.sub_0_r in Hp.
    rewrite (proj2 (at_Ok s k p) Hp). run. do 2 eexists. split; [done|].
    exists k, p. eexists. split_and!; try done.
    + cbn [ptable upd with_ptable with_env]. rewrite !list_alter_alter_eq. by rewrite (alter_insert _ _ _ _ Hp).
    + done.
    + done.
    + done.
    + done.
  - destruct Hscan as [Hnz Hhk]. destruct hk; cbn [negb orb].
    + destruct (Z.eqb_spec (killed c) 0) as [Hk|Hk]; cbn [negb].
      * unfold sleep. rewrite Hcpu. unfold sched. rewrite (proj2 (myproc_Ok _ cur)) by done. run.
        rewrite (proj2 (at_Ok _ cur (set_state SLEEPING (set_chan (ProcChan cur) c)))).
        2:{ cbn. by rewrite !list_alter_alter_eq, list_lookup_alter_eq, Hc. }
        run. rewrite decide_False by done. run. do 2 eexists. split; [done|]. cbn beta iota.
        split_and!; [|done|done|].
        -- destruct (proj1 Hhk eq_refl) as [?|?]; done.
        -- cbn [ptable upd with_ptable]. rewrite list_alter_alter_eq. by rewrite (alter_insert _ _ _ _ Hc).
      * do 2 eexists. split; [done|]. cbn. eauto.
    + do 2 eexists. split; [done|]. cbn. split_and!; [done|done|]. right. intros j p Hj Hp.
      assert (false = true) by (apply Hhk; eauto). done.
Qed.

End life.

Lemma fork_creates_child_witness :
  exists cur c np old n, cpu_proc ex0 = Some cur /\ ptable ex0 !! cur = Some c /\
     ptable ex0 !! np = Some old /\ ptable (snd (get (0, ex0) (fork ex0))) = <[np := n]> (ptable ex0) /\
     state n = RUNNABLE /\ pid n = 2 /\ parent n = Some cur.
Proof.
  destruct (fork ex0) as [[r s']|] eqn:E; [|vm_compute in E; discriminate E].
  destruct (fork_creates_child ex0 r s' init_running_reachable E)
    as [[-> _]|(cur & c & np & old & n & H1 & H2 & H3 & H4 & H5 & H6 & H7 & H8 & H9 & H10 & _)].
  - vm_compute in E. discriminate E.
  - exists cur, c, np, old, n. cbn [get snd]. split_and!; try assumption. rewrite H7, H8. reflexivity.
Defined.


Lemma wait_outcomes_witness :
  exists c s', ptable ex3 !! 0%nat = Some c /\ wait_pass ex3 = Ok (Blocked, s') /\
    ptable s' = <[0%nat := set_state SLEEPING (set_chan (ProcChan 0) c)]> (ptable ex3).
Proof.
  destruct (ptable ex3 !! 0%nat) as [c|] eqn:Ec; [|vm_compute in Ec; discriminate Ec].
  assert (Hcpu : cpu_proc ex3 = Some 0%nat) by (vm_compute; reflexivity).
  destruct (wait_outcomes ex3 0%nat c ex3_reachable Hcpu Ec) as (r & s' & E & Hr).
  assert (r = Blocked) as -> by (vm_compute in E; congruence).
  exists c, s'. split; [reflexivity|]. split; [exact E|]. apply Hr.
Defined.

(** ** Where it falls short *)

(** One turn of the scheduler with its loop at slot [i]: it switches to a
    process, which runs until the timer makes it yield. *)
Definition turn {K} `{KernelOps K} (s : kst K) (i : nat) : res (option (nat * kst K)) :=
  d ← dispatch s i;
  match d with
  | None => Ok None
  | Some (p, s) => s ← yield s; s ← switched_back s p; Ok (Some (p, s))
  end.

(** The processes that get the next [n] turns. *)
Fixpoint turns {K} `{KernelOps K} (n : nat) (s : kst K) (i : nat) : res (list nat) :=
  match n with
  | O => Ok []
  | S n' =>
      t ← turn s i;
      match t with
      | None => turns n' s 0
      | Some (p, s) => l ← turns n' s (S p); Ok (p :: l)
      end
  end.

(** Process [a] is the first of the processes of highest priority, and the next
    runnable process after it, [b], has a lower priority. *)
Record hogs (l : list proc) (a b : nat) : Prop := {
  hg_a : exists x, l !! a = Some x /\ state x = RUNNABLE /\
    (forall j y, l !! j = Some y -> state y = RUNNABLE -> priority y <= priority x /\ ((j < a)%nat -> priority y < priority x)) /\
    exists y, l !! b = Some y /\ state y = RUNNABLE /\ priority y < priority x;
  hg_b : (a < b)%nat /\ forall j y, (a < j < b)%nat -> l !! j = Some y -> state y <> RUNNABLE
}.

Lemma find_state_first st (l : list proc) i k y :
  l !! k = Some y -> state y = st -> (forall j x, (j < k)%nat -> l !! j = Some x -> state x <> st) ->
  find_state st l i = Some (i + k)%nat.
Proof.
  revert i k. induction l as [|p l IH]; intros i k Hk Hs Hb; [done|]. cbn [find_state].
  destruct k as [|k]; cbn in Hk.
  - injection Hk as ->. rewrite decide_True by done. f_equal. lia.
  - rewrite decide_False by (apply (Hb 0%nat); [lia|done]).
    rewrite (IH (S i) k) by (done || (intros j x Hj Hx; apply (Hb (S j)); [lia|done])). f_equal. lia.
Qed.

Lemma hogs_choose {K} `{KernelOps K} (s : kst K) a b : hogs (ptable s) a b -> choose s (S a) = Ok (Some a).
Proof.
  intros [(x & Hx & Hs & Hm & y & Hy & Hsy & Hlt) [Hab Hb]]. unfold choose.
  rewrite (find_state_first RUNNABLE (drop (S a) (ptable s)) (S a) (b - S a) y).
  - replace (S a + (b - S a))%nat with b by lia. rewrite (proj2 (at_Ok s b y) Hy). run. do 2 f_equal.
    destruct (highest_spec (ptable s) 0 b (priority y)) as [[_ Hle]|(j & z & -> & Hz & Hsz & Hl & Hmz)].
    + pose proof (Hle a x Hx Hs). lia.
    + destruct (Hm j z Hz Hsz) as [Hz1 Hz2]. destruct (Hmz a x Hx Hs) as [Hx1 Hx2].
      destruct (Nat.lt_trichotomy j a) as [Hj|[->|Hj]]; [specialize (Hz2 Hj); lia|done|specialize (Hx2 Hj); lia].
  - rewrite lookup_drop. by replace (S a + (b - S a))%nat with b by lia.
  - done.
  - intros j z Hj. rewrite lookup_drop. intros Hz. apply (Hb (S a + j)%nat); [lia|done].
Qed.

Lemma hogs_turn {K} `{KernelOps K} (s : kst K) a b x :
  hogs (ptable s) a b -> ptable s !! a = Some x -> 0 <= nswitch x < 2 ^ 31 - 1 ->
  exists s', turn s (S a) = Ok (Some (a, s')) /\ hogs (ptable s') a b /\
    exists x', ptable s' !! a = Some x' /\ nswitch x' = nswitch x + 1.
Proof.
  intros Hh Hx Hn. unfold turn, dispatch. rewrite (hogs_choose s a b Hh). run.
  unfold yield. rewrite (proj2 (myproc_Ok _ a)) by done. run.
  set (s1 := upd a (set_state RUNNABLE) _).
  assert (Hs : state x = RUNNABLE) by (destruct Hh as [(x' & Hx' & Hs & _) _]; congruence).
  assert (E1 : ptable s1 = ptable s).
  { unfold s1. cbn. rewrite list_alter_alter_eq, (alter_insert _ _ _ _ Hx). apply list_insert_id. rewrite Hx.
    unfold compose. f_equal. destruct x. cbn in *. by subst. }
  assert (H1 : ptable s1 !! a = Some x) by by rewrite E1.
  unfold sched. rewrite (proj2 (myproc_Ok s1 a)) by done. run. rewrite (proj2 (at_Ok s1 a x) H1). run.
  rewrite decide_False by congruence. run. unfold switched_back. rewrite (proj2 (at_Ok s1 a x) H1). run.
  rewrite c_int_Ok by lia. run. eexists. split; [done|]. cbn [ptable with_cpu upd with_ptable]. rewrite E1.
  rewrite (alter_insert _ _ _ _ Hx).
  assert (Ha : (a < length (ptable s))%nat) by eauto with ssu. split.
  - destruct Hh as [(x' & Hx' & Hs' & Hm & y & Hy & Hsy & Hlt) [Hab Hb]].
    assert (x' = x) as -> by congruence.
    assert (Hold : forall (j : nat) z, <[a := set_nswitch (nswitch x + 1) x]> (ptable s) !! j = Some z ->
      exists z', ptable s !! j = Some z' /\ state z' = state z /\ priority z' = priority z).
    { intros j z [(<- & <- & _)|[_ Hz]]%list_lookup_insert_Some; [by exists x|by exists z]. }
    split.
    + exists (set_nswitch (nswitch x + 1) x). rewrite list_lookup_insert_eq by done. split_and!; [done|done| |].
      * intros j z (z' & Hz' & E2 & <-)%Hold Hsz. apply (Hm j z' Hz'). congruence.
      * exists y. rewrite list_lookup_insert_ne by lia. done.
    + split; [done|]. intros j z Hj (z' & Hz' & E2 & _)%Hold. rewrite <- E2. by apply (Hb j).
  - eexists. split; [by apply list_lookup_insert_eq|done].
Qed.

(** C38: Processes of equal priority are not served in turn.  When the first
    process [a] of the highest priority is followed in the table by a runnable
    process of lower priority, the scheduler, which restarts its scan behind
    the chosen process but picks the first maximum of the whole table, gives
    [a] every turn; another process with the same priority further on never
    runs as long as [a] just yields. *)
Theorem scheduler_starves_equal_priority {K} `{KernelOps K} (s : kst K) a b x n :
  hogs (ptable s) a b -> ptable s !! a = Some x -> 0 <= nswitch x -> nswitch x + Z.of_nat n < 2 ^ 31 ->
  turns n s (S a) = Ok (replicate n a).
Proof.
  revert s x. induction n as [|n IH]; intros s x Hh Hx H0 Hn; [done|]. cbn [turns replicate].
  destruct (hogs_turn s a b x Hh Hx) as (s' & -> & Hh' & x' & Hx' & En); [lia|]. run.
  rewrite (IH s' x' Hh' Hx') by lia. done.
Qed.

Definition runnable_with (n prio : Z) : proc := set_state RUNNABLE (set_pid n (set_priority prio proc0)).

Lemma scheduler_starves_equal_priority_witness :
  turns 1000 (Kst [runnable_with 1 500; runnable_with 2 400; runnable_with 3 500] 4 (Some 0%nat) None 10%nat) 1 =
  Ok (replicate 1000 0%nat).
Proof.
  apply (scheduler_starves_equal_priority
    (Kst [runnable_with 1 500; runnable_with 2 400; runnable_with 3 500] 4 (Some 0%nat) None 10%nat)
    0%nat 1%nat (runnable_with 1 500)); [|reflexivity|cbn; lia|cbn; lia].
  split.
  - exists (runnable_with 1 500). split_and!; [reflexivity|reflexivity| |].
    + intros [|[|[|j]]] y Hy _; cbn in Hy; simplify_eq; cbn; lia.
    + exists (runnable_with 2 400). split_and!; [reflexivity|reflexivity|cbn; lia].
  - split; [lia|]. intros j y Hj. lia.
Defined.

(** [kill(0)] reports success and marks the first free slot as killed,
    because free slots have pid 0 and the state is not checked; [allocproc]
    does not clear the mark, so the next process created in that slot is killed
    at birth. *)
Theorem kill_zero_poisons_slot :
  fst (kill ex0 0) = 0 /\
  exists pid s' child, fork (snd (kill ex0 0)) = Ok (pid, s') /\ find_pid pid (ptable s') 0 = Some child /\
    (killed <$> (ptable s' !! child)) = Some 1.
Proof.
  split; [vm_compute; reflexivity|]. exists 2. eexists. exists 1%nat.
  split; [vm_compute; reflexivity|]. split; vm_compute; reflexivity.
Qed.

(** A [fork] that fails for lack of memory leaves the pid in the slot it
    gives back: afterwards [get_num_proc] counts two processes, [get_max_pid]
    reports the pid of the process that was never created and [get_proc_info]
    describes it, although only init exists. *)
Theorem failed_fork_counted :
  let s := init_running 1 in
  let s' := snd (get (0, s) (fork s)) in
  fst (get (0, s) (fork s)) = -1 /\ get_num_proc s = 1 /\ get_num_proc s' = 2 /\ get_max_pid s' = 2 /\
  fst (get_proc_info s' 2) = 0 /\ length (filter (fun p => state p <> UNUSED) (ptable s')) = 1%nat.
Proof. vm_compute. split_and!; reflexivity. Qed.
