(* ===== verification/MasterWorker.v ===== *)
(** The producer/consumer program of project 4 (1/master-worker.c): master
    threads put the items 0, 1, ... into a shared buffer, worker threads take
    them out.  Every access to the shared variables happens between
    [pthread_mutex_lock] and [pthread_mutex_unlock], so one iteration of a
    thread's loop is one transition; any running thread may make the next one. *)

From S2P Require Import Prelude.

(** The globals and arguments, and the lines printed so far. *)
Inductive event := Produced (num : Z) (master : nat) | Consumed (num : Z) (worker : nat).

Record mw := Mw {
  item_to_produce : Z;
  curr_buf_size : Z;
  buffer : list Z;
  output : list event
}.

Record config := Config { total_items : Z; max_buf_size : Z; num_workers : nat; num_masters : nat }.

(** Whether the iteration left the loop. *)
Inductive flow := Break | Continue.

Section program.
Context (cf : config).

(** One iteration of [generate_requests_loop]. *)
Definition generate_request (thread_id : nat) (s : mw) : res (flow * mw) :=
  if item_to_produce s >=? total_items cf then Ok (Break, s)
  else if curr_buf_size s >=? max_buf_size cf then Ok (Continue, s)
  else
    buf ← aset (buffer s) (curr_buf_size s) (item_to_produce s);
    size ← c_int (curr_buf_size s + 1);
    next ← c_int (item_to_produce s + 1);
    Ok (Continue, Mw next size buf (output s ++ [Produced (item_to_produce s) thread_id])).

(** One iteration of [generate_working_loop]. *)
Definition generate_work (thread_id : nat) (s : mw) : res (flow * mw) :=
  if curr_buf_size s =? 0 then
    if item_to_produce s >=? total_items cf then Ok (Break, s) else Ok (Continue, s)
  else
    size ← c_int (curr_buf_size s - 1);
    item ← aget (buffer s) size;
    Ok (Continue, Mw (item_to_produce s) size (buffer s) (output s ++ [Consumed item thread_id])).

(** ** The threads *)

Record world := World { shared : mw; masters : list bool; workers : list bool }.

(** [main] up to the joins; the new buffer holds arbitrary bytes [garbage]. *)
Definition start (garbage : list Z) : world :=
  World (Mw 0 0 garbage []) (replicate (num_masters cf) true) (replicate (num_workers cf) true).

Definition running (f : flow) : bool := match f with Break => false | Continue => true end.

Inductive mw_step : world -> world -> Prop :=
| master_step w i f s : masters w !! i = Some true -> generate_request i (shared w) = Ok (f, s) ->
    mw_step w (World s (<[i := running f]> (masters w)) (workers w))
| worker_step w i f s : workers w !! i = Some true -> generate_work i (shared w) = Ok (f, s) ->
    mw_step w (World s (masters w) (<[i := running f]> (workers w))).

Inductive mw_reachable (garbage : list Z) : world -> Prop :=
| mw_start : mw_reachable garbage (start garbage)
| mw_next w w' : mw_reachable garbage w -> mw_step w w' -> mw_reachable garbage w'.

Definition finished (w : world) : Prop := (true ∉ masters w) /\ (true ∉ workers w).

(** ** Invariant *)

Fixpoint produced (l : list event) : list Z :=
  match l with [] => [] | Produced n _ :: l' => n :: produced l' | Consumed _ _ :: l' => produced l' end.
Fixpoint consumed (l : list event) : list Z :=
  match l with [] => [] | Consumed n _ :: l' => n :: consumed l' | Produced _ _ :: l' => consumed l' end.

(** The numbers 0, ..., n - 1. *)
Definition upto (n : Z) : list Z := Z.of_nat <$> seq 0 (Z.to_nat n).

Definition valid_config : Prop :=
  0 <= total_items cf < 2 ^ 31 - 1 /\ 0 <= max_buf_size cf < 2 ^ 31 - 1.

Record mw_inv (s : mw) : Prop := {
  mi_items : 0 <= item_to_produce s <= total_items cf;
  mi_size : 0 <= curr_buf_size s <= max_buf_size cf;
  mi_buffer : Z.of_nat (length (buffer s)) = max_buf_size cf;
  mi_produced : produced (output s) = upto (item_to_produce s);
  mi_conserved : upto (item_to_produce s) ≡ₚ
    consumed (output s) ++ take (Z.to_nat (curr_buf_size s)) (buffer s)
}.

Lemma produced_app l1 l2 : produced (l1 ++ l2) = produced l1 ++ produced l2.
Proof. induction l1 as [|[n m|n w] l1 IH]; cbn; [done|by rewrite IH|done]. Qed.

Lemma consumed_app l1 l2 : consumed (l1 ++ l2) = consumed l1 ++ consumed l2.
Proof. induction l1 as [|[n m|n w] l1 IH]; cbn; [done|done|by rewrite IH]. Qed.

Lemma upto_S n : 0 <= n -> upto (n + 1) = upto n ++ [n].
Proof.
  intros Hn. unfold upto. replace (Z.to_nat (n + 1)) with (S (Z.to_nat n)) by lia.
  rewrite seq_S, fmap_app. cbn. do 2 f_equal. lia.
Qed.

Lemma request_ok i s :
  valid_config -> mw_inv s ->
  exists f s', generate_request i s = Ok (f, s') /\ mw_inv s' /\
    (f = Break <-> item_to_produce s = total_items cf) /\
    (f = Break \/ curr_buf_size s = max_buf_size cf -> s' = s) /\
    (f = Continue -> curr_buf_size s < max_buf_size cf ->
      item_to_produce s' = item_to_produce s + 1 /\ curr_buf_size s' = curr_buf_size s + 1).
Proof.
  intros [Ht Hm] [I1 I2 I3 I4 I5]. unfold generate_request.
  destruct (Z.geb_spec (item_to_produce s) (total_items cf)) as [Hge|Hlt].
  { exists Break, s. split; [done|]. split; [by split|]. split; [naive_solver lia|done]. }
  destruct (Z.geb_spec (curr_buf_size s) (max_buf_size cf)) as [Hfull|Hroom].
  { exists Continue, s. split; [done|]. split; [by split|]. split; [naive_solver lia|]. split; [done|lia]. }
  set (k := Z.to_nat (curr_buf_size s)). replace (curr_buf_size s) with (Z.of_nat k) by lia.
  rewrite aset_nat by lia. run. rewrite !c_int_Ok by lia. run. do 2 eexists. split; [done|].
  split; [|split; [naive_solver lia|split; [|cbn; lia]]].
  - split; cbn; [lia|lia|by rewrite length_insert| |].
    + rewrite produced_app, I4, upto_S by lia. done.
    + rewrite consumed_app, upto_S by lia. cbn [consumed]. rewrite app_nil_r.
      replace (Z.to_nat (Z.of_nat k + 1)) with (S k) by lia.
      rewrite (take_S_r _ k (item_to_produce s)) by (apply list_lookup_insert_eq; lia).
      rewrite take_insert_ge by lia. rewrite I5, app_assoc. done.
  - intros [?|?]; [done|lia].
Qed.

Lemma work_ok i s :
  valid_config -> mw_inv s ->
  exists f s', generate_work i s = Ok (f, s') /\ mw_inv s' /\ item_to_produce s' = item_to_produce s /\
    (f = Break <-> curr_buf_size s = 0 /\ item_to_produce s = total_items cf) /\
    (curr_buf_size s = 0 -> s' = s) /\
    (0 < curr_buf_size s -> curr_buf_size s' = curr_buf_size s - 1).
Proof.
  intros [Ht Hm] [I1 I2 I3 I4 I5]. unfold generate_work.
  destruct (Z.eqb_spec (curr_buf_size s) 0) as [E|Hne].
  - destruct (Z.geb_spec (item_to_produce s) (total_items cf));
      (do 2 eexists; split; [done|]; split; [by split|]; split; [done|]; split; [naive_solver lia|]; split; [done|lia]).
  - rewrite c_int_Ok by lia. run. set (k := Z.to_nat (curr_buf_size s - 1)).
    destruct (lookup_lt_is_Some_2 (buffer s) k) as [x Hx]; [lia|].
    replace (curr_buf_size s - 1) with (Z.of_nat k) by lia. rewrite (aget_nat _ _ _ Hx). run.
    do 2 eexists. split; [done|]. split; [|split; [done|split; [naive_solver lia|cbn; split; [lia|lia]]]].
    split; cbn; [lia|lia|done| |].
    + by rewrite produced_app, app_nil_r.
    + rewrite consumed_app, I5. cbn [consumed]. replace (Z.to_nat (curr_buf_size s)) with (S k) by lia.
      rewrite (take_S_r _ k x Hx), Nat2Z.id. rewrite <- !app_assoc. f_equiv.
      by rewrite Permutation_app_comm.
Qed.

(** The shared state and what finished threads imply. *)
Record world_inv (w : world) : Prop := {
  wi_inv : mw_inv (shared w);
  wi_masters : length (masters w) = num_masters cf;
  wi_workers : length (workers w) = num_workers cf;
  wi_master_done : false ∈ masters w -> item_to_produce (shared w) = total_items cf;
  wi_worker_done : false ∈ workers w ->
    item_to_produce (shared w) = total_items cf /\ curr_buf_size (shared w) = 0
}.

Lemma elem_of_set_flag (l : list bool) i f :
  false ∈ <[i := running f]> l -> f = Break \/ false ∈ l.
Proof.
  intros [j Hj]%list_elem_of_lookup. apply list_lookup_insert_Some in Hj as [(_ & E & _)|[_ Hj]].
  - left. by destruct f.
  - right. by eapply list_elem_of_lookup_2.
Qed.

Lemma world_inv_step w w' : valid_config -> world_inv w -> mw_step w w' -> world_inv w'.
Proof.
  intros V HI St. revert HI. destruct St as [w0 i f s Hi E|w0 i f s Hi E]; intros [I M W MD WD].
  - destruct (request_ok i (shared w0) V I) as (f' & s' & E' & I' & HB & Hsame & Hprog).
    rewrite E in E'. injection E' as <- <-. destruct I as [I1 I2 I3 I4 I5].
    split; cbn; [done|by rewrite length_insert|done| |].
    + intros [->|Hd]%elem_of_set_flag.
      * rewrite (Hsame (or_introl eq_refl)). by apply HB.
      * assert (f = Break) as -> by (apply HB; by apply MD). rewrite (Hsame (or_introl eq_refl)). by apply MD.
    + intros Hd. destruct (WD Hd) as [Ht Hz].
      assert (f = Break) as -> by (by apply HB). rewrite (Hsame (or_introl eq_refl)). done.
  - destruct (work_ok i (shared w0) V I) as (f' & s' & E' & I' & Hitem & HB & Hsame & Hprog).
    rewrite E in E'. injection E' as <- <-.
    split; cbn; [done|done|by rewrite length_insert| |].
    + rewrite Hitem. done.
    + rewrite Hitem. intros [->|Hd]%elem_of_set_flag.
      * destruct (proj1 HB eq_refl) as [Hz Ht]. by rewrite (Hsame Hz).
      * destruct (WD Hd) as [Ht Hz]. by rewrite (Hsame Hz).
Qed.

Lemma world_inv_reachable garbage w :
  valid_config -> Z.of_nat (length garbage) = max_buf_size cf -> mw_reachable garbage w -> world_inv w.
Proof.
  intros V Hg. induction 1 as [|w w' _ IH Hs]; [|by eapply world_inv_step].
  destruct V as [Ht Hm]. split; cbn; [|by rewrite length_replicate..| |].
  - split; cbn; [lia|lia|done|done|done].
  - intros [j Hj]%list_elem_of_lookup. apply lookup_replicate in Hj as [Hj _]. discriminate Hj.
  - intros [j Hj]%list_elem_of_lookup. apply lookup_replicate in Hj as [Hj _]. discriminate Hj.
Qed.

(** What is left to do: items to produce and to consume, threads to end. *)
Definition count_true (l : list bool) : nat := length (filter (fun b => b = true) l).

Definition work_left (w : world) : Z :=
  2 * (total_items cf - item_to_produce (shared w)) + curr_buf_size (shared w)
  + Z.of_nat (count_true (masters w)) + Z.of_nat (count_true (workers w)).

Lemma count_true_end (l : list bool) i : l !! i = Some true ->
  count_true l = S (count_true (<[i := false]> l)).
Proof.
  unfold count_true. revert i. induction l as [|b l IH]; intros [|i] Hi; try discriminate; cbn in Hi.
  - injection Hi as ->. cbn [insert list_insert]. rewrite filter_cons_True, filter_cons_False by done. done.
  - cbn [insert list_insert]. destruct b.
    + rewrite !filter_cons_True by done. cbn. f_equal. by apply IH.
    + rewrite !filter_cons_False by done. by apply IH.
Qed.

Lemma some_running (l : list bool) : (0 < length l)%nat -> false ∉ l -> l !! 0%nat = Some true.
Proof. destruct l as [|[] l]; cbn; [lia|done|]. intros _ Hn. set_solver. Qed.

(** As long as a thread runs, some thread's next iteration brings the program
    closer to its end. *)
Lemma progress w :
  valid_config -> 0 < max_buf_size cf -> (0 < num_masters cf)%nat -> (0 < num_workers cf)%nat ->
  world_inv w -> ~ finished w -> exists w', mw_step w w' /\ work_left w' < work_left w.
Proof.
  intros V Hmax Hnm Hnw [I M W MD WD] Hnf. pose proof (mi_items _ I) as Hi. pose proof (mi_size _ I) as Hs.
  destruct (decide (item_to_produce (shared w) = total_items cf)) as [Ht|Ht].
  - destruct (decide (true ∈ masters w)) as [[i Hm]%list_elem_of_lookup|Hm].
    + destruct (request_ok i (shared w) V I) as (f & s' & E & I' & HB & Hsame & _).
      assert (f = Break) as -> by by apply HB. rewrite (Hsame (or_introl eq_refl)) in E.
      eexists. split; [by eapply master_step|]. unfold work_left. cbn [shared masters workers running].
      rewrite (count_true_end (masters w) i Hm). lia.
    + destruct (decide (true ∈ workers w)) as [[i Hw]%list_elem_of_lookup|Hw]; [|by destruct Hnf].
      destruct (work_ok i (shared w) V I) as (f & s' & E & I' & Hitem & HB & Hsame & Hprog).
      eexists. split; [by eapply worker_step|]. unfold work_left. cbn [shared masters workers running]. rewrite Hitem.
      destruct (decide (curr_buf_size (shared w) = 0)) as [Hz|Hz].
      * assert (f = Break) as -> by by apply HB. rewrite (Hsame Hz). cbn [running].
        rewrite (count_true_end (workers w) i Hw). lia.
      * rewrite Hprog by lia. destruct f; cbn [running]; [|rewrite list_insert_id by done; lia].
        destruct (proj1 HB eq_refl). lia.
  - assert (Hm0 : masters w !! 0%nat = Some true) by (apply some_running; [lia|naive_solver]).
    assert (Hw0 : workers w !! 0%nat = Some true) by (apply some_running; [lia|naive_solver]).
    destruct (decide (curr_buf_size (shared w) < max_buf_size cf)) as [Hroom|Hfull].
    + destruct (request_ok 0%nat (shared w) V I) as (f & s' & E & I' & HB & _ & Hprog).
      assert (f = Continue) as -> by (destruct f; [naive_solver|done]).
      eexists. split; [by eapply master_step|]. destruct (Hprog eq_refl Hroom) as [E1 E2].
      unfold work_left. cbn [shared masters workers running]. rewrite E1, E2, list_insert_id by done. lia.
    + destruct (work_ok 0%nat (shared w) V I) as (f & s' & E & I' & Hitem & HB & _ & Hprog).
      assert (f = Continue) as -> by (destruct f; [naive_solver|done]).
      eexists. split; [by eapply worker_step|].
      unfold work_left. cbn [shared masters workers running]. rewrite Hitem, Hprog, list_insert_id by (done || lia). lia.
Qed.

(** A step that gets the program closer to its end. *)
Definition productive (w w' : world) : Prop := mw_step w w' /\ 0 <= work_left w' < work_left w.

End program.

(** ** Properties *)

(** C27: Every item is handled exactly once.  When all threads have ended, the
    masters have produced 0, 1, ..., total_items - 1 in this order and the
    workers have consumed each of these items once and nothing else, whatever
    the interleaving of the threads. *)
Theorem master_worker_exactly_once cf garbage w :
  valid_config cf -> (0 < num_masters cf)%nat -> (0 < num_workers cf)%nat ->
  Z.of_nat (length garbage) = max_buf_size cf -> mw_reachable cf garbage w -> finished w ->
  produced (output (shared w)) = upto (total_items cf) /\
  consumed (output (shared w)) ≡ₚ upto (total_items cf).
Proof.
  intros V Hm Hw Hg R [Fm Fw]. destruct (world_inv_reachable cf garbage w V Hg R) as [I M W MD WD].
  assert (Hdone : false ∈ workers w).
  { rewrite <- W in Hw. destruct (workers w) as [|[] l]; cbn in *; [lia|set_solver|set_solver]. }
  destruct (WD Hdone) as [Ht Hz]. destruct I as [_ _ _ Hp Hc]. rewrite Ht in Hp, Hc. split; [done|].
  rewrite Hc, Hz. cbn. by rewrite app_nil_r.
Qed.

(** C28: The program cannot get stuck: no reachable iteration of a running
    thread accesses the buffer out of bounds or overflows, and from every
    reachable state there is a continuation in which all threads end.  Each step
    of it is [productive]: it strictly reduces the work left, which is not
    negative, so that no iteration of it is idle. *)
Theorem master_worker_terminates cf garbage w :
  valid_config cf -> 0 < max_buf_size cf -> (0 < num_masters cf)%nat -> (0 < num_workers cf)%nat ->
  Z.of_nat (length garbage) = max_buf_size cf -> mw_reachable cf garbage w ->
  (forall i, exists f s, generate_request cf i (shared w) = Ok (f, s)) /\
  (forall i, exists f s, generate_work cf i (shared w) = Ok (f, s)) /\
  exists w', rtc (productive cf) w w' /\ finished w'.
Proof.
  intros V Hmax Hm Hw Hg R. pose proof (world_inv_reachable cf garbage w V Hg R) as I. split_and!.
  - intros i. destruct (request_ok cf i (shared w) V (wi_inv _ _ I)) as (f & s & E & _). eauto.
  - intros i. destruct (work_ok cf i (shared w) V (wi_inv _ _ I)) as (f & s & E & _). eauto.
  - clear R. assert (Hb : exists n, Z.to_nat (work_left cf w) = n) by eauto. destruct Hb as [n Hn].
    revert w I Hn. induction n as [n IH] using lt_wf_ind. intros w I Hn.
    destruct (decide (finished w)) as [Hf|Hf]; [exists w; split; [constructor|done]|].
    destruct (progress cf w V Hmax Hm Hw I Hf) as (w1 & Hs & Hlt).
    pose proof (world_inv_step cf w w1 V I Hs) as I1.
    assert (0 <= work_left cf w1).
    { unfold work_left. pose proof (mi_items _ _ (wi_inv _ _ I1)). pose proof (mi_size _ _ (wi_inv _ _ I1)). lia. }
    destruct (IH (Z.to_nat (work_left cf w1)) ltac:(lia) w1 I1 eq_refl) as (w' & Hr & Hf').
    exists w'. split; [eapply rtc_l; [split; [exact Hs|lia]|exact Hr]|done].
Qed.

Definition small : config := Config 1 1 1 1.

Definition small_end : world :=
  World (Mw 1 0 [0] [Produced 0 0; Consumed 0 0]) [false] [false].

Lemma small_reachable : mw_reachable small [7] small_end.
Proof.
  eapply mw_next; [|eapply (worker_step small (World (Mw 1 0 [0] [Produced 0 0; Consumed 0 0]) [false] [true]) 0 Break); reflexivity].
  eapply mw_next; [|eapply (master_step small (World (Mw 1 0 [0] [Produced 0 0; Consumed 0 0]) [true] [true]) 0 Break); reflexivity].
  eapply mw_next; [|eapply (worker_step small (World (Mw 1 1 [0] [Produced 0 0]) [true] [true]) 0 Continue); reflexivity].
  eapply mw_next; [|eapply (master_step small (World (Mw 0 0 [7] []) [true] [true]) 0 Continue); reflexivity].
  apply mw_start.
Qed.

Lemma small_valid : valid_config small.
Proof. split; cbn; lia. Qed.

Lemma master_worker_exactly_once_witness :
  produced (output (shared small_end)) = upto 1 /\ consumed (output (shared small_end)) ≡ₚ upto 1.
Proof.
  apply (master_worker_exactly_once small [7] small_end);
    [apply small_valid|cbn; lia|cbn; lia|reflexivity|apply small_reachable|].
  split; apply not_elem_of_cons; (split; [discriminate|apply not_elem_of_nil]).
Defined.

Lemma master_worker_terminates_witness :
  exists w', rtc (productive small) (start small [7]) w' /\ finished w'.
Proof.
  apply (master_worker_terminates small [7] (start small [7]));
    [apply small_valid|cbn; lia|cbn; lia|cbn; lia|reflexivity|apply mw_start].
Defined.
