(* ===== verification/SsuSem.v ===== *)
(** The counting semaphore of project 4 (3/SSU_Sem.c): [SSU_Sem_down] waits in a
    queue and spins, [SSU_Sem_up] increments the counter.

    Threads are interleaved at the granularity of memory accesses: [s->key--] and
    [s->key++] are a load followed by a store.  The queue of waiting threads is a
    list of thread numbers (the address of a thread's local [status] identifies
    it); appending to it and removing its head are single steps. *)

From S2P Require Import Prelude.

(** [SSU_Sem]; the mutex is held by a thread or free. *)
Record SSU_Sem := Sem { key : Z; head : list nat; lock : option nat; wait_lock : Z }.

Definition SSU_Sem_init (value : Z) : SSU_Sem := Sem value [] None 0.

(** Where a thread is. *)
Inductive pc :=
| Idle                 (** in no operation *)
| Locked               (** in down, holding the mutex *)
| FastLoaded (k : Z)   (** in down, [key > 0], value of [key] loaded *)
| Waiting              (** in down, in the queue, spinning *)
| Chosen               (** its test of [key], [wait_lock] and [head] succeeded *)
| SlowLoaded (k : Z)   (** [wait_lock] taken, value of [key] loaded *)
| UpLoaded (k : Z).    (** in up, value of [key] loaded *)

(** The semaphore, the threads, and how many downs and ups have completed. *)
Record sst := Sst { sem : SSU_Sem; threads : list pc; downs : Z; ups : Z }.

Inductive act := DownLock | DownEnqueue | DownLoad | DownStore | SpinTest | SpinLoad | SpinStore | UpLoad | UpStore.

Definition goto (t : nat) (p : pc) (s : SSU_Sem) (x : sst) : sst :=
  Sst s (<[t := p]> (threads x)) (downs x) (ups x).

(** One step of thread [t], when it can make it. *)
Definition sem_step (t : nat) (a : act) (x : sst) : option sst :=
  let s := sem x in
  match a, threads x !! t with
  | DownLock, Some Idle =>
      match lock s with
      | None => Some (goto t Locked (Sem (key s) (head s) (Some t) (wait_lock s)) x)
      | Some _ => None
      end
  | DownEnqueue, Some Locked =>
      if key s <=? 0 then Some (goto t Waiting (Sem (key s) (head s ++ [t]) None (wait_lock s)) x) else None
  | DownLoad, Some Locked =>
      if key s <=? 0 then None else Some (goto t (FastLoaded (key s)) s x)
  | DownStore, Some (FastLoaded k) =>
      Some (Sst (Sem (k - 1) (head s) None (wait_lock s)) (<[t := Idle]> (threads x)) (downs x + 1) (ups x))
  | SpinTest, Some Waiting =>
      if (0 <? key s) && (wait_lock s =? 0) && bool_decide (hd_error (head s) = Some t)
      then Some (goto t Chosen s x) else None
  | SpinLoad, Some Chosen =>
      Some (goto t (SlowLoaded (key s)) (Sem (key s) (head s) (lock s) 1) x)
  | SpinStore, Some (SlowLoaded k) =>
      Some (Sst (Sem (k - 1) (tail (head s)) (lock s) 0) (<[t := Idle]> (threads x)) (downs x + 1) (ups x))
  | UpLoad, Some Idle => Some (goto t (UpLoaded (key s)) s x)
  | UpStore, Some (UpLoaded k) =>
      Some (Sst (Sem (k + 1) (head s) (lock s) (wait_lock s)) (<[t := Idle]> (threads x)) (downs x) (ups x + 1))
  | _, _ => None
  end.

Fixpoint sem_run (sched : list (nat * act)) (x : sst) : option sst :=
  match sched with
  | [] => Some x
  | (t, a) :: sched' => match sem_step t a x with Some y => sem_run sched' y | None => None end
  end.

Definition sem_start (value : Z) (n : nat) : sst := Sst (SSU_Sem_init value) (replicate n Idle) 0 0.

(** ** Runs without overlapping updates of [key] *)

(** Operations, or the parts of them between which other threads may run, with
    the load and the store of [key] back to back. *)
Inductive part := LockPart | EnqueuePart | FastPart | SlowPart | UpPart.

Definition part_acts (p : part) : list act :=
  match p with
  | LockPart => [DownLock]
  | EnqueuePart => [DownEnqueue]
  | FastPart => [DownLoad; DownStore]
  | SlowPart => [SpinTest; SpinLoad; SpinStore]
  | UpPart => [UpLoad; UpStore]
  end.

Definition part_schedule (ps : list (nat * part)) : list (nat * act) :=
  mjoin ((fun '(t, p) => (fun a => (t, a)) <$> part_acts p) <$> ps).

Record sem_inv (value : Z) (x : sst) : Prop := {
  si_count : key (sem x) + downs x = value + ups x;
  si_nonneg : 0 <= key (sem x);
  si_wait_lock : wait_lock (sem x) = 0;
  si_rest : Forall (fun p => p = Idle \/ p = Locked \/ p = Waiting) (threads x)
}.

Lemma sem_run_app s1 s2 x : sem_run (s1 ++ s2) x = match sem_run s1 x with Some y => sem_run s2 y | None => None end.
Proof. revert x. induction s1 as [|[t a] s1 IH]; intros x; cbn; [done|]. destruct (sem_step t a x); [apply IH|done]. Qed.

Lemma part_inv value t p x y :
  sem_inv value x -> sem_run ((fun a => (t, a)) <$> part_acts p) x = Some y -> sem_inv value y.
Proof.
  intros [C N W R] E.
  assert (Hrest : forall q, (q = Idle \/ q = Locked \/ q = Waiting) ->
    Forall (fun p => p = Idle \/ p = Locked \/ p = Waiting) (<[t := q]> (threads x)))
    by (intros q Hq; by apply Forall_insert).
  assert (Hlen : forall z, threads x !! t = Some z -> forall q, <[t := q]> (threads x) !! t = Some q)
    by (intros z Hz q; apply list_lookup_insert_eq; by eapply lookup_lt_Some).
  destruct (threads x !! t) as [q|] eqn:Et.
  2:{ destruct p; cbn in E; unfold sem_step in E; by rewrite Et in E. }
  pose proof (Hlen q eq_refl) as Hsame.
  assert (Hq : q = Idle \/ q = Locked \/ q = Waiting) by (by eapply (Forall_lookup_1 _ _ _ _ R)).
  destruct p; cbn [part_acts fmap list_fmap sem_run] in E; unfold sem_step at 1 in E; rewrite Et in E.
  - destruct q; try discriminate E. destruct (lock (sem x)); [discriminate E|]. injection E as <-.
    split; cbn; [lia|lia|done|apply Hrest; auto].
  - destruct q; try discriminate E. destruct (key (sem x) <=? 0); [|discriminate E]. injection E as <-.
    split; cbn; [lia|lia|done|apply Hrest; auto].
  - destruct q; try discriminate E. destruct (Z.leb_spec (key (sem x)) 0); [discriminate E|].
    unfold sem_step in E. cbn [goto threads sem] in E. rewrite Hsame in E. injection E as <-.
    split; cbn; [lia|lia|done|]. rewrite list_insert_insert_eq. apply Hrest. auto.
  - destruct q; try discriminate E. destruct (_ && _) eqn:Ec; [|discriminate E]. zbool.
    unfold sem_step in E. cbn [goto threads sem] in E. rewrite Hsame in E.
    cbn [goto threads sem] in E. rewrite list_insert_insert_eq, Hsame in E.
    injection E as <-. split; cbn; [lia|lia|done|]. rewrite !list_insert_insert_eq. apply Hrest. auto.
  - destruct q; try discriminate E. unfold sem_step in E. cbn [goto threads sem] in E. rewrite Hsame in E.
    injection E as <-. split; cbn; [lia|lia|done|]. rewrite list_insert_insert_eq. apply Hrest. auto.
Qed.

Lemma parts_inv value ps x y :
  sem_inv value x -> sem_run (part_schedule ps) x = Some y -> sem_inv value y.
Proof.
  revert x. induction ps as [|[t p] ps IH]; intros x I E; [by injection E as <-|].
  change (part_schedule ((t, p) :: ps)) with (((fun a => (t, a)) <$> part_acts p) ++ part_schedule ps) in E.
  rewrite sem_run_app in E. destruct (sem_run _ x) as [z|] eqn:Ez; [|discriminate E].
  eapply (IH z); [by eapply part_inv|done].
Qed.

(** ** Properties *)

(** As long as the updates of [key] by different threads do not overlap, the
    semaphore counts correctly however the operations are interleaved
    otherwise: the counter is the initial value plus the completed ups minus the
    completed downs and never negative, so at most [value + ups] downs have been
    granted. *)
Theorem sem_counts value n ps x :
  0 <= value -> sem_run (part_schedule ps) (sem_start value n) = Some x ->
  key (sem x) = value + ups x - downs x /\ downs x <= value + ups x.
Proof.
  intros Hv E. destruct (parts_inv value ps (sem_start value n) x) as [C N _ _]; [|done|lia].
  split; cbn; [lia|done|done|]. apply Forall_replicate. by left.
Qed.

Lemma sem_counts_witness :
  exists x, sem_run (part_schedule [(0%nat, LockPart); (0%nat, FastPart); (1%nat, LockPart); (1%nat, EnqueuePart);
                                    (0%nat, UpPart); (1%nat, SlowPart)]) (sem_start 1 2) = Some x /\
    key (sem x) = 1 + ups x - downs x /\ downs x <= 1 + ups x.
Proof.
  destruct (sem_run (part_schedule [(0%nat, LockPart); (0%nat, FastPart); (1%nat, LockPart); (1%nat, EnqueuePart);
                                    (0%nat, UpPart); (1%nat, SlowPart)]) (sem_start 1 2)) as [x|] eqn:E.
  - exists x. split; [reflexivity|].
    apply (sem_counts 1 2 [(0%nat, LockPart); (0%nat, FastPart); (1%nat, LockPart); (1%nat, EnqueuePart);
                           (0%nat, UpPart); (1%nat, SlowPart)] x); [lia|exact E].
  - vm_compute in E. discriminate E.
Defined.

(** C39: The spinning path of [SSU_Sem_down] updates [key] without the mutex, so a
    binary semaphore can admit two threads at once: thread 1 waits, thread 0
    leaves ([up]), then thread 2 on the fast path and thread 1 on the slow path
    load the same [key] and both enter. *)
Theorem sem_admits_two :
  exists sched x, sem_run sched (sem_start 1 3) = Some x /\ downs x - ups x = 2.
Proof.
  exists [(0%nat, DownLock); (0%nat, DownLoad); (0%nat, DownStore); (1%nat, DownLock); (1%nat, DownEnqueue);
     (0%nat, UpLoad); (0%nat, UpStore); (2%nat, DownLock); (2%nat, DownLoad);
     (1%nat, SpinTest); (1%nat, SpinLoad); (1%nat, SpinStore); (2%nat, DownStore)].
  eexists. split; [vm_compute; reflexivity|reflexivity].
Qed.

(** [SSU_Sem_up] is an unsynchronised increment: of two concurrent ups one
    can be lost, and with it the wakeup of a waiting thread. *)
Theorem sem_loses_up :
  exists sched x, sem_run sched (sem_start 0 2) = Some x /\ ups x = 2 /\ key (sem x) = 1.
Proof.
  exists [(0%nat, UpLoad); (1%nat, UpLoad); (0%nat, UpStore); (1%nat, UpStore)].
  eexists. split; [vm_compute; reflexivity|]. split; reflexivity.
Qed.
