(* ===== verification/RwLock.v ===== *)
(** What the two read-write locks of project 4 (2/) share: counting the threads
    that are somewhere, and the two searches of rw_lock.c.

    Both locks ([RwWriter], [RwReader]) wrap a [pthread_rwlock_t].  It is held by
    readers or by one writer; a reader may get it when no writer holds it, a writer
    when nobody does, and nothing is assumed about who comes first among those that
    wait.  A [pthread_spinlock_t] is free or held.  Threads are interleaved at the
    accesses to shared memory; an iteration of a waiting loop that changes nothing
    is no step. *)

From S2P Require Import Prelude.

(** ** Counting threads *)

Definition count {A} (f : A -> Z) (l : list A) : Z := foldr (fun x n => f x + n) 0 l.

Lemma count_change {A} (f : A -> Z) l (t : nat) p q :
  l !! t = Some p -> count f (<[t := q]> l) = count f l - f p + f q.
Proof.
  revert t. unfold count. induction l as [|x l IH]; intros [|t] Ht; [done..| |].
  - injection Ht as ->. change (<[0%nat := q]> (p :: l)) with (q :: l). cbn [foldr]. lia.
  - change (<[S t := q]> (x :: l)) with (x :: <[t := q]> l). cbn [foldr]. rewrite (IH t Ht). lia.
Qed.

Lemma count_nonneg {A} (f : A -> Z) l : (forall x, 0 <= f x) -> 0 <= count f l.
Proof. intros Hf. unfold count. induction l as [|x l IH]; cbn [foldr]; [done|]. specialize (Hf x). lia. Qed.

Lemma count_one {A} (f : A -> Z) l (t : nat) p : (forall x, 0 <= f x) -> l !! t = Some p -> f p <= count f l.
Proof.
  intros Hf. revert t. unfold count. induction l as [|x l IH]; intros [|t] Ht; [done..| |]; cbn [foldr].
  - injection Ht as ->. pose proof (count_nonneg f l Hf). unfold count in *. lia.
  - specialize (IH t Ht). specialize (Hf x). lia.
Qed.

Lemma count_two {A} (f : A -> Z) l (t u : nat) p q :
  (forall x, 0 <= f x) -> l !! t = Some p -> l !! u = Some q -> t <> u -> f p + f q <= count f l.
Proof.
  intros Hf. revert t u. unfold count. induction l as [|x l IH]; intros [|t] [|u] Ht Hu Hne; [done..| | |]; cbn [foldr].
  - injection Ht as ->. pose proof (count_one f l u q Hf Hu). unfold count in *. lia.
  - injection Hu as ->. pose proof (count_one f l t p Hf Ht). unfold count in *. lia.
  - specialize (IH t u Ht Hu ltac:(congruence)). specialize (Hf x). lia.
Qed.

Lemma count_some {A} (f : A -> Z) l : 0 < count f l -> exists t p, l !! t = Some p /\ f p <> 0.
Proof.
  unfold count. induction l as [|x l IH]; cbn [foldr]; [lia|]. intros H. destruct (decide (f x = 0)) as [E|E].
  - destruct IH as (t & p & Ht & Hp); [lia|]. by exists (S t), p.
  - by exists 0%nat, x.
Qed.

Lemma count_replicate {A} (f : A -> Z) n p : f p = 0 -> count f (replicate n p) = 0.
Proof. intros H. unfold count. induction n as [|n IH]; cbn [replicate foldr]; [done|lia]. Qed.

(** The call a thread makes next. *)
Inductive call := Read | Write.

(** The guards of a step that was made. *)
Ltac guards H :=
  repeat match type of H with
  | context [if ?b then _ else _] => destruct b eqn:?; try discriminate H
  end.

(** ** rw_lock.c *)

(** The loop of [max_element] and [min_element] over the elements from index [i]:
    the index of the result, with [better x y] for the test that replaces [x]. *)
Fixpoint element_loop (better : Z -> Z -> bool) (a : list Z) (k : nat) (i best : Z) : res Z :=
  match k with
  | O => Ok best
  | S k' =>
      x ← aget a best;
      y ← aget a i;
      element_loop better a k' (i + 1) (if better x y then i else best)
  end.

Definition max_element (a : list Z) : res Z := element_loop Z.ltb a (length a - 1) 1 0.
Definition min_element (a : list Z) : res Z := element_loop Z.gtb a (length a - 1) 1 0.

(** The result is the first index of an extreme value. *)
Definition extreme (le : Z -> Z -> Prop) (a : list Z) (n r : Z) : Prop :=
  0 <= r < n /\ exists x, a !! Z.to_nat r = Some x /\
    forall j y, 0 <= j < n -> a !! Z.to_nat j = Some y -> le y x /\ (j < r -> y <> x).

Lemma element_loop_spec (better : Z -> Z -> bool) (le : Z -> Z -> Prop) a :
  (forall x y, better x y = true -> le x y /\ x <> y) -> (forall x y, better x y = false -> le y x) ->
  (forall x y z, le x y -> le y z -> le x z) -> (forall x, le x x) -> (forall x y, le x y -> le y x -> x = y) ->
  forall k i best, 0 < i -> i + Z.of_nat k = Z.of_nat (length a) -> extreme le a i best ->
  exists r, element_loop better a k i best = Ok r /\ extreme le a (Z.of_nat (length a)) r.
Proof.
  intros Hb Hnb Htr Hrf Has. induction k as [|k IH]; intros i best Hi Hlen Hx; cbn [element_loop].
  { exists best. split; [done|]. by replace (Z.of_nat (length a)) with i by lia. }
  destruct Hx as (Hr & x & Hxa & Hall). rewrite (proj2 (aget_Ok a best x)) by (split; [lia|done]). run.
  destruct (lookup_lt_is_Some_2 a (Z.to_nat i)) as [y Hy]; [lia|].
  rewrite (proj2 (aget_Ok a i y)) by (split; [lia|done]). run. apply IH; [lia|lia|].
  destruct (better x y) eqn:E.
  - destruct (Hb x y E) as [Hle Hne]. split; [lia|]. exists y. split; [done|]. intros j z Hj Hz.
    destruct (decide (j = i)) as [->|Hji]; [rewrite Hy in Hz; injection Hz as <-; split; [done|lia]|].
    destruct (Hall j z ltac:(lia) Hz) as [Hzx _]. split; [by apply (Htr z x y)|]. intros _ ->. by apply Hne, Has.
  - split; [lia|]. exists x. split; [done|]. intros j z Hj Hz.
    destruct (decide (j = i)) as [->|Hji]; [|by apply Hall; [lia|]].
    rewrite Hy in Hz. injection Hz as <-. split; [by apply Hnb|lia].
Qed.

(** [max_element] and [min_element] return the first position of the largest and
    of the smallest element. *)
Theorem element_searches a :
  a <> [] ->
  (exists r, max_element a = Ok r /\ extreme Z.le a (Z.of_nat (length a)) r) /\
  (exists r, min_element a = Ok r /\ extreme Z.ge a (Z.of_nat (length a)) r).
Proof.
  intros Ha. assert (Hl : (0 < length a)%nat) by (destruct a; [done|cbn [length]; lia]).
  assert (Hone : forall le : Z -> Z -> Prop, (forall x, le x x) -> extreme le a 1 0).
  { intros le Hrf. split; [lia|]. destruct (lookup_lt_is_Some_2 a 0 Hl) as [x Hx]. exists x. split; [done|].
    intros j y Hj Hy. assert (j = 0) as -> by lia. change (Z.to_nat 0) with 0%nat in Hy. rewrite Hx in Hy. injection Hy as <-. split; [apply Hrf|lia]. }
  split; apply element_loop_spec; try lia; try (apply Hone; lia); intros x y; rewrite ?Z.gtb_ltb, ?Z.ltb_lt, ?Z.ltb_ge; lia.
Qed.

Lemma element_searches_witness : exists r, max_element [3; 8; 1; 8] = Ok r /\ extreme Z.le [3; 8; 1; 8] 4 r.
Proof. exact (proj1 (element_searches [3; 8; 1; 8] ltac:(done))). Defined.
