(* ===== verification/RwWriter.v ===== *)
(** The read-write lock of project 4 that prefers writers
    (2/rw_lock-w-test.c): readers wait while a writer has asked for the lock. *)

From S2P Require Import Prelude RwLock.

(** Where a thread is. *)
Inductive pc :=
| Idle
| RTest              (** in r_lock, testing [w_request] *)
| RAcquire           (** in r_lock, at [pthread_rwlock_rdlock] *)
| Reading
| WBusy              (** in w_lock, at the first [pthread_spin_lock] *)
| WLoad              (** at [w_request++]: load *)
| WStore (k : Z)     (** store *)
| WUnbusy
| WAcquire           (** at [pthread_rwlock_wrlock] *)
| WBusy2
| WLoad2             (** at [w_request--]: load *)
| WStore2 (k : Z)
| WUnbusy2
| Writing.

(** [struct rw_lock] and the threads; [lock] is its readers and its writer. *)
Record rw_lock := RwLock { rd : Z; wr : Z; busy : bool; w_request : Z }.
Record state := State { rw : rw_lock; threads : list pc }.

Definition init_rwlock : rw_lock := RwLock 0 0 false 0.

Definition start (n : nat) : state := State init_rwlock (replicate n Idle).

Definition goto (t : nat) (p : pc) (l : rw_lock) (x : state) : state := State l (<[t := p]> (threads x)).

(** [r_lock]: the loop around the test, then the lock. *)
Definition r_lock (t : nat) (p : pc) (x : state) : option state :=
  let l := rw x in
  match p with
  | RTest => if w_request l =? 0 then Some (goto t RAcquire l x) else None
  | RAcquire => if wr l =? 0 then Some (goto t Reading (RwLock (rd l + 1) (wr l) (busy l) (w_request l)) x) else None
  | _ => None
  end.

Definition r_unlock (t : nat) (x : state) : state :=
  let l := rw x in goto t Idle (RwLock (rd l - 1) (wr l) (busy l) (w_request l)) x.

Definition w_lock (t : nat) (p : pc) (x : state) : option state :=
  let l := rw x in
  match p with
  | WBusy => if busy l then None else Some (goto t WLoad (RwLock (rd l) (wr l) true (w_request l)) x)
  | WLoad => Some (goto t (WStore (w_request l)) l x)
  | WStore k => Some (goto t WUnbusy (RwLock (rd l) (wr l) (busy l) (k + 1)) x)
  | WUnbusy => Some (goto t WAcquire (RwLock (rd l) (wr l) false (w_request l)) x)
  | WAcquire =>
      if (rd l =? 0) && (wr l =? 0) then Some (goto t WBusy2 (RwLock (rd l) 1 (busy l) (w_request l)) x) else None
  | WBusy2 => if busy l then None else Some (goto t WLoad2 (RwLock (rd l) (wr l) true (w_request l)) x)
  | WLoad2 => Some (goto t (WStore2 (w_request l)) l x)
  | WStore2 k => Some (goto t WUnbusy2 (RwLock (rd l) (wr l) (busy l) (k - 1)) x)
  | WUnbusy2 => Some (goto t Writing (RwLock (rd l) (wr l) false (w_request l)) x)
  | _ => None
  end.

Definition w_unlock (t : nat) (x : state) : state :=
  let l := rw x in goto t Idle (RwLock (rd l) 0 (busy l) (w_request l)) x.

(** One step of thread [t]; [c] is what it calls when it is idle. *)
Definition step (t : nat) (c : call) (x : state) : option state :=
  match threads x !! t with
  | None => None
  | Some Idle => Some (goto t (match c with Read => RTest | Write => WBusy end) (rw x) x)
  | Some Reading => Some (r_unlock t x)
  | Some Writing => Some (w_unlock t x)
  | Some ((RTest | RAcquire) as p) => r_lock t p x
  | Some p => w_lock t p x
  end.

Fixpoint run (sched : list (nat * call)) (x : state) : option state :=
  match sched with
  | [] => Some x
  | (t, c) :: sched' => match step t c x with Some y => run sched' y | None => None end
  end.

(** A thread reads, holds the lock for writing, holds [busy], asked for the
    lock and has not taken its request back. *)
Definition reads (p : pc) : Z := match p with Reading => 1 | _ => 0 end.
Definition holds (p : pc) : Z := match p with WBusy2 | WLoad2 | WStore2 _ | WUnbusy2 | Writing => 1 | _ => 0 end.
Definition inside (p : pc) : Z :=
  match p with WLoad | WStore _ | WUnbusy | WLoad2 | WStore2 _ | WUnbusy2 => 1 | _ => 0 end.
Definition requests (p : pc) : Z := match p with WUnbusy | WAcquire | WBusy2 | WLoad2 | WStore2 _ => 1 | _ => 0 end.

Record inv (x : state) : Prop := Inv {
  i_reads : count reads (threads x) = rd (rw x);
  i_holds : count holds (threads x) = wr (rw x);
  i_one : wr (rw x) <= 1 /\ (0 < rd (rw x) -> wr (rw x) = 0);
  i_busy : count inside (threads x) = if busy (rw x) then 1 else 0;
  i_requests : count requests (threads x) = w_request (rw x);
  i_loaded : forall (t : nat) k, threads x !! t = Some (WStore k) \/ threads x !! t = Some (WStore2 k) -> k = w_request (rw x)
}.

Lemma wf_reads_nonneg p : 0 <= reads p. Proof. by destruct p. Qed.
Lemma wf_holds_nonneg p : 0 <= holds p. Proof. by destruct p. Qed.
Lemma wf_inside_nonneg p : 0 <= inside p. Proof. by destruct p. Qed.
Lemma wf_requests_nonneg p : 0 <= requests p. Proof. by destruct p. Qed.

(** The loaded values of the other threads: nobody else is inside. *)
Lemma wf_loaded_other x (t u : nat) p k :
  inv x -> threads x !! t = Some p -> inside p = 1 -> u <> t ->
  threads x !! u = Some (WStore k) \/ threads x !! u = Some (WStore2 k) -> False.
Proof.
  intros Hi Ht Hp Hne Hu. pose proof (i_busy _ Hi) as Hb.
  assert (exists q, threads x !! u = Some q /\ inside q = 1) as (q & Hq & Hq1) by (destruct Hu as [Hu|Hu]; eexists; split; done).
  pose proof (count_two inside _ t u p q wf_inside_nonneg Ht Hq ltac:(done)). destruct (busy (rw x)); lia.
Qed.

Lemma wf_goto_inv x (t : nat) p q l :
  inv x -> threads x !! t = Some p ->
  rd l = rd (rw x) - reads p + reads q -> wr l = wr (rw x) - holds p + holds q ->
  wr l <= 1 /\ (0 < rd l -> wr l = 0) ->
  (if busy l then 1 else 0) = (if busy (rw x) then 1 else 0) - inside p + inside q ->
  w_request l = w_request (rw x) - requests p + requests q ->
  (inside p = 1 \/ w_request l = w_request (rw x)) ->
  (forall k, q = WStore k \/ q = WStore2 k -> k = w_request l) -> inv (goto t q l x).
Proof.
  intros Hi Ht H1 H2 H3 H4 H5 H6 H7. destruct (Hi) as [I1 I2 I3 I4 I5 I6].
  constructor; cbn [goto rw threads]; try (rewrite (count_change _ _ _ _ _ Ht)); try lia.
  intros u k Hu. destruct (decide (u = t)) as [->|Hne].
  - rewrite list_lookup_insert_eq in Hu by (by eapply lookup_lt_Some). apply H7.
    destruct Hu as [[= ->]|[= ->]]; [by left|by right].
  - rewrite list_lookup_insert_ne in Hu by done. destruct H6 as [Hp|Hw]; [|rewrite Hw; by apply (I6 u)].
    exfalso. by apply (wf_loaded_other x t u p k).
Qed.

Lemma wf_step_inv x t c y : inv x -> step t c x = Some y -> inv y.
Proof.
  intros Hi Hs. unfold step in Hs. destruct (threads x !! t) as [p|] eqn:Ht; [|done].
  destruct (Hi) as [I1 I2 I3 I4 I5 I6].
  pose proof (count_one reads _ t p wf_reads_nonneg Ht). pose proof (count_one holds _ t p wf_holds_nonneg Ht).
  pose proof (count_one inside _ t p wf_inside_nonneg Ht).
  pose proof (count_nonneg reads (threads x) wf_reads_nonneg). pose proof (count_nonneg holds (threads x) wf_holds_nonneg).
  assert (Hload : forall k, p = WStore k \/ p = WStore2 k -> k = w_request (rw x)).
  { intros k Hk. apply (I6 t). rewrite Ht. destruct Hk as [->| ->]; [by left|by right]. }
  destruct p, c; cbn [r_lock w_lock] in Hs; unfold r_unlock, w_unlock in Hs; guards Hs; injection Hs as <-; zbool.
  all: try (pose proof (Hload k ltac:(by left))); try (pose proof (Hload k ltac:(by right))).
  all: eapply wf_goto_inv; [exact Hi|exact Ht|..]; cbn [reads holds inside requests rd wr busy w_request] in *.
  all: try lia; try (by left); try (by right); try (destruct (busy (rw x)); lia).
  all: intros k' [Hk|Hk]; discriminate Hk || (injection Hk as <-; lia).
Qed.

Lemma wf_start_inv n : inv (start n).
Proof.
  constructor; cbn [start rw threads init_rwlock rd wr busy w_request]; try (by apply count_replicate); [lia|].
  intros t k [Ht|Ht]; by apply lookup_replicate in Ht as [? _].
Qed.

Lemma wf_run_inv sched : forall x y, inv x -> run sched x = Some y -> inv y.
Proof.
  induction sched as [|[t c] sched IH]; intros x y Hi Hr; cbn [run] in Hr; [by injection Hr as <-|].
  destruct (step t c x) as [z|] eqn:Hs; [|done]. apply (IH z); [by apply (wf_step_inv x t c)|done].
Qed.

(** A thread that is in an operation makes a step. *)
Definition moves (x : state) : Prop :=
  exists t p c y, threads x !! t = Some p /\ p <> Idle /\ step t c x = Some y.

Ltac go t Ht := exists t; eexists; exists Read; eexists; split; [exact Ht|split; [done|unfold step; rewrite Ht]].

(** A thread that holds [busy] can go on. *)
Lemma wf_inside_moves x (t : nat) p : threads x !! t = Some p -> inside p <> 0 -> moves x.
Proof. intros Ht Hp. destruct p; try done; go t Ht; reflexivity. Qed.

Lemma wf_busy_free x (t : nat) p : inv x -> threads x !! t = Some p -> p = WBusy \/ p = WBusy2 -> moves x.
Proof.
  intros Hi Ht Hp. destruct (busy (rw x)) eqn:Hb.
  - destruct (count_some inside (threads x)) as (u & q & Hu & Hq); [rewrite (i_busy _ Hi), Hb; lia|].
    by apply (wf_inside_moves x u q).
  - destruct Hp as [->| ->]; go t Ht; cbn [w_lock]; rewrite Hb; reflexivity.
Qed.

(** A thread that holds the lock can go on, or somebody in its way can. *)
Lemma wf_holder_moves x (t : nat) p : inv x -> threads x !! t = Some p -> reads p <> 0 \/ holds p <> 0 -> moves x.
Proof.
  intros Hi Ht Hp. destruct p; try (destruct Hp; done); try (go t Ht; reflexivity).
  apply (wf_busy_free x t WBusy2 Hi Ht). by right.
Qed.

Lemma wf_writer_out x : inv x -> wr (rw x) <> 0 -> moves x.
Proof.
  intros Hi Hw. pose proof (count_nonneg holds (threads x) wf_holds_nonneg). rewrite (i_holds _ Hi) in *.
  destruct (count_some holds (threads x)) as (u & q & Hu & Hq); [rewrite (i_holds _ Hi); lia|].
  apply (wf_holder_moves x u q Hi Hu). by right.
Qed.

Lemma wf_readers_out x : inv x -> rd (rw x) <> 0 -> moves x.
Proof.
  intros Hi Hr. pose proof (count_nonneg reads (threads x) wf_reads_nonneg). rewrite (i_reads _ Hi) in *.
  destruct (count_some reads (threads x)) as (u & q & Hu & Hq); [rewrite (i_reads _ Hi); lia|].
  apply (wf_holder_moves x u q Hi Hu). by left.
Qed.

Lemma wf_waiter_moves x (t : nat) : inv x -> threads x !! t = Some WAcquire -> moves x.
Proof.
  intros Hi Ht. destruct (decide (rd (rw x) = 0)) as [Er|Er]; [|by apply wf_readers_out].
  destruct (decide (wr (rw x) = 0)) as [Ew|Ew]; [|by apply wf_writer_out].
  go t Ht. cbn [w_lock]. by rewrite Er, Ew.
Qed.

(** While a thread is in an operation, somebody can go on. *)
Lemma wf_progress x (t : nat) p : inv x -> threads x !! t = Some p -> p <> Idle -> moves x.
Proof.
  intros Hi Ht Hp. destruct p; try done; try (apply (wf_inside_moves x t _ Ht); done); try (go t Ht; reflexivity).
  - destruct (decide (w_request (rw x) = 0)) as [E|E]; [go t Ht; cbn [r_lock]; by rewrite E|].
    pose proof (count_nonneg requests (threads x) wf_requests_nonneg). rewrite (i_requests _ Hi) in *.
    destruct (count_some requests (threads x)) as (u & q & Hu & Hq); [rewrite (i_requests _ Hi); lia|].
    destruct q; try done; try (by apply (wf_inside_moves x u _ Hu)); [by apply (wf_waiter_moves x u)|].
    apply (wf_busy_free x u WBusy2 Hi Hu). by right.
  - destruct (decide (wr (rw x) = 0)) as [E|E]; [go t Ht; cbn [r_lock]; by rewrite E|by apply wf_writer_out].
  - apply (wf_busy_free x t WBusy Hi Ht). by left.
  - by apply (wf_waiter_moves x t).
  - apply (wf_busy_free x t WBusy2 Hi Ht). by right.
Qed.

(** C29: the lock of rw_lock-w-test.c, with any number of threads in any
    interleaving.  A thread that writes is alone; while a writer has asked for the
    lock and has not got it, no reader that comes to the test of [w_request]
    passes it; and as long as a thread is in [r_lock], [w_lock] or holds the lock,
    some such thread can make a step, so they never all wait for each other. *)
Theorem writers_first n sched x :
  run sched (start n) = Some x ->
  (forall t u q, threads x !! t = Some Writing -> threads x !! u = Some q -> t <> u -> q <> Writing /\ q <> Reading) /\
  (forall t p u c, threads x !! t = Some p -> requests p = 1 -> threads x !! u = Some RTest -> step u c x = None) /\
  (forall t p, threads x !! t = Some p -> p <> Idle -> moves x).
Proof.
  intros Hr. pose proof (wf_run_inv sched _ _ (wf_start_inv n) Hr) as Hi. split; [|split].
  - intros t u q Ht Hu Hne. pose proof (i_one _ Hi) as [H1 H2]. pose proof (i_holds _ Hi) as Hh.
    pose proof (count_one holds _ t Writing wf_holds_nonneg Ht) as Ht1. cbn [holds] in Ht1. split; intros ->.
    + pose proof (count_two holds _ t u Writing Writing wf_holds_nonneg Ht Hu Hne) as E. cbn [holds] in E. lia.
    + pose proof (count_one reads _ u Reading wf_reads_nonneg Hu) as E. cbn [reads] in E. rewrite (i_reads _ Hi) in E. lia.
  - intros t p u c Ht Hp Hu. pose proof (count_one requests _ t p wf_requests_nonneg Ht) as E. rewrite (i_requests _ Hi) in E.
    unfold step. rewrite Hu. cbn [r_lock]. by rewrite (proj2 (Z.eqb_neq _ _)) by lia.
  - intros t p Ht Hp. by apply (wf_progress x t p Hi).
Qed.

(** A writer asks for the lock while a reader holds it, and a second reader has
    to wait. *)
Definition demo : list (nat * call) :=
  [(0, Read); (0, Read); (0, Read); (1, Write); (1, Write); (1, Write); (1, Write); (1, Write); (2, Read)]%nat.

Lemma writers_first_witness :
  exists x, run demo (start 3) = Some x /\ threads x = [Reading; WAcquire; RTest] /\ step 2 Read x = None /\ moves x.
Proof.
  eexists. split; [vm_compute; reflexivity|]. split; [reflexivity|].
  destruct (writers_first 3 demo _ eq_refl) as (_ & Hpref & Hmove). split.
  - by apply (Hpref 1%nat WAcquire 2%nat Read).
  - by apply (Hmove 1%nat WAcquire).
Defined.
