(* ===== verification/RwReader.v ===== *)
(** The read-write lock of project 4 that is to prefer readers
    (2/rw_lock-r-test.c): writers wait until the first reader has come. *)

From S2P Require Import Prelude RwLock.

Inductive pc :=
| Idle
| RTest       (** in r_lock, testing [r_flag] *)
| RSet        (** setting it *)
| RAcquire    (** at [pthread_rwlock_rdlock] *)
| Reading
| WSpin       (** in w_lock, spinning on [r_flag] *)
| WAcquire    (** at [pthread_rwlock_wrlock] *)
| Writing.

Record rw_lock := RwLock { rd : Z; wr : Z; r_flag : Z }.
Record state := State { rw : rw_lock; threads : list pc }.

Definition init_rwlock : rw_lock := RwLock 0 0 0.

Definition start (n : nat) : state := State init_rwlock (replicate n Idle).

Definition goto (t : nat) (p : pc) (l : rw_lock) (x : state) : state := State l (<[t := p]> (threads x)).

Definition r_lock (t : nat) (p : pc) (x : state) : option state :=
  let l := rw x in
  match p with
  | RTest => Some (goto t (if r_flag l =? 0 then RSet else RAcquire) l x)
  | RSet => Some (goto t RAcquire (RwLock (rd l) (wr l) 1) x)
  | RAcquire => if wr l =? 0 then Some (goto t Reading (RwLock (rd l + 1) (wr l) (r_flag l)) x) else None
  | _ => None
  end.

Definition r_unlock (t : nat) (x : state) : state :=
  let l := rw x in goto t Idle (RwLock (rd l - 1) (wr l) (r_flag l)) x.

Definition w_lock (t : nat) (p : pc) (x : state) : option state :=
  let l := rw x in
  match p with
  | WSpin => if r_flag l =? 0 then None else Some (goto t WAcquire l x)
  | WAcquire => if (rd l =? 0) && (wr l =? 0) then Some (goto t Writing (RwLock (rd l) 1 (r_flag l)) x) else None
  | _ => None
  end.

Definition w_unlock (t : nat) (x : state) : state :=
  let l := rw x in goto t Idle (RwLock (rd l) 0 (r_flag l)) x.

Definition step (t : nat) (c : call) (x : state) : option state :=
  match threads x !! t with
  | None => None
  | Some Idle => Some (goto t (match c with Read => RTest | Write => WSpin end) (rw x) x)
  | Some Reading => Some (r_unlock t x)
  | Some Writing => Some (w_unlock t x)
  | Some ((RTest | RSet | RAcquire) as p) => r_lock t p x
  | Some p => w_lock t p x
  end.

Fixpoint run (sched : list (nat * call)) (x : state) : option state :=
  match sched with
  | [] => Some x
  | (t, c) :: sched' => match step t c x with Some y => run sched' y | None => None end
  end.

Definition reads (p : pc) : Z := match p with Reading => 1 | _ => 0 end.
Definition writes (p : pc) : Z := match p with Writing => 1 | _ => 0 end.
(** A thread that cannot be there before a reader came. *)
Definition late (p : pc) : Z := match p with RAcquire | Reading | WAcquire | Writing => 1 | _ => 0 end.

Lemma rf_reads_nonneg p : 0 <= reads p. Proof. by destruct p. Qed.
Lemma rf_writes_nonneg p : 0 <= writes p. Proof. by destruct p. Qed.
Lemma rf_late_nonneg p : 0 <= late p. Proof. by destruct p. Qed.

Record inv (x : state) : Prop := Inv {
  i_reads : count reads (threads x) = rd (rw x);
  i_writes : count writes (threads x) = wr (rw x);
  i_one : wr (rw x) <= 1 /\ (0 < rd (rw x) -> wr (rw x) = 0);
  i_flag : r_flag (rw x) = 0 -> count late (threads x) = 0
}.

Lemma rf_step_inv x t c y : inv x -> step t c x = Some y -> inv y.
Proof.
  intros Hi Hs. unfold step in Hs. destruct (threads x !! t) as [p|] eqn:Ht; [|done].
  destruct Hi as [I1 I2 I3 I4].
  pose proof (count_one reads _ t p rf_reads_nonneg Ht). pose proof (count_one writes _ t p rf_writes_nonneg Ht).
  pose proof (count_one late _ t p rf_late_nonneg Ht).
  pose proof (count_nonneg reads (threads x) rf_reads_nonneg). pose proof (count_nonneg writes (threads x) rf_writes_nonneg).
  destruct p, c; cbn [r_lock w_lock] in Hs; unfold r_unlock, w_unlock in Hs; guards Hs; injection Hs as <-; zbool.
  all: constructor; cbn [goto rw threads rd wr r_flag] in *; try (rewrite (count_change _ _ _ _ _ Ht));
    cbn [reads writes late] in *; lia.
Qed.

Lemma rf_start_inv n : inv (start n).
Proof. constructor; cbn [start rw threads init_rwlock rd wr r_flag]; try (intros _); try (by apply count_replicate). lia. Qed.

Lemma rf_run_inv sched : forall x y, inv x -> run sched x = Some y -> inv y.
Proof.
  induction sched as [|[t c] sched IH]; intros x y Hi Hr; cbn [run] in Hr; [by injection Hr as <-|].
  destruct (step t c x) as [z|] eqn:Hs; [|done]. apply (IH z); [by apply (rf_step_inv x t c)|done].
Qed.

(** As long as only writers call, [r_flag] stays clear and nobody reads. *)
Definition no_reader (x : state) : Prop := r_flag (rw x) = 0 /\ forall t p, threads x !! t = Some p -> p = Idle \/ p = WSpin.

Lemma writers_only sched : forall x y,
  Forall (fun a => a.2 = Write) sched -> no_reader x -> run sched x = Some y -> no_reader y.
Proof.
  induction sched as [|[t c] sched IH]; intros x y Hw [Hf Hx] Hr; cbn [run] in Hr; [by injection Hr as <-|].
  apply Forall_cons in Hw as [Hc Hw]. cbn in Hc. subst c. destruct (step t Write x) as [z|] eqn:Hs; [|done].
  apply (IH z y Hw); [|done]. unfold step in Hs. destruct (threads x !! t) as [p|] eqn:Ht; [|done].
  destruct (Hx t p Ht) as [->| ->]; [|cbn [w_lock] in Hs; by rewrite Hf in Hs].
  injection Hs as <-. split; [done|]. cbn [goto threads]. intros u q [(-> & <- & _)|[_ Hu]]%list_lookup_insert_Some; [by right|by apply (Hx u)].
Qed.

(** The lock of rw_lock-r-test.c: a thread that writes is alone, and no thread
    writes before a reader has come ([r_flag] is still 0): when only writers call,
    every one of them that is in [w_lock] spins and can make no step at all. *)
Theorem readers_first n sched x :
  run sched (start n) = Some x ->
  (forall t u q, threads x !! t = Some Writing -> threads x !! u = Some q -> t <> u -> q <> Writing /\ q <> Reading) /\
  (r_flag (rw x) = 0 -> forall t, threads x !! t <> Some Writing) /\
  (Forall (fun a => a.2 = Write) sched -> forall t p, threads x !! t = Some p -> p <> Idle -> forall c, step t c x = None).
Proof.
  intros Hr. pose proof (rf_run_inv sched _ _ (rf_start_inv n) Hr) as Hi. split; [|split].
  - intros t u q Ht Hu Hne. pose proof (i_one _ Hi) as [H1 H2]. pose proof (i_writes _ Hi) as Hh.
    pose proof (count_one writes _ t Writing rf_writes_nonneg Ht) as Ht1. cbn [writes] in Ht1. split; intros ->.
    + pose proof (count_two writes _ t u Writing Writing rf_writes_nonneg Ht Hu Hne) as E. cbn [writes] in E. lia.
    + pose proof (count_one reads _ u Reading rf_reads_nonneg Hu) as E. cbn [reads] in E. rewrite (i_reads _ Hi) in E. lia.
  - intros Hf t Ht. pose proof (count_one late _ t Writing rf_late_nonneg Ht) as E. cbn [late] in E. rewrite (i_flag _ Hi Hf) in E. lia.
  - intros Hw t p Ht Hp c. destruct (writers_only sched (start n) x Hw) as [Hf Hx]; [|done|].
    + split; [done|]. intros u q Hu. left. cbn [start threads] in Hu. by apply lookup_replicate in Hu as [-> _].
    + unfold step. rewrite Ht. destruct (Hx t p Ht) as [->| ->]; [done|]. cbn [w_lock]. by rewrite Hf.
Qed.

Lemma readers_first_witness :
  exists x, run [(0, Write); (1, Write)]%nat (start 2) = Some x /\ step 0 Write x = None /\ step 1 Write x = None.
Proof.
  eexists. split; [vm_compute; reflexivity|].
  destruct (readers_first 2 [(0, Write); (1, Write)]%nat _ eq_refl) as (_ & _ & Hspin).
  split; [apply (Hspin ltac:(by repeat constructor) 0%nat WSpin)|apply (Hspin ltac:(by repeat constructor) 1%nat WSpin)]; done.
Defined.

(** Readers are preferred only once: [r_flag] is never cleared, so after the
    first reader a writer that comes later than a waiting reader may get the
    lock before it. *)
Theorem readers_overtaken :
  exists sched x, run sched (start 4) = Some x /\ threads x = [Idle; RAcquire; Writing; Idle] /\
    run (take (length sched - 1) sched) (start 4) = Some (State (RwLock 0 0 1) [Idle; RAcquire; WAcquire; Idle]).
Proof.
  exists [(0, Read); (0, Read); (0, Read); (0, Read); (0, Read); (1, Read); (1, Read); (2, Write); (2, Write); (2, Write)]%nat.
  eexists. split; [vm_compute; reflexivity|]. split; reflexivity.
Qed.
