(* ===== verification/SsuShell.v ===== *)
(** The shell of project 2 (ssu_shell.c): splitting a line into tokens, the
    aliases of pps and ttop, and cutting the tokens into the commands of a
    pipeline.  Running the commands ([fork], [pipe], [execvp]) is the operating
    system's work and not modelled.

    Strings are byte lists; a buffer of the program is represented by the bytes
    stored in it so far and the check of its size. *)

From S2P Require Import Prelude Bytes.

Definition MAX_INPUT_SIZE : nat := 1024.
Definition MAX_TOKEN_SIZE : nat := 64.
Definition MAX_TOKEN_NUM : nat := 64.
Definition MAX_COMMAND_NUM : nat := 64.

(** A store at index [i] of an array of [n] elements. *)
Definition in_array (i n : nat) : res unit := if (i <? n)%nat then Ok tt else Stuck OutOfBounds.

(** [' '], ['\n'] and ['\t'] *)
Definition is_blank (c : Z) : bool := (c =? 32) || (c =? 10) || (c =? 9).

(** The loop of [tokenize] over the characters of the line: [token] holds the
    characters collected in the buffer, [tokens] the finished tokens. *)
Fixpoint tokenize_loop (cs : list Z) (token : list Z) (tokens : list (list Z)) : res (list (list Z)) :=
  match cs with
  | [] => _ ← in_array (length tokens) MAX_TOKEN_NUM; Ok tokens
  | c :: cs' =>
      if is_blank c then
        _ ← in_array (length token) MAX_TOKEN_SIZE;
        if negb (length token =? 0)%nat then
          _ ← in_array (length tokens) MAX_TOKEN_NUM;
          tokenize_loop cs' [] (tokens ++ [token])
        else tokenize_loop cs' token tokens
      else
        _ ← in_array (length token) MAX_TOKEN_SIZE;
        tokenize_loop cs' (token ++ [c]) tokens
  end.

(** [line] is the memory at the argument. *)
Definition tokenize (line : list Z) : res (list (list Z)) :=
  n ← strlen line;
  tokenize_loop (take (Z.to_nat n) line) [] [].

(** ["pps"] and ["ttop"] run the programs of the project. *)
Definition alias (tok : list Z) : list Z :=
  if bool_decide (tok = [112; 112; 115]) then [46; 47; 112; 112; 115]
  else if bool_decide (tok = [116; 116; 111; 112]) then [46; 47; 116; 116; 111; 112]
  else tok.

Definition bar : list Z := [124].

(** [strcat(command, s)] into [char command[1024]]. *)
Definition strcat (command s : list Z) : res (list Z) :=
  _ ← in_array (length (command ++ s)) 1024; Ok (command ++ s).

(** The loop of [merge_to_command]: the command being built, the finished ones. *)
Fixpoint merge_loop (tokens : list (list Z)) (command : list Z) (commands : list (list Z))
    : res (list (list Z)) :=
  match tokens with
  | [] =>
      _ ← in_array (length commands) MAX_COMMAND_NUM;
      _ ← in_array (S (length commands)) MAX_COMMAND_NUM;
      Ok (commands ++ [command])
  | tok :: tokens' =>
      if bool_decide (tok = bar) then
        _ ← in_array (length commands) MAX_COMMAND_NUM;
        merge_loop tokens' [] (commands ++ [command])
      else
        command ← strcat command tok;
        command ← strcat command [32];
        merge_loop tokens' command commands
  end.

Definition merge_to_command (tokens : list (list Z)) : res (list (list Z)) := merge_loop tokens [] [].

(** The array [line] of [main], cleared by [memset], after [scanf] has stored
    the characters [s] and a NUL in it. *)
Definition read_line (s : list Z) : res (list Z) :=
  _ ← in_array (length s) MAX_INPUT_SIZE; Ok (s ++ replicate (MAX_INPUT_SIZE - length s) 0).

(** What [main] does with a line before it forks: the newline is put in the place
    of its NUL, the line is tokenised, aliases are replaced and commands are
    formed. *)
Definition parse_line (s : list Z) : res (list (list Z)) :=
  line ← read_line s;
  n ← strlen line;
  line ← aset line n 10;
  tokens ← tokenize line;
  merge_to_command (alias <$> tokens).

(** The argument vector [execute_command] passes to [execvp]. *)
Definition command_args (command : list Z) : res (list (list Z)) := tokenize (command ++ [0]).

(** A line read from a command file: [fgets] stored [s] in the zeroed buffer; the
    last character is removed whatever it is. *)
Definition batch_line (s : list Z) : res (list Z) :=
  n ← strlen (s ++ [0]);
  if n =? 0 then Stuck OutOfBounds else Ok (take (Z.to_nat (n - 1)) s).

(** ** Reference: words separated by blanks *)

(** A word that fits the token buffer. *)
Definition word (w : list Z) : Prop :=
  w <> [] /\ (length w < MAX_TOKEN_SIZE)%nat /\ Forall (fun c => is_blank c = false /\ c <> 0) w.

Definition blanks (b : list Z) : Prop := Forall (fun c => is_blank c = true) b.

(** Words, each followed by the blanks given with it. *)
Definition spell (l : list (list Z * list Z)) : list Z := mjoin ((fun '(w, b) => w ++ b) <$> l).

(** The pieces of a list between the elements equal to [bar]. *)
Fixpoint split_bar (l : list (list Z)) : list (list (list Z)) :=
  match l with
  | [] => [[]]
  | x :: l' =>
      if bool_decide (x = bar) then [] :: split_bar l'
      else match split_bar l' with p :: ps => (x :: p) :: ps | [] => [[x]] end
  end.

(** A command line as [merge_to_command] writes it. *)
Definition command_text (ws : list (list Z)) : list Z := mjoin ((fun w => w ++ [32]) <$> ws).

(** ** Lemmas *)

Lemma in_array_Ok i n : (i < n)%nat -> in_array i n = Ok tt.
Proof. intros Hi. unfold in_array. by rewrite (proj2 (Nat.ltb_lt _ _)). Qed.

Lemma in_array_out i n : (n <= i)%nat -> in_array i n = Stuck OutOfBounds.
Proof. intros Hi. unfold in_array. by rewrite (proj2 (Nat.ltb_ge _ _)). Qed.

Lemma strcat_Ok command s : (length command + length s < 1024)%nat -> strcat command s = Ok (command ++ s).
Proof. intros Hl. unfold strcat. by rewrite in_array_Ok by (rewrite length_app; lia). Qed.

Lemma tokenize_word w cs token tokens :
  Forall (fun c => is_blank c = false /\ c <> 0) w -> (length token + length w < MAX_TOKEN_SIZE)%nat ->
  tokenize_loop (w ++ cs) token tokens = tokenize_loop cs (token ++ w) tokens.
Proof.
  intros Hw. revert token. induction Hw as [|c w [Hc _] _ IH]; intros token Hl.
  - by rewrite app_nil_r.
  - cbn [app tokenize_loop length] in *. rewrite Hc, in_array_Ok by lia. run.
    rewrite IH by (rewrite length_app; cbn; lia). by rewrite <- app_assoc.
Qed.

Lemma tokenize_blanks b cs tokens :
  blanks b -> tokenize_loop (b ++ cs) [] tokens = tokenize_loop cs [] tokens.
Proof.
  induction 1 as [|c b Hc _ IH]; [done|]. cbn [app tokenize_loop]. rewrite Hc. run. done.
Qed.

Lemma tokenize_spell l cs tokens :
  Forall (fun '(w, b) => word w /\ blanks b /\ b <> []) l ->
  (length tokens + length l <= MAX_TOKEN_NUM)%nat ->
  tokenize_loop (spell l ++ cs) [] tokens = tokenize_loop cs [] (tokens ++ (fst <$> l)).
Proof.
  intros Hl. revert tokens. induction Hl as [|[w b] l ((Hne & Hsz & Hw) & Hb & Hbne) _ IH]; intros tokens Hn.
  - by rewrite app_nil_r.
  - change (spell ((w, b) :: l)) with ((w ++ b) ++ spell l). rewrite <- !app_assoc.
    rewrite tokenize_word by (done || (cbn; lia)). cbn [app length] in *.
    destruct b as [|c b]; [done|]. apply Forall_cons in Hb as [Hc Hb]. cbn [app tokenize_loop].
    rewrite Hc, in_array_Ok by lia. run.
    destruct (Nat.eqb_spec (length w) 0) as [E|_]; [by destruct w|]. cbn [negb].
    rewrite in_array_Ok by lia. run. rewrite tokenize_blanks by done.
    rewrite IH by (rewrite length_app; cbn; lia). cbn [fmap list_fmap fst]. by rewrite <- app_assoc.
Qed.

Lemma spell_no_nul l : Forall (fun '(w, b) => word w /\ blanks b /\ b <> []) l -> 0 ∉ spell l.
Proof.
  induction 1 as [|[w b] l ((_ & _ & Hw) & Hb & _) _ IH]; [set_solver|].
  change (spell ((w, b) :: l)) with ((w ++ b) ++ spell l). rewrite !not_elem_of_app.
  split_and!; [|intros Hin|done].
  - intros Hin. rewrite Forall_forall in Hw. by destruct (Hw 0 Hin).
  - unfold blanks in Hb. rewrite Forall_forall in Hb. by specialize (Hb 0 Hin).
Qed.

Lemma blanks_no_nul b : blanks b -> 0 ∉ b.
Proof. intros Hb Hin. unfold blanks in Hb. rewrite Forall_forall in Hb. by specialize (Hb 0 Hin). Qed.

Lemma tokenize_words b0 l rest :
  blanks b0 -> Forall (fun '(w, b) => word w /\ blanks b /\ b <> []) l -> (length l < MAX_TOKEN_NUM)%nat ->
  tokenize ((b0 ++ spell l) ++ 0 :: rest) = Ok (fst <$> l).
Proof.
  intros Hb Hl Hn. unfold tokenize. rewrite strlen_cstr.
  2:{ apply not_elem_of_app. split; [by apply blanks_no_nul|by apply spell_no_nul]. }
  run. rewrite Nat2Z.id, take_app_length. rewrite tokenize_blanks by done.
  rewrite <- (app_nil_r (spell l)), tokenize_spell by (done || (cbn; lia)). cbn [tokenize_loop app].
  rewrite in_array_Ok by (rewrite length_fmap; done). done.
Qed.

Lemma split_bar_nonempty l : exists p ps, split_bar l = p :: ps.
Proof.
  destruct l as [|x l]; cbn; [eauto|]. destruct (bool_decide _); [eauto|].
  destruct (split_bar l); eauto.
Qed.

Lemma merge_loop_split tokens p ps command commands :
  split_bar tokens = p :: ps ->
  (length command + length (command_text p) < 1024)%nat ->
  Forall (fun q => (length (command_text q) < 1024)%nat) ps ->
  (length commands + S (length ps) < MAX_COMMAND_NUM)%nat ->
  merge_loop tokens command commands = Ok (commands ++ (command ++ command_text p) :: (command_text <$> ps)).
Proof.
  revert p ps command commands. induction tokens as [|x tokens IH]; intros p ps command commands E Hp Hps Hn.
  - cbn in E. injection E as <- <-. cbn [merge_loop length] in *.
    rewrite !in_array_Ok by lia. run. by rewrite app_nil_r.
  - cbn [split_bar merge_loop] in *. destruct (bool_decide_reflect (x = bar)) as [->|Hne].
    + injection E as <- <-. rewrite in_array_Ok by lia. run.
      destruct (split_bar_nonempty tokens) as (q & qs & Eq). rewrite Eq in *.
      apply Forall_cons in Hps as [Hq Hqs]. cbn [length] in Hn.
      rewrite (IH q qs [] (commands ++ [command]) eq_refl) by (done || (rewrite ?length_app; cbn; lia)).
      rewrite app_nil_r, <- app_assoc. done.
    + destruct (split_bar_nonempty tokens) as (q & qs & Eq). rewrite Eq in E. injection E as <- <-.
      change (command_text (x :: q)) with ((x ++ [32]) ++ command_text q) in *.
      rewrite !length_app in Hp. cbn [length] in Hp.
      rewrite strcat_Ok by lia. run. rewrite strcat_Ok by (rewrite length_app; cbn; lia). run.
      rewrite (IH q qs _ commands Eq) by (done || (rewrite !length_app; cbn; lia)).
      by rewrite <- !app_assoc.
Qed.

Lemma command_text_spell ws : command_text ws = spell ((fun w => (w, [32])) <$> ws).
Proof. unfold command_text, spell. rewrite <- list_fmap_compose. done. Qed.

Lemma command_args_text ws :
  Forall word ws -> (length ws < MAX_TOKEN_NUM)%nat -> command_args (command_text ws) = Ok ws.
Proof.
  intros Hw Hl. unfold command_args. rewrite command_text_spell.
  pose proof (tokenize_words [] ((fun w => (w, [32])) <$> ws) []) as E. cbn [app] in E. rewrite E.
  - f_equal. rewrite <- list_fmap_compose. apply list_fmap_id.
  - constructor.
  - apply Forall_fmap, (Forall_impl _ _ _ Hw). intros w Hww. cbn. split; [done|]. split; [|done].
    by repeat constructor.
  - by rewrite length_fmap.
Qed.

Lemma alias_word w : word w -> word (alias w).
Proof.
  intros Hw. unfold alias. repeat case_bool_decide; [| |done];
    (split; [done|]; split; [cbn; unfold MAX_TOKEN_SIZE; lia|repeat constructor; done]).
Qed.

Lemma split_bar_incl l p w : p ∈ split_bar l -> w ∈ p -> w ∈ l.
Proof.
  revert p. induction l as [|x l IH]; intros p Hp Hw; cbn in Hp.
  - apply list_elem_of_singleton in Hp as ->. set_solver.
  - destruct (bool_decide _).
    + apply elem_of_cons in Hp as [->|Hp]; [set_solver|]. apply elem_of_cons. right. by eapply IH.
    + destruct (split_bar_nonempty l) as (q & qs & E). rewrite E in *.
      apply elem_of_cons in Hp as [->|Hp].
      * apply elem_of_cons in Hw as [->|Hw]; [set_solver|]. apply elem_of_cons. right. apply (IH q); set_solver.
      * apply elem_of_cons. right. apply (IH p); set_solver.
Qed.

Lemma split_bar_length l p : p ∈ split_bar l -> (length p <= length l)%nat.
Proof.
  revert p. induction l as [|x l IH]; intros p Hp; cbn in Hp.
  - apply list_elem_of_singleton in Hp as ->. done.
  - destruct (bool_decide _).
    + apply elem_of_cons in Hp as [->|Hp]; [cbn; lia|]. specialize (IH p Hp). cbn. lia.
    + destruct (split_bar_nonempty l) as (q & qs & E). rewrite E in *. apply elem_of_cons in Hp as [->|Hp].
      * specialize (IH q ltac:(set_solver)). cbn. lia.
      * specialize (IH p ltac:(set_solver)). cbn. lia.
Qed.

(** The newline in the array: a NUL follows while the line has fewer than 1023
    characters, and none otherwise. *)
Lemma newline_stored s : 0 ∉ s -> (length s < MAX_INPUT_SIZE)%nat ->
  (line ← read_line s; n ← strlen line; aset line n 10) = Ok (s ++ 10 :: replicate (MAX_INPUT_SIZE - S (length s)) 0).
Proof.
  intros H0 Hl. unfold read_line. rewrite in_array_Ok by done. run.
  replace (MAX_INPUT_SIZE - length s)%nat with (S (MAX_INPUT_SIZE - S (length s))) by lia. cbn [replicate].
  rewrite strlen_cstr by done. run. rewrite aset_nat by (rewrite length_app; cbn [length]; lia).
  by rewrite insert_app_r_alt, Nat.sub_diag by lia.
Qed.

Lemma strlen_unterminated s : 0 ∉ s -> strlen s = Stuck OutOfBounds.
Proof.
  induction s as [|c s IH]; intros H0; [done|]. apply not_elem_of_cons in H0 as [Hc H0]. cbn [strlen].
  rewrite (proj2 (Z.eqb_neq _ _)) by congruence. by rewrite IH.
Qed.

Lemma parse_line_Ok s : 0 ∉ s -> (length s < 1023)%nat ->
  parse_line s = (tokens ← tokenize ((s ++ [10]) ++ 0 :: replicate (1022 - length s) 0); merge_to_command (alias <$> tokens)).
Proof.
  intros H0 Hl. pose proof (newline_stored s H0 ltac:(unfold MAX_INPUT_SIZE; lia)) as E. unfold parse_line.
  destruct (read_line s) as [line|]; [|discriminate E]. run. cbn [mbind res_bind] in E.
  destruct (strlen line) as [n|]; [|discriminate E]. run. cbn [mbind res_bind] in E. rewrite E. run.
  replace (MAX_INPUT_SIZE - S (length s))%nat with (S (1022 - length s)) by (unfold MAX_INPUT_SIZE; lia).
  cbn [replicate]. by rewrite <- app_assoc.
Qed.

(** ** Properties *)

(** C36: A line of words separated by blanks, within the limits of the shell
    (at most 1022 characters, tokens of at most 63, fewer than 64 tokens and
    commands, commands of fewer than 1024 characters), is parsed into one command per
    stage of the pipeline, and the argument vector of each command, obtained by
    tokenising its text again, is the list of words of that stage with the
    aliases replaced. *)
Theorem shell_pipeline_roundtrip b0 l last b1 :
  blanks b0 -> Forall (fun '(w, b) => word w /\ blanks b /\ b <> []) l -> word last -> blanks b1 ->
  (S (length l) < MAX_TOKEN_NUM)%nat -> (length (b0 ++ spell l ++ last ++ b1) < 1023)%nat ->
  let stages := split_bar (alias <$> ((fst <$> l) ++ [last])) in
  (length stages < MAX_COMMAND_NUM)%nat ->
  Forall (fun q => (length (command_text q) < 1024)%nat) stages ->
  exists cmds, parse_line (b0 ++ spell l ++ last ++ b1) = Ok cmds /\
    Forall2 (fun c args => command_args c = Ok args) cmds stages.
Proof.
  intros Hb0 Hl Hlast Hb1 Hn Hfit stages Hst Hlen.
  set (l' := l ++ [(last, b1 ++ [10])]).
  assert (El : (b0 ++ spell l ++ last ++ b1) ++ [10] = b0 ++ spell l').
  { unfold l', spell. rewrite fmap_app, join_app. cbn. rewrite app_nil_r, <- !app_assoc. done. }
  assert (Hl' : Forall (fun '(w, b) => word w /\ blanks b /\ b <> []) l').
  { apply Forall_app. split; [done|]. constructor; [|constructor]. split; [done|]. split.
    - apply Forall_app. split; [done|by repeat constructor].
    - by destruct b1. }
  assert (H0 : 0 ∉ b0 ++ spell l ++ last ++ b1).
  { intros Hin. assert (Hin' : 0 ∈ b0 ++ spell l') by (rewrite <- El; apply elem_of_app; by left).
    apply elem_of_app in Hin' as [Hin'|Hin']; [by apply (blanks_no_nul b0)|by apply (spell_no_nul l')]. }
  rewrite parse_line_Ok by done. rewrite El, tokenize_words by (done || (unfold l'; rewrite length_app; cbn; lia)). run.
  assert (Ef : fst <$> l' = (fst <$> l) ++ [last]) by (unfold l'; by rewrite fmap_app). rewrite Ef.
  destruct (split_bar_nonempty (alias <$> ((fst <$> l) ++ [last]))) as (p & ps & E).
  fold stages in E. rewrite E in Hlen, Hst. apply Forall_cons in Hlen as [Hp Hps].
  exists (command_text <$> stages). split.
  - unfold merge_to_command. rewrite (merge_loop_split _ p ps [] [] E) by done. by rewrite E.
  - apply Forall2_fmap_l, Forall_Forall2_diag, Forall_forall. intros q Hq. apply command_args_text.
    + apply Forall_forall. intros w Hw. pose proof (split_bar_incl _ _ _ Hq Hw) as Hin.
      apply list_elem_of_fmap in Hin as (w0 & -> & Hw0). apply alias_word. rewrite <- Ef in Hw0.
      apply list_elem_of_fmap in Hw0 as ([w1 b] & -> & Hw1). rewrite Forall_forall in Hl'. by apply (Hl' (w1, b)).
    + pose proof (split_bar_length _ _ Hq) as Hle. rewrite length_fmap, length_app, length_fmap in Hle.
      cbn in Hle. lia.
Qed.

(** "ls -l | pps" *)
Lemma shell_pipeline_roundtrip_witness :
  exists cmds, parse_line [108; 115; 32; 45; 108; 32; 124; 32; 112; 112; 115] = Ok cmds /\
    Forall2 (fun c args => command_args c = Ok args) cmds [[[108; 115]; [45; 108]]; [[46; 47; 112; 112; 115]]].
Proof.
  apply (shell_pipeline_roundtrip [] [([108; 115], [32]); ([45; 108], [32]); ([124], [32])] [112; 112; 115] []).
  - constructor.
  - repeat constructor; try discriminate; cbn; unfold MAX_TOKEN_SIZE; lia.
  - repeat constructor; try discriminate; cbn; unfold MAX_TOKEN_SIZE; lia.
  - constructor.
  - cbn. unfold MAX_TOKEN_NUM. lia.
  - cbn. lia.
  - vm_compute. lia.
  - vm_compute. repeat constructor.
Defined.

(** A line of 1023 characters or more leaves the array [line]: the newline takes
    the place of the last NUL, or [scanf] itself writes past the end. *)
Theorem shell_line_overrun s : 0 ∉ s -> (1023 <= length s)%nat -> parse_line s = Stuck OutOfBounds.
Proof.
  intros H0 Hl. unfold parse_line. destruct (decide (length s = 1023)%nat) as [E|Hne].
  - pose proof (newline_stored s H0 ltac:(unfold MAX_INPUT_SIZE; lia)) as El. rewrite E in El. change (MAX_INPUT_SIZE - 1024)%nat with 0%nat in El.
    destruct (read_line s) as [line|]; [|discriminate El]. run. cbn [mbind res_bind] in El.
    destruct (strlen line) as [n|]; [|discriminate El]. run. cbn [mbind res_bind] in El. rewrite El. run.
    unfold tokenize. rewrite strlen_unterminated; [done|]. cbn [replicate]. apply not_elem_of_app. split; [done|].
    apply not_elem_of_cons. split; [lia|apply not_elem_of_nil].
  - unfold read_line. rewrite in_array_out by (unfold MAX_INPUT_SIZE; lia). done.
Qed.

(** The limits of [tokenize] are not checked: a word of 64 or more
    characters is written past the end of the token buffer. *)
Theorem shell_token_overrun w cs :
  Forall (fun c => is_blank c = false /\ c <> 0) w -> (MAX_TOKEN_SIZE <= length w)%nat ->
  tokenize_loop (w ++ 10 :: cs) [] [] = Stuck OutOfBounds.
Proof.
  intros Hw Hl. destruct (decide (length w = MAX_TOKEN_SIZE)%nat) as [E|Hne].
  - destruct (exists_last (l := w)) as (w' & c & ->); [by destruct w|].
    apply Forall_app in Hw as [Hw' Hc]. rewrite length_app in E. cbn in E.
    rewrite <- app_assoc, tokenize_word by (done || (cbn; unfold MAX_TOKEN_SIZE in *; lia)).
    apply Forall_cons in Hc as [[Hc _] _]. cbn [app tokenize_loop].
    rewrite Hc, (in_array_Ok (length w')) by (unfold MAX_TOKEN_SIZE in *; lia). run. change (is_blank 10) with true. cbn [app].
    rewrite (in_array_out (length (w' ++ [c]))) by (rewrite length_app; cbn; unfold MAX_TOKEN_SIZE in *; lia). done.
  - rewrite <- (take_drop 63 w) in Hw |- *. apply Forall_app in Hw as [Hw1 Hw2].
    assert (Hd : (1 < length (drop 63 w))%nat) by (rewrite length_drop; unfold MAX_TOKEN_SIZE in *; lia).
    rewrite <- app_assoc, tokenize_word.
    + destruct (drop 63 w) as [|c1 [|c2 r]]; cbn in Hd; [lia|lia|].
      apply Forall_cons in Hw2 as [[Hc1 _] Hw2]. apply Forall_cons in Hw2 as [[Hc2 _] _].
      assert (Ht : length (take 63 w) = 63%nat) by (rewrite length_take; unfold MAX_TOKEN_SIZE in *; lia).
      cbn [app tokenize_loop]. rewrite Hc1, Hc2.
      rewrite (in_array_Ok (length (take 63 w))) by (unfold MAX_TOKEN_SIZE; lia). run.
      rewrite (in_array_out (length (take 63 w ++ [c1]))) by (rewrite length_app; cbn [length]; unfold MAX_TOKEN_SIZE; lia). done.
    + done.
    + rewrite length_take. cbn [length]. unfold MAX_TOKEN_SIZE. lia.
Qed.

Lemma shell_token_overrun_witness : tokenize_loop (replicate 64 97 ++ [10]) [] [] = Stuck OutOfBounds.
Proof.
  apply (shell_token_overrun (replicate 64 97) []); [|cbn; unfold MAX_TOKEN_SIZE; lia].
  apply Forall_replicate. split; [reflexivity|lia].
Defined.
