(* ===== verification/SsuPs.v ===== *)
(** The process lister of project 2 (ssu_ps.c): options, the terminal and state
    columns, the command line taken from /proc, the list of processes, and which
    of them each option prints.

    The files of /proc are input.  [MAJOR] and [MINOR] come from the kernel's
    headers and are parameters.  The rows of the "u" format, which contain
    floating-point percentages, and the calls that read times and memory sizes
    are not modelled. *)

From S2P Require Import Prelude Bytes.

Definition NAMELEN : nat := 512.
Definition LINEMAX : nat := 512.

(** The fields of [proc_list] the modelled code uses; the list of nodes behind
    [head] is a list. *)
Record proc_info := ProcInfo {
  p_pid : Z; p_pgrp : Z; p_sid : Z; p_tpgid : Z; p_tty_nr : Z; p_state : Z;
  p_cmdline : list Z; p_name : list Z; p_utime : Z; p_stime : Z; p_nice : Z; p_threads : Z
}.

(** ** Options *)

Record flags := Flags { a_flag : bool; u_flag : bool; x_flag : bool }.

(** The loop of [check_option] over the characters of the argument. *)
Fixpoint check_option (opt : list Z) (f : flags) : Z * flags :=
  match opt with
  | [] => (0, f)
  | c :: opt' =>
      if c =? 97 then check_option opt' (Flags true (u_flag f) (x_flag f))
      else if c =? 117 then check_option opt' (Flags (a_flag f) true (x_flag f))
      else if c =? 120 then check_option opt' (Flags (a_flag f) (u_flag f) true)
      else (-1, f)
  end.

(** ** Text *)

(** ["%d"] of a non-negative number; [n] bounds the number of digits. *)
Fixpoint decimal_digits (n : nat) (z : Z) (acc : list Z) : list Z :=
  match n with
  | O => acc
  | S n' => if z <? 10 then (48 + z) :: acc else decimal_digits n' (z / 10) ((48 + z mod 10) :: acc)
  end.

Definition decimal (z : Z) : list Z :=
  if z <? 0 then 45 :: decimal_digits 10 (- z) [] else decimal_digits 10 z [].

(** A store of a string (with its NUL) in a buffer of [n] bytes. *)
Definition store_string (n : nat) (s : list Z) : res (list Z) :=
  if (length s <? n)%nat then Ok s else Stuck OutOfBounds.

(** [_isdigit] on the bytes of a name. *)
Definition is_digit (c : Z) : bool := (48 <=? c) && (c <=? 57).
Definition _isdigit (str : list Z) : bool := forallb is_digit str.
Definition scandir_filter (d_name : list Z) : bool := _isdigit d_name.

Section tty.
Context (MAJOR MINOR : Z -> Z).

(** The string in the 8 bytes of [tty]. *)
Definition get_tty (tty_nr : Z) : res (list Z) :=
  let major := MAJOR tty_nr in
  let minor := MINOR tty_nr in
  if major =? 4 then
    if minor <? 64 then store_string 8 ([116; 116; 121] ++ decimal minor)
    else store_string 8 ([116; 116; 121; 83] ++ decimal (minor - 64))
  else if (136 <=? major) && (major <=? 143) then store_string 8 ([112; 116; 115; 47] ++ decimal minor)
  else store_string 8 [63].

End tty.

(** The string in the 6 bytes of [state]. *)
Definition get_state (p : proc_info) : res (list Z) :=
  store_string 6
    ([p_state p]
     ++ (if p_nice p <? -4 then [60] else if p_nice p >? 4 then [78] else [])
     ++ (if p_pid p =? p_sid p then [115] else [])
     ++ (if p_threads p >? 1 then [108] else [])
     ++ (if p_pgrp p =? p_tpgid p then [43] else [])).

(** ** The command line *)

(** The loop that turns the NULs between arguments into blanks, at index [i] of
    [line]; it stops at a NUL followed by another or at the end. *)
Fixpoint join_args (line : list Z) (i : nat) : list Z :=
  match line with
  | [] => []
  | c :: line' =>
      if c =? 0 then
        if (i =? LINEMAX - 1)%nat then line
        else match line' with
             | d :: _ => if d =? 0 then line else 32 :: join_args line' (S i)
             | [] => line
             end
      else c :: join_args line' (S i)
  end.

(** [file] is the contents of /proc/pid/cmdline, [comm] the second field of the
    stat file: the new [cmdline] of the process. *)
Definition cmdline_of (file comm : list Z) : res (list Z) :=
  let line := take LINEMAX (file ++ replicate LINEMAX 0) in
  let line := join_args line 0 in
  n ← strlen line;
  if n =? 0 then
    m ← strlen (comm ++ [0]);
    aset (<[0%nat := 91]> comm) (m - 1) 93
  else Ok (take (Z.to_nat n) line).

(** ** The list *)

Definition add_node (l : list proc_info) (node : proc_info) : list proc_info := l ++ [node].

(** The entry of the parent process, the shell: the last one with its pid. *)
Fixpoint find_shell (l : list proc_info) (pid : Z) (found : option proc_info) : option proc_info :=
  match l with
  | [] => found
  | p :: l' => find_shell l' pid (if p_pid p =? pid then Some p else found)
  end.

Section listing.
Context (MAJOR MINOR : Z -> Z).

Definition on_tty (p : proc_info) : bool :=
  match get_tty MAJOR MINOR (p_tty_nr p) with Ok s => negb (bool_decide (s = [63])) | Stuck _ => false end.

(** Reading the name of the shell when it was not found reads the buffer
    uninitialised; [pre] is the test made before the names are compared. *)
Definition owned_by (sh : option proc_info) (pre : proc_info -> bool) (l : list proc_info) : res (list proc_info) :=
  let l := filter pre l in
  match sh with
  | Some q => Ok (filter (fun p => bool_decide (p_name p = p_name q)) l)
  | None => match l with [] => Ok [] | _ => Stuck Uninitialised end
  end.

(** [print_default], [print_without_x], [print_without_a] and [print_all]. *)
Definition select (f : flags) (l : list proc_info) (ppid : Z) : res (list proc_info) :=
  let sh := find_shell l ppid None in
  if negb (a_flag f) && negb (u_flag f) && negb (x_flag f) then
    let tty := match sh with Some q => p_tty_nr q | None => -1 end in
    owned_by sh (fun p => p_tty_nr p =? tty) l
  else if negb (x_flag f) then owned_by sh on_tty l
  else if negb (a_flag f) then owned_by sh (fun _ => true) l
  else Ok l.

(** [%02d] *)
Definition two_digits (z : Z) : list Z := if z <? 10 then 48 :: decimal z else decimal z.

(** ["%6d"], ["%-7s"] *)
Definition pad_left (n : nat) (s : list Z) : list Z := replicate (n - length s) 32 ++ s.
Definition pad_right (n : nat) (s : list Z) : list Z := s ++ replicate (n - length s) 32.

(** A row without the u option: [tmp_line] has 512 bytes, and [strncpy] cuts the
    row to the width of the terminal ([line] has 512 bytes too, and [strncpy]
    fills it with NULs up to the width). *)
Definition row (p : proc_info) (hz ws_col : Z) : res (list Z) :=
  tty ← get_tty MAJOR MINOR (p_tty_nr p);
  state ← get_state p;
  let t := Z.quot (p_stime p + p_utime p) hz in
  tmp_line ← store_string LINEMAX
     (pad_left 6 (decimal (p_pid p)) ++ [32] ++ pad_right 7 tty ++ [32] ++ pad_right 5 state ++ [32]
      ++ two_digits (t / 60 mod 60) ++ [58] ++ two_digits (t mod 60) ++ [32] ++ p_cmdline p);
  if Z.of_nat LINEMAX <? ws_col then Stuck OutOfBounds
  else Ok (take (Z.to_nat ws_col) tmp_line).

End listing.

(** ** Lemmas *)

Lemma decimal_digits_length n z acc :
  0 <= z < 10 ^ Z.of_nat n -> (0 < n)%nat -> (length (decimal_digits n z acc) <= n + length acc)%nat.
Proof.
  revert z acc. induction n as [|n IH]; intros z acc Hz Hn; [lia|]. cbn [decimal_digits].
  destruct (Z.ltb_spec z 10) as [|Hge]; [cbn; lia|].
  destruct n as [|n].
  { change (10 ^ Z.of_nat 1) with 10 in Hz. lia. }
  assert (Hd : 0 <= z / 10 < 10 ^ Z.of_nat (S n)).
  { split; [apply Z.div_pos; lia|]. apply Z.div_lt_upper_bound; [lia|].
    replace (Z.of_nat (S (S n))) with (1 + Z.of_nat (S n)) in Hz by lia. rewrite Z.pow_add_r in Hz by lia. lia. }
  specialize (IH (z / 10) ((48 + z mod 10) :: acc) Hd ltac:(lia)). cbn [length] in IH |- *. lia.
Qed.

Lemma decimal_digits_more n k z acc :
  0 <= z < 10 ^ Z.of_nat n -> (0 < n)%nat -> decimal_digits (n + k) z acc = decimal_digits n z acc.
Proof.
  revert z acc. induction n as [|n IH]; intros z acc Hz Hn; [lia|]. cbn [Nat.add decimal_digits].
  destruct (Z.ltb_spec z 10) as [|Hge]; [done|]. destruct n as [|n].
  { change (10 ^ Z.of_nat 1) with 10 in Hz. lia. }
  apply IH; [|lia]. split; [apply Z.div_pos; lia|]. apply Z.div_lt_upper_bound; [lia|].
  replace (Z.of_nat (S (S n))) with (1 + Z.of_nat (S n)) in Hz by lia. rewrite Z.pow_add_r in Hz by lia. lia.
Qed.

Lemma decimal_short z : 0 <= z < 1000 -> (length (decimal z) <= 3)%nat.
Proof.
  intros Hz. unfold decimal. rewrite (proj2 (Z.ltb_ge _ _)) by lia.
  rewrite (decimal_digits_more 3 7) by (cbn; lia).
  pose proof (decimal_digits_length 3 z [] ltac:(cbn; lia) ltac:(lia)). cbn [length] in *. lia.
Qed.

Lemma store_string_Ok n s : (length s < n)%nat -> store_string n s = Ok s.
Proof. intros Hs. unfold store_string. by rewrite (proj2 (Nat.ltb_lt _ _)). Qed.

(** Arguments as the kernel presents them: non-empty strings, each ended by a
    NUL. *)
Definition arg_bytes (args : list (list Z)) : list Z := mjoin ((fun a => a ++ [0]) <$> args).

(** The arguments with single blanks between them. *)
Fixpoint join_blank (args : list (list Z)) : list Z :=
  match args with
  | [] => []
  | [a] => a
  | a :: args' => a ++ 32 :: join_blank args'
  end.

Lemma join_args_word a i rest : 0 ∉ a -> join_args (a ++ rest) i = a ++ join_args rest (i + length a).
Proof.
  revert i. induction a as [|c a IH]; intros i Ha; cbn [app length].
  - by rewrite Nat.add_0_r.
  - cbn [join_args]. rewrite (proj2 (Z.eqb_neq _ _)) by set_solver. rewrite IH by set_solver.
    do 3 f_equal. lia.
Qed.

Lemma join_args_spec args i k :
  args <> [] -> Forall (fun a => a <> [] /\ 0 ∉ a) args -> (0 < k)%nat ->
  (i + length (arg_bytes args) < LINEMAX)%nat ->
  exists r, join_args (arg_bytes args ++ replicate k 0) i = join_blank args ++ 0 :: r.
Proof.
  intros Hne Hargs Hk. revert i. induction Hargs as [|a args [Hane Ha0] Hargs IH]; intros i Hl; [done|].
  change (arg_bytes (a :: args)) with ((a ++ [0]) ++ arg_bytes args) in *. rewrite !length_app in Hl. cbn [length] in Hl.
  rewrite <- !app_assoc, join_args_word by done. cbn [app join_args].
  destruct (Nat.eqb_spec (i + length a) (LINEMAX - 1)) as [E|_]; [lia|].
  destruct args as [|b args].
  - cbn [arg_bytes fmap list_fmap mjoin list_join app join_blank]. destruct k as [|k]; [lia|]. cbn. eauto.
  - apply Forall_cons in Hargs as [[Hbne Hb0] Hargs']. destruct b as [|c b]; [done|].
    destruct IH with (i := S (i + length a)) as [r Hr]; [done|lia|].
    change (arg_bytes ((c :: b) :: args)) with (((c :: b) ++ [0]) ++ arg_bytes args) in *.
    cbn [app] in *. rewrite (proj2 (Z.eqb_neq c 0)) by set_solver. rewrite Hr.
    exists r. change (join_blank (a :: (c :: b) :: args)) with (a ++ 32 :: join_blank ((c :: b) :: args)).
    by rewrite <- app_assoc.
Qed.

(** ** Properties *)

(** The columns fit their buffers: for every terminal number with a minor
    below 256, [get_tty] stores at most 7 characters in its 8 bytes, and
    [get_state] at most 5 in its 6. *)
Theorem ps_columns_fit MAJOR MINOR p :
  0 <= MINOR (p_tty_nr p) < 256 ->
  (exists t, get_tty MAJOR MINOR (p_tty_nr p) = Ok t /\ (length t <= 7)%nat) /\
  (exists s, get_state p = Ok s /\ (1 <= length s <= 5)%nat).
Proof.
  intros Hm. split.
  - assert (Hgo : forall s, (length s <= 7)%nat -> exists t, store_string 8 s = Ok t /\ (length t <= 7)%nat)
      by (intros s Hs; exists s; split; [apply store_string_Ok; lia|done]).
    unfold get_tty. destruct (MAJOR _ =? 4); [destruct (Z.ltb_spec (MINOR (p_tty_nr p)) 64)|destruct (_ && _)]; apply Hgo.
    + rewrite length_app. pose proof (decimal_short (MINOR (p_tty_nr p)) ltac:(lia)). cbn [length]. lia.
    + rewrite length_app. pose proof (decimal_short (MINOR (p_tty_nr p) - 64) ltac:(lia)). cbn [length]. lia.
    + rewrite length_app. pose proof (decimal_short (MINOR (p_tty_nr p)) ltac:(lia)). cbn [length]. lia.
    + cbn. lia.
  - unfold get_state. rewrite store_string_Ok; [eexists; split; [done|]|];
      repeat destruct (_ <? _); repeat destruct (_ >? _); repeat destruct (_ =? _); cbn; lia.
Qed.

Definition demo_proc : proc_info := ProcInfo 7 7 7 7 34817 82 [98] [114] 0 0 (-20) 2.

Lemma ps_columns_fit_witness :
  (exists t, get_tty (fun d => d / 256) (fun d => d mod 256) (p_tty_nr demo_proc) = Ok t /\ (length t <= 7)%nat) /\
  (exists s, get_state demo_proc = Ok s /\ (1 <= length s <= 5)%nat).
Proof. apply (ps_columns_fit (fun d => d / 256) (fun d => d mod 256) demo_proc). vm_compute. split; [discriminate|reflexivity]. Defined.

(** A process whose arguments are non-empty strings that fit into the line
    buffer is listed with its arguments separated by single blanks. *)
Theorem ps_cmdline_joins args comm :
  args <> [] -> Forall (fun a => a <> [] /\ 0 ∉ a) args -> (length (arg_bytes args) < LINEMAX)%nat ->
  cmdline_of (arg_bytes args) comm = Ok (join_blank args).
Proof.
  intros Hne Hargs Hl. unfold cmdline_of.
  replace (take LINEMAX (arg_bytes args ++ replicate LINEMAX 0))
    with (arg_bytes args ++ replicate (LINEMAX - length (arg_bytes args)) 0).
  2:{ rewrite take_app_ge by lia. by rewrite take_replicate, Nat.min_l by lia. }
  destruct (join_args_spec args 0 (LINEMAX - length (arg_bytes args)) Hne Hargs ltac:(lia) ltac:(lia)) as [r ->].
  assert (H0 : (0 ∉ join_blank args) /\ join_blank args <> []).
  { clear Hl. induction Hargs as [|a args [Ha Ha0] Hargs IH]; [done|]. destruct args as [|b args]; [by cbn|].
    change (join_blank (a :: b :: args)) with (a ++ 32 :: join_blank (b :: args)).
    split; [|by destruct a as [|]]. apply not_elem_of_app. split; [done|].
    apply not_elem_of_cons. split; [done|]. destruct IH as [IH1 _]; [done|exact IH1]. }
  destruct H0 as [H0 Hnn]. cbv zeta. rewrite (strlen_cstr (join_blank args) r H0). run.
  rewrite (proj2 (Z.eqb_neq _ _)) by (destruct (join_blank args); cbn in *; [done|lia]).
  by rewrite Nat2Z.id, take_app_length.
Qed.

Lemma ps_cmdline_joins_witness :
  cmdline_of [108; 115; 0; 45; 108; 0] [40; 108; 115; 41] = Ok [108; 115; 32; 45; 108].
Proof.
  apply (ps_cmdline_joins [[108; 115]; [45; 108]]); [discriminate| |cbn; unfold LINEMAX; lia].
  repeat constructor; try discriminate; set_solver.
Defined.
