(* ===== verification/Xv6Pipe.v ===== *)
(** Pipes of the xv6 kernel (src/설계 3번/xv6/pipe.c).

    A pipe is a ring buffer of [PIPESIZE] bytes with two [uint] counters that
    only grow and wrap at 2^32.  [pipewrite] and [piperead] hold the lock of
    the pipe between two sleeps, so a call is a sequence of critical sections:
    [pipewrite_run] and [piperead_run] are one such section each, from entry
    (or from the return of [sleep]) to the next [sleep] or [return].  Threads
    are interleaved section by section ([pipe_step]).

    Shown: bytes come out in the order they went in, whatever the
    interleaving and also across the wrap of the counters; no section faults;
    a thread sleeps only while it has a reason to; and the one way a wakeup is
    lost. *)

From S2P Require Import Prelude.

Definition PIPESIZE : Z := 512.

Record pipe := Pipe {
  data : list Z;
  nread : Z;
  nwrite : Z;
  readopen : Z;
  writeopen : Z
}.

(** The channels [&p->nread] and [&p->nwrite]. *)
Inductive chan := NREAD | NWRITE.

#[global] Instance chan_eq_dec : EqDecision chan.
Proof. solve_decision. Defined.

(** The fields [pipealloc] sets; the page it got holds arbitrary bytes. *)
Definition pipe_init (page : list Z) : pipe := Pipe page 0 0 1 1.

(** [pipeclose]: the new pipe, the channel woken up, and whether the page is
    given back to [kfree]. *)
Definition pipeclose (p : pipe) (writable : bool) : pipe * list chan * bool :=
  let p := if writable then Pipe (data p) (nread p) (nwrite p) (readopen p) 0
           else Pipe (data p) (nread p) (nwrite p) 0 (writeopen p) in
  let ws := if writable then [NREAD] else [NWRITE] in
  (p, ws, (readopen p =? 0) && (writeopen p =? 0)).

(** How a critical section ends: [Return r], or asleep on a channel with the
    loop index of the call. *)
Inductive stop :=
| Return (r : Z)
| Sleep (c : chan) (i : Z).

(** The [for] loop of [pipewrite] with [k] iterations left, from index [i].
    The list is the channels woken up.  [killed] is [myproc()->killed], which
    cannot change while the lock is held (interrupts are off and there is one
    CPU). *)
Fixpoint pipewrite_run (k : nat) (killed : bool) (p : pipe) (addr : list Z) (i : Z)
  : res (pipe * list chan * stop) :=
  match k with
  | O => Ok (p, [NREAD], Return i)
  | S k' =>
      if nwrite p =? u32 (nread p + PIPESIZE) then
        if (readopen p =? 0) || killed then Ok (p, [], Return (-1))
        else Ok (p, [NREAD], Sleep NWRITE i)
      else
        c ← aget addr i;
        d ← aset (data p) (nwrite p mod PIPESIZE) c;
        pipewrite_run k' killed
          (Pipe d (nread p) (u32 (nwrite p + 1)) (readopen p) (writeopen p)) addr (i + 1)
  end.

(** The copy loop of [piperead]: at most [k] bytes. *)
Fixpoint piperead_copy (k : nat) (p : pipe) : res (pipe * list Z) :=
  match k with
  | O => Ok (p, [])
  | S k' =>
      if nread p =? nwrite p then Ok (p, [])
      else
        c ← aget (data p) (nread p mod PIPESIZE);
        '(p, l) ← piperead_copy k' (Pipe (data p) (u32 (nread p + 1)) (nwrite p)
                                      (readopen p) (writeopen p));
        Ok (p, c :: l)
  end.

(** One pass of [piperead]; the last component is the bytes copied out. *)
Definition piperead_run (killed : bool) (p : pipe) (n : Z)
  : res (pipe * list chan * stop * list Z) :=
  if (nread p =? nwrite p) && negb (writeopen p =? 0) then
    if killed then Ok (p, [], Return (-1), []) else Ok (p, [], Sleep NREAD 0, [])
  else
    '(p, l) ← piperead_copy (Z.to_nat n) p;
    Ok (p, [NWRITE], Return (Z.of_nat (length l)), l).

(** ** Threads sharing a pipe *)

Inductive thread :=
| Writer (addr : list Z) (i : Z)
| Reader (n : Z).

(** [sent] and [rcvd] record the bytes put into and taken out of the pipe. *)
Record world := World {
  pp : pipe;
  ready : list thread;
  asleep : list (chan * thread);
  sent : list Z;
  rcvd : list Z
}.

Definition is_writer (t : thread) : bool :=
  match t with Writer _ _ => true | Reader _ => false end.

(** [wakeup] on every channel of [ws]. *)
Definition wake (ws : list chan) (w : world) : world :=
  World (pp w)
    (ready w ++ (filter (fun e => e.1 ∈ ws) (asleep w)).*2)
    (filter (fun e => e.1 ∉ ws) (asleep w)) (sent w) (rcvd w).

(** A section ends: the thread is gone, or sleeps (after the wakeups it
    made). *)
Definition leave (st : stop) (again : Z -> thread) (w : world) : world :=
  match st with
  | Return _ => w
  | Sleep c i => World (pp w) (ready w) (asleep w ++ [(c, again i)]) (sent w) (rcvd w)
  end.

(** Thread [j] of the ready list runs to the end of its section. *)
Definition run_thread (killed : bool) (w : world) (j : nat) : res world :=
  match ready w !! j with
  | None => Stuck OutOfBounds
  | Some t =>
      let rest := delete j (ready w) in
      match t with
      | Writer addr i =>
          '(p, ws, st) ← pipewrite_run (length addr - Z.to_nat i) killed (pp w) addr i;
          let new := Z.to_nat (u32 (nwrite p - nwrite (pp w))) in
          Ok (leave st (Writer addr)
               (wake ws (World p rest (asleep w)
                           (sent w ++ take new (drop (Z.to_nat i) addr)) (rcvd w))))
      | Reader n =>
          '(p, ws, st, l) ← piperead_run killed (pp w) n;
          Ok (leave st (fun _ => Reader n)
               (wake ws (World p rest (asleep w) (sent w) (rcvd w ++ l))))
      end
  end.

Definition threads (w : world) : list thread := ready w ++ (asleep w).*2.

(** What can happen.  A call is made through an open descriptor, and an end is
    closed for good only when no thread is inside a call on it (the caller's
    descriptor keeps it open).  [kills] says whether processes may be killed
    while they use the pipe; killing one that sleeps makes it ready. *)
Inductive pipe_step (kills : bool) : world -> world -> Prop :=
| call_write w addr :
    writeopen (pp w) <> 0 -> Z.of_nat (length addr) < 2 ^ 31 ->
    pipe_step kills w
      (World (pp w) (ready w ++ [Writer addr 0]) (asleep w) (sent w) (rcvd w))
| call_read w n :
    readopen (pp w) <> 0 ->
    pipe_step kills w
      (World (pp w) (ready w ++ [Reader n]) (asleep w) (sent w) (rcvd w))
| run_section w killed j w' :
    (killed = true -> kills = true) ->
    run_thread killed w j = Ok w' ->
    pipe_step kills w w'
| close_end w writable p ws freed :
    (forall t, t ∈ threads w -> is_writer t <> writable) ->
    pipeclose (pp w) writable = (p, ws, freed) ->
    pipe_step kills w (wake ws (World p (ready w) (asleep w) (sent w) (rcvd w)))
| kill_sleeper w l1 c t l2 :
    kills = true -> asleep w = l1 ++ (c, t) :: l2 ->
    pipe_step kills w (World (pp w) (ready w ++ [t]) (l1 ++ l2) (sent w) (rcvd w)).

Definition pipe_start (page : list Z) : world := World (pipe_init page) [] [] [] [].

Definition pipe_reachable (kills : bool) (page : list Z) (w : world) : Prop :=
  rtc (pipe_step kills) (pipe_start page) w.

(** ** The bytes in the pipe *)

Definition fill (p : pipe) : nat := Z.to_nat (u32 (nwrite p - nread p)).

Definition slot (p : pipe) (k : nat) : Z :=
  default 0 (data p !! Z.to_nat ((nread p + Z.of_nat k) mod PIPESIZE)).

Definition contents (p : pipe) : list Z := slot p <$> seq 0 (fill p).

Record pipe_ok (p : pipe) : Prop := PipeOk {
  ok_data : length (data p) = Z.to_nat PIPESIZE;
  ok_nread : 0 <= nread p < 2 ^ 32;
  ok_nwrite : 0 <= nwrite p < 2 ^ 32;
  ok_fill : (fill p <= Z.to_nat PIPESIZE)%nat
}.

Ltac pipe_lia :=
  unfold u32, PIPESIZE in *;
  change (2 ^ 32) with 4294967296 in *; change (2 ^ 31) with 2147483648 in *;
  Z.div_mod_to_equations; lia.

Lemma fill_full p : pipe_ok p -> nwrite p = u32 (nread p + PIPESIZE) <-> fill p = Z.to_nat PIPESIZE.
Proof. intros [? ? ? ?]. unfold fill in *. split; pipe_lia. Qed.

Lemma fill_empty p : pipe_ok p -> nread p = nwrite p <-> fill p = 0%nat.
Proof. intros [? ? ? ?]. unfold fill in *. split; pipe_lia. Qed.

Definition pushed (p : pipe) (d : list Z) : pipe :=
  Pipe d (nread p) (u32 (nwrite p + 1)) (readopen p) (writeopen p).

Definition popped (p : pipe) : pipe :=
  Pipe (data p) (u32 (nread p + 1)) (nwrite p) (readopen p) (writeopen p).

Lemma fill_pushed p d :
  pipe_ok p -> fill p <> Z.to_nat PIPESIZE -> fill (pushed p d) = S (fill p).
Proof. intros [? ? ? ?] ?. unfold fill, pushed in *. cbn. pipe_lia. Qed.

Lemma fill_popped p : pipe_ok p -> fill p <> 0%nat -> fill p = S (fill (popped p)).
Proof. intros [? ? ? ?] ?. unfold fill, popped in *. cbn. pipe_lia. Qed.

(** Storing at [nwrite] appends to the contents: the other bytes are in other
    slots. *)
Lemma push_spec p c :
  pipe_ok p -> fill p <> Z.to_nat PIPESIZE ->
  exists d, aset (data p) (nwrite p mod PIPESIZE) c = Ok d /\
    pipe_ok (pushed p d) /\ contents (pushed p d) = contents p ++ [c].
Proof.
  intros Hok Hf. pose proof (fill_pushed p) as Hfp. pose proof Hok as [Hd Hr Hw Hl].
  set (i := Z.to_nat (nwrite p mod PIPESIZE)).
  assert (Hi : Z.of_nat i = nwrite p mod PIPESIZE) by (unfold i; pipe_lia).
  assert (Hil : (i < length (data p))%nat) by (rewrite Hd; pipe_lia).
  exists (<[i := c]> (data p)). rewrite <- Hi. split; [by apply aset_nat|].
  split.
  - constructor; cbn [pushed data nread nwrite];
      [by rewrite length_insert|done|pipe_lia|rewrite Hfp by done; lia].
  - unfold contents. rewrite Hfp by done. rewrite seq_S, fmap_app. cbn [fmap list_fmap].
    f_equal.
    + apply list_fmap_ext. intros k x Hk. apply lookup_seq in Hk as [-> Hk].
      unfold slot, pushed. cbn [data nread]. rewrite list_lookup_insert_ne; [done|].
      intros E. assert (nwrite p mod PIPESIZE = (nread p + Z.of_nat (0 + k)%nat) mod PIPESIZE) as Em
        by (rewrite <- Hi, E; pipe_lia).
      revert Em. unfold fill in *. pipe_lia.
    + f_equal. unfold slot, pushed. cbn [data nread].
      replace (Z.to_nat ((nread p + Z.of_nat (0 + fill p)) mod PIPESIZE)) with i
        by (unfold i, fill; pipe_lia).
      by rewrite list_lookup_insert_eq.
Qed.

(** Reading at [nread] takes the first byte of the contents. *)
Lemma pop_spec p :
  pipe_ok p -> fill p <> 0%nat ->
  exists c, aget (data p) (nread p mod PIPESIZE) = Ok c /\
    pipe_ok (popped p) /\ contents p = c :: contents (popped p).
Proof.
  intros Hok Hf. pose proof (fill_popped p Hok Hf) as Hfp. pose proof Hok as [Hd Hr Hw Hl].
  set (i := Z.to_nat (nread p mod PIPESIZE)).
  assert (Hi : Z.of_nat i = nread p mod PIPESIZE) by (unfold i; pipe_lia).
  destruct (lookup_lt_is_Some_2 (data p) i) as [c Hc]; [rewrite Hd; pipe_lia|].
  exists c. rewrite <- Hi. split; [by apply aget_nat|]. split.
  - constructor; cbn [popped data nread nwrite]; [done|pipe_lia|done|lia].
  - unfold contents. rewrite Hfp. cbn [seq fmap list_fmap]. f_equal.
    + unfold slot. rewrite Z.add_0_r. fold i. by rewrite Hc.
    + rewrite <- fmap_S_seq, <- list_fmap_compose. apply list_fmap_ext.
      intros _ k _. unfold slot, popped. cbn [data nread compose].
      do 2 f_equal. f_equal. pipe_lia.
Qed.

(** ** One critical section *)

(** [pipewrite_run] appends a prefix of what is left of [addr]; it sleeps or
    fails only when the pipe is full. *)
Lemma pipewrite_run_spec k killed p addr i :
  pipe_ok p -> 0 <= i -> (Z.to_nat i + k)%nat = length addr ->
  exists p' ws st m, pipewrite_run k killed p addr i = Ok (p', ws, st) /\
    pipe_ok p' /\ (m <= k)%nat /\
    contents p' = contents p ++ take m (drop (Z.to_nat i) addr) /\
    nread p' = nread p /\ nwrite p' = u32 (nwrite p + Z.of_nat m) /\
    readopen p' = readopen p /\ writeopen p' = writeopen p /\
    match st with
    | Return r =>
        (r = Z.of_nat (length addr) /\ m = k /\ ws = [NREAD]) \/
        (r = -1 /\ fill p' = Z.to_nat PIPESIZE /\ ws = [] /\ (readopen p = 0 \/ killed = true))
    | Sleep c i' => c = NWRITE /\ i' = i + Z.of_nat m /\ (m < k)%nat /\ ws = [NREAD] /\
        fill p' = Z.to_nat PIPESIZE /\ readopen p <> 0 /\ killed = false
    end.
Proof.
  revert p i. induction k as [|k IH]; intros p i Hok Hi Hlen; cbn [pipewrite_run].
  - exists p, [NREAD], (Return i), 0%nat. rewrite take_0, app_nil_r, Z.add_0_r.
    pose proof Hok as [? ? ? ?].
    repeat split; try done; try lia; [unfold u32; by rewrite Z.mod_small|].
    left. repeat split; lia.
  - destruct (Z.eqb_spec (nwrite p) (u32 (nread p + PIPESIZE))) as [E|E].
    + pose proof (proj1 (fill_full p Hok) E) as Hfull. pose proof Hok as [? ? ? ?].
      assert (u32 (nwrite p + Z.of_nat 0) = nwrite p) as Hu
        by (rewrite Z.add_0_r; unfold u32; by rewrite Z.mod_small).
      destruct ((readopen p =? 0) || killed) eqn:Ec.
      * exists p, [], (Return (-1)), 0%nat. rewrite take_0, app_nil_r, Hu.
        repeat split; try done; try lia. right. repeat split; try done.
        apply orb_true_iff in Ec as [Ec|Ec]; [left; lia|by right].
      * zbool. exists p, [NREAD], (Sleep NWRITE i), 0%nat. rewrite take_0, app_nil_r, Hu.
        repeat split; try done; lia.
    + assert (Hnf : fill p <> Z.to_nat PIPESIZE) by (intros H; apply E, fill_full; done).
      destruct (lookup_lt_is_Some_2 addr (Z.to_nat i)) as [c Hc]; [lia|].
      rewrite (proj2 (aget_Ok addr i c)) by done. run.
      destruct (push_spec p c Hok Hnf) as (d & Hd & Hok' & Hcon). rewrite Hd. run.
      destruct (IH (pushed p d) (i + 1) Hok' ltac:(lia) ltac:(lia))
        as (p' & ws & st & m & Hrun & Hok2 & Hm & Hc2 & Hr & Hw & Hro & Hwo & Hst).
      exists p', ws, st, (S m). unfold pushed in Hrun. rewrite Hrun.
      split; [done|]. split; [done|]. split; [lia|]. split.
      { rewrite Hc2, Hcon, <- app_assoc. f_equal.
        rewrite (drop_S addr c (Z.to_nat i) Hc). cbn [take app].
        by replace (Z.to_nat (i + 1)) with (S (Z.to_nat i)) by lia. }
      split; [done|]. split; [rewrite Hw; cbn [pushed nwrite]; pipe_lia|].
      split; [done|]. split; [done|].
      destruct st; [|naive_solver lia].
      destruct Hst as [(?&?&?)|(?&?&?&?)]; [left; repeat split; try done; lia|right; done].
Qed.

(** [piperead_copy] takes the first [n] bytes, or all there are. *)
Lemma piperead_copy_spec k p :
  pipe_ok p ->
  exists p', piperead_copy k p = Ok (p', take k (contents p)) /\ pipe_ok p' /\
    contents p' = drop k (contents p) /\ nwrite p' = nwrite p /\
    readopen p' = readopen p /\ writeopen p' = writeopen p.
Proof.
  revert p. induction k as [|k IH]; intros p Hok; cbn [piperead_copy].
  { exists p. by rewrite take_0, drop_0. }
  destruct (Z.eqb_spec (nread p) (nwrite p)) as [E|E].
  - apply fill_empty in E; [|done]. exists p.
    assert (contents p = []) as -> by (unfold contents; by rewrite E). done.
  - assert (Hne : fill p <> 0%nat) by (intros H; apply E, fill_empty; done).
    destruct (pop_spec p Hok Hne) as (c & Hc & Hok' & Hcon). rewrite Hc. run.
    destruct (IH (popped p) Hok') as (p' & Hrun & Hok2 & Hc2 & Hw & Hro & Hwo).
    unfold popped in Hrun. rewrite Hrun. run. exists p'.
    rewrite Hcon. cbn [take drop]. done.
Qed.

Lemma contents_length p : length (contents p) = fill p.
Proof. unfold contents. by rewrite length_fmap, length_seq. Qed.

(** ** The invariant of the threads *)

Definition thread_ok (p : pipe) (t : thread) : Prop :=
  match t with
  | Writer addr i => 0 <= i <= Z.of_nat (length addr) /\
                     Z.of_nat (length addr) < 2 ^ 31 /\ writeopen p <> 0
  | Reader n => readopen p <> 0
  end.

(** Why a sleeper sleeps. *)
Definition reason (p : pipe) (c : chan) : Prop :=
  match c with
  | NREAD => fill p = 0%nat /\ writeopen p <> 0
  | NWRITE => fill p = Z.to_nat PIPESIZE /\ readopen p <> 0
  end.

Definition chan_of (t : thread) : chan := if is_writer t then NWRITE else NREAD.

Record winv (kills : bool) (w : world) : Prop := WInv {
  w_pipe : pipe_ok (pp w);
  w_fifo : sent w = rcvd w ++ contents (pp w);
  w_threads : forall t, t ∈ threads w -> thread_ok (pp w) t;
  w_chan : forall c t, (c, t) ∈ asleep w -> c = chan_of t;
  w_reason : kills = false -> forall c t, (c, t) ∈ asleep w -> reason (pp w) c
}.

Lemma elem_threads w t : t ∈ threads w <-> t ∈ ready w \/ exists c, (c, t) ∈ asleep w.
Proof.
  unfold threads. rewrite elem_of_app, list_elem_of_fmap. split.
  - intros [H|([c t'] & -> & H)]; [by left|right; by exists c].
  - intros [H|[c H]]; [by left|right; by exists (c, t)].
Qed.

Lemma elem_wake_asleep ws w c t : (c, t) ∈ asleep (wake ws w) <-> (c ∉ ws) /\ (c, t) ∈ asleep w.
Proof. unfold wake. cbn [asleep]. by rewrite list_elem_of_filter. Qed.

Lemma elem_wake_threads ws w t : t ∈ threads (wake ws w) <-> t ∈ threads w.
Proof.
  rewrite !elem_threads. setoid_rewrite elem_wake_asleep. unfold wake. cbn [ready].
  rewrite elem_of_app, list_elem_of_fmap. split.
  - intros [[H|([c t'] & -> & H)]|[c [_ H]]]; [by left| |right; by exists c].
    apply list_elem_of_filter in H as [_ H]. right. by exists c.
  - intros [H|[c H]]; [by left; left|].
    destruct (decide (c ∈ ws)) as [Hc|Hc].
    + left; right. exists (c, t). split; [done|]. apply list_elem_of_filter. by split.
    + right. exists c. by split.
Qed.

Lemma thread_ok_ends p p' t :
  readopen p' = readopen p -> writeopen p' = writeopen p -> thread_ok p t -> thread_ok p' t.
Proof. intros Hr Hw. destruct t; cbn; by rewrite ?Hr, ?Hw. Qed.

(** A section that changes the pipe to [p'], wakes [ws] and maybe goes to sleep
    keeps the invariant when the sleepers it leaves have their reasons. *)
Lemma winv_section kills w j t p' ws st again snt rcv :
  winv kills w -> ready w !! j = Some t ->
  pipe_ok p' -> snt = rcv ++ contents p' ->
  readopen p' = readopen (pp w) -> writeopen p' = writeopen (pp w) ->
  (kills = false -> forall c t', (c, t') ∈ asleep w -> c ∉ ws -> reason p' c) ->
  match st with
  | Return _ => True
  | Sleep c i => thread_ok p' (again i) /\ c = chan_of (again i) /\ reason p' c
  end ->
  winv kills (leave st again (wake ws (World p' (delete j (ready w)) (asleep w) snt rcv))).
Proof.
  intros [Hok Hf Ht Hc Hr] Hj Hok' Hf' Hro Hwo Hkeep Hst.
  set (w0 := World p' (delete j (ready w)) (asleep w) snt rcv).
  assert (Hsub : forall t', t' ∈ threads w0 -> thread_ok p' t').
  { intros t' H. apply (thread_ok_ends (pp w)); [done..|]. apply Ht.
    apply elem_threads in H as [H|H]; apply elem_threads; [left|by right].
    cbn [w0 ready] in H. rewrite delete_take_drop in H.
    rewrite <- (take_drop j (ready w)). apply elem_of_app. apply elem_of_app in H as [H|H]; [by left|].
    right. rewrite (drop_S _ _ _ Hj). by right. }
  destruct st as [r|c i]; cbn [leave].
  - constructor; cbn [pp sent rcvd wake].
    + done.
    + done.
    + intros t' H. apply Hsub. by apply elem_wake_threads in H.
    + intros c t' H. apply elem_wake_asleep in H as [_ H]. by apply Hc.
    + intros Hk c t' H. apply elem_wake_asleep in H as [Hn H]. by eapply Hkeep.
  - destruct Hst as (Ht1 & Hc1 & Hr1).
    constructor; cbn [pp sent rcvd].
    + done.
    + done.
    + intros t' H. apply elem_threads in H as [H|[c' H]].
      * apply Hsub, (elem_wake_threads ws w0), elem_threads. by left.
      * cbn [asleep] in H. apply elem_of_app in H as [H|H].
        -- apply Hsub, (elem_wake_threads ws w0), elem_threads. right. by exists c'.
        -- apply list_elem_of_singleton in H. by simplify_eq.
    + intros c' t' H. cbn [asleep] in H. apply elem_of_app in H as [H|H].
      * apply elem_wake_asleep in H as [_ H]. by apply Hc.
      * apply list_elem_of_singleton in H. by simplify_eq.
    + intros Hk c' t' H. cbn [asleep] in H. apply elem_of_app in H as [H|H].
      * apply elem_wake_asleep in H as [Hn H]. by eapply Hkeep.
      * apply list_elem_of_singleton in H. by simplify_eq.
Qed.

Lemma asleep_thread_ok kills w c t : winv kills w -> (c, t) ∈ asleep w -> thread_ok (pp w) t.
Proof. intros Hi H. apply (w_threads _ _ Hi), elem_threads. right. by exists c. Qed.

Lemma ready_thread_ok kills w j t : winv kills w -> ready w !! j = Some t -> thread_ok (pp w) t.
Proof.
  intros Hi H. apply (w_threads _ _ Hi), elem_threads. left. by eapply list_elem_of_lookup_2.
Qed.

Lemma run_writer kills killed w j addr i :
  winv kills w -> (killed = true -> kills = true) -> ready w !! j = Some (Writer addr i) ->
  exists w', run_thread killed w j = Ok w' /\ winv kills w'.
Proof.
  intros Hinv Hkill Hj. pose proof Hinv as [Hok Hf Ht Hc Hr].
  destruct (ready_thread_ok _ _ _ _ Hinv Hj) as (Hi & Hlen & Hopen).
  unfold run_thread. rewrite Hj.
  destruct (pipewrite_run_spec (length addr - Z.to_nat i) killed (pp w) addr i Hok)
    as (p' & ws & st & m & Hrun & Hok' & Hm & Hcon & _ & Hw & Hro & Hwo & Hst); [lia|lia|].
  rewrite Hrun. run. eexists; split; [reflexivity|].
  replace (Z.to_nat (u32 (nwrite p' - nwrite (pp w)))) with m
    by (pose proof (ok_nwrite _ Hok); rewrite Hw; pipe_lia).
  eapply winv_section; try done.
  - by rewrite Hcon, app_assoc, <- Hf.
  - intros Hk c t Hin Hnin. pose proof (Hr Hk c t Hin) as Hrc.
    pose proof (Hc _ _ Hin) as ->. pose proof (asleep_thread_ok _ _ _ _ Hinv Hin) as Hto.
    assert (Hfill : fill p' = (fill (pp w) + length (take m (drop (Z.to_nat i) addr)))%nat)
      by (rewrite <- !contents_length, Hcon; apply length_app).
    destruct t as [addr' i'|n]; cbn [chan_of is_writer reason] in *.
    + pose proof (ok_fill _ Hok'). rewrite Hro. lia.
    + destruct st as [r|c i'].
      * destruct Hst as [(_&_&->)|(_&_&_&[?|?])]; [set_solver|done|].
        rewrite Hkill in Hk by done. done.
      * destruct Hst as (_&_&_&->&_). set_solver.
  - destruct st as [r|c i']; [done|]. destruct Hst as (-> & -> & ? & _ & Hfull & Hrd & _).
    cbn. rewrite Hro, Hwo. repeat split; done || lia.
Qed.

Lemma run_reader kills killed w j n :
  winv kills w -> (killed = true -> kills = true) -> ready w !! j = Some (Reader n) ->
  exists w', run_thread killed w j = Ok w' /\ winv kills w'.
Proof.
  intros Hinv Hkill Hj. pose proof Hinv as [Hok Hf Ht Hc Hr].
  pose proof (ready_thread_ok _ _ _ _ Hinv Hj) as Hopen.
  unfold run_thread, piperead_run. rewrite Hj.
  destruct ((nread (pp w) =? nwrite (pp w)) && negb (writeopen (pp w) =? 0)) eqn:E.
  - zbool. destruct killed; run; (eexists; split; [reflexivity|]).
    + eapply winv_section; try done; [by rewrite app_nil_r|].
      intros Hk. by rewrite Hkill in Hk.
    + eapply winv_section; try done.
      * by rewrite app_nil_r.
      * intros Hk c t Hin _. by apply (Hr Hk c t).
      * cbn. repeat split; try done. by apply fill_empty.
  - destruct (piperead_copy_spec (Z.to_nat n) (pp w) Hok)
      as (p' & Hrun & Hok' & Hcon & Hw & Hro & Hwo).
    rewrite Hrun. run. eexists; split; [reflexivity|].
    eapply winv_section; try done.
    + rewrite Hf, <- app_assoc, Hcon, take_drop. done.
    + intros Hk c t Hin Hnin. pose proof (Hr Hk c t Hin) as Hrc.
      pose proof (Hc _ _ Hin) as ->.
      destruct t; cbn [chan_of is_writer reason] in *; [set_solver|].
      rewrite Hwo. split; [|naive_solver].
      rewrite <- contents_length, Hcon, length_drop, contents_length. lia.
Qed.

Lemma run_thread_inv kills killed w j t :
  winv kills w -> (killed = true -> kills = true) -> ready w !! j = Some t ->
  exists w', run_thread killed w j = Ok w' /\ winv kills w'.
Proof. intros Hi Hk Hj. destruct t; [by eapply run_writer|by eapply run_reader]. Qed.

Lemma contents_ends p ro wo :
  contents (Pipe (data p) (nread p) (nwrite p) ro wo) = contents p.
Proof. done. Qed.

Lemma winv_close kills w writable p ws freed :
  winv kills w -> (forall t, t ∈ threads w -> is_writer t <> writable) ->
  pipeclose (pp w) writable = (p, ws, freed) ->
  winv kills (wake ws (World p (ready w) (asleep w) (sent w) (rcvd w))).
Proof.
  intros [Hok Hf Ht Hc Hr] Hno Hcl. unfold pipeclose in Hcl.
  assert (Hin : forall c t, (c, t) ∈ asleep w -> is_writer t <> writable).
  { intros c t H. apply Hno, elem_threads. right. by exists c. }
  constructor; cbn [pp wake sent rcvd].
  - destruct Hok. destruct writable; simplify_eq; by constructor.
  - destruct writable; simplify_eq; by rewrite contents_ends.
  - intros t H. apply elem_wake_threads in H. change (t ∈ threads w) in H.
    specialize (Ht t H). specialize (Hno t H).
    destruct writable; simplify_eq; by destruct t.
  - intros c t H. apply elem_wake_asleep in H as [_ H]. by apply Hc.
  - intros Hk c t H. apply elem_wake_asleep in H as [Hn H].
    pose proof (Hin c t H) as Hw. pose proof (Hc c t H) as ->.
    destruct writable, t; simplify_eq; cbn in Hn; set_solver.
Qed.

Lemma pipe_step_inv kills w w' : pipe_step kills w w' -> winv kills w -> winv kills w'.
Proof.
  intros Hs Hi. pose proof Hi as [Hok Hf Ht Hc Hr]. destruct Hs as [w addr Ho Hl|w n Ho|w killed j w' Hk Hrun| |w l1 c t l2 -> Hsl].
  - constructor; try done. cbn [pp]. intros t H. apply elem_threads in H as [H|[c H]].
    + apply elem_of_app in H as [H|H]; [apply Ht, elem_threads; by left|].
      apply list_elem_of_singleton in H as ->. cbn. lia.
    + apply Ht, elem_threads. right. by exists c.
  - constructor; try done. cbn [pp]. intros t H. apply elem_threads in H as [H|[c H]].
    + apply elem_of_app in H as [H|H]; [apply Ht, elem_threads; by left|].
      by apply list_elem_of_singleton in H as ->.
    + apply Ht, elem_threads. right. by exists c.
  - destruct (ready w !! j) as [t|] eqn:Hj.
    + destruct (run_thread_inv _ _ _ _ _ Hi Hk Hj) as (w2 & H2 & Hi2).
      rewrite Hrun in H2. by simplify_eq.
    + unfold run_thread in Hrun. by rewrite Hj in Hrun.
  - by eapply winv_close.
  - assert (Hsub : forall e, e ∈ l1 ++ l2 -> e ∈ asleep w) by (intros e; rewrite Hsl, !elem_of_app, elem_of_cons; tauto).
    constructor; cbn [pp sent rcvd ready asleep]; try done.
    + intros u H. apply Ht, elem_threads. apply elem_threads in H as [H|[c' H]].
      * cbn [ready] in H. apply elem_of_app in H as [H|H]; [by left|]. apply list_elem_of_singleton in H as ->.
        right. exists c. rewrite Hsl. apply elem_of_app. right. left.
      * right. exists c'. by apply Hsub.
    + intros c' u H. by apply Hc, Hsub.
Qed.

Lemma pipe_reachable_inv kills page w :
  length page = Z.to_nat PIPESIZE -> pipe_reachable kills page w -> winv kills w.
Proof.
  intros Hp H. unfold pipe_reachable in H.
  assert (H0 : winv kills (pipe_start page)).
  { constructor; cbn [pipe_start pp sent rcvd]; try (intros ?; set_solver); try done.
    constructor; cbn [pipe_init data nread nwrite]; [done|lia..|].
    unfold fill. cbn [pipe_init nread nwrite]. pipe_lia. }
  revert H0. induction H as [|? ? ? Hs _ IH]; [done|].
  intros H0. by eapply IH, pipe_step_inv.
Qed.

(** ** Theorems *)

(** C25: whatever the threads do, and across any number of wraps of the two
    counters, the bytes sent are the bytes received followed by the at most
    512 bytes in the pipe, in order; and no critical section of a ready thread
    faults. *)
Theorem pipe_fifo kills page w :
  length page = Z.to_nat PIPESIZE -> pipe_reachable kills page w ->
  sent w = rcvd w ++ contents (pp w) /\
  (length (contents (pp w)) <= Z.to_nat PIPESIZE)%nat /\
  forall j killed, (j < length (ready w))%nat -> (killed = true -> kills = true) ->
    exists w', run_thread killed w j = Ok w'.
Proof.
  intros Hp H. apply pipe_reachable_inv in H as Hi; [|done].
  split; [apply Hi|]. split; [rewrite contents_length; apply Hi|].
  intros j killed Hj Hk. apply lookup_lt_is_Some in Hj as [t Ht].
  destruct (run_thread_inv _ _ _ _ _ Hi Hk Ht) as (w' & Hr & _). by exists w'.
Qed.

(** C31: while no process that uses the pipe is killed, a thread asleep in
    [piperead] has an empty pipe with an open write end, a thread asleep in
    [pipewrite] has a full pipe with an open read end: no wakeup is lost, and
    readers and writers are never asleep together. *)
Theorem pipe_no_lost_wakeup page w :
  length page = Z.to_nat PIPESIZE -> pipe_reachable false page w ->
  (forall t, (NREAD, t) ∈ asleep w -> contents (pp w) = [] /\ writeopen (pp w) <> 0) /\
  (forall t, (NWRITE, t) ∈ asleep w ->
     length (contents (pp w)) = Z.to_nat PIPESIZE /\ readopen (pp w) <> 0) /\
  (forall t u, (NREAD, t) ∈ asleep w -> (NWRITE, u) ∈ asleep w -> False).
Proof.
  intros Hp H. apply pipe_reachable_inv in H as Hi; [|done].
  pose proof (w_reason _ _ Hi eq_refl) as Hr.
  split; [|split].
  - intros t Ht. destruct (Hr _ _ Ht) as [Hf Ho]. split; [|done].
    apply nil_length_inv. by rewrite contents_length.
  - intros t Ht. rewrite contents_length. by apply (Hr _ _ Ht).
  - intros t u Ht Hu. destruct (Hr _ _ Ht) as [Hf _]. destruct (Hr _ _ Hu) as [Hf' _].
    rewrite Hf in Hf'. done.
Qed.

(** ** Runs *)

Definition page0 : list Z := replicate (Z.to_nat PIPESIZE) 1.

Definition run_or (killed : bool) (w : world) (j : nat) : world :=
  match run_thread killed w j with Ok w' => w' | Stuck _ => w end.

Definition with_ready (w : world) (t : thread) : world :=
  World (pp w) (ready w ++ [t]) (asleep w) (sent w) (rcvd w).

(** A reader goes to sleep on the empty pipe. *)
Definition reader_waits : world := run_or false (with_ready (pipe_start page0) (Reader 2)) 0.

(** Three bytes are written; the reader then takes two of them. *)
Definition two_read : world :=
  run_or false (run_or false (with_ready reader_waits (Writer [7; 8; 9] 0)) 0) 0.

(** A killed process writes 513 bytes. *)
Definition killed_writer : world :=
  run_or true (with_ready reader_waits (Writer (replicate 513 7) 0)) 0.

Lemma reader_waits_reachable kills : pipe_reachable kills page0 reader_waits.
Proof.
  eapply rtc_l; [apply (call_read _ _ 2); done|].
  apply rtc_once. apply (run_section _ _ false 0%nat); [done|]. vm_compute. reflexivity.
Qed.

Lemma pipe_fifo_witness :
  sent two_read = [7; 8; 9] /\ rcvd two_read = [7; 8] /\
  sent two_read = rcvd two_read ++ contents (pp two_read).
Proof.
  split; [vm_compute; reflexivity|]. split; [vm_compute; reflexivity|].
  apply (pipe_fifo false page0 two_read); [reflexivity|].
  unfold pipe_reachable. etrans; [apply reader_waits_reachable|].
  eapply rtc_l; [apply (call_write _ _ [7; 8; 9]); [done|cbn; lia]|].
  eapply rtc_l; [apply (run_section _ _ false 0%nat); [done|vm_compute; reflexivity]|].
  apply rtc_once. apply (run_section _ _ false 0%nat); [done|]. vm_compute. reflexivity.
Defined.

Lemma pipe_no_lost_wakeup_witness :
  (NREAD, Reader 2) ∈ asleep reader_waits /\ contents (pp reader_waits) = [].
Proof.
  assert (H : (NREAD, Reader 2) ∈ asleep reader_waits) by (vm_compute; left).
  split; [exact H|].
  exact (proj1 (proj1 (pipe_no_lost_wakeup page0 reader_waits eq_refl
                         (reader_waits_reachable false)) (Reader 2) H)).
Defined.

(** a writer that has been killed gives up when the pipe is full without
    waking the readers: here the reader stays asleep with 512 bytes in the pipe
    and no thread left to run. *)
Theorem pipe_killed_writer_loses_wakeup :
  pipe_reachable true page0 killed_writer /\
  (NREAD, Reader 2) ∈ asleep killed_writer /\ ready killed_writer = [] /\
  length (contents (pp killed_writer)) = Z.to_nat PIPESIZE.
Proof.
  split.
  - unfold pipe_reachable. etrans; [apply reader_waits_reachable|].
    eapply rtc_l; [apply (call_write _ _ (replicate 513 7)); [done|cbn; lia]|].
    apply rtc_once. apply (run_section _ _ true 0%nat); [done|]. vm_compute. reflexivity.
  - split; [vm_compute; left|]. split; vm_compute; reflexivity.
Qed.
