(* ===== verification/Xv6Kalloc.v ===== *)
(** The physical page allocator of the xv6 kernel (src/설계 3번/xv6/kalloc.c).

    The free list is threaded through the free pages themselves: the first
    word of a free page is the address of the next one.  Memory is therefore
    part of the state, a function from addresses to bytes, and the list is a
    property of it ([chain]).  The abstract specification is a pool of pages;
    [kalloc] and [kfree] are shown to take from it and give back to it, for
    every client that writes only to pages it holds.  [kmem.lock] makes the
    operations atomic and is not represented. *)

From S2P Require Import Prelude.

Definition PGSIZE : Z := 4096.
Definition KERNBASE : Z := 2147483648.
Definition PHYSTOP : Z := 234881024.

Definition PGROUNDUP (sz : Z) : Z := Z.land (u32 (sz + PGSIZE - 1)) (u32 (Z.lnot (PGSIZE - 1))).
Definition V2P (a : Z) : Z := u32 (a - KERNBASE).
Definition P2V (a : Z) : Z := u32 (a + KERNBASE).

(** ** Memory *)

Definition mem := Z -> Z.

Definition store8 (m : mem) (a c : Z) : mem := fun x => if x =? a then c mod 256 else m x.

Definition load32 (m : mem) (a : Z) : Z :=
  m a + 256 * m (a + 1) + 65536 * m (a + 2) + 16777216 * m (a + 3).

Definition store32 (m : mem) (a v : Z) : mem :=
  store8 (store8 (store8 (store8 m a v) (a + 1) (v / 256)) (a + 2) (v / 65536)) (a + 3) (v / 16777216).

(** The effect of [memset]; string.c itself is in [Xv6String]. *)
Definition fill_bytes (m : mem) (a c n : Z) : mem :=
  fun x => if (a <=? x) && (x <? a + n) then c mod 256 else m x.

(** ** The allocator *)

Record kmem := Kmem { use_lock : Z; freelist : Z }.

Record kstate := KState { bytes : mem; km : kmem }.

Section kalloc.
(** [end], the first address after the kernel, set by the linker. *)
Variable end_ : Z.

Definition kfree (s : kstate) (v : Z) : res kstate :=
  if negb (v mod PGSIZE =? 0) || (v <? end_) || (PHYSTOP <=? V2P v) then Stuck Panicked
  else
    let m := fill_bytes (bytes s) v 1 PGSIZE in
    let m := store32 m v (freelist (km s)) in
    Ok (KState m (Kmem (use_lock (km s)) v)).

Definition kalloc (s : kstate) : Z * kstate :=
  let r := freelist (km s) in
  if r =? 0 then (r, s)
  else (r, KState (bytes s) (Kmem (use_lock (km s)) (load32 (bytes s) r))).

(** The loop of [freerange]; [fuel] bounds the number of pages. *)
Fixpoint free_from (fuel : nat) (s : kstate) (p vend : Z) : res kstate :=
  match fuel with
  | O => Stuck OutOfFuel
  | S fuel' =>
      if u32 (p + PGSIZE) <=? vend then s ← kfree s p; free_from fuel' s (u32 (p + PGSIZE)) vend
      else Ok s
  end.

Definition freerange (s : kstate) (vstart vend : Z) : res kstate :=
  free_from (S (Z.to_nat ((vend - vstart) / PGSIZE))) s (PGROUNDUP vstart) vend.

Definition kinit1 (s : kstate) (vstart vend : Z) : res kstate :=
  freerange (KState (bytes s) (Kmem 0 (freelist (km s)))) vstart vend.

Definition kinit2 (s : kstate) (vstart vend : Z) : res kstate :=
  s ← freerange s vstart vend;
  Ok (KState (bytes s) (Kmem 1 (freelist (km s)))).

(** The two calls of [main]; [kmem] is zero before. *)
Definition boot (m : mem) : res kstate :=
  s ← kinit1 (KState m (Kmem 0 0)) end_ (P2V (4 * 1024 * 1024));
  kinit2 s (P2V (4 * 1024 * 1024)) (P2V PHYSTOP).

(** ** Clients *)

(** A client holds pages; it allocates, gives back the page in position [i] of
    those it holds, or stores a byte in it. *)
Inductive client_op :=
| Alloc
| Free (i : nat)
| Store (i : nat) (off c : Z).

Definition client_step (s : kstate * list Z) (o : client_op) : res (kstate * list Z) :=
  let '(k, held) := s in
  match o with
  | Alloc => let '(r, k) := kalloc k in Ok (k, if r =? 0 then held else r :: held)
  | Free i =>
      match held !! i with
      | Some v => k ← kfree k v; Ok (k, delete i held)
      | None => Ok (k, held)
      end
  | Store i off c =>
      match held !! i with
      | Some v =>
          if (0 <=? off) && (off <? PGSIZE)
          then Ok (KState (store8 (bytes k) (v + off) c) (km k), held) else Ok (k, held)
      | None => Ok (k, held)
      end
  end.

Fixpoint client_run (s : kstate * list Z) (os : list client_op) : res (kstate * list Z) :=
  match os with
  | [] => Ok s
  | o :: os => s ← client_step s o; client_run s os
  end.

End kalloc.

(** ** The free list as a list *)

Inductive chain (m : mem) : Z -> list Z -> Prop :=
| chain_nil : chain m 0 []
| chain_cons a l : a <> 0 -> chain m (load32 m a) l -> chain m a (a :: l).

(** The [n] pages from [p0]. *)
Definition pages (p0 : Z) (n : nat) : list Z := (fun k => p0 + PGSIZE * Z.of_nat k) <$> seq 0 n.

(** A page [kfree] accepts. *)
Definition good_page (end_ v : Z) : Prop :=
  v mod PGSIZE = 0 /\ KERNBASE <= end_ <= v /\ v < KERNBASE + PHYSTOP.

Ltac page_lia :=
  unfold u32, PGSIZE, KERNBASE, PHYSTOP in *;
  change (2 ^ 32) with 4294967296 in *;
  Z.div_mod_to_equations; lia.

Lemma load_store32 m a v : 0 <= v < 2 ^ 32 -> load32 (store32 m a v) a = v.
Proof.
  intros Hv. unfold load32, store32, store8.
  rewrite !Z.eqb_refl, !(proj2 (Z.eqb_neq _ _)) by lia. page_lia.
Qed.

Lemma load32_ext m m' a :
  (forall x, a <= x < a + 4 -> m' x = m x) -> load32 m' a = load32 m a.
Proof. intros H. unfold load32. rewrite !H by lia. done. Qed.

(** Memory changes inside a page that is not on the list leave it alone. *)
Lemma chain_ext m m' v a l :
  chain m a l -> Forall (fun x => x mod PGSIZE = 0) (v :: l) -> v ∉ l ->
  (forall x, ~ (v <= x < v + PGSIZE) -> m' x = m x) ->
  chain m' a l.
Proof.
  intros Hc. induction Hc as [|a l Ha Hc IH]; intros Hal Hv Hm; [constructor|].
  apply Forall_cons in Hal as [Hv0 Hal]. apply Forall_cons in Hal as [Ha0 Hal].
  constructor; [done|]. rewrite (load32_ext m m').
  - apply IH; [by constructor|set_solver|done].
  - intros x Hx. apply Hm. assert (v <> a) by set_solver. page_lia.
Qed.

Lemma chain_bound m a l : chain m a l -> Forall (fun x => 0 <= x < 2 ^ 32) l -> 0 <= a < 2 ^ 32.
Proof. intros [] Hl; [lia|]. by apply Forall_cons in Hl as [? _]. Qed.

(** ** Operations on the list *)

Definition listed (end_ : Z) (s : kstate) (l : list Z) : Prop :=
  chain (bytes s) (freelist (km s)) l /\ Forall (good_page end_) l.

Lemma good_page_ok end_ v : good_page end_ v -> v <> 0 /\ 0 <= v < 2 ^ 32.
Proof. intros (?&?&?). page_lia. Qed.

Lemma good_aligned end_ l : Forall (good_page end_) l -> Forall (fun x => x mod PGSIZE = 0) l.
Proof. intros H. eapply Forall_impl; [exact H|]. by intros v [? _]. Qed.

Lemma kfree_spec end_ s v l :
  listed end_ s l -> good_page end_ v -> v ∉ l ->
  exists s', kfree end_ s v = Ok s' /\ listed end_ s' (v :: l) /\ use_lock (km s') = use_lock (km s) /\
    (forall x, ~ (v <= x < v + PGSIZE) -> bytes s' x = bytes s x).
Proof.
  intros [Hc Hg] Hv Hnin. pose proof (good_page_ok _ _ Hv) as [Hv0 Hvb].
  unfold kfree. destruct Hv as (Ha & He & Ht).
  rewrite (proj2 (Z.eqb_eq _ _) Ha), (proj2 (Z.ltb_ge v end_)), (proj2 (Z.leb_gt _ _)) by
    (unfold V2P; page_lia).
  cbn [negb orb]. eexists; split; [reflexivity|]. cbn [bytes km use_lock].
  assert (Hout : forall x, ~ (v <= x < v + PGSIZE) ->
     store32 (fill_bytes (bytes s) v 1 PGSIZE) v (freelist (km s)) x = bytes s x).
  { intros x Hx. unfold store32, store8, fill_bytes.
    rewrite !(proj2 (Z.eqb_neq _ _)) by page_lia.
    destruct ((v <=? x) && (x <? v + PGSIZE)) eqn:E; [zbool; lia|done]. }
  split; [|split; [done|exact Hout]].
  split; cbn [bytes km freelist].
  - constructor; [done|]. rewrite load_store32.
    + eapply chain_ext; [exact Hc| |exact Hnin|exact Hout].
      constructor; [done|by eapply good_aligned].
    + eapply chain_bound; [done|]. eapply Forall_impl; [done|]. intros x Hx. by eapply good_page_ok.
  - by constructor.
Qed.

Lemma kalloc_spec end_ s l :
  listed end_ s l ->
  match l with
  | [] => kalloc s = (0, s)
  | v :: l' => exists s', kalloc s = (v, s') /\ listed end_ s' l' /\ bytes s' = bytes s
  end.
Proof.
  intros [Hc Hg]. unfold kalloc. destruct l as [|v l]; inversion Hc as [E|a l' Ha Hc' E E'].
  - done.
  - subst. rewrite (proj2 (Z.eqb_neq _ _)) by done. eexists; split; [reflexivity|].
    by apply Forall_cons in Hg as [_ Hg].
Qed.

(** ** Booting *)

Lemma pages_S p0 n : pages p0 (S n) = p0 :: pages (p0 + PGSIZE) n.
Proof.
  unfold pages. cbn [seq fmap list_fmap]. f_equal; [lia|].
  rewrite <- fmap_S_seq, <- list_fmap_compose. apply list_fmap_ext. intros _ k _. cbn. lia.
Qed.

Lemma elem_pages p0 n v : v ∈ pages p0 n -> exists k, v = p0 + PGSIZE * Z.of_nat k /\ (k < n)%nat.
Proof.
  unfold pages. intros H. apply list_elem_of_fmap in H as (k & -> & Hk).
  apply elem_of_seq in Hk. exists k. split; [done|lia].
Qed.

(** [PGROUNDUP] is the next multiple of the page size. *)
(** Clearing the offset bits of an address. *)
Lemma page_mask x : 0 <= x < 2 ^ 32 -> Z.land x (u32 (Z.lnot (PGSIZE - 1))) = x / PGSIZE * PGSIZE.
Proof.
  intros Hb. change (u32 (Z.lnot (PGSIZE - 1))) with (Z.shiftl (Z.ones 20) 12). change PGSIZE with (2 ^ 12).
  rewrite <- Z.shiftr_div_pow2, <- Z.shiftl_mul_pow2 by lia.
  apply Z.bits_inj'. intros n Hn. rewrite Z.land_spec.
  destruct (Z.lt_ge_cases n 12).
  - rewrite !Z.shiftl_spec_low by lia. by rewrite andb_false_r.
  - rewrite !Z.shiftl_spec, Z.shiftr_spec by lia. replace (n - 12 + 12) with n by lia.
    destruct (Z.lt_ge_cases n 32).
    + rewrite Z.ones_spec_low by lia. by rewrite andb_true_r.
    + replace (Z.testbit x n) with false; [done|].
      destruct (Z.eq_dec x 0) as [->|]; [by rewrite Z.bits_0|].
      symmetry. apply Z.bits_above_log2; [lia|].
      apply Z.log2_lt_pow2; [lia|]. eapply Z.lt_le_trans; [apply Hb|]. by apply Z.pow_le_mono_r.
Qed.

Lemma PGROUNDUP_spec a :
  0 <= a <= 2 ^ 32 - PGSIZE -> PGROUNDUP a = (a + PGSIZE - 1) / PGSIZE * PGSIZE.
Proof.
  intros Ha. unfold PGROUNDUP.
  assert (u32 (a + PGSIZE - 1) = a + PGSIZE - 1) as -> by page_lia.
  apply page_mask. page_lia.
Qed.

Lemma free_from_spec end_ n : forall fuel s p vend l,
  (n < fuel)%nat -> listed end_ s l ->
  p mod PGSIZE = 0 -> KERNBASE <= end_ <= p -> vend <= KERNBASE + PHYSTOP ->
  (forall v, v ∈ l -> v < p \/ vend <= v) ->
  p + PGSIZE * Z.of_nat n <= vend < p + PGSIZE * Z.of_nat (S n) ->
  exists s', free_from end_ fuel s p vend = Ok s' /\
    listed end_ s' (reverse (pages p n) ++ l) /\ use_lock (km s') = use_lock (km s).
Proof.
  induction n as [|n IH]; intros fuel s p vend l Hf Hl Hp He Hv Hd Hn;
    (destruct fuel as [|fuel]; [lia|]); cbn [free_from].
  - rewrite (proj2 (Z.leb_gt _ _)) by page_lia. by exists s.
  - rewrite (proj2 (Z.leb_le _ _)) by page_lia.
    destruct (kfree_spec end_ s p l Hl) as (s1 & H1 & Hl1 & Hu1 & _).
    { split; [done|]. split; [done|]. page_lia. }
    { intros Hin. destruct (Hd p Hin); page_lia. }
    rewrite H1. run.
    replace (u32 (p + PGSIZE)) with (p + PGSIZE) by page_lia.
    destruct (IH fuel s1 (p + PGSIZE) vend (p :: l)) as (s2 & H2 & Hl2 & Hu2);
      try done; try lia; try page_lia.
    { intros v Hin. apply elem_of_cons in Hin as [->|Hin]; [left; page_lia|].
      destruct (Hd v Hin); [left; page_lia|by right]. }
    exists s2. split; [done|]. rewrite Hu2, Hu1. split; [|done].
    rewrite pages_S, reverse_cons, <- app_assoc. done.
Qed.

(** The pages between [a] and [b]. *)
Definition range_pages (a b : Z) : list Z :=
  pages (PGROUNDUP a) (Z.to_nat ((b - PGROUNDUP a) / PGSIZE)).

Lemma freerange_spec end_ s a b l :
  listed end_ s l -> KERNBASE <= end_ <= a -> a <= b -> b <= KERNBASE + PHYSTOP ->
  b mod PGSIZE = 0 -> (forall v, v ∈ l -> v < a \/ b <= v) ->
  exists s', freerange end_ s a b = Ok s' /\
    listed end_ s' (reverse (range_pages a b) ++ l) /\ use_lock (km s') = use_lock (km s).
Proof.
  intros Hl He Hab Hb Hmod Hd. unfold freerange, range_pages.
  rewrite PGROUNDUP_spec by page_lia.
  apply free_from_spec; try done; try page_lia.
  intros v Hin. destruct (Hd v Hin); [left; page_lia|by right].
Qed.

Lemma NoDup_pages p0 n : NoDup (pages p0 n).
Proof. unfold pages. apply NoDup_fmap_2; [intros x y; page_lia|apply NoDup_seq]. Qed.

Lemma elem_range_pages a b v :
  0 <= a -> a <= b -> b <= KERNBASE + PHYSTOP -> b mod PGSIZE = 0 ->
  v ∈ range_pages a b <-> v mod PGSIZE = 0 /\ a <= v /\ v + PGSIZE <= b.
Proof.
  intros Ha Hab Hb Hm. unfold range_pages. rewrite PGROUNDUP_spec by page_lia. split.
  - intros H. apply elem_pages in H as (k & -> & Hk). page_lia.
  - intros (Hv & Hav & Hvb). unfold pages. apply list_elem_of_fmap.
    exists (Z.to_nat ((v - (a + PGSIZE - 1) / PGSIZE * PGSIZE) / PGSIZE)).
    split; [page_lia|]. apply elem_of_seq. page_lia.
Qed.

(** The pages that are free after [boot]. *)
Definition pool (end_ : Z) : list Z :=
  reverse (range_pages (P2V (4 * 1024 * 1024)) (P2V PHYSTOP)) ++
  reverse (range_pages end_ (P2V (4 * 1024 * 1024))).

Definition kernel_end_ok (end_ : Z) : Prop := KERNBASE <= end_ <= KERNBASE + 4 * 1024 * 1024.

(** A whole page of physical memory above the kernel. *)
Definition usable (end_ v : Z) : Prop :=
  v mod PGSIZE = 0 /\ end_ <= v /\ v + PGSIZE <= KERNBASE + PHYSTOP.

Lemma P2V_4M : P2V (4 * 1024 * 1024) = KERNBASE + 4 * 1024 * 1024.
Proof. done. Qed.
Lemma P2V_PHYSTOP : P2V PHYSTOP = KERNBASE + PHYSTOP.
Proof. done. Qed.

Lemma elem_pool end_ v : kernel_end_ok end_ -> v ∈ pool end_ <-> usable end_ v.
Proof.
  intros He. unfold pool, kernel_end_ok, usable in *. rewrite P2V_4M, P2V_PHYSTOP.
  rewrite elem_of_app, !elem_of_reverse, !elem_range_pages by (done || page_lia).
  page_lia.
Qed.

Lemma NoDup_pool end_ : kernel_end_ok end_ -> NoDup (pool end_).
Proof.
  intros He. unfold pool. rewrite P2V_4M, P2V_PHYSTOP.
  apply NoDup_app. unfold kernel_end_ok in He.
  split; [rewrite reverse_Permutation; apply NoDup_pages|].
  split; [|rewrite reverse_Permutation; apply NoDup_pages].
  intros v. rewrite !elem_of_reverse, !elem_range_pages by (done || page_lia). page_lia.
Qed.

Lemma boot_spec end_ m :
  kernel_end_ok end_ -> exists s, boot end_ m = Ok s /\ listed end_ s (pool end_) /\ use_lock (km s) = 1.
Proof.
  intros He. unfold boot, kinit1, kinit2, pool. rewrite P2V_4M, P2V_PHYSTOP.
  unfold kernel_end_ok in He. cbn [bytes km freelist].
  destruct (freerange_spec end_ (KState m (Kmem 0 0)) end_ (KERNBASE + 4 * 1024 * 1024) [])
    as (s1 & H1 & Hl1 & _); try page_lia; try done.
  { split; [constructor|by constructor]. }
  { intros v Hv. by apply elem_of_nil in Hv. }
  rewrite H1. run. rewrite app_nil_r in Hl1.
  destruct (freerange_spec end_ s1 (KERNBASE + 4 * 1024 * 1024) (KERNBASE + PHYSTOP) _ Hl1)
    as (s2 & H2 & Hl2 & _); try page_lia; try done.
  { intros v Hv. rewrite elem_of_reverse, elem_range_pages in Hv by (done || page_lia). left. page_lia. }
  rewrite H2. run. eexists; split; [reflexivity|]. done.
Qed.

(** ** Clients *)

(** The pages are split between the free list and the client. *)
Definition shared_out (end_ : Z) (s : kstate) (held free : list Z) : Prop :=
  listed end_ s free /\ free ++ held ≡ₚ pool end_.

Lemma usable_good end_ v : kernel_end_ok end_ -> usable end_ v -> good_page end_ v.
Proof. intros He (?&?&?). unfold kernel_end_ok, good_page in *. page_lia. Qed.

Lemma shared_out_NoDup end_ s held free :
  kernel_end_ok end_ -> shared_out end_ s held free -> NoDup (free ++ held).
Proof. intros He [_ Hp]. rewrite Hp. by apply NoDup_pool. Qed.

Lemma held_good end_ s held free v :
  kernel_end_ok end_ -> shared_out end_ s held free -> v ∈ held -> good_page end_ v /\ v ∉ free.
Proof.
  intros He Hs Hv. pose proof (shared_out_NoDup _ _ _ _ He Hs) as Hnd. destruct Hs as [_ Hp]. split.
  - apply usable_good; [done|]. apply elem_pool; [done|]. rewrite <- Hp, elem_of_app. by right.
  - apply NoDup_app in Hnd as (_ & Hd & _). intros H. by apply (Hd v).
Qed.

Lemma client_step_spec end_ s held free o :
  kernel_end_ok end_ -> shared_out end_ s held free ->
  exists s' held' free', client_step end_ (s, held) o = Ok (s', held') /\
    shared_out end_ s' held' free' /\
    forall v x, v ∈ held -> v ∈ held' -> v <= x < v + PGSIZE ->
      (forall i off c, o = Store i off c -> held !! i <> Some v) -> bytes s' x = bytes s x.
Proof.
  intros He Hs. pose proof Hs as [Hl Hp]. destruct o as [|i|i off c]; cbn [client_step].
  - pose proof (kalloc_spec _ _ _ Hl) as Hk. destruct free as [|v free].
    + rewrite Hk. cbn. by exists s, held, [].
    + destruct Hk as (s' & -> & Hl' & Hb). apply proj2 in Hl as Hg. apply Forall_cons in Hg as [Hg _].
      rewrite (proj2 (Z.eqb_neq _ _)) by (by eapply good_page_ok).
      exists s', (v :: held), free. split; [done|]. split; [|intros; by rewrite Hb].
      split; [done|]. rewrite <- Hp. by rewrite <- Permutation_middle.
  - destruct (held !! i) as [v|] eqn:Hi; [|by exists s, held, free].
    destruct (held_good _ _ _ _ v He Hs) as [Hg Hn]; [by eapply list_elem_of_lookup_2|].
    destruct (kfree_spec _ _ _ _ Hl Hg Hn) as (s' & -> & Hl' & _ & Hb). run.
    exists s', (delete i held), (v :: free). split; [done|]. split.
    + split; [done|]. rewrite <- Hp. cbn [app]. rewrite Permutation_middle. f_equiv.
      symmetry. by apply delete_Permutation.
    + intros w x Hw Hw' Hx _. apply Hb.
      assert (w <> v).
      { intros ->. pose proof (shared_out_NoDup _ _ _ _ He Hs) as Hnd.
        apply NoDup_app in Hnd as (_ & _ & Hnd). rewrite (delete_Permutation _ _ _ Hi) in Hnd.
        apply NoDup_cons in Hnd as [? _]. done. }
      destruct (held_good _ _ _ _ w He Hs Hw) as [[? _] _]. destruct Hg as [? _]. page_lia.
  - destruct (held !! i) as [v|] eqn:Hi; [|by exists s, held, free].
    destruct ((0 <=? off) && (off <? PGSIZE)) eqn:E; [|by exists s, held, free]. zbool.
    destruct (held_good _ _ _ _ v He Hs) as [Hg Hn]; [by eapply list_elem_of_lookup_2|].
    eexists _, held, free. split; [reflexivity|]. split.
    + split; [|done]. split; [|apply Hl]. cbn [bytes km]. destruct Hl as [Hc Hgf].
      eapply (chain_ext _ _ v); [exact Hc| |done|].
      * constructor; [apply Hg|by eapply good_aligned].
      * intros x Hx. unfold store8. by rewrite (proj2 (Z.eqb_neq _ _)) by lia.
    + intros w x Hw _ Hx Hno. cbn [bytes]. unfold store8.
      specialize (Hno i off c eq_refl).
      assert (w <> v) by congruence.
      destruct (held_good _ _ _ _ w He Hs Hw) as [[? _] _]. destruct Hg as [? _].
      rewrite (proj2 (Z.eqb_neq _ _)); [done|page_lia].
Qed.

Lemma client_run_spec end_ os : forall s held free,
  kernel_end_ok end_ -> shared_out end_ s held free ->
  exists s' held' free', client_run end_ (s, held) os = Ok (s', held') /\
    shared_out end_ s' held' free'.
Proof.
  induction os as [|o os IH]; intros s held free He Hs; cbn [client_run].
  - by exists s, held, free.
  - destruct (client_step_spec end_ s held free o He Hs) as (s1 & h1 & f1 & -> & Hs1 & _). run.
    by eapply IH.
Qed.

(** ** Theorems *)

(** C30: after [boot] every whole page between the end of the kernel and
    [PHYSTOP] is free, once; and whatever a client does with the pages it
    holds, no call panics, the free and the held pages together are always
    exactly those pages without repetition, [kalloc] answers 0 only when none
    is free, and a further operation changes the bytes of a page the client
    keeps only when it is a store to that page. *)
Theorem kalloc_pool end_ m os :
  kernel_end_ok end_ ->
  exists s0 s held free,
    boot end_ m = Ok s0 /\ client_run end_ (s0, []) os = Ok (s, held) /\
    NoDup (free ++ held) /\ (forall v, v ∈ free ++ held <-> usable end_ v) /\
    chain (bytes s) (freelist (km s)) free /\
    ((kalloc s).1 = 0 <-> free = []) /\
    (forall o, exists s' held', client_step end_ (s, held) o = Ok (s', held') /\
       forall v x, v ∈ held -> v ∈ held' -> v <= x < v + PGSIZE ->
         (forall i off c, o = Store i off c -> held !! i <> Some v) -> bytes s' x = bytes s x).
Proof.
  intros He. destruct (boot_spec end_ m He) as (s0 & H0 & Hl0 & _).
  destruct (client_run_spec end_ os s0 [] (pool end_) He) as (s & held & free & Hr & Hs).
  { split; [done|by rewrite app_nil_r]. }
  exists s0, s, held, free. split; [done|]. split; [done|].
  split; [by eapply shared_out_NoDup|].
  split; [intros v; rewrite <- elem_pool by done; by rewrite (proj2 Hs)|].
  split; [apply Hs|]. split.
  2: { intros o. destruct (client_step_spec end_ s held free o He Hs) as (s3 & h3 & f3 & H3 & _ & Hb).
       by exists s3, h3. }
  destruct Hs as [Hl Hp].
  pose proof (kalloc_spec _ _ _ Hl) as Hk. destruct free as [|v free]; [by rewrite Hk|].
  destruct Hk as (s' & -> & _). destruct Hl as [_ Hg]. apply Forall_cons in Hg as [Hg _].
  cbn [fst]. apply good_page_ok in Hg as [? _]. naive_solver.
Qed.

Definition end0 : Z := KERNBASE + 1100000.

Lemma kalloc_pool_witness :
  exists s0 s held free,
    boot end0 (fun _ => 0) = Ok s0 /\
    client_run end0 (s0, []) [Alloc; Alloc; Store 0 5 77; Free 1] = Ok (s, held) /\
    NoDup (free ++ held) /\ (forall v, v ∈ free ++ held <-> usable end0 v) /\
    chain (bytes s) (freelist (km s)) free /\ ((kalloc s).1 = 0 <-> free = []) /\
    (forall o, exists s' held', client_step end0 (s, held) o = Ok (s', held') /\
       forall v x, v ∈ held -> v ∈ held' -> v <= x < v + PGSIZE ->
         (forall i off c, o = Store i off c -> held !! i <> Some v) -> bytes s' x = bytes s x).
Proof. apply kalloc_pool. unfold kernel_end_ok, end0. lia. Defined.
