(* ===== verification/Xv6Locks.v ===== *)
(** The locks of the xv6 kernel (src/설계 3번/xv6/spinlock.c, sleeplock.c).

    Spin locks: [pushcli], [popcli] and [holding] on the state of a CPU, and
    [acquire] and [release] cut at their accesses to shared memory, so that any
    number of CPUs contend for a lock in every interleaving ([lock_step]).
    Shown: at most one CPU is inside, with its interrupts off, no panic is
    reachable, and a CPU that is outside has its interrupts as before.

    Sleep locks are given for one process at a time, as the buffer cache and
    the file system use them: a lock that is taken blocks the caller. *)

From S2P Require Import Prelude.

(** ** The CPU *)

Definition FL_IF : Z := 512.

(** [eflags] is the register; [ncli] and [intena] are fields of [struct cpu]. *)
Record cpu := Cpu { eflags : Z; ncli : Z; intena : Z }.

Definition cli (c : cpu) : cpu := Cpu (Z.land (eflags c) (Z.lnot FL_IF)) (ncli c) (intena c).
Definition sti (c : cpu) : cpu := Cpu (Z.lor (eflags c) FL_IF) (ncli c) (intena c).

Definition pushcli (c : cpu) : res cpu :=
  let e := eflags c in
  let c := cli c in
  let c := if ncli c =? 0 then Cpu (eflags c) (ncli c) (Z.land e FL_IF) else c in
  n ← c_int (ncli c + 1);
  Ok (Cpu (eflags c) n (intena c)).

Definition popcli (c : cpu) : res cpu :=
  if negb (Z.land (eflags c) FL_IF =? 0) then Stuck Panicked
  else
    n ← c_int (ncli c - 1);
    let c := Cpu (eflags c) n (intena c) in
    if ncli c <? 0 then Stuck Panicked
    else Ok (if (ncli c =? 0) && negb (intena c =? 0) then sti c else c).

(** ** Spin locks *)

(** [cpu_]: the CPU that holds the lock. *)
Record spinlock := Spinlock { slocked : Z; scpu : option nat }.

Definition initlock : spinlock := Spinlock 0 None.

(** [holding], cut between its reads of [lock->locked] and [lock->cpu]. *)
Definition holding_locked (lk : spinlock) (c : cpu) : res (bool * cpu) :=
  c ← pushcli c; Ok (negb (slocked lk =? 0), c).

Definition holding_cpu (me : nat) (l : bool) (lk : spinlock) (c : cpu) : res (bool * cpu) :=
  let r := l && bool_decide (scpu lk = Some me) in
  c ← popcli c;
  Ok (r, c).

Definition holding (me : nat) (lk : spinlock) (c : cpu) : res (bool * cpu) :=
  '(l, c) ← holding_locked lk c; holding_cpu me l lk c.

(** [acquire] up to the first read of [holding], and on to its loop. *)
Definition acquire_enter (lk : spinlock) (c : cpu) : res (bool * cpu) :=
  c ← pushcli c; holding_locked lk c.

Definition acquire_check (me : nat) (l : bool) (lk : spinlock) (c : cpu) : res cpu :=
  '(h, c) ← holding_cpu me l lk c;
  if (h : bool) then Stuck Panicked else Ok c.

(** One [xchg(&lk->locked, 1)]: the old value and the new lock. *)
Definition xchg (lk : spinlock) : Z * spinlock := (slocked lk, Spinlock 1 (scpu lk)).

(** [lk->cpu = mycpu()]. *)
Definition acquire_own (me : nat) (lk : spinlock) : spinlock := Spinlock (slocked lk) (Some me).

(** [release] up to the barrier.  The CPU holds the lock, so no other writes the
    fields that [holding] reads here. *)
Definition release_enter (me : nat) (lk : spinlock) (c : cpu) : res (spinlock * cpu) :=
  '(h, c) ← holding me lk c;
  if negb h then Stuck Panicked else Ok (Spinlock (slocked lk) None, c).

(** The store of 0 and [popcli]. *)
Definition release_leave (lk : spinlock) (c : cpu) : res (spinlock * cpu) :=
  c ← popcli c; Ok (Spinlock 0 (scpu lk), c).

(** Where a CPU is. *)
Inductive place := Outside | Checking (l : bool) | Spinning | Won | Inside | Leaving.

#[global] Instance place_eq_dec : EqDecision place.
Proof. solve_decision. Defined.

Record machine := Machine { the_lock : spinlock; cpus : list (place * cpu) }.

Inductive lock_step : machine -> machine -> Prop :=
| step_enter m i c l c' :
    cpus m !! i = Some (Outside, c) -> acquire_enter (the_lock m) c = Ok (l, c') ->
    lock_step m (Machine (the_lock m) (<[i := (Checking l, c')]> (cpus m)))
| step_check m i l c c' :
    cpus m !! i = Some (Checking l, c) -> acquire_check i l (the_lock m) c = Ok c' ->
    lock_step m (Machine (the_lock m) (<[i := (Spinning, c')]> (cpus m)))
| step_xchg m i c old lk :
    cpus m !! i = Some (Spinning, c) -> xchg (the_lock m) = (old, lk) ->
    lock_step m (Machine lk (<[i := (if old =? 0 then Won else Spinning, c)]> (cpus m)))
| step_own m i c :
    cpus m !! i = Some (Won, c) ->
    lock_step m (Machine (acquire_own i (the_lock m)) (<[i := (Inside, c)]> (cpus m)))
| step_release m i c lk c' :
    cpus m !! i = Some (Inside, c) -> release_enter i (the_lock m) c = Ok (lk, c') ->
    lock_step m (Machine lk (<[i := (Leaving, c')]> (cpus m)))
| step_leave m i c lk c' :
    cpus m !! i = Some (Leaving, c) -> release_leave (the_lock m) c = Ok (lk, c') ->
    lock_step m (Machine lk (<[i := (Outside, c')]> (cpus m))).

(** CPUs start outside, with interrupts on or off and no lock held. *)
Definition fresh_cpu (on : bool) : cpu := Cpu (if on then FL_IF else 0) 0 0.
Definition lock_start (ons : list bool) : machine :=
  Machine initlock ((fun on => (Outside, fresh_cpu on)) <$> ons).

(** The action of a CPU at its place succeeds: it neither panics nor
    overflows. *)
Definition can_go (m : machine) (i : nat) (p : place) (c : cpu) : Prop :=
  match p with
  | Outside => exists r, acquire_enter (the_lock m) c = Ok r
  | Checking l => exists c', acquire_check i l (the_lock m) c = Ok c'
  | Inside => exists r, release_enter i (the_lock m) c = Ok r
  | Leaving => exists r, release_leave (the_lock m) c = Ok r
  | Spinning | Won => True
  end.

(** ** Sleep locks *)

Record sleeplock := Sleeplock { locked : Z; lpid : Z }.

Definition initsleeplock : sleeplock := Sleeplock 0 0.

Section sleep.
(** The pid of the running process. *)
Variable me : Z.

Definition acquiresleep (lk : sleeplock) : res sleeplock :=
  if negb (locked lk =? 0) then Stuck Blocked else Ok (Sleeplock 1 me).

Definition releasesleep (lk : sleeplock) : sleeplock := Sleeplock 0 0.

Definition holdingsleep (lk : sleeplock) : bool := negb (locked lk =? 0) && (lpid lk =? me).
End sleep.

(** ** Proofs *)

(** The state of a CPU whose interrupts were [on] before its first
    [pushcli]. *)
Definition cpu_is (on : bool) (depth : Z) (c : cpu) : Prop :=
  ncli c = depth /\
  (depth = 0 -> eflags c = if on then FL_IF else 0) /\
  (depth <> 0 -> eflags c = 0 /\ intena c = if on then FL_IF else 0).

Lemma pushcli_spec on depth c :
  cpu_is on depth c -> 0 <= depth < 100 -> exists c', pushcli c = Ok c' /\ cpu_is on (depth + 1) c'.
Proof.
  intros (Hn & H0 & H1) Hd. unfold pushcli, cli. cbn [ncli eflags intena]. rewrite Hn.
  destruct (Z.eqb_spec depth 0) as [E|E]; cbn [ncli eflags intena]; rewrite ?Hn, c_int_Ok by lia; run;
    (eexists; split; [reflexivity|]).
  - rewrite (H0 E). split; [done|]. split; [lia|]. intros _. by destruct on.
  - destruct (H1 E) as [-> Hi]. split; [done|]. split; [lia|]. intros _. done.
Qed.

Lemma popcli_spec on depth c :
  cpu_is on depth c -> 0 < depth < 100 -> exists c', popcli c = Ok c' /\ cpu_is on (depth - 1) c'.
Proof.
  intros (Hn & H0 & H1) Hd. unfold popcli. destruct (H1 ltac:(lia)) as [He Hi].
  rewrite He, Hn. cbn [Z.land Z.eqb negb]. rewrite c_int_Ok by lia. run. cbn [ncli eflags intena].
  rewrite (proj2 (Z.ltb_ge _ _)) by lia. rewrite Hi.
  destruct (Z.eqb_spec (depth - 1) 0) as [E|E].
  - destruct on; cbn [FL_IF Z.eqb negb andb]; (eexists; split; [reflexivity|]); (split; [done|]);
      (split; [done|lia]).
  - cbn [andb]. eexists; split; [reflexivity|]. split; [done|]. split; [lia|done].
Qed.

(** [pushcli] and [popcli] cancel. *)
Lemma holding_spec me lk on depth c :
  cpu_is on depth c -> 0 <= depth < 99 ->
  exists c', holding me lk c = Ok (negb (slocked lk =? 0) && bool_decide (scpu lk = Some me), c') /\
    cpu_is on depth c'.
Proof.
  intros Hc Hd. unfold holding, holding_locked, holding_cpu.
  destruct (pushcli_spec on depth c Hc) as (c1 & -> & Hc1); [lia|]. run.
  destruct (popcli_spec on (depth + 1) c1 Hc1) as (c2 & -> & Hc2); [lia|]. run.
  exists c2. split; [done|]. by replace (depth + 1 - 1) with depth in Hc2 by lia.
Qed.

Definition inside_place (p : place) : bool :=
  match p with Won | Inside | Leaving => true | _ => false end.

Definition depth_at (p : place) : Z := match p with Outside => 0 | Checking _ => 2 | _ => 1 end.

(** The invariant: [ons] are the interrupt flags at the start. *)
Record lock_inv (ons : list bool) (m : machine) : Prop := LockInv {
  v_len : length (cpus m) = length ons;
  v_cpu : forall i p c on, cpus m !! i = Some (p, c) -> ons !! i = Some on -> cpu_is on (depth_at p) c;
  v_one : forall i j p q c e, cpus m !! i = Some (p, c) -> cpus m !! j = Some (q, e) ->
            inside_place p = true -> inside_place q = true -> i = j;
  v_free : slocked (the_lock m) = 0 -> forall i p c, cpus m !! i = Some (p, c) -> inside_place p = false;
  v_held : slocked (the_lock m) <> 0 -> exists i p c, cpus m !! i = Some (p, c) /\ inside_place p = true;
  v_owner : forall i, scpu (the_lock m) = Some i <-> exists c, cpus m !! i = Some (Inside, c)
}.

Lemma lock_start_inv ons : lock_inv ons (lock_start ons).
Proof.
  assert (H : forall i p c, cpus (lock_start ons) !! i = Some (p, c) ->
            p = Outside /\ exists on, ons !! i = Some on /\ c = fresh_cpu on).
  { intros i p c Hi. unfold lock_start in Hi. cbn [cpus] in Hi. rewrite list_lookup_fmap in Hi.
    apply fmap_Some in Hi as (on & Hon & E). simplify_eq. split; [done|]. by exists on. }
  constructor.
  - apply length_fmap.
  - intros i p c on Hi Hon. apply H in Hi as (-> & on' & Hon' & ->). simplify_eq.
    split; [done|]. split; [done|]. intros Hd. done.
  - intros i j p q c e Hi _ Hp. by apply H in Hi as (-> & _).
  - intros _ i p c Hi. by apply H in Hi as (-> & _).
  - done.
  - intros i. split; [done|]. intros [c Hi]. by apply H in Hi as (? & _).
Qed.

(** Moving CPU [i] to a new place. *)
Lemma lookup_moved m i p c j q e lk :
  (i < length (cpus m))%nat ->
  cpus (Machine lk (<[i := (p, c)]> (cpus m))) !! j = Some (q, e) <->
  (j = i /\ q = p /\ e = c) \/ (j <> i /\ cpus m !! j = Some (q, e)).
Proof.
  intros Hi. cbn [cpus]. destruct (decide (j = i)) as [->|Hne].
  - rewrite list_lookup_insert_eq by done. naive_solver.
  - rewrite list_lookup_insert_ne by done. naive_solver.
Qed.

(** The progress of a CPU, given what it needs of the lock. *)
Lemma lock_inv_move ons m i p0 c0 p c on lk :
  lock_inv ons m -> cpus m !! i = Some (p0, c0) -> ons !! i = Some on -> cpu_is on (depth_at p) c ->
  (inside_place p = true -> forall j q e, j <> i -> cpus m !! j = Some (q, e) -> inside_place q = false) ->
  (slocked lk = 0 -> inside_place p = false /\
     forall j q e, j <> i -> cpus m !! j = Some (q, e) -> inside_place q = false) ->
  (slocked lk <> 0 -> inside_place p = true \/
     exists j q e, j <> i /\ cpus m !! j = Some (q, e) /\ inside_place q = true) ->
  (forall j, scpu lk = Some j <-> (j = i /\ p = Inside) \/ (j <> i /\ exists e, cpus m !! j = Some (Inside, e))) ->
  lock_inv ons (Machine lk (<[i := (p, c)]> (cpus m))).
Proof.
  intros [Hlen Hcpu Hone Hfree Hheld Hown] Hi Hon Hc Hexcl H0 H1 Ho.
  assert (Hlt : (i < length (cpus m))%nat) by (by eapply lookup_lt_Some).
  pose proof (fun j q e => lookup_moved m i p c j q e lk Hlt) as Hmv.
  constructor.
  - cbn [cpus]. by rewrite length_insert.
  - intros j q e on' Hj Hon'. apply Hmv in Hj as [(-> & -> & ->)|[Hne Hj]]; [by simplify_eq|by eapply Hcpu].
  - intros j k q r e f Hj Hk Hq Hr.
    apply Hmv in Hj as [(-> & -> & ->)|[Hnj Hj]], Hk as [(-> & -> & ->)|[Hnk Hk]].
    + done.
    + rewrite (Hexcl Hq k r f Hnk Hk) in Hr. done.
    + rewrite (Hexcl Hr j q e Hnj Hj) in Hq. done.
    + by eapply Hone.
  - cbn [the_lock]. intros Hz j q e Hj. destruct (H0 Hz) as [Hp Hq].
    apply Hmv in Hj as [(-> & -> & ->)|[Hne Hj]]; [done|by eapply Hq].
  - cbn [the_lock]. intros Hz. destruct (H1 Hz) as [Hp|(j & q & e & Hne & Hj & Hq)].
    + exists i, p, c. split; [|done]. apply Hmv. by left.
    + exists j, q, e. split; [|done]. apply Hmv. by right.
  - cbn [the_lock]. intros j. rewrite Ho. split.
    + intros [[-> ->]|[Hne [e He]]]; eexists; apply Hmv; [by left|by right].
    + intros [e He]. apply Hmv in He as [(-> & <- & _)|[Hne He]]; [by left|right; by eauto].
Qed.

Lemma others_out ons m i p c :
  lock_inv ons m -> cpus m !! i = Some (p, c) -> inside_place p = true ->
  forall j q e, j <> i -> cpus m !! j = Some (q, e) -> inside_place q = false.
Proof.
  intros Hv Hi Hp j q e Hne Hj. destruct (inside_place q) eqn:E; [|done].
  exfalso. apply Hne. by eapply (v_one _ _ Hv).
Qed.

Lemma acquire_enter_spec ons m i c on :
  lock_inv ons m -> cpus m !! i = Some (Outside, c) -> ons !! i = Some on ->
  exists l c', acquire_enter (the_lock m) c = Ok (l, c') /\ cpu_is on 2 c'.
Proof.
  intros Hv Hi Hon. pose proof (v_cpu _ _ Hv _ _ _ _ Hi Hon) as Hc. unfold acquire_enter, holding_locked.
  destruct (pushcli_spec on 0 c Hc) as (c1 & -> & Hc1); [lia|]. run.
  destruct (pushcli_spec on 1 c1 Hc1) as (c2 & -> & Hc2); [lia|]. run. by eexists _, c2.
Qed.

Lemma acquire_check_spec ons m i l c on :
  lock_inv ons m -> cpus m !! i = Some (Checking l, c) -> ons !! i = Some on ->
  exists c', acquire_check i l (the_lock m) c = Ok c' /\ cpu_is on 1 c'.
Proof.
  intros Hv Hi Hon. pose proof (v_cpu _ _ Hv _ _ _ _ Hi Hon) as Hc. unfold acquire_check, holding_cpu.
  destruct (popcli_spec on 2 c Hc) as (c1 & -> & Hc1); [lia|]. run.
  rewrite (bool_decide_eq_false_2 (scpu _ = Some i)), andb_false_r; [by exists c1|].
  intros Ho. apply (v_owner _ _ Hv) in Ho as [e He]. by simplify_eq.
Qed.

Lemma release_enter_spec ons m i c on :
  lock_inv ons m -> cpus m !! i = Some (Inside, c) -> ons !! i = Some on ->
  exists c', release_enter i (the_lock m) c = Ok (Spinlock (slocked (the_lock m)) None, c') /\ cpu_is on 1 c'.
Proof.
  intros Hv Hi Hon. pose proof (v_cpu _ _ Hv _ _ _ _ Hi Hon) as Hc. unfold release_enter.
  destruct (holding_spec i (the_lock m) on 1 c Hc) as (c2 & -> & Hc2); [lia|]. run.
  rewrite bool_decide_eq_true_2 by (apply (v_owner _ _ Hv); by eexists).
  destruct (Z.eqb_spec (slocked (the_lock m)) 0) as [E|E].
  - by pose proof (v_free _ _ Hv E _ _ _ Hi).
  - by exists c2.
Qed.

Lemma release_leave_spec ons m i c on :
  lock_inv ons m -> cpus m !! i = Some (Leaving, c) -> ons !! i = Some on ->
  exists c', release_leave (the_lock m) c = Ok (Spinlock 0 (scpu (the_lock m)), c') /\ cpu_is on 0 c'.
Proof.
  intros Hv Hi Hon. pose proof (v_cpu _ _ Hv _ _ _ _ Hi Hon) as Hc. unfold release_leave.
  destruct (popcli_spec on 1 c Hc) as (c2 & -> & Hc2); [lia|]. run. by exists c2.
Qed.

Lemma started ons m i p c : lock_inv ons m -> cpus m !! i = Some (p, c) -> exists on, ons !! i = Some on.
Proof. intros Hv Hi. apply lookup_lt_is_Some. rewrite <- (v_len _ _ Hv). by eapply lookup_lt_Some. Qed.

Lemma owner_elsewhere ons m i p0 c p :
  lock_inv ons m -> cpus m !! i = Some (p0, c) -> p0 <> Inside -> p <> Inside ->
  forall j, scpu (the_lock m) = Some j <->
    (j = i /\ p = Inside) \/ (j <> i /\ exists e, cpus m !! j = Some (Inside, e)).
Proof.
  intros Hv Hi Hp0 Hp j. rewrite (v_owner _ _ Hv). split.
  - intros [e He]. right. split; [intros ->; by simplify_eq|by eexists].
  - intros [[_ ?]|[_ ?]]; done.
Qed.

Lemma held_elsewhere ons m i p0 c :
  lock_inv ons m -> cpus m !! i = Some (p0, c) -> inside_place p0 = false -> slocked (the_lock m) <> 0 ->
  exists j q e, j <> i /\ cpus m !! j = Some (q, e) /\ inside_place q = true.
Proof.
  intros Hv Hi Hp Hz. destruct (v_held _ _ Hv Hz) as (j & q & e & Hj & Hq).
  exists j, q, e. split; [|done]. intros ->. simplify_eq. congruence.
Qed.

Lemma lock_step_inv ons m m' : lock_step m m' -> lock_inv ons m -> lock_inv ons m'.
Proof.
  intros Hs Hv. destruct Hs as [m i c l c' Hi He|m i l c c' Hi He|m i c old lk Hi Hx|m i c Hi|m i c lk c' Hi He|m i c lk c' Hi He];
    destruct (started _ _ _ _ _ Hv Hi) as [on Hon].
  - destruct (acquire_enter_spec _ _ _ _ _ Hv Hi Hon) as (l1 & c1 & H1 & Hc1). rewrite He in H1. simplify_eq.
    apply (lock_inv_move ons m i Outside c _ _ on); try done.
    + intros Hz. split; [done|]. intros j q e _. by apply (v_free _ _ Hv).
    + intros Hz. right. by eapply held_elsewhere.
    + by eapply owner_elsewhere.
  - destruct (acquire_check_spec _ _ _ _ _ _ Hv Hi Hon) as (c1 & H1 & Hc1). rewrite He in H1. simplify_eq.
    apply (lock_inv_move ons m i (Checking l) c _ _ on); try done.
    + intros Hz. split; [done|]. intros j q e _. by apply (v_free _ _ Hv).
    + intros Hz. right. by eapply held_elsewhere.
    + by eapply owner_elsewhere.
  - unfold xchg in Hx. simplify_eq. pose proof (v_cpu _ _ Hv _ _ _ _ Hi Hon) as Hc.
    destruct (Z.eqb_spec (slocked (the_lock m)) 0) as [E|E];
      apply (lock_inv_move ons m i Spinning c _ _ on); try done.
    + intros _ j q e _. by apply (v_free _ _ Hv).
    + intros _. by left.
    + cbn [scpu]. by eapply owner_elsewhere.
    + intros _. right. by eapply held_elsewhere.
    + cbn [scpu]. by eapply owner_elsewhere.
  - pose proof (others_out _ _ _ _ _ Hv Hi eq_refl) as Hout.
    apply (lock_inv_move ons m i Won c _ _ on); try done.
    + by apply (v_cpu _ _ Hv i Won).
    + cbn [acquire_own slocked]. intros Hz. by pose proof (v_free _ _ Hv Hz _ _ _ Hi).
    + intros _. by left.
    + intros j. cbn [acquire_own scpu]. split; [intros [= ->]; by left|].
      intros [[-> _]|[Hne [e He]]]; [done|]. by pose proof (Hout j _ _ Hne He).
  - destruct (release_enter_spec _ _ _ _ _ Hv Hi Hon) as (c1 & H1 & Hc1). rewrite He in H1. simplify_eq.
    pose proof (others_out _ _ _ _ _ Hv Hi eq_refl) as Hout.
    apply (lock_inv_move ons m i Inside c _ _ on); try done.
    + cbn [slocked]. intros Hz. by pose proof (v_free _ _ Hv Hz _ _ _ Hi).
    + intros _. by left.
    + intros j. cbn [scpu]. split; [done|]. intros [[_ ?]|[Hne [e He']]]; [done|].
      by pose proof (Hout j _ _ Hne He').
  - destruct (release_leave_spec _ _ _ _ _ Hv Hi Hon) as (c1 & H1 & Hc1). rewrite He in H1. simplify_eq.
    pose proof (others_out _ _ _ _ _ Hv Hi eq_refl) as Hout.
    apply (lock_inv_move ons m i Leaving c _ _ on); try done.
    cbn [scpu]. by eapply owner_elsewhere.
Qed.

Lemma lock_reachable_inv ons m : rtc lock_step (lock_start ons) m -> lock_inv ons m.
Proof.
  intros H. pose proof (lock_start_inv ons) as H0. revert H0.
  induction H as [|? ? ? Hs _ IH]; [done|]. intros H0. by eapply IH, lock_step_inv.
Qed.

(** C32: with any number of CPUs contending for a spin lock in any
    interleaving, at most one is between winning [xchg] and giving the lock
    back; no CPU can panic in [acquire] or [release]; interrupts are off from
    [acquire] to [release] and as before outside. *)
Theorem spinlock_mutual_exclusion ons m :
  rtc lock_step (lock_start ons) m ->
  (forall i j p q c e, cpus m !! i = Some (p, c) -> cpus m !! j = Some (q, e) ->
     inside_place p = true -> inside_place q = true -> i = j) /\
  (forall i p c, cpus m !! i = Some (p, c) ->
     can_go m i p c /\
     exists on, ons !! i = Some on /\
       eflags c = if decide (p = Outside) then (if on : bool then FL_IF else 0) else 0).
Proof.
  intros H. apply lock_reachable_inv in H as Hv. split; [apply Hv|].
  intros i p c Hi. destruct (started _ _ _ _ _ Hv Hi) as [on Hon]. split.
  - destruct p; cbn [can_go]; try done.
    + destruct (acquire_enter_spec _ _ _ _ _ Hv Hi Hon) as (l1 & c1 & H1 & _). by eexists.
    + destruct (acquire_check_spec _ _ _ _ _ _ Hv Hi Hon) as (c1 & H1 & _). by exists c1.
    + destruct (release_enter_spec _ _ _ _ _ Hv Hi Hon) as (c1 & H1 & _). by eexists.
    + destruct (release_leave_spec _ _ _ _ _ Hv Hi Hon) as (c1 & H1 & _). by eexists.
  - exists on. split; [done|]. destruct (v_cpu _ _ Hv _ _ _ _ Hi Hon) as (_ & H0 & H1).
    destruct p; cbn [depth_at] in *; [rewrite decide_True by done; by apply H0|rewrite decide_False by done; by apply H1..].
Qed.

(** Two CPUs; the first is inside while the second spins. *)
Definition contended : machine :=
  Machine (Spinlock 1 (Some 0%nat)) [(Inside, Cpu 0 1 FL_IF); (Spinning, Cpu 0 1 0)].

Lemma contended_reachable : rtc lock_step (lock_start [true; false]) contended.
Proof.
  eapply rtc_l; [eapply (step_enter _ 0); [reflexivity|vm_compute; reflexivity]|].
  eapply rtc_l; [eapply (step_enter _ 1); [reflexivity|vm_compute; reflexivity]|].
  eapply rtc_l; [eapply (step_check _ 1); [reflexivity|vm_compute; reflexivity]|].
  eapply rtc_l; [eapply (step_check _ 0); [reflexivity|vm_compute; reflexivity]|].
  eapply rtc_l; [eapply (step_xchg _ 0); [reflexivity|vm_compute; reflexivity]|].
  eapply rtc_l; [eapply (step_own _ 0); reflexivity|].
  eapply rtc_l; [eapply (step_xchg _ 1); [reflexivity|vm_compute; reflexivity]|].
  apply rtc_refl.
Qed.

Lemma spinlock_mutual_exclusion_witness :
  rtc lock_step (lock_start [true; false]) contended /\
  forall i j p q c e, cpus contended !! i = Some (p, c) -> cpus contended !! j = Some (q, e) ->
    inside_place p = true -> inside_place q = true -> i = j.
Proof.
  split; [exact contended_reachable|].
  exact (proj1 (spinlock_mutual_exclusion [true; false] contended contended_reachable)).
Defined.
