(* ===== verification/Xv6Bio.v ===== *)
(** The buffer cache of xv6 (src/설계 3번/xv6/bio.c, buf.h) on the memory disk of
    memide.c, with the sleep locks of [Xv6Locks].

    The [NBUF] buffers and the list head are one array, the head last; [prev]
    and [next] are indices into it.  The run is that of one process, [me]: a
    sleep lock that is already taken blocks it for good.  [writes] records the
    blocks written to the disk in order, which is what a crash can cut short.

    The specification is a disk with two overlays: [over], the blocks that are
    dirty and therefore pinned in the cache, and [held], the blocks whose
    buffer is locked.  Shown: the linked list is always a permutation of the
    buffers with the most recently released first, at most one buffer holds a
    block, and [bread], [bwrite], [brelse] act on the specification as
    documented. *)

From S2P Require Import Prelude Bytes Xv6Locks.

Definition BSIZE : Z := 512.
Definition NBUF : nat := 30.
Definition B_VALID : Z := 2.
Definition B_DIRTY : Z := 4.

Record buf := Buf {
  flags : Z;
  dev : Z;
  blockno : Z;
  lock : sleeplock;
  refcnt : Z;
  prev : nat;
  next : nat;
  bdata : list Z
}.

Definition set_flags v b := Buf v (dev b) (blockno b) (lock b) (refcnt b) (prev b) (next b) (bdata b).
Definition set_dev v b := Buf (flags b) v (blockno b) (lock b) (refcnt b) (prev b) (next b) (bdata b).
Definition set_blockno v b := Buf (flags b) (dev b) v (lock b) (refcnt b) (prev b) (next b) (bdata b).
Definition set_lock v b := Buf (flags b) (dev b) (blockno b) v (refcnt b) (prev b) (next b) (bdata b).
Definition set_refcnt v b := Buf (flags b) (dev b) (blockno b) (lock b) v (prev b) (next b) (bdata b).
Definition set_prev v b := Buf (flags b) (dev b) (blockno b) (lock b) (refcnt b) v (next b) (bdata b).
Definition set_next v b := Buf (flags b) (dev b) (blockno b) (lock b) (refcnt b) (prev b) v (bdata b).
Definition set_data v b := Buf (flags b) (dev b) (blockno b) (lock b) (refcnt b) (prev b) (next b) v.

Record bio := Bio {
  bufs : list buf;
  memdisk : list (list Z);
  writes : list (Z * list Z)
}.

Definition head : nat := NBUF.

(** Dereferencing a buffer pointer, and assigning to a field. *)
Definition bat (s : bio) (i : nat) : res buf :=
  match bufs s !! i with Some b => Ok b | None => Stuck OutOfBounds end.

Definition bupd (i : nat) (f : buf -> buf) (s : bio) : res bio :=
  b ← bat s i; Ok (Bio (<[i := f b]> (bufs s)) (memdisk s) (writes s)).

(** ** Initialisation *)

(** Static storage: all zero; a null pointer is an index outside the array. *)
Definition buf0 : buf :=
  Buf 0 0 0 (Sleeplock 0 0) 0 (S NBUF) (S NBUF) (replicate (Z.to_nat BSIZE) 0).

(** The body of the loop of [binit], and the loop over [n] buffers from [b]. *)
Definition binit_one (s : bio) (b : nat) : res bio :=
  h ← bat s head;
  s ← bupd b (set_next (next h)) s;
  s ← bupd b (set_prev head) s;
  s ← bupd b (set_lock initsleeplock) s;
  s ← bupd (next h) (set_prev b) s;
  bupd head (set_next b) s.

Fixpoint binit_loop (n b : nat) (s : bio) : res bio :=
  match n with
  | O => Ok s
  | S n' => s ← binit_one s b; binit_loop n' (S b) s
  end.

Definition binit (s : bio) : res bio :=
  s ← bupd head (set_prev head) s;
  s ← bupd head (set_next head) s;
  binit_loop NBUF 0 s.

Section process.
(** The pid of the running process. *)
Variable me : Z.

(** ** The disk *)

Definition iderw (i : nat) (s : bio) : res bio :=
  b ← bat s i;
  if negb (holdingsleep me (lock b)) then Stuck Panicked
  else if Z.land (flags b) (Z.lor B_VALID B_DIRTY) =? B_VALID then Stuck Panicked
  else if negb (dev b =? 1) then Stuck Panicked
  else if blockno b >=? Z.of_nat (length (memdisk s)) then Stuck Panicked
  else
    if negb (Z.land (flags b) B_DIRTY =? 0) then
      s ← bupd i (set_flags (Z.lor (Z.land (flags b) (Z.lnot B_DIRTY)) B_VALID)) s;
      d ← aset (memdisk s) (blockno b) (bdata b);
      Ok (Bio (bufs s) d (writes s ++ [(blockno b, bdata b)]))
    else
      data ← aget (memdisk s) (blockno b);
      s ← bupd i (set_data data) s;
      bupd i (set_flags (Z.lor (flags b) B_VALID)) s.

(** ** Buffers *)

(** [for(b = head.next; b != &head; b = b->next)] looking for the block. *)
Fixpoint find_cached (fuel : nat) (s : bio) (i : nat) (dv bno : Z) : res (option nat) :=
  match fuel with
  | O => Stuck OutOfFuel
  | S fuel' =>
      if decide (i = head) then Ok None
      else
        b ← bat s i;
        if (dev b =? dv) && (blockno b =? bno) then Ok (Some i)
        else find_cached fuel' s (next b) dv bno
  end.

(** [for(b = head.prev; b != &head; b = b->prev)] looking for a free buffer. *)
Fixpoint find_unused (fuel : nat) (s : bio) (i : nat) : res (option nat) :=
  match fuel with
  | O => Stuck OutOfFuel
  | S fuel' =>
      if decide (i = head) then Ok None
      else
        b ← bat s i;
        if (refcnt b =? 0) && (Z.land (flags b) B_DIRTY =? 0) then Ok (Some i)
        else find_unused fuel' s (prev b)
  end.

Definition bget (s : bio) (dv bno : Z) : res (nat * bio) :=
  h ← bat s head;
  c ← find_cached (S NBUF) s (next h) dv bno;
  match c with
  | Some i =>
      b ← bat s i;
      s ← bupd i (set_refcnt (u32 (refcnt b + 1))) s;
      lk ← acquiresleep me (lock b);
      s ← bupd i (set_lock lk) s;
      Ok (i, s)
  | None =>
      u ← find_unused (S NBUF) s (prev h);
      match u with
      | None => Stuck Panicked
      | Some i =>
          s ← bupd i (set_dev dv) s;
          s ← bupd i (set_blockno bno) s;
          s ← bupd i (set_flags 0) s;
          s ← bupd i (set_refcnt 1) s;
          b ← bat s i;
          lk ← acquiresleep me (lock b);
          s ← bupd i (set_lock lk) s;
          Ok (i, s)
      end
  end.

Definition bread (s : bio) (dv bno : Z) : res (nat * bio) :=
  '(i, s) ← bget s dv bno;
  b ← bat s i;
  if Z.land (flags b) B_VALID =? 0 then s ← iderw i s; Ok (i, s) else Ok (i, s).

Definition bwrite (i : nat) (s : bio) : res bio :=
  b ← bat s i;
  if negb (holdingsleep me (lock b)) then Stuck Panicked
  else
    s ← bupd i (set_flags (Z.lor (flags b) B_DIRTY)) s;
    iderw i s.

(** The pointer assignments of [brelse]. *)
Definition move_front (i : nat) (s : bio) : res bio :=
  b ← bat s i;
  s ← bupd (next b) (set_prev (prev b)) s;
  s ← bupd (prev b) (set_next (next b)) s;
  h ← bat s head;
  s ← bupd i (set_next (next h)) s;
  s ← bupd i (set_prev head) s;
  s ← bupd (next h) (set_prev i) s;
  bupd head (set_next i) s.

Definition brelse (i : nat) (s : bio) : res bio :=
  b ← bat s i;
  if negb (holdingsleep me (lock b)) then Stuck Panicked
  else
    s ← bupd i (set_lock (releasesleep (lock b))) s;
    s ← bupd i (set_refcnt (u32 (refcnt b - 1))) s;
    if u32 (refcnt b - 1) =? 0 then move_front i s
    else Ok s.

End process.

(** ** The linked list *)

Definition nx (s : bio) (i : nat) : nat :=
  match bufs s !! i with Some b => next b | None => i end.
Definition pv (s : bio) (i : nat) : nat :=
  match bufs s !! i with Some b => prev b | None => i end.

(** [l] is the circular list, most recently used first. *)
Record linked (s : bio) (l : list nat) : Prop := Linked {
  k_len : length (bufs s) = S NBUF;
  k_perm : l ≡ₚ seq 0 NBUF;
  k_next : nx s <$> head :: l = l ++ [head];
  k_prev : pv s <$> l ++ [head] = head :: l
}.

(** Function update. *)
Definition fupd (f : nat -> nat) (x v : nat) : nat -> nat :=
  fun y => if decide (y = x) then v else f y.

Lemma fmap_fupd_notin f x v (l : list nat) : x ∉ l -> fupd f x v <$> l = f <$> l.
Proof.
  intros H. apply list_fmap_ext. intros i y Hy. unfold fupd.
  case_decide; [|done]. subst. apply list_elem_of_lookup_2 in Hy. done.
Qed.

Lemma fmap_fupd_split f x v (l1 l2 : list nat) :
  NoDup (l1 ++ x :: l2) -> fupd f x v <$> l1 ++ x :: l2 = (f <$> l1) ++ v :: (f <$> l2).
Proof.
  intros Hnd. apply NoDup_app in Hnd as (_ & Hd & H2). apply NoDup_cons in H2 as [H2 _].
  rewrite fmap_app, fmap_cons, !fmap_fupd_notin; [|done|set_solver].
  do 2 f_equal. unfold fupd. by rewrite decide_True.
Qed.

(** Taking [b] out of the ring and linking its neighbours. *)
Lemma ring_unlink (nxt prv : nat -> nat) h (l1 l2 : list nat) b :
  NoDup (h :: l1 ++ b :: l2) ->
  nxt <$> h :: (l1 ++ b :: l2) = (l1 ++ b :: l2) ++ [h] ->
  prv <$> (l1 ++ b :: l2) ++ [h] = h :: (l1 ++ b :: l2) ->
  fupd nxt (prv b) (nxt b) <$> h :: (l1 ++ l2) = (l1 ++ l2) ++ [h] /\
  fupd prv (nxt b) (prv b) <$> (l1 ++ l2) ++ [h] = h :: (l1 ++ l2).
Proof.
  intros Hnd Hn Hp.
  destruct (exists_last (l := h :: l1)) as (A & p & HA); [done|].
  destruct (l2 ++ [h]) as [|q B] eqn:HB; [by destruct l2|].
  assert (HlA : length (nxt <$> A) = length l1).
  { apply (f_equal length) in HA. rewrite length_app in HA. cbn in HA. rewrite length_fmap. lia. }
  rewrite app_comm_cons, HA, <- app_assoc, fmap_app in Hn. cbn [app] in Hn.
  rewrite <- app_assoc in Hn. cbn [app] in Hn. rewrite HB in Hn.
  apply app_inj_1 in Hn as [HnA Hn]; [|done]. cbn [fmap list_fmap] in Hn.
  injection Hn as Hnp Hnb Hn2.
  rewrite app_comm_cons, HA, <- app_assoc in Hp. cbn [app] in Hp.
  rewrite <- app_assoc, fmap_app in Hp. cbn [app] in Hp. rewrite HB in Hp.
  apply app_inj_1 in Hp as [HpA Hp]; [|rewrite length_fmap; by rewrite <- HlA, length_fmap].
  cbn [fmap list_fmap] in Hp. injection Hp as Hpb Hpq Hp2.
  rewrite Hnb, Hpb. clear Hnb Hpb.
  assert (Hnd1 : NoDup (A ++ p :: l2)).
  { replace (A ++ p :: l2) with (h :: l1 ++ l2)
      by (rewrite app_comm_cons, HA, <- app_assoc; done).
    rewrite app_comm_cons in Hnd |- *. apply NoDup_app in Hnd as (? & ? & [? ?]%NoDup_cons).
    apply NoDup_app. set_solver. }
  assert (Hnd2 : NoDup (l1 ++ q :: B)).
  { rewrite <- HB. rewrite app_assoc. rewrite Permutation_app_comm. cbn [app].
    rewrite app_comm_cons, HA, <- app_assoc. done. }
  split.
  - rewrite app_comm_cons, HA, <- app_assoc. cbn [app]. rewrite fmap_fupd_split by done.
    rewrite HnA, <- app_assoc, HB. f_equal. by rewrite <- Hn2.
  - rewrite <- app_assoc, HB, fmap_fupd_split by done.
    rewrite app_comm_cons, HA, <- app_assoc, HpA. f_equal. cbn [app]. f_equal.
    congruence.
Qed.

(** Putting [b] in front. *)
Lemma ring_push (nxt prv : nat -> nat) h (l : list nat) b :
  NoDup (h :: b :: l) ->
  nxt <$> h :: l = l ++ [h] -> prv <$> l ++ [h] = h :: l ->
  fupd (fupd nxt b (nxt h)) h b <$> h :: b :: l = (b :: l) ++ [h] /\
  fupd (fupd prv b h) (nxt h) b <$> (b :: l) ++ [h] = h :: b :: l.
Proof.
  intros Hnd Hn Hp. apply NoDup_cons in Hnd as [Hh Hnd]. apply NoDup_cons in Hnd as [Hb Hnd].
  destruct (l ++ [h]) as [|q B] eqn:HB; [by destruct l|].
  cbn [fmap list_fmap] in Hn, Hp. injection Hn as Hnh Hn. injection Hp as Hpq Hp.
  assert (Hqb : q <> b /\ b <> h).
  { split; [|set_solver]. assert (q ∈ l ++ [h]) by (rewrite HB; left). set_solver. }
  rewrite Hnh. cbn [fmap list_fmap app]. rewrite HB. cbn [fmap list_fmap].
  assert (HndB : NoDup (q :: B)).
  { rewrite <- HB, Permutation_app_comm. constructor; [set_solver|done]. }
  apply NoDup_cons in HndB as [HqB _].
  assert (b ∉ B). { intros H. assert (b ∈ l ++ [h]) by (rewrite HB; by right). set_solver. }
  rewrite !fmap_fupd_notin by set_solver. rewrite Hn, Hp. unfold fupd.
  rewrite (decide_True (P := h = h)), (decide_True (P := q = q)) by done.
  rewrite (decide_False (P := b = h)), (decide_False (P := b = q)) by naive_solver.
  by rewrite !(decide_True (P := b = b)).
Qed.

(** ** Changing only the links *)

(** A buffer without its links. *)
Definition core (b : buf) : buf :=
  Buf (flags b) (dev b) (blockno b) (lock b) (refcnt b) 0 0 (bdata b).

(** [s] is [s0] with the links given by [nxf] and [pvf]. *)
Record relinked (s0 s : bio) (nxf pvf : nat -> nat) : Prop := Relinked {
  r_core : core <$> bufs s = core <$> bufs s0;
  r_disk : memdisk s = memdisk s0;
  r_writes : writes s = writes s0;
  r_next : forall j, nx s j = nxf j;
  r_prev : forall j, pv s j = pvf j
}.

Lemma relinked_refl s : relinked s s (nx s) (pv s).
Proof. done. Qed.

Lemma relinked_length s0 s nxf pvf : relinked s0 s nxf pvf -> length (bufs s) = length (bufs s0).
Proof. intros [H _ _ _ _]. apply (f_equal length) in H. by rewrite !length_fmap in H. Qed.

Lemma relinked_bat s0 s nxf pvf (i : nat) :
  relinked s0 s nxf pvf -> (i < length (bufs s0))%nat ->
  exists b, bat s i = Ok b /\ next b = nxf i /\ prev b = pvf i.
Proof.
  intros Hr Hi. rewrite <- (relinked_length _ _ _ _ Hr) in Hi.
  apply lookup_lt_is_Some in Hi as [b Hb]. exists b. unfold bat. rewrite Hb. split; [done|].
  rewrite <- (r_next _ _ _ _ Hr), <- (r_prev _ _ _ _ Hr). unfold nx, pv. by rewrite Hb.
Qed.

Lemma core_insert s (i : nat) b f :
  bufs s !! i = Some b -> core (f b) = core b -> core <$> <[i := f b]> (bufs s) = core <$> bufs s.
Proof.
  intros Hb Hf. rewrite list_fmap_insert, Hf. apply list_insert_id. by rewrite list_lookup_fmap, Hb.
Qed.

Lemma link_next s0 s nxf pvf (i v : nat) :
  relinked s0 s nxf pvf -> (i < length (bufs s0))%nat ->
  exists s', bupd i (set_next v) s = Ok s' /\ relinked s0 s' (fupd nxf i v) pvf.
Proof.
  intros Hr Hi. rewrite <- (relinked_length _ _ _ _ Hr) in Hi.
  pose proof Hi as Hi'. apply lookup_lt_is_Some in Hi' as [b Hb].
  unfold bupd, bat. rewrite Hb. run. eexists; split; [reflexivity|].
  destruct Hr as [Hc Hd Hw Hn Hp]. constructor; cbn [bufs memdisk writes]; try done.
  - by rewrite core_insert.
  - intros j. unfold nx, fupd. cbn [bufs]. case_decide as E.
    + subst. by rewrite list_lookup_insert_eq.
    + rewrite list_lookup_insert_ne by done. apply Hn.
  - intros j. rewrite <- Hp. unfold pv. cbn [bufs]. destruct (decide (i = j)) as [<-|].
    + by rewrite list_lookup_insert_eq, Hb.
    + by rewrite list_lookup_insert_ne.
Qed.

Lemma link_prev s0 s nxf pvf (i v : nat) :
  relinked s0 s nxf pvf -> (i < length (bufs s0))%nat ->
  exists s', bupd i (set_prev v) s = Ok s' /\ relinked s0 s' nxf (fupd pvf i v).
Proof.
  intros Hr Hi. rewrite <- (relinked_length _ _ _ _ Hr) in Hi.
  pose proof Hi as Hi'. apply lookup_lt_is_Some in Hi' as [b Hb].
  unfold bupd, bat. rewrite Hb. run. eexists; split; [reflexivity|].
  destruct Hr as [Hc Hd Hw Hn Hp]. constructor; cbn [bufs memdisk writes]; try done.
  - by rewrite core_insert.
  - intros j. rewrite <- Hn. unfold nx. cbn [bufs]. destruct (decide (i = j)) as [<-|].
    + by rewrite list_lookup_insert_eq, Hb.
    + by rewrite list_lookup_insert_ne.
  - intros j. unfold pv, fupd. cbn [bufs]. case_decide as E.
    + subst. by rewrite list_lookup_insert_eq.
    + rewrite list_lookup_insert_ne by done. apply Hp.
Qed.

(** The elements of the ring are the buffers and the head. *)
Lemma linked_NoDup s l : linked s l -> NoDup (head :: l).
Proof.
  intros [_ Hp _ _]. rewrite Hp. constructor; [|apply NoDup_seq].
  intros H. apply elem_of_seq in H. unfold head in H. lia.
Qed.

Lemma linked_elem s l (i : nat) : linked s l -> i ∈ l <-> (i < NBUF)%nat.
Proof. intros [_ Hp _ _]. rewrite Hp, elem_of_seq. lia. Qed.

Lemma linked_lt s l (i : nat) : linked s l -> (i ∈ l \/ i = head) -> (i < length (bufs s))%nat.
Proof.
  intros Hl H. rewrite (k_len _ _ Hl). destruct H as [H| ->]; [|unfold head; lia].
  apply (linked_elem _ _ _ Hl) in H. lia.
Qed.

Lemma fmap_nx_eq s s0 nxf pvf (l : list nat) : relinked s0 s nxf pvf -> nx s <$> l = nxf <$> l.
Proof. intros H. apply list_fmap_ext. intros. apply H. Qed.
Lemma fmap_pv_eq s s0 nxf pvf (l : list nat) : relinked s0 s nxf pvf -> pv s <$> l = pvf <$> l.
Proof. intros H. apply list_fmap_ext. intros. apply H. Qed.

(** [move_front] moves the buffer to the front and changes nothing else. *)
Lemma move_front_spec s l1 i l2 :
  linked s (l1 ++ i :: l2) ->
  exists s', move_front i s = Ok s' /\ linked s' (i :: l1 ++ l2) /\
    core <$> bufs s' = core <$> bufs s /\ memdisk s' = memdisk s /\ writes s' = writes s.
Proof.
  intros Hl. pose proof (linked_NoDup _ _ Hl) as Hnd. pose proof Hl as [Hlen Hperm Hn Hp].
  destruct (ring_unlink (nx s) (pv s) head l1 l2 i Hnd Hn Hp) as [Hn1 Hp1].
  set (n1 := fupd (nx s) (pv s i) (nx s i)) in *. set (p1 := fupd (pv s) (nx s i) (pv s i)) in *.
  assert (Hnd2 : NoDup (head :: i :: l1 ++ l2)).
  { by rewrite (Permutation_middle l1 l2 i). }
  destruct (ring_push n1 p1 head (l1 ++ l2) i Hnd2 Hn1 Hp1) as [Hn2 Hp2].
  assert (Hall : forall j, j ∈ l1 ++ i :: l2 \/ j = head -> (j < length (bufs s))%nat)
    by (intros; by eapply linked_lt).
  assert (Hi : (i < length (bufs s))%nat) by (apply Hall; left; set_solver).
  assert (Hh : (head < length (bufs s))%nat) by (apply Hall; by right).
  assert (Hni : (nx s i < length (bufs s))%nat).
  { apply Hall. assert (H : nx s i ∈ nx s <$> head :: l1 ++ i :: l2)
      by (apply list_elem_of_fmap; exists i; split; [done|set_solver]).
    rewrite Hn in H. set_solver. }
  assert (Hpi : (pv s i < length (bufs s))%nat).
  { apply Hall. assert (H : pv s i ∈ pv s <$> (l1 ++ i :: l2) ++ [head])
      by (apply list_elem_of_fmap; exists i; split; [done|set_solver]).
    rewrite Hp in H. set_solver. }
  assert (Hnh : (n1 head < length (bufs s))%nat).
  { apply Hall. assert (H : n1 head ∈ n1 <$> head :: l1 ++ l2)
      by (apply list_elem_of_fmap; exists head; split; [done|set_solver]).
    rewrite Hn1 in H. set_solver. }
  unfold move_front.
  destruct (relinked_bat _ _ _ _ i (relinked_refl s) Hi) as (b & -> & Hbn & Hbp). run.
  rewrite Hbn, Hbp.
  destruct (link_prev s s _ _ (nx s i) (pv s i) (relinked_refl s) Hni) as (s1 & -> & R1). run.
  destruct (link_next s s1 _ _ (pv s i) (nx s i) R1 Hpi) as (s2 & -> & R2). run.
  fold n1 p1 in R2.
  destruct (relinked_bat _ _ _ _ head R2 Hh) as (h & -> & Hhn & _). run. rewrite Hhn.
  destruct (link_next s s2 _ _ i (n1 head) R2 Hi) as (s3 & -> & R3). run.
  destruct (link_prev s s3 _ _ i head R3 Hi) as (s4 & -> & R4). run.
  destruct (link_prev s s4 _ _ (n1 head) i R4 Hnh) as (s5 & -> & R5). run.
  destruct (link_next s s5 _ _ head i R5 Hh) as (s6 & -> & R6).
  exists s6. split; [done|]. split; [|by destruct R6].
  constructor.
  - by rewrite (relinked_length _ _ _ _ R6).
  - by rewrite (Permutation_middle l1 l2 i).
  - by rewrite (fmap_nx_eq _ _ _ _ _ R6).
  - by rewrite (fmap_pv_eq _ _ _ _ _ R6).
Qed.

(** ** The specification: a disk and two overlays *)

Record cview := Cview {
  disk : list (list Z);
  over : gmap Z (list Z);
  held : gmap Z (list Z)
}.

(** The contents of block [n] as the kernel sees it when nobody holds it. *)
Definition settled (v : cview) (n : Z) : option (list Z) :=
  match over v !! n with Some d => Some d | None => disk v !! Z.to_nat n end.

Definition in_disk (v : cview) (n : Z) : Prop := 0 <= n < Z.of_nat (length (disk v)).

Section spec.
Context (me : Z).

Definition state_of (v : cview) (n : Z) : Z :=
  match over v !! n with Some _ => Z.lor B_VALID B_DIRTY | None => B_VALID end.

(** What a buffer (its links apart) holds: nothing yet, or a block of device 1. *)
Definition buf_ok (v : cview) (b : buf) : Prop :=
  length (bdata b) = Z.to_nat BSIZE /\
  ((dev b = 0 /\ flags b = 0 /\ refcnt b = 0 /\ lock b = Sleeplock 0 0) \/
   (dev b = 1 /\ in_disk v (blockno b) /\ flags b = state_of v (blockno b) /\
    match held v !! blockno b with
    | Some d => refcnt b = 1 /\ lock b = Sleeplock 1 me /\ bdata b = d
    | None => refcnt b = 0 /\ lock b = Sleeplock 0 0 /\ settled v (blockno b) = Some (bdata b)
    end)).

(** Buffer [i] holds block [n]. *)
Definition handle (s : bio) (i : nat) (n : Z) : Prop :=
  (i < NBUF)%nat /\ exists b, bufs s !! i = Some b /\ dev b = 1 /\ blockno b = n.

Record cache_rep (s : bio) (l : list nat) (v : cview) : Prop := CacheRep {
  c_list : linked s l;
  c_disk : memdisk s = disk v;
  c_size : Forall (fun d => length d = Z.to_nat BSIZE) (disk v);
  c_buf : forall (i : nat) b, (i < NBUF)%nat -> bufs s !! i = Some b -> buf_ok v b;
  c_uniq : forall i j n, handle s i n -> handle s j n -> i = j;
  c_busy : forall n, is_Some (over v !! n) \/ is_Some (held v !! n) -> exists i, handle s i n
}.

(** The representation does not depend on the links. *)
Lemma core_lookup s s' (i : nat) b' :
  core <$> bufs s' = core <$> bufs s -> bufs s' !! i = Some b' ->
  exists b, bufs s !! i = Some b /\ core b = core b'.
Proof.
  intros Hc Hb. assert (H : (core <$> bufs s') !! i = Some (core b')) by (by rewrite list_lookup_fmap, Hb).
  rewrite Hc, list_lookup_fmap in H. apply fmap_Some in H as (b & ? & ?). by exists b.
Qed.

Lemma buf_ok_core v b b' : core b = core b' -> buf_ok v b -> buf_ok v b'.
Proof.
  intros Hc. unfold core in Hc. injection Hc as E1 E2 E3 E4 E5 E6. unfold buf_ok.
  by rewrite E1, E2, E3, E4, E5, E6.
Qed.

Lemma handle_core s s' i n :
  core <$> bufs s' = core <$> bufs s -> handle s i n -> handle s' i n.
Proof.
  intros Hc (Hi & b & Hb & Hd & Hn). split; [done|].
  destruct (core_lookup s' s i b) as (b' & Hb' & E); [done|done|].
  exists b'. injection E as E1 E2 E3 E4 E5 E6. split; [done|]. by rewrite E2, E3.
Qed.

Lemma cache_rep_relink s s' l l' v :
  cache_rep s l v -> linked s' l' -> core <$> bufs s' = core <$> bufs s -> memdisk s' = memdisk s ->
  cache_rep s' l' v.
Proof.
  intros [Hl Hd Hs Hb Hu Hy] Hl' Hc Hm. constructor; try done; try congruence.
  - intros i b' Hi Hb'. destruct (core_lookup s s' i b' Hc Hb') as (b & ? & ?).
    apply (buf_ok_core v b); [done|]. by apply (Hb i).
  - intros i j n H1 H2. apply (Hu i j n); by apply (handle_core s').
  - intros n Hn. destruct (Hy n Hn) as [i Hi]. exists i. by eapply handle_core.
Qed.

(** Changing fields of one buffer other than its links. *)
Definition keeps_links (f : buf -> buf) : Prop := forall b, next (f b) = next b /\ prev (f b) = prev b.

Lemma linked_insert s l (i : nat) b f d w :
  linked s l -> bufs s !! i = Some b -> next (f b) = next b -> prev (f b) = prev b ->
  linked (Bio (<[i := f b]> (bufs s)) d w) l.
Proof.
  intros [Hl Hp Hn Hv] Hb Hfn Hfp.
  assert (Hnx : forall j, nx (Bio (<[i := f b]> (bufs s)) d w) j = nx s j).
  { intros j. unfold nx. cbn [bufs]. destruct (decide (i = j)) as [<-|].
    - rewrite list_lookup_insert_eq, Hb by (by eapply lookup_lt_Some). done.
    - by rewrite list_lookup_insert_ne. }
  assert (Hpv : forall j, pv (Bio (<[i := f b]> (bufs s)) d w) j = pv s j).
  { intros j. unfold pv. cbn [bufs]. destruct (decide (i = j)) as [<-|].
    - rewrite list_lookup_insert_eq, Hb by (by eapply lookup_lt_Some). done.
    - by rewrite list_lookup_insert_ne. }
  constructor; [by cbn [bufs]; rewrite length_insert|done| |].
  - rewrite <- Hn. apply list_fmap_ext. intros. apply Hnx.
  - rewrite <- Hv. apply list_fmap_ext. intros. apply Hpv.
Qed.

(** The view [v'] differs from [v] only at block [n]. *)
Definition agree_off (n : Z) (v v' : cview) : Prop :=
  length (disk v') = length (disk v) /\
  forall m, m <> n -> over v' !! m = over v !! m /\ held v' !! m = held v !! m /\
    (0 <= m -> disk v' !! Z.to_nat m = disk v !! Z.to_nat m).

Lemma buf_ok_off n v v' b : agree_off n v v' -> blockno b <> n -> buf_ok v b -> buf_ok v' b.
Proof.
  intros [Hlen Ha] Hn. destruct (Ha _ Hn) as (E1 & E2 & E3).
  unfold buf_ok, in_disk, state_of, settled. rewrite Hlen, E1, E2.
  intros [Hl [?|(Hd & Hin & Hrest)]]; (split; [done|]); [by left|right].
  rewrite E3 by lia. done.
Qed.

(** The rule behind every operation: buffer [i] becomes [f b], which is a right
    buffer for block [n] in the new view; the view changes only at [n]. *)
Lemma cache_rep_update s l v v' (i : nat) b f n w :
  cache_rep s l v -> (i < NBUF)%nat -> bufs s !! i = Some b ->
  next (f b) = next b -> prev (f b) = prev b ->
  agree_off n v v' -> Forall (fun d => length d = Z.to_nat BSIZE) (disk v') ->
  buf_ok v' (f b) -> dev (f b) = 1 -> blockno (f b) = n ->
  (forall j, handle s j n -> j = i) ->
  (handle s i n \/ dev b <> 1 \/ (over v !! blockno b = None /\ held v !! blockno b = None)) ->
  cache_rep (Bio (<[i := f b]> (bufs s)) (disk v') w) l v'.
Proof.
  intros [Hl Hd Hs Hb Hu Hy] Hi Hbi Hfn Hfp Hoff Hsz Hok Hdev Hno Hown Hfree.
  assert (Hlt : (i < length (bufs s))%nat) by (by eapply lookup_lt_Some).
  assert (Hother : forall j m, j <> i -> handle (Bio (<[i := f b]> (bufs s)) (disk v') w) j m <-> handle s j m).
  { intros j m Hj. unfold handle. cbn [bufs]. by rewrite list_lookup_insert_ne. }
  assert (Hthis : forall m, handle (Bio (<[i := f b]> (bufs s)) (disk v') w) i m <-> m = n).
  { intros m. unfold handle. cbn [bufs]. rewrite list_lookup_insert_eq by done. split.
    - intros (_ & b' & E & _ & <-). by simplify_eq.
    - intros ->. split; [done|]. by exists (f b). }
  constructor; cbn [memdisk]; try done.
  - by apply linked_insert.
  - cbn [bufs]. intros j b' Hj Hb'. destruct (decide (i = j)) as [<-|Hne].
    + rewrite list_lookup_insert_eq in Hb' by done. by simplify_eq.
    + rewrite list_lookup_insert_ne in Hb' by done. pose proof (Hb j b' Hj Hb') as Hbo.
      destruct (decide (dev b' = 1)) as [Hd1|Hd1].
      * eapply buf_ok_off; [done| |done]. intros E.
        apply Hne. symmetry. apply Hown. split; [done|]. by exists b'.
      * destruct Hbo as [? [?|(?&_)]]; [|done]. split; [done|]. by left.
  - intros j k m H1 H2. destruct (decide (j = i)) as [->|Hji], (decide (k = i)) as [->|Hki]; [done| | |].
    + apply Hthis in H1 as ->. apply Hother in H2; [|done]. symmetry. by apply Hown.
    + apply Hthis in H2 as ->. apply Hother in H1; [|done]. by apply Hown.
    + apply Hother in H1, H2; [|done..]. by eapply Hu.
  - intros m Hm. destruct (decide (m = n)) as [->|Hmn]; [exists i; by apply Hthis|].
    destruct Hoff as [_ Hoff]. destruct (Hoff m Hmn) as (E1 & E2 & _). rewrite E1, E2 in Hm.
    destruct (Hy m Hm) as [j Hj]. exists j. apply Hother; [|done].
    intros ->. destruct Hj as (_ & b' & Hb' & Hd1 & Hm'). simplify_eq.
    destruct Hfree as [(_ & b'' & Hb'' & _ & Hn'')|[?|[Hf1 Hf2]]]; [by simplify_eq|done|].
    rewrite Hf1, Hf2 in Hm. by destruct Hm as [[? ?]|[? ?]].
Qed.

(** ** Searching the list *)

Lemma lookup_S (x : nat) (l : list nat) (i : nat) : (x :: l) !! S i = l !! i.
Proof. done. Qed.

Lemma next_of s l1 x l2 : linked s (l1 ++ x :: l2) -> nx s x = hd head l2.
Proof.
  intros [_ _ Hn _].
  assert (H : (nx s <$> head :: l1 ++ x :: l2) !! S (length l1) = Some (nx s x)).
  { rewrite list_lookup_fmap, lookup_S, list_lookup_middle by done. done. }
  rewrite Hn, <- app_assoc, lookup_app_r in H by lia.
  replace (S (length l1) - length l1)%nat with 1%nat in H by lia.
  destruct l2; cbn in H; by simplify_eq.
Qed.

Lemma next_head s l : linked s l -> nx s head = hd head l.
Proof. intros [_ _ Hn _]. destruct l; cbn in Hn; by simplify_eq. Qed.

Lemma prev_of s l1 x l2 : linked s (l1 ++ x :: l2) -> pv s x = List.last l1 head.
Proof.
  intros [_ _ _ Hp].
  assert (H : (pv s <$> (l1 ++ x :: l2) ++ [head]) !! length l1 = Some (pv s x)).
  { rewrite list_lookup_fmap, <- app_assoc. cbn [app]. by rewrite list_lookup_middle. }
  rewrite Hp in H. destruct l1 as [|y l1] using rev_ind; [cbn in H; by simplify_eq|].
  rewrite List.last_last. rewrite length_app in H. cbn [length] in H.
  rewrite <- app_assoc in H. replace (length l1 + 1)%nat with (S (length l1)) in H by lia.
  rewrite lookup_S in H. cbn [app] in H. rewrite list_lookup_middle in H by done. by simplify_eq.
Qed.

Lemma prev_head s l : linked s l -> pv s head = List.last l head.
Proof.
  intros [_ _ _ Hp]. destruct l as [|x l] using rev_ind; [cbn in Hp; by simplify_eq|].
  rewrite List.last_last.
  assert (H : (pv s <$> (l ++ [x]) ++ [head]) !! S (length l) = Some (pv s head)).
  { rewrite list_lookup_fmap, lookup_app_r by (rewrite length_app; cbn; lia).
    rewrite length_app. replace (S (length l) - (length l + length [x]))%nat with 0%nat by (cbn; lia).
    done. }
  rewrite Hp, lookup_S in H. rewrite list_lookup_middle in H by done. by simplify_eq.
Qed.

Lemma linked_at s l (i : nat) : linked s l -> i ∈ l -> exists b, bufs s !! i = Some b.
Proof. intros Hl Hi. apply lookup_lt_is_Some. apply (linked_lt s l); [done|by left]. Qed.

Lemma nx_at s i b : bufs s !! i = Some b -> next b = nx s i.
Proof. intros H. unfold nx. by rewrite H. Qed.
Lemma pv_at s i b : bufs s !! i = Some b -> prev b = pv s i.
Proof. intros H. unfold pv. by rewrite H. Qed.

Lemma find_cached_spec s n l2 : forall fuel l1,
  linked s (l1 ++ l2) -> (length l2 < fuel)%nat ->
  exists r, find_cached fuel s (hd head l2) 1 n = Ok r /\
    match r with
    | Some i => handle s i n
    | None => forall i, i ∈ l2 -> ~ handle s i n
    end.
Proof.
  induction l2 as [|x l2 IH]; intros fuel l1 Hl Hf; (destruct fuel as [|fuel]; [lia|]); cbn [find_cached hd].
  - rewrite decide_True by done. exists None. split; [done|]. intros i Hi. by apply elem_of_nil in Hi.
  - assert (Hx : x ∈ l1 ++ x :: l2) by set_solver.
    pose proof (proj1 (linked_elem _ _ _ Hl) Hx) as Hlt.
    rewrite decide_False by (unfold head; lia).
    destruct (linked_at _ _ _ Hl Hx) as [b Hb]. unfold bat. rewrite Hb. run.
    destruct ((dev b =? 1) && (blockno b =? n)) eqn:E.
    + zbool. exists (Some x). split; [done|]. split; [done|]. by exists b.
    + rewrite (nx_at _ _ _ Hb), (next_of _ _ _ _ Hl).
      destruct (IH fuel (l1 ++ [x])) as (r & Hr & Hres); [by rewrite <- app_assoc|cbn in Hf; lia|].
      exists r. split; [done|]. destruct r as [i|]; [done|].
      intros i Hi Hh. apply elem_of_cons in Hi as [->|Hi]; [|by eapply Hres].
      destruct Hh as (_ & b' & Hb' & Hd & Hn). simplify_eq.
      by rewrite Hd, Z.eqb_refl, Z.eqb_refl in E.
Qed.

Definition unused (b : buf) : bool := (refcnt b =? 0) && (Z.land (flags b) B_DIRTY =? 0).

(** The search from the back finds the least recently used free buffer. *)
Lemma find_unused_spec s l1 : forall fuel l2,
  linked s (l1 ++ l2) -> (length l1 < fuel)%nat ->
  exists r, find_unused fuel s (List.last l1 head) = Ok r /\
    match r with
    | Some i => exists la lb b, l1 = la ++ i :: lb /\ bufs s !! i = Some b /\ unused b = true /\
        forall j b', j ∈ lb -> bufs s !! j = Some b' -> unused b' = false
    | None => forall j b', j ∈ l1 -> bufs s !! j = Some b' -> unused b' = false
    end.
Proof.
  induction l1 as [|x l1 IH] using rev_ind; intros fuel l2 Hl Hf;
    (destruct fuel as [|fuel]; [lia|]); cbn [find_unused].
  - cbn [List.last]. rewrite decide_True by done. exists None. split; [done|].
    intros j b' Hj. by apply elem_of_nil in Hj.
  - rewrite List.last_last. rewrite <- app_assoc in Hl. cbn [app] in Hl.
    assert (Hx : x ∈ l1 ++ x :: l2) by set_solver.
    pose proof (proj1 (linked_elem _ _ _ Hl) Hx) as Hlt.
    rewrite decide_False by (unfold head; lia).
    destruct (linked_at _ _ _ Hl Hx) as [b Hb]. unfold bat. rewrite Hb. run.
    fold (unused b). destruct (unused b) eqn:E.
    + exists (Some x). split; [done|]. exists l1, [], b. split; [done|]. split; [done|]. split; [done|].
      intros j b' Hj. by apply elem_of_nil in Hj.
    + rewrite (pv_at _ _ _ Hb), (prev_of _ _ _ _ Hl). rewrite length_app in Hf. cbn in Hf.
      destruct (IH fuel (x :: l2)) as (r & Hr & Hres); [done|lia|].
      exists r. split; [done|]. destruct r as [i|].
      * destruct Hres as (la & lb & bi & -> & Hbi & Hu & Hrest).
        exists la, (lb ++ [x]), bi. rewrite <- app_assoc. split; [done|]. split; [done|]. split; [done|].
        intros j b' Hj Hb'. apply elem_of_app in Hj as [Hj|Hj]; [by eapply Hrest|].
        apply list_elem_of_singleton in Hj as ->. by simplify_eq.
      * intros j b' Hj Hb'. apply elem_of_app in Hj as [Hj|Hj]; [by eapply Hres|].
        apply list_elem_of_singleton in Hj as ->. by simplify_eq.
Qed.

(** ** Operations *)

Lemma buf_ok_lookup s l v i n :
  cache_rep s l v -> handle s i n ->
  exists b, bufs s !! i = Some b /\ dev b = 1 /\ blockno b = n /\ in_disk v n /\
    length (bdata b) = Z.to_nat BSIZE /\ flags b = state_of v n /\
    match held v !! n with
    | Some d => refcnt b = 1 /\ lock b = Sleeplock 1 me /\ bdata b = d
    | None => refcnt b = 0 /\ lock b = Sleeplock 0 0 /\ settled v n = Some (bdata b)
    end.
Proof.
  intros Hr (Hi & b & Hb & Hd & <-). exists b.
  destruct (c_buf _ _ _ Hr i b Hi Hb) as [Hlen [(H0 & _)|(_ & Hin & Hf & Hm)]]; [congruence|].
  done.
Qed.

Lemma handle_insert s i j b f n d w :
  bufs s !! i = Some b -> dev (f b) = dev b -> blockno (f b) = blockno b ->
  handle s j n -> handle (Bio (<[i := f b]> (bufs s)) d w) j n.
Proof.
  intros Hb Hd Hn (Hj & b' & Hb' & Hd' & Hn'). split; [done|]. cbn [bufs].
  destruct (decide (i = j)) as [<-|].
  - simplify_eq. exists (f b). rewrite list_lookup_insert_eq by (by eapply lookup_lt_Some).
    by rewrite Hd, Hn.
  - exists b'. by rewrite list_lookup_insert_ne.
Qed.

Lemma bat_Ok s (i : nat) b : bufs s !! i = Some b -> bat s i = Ok b.
Proof. intros H. unfold bat. by rewrite H. Qed.

Lemma bupd_Ok (i : nat) f s b :
  bufs s !! i = Some b -> bupd i f s = Ok (Bio (<[i := f b]> (bufs s)) (memdisk s) (writes s)).
Proof. intros H. unfold bupd, bat. by rewrite H. Qed.

Definition with_held (v : cview) (h : gmap Z (list Z)) : cview := Cview (disk v) (over v) h.

(** Modifying the data of a held buffer. *)
Lemma modify_spec s l v i n d d' :
  cache_rep s l v -> handle s i n -> held v !! n = Some d -> length d' = Z.to_nat BSIZE ->
  exists s', bupd i (set_data d') s = Ok s' /\
    cache_rep s' l (with_held v (<[n := d']> (held v))) /\ writes s' = writes s /\
    (forall j m, handle s j m -> handle s' j m).
Proof.
  intros Hr Hh Hd Hlen. destruct (buf_ok_lookup _ _ _ _ _ Hr Hh) as (b & Hb & Hdev & Hbn & Hin & _ & Hf & Hm).
  rewrite Hd in Hm. destruct Hm as (Hrc & Hlk & _).
  rewrite (bupd_Ok _ _ _ _ Hb), (c_disk _ _ _ Hr). eexists; split; [reflexivity|].
  split; [|split; [done|intros; by eapply handle_insert]].
  apply (cache_rep_update s l v (with_held v (<[n := d']> (held v))) i b (set_data d') n (writes s)); try done.
  - by destruct Hh.
  - split; [done|]. intros m Hne. cbn. by rewrite lookup_insert_ne by done.
  - by apply Hr.
  - split; [done|]. right. cbn [set_data dev blockno flags bdata refcnt lock with_held held].
    rewrite Hbn. split; [done|]. split; [done|]. split; [done|].
    by rewrite lookup_insert_eq.
  - intros j Hj. by eapply (c_uniq _ _ _ Hr).
  - by left.
Qed.

(** [b->flags |= B_DIRTY] pins the block with its present data. *)
Lemma pin_spec s l v i n d b :
  cache_rep s l v -> handle s i n -> held v !! n = Some d -> bufs s !! i = Some b ->
  exists s', bupd i (set_flags (Z.lor (flags b) B_DIRTY)) s = Ok s' /\
    cache_rep s' l (Cview (disk v) (<[n := d]> (over v)) (held v)) /\ writes s' = writes s /\
    (forall j m, handle s j m -> handle s' j m).
Proof.
  intros Hr Hh Hd Hb0. destruct (buf_ok_lookup _ _ _ _ _ Hr Hh) as (b' & Hb & Hdev & Hbn & Hin & Hlen & Hf & Hm).
  assert (b' = b) as -> by congruence. subst n. rewrite Hd in Hm. destruct Hm as (Hrc & Hlk & Hdat).
  rewrite (bupd_Ok _ _ _ _ Hb), (c_disk _ _ _ Hr). eexists; split; [reflexivity|].
  split; [|split; [done|intros; by eapply handle_insert]].
  set (v' := Cview (disk v) (<[blockno b := d]> (over v)) (held v)).
  apply (cache_rep_update s l v v' i b (set_flags (Z.lor (flags b) B_DIRTY)) (blockno b) (writes s)); try done.
  - by destruct Hh.
  - split; [done|]. intros m Hne. cbn. by rewrite lookup_insert_ne by done.
  - by apply Hr.
  - split; [done|]. right. cbn [set_flags dev blockno flags bdata refcnt lock].
    split; [done|]. split; [done|]. split.
    + rewrite Hf. unfold state_of, v'. cbn [over]. rewrite lookup_insert_eq.
      by destruct (over v !! blockno b).
    + cbn [v' held]. by rewrite Hd.
  - intros j Hj. by eapply (c_uniq _ _ _ Hr).
  - by left.
Qed.

Lemma state_of_flags v n :
  Z.lor (state_of v n) B_DIRTY = Z.lor B_VALID B_DIRTY /\
  Z.land (state_of v n) B_VALID <> 0.
Proof. unfold state_of. by destruct (over v !! n). Qed.

(** [bwrite] puts the data of a held block on the disk and cleans it. *)
Lemma bwrite_spec s l v i n d :
  cache_rep s l v -> handle s i n -> held v !! n = Some d ->
  exists s', bwrite me i s = Ok s' /\
    cache_rep s' l (Cview (<[Z.to_nat n := d]> (disk v)) (delete n (over v)) (held v)) /\
    writes s' = writes s ++ [(n, d)] /\ (forall j m, handle s j m -> handle s' j m).
Proof.
  intros Hr Hh Hd. destruct (buf_ok_lookup _ _ _ _ _ Hr Hh) as (b & Hb & Hdev & Hbn & Hin & Hlen & Hf & Hm).
  rewrite Hd in Hm. destruct Hm as (Hrc & Hlk & Hdat).
  assert (Hlt : (i < length (bufs s))%nat) by (by eapply lookup_lt_Some).
  unfold bwrite, bat. rewrite Hb. run. rewrite Hlk. unfold holdingsleep. cbn [locked lpid].
  rewrite Z.eqb_refl. cbn [negb andb Z.eqb Pos.eqb].
  rewrite (bupd_Ok _ _ _ _ Hb). run. rewrite Hf, (proj1 (state_of_flags v n)).
  unfold iderw, bat. cbn [bufs]. rewrite list_lookup_insert_eq by done. run.
  cbn [set_flags lock flags dev blockno bdata memdisk]. rewrite Hlk. unfold holdingsleep.
  cbn [locked lpid]. rewrite Z.eqb_refl, Hdev, Hbn, (c_disk _ _ _ Hr).
  assert (Hge : (n >=? Z.of_nat (length (disk v))) = false) by (destruct Hin; lia).
  rewrite Hge. cbn [negb andb Z.eqb Pos.eqb Z.land Z.lor B_VALID B_DIRTY Pos.land Pos.lor].
  erewrite bupd_Ok by (cbn [bufs]; by rewrite list_lookup_insert_eq). run.
  cbn [bufs memdisk writes]. rewrite list_insert_insert_eq.
  rewrite aset_Ok by apply Hin. run.
  eexists; split; [reflexivity|]. rewrite Hdat. split; [|split; [done|]].
  2: { intros j m Hj. cbn [bufs]. apply (handle_insert s i j b (fun b => set_flags _ (set_flags _ b))); done. }
  set (v' := Cview (<[Z.to_nat n := d]> (disk v)) (delete n (over v)) (held v)).
  apply (cache_rep_update s l v v' i b (fun b => set_flags _ (set_flags _ b)) n); try done.
  - by destruct Hh.
  - split; [by cbn; rewrite length_insert|]. intros m Hne. cbn. rewrite lookup_delete_ne by done.
    split; [done|]. split; [done|]. intros Hm.
    rewrite list_lookup_insert_ne; [done|]. destruct Hin. lia.
  - apply Forall_insert; [by apply Hr|]. by rewrite <- Hdat.
  - split; [by cbn; rewrite Hlen|]. right. cbn [set_flags dev blockno flags bdata refcnt lock].
    rewrite Hbn. split; [done|]. split; [|split].
    + unfold in_disk. cbn [v' disk]. by rewrite length_insert.
    + unfold state_of. cbn [v' over]. by rewrite lookup_delete_eq.
    + cbn [v' held]. by rewrite Hd.
  - intros j Hj. by eapply (c_uniq _ _ _ Hr).
  - by left.
Qed.

(** [brelse] of a buffer that agrees with the specification. *)
Lemma brelse_spec s l v i n d :
  cache_rep s l v -> handle s i n -> held v !! n = Some d -> settled v n = Some d ->
  exists s' l1 l2, brelse me i s = Ok s' /\ l = l1 ++ i :: l2 /\
    cache_rep s' (i :: l1 ++ l2) (with_held v (delete n (held v))) /\ writes s' = writes s /\
    (forall j m, handle s j m -> handle s' j m).
Proof.
  intros Hr Hh Hd Hset. destruct (buf_ok_lookup _ _ _ _ _ Hr Hh) as (b & Hb & Hdev & Hbn & Hin & Hlen & Hf & Hm).
  rewrite Hd in Hm. destruct Hm as (Hrc & Hlk & Hdat).
  assert (Hlt : (i < length (bufs s))%nat) by (by eapply lookup_lt_Some).
  unfold brelse, bat. rewrite Hb. run. rewrite Hlk. unfold holdingsleep. cbn [locked lpid].
  rewrite Z.eqb_refl. cbn [negb andb Z.eqb Pos.eqb].
  rewrite (bupd_Ok _ _ _ _ Hb). run.
  erewrite bupd_Ok by (cbn [bufs]; by rewrite list_lookup_insert_eq). run.
  cbn [bufs memdisk writes]. rewrite list_insert_insert_eq, Hrc.
  change (u32 (1 - 1)) with 0. rewrite Z.eqb_refl. rewrite (c_disk _ _ _ Hr).
  set (f := fun b => set_refcnt 0 (set_lock (releasesleep (lock b)) b)).
  set (s1 := Bio (<[i := set_refcnt 0 (set_lock _ b)]> (bufs s)) (disk v) (writes s)).
  assert (Hr1 : cache_rep s1 l (with_held v (delete n (held v)))).
  { apply (cache_rep_update s l v (with_held v (delete n (held v))) i b f n (writes s)); try done.
    - by destruct Hh.
    - split; [done|]. intros m Hne. cbn. by rewrite lookup_delete_ne.
    - by apply Hr.
    - split; [done|]. right. cbn [f set_lock set_refcnt dev blockno flags bdata refcnt lock with_held held].
      rewrite Hbn, lookup_delete_eq, Hdat. done.
    - intros j Hj. by eapply (c_uniq _ _ _ Hr).
    - by left. }
  assert (Hil : i ∈ l) by (apply (linked_elem _ _ _ (c_list _ _ _ Hr)); by destruct Hh).
  apply list_elem_of_split in Hil as (l1 & l2 & ->).
  destruct (move_front_spec s1 l1 i l2 (c_list _ _ _ Hr1)) as (s2 & H2 & Hl2 & Hc2 & Hm2 & Hw2).
  exists s2, l1, l2. split; [done|]. split; [done|].
  split; [by eapply cache_rep_relink|]. split; [done|].
  intros j m Hj. apply (handle_core s1); [done|]. by apply (handle_insert s i j b f).
Qed.

(** Cases of [bread]. *)
Lemma bread_hit s l v i n d :
  cache_rep s l v -> handle s i n -> held v !! n = None -> settled v n = Some d ->
  find_cached (S NBUF) s (hd head l) 1 n = Ok (Some i) ->
  exists s', bread me s 1 n = Ok (i, s') /\ cache_rep s' l (with_held v (<[n := d]> (held v))) /\
    writes s' = writes s /\ (forall j m, handle s j m -> handle s' j m).
Proof.
  intros Hr Hh Hd Hset Hfind.
  destruct (buf_ok_lookup _ _ _ _ _ Hr Hh) as (b & Hb & Hdev & Hbn & Hin & Hlen & Hf & Hm).
  rewrite Hd in Hm. destruct Hm as (Hrc & Hlk & Hdat).
  assert (Hlt : (i < length (bufs s))%nat) by (by eapply lookup_lt_Some).
  destruct (relinked_bat _ _ _ _ head (relinked_refl s)) as (h & Hh' & Hhn & _).
  { apply (linked_lt s l); [apply Hr|by right]. }
  unfold bread, bget. rewrite Hh'. run. rewrite Hhn, (next_head _ _ (c_list _ _ _ Hr)), Hfind. run.
  unfold bat. rewrite Hb. run. rewrite (bupd_Ok _ _ _ _ Hb). run.
  rewrite Hlk. unfold acquiresleep. cbn [locked Z.eqb negb]. run.
  erewrite bupd_Ok by (cbn [bufs]; by rewrite list_lookup_insert_eq). run.
  cbn [bufs memdisk writes]. rewrite list_insert_insert_eq, list_lookup_insert_eq by done. run.
  cbn [set_lock set_refcnt flags]. rewrite Hf.
  rewrite (proj2 (Z.eqb_neq _ _)) by apply (state_of_flags v n).
  eexists; split; [reflexivity|]. rewrite (c_disk _ _ _ Hr), Hrc.
  set (f := fun b => set_lock (Sleeplock 1 me) (set_refcnt (u32 (0 + 1)) b)).
  split; [|split; [done|intros j m Hj; by apply (handle_insert s i j b f)]].
  apply (cache_rep_update s l v (with_held v (<[n := d]> (held v))) i b f n (writes s)); try done.
  - by destruct Hh.
  - split; [done|]. intros m Hne. cbn. by rewrite lookup_insert_ne.
  - by apply Hr.
  - split; [done|]. right. cbn [f set_lock set_refcnt dev blockno flags bdata refcnt lock with_held held].
    rewrite Hbn, lookup_insert_eq. repeat split; try done; try apply Hin. congruence.
  - intros j Hj. by eapply (c_uniq _ _ _ Hr).
  - by left.
Qed.

(** A free buffer exists while fewer than [NBUF] blocks are pinned or held. *)
Lemma busy_count s l v :
  cache_rep s l v ->
  (forall (i : nat) b, (i < NBUF)%nat -> bufs s !! i = Some b -> unused b = false) ->
  (NBUF <= size (over v) + size (held v))%nat.
Proof.
  intros Hr Hbusy.
  set (bno := fun i : nat => match bufs s !! i with Some b => blockno b | None => 0 end).
  assert (Hall : forall i, (i < NBUF)%nat -> handle s i (bno i) /\ bno i ∈ dom (over v) ∪ dom (held v)).
  { intros i Hi. destruct (linked_at s l i) as [b Hb]; [apply Hr|by apply (linked_elem _ _ _ (c_list _ _ _ Hr))|].
    pose proof (Hbusy i b Hi Hb) as Hu. unfold bno. rewrite Hb. unfold handle.
    destruct (c_buf _ _ _ Hr i b Hi Hb) as [_ [(_ & Hf & Hrc & _)|(Hd & _ & Hf & Hm)]].
    - unfold unused in Hu. by rewrite Hf, Hrc in Hu.
    - split; [split; [done|by exists b]|]. rewrite elem_of_union, !elem_of_dom.
      destruct (held v !! blockno b) as [d|]; [by right; eexists|].
      left. unfold unused, state_of in Hu, Hf. destruct (over v !! blockno b); [by eexists|].
      destruct Hm as (Hrc & _). by rewrite Hf, Hrc in Hu. }
  assert (Hnd : NoDup (bno <$> seq 0 NBUF)).
  { apply NoDup_fmap_2_strong; [|apply NoDup_seq]. intros i j Hi Hj E.
    apply elem_of_seq in Hi, Hj. destruct (Hall i) as [H1 _]; [lia|]. destruct (Hall j) as [H2 _]; [lia|].
    rewrite E in H1. by apply (c_uniq _ _ _ Hr _ _ _ H1 H2). }
  pose proof (size_list_to_set (C := gset Z) _ Hnd) as Hsz. rewrite length_fmap, length_seq in Hsz.
  rewrite <- Hsz, <- !size_dom.
  transitivity (size (dom (over v) ∪ dom (held v))).
  - apply subseteq_size. intros x Hx. apply elem_of_list_to_set, list_elem_of_fmap in Hx as (i & -> & Hi).
    apply elem_of_seq in Hi. apply Hall. lia.
  - rewrite size_union_alt. pose proof (subseteq_size (dom (held v) ∖ dom (over v)) (dom (held v))). set_solver by lia.
Qed.

Lemma bread_miss s l v n d :
  cache_rep s l v -> (forall i, ~ handle s i n) -> in_disk v n -> disk v !! Z.to_nat n = Some d ->
  (size (over v) + size (held v) < NBUF)%nat ->
  find_cached (S NBUF) s (hd head l) 1 n = Ok None ->
  exists i s', bread me s 1 n = Ok (i, s') /\ handle s' i n /\
    cache_rep s' l (with_held v (<[n := d]> (held v))) /\
    writes s' = writes s /\ (forall j m, is_Some (held v !! m) -> handle s j m -> handle s' j m).
Proof.
  intros Hr Hno Hin Hdn Hcap Hfind. pose proof (c_list _ _ _ Hr) as Hl.
  assert (Hover : over v !! n = None).
  { destruct (over v !! n) eqn:E; [|done]. destruct (c_busy _ _ _ Hr n) as [j Hj]; [by left; eexists|].
    by destruct (Hno j). }
  destruct (relinked_bat _ _ _ _ head (relinked_refl s)) as (h & Hh' & Hhn & Hhp).
  { apply (linked_lt s l); [done|by right]. }
  destruct (find_unused_spec s l (S NBUF) []) as (r & Hru & Hres).
  { by rewrite app_nil_r. }
  { rewrite (k_perm _ _ Hl), length_seq. lia. }
  destruct r as [i|]; [|exfalso; apply (busy_count _ _ _) in Hr; [lia|]].
  2: { intros i b Hi Hb. eapply Hres; [|done]. by apply (linked_elem _ _ _ Hl). }
  destruct Hres as (la & lb & b & -> & Hb & Hu & _).
  assert (Hi : (i < NBUF)%nat) by (apply (linked_elem _ _ _ Hl); set_solver).
  assert (Hlt : (i < length (bufs s))%nat) by (by eapply lookup_lt_Some).
  unfold unused in Hu. zbool.
  destruct (c_buf _ _ _ Hr i b Hi Hb) as [Hlen Hcase].
  assert (Hlk : lock b = Sleeplock 0 0).
  { destruct Hcase as [(_&_&_&?)|(_&_&_&Hm)]; [done|]. destruct (held v !! blockno b); [|by destruct Hm as (_&?&_)].
    destruct Hm as (?&_). lia. }
  assert (Hfree : dev b <> 1 \/ (over v !! blockno b = None /\ held v !! blockno b = None)).
  { destruct Hcase as [(?&_)|(_&_&Hf&Hm)]; [left; lia|right].
    unfold state_of in Hf. destruct (over v !! blockno b).
    - rewrite Hf in *. done.
    - split; [done|]. destruct (held v !! blockno b); [|done]. destruct Hm as (?&_). lia. }
  unfold bread, bget. rewrite Hh'. run. rewrite Hhn, (next_head _ _ Hl), Hfind. run.
  rewrite Hhp, (prev_head _ _ Hl), Hru. run.
  rewrite (bupd_Ok _ _ _ _ Hb). run.
  do 3 (erewrite bupd_Ok by (cbn [bufs]; by rewrite list_lookup_insert_eq by (by rewrite ?length_insert)); run;
        cbn [bufs memdisk writes]; rewrite list_insert_insert_eq).
  erewrite bat_Ok by (cbn [bufs]; by rewrite list_lookup_insert_eq). run.
  cbn [set_refcnt set_flags set_blockno set_dev lock]. rewrite Hlk. unfold acquiresleep. cbn [locked Z.eqb negb]. run.
  erewrite bupd_Ok by (cbn [bufs]; by rewrite list_lookup_insert_eq). run.
  cbn [bufs memdisk writes]. rewrite list_insert_insert_eq.
  erewrite bat_Ok by (cbn [bufs]; by rewrite list_lookup_insert_eq). run.
  cbn [set_refcnt set_flags set_blockno set_dev set_lock flags Z.land Z.eqb].
  unfold iderw, bat. cbn [bufs]. rewrite list_lookup_insert_eq by done. run.
  cbn [set_refcnt set_flags set_blockno set_dev set_lock lock flags dev blockno bdata memdisk]. unfold holdingsleep.
  cbn [locked lpid]. rewrite (Z.eqb_refl me), (c_disk _ _ _ Hr).
  assert (Hge : (n >=? Z.of_nat (length (disk v))) = false) by (destruct Hin; lia).
  rewrite Hge. change (Z.land 0 (Z.lor B_VALID B_DIRTY) =? B_VALID) with false.
  change (Z.land 0 B_DIRTY =? 0) with true. cbn [negb andb Z.eqb Pos.eqb].
  rewrite (proj2 (aget_Ok (disk v) n d)) by (split; [apply Hin|done]). run.
  do 2 (erewrite bupd_Ok by (cbn [bufs]; by rewrite list_lookup_insert_eq); run;
        cbn [bufs memdisk writes]; rewrite list_insert_insert_eq).
  cbn [set_refcnt set_flags set_blockno set_dev set_lock set_data bdata flags dev blockno lock refcnt prev next].
  set (f := fun b => Buf 2 1 n (Sleeplock 1 me) 1 (prev b) (next b) d).
  eexists i, _. split; [reflexivity|]. split; [|split; [|split]].
  - split; [done|]. exists (f b). cbn [bufs]. by rewrite list_lookup_insert_eq.
  - apply (cache_rep_update s _ v (with_held v (<[n := d]> (held v))) i b f n (writes s)); try done.
    + split; [done|]. intros m Hne. cbn. by rewrite lookup_insert_ne.
    + by apply Hr.
    + assert (Hld : length d = Z.to_nat BSIZE).
      { exact (proj1 (Forall_lookup _ _) (c_size _ _ _ Hr) _ _ Hdn). }
      split; [done|]. right. cbn [f dev blockno flags bdata refcnt lock with_held held].
      rewrite lookup_insert_eq. unfold state_of. cbn [over with_held]. by rewrite Hover.
    + intros j Hj. by destruct (Hno j).
    + by right.
  - done.
  - intros j m Hm (Hj & b' & Hb' & Hd' & Hm'). split; [done|]. exists b'. cbn [bufs].
    rewrite list_lookup_insert_ne; [done|]. intros ->. simplify_eq.
    destruct Hfree as [?|[_ Hf2]]; [done|]. rewrite Hf2 in Hm. by destruct Hm.
Qed.

(** [bread] of a block nobody holds returns a buffer with its contents; it needs
    a free buffer only when the block is not in the cache. *)
Lemma bread_spec s l v n :
  cache_rep s l v -> in_disk v n -> held v !! n = None ->
  is_Some (over v !! n) \/ (size (over v) + size (held v) < NBUF)%nat ->
  exists i s' d, bread me s 1 n = Ok (i, s') /\ settled v n = Some d /\ handle s' i n /\
    cache_rep s' l (with_held v (<[n := d]> (held v))) /\
    writes s' = writes s /\ (forall j m, is_Some (held v !! m) -> handle s j m -> handle s' j m).
Proof.
  intros Hr Hin Hh Hcap. pose proof (c_list _ _ _ Hr) as Hl.
  assert (Hset : exists d, settled v n = Some d).
  { unfold settled. destruct (over v !! n) as [d|]; [by exists d|].
    apply lookup_lt_is_Some. destruct Hin. lia. }
  destruct Hset as [d Hset].
  destruct (find_cached_spec s n l (S NBUF) []) as (r & Hfind & Hres); [done| |].
  { rewrite (k_perm _ _ Hl), length_seq. lia. }
  destruct r as [i|].
  - destruct (bread_hit s l v i n d Hr Hres Hh Hset Hfind) as (s' & ? & ? & ? & Hk).
    exists i, s', d. split; [done|]. split; [done|]. split; [by apply Hk|].
    split; [done|]. split; [done|]. intros j m _. apply Hk.
  - assert (Hno : forall i, ~ handle s i n).
    { intros i Hi. apply (Hres i); [|done]. apply (linked_elem _ _ _ Hl). by destruct Hi. }
    assert (Hover : over v !! n = None).
    { destruct (over v !! n) eqn:E; [|done]. destruct (c_busy _ _ _ Hr n) as [j Hj]; [by left; eexists|].
      by destruct (Hno j). }
    destruct Hcap as [Hcap|Hcap]; [rewrite Hover in Hcap; by destruct Hcap|].
    unfold settled in Hset. rewrite Hover in Hset.
    destruct (bread_miss s l v n d Hr Hno Hin Hset Hcap Hfind) as (i & s' & ? & ? & ? & ? & ?).
    exists i, s', d. unfold settled. by rewrite Hover.
Qed.

(** [binit] on zeroed storage. *)
Lemma binit_spec d :
  Forall (fun b => length b = Z.to_nat BSIZE) d ->
  exists s, binit (Bio (replicate (S NBUF) buf0) d []) = Ok s /\
    cache_rep s (reverse (seq 0 NBUF)) (Cview d ∅ ∅) /\ writes s = [].
Proof.
  intros Hd.
  set (s1 := match binit (Bio (replicate (S NBUF) buf0) d []) with Ok s => s | Stuck _ => Bio [] d [] end).
  exists s1.
  assert (Hb : forall (i : nat) b, bufs s1 !! i = Some b -> core b = core buf0).
  { intros i b Hi. assert (Hc : core <$> bufs s1 = replicate (S NBUF) (core buf0)) by (vm_compute; reflexivity).
    assert (H : (core <$> bufs s1) !! i = Some (core b)) by (by rewrite list_lookup_fmap, Hi).
    rewrite Hc in H. by apply lookup_replicate in H as [-> _]. }
  assert (Hno : forall i n, ~ handle s1 i n).
  { intros i n (_ & b & Hi & Hdv & _). apply Hb in Hi. by injection Hi as E1 E2; rewrite E2 in Hdv. }
  split; [vm_compute; reflexivity|]. split; [|vm_compute; reflexivity].
  constructor.
  - constructor; [vm_compute; reflexivity|by rewrite reverse_Permutation|vm_compute; reflexivity..].
  - vm_compute. reflexivity.
  - done.
  - intros i b _ Hi. apply (buf_ok_core _ buf0); [symmetry; by eapply Hb|].
    split; [vm_compute; reflexivity|]. left. repeat split.
  - intros i j n Hi. by destruct (Hno i n).
  - intros n [[? H]|[? H]]; cbn in H; by rewrite lookup_empty in H.
Qed.

End spec.
