(* ===== verification/Xv6Cache.v ===== *)
(** Uses of the buffer cache ([Xv6Bio]): reading a block, writing it, copying
    one block over another, and a client that mixes reads and writes.

    The client theorem is the contract of bio.c: through the cache, whatever
    is evicted and re-read, a client sees the disk of the specification. *)

From S2P Require Import Prelude Bytes Xv6Bio.

(** ** Clients *)

Inductive bop :=
| BRead (n : Z)
| BWrite (n : Z) (data : list Z).

Section steps.
Context (me : Z).

(** [b = bread(1, n); ... brelse(b)], reading the data or replacing it with
    [bwrite]. *)
Definition bclient (s : bio) (o : bop) : res (list Z * bio) :=
  match o with
  | BRead n =>
      '(i, s) ← bread me s 1 n;
      b ← bat s i;
      s ← brelse me i s;
      Ok (bdata b, s)
  | BWrite n data =>
      '(i, s) ← bread me s 1 n;
      s ← bupd i (set_data data) s;
      s ← bwrite me i s;
      s ← brelse me i s;
      Ok ([], s)
  end.

Fixpoint bclients (s : bio) (os : list bop) : res (list (list Z) * bio) :=
  match os with
  | [] => Ok ([], s)
  | o :: os => '(r, s) ← bclient s o; '(rs, s) ← bclients s os; Ok (r :: rs, s)
  end.

(** The same on a disk without a cache. *)
Definition disk_step (d : list (list Z)) (o : bop) : list Z * list (list Z) :=
  match o with
  | BRead n => (default [] (d !! Z.to_nat n), d)
  | BWrite n data => ([], <[Z.to_nat n := data]> d)
  end.

Fixpoint disk_steps (d : list (list Z)) (os : list bop) : list (list Z) * list (list Z) :=
  match os with
  | [] => ([], d)
  | o :: os => let '(r, d) := disk_step d o in let '(rs, d) := disk_steps d os in (r :: rs, d)
  end.

(** Nobody holds a buffer. *)
Definition crep (c : bio) (d : list (list Z)) (ov : gmap Z (list Z)) : Prop :=
  exists l, cache_rep me c l (Cview d ov ∅).

Definition inside (d : list (list Z)) (n : Z) : Prop := 0 <= n < Z.of_nat (length d).

Lemma handle_bat c l v i n d :
  cache_rep me c l v -> handle c i n -> held v !! n = Some d ->
  exists b, bat c i = Ok b /\ bufs c !! i = Some b /\ bdata b = d /\ blockno b = n /\ length d = Z.to_nat BSIZE.
Proof.
  intros Hr Hh Hd. destruct (buf_ok_lookup _ _ _ _ _ _ Hr Hh) as (b & Hb & _ & Hn & _ & Hl & _ & Hm).
  rewrite Hd in Hm. exists b. destruct Hm as (_ & _ & <-).
  split; [by apply bat_Ok|]. done.
Qed.

Lemma size_one (n : Z) (x : list Z) : size (<[n := x]> (∅ : gmap Z (list Z))) = 1%nat.
Proof. rewrite insert_empty. apply map_size_singleton. Qed.

(** Read-only use of a block. *)
Lemma read_block c d ov n :
  crep c d ov -> inside d n -> is_Some (ov !! n) \/ (size ov < NBUF)%nat ->
  exists i c1 b x, bread me c 1 n = Ok (i, c1) /\ bat c1 i = Ok b /\ bdata b = x /\
    settled (Cview d ov ∅) n = Some x /\ length x = Z.to_nat BSIZE /\
    exists c2, brelse me i c1 = Ok c2 /\ crep c2 d ov /\ writes c2 = writes c.
Proof.
  intros [l Hr] Hin Hcap.
  destruct (bread_spec me c l _ n Hr Hin (lookup_empty n)) as (i & c1 & x & H1 & Hset & Hh & Hr1 & Hw1 & _).
  { cbn [over held]. rewrite map_size_empty, Nat.add_0_r. done. }
  destruct (handle_bat c1 l _ i n x Hr1 Hh) as (b & Hb & _ & Hx & _ & Hlen); [by apply lookup_insert_eq|].
  exists i, c1, b, x. split_and!; try done.
  destruct (brelse_spec me c1 l _ i n x Hr1 Hh) as (c2 & l1 & l2 & H2 & _ & Hr2 & Hw2 & _).
  { apply lookup_insert_eq. }
  { exact Hset. }
  exists c2. split; [done|]. split; [|congruence].
  exists (i :: l1 ++ l2). unfold with_held in Hr2. cbn [disk over held] in Hr2.
  by rewrite delete_insert_id in Hr2.
Qed.

(** Writing new data to a block through the cache. *)
Lemma write_block c d ov n data :
  crep c d ov -> inside d n -> is_Some (ov !! n) \/ (size ov < NBUF)%nat ->
  length data = Z.to_nat BSIZE ->
  exists i c1 b, bread me c 1 n = Ok (i, c1) /\ bat c1 i = Ok b /\
    settled (Cview d ov ∅) n = Some (bdata b) /\ length (bdata b) = Z.to_nat BSIZE /\
    exists c2 c3 c4, bupd i (set_data data) c1 = Ok c2 /\ bwrite me i c2 = Ok c3 /\
      brelse me i c3 = Ok c4 /\ crep c4 (<[Z.to_nat n := data]> d) (delete n ov) /\
      writes c4 = writes c ++ [(n, data)].
Proof.
  intros [l Hr] Hin Hcap Hdata.
  destruct (bread_spec me c l _ n Hr Hin (lookup_empty n)) as (i & c1 & x & H1 & Hset & Hh & Hr1 & Hw1 & _).
  { cbn [over held]. rewrite map_size_empty, Nat.add_0_r. done. }
  destruct (handle_bat c1 l _ i n x Hr1 Hh) as (b & Hb & _ & Hx & _ & Hlen); [by apply lookup_insert_eq|].
  exists i, c1, b. rewrite Hx. split_and!; try done.
  destruct (modify_spec me c1 l _ i n x data Hr1 Hh) as (c2 & H2 & Hr2 & Hw2 & Hk2); [apply lookup_insert_eq|done|].
  destruct (bwrite_spec me c2 l _ i n data Hr2) as (c3 & H3 & Hr3 & Hw3 & Hk3); [by apply Hk2|apply lookup_insert_eq|].
  destruct (brelse_spec me c3 l _ i n data Hr3) as (c4 & l1 & l2 & H4 & _ & Hr4 & Hw4 & _).
  { by apply Hk3, Hk2. }
  { apply lookup_insert_eq. }
  { unfold settled. cbn [over disk]. rewrite lookup_delete_eq. apply list_lookup_insert_eq.
    unfold inside in Hin. cbn. lia. }
  exists c2, c3, c4. split_and!; try done; [|congruence].
  exists (i :: l1 ++ l2). unfold with_held in Hr4. cbn [disk over held] in Hr4.
  by rewrite insert_insert_eq, delete_insert_id in Hr4.
Qed.

(** Copying block [src] over block [dst] through two buffers, as the loops of
    the log do; the buffers are released in either order. *)
Lemma copy_block c d ov src dst x (a1 a2 : Z) :
  crep c d ov -> inside d src -> inside d dst -> src <> dst ->
  (a1 = src /\ a2 = dst \/ a1 = dst /\ a2 = src) ->
  (is_Some (ov !! a1) \/ size ov < NBUF)%nat -> (is_Some (ov !! a2) \/ S (size ov) < NBUF)%nat ->
  settled (Cview d ov ∅) src = Some x ->
  exists i1 c1 i2 c2, bread me c 1 a1 = Ok (i1, c1) /\ bread me c1 1 a2 = Ok (i2, c2) /\
    let si := if decide (a1 = src) then i1 else i2 in
    let di := if decide (a1 = src) then i2 else i1 in
    exists b, bat c2 si = Ok b /\
    exists c3 c4 c5 c6, bupd di (set_data (bdata b)) c2 = Ok c3 /\ bwrite me di c3 = Ok c4 /\
      brelse me si c4 = Ok c5 /\ brelse me di c5 = Ok c6 /\
      crep c6 (<[Z.to_nat dst := x]> d) (delete dst ov) /\ writes c6 = writes c ++ [(dst, x)].
Proof.
  intros [l Hr] Hsrc Hdst Hne Ha Hcap1 Hcap2 Hset.
  assert (Hin1 : inside d a1) by (destruct Ha as [[-> _]|[-> _]]; done).
  assert (Hin2 : inside d a2) by (destruct Ha as [[_ ->]|[_ ->]]; done).
  assert (Hne12 : a1 <> a2) by (destruct Ha as [[-> ->]|[-> ->]]; done).
  destruct (bread_spec me c l _ a1 Hr Hin1 (lookup_empty a1)) as (i1 & c1 & x1 & H1 & Hs1 & Hh1 & Hr1 & Hw1 & _).
  { cbn [over held]. rewrite map_size_empty, Nat.add_0_r. done. }
  destruct (bread_spec me c1 l _ a2 Hr1 Hin2) as (i2 & c2 & x2 & H2 & Hs2 & Hh2 & Hr2 & Hw2 & Hk2).
  { cbn [with_held held]. rewrite lookup_insert_ne by done. apply lookup_empty. }
  { cbn [with_held over held]. rewrite size_one. destruct Hcap2; [by left|right; lia]. }
  assert (Hh1' : handle c2 i1 a1).
  { apply Hk2; [|done]. cbn [with_held held]. rewrite lookup_insert_eq. by eexists. }
  exists i1, c1, i2, c2. split; [done|]. split; [done|]. cbv zeta.
  set (si := if decide (a1 = src) then i1 else i2). set (di := if decide (a1 = src) then i2 else i1).
  unfold with_held in Hr2. cbn [disk over held] in Hr2.
  set (h2 := <[a2 := x2]> (<[a1 := x1]> ∅)) in Hr2.
  assert (Hxs : h2 !! src = Some x).
  { unfold h2. destruct Ha as [[-> ->]|[-> ->]].
    - rewrite lookup_insert_ne by done. rewrite lookup_insert_eq. congruence.
    - rewrite lookup_insert_eq. unfold settled in *. cbn [with_held over disk] in *. congruence. }
  assert (Hsi : handle c2 si src).
  { unfold si. destruct Ha as [[-> ->]|[-> ->]]; [by rewrite decide_True|by rewrite decide_False]. }
  assert (Hdi : handle c2 di dst).
  { unfold di. destruct Ha as [[-> ->]|[-> ->]]; [by rewrite decide_True|by rewrite decide_False]. }
  assert (Hxd : exists y, h2 !! dst = Some y).
  { unfold h2. destruct Ha as [[-> ->]|[-> ->]]; [rewrite lookup_insert_eq; by eexists|].
    rewrite lookup_insert_ne by done. rewrite lookup_insert_eq. by eexists. }
  destruct Hxd as [y Hxd].
  destruct (handle_bat c2 l _ si src x Hr2 Hsi Hxs) as (b & Hb & _ & Hbx & _ & Hlen).
  exists b. split; [done|]. rewrite Hbx.
  destruct (modify_spec me c2 l _ di dst y x Hr2 Hdi Hxd Hlen) as (c3 & H3 & Hr3 & Hw3 & Hk3).
  destruct (bwrite_spec me c3 l _ di dst x Hr3) as (c4 & H4 & Hr4 & Hw4 & Hk4); [by apply Hk3|apply lookup_insert_eq|].
  destruct (brelse_spec me c4 l _ si src x Hr4) as (c5 & l1 & l2 & H5 & Hl & Hr5 & Hw5 & Hk5).
  { by apply Hk4, Hk3. }
  { cbn [held with_held]. by rewrite lookup_insert_ne. }
  { unfold settled in Hset |- *. cbn [over disk with_held] in Hset |- *. rewrite lookup_delete_ne by done.
    rewrite list_lookup_insert_ne; [done|]. unfold inside in *. lia. }
  destruct (brelse_spec me c5 _ _ di dst x Hr5) as (c6 & l3 & l4 & H6 & _ & Hr6 & Hw6 & _).
  { by apply Hk5, Hk4, Hk3. }
  { cbn [held with_held]. rewrite lookup_delete_ne by done. apply lookup_insert_eq. }
  { unfold settled. cbn [over disk with_held]. rewrite lookup_delete_eq. apply list_lookup_insert_eq.
    unfold inside in *. lia. }
  exists c3, c4, c5, c6. split_and!; try done; [|congruence].
  eexists. unfold with_held in Hr6. cbn [disk over held] in Hr6.
  replace (delete dst (delete src (<[dst:=x]> h2))) with (∅ : gmap Z (list Z)) in Hr6; [exact Hr6|].
  symmetry. apply map_empty. intros m. unfold h2.
  destruct (decide (m = dst)) as [->|]; [by rewrite lookup_delete_eq|rewrite lookup_delete_ne by done].
  destruct (decide (m = src)) as [->|]; [by rewrite lookup_delete_eq|rewrite lookup_delete_ne by done].
  rewrite lookup_insert_ne by done. destruct Ha as [[-> ->]|[-> ->]]; by rewrite !lookup_insert_ne by done.
Qed.

(** ** The client theorem *)

Definition bop_ok (d : list (list Z)) (o : bop) : Prop :=
  match o with
  | BRead n => inside d n
  | BWrite n data => inside d n /\ length data = Z.to_nat BSIZE
  end.

Lemma bclient_spec s d o :
  crep s d ∅ -> bop_ok d o ->
  exists s', bclient s o = Ok ((disk_step d o).1, s') /\ crep s' (disk_step d o).2 ∅.
Proof.
  intros Hr Ho. assert (Hcap : forall n : Z, is_Some ((∅ : gmap Z (list Z)) !! n) \/ (size (∅ : gmap Z (list Z)) < NBUF)%nat).
  { intros n. right. rewrite map_size_empty. unfold NBUF. lia. }
  destruct o as [n|n data]; cbn [bclient disk_step fst snd].
  - destruct (read_block s d ∅ n Hr Ho (Hcap n)) as (i & c1 & b & x & -> & Hb & Hx & Hset & _ & c2 & H2 & Hr2 & _).
    run. rewrite Hb. run. rewrite H2. run. exists c2.
    unfold settled in Hset. cbn [over disk] in Hset. rewrite lookup_empty in Hset.
    rewrite Hset, Hx. done.
  - destruct Ho as [Hin Hlen].
    destruct (write_block s d ∅ n data Hr Hin (Hcap n) Hlen)
      as (i & c1 & b & -> & _ & _ & _ & c2 & c3 & c4 & H2 & H3 & H4 & Hr4 & _).
    run. rewrite H2. run. rewrite H3. run. rewrite H4. run. exists c4.
    by rewrite delete_empty in Hr4.
Qed.

Lemma bop_ok_length d d' o : length d = length d' -> bop_ok d o -> bop_ok d' o.
Proof. intros H. destruct o; cbn; unfold inside; by rewrite H. Qed.

Lemma bclients_spec os : forall s d,
  crep s d ∅ -> Forall (bop_ok d) os ->
  exists s', bclients s os = Ok ((disk_steps d os).1, s') /\ crep s' (disk_steps d os).2 ∅.
Proof.
  induction os as [|o os IH]; intros s d Hr Hos; cbn [bclients disk_steps]; [by exists s|].
  apply Forall_cons in Hos as [Ho Hos].
  destruct (bclient_spec s d o Hr Ho) as (s1 & -> & Hr1). run.
  destruct (IH s1 (disk_step d o).2 Hr1) as (s2 & H2 & Hr2).
  { eapply Forall_impl; [exact Hos|]. intros o'. apply bop_ok_length.
    destruct o; cbn; [done|]. by rewrite length_insert. }
  rewrite H2. run. destruct (disk_step d o) as [r d1]. cbn [fst snd] in *.
  destruct (disk_steps d1 os) as [rs d2]. by exists s2.
Qed.

(** C23: after [binit], any sequence of reads and writes of blocks through
    [bread], [bwrite] and [brelse] runs without fault and returns what the
    same sequence returns on the bare disk, which the disk then equals; the
    list of buffers stays a permutation of them and no block has two. *)
Theorem bcache_refines_disk d os :
  Forall (fun b => length b = Z.to_nat BSIZE) d -> Forall (bop_ok d) os ->
  exists s0 s, binit (Bio (replicate (S NBUF) buf0) d []) = Ok s0 /\
    bclients s0 os = Ok ((disk_steps d os).1, s) /\ memdisk s = (disk_steps d os).2 /\
    (exists l, linked s l) /\ (forall i j n, handle s i n -> handle s j n -> i = j).
Proof.
  intros Hd Hos. destruct (binit_spec me d Hd) as (s0 & H0 & Hr0 & _).
  destruct (bclients_spec os s0 d) as (s & Hs & l & Hr); [by eexists|done|].
  exists s0, s. split; [exact H0|]. clear H0. split; [exact Hs|]. destruct Hr.
  split; [done|]. split; [by exists l|done].
Qed.

End steps.

(** ** A run *)

Definition blocks40 : list (list Z) := replicate 40 (replicate (Z.to_nat BSIZE) 0).

(** Forty blocks are written in turn, more than there are buffers; the first
    one is read back from the disk. *)
Definition fill_ops : list bop :=
  ((fun k : nat => BWrite (Z.of_nat k) (replicate (Z.to_nat BSIZE) (Z.of_nat k + 1))) <$> seq 0 40) ++ [BRead 0].

Lemma bcache_refines_disk_witness :
  last (disk_steps blocks40 fill_ops).1 = Some (replicate (Z.to_nat BSIZE) 1) /\
  exists s0 s, binit (Bio (replicate (S NBUF) buf0) blocks40 []) = Ok s0 /\
    bclients 7 s0 fill_ops = Ok ((disk_steps blocks40 fill_ops).1, s) /\
    memdisk s = (disk_steps blocks40 fill_ops).2 /\
    (exists l, linked s l) /\ (forall i j n, handle s i n -> handle s j n -> i = j).
Proof.
  split; [vm_compute; reflexivity|]. apply bcache_refines_disk.
  - apply Forall_replicate. reflexivity.
  - apply Forall_app. split; [|repeat constructor; cbn; lia].
    apply Forall_fmap, Forall_forall. intros k Hk. apply elem_of_seq in Hk. cbn [compose bop_ok].
    unfold inside, blocks40. rewrite !length_replicate. split; [lia|reflexivity].
Defined.
