(* ===== verification/Xv6Log.v ===== *)
(** The write-ahead log of the xv6 file system (src/설계 3번/xv6/log.c), on the
    buffer cache of [Xv6Bio].

    A transaction collects modified blocks as dirty buffers ([log_write]);
    [commit] copies them to the log area, writes the header (the commit
    point), installs them and clears the header.  [recover_from_log] installs a
    committed log after a crash.

    A crash keeps a prefix of the disk writes.  Shown: the functional effect
    of transactions, and that after a crash at any point of [commit],
    followed by any number of crashes during recovery, a completed recovery
    leaves either all the updates of the transaction or none of them. *)

From S2P Require Import Prelude Bytes Xv6Bio Xv6Cache.

Definition LOGSIZE : nat := 30.
Definition MAXOPBLOCKS : Z := 10.

(** The header: a count and [LOGSIZE] block numbers. *)
Record logheader := Logheader { hn : Z; hblock : list Z }.

Record log := Log {
  start : Z;
  lsize : Z;
  outstanding : Z;
  committing : Z;
  ldev : Z;
  lh : logheader
}.

Definition set_lh (h : logheader) (g : log) : log :=
  Log (start g) (lsize g) (outstanding g) (committing g) (ldev g) h.
Definition set_outstanding (z : Z) (g : log) : log :=
  Log (start g) (lsize g) z (committing g) (ldev g) (lh g).
Definition set_committing (z : Z) (g : log) : log :=
  Log (start g) (lsize g) (outstanding g) z (ldev g) (lh g).

(** Static storage. *)
Definition log0 : log := Log 0 0 0 0 0 (Logheader 0 (replicate LOGSIZE 0)).

Record lstate := LState { cache : bio; lg : log }.

Section log.
Variable me : Z.

(** [install_trans] from [tail], [k] blocks left. *)
Fixpoint install_loop (k : nat) (tail : Z) (g : log) (c : bio) : res bio :=
  match k with
  | O => Ok c
  | S k' =>
      '(lbuf, c) ← bread me c (ldev g) (start g + tail + 1);
      bn ← aget (hblock (lh g)) tail;
      '(dbuf, c) ← bread me c (ldev g) bn;
      lb ← bat c lbuf;
      c ← bupd dbuf (set_data (bdata lb)) c;
      c ← bwrite me dbuf c;
      c ← brelse me lbuf c;
      c ← brelse me dbuf c;
      install_loop k' (tail + 1) g c
  end.

Definition install_trans (s : lstate) : res lstate :=
  c ← install_loop (Z.to_nat (hn (lh (lg s)))) 0 (lg s) (cache s);
  Ok (LState c (lg s)).

(** [log.lh.block[i] = lh->block[i]] for [k] indices from [i]. *)
Fixpoint load_blocks (k : nat) (i : Z) (data : list Z) (bl : list Z) : res (list Z) :=
  match k with
  | O => Ok bl
  | S k' =>
      w ← buf_load data (4 + 4 * i) 4;
      bl ← aset bl i (get32 w);
      load_blocks k' (i + 1) data bl
  end.

Definition read_head (s : lstate) : res lstate :=
  let g := lg s in
  '(i, c) ← bread me (cache s) (ldev g) (start g);
  b ← bat c i;
  w ← buf_load (bdata b) 0 4;
  let n := get32 w in
  bl ← load_blocks (Z.to_nat n) 0 (bdata b) (hblock (lh g));
  c ← brelse me i c;
  Ok (LState c (set_lh (Logheader n bl) g)).

(** [hb->block[i] = log.lh.block[i]] for [k] indices from [i]. *)
Fixpoint store_blocks (k : nat) (i : Z) (bl : list Z) (data : list Z) : res (list Z) :=
  match k with
  | O => Ok data
  | S k' =>
      x ← aget bl i;
      data ← buf_store data (4 + 4 * i) (le32 x);
      store_blocks k' (i + 1) bl data
  end.

Definition write_head (s : lstate) : res lstate :=
  let g := lg s in
  '(i, c) ← bread me (cache s) (ldev g) (start g);
  b ← bat c i;
  data ← buf_store (bdata b) 0 (le32 (hn (lh g)));
  data ← store_blocks (Z.to_nat (hn (lh g))) 0 (hblock (lh g)) data;
  c ← bupd i (set_data data) c;
  c ← bwrite me i c;
  c ← brelse me i c;
  Ok (LState c g).

Definition clear_log (s : lstate) : lstate :=
  LState (cache s) (set_lh (Logheader 0 (hblock (lh (lg s)))) (lg s)).

Definition recover_from_log (s : lstate) : res lstate :=
  s ← read_head s;
  s ← install_trans s;
  write_head (clear_log s).

(** [readsb] for the two fields [initlog] uses: [nlog] and [logstart] are the
    fourth and fifth words of block 1. *)
Definition readsb_log (c : bio) (dv : Z) : res (Z * Z * bio) :=
  '(i, c) ← bread me c dv 1;
  b ← bat c i;
  w1 ← buf_load (bdata b) 12 4;
  w2 ← buf_load (bdata b) 16 4;
  c ← brelse me i c;
  Ok (get32 w1, get32 w2, c).

Definition initlog (s : lstate) (dv : Z) : res lstate :=
  if 4 + 4 * Z.of_nat LOGSIZE >=? BSIZE then Stuck Panicked
  else
    '(nlog, logstart, c) ← readsb_log (cache s) dv;
    let g := lg s in
    recover_from_log (LState c (Log logstart nlog (outstanding g) (committing g) dv (lh g))).

(** One pass of the loop of [begin_op]: [None] when the caller sleeps. *)
Definition begin_op (g : log) : option log :=
  if negb (committing g =? 0) then None
  else if hn (lh g) + (outstanding g + 1) * MAXOPBLOCKS >? Z.of_nat LOGSIZE then None
  else Some (set_outstanding (outstanding g + 1) g).

(** [write_log] from [tail], [k] blocks left. *)
Fixpoint write_log_loop (k : nat) (tail : Z) (g : log) (c : bio) : res bio :=
  match k with
  | O => Ok c
  | S k' =>
      '(to, c) ← bread me c (ldev g) (start g + tail + 1);
      bn ← aget (hblock (lh g)) tail;
      '(from, c) ← bread me c (ldev g) bn;
      fb ← bat c from;
      c ← bupd to (set_data (bdata fb)) c;
      c ← bwrite me to c;
      c ← brelse me from c;
      c ← brelse me to c;
      write_log_loop k' (tail + 1) g c
  end.

Definition write_log (s : lstate) : res lstate :=
  c ← write_log_loop (Z.to_nat (hn (lh (lg s)))) 0 (lg s) (cache s);
  Ok (LState c (lg s)).

Definition commit (s : lstate) : res lstate :=
  if hn (lh (lg s)) >? 0 then
    s ← write_log s;
    s ← write_head s;
    s ← install_trans s;
    write_head (clear_log s)
  else Ok s.

Definition end_op (s : lstate) : res lstate :=
  let g := set_outstanding (outstanding (lg s) - 1) (lg s) in
  if negb (committing g =? 0) then Stuck Panicked
  else if outstanding g =? 0 then
    s ← commit (LState (cache s) (set_committing 1 g));
    Ok (LState (cache s) (set_committing 0 (lg s)))
  else Ok (LState (cache s) g).

(** The index of [bn] among the first [k] block numbers from [i], or the index
    after them. *)
Fixpoint absorb_index (k : nat) (i : Z) (bl : list Z) (bn : Z) : res Z :=
  match k with
  | O => Ok i
  | S k' => x ← aget bl i; if x =? bn then Ok i else absorb_index k' (i + 1) bl bn
  end.

Definition log_write (i : nat) (s : lstate) : res lstate :=
  let g := lg s in
  let h := lh g in
  if (hn h >=? Z.of_nat LOGSIZE) || (hn h >=? lsize g - 1) then Stuck Panicked
  else if outstanding g <? 1 then Stuck Panicked
  else
    b ← bat (cache s) i;
    j ← absorb_index (Z.to_nat (hn h)) 0 (hblock h) (blockno b);
    bl ← aset (hblock h) j (blockno b);
    let n := if j =? hn h then hn h + 1 else hn h in
    c ← bupd i (set_flags (Z.lor (flags b) B_DIRTY)) (cache s);
    Ok (LState c (set_lh (Logheader n bl) g)).

(** ** A transaction *)

(** The typical use of [log_write] in fs.c: replace the data of a block. *)
Definition update_block (s : lstate) (n : Z) (data : list Z) : res lstate :=
  '(i, c) ← bread me (cache s) 1 n;
  c ← bupd i (set_data data) c;
  s ← log_write i (LState c (lg s));
  c ← brelse me i (cache s);
  Ok (LState c (lg s)).

Fixpoint updates (s : lstate) (us : list (Z * list Z)) : res lstate :=
  match us with
  | [] => Ok s
  | (n, d) :: us => s ← update_block s n d; updates s us
  end.

(** Booting on a disk: [binit] and [initlog]. *)
Definition boot (d : list (list Z)) : res lstate :=
  c ← binit (Bio (replicate (S NBUF) buf0) d []);
  initlog (LState c log0) 1.

End log.

(** The disk after the writes [ws]. *)
Definition apply_writes (d : list (list Z)) (ws : list (Z * list Z)) : list (list Z) :=
  foldl (fun d w => <[Z.to_nat w.1 := w.2]> d) d ws.

(** ** Steps on the specification of the cache *)

Section proofs.
Context (me : Z).

#[local] Abbreviation crep := (crep me).

(** ** The loops *)

Definition drop_all (ps : list (Z * list Z)) (ov : gmap Z (list Z)) : gmap Z (list Z) :=
  foldl (fun m p => delete p.1 m) ov ps.

Lemma length_apply_writes d ws : length (apply_writes d ws) = length d.
Proof.
  revert d. induction ws as [|w ws IH]; intros d; [done|]. cbn. unfold apply_writes in IH.
  by rewrite IH, length_insert.
Qed.

Lemma apply_writes_other d ws n :
  0 <= n -> (forall p, p ∈ ws -> 0 <= p.1 /\ p.1 <> n) ->
  apply_writes d ws !! Z.to_nat n = d !! Z.to_nat n.
Proof.
  intros Hn. revert d. induction ws as [|w ws IH]; intros d H; [done|].
  cbn. unfold apply_writes in IH. rewrite IH by (intros; apply H; by right).
  apply list_lookup_insert_ne. destruct (H w) as [? ?]; [by left|]. lia.
Qed.

Lemma apply_writes_app d ws1 ws2 : apply_writes d (ws1 ++ ws2) = apply_writes (apply_writes d ws1) ws2.
Proof. apply foldl_app. Qed.

(** What [install_trans] finds: the block numbers of [ps] in the header from
    index [tail], their contents in the log area, outside of which they lie. *)
Definition staged (g : log) (d : list (list Z)) (tail : Z) (ps : list (Z * list Z)) : Prop :=
  ldev g = 1 /\ 0 <= tail /\ 0 <= start g /\
  forall (j : nat) n x, ps !! j = Some (n, x) ->
    hblock (lh g) !! (Z.to_nat tail + j)%nat = Some n /\ inside d n /\
    inside d (start g + tail + Z.of_nat j + 1) /\
    d !! Z.to_nat (start g + tail + Z.of_nat j + 1) = Some x /\
    forall k : nat, (k < length ps)%nat -> n <> start g + tail + Z.of_nat k + 1.

Lemma staged_tail g d tail n x ps :
  staged g d tail ((n, x) :: ps) -> staged g (<[Z.to_nat n := x]> d) (tail + 1) ps.
Proof.
  intros (Hdev & Ht & Hs & H). split_and!; [done|lia|done|].
  destruct (H 0%nat n x eq_refl) as (_ & Hin & _ & _ & Hdis).
  intros j m y Hj. destruct (H (S j) m y Hj) as (H1 & H2 & H3 & H4 & H5).
  unfold inside in *. rewrite !length_insert.
  replace (start g + (tail + 1) + Z.of_nat j + 1) with (start g + tail + Z.of_nat (S j) + 1) by lia.
  split_and!; try lia.
  - rewrite <- H1. f_equal. lia.
  - rewrite list_lookup_insert_ne; [done|]. pose proof (lookup_lt_Some _ _ _ Hj).
    pose proof (Hdis (S j) ltac:(cbn [length]; lia)). lia.
  - intros k Hk. pose proof (H5 (S k) ltac:(cbn [length]; lia)). lia.
Qed.

Lemma size_delete_le (ov : gmap Z (list Z)) n : (size (delete n ov) <= size ov)%nat.
Proof. apply map_subseteq_size, delete_subseteq. Qed.

Lemma install_loop_spec g ps : forall tail c d ov,
  crep c d ov -> staged g d tail ps ->
  (forall j : nat, (j < length ps)%nat -> ov !! (start g + tail + Z.of_nat j + 1) = None) ->
  (size ov < NBUF)%nat ->
  (NoDup ps.*1 /\ forall n, n ∈ ps.*1 -> is_Some (ov !! n)) \/ (S (size ov) < NBUF)%nat ->
  exists c', install_loop me (length ps) tail g c = Ok c' /\
    crep c' (apply_writes d ps) (drop_all ps ov) /\ writes c' = writes c ++ ps.
Proof.
  induction ps as [|[n x] ps IH]; intros tail c d ov Hr Hst Hclean Hsz Hpin; cbn [length install_loop].
  { exists c. by rewrite app_nil_r. }
  destruct Hst as (Hdev & Ht & Hs & H) eqn:Hst'. clear Hst'.
  destruct (H 0%nat n x eq_refl) as (Hhb & Hin & Hlin & Hx & Hdis).
  rewrite Nat.add_0_r in Hhb. rewrite Z.add_0_r in Hlin, Hx.
  pose proof (Hclean 0%nat ltac:(cbn [length]; lia)) as Hc0. rewrite Z.add_0_r in Hc0.
  pose proof (Hdis 0%nat ltac:(cbn [length]; lia)) as Hd0. rewrite Z.add_0_r in Hd0.
  rewrite Hdev.
  destruct (copy_block me c d ov (start g + tail + 1) n x (start g + tail + 1) n)
    as (i1 & c1 & i2 & c2 & H1 & H2 & Hrest); try done; [by left|by right| | |].
  { destruct Hpin as [[_ Hp]|Hp]; [left; apply Hp; left|by right]. }
  { unfold settled. cbn [over disk]. by rewrite Hc0. }
  cbv zeta in Hrest. rewrite !decide_True in Hrest by done.
  destruct Hrest as (b & Hb & c3 & c4 & c5 & c6 & H3 & H4 & H5 & H6 & Hr6 & Hw6).
  rewrite H1. run. rewrite (proj2 (aget_Ok _ _ n)) by done. run. rewrite H2. run. rewrite Hb. run.
  rewrite H3. run. rewrite H4. run. rewrite H5. run. rewrite H6. run.
  destruct (IH (tail + 1) c6 (<[Z.to_nat n := x]> d) (delete n ov) Hr6) as (c' & Hc' & Hr' & Hw').
  - by apply staged_tail.
  - intros j Hj. specialize (Hclean (S j) ltac:(cbn [length]; lia)).
    replace (start g + (tail + 1) + Z.of_nat j + 1) with (start g + tail + Z.of_nat (S j) + 1) by lia.
    destruct (decide (n = start g + tail + Z.of_nat (S j) + 1)) as [<-|]; [by apply lookup_delete_eq|].
    by rewrite lookup_delete_ne.
  - pose proof (size_delete_le ov n). lia.
  - destruct Hpin as [[Hnd Hp]|Hp].
    + left. cbn in Hnd. apply NoDup_cons in Hnd as [Hn Hnd]. split; [done|].
      intros m Hm. rewrite lookup_delete_ne by set_solver. apply Hp. cbn. by right.
    + right. pose proof (size_delete_le ov n). lia.
  - exists c'. split; [done|]. split; [exact Hr'|]. by rewrite Hw', Hw6, <- app_assoc.
Qed.

(** The writes of [write_log]. *)
Fixpoint log_writes (st tail : Z) (ps : list (Z * list Z)) : list (Z * list Z) :=
  match ps with
  | [] => []
  | p :: ps => (st + tail + 1, p.2) :: log_writes st (tail + 1) ps
  end.

Lemma log_writes_elem st tail ps p :
  p ∈ log_writes st tail ps -> st + tail + 1 <= p.1 < st + tail + 1 + Z.of_nat (length ps).
Proof.
  revert tail. induction ps as [|q ps IH]; intros tail H; cbn in H; [by apply elem_of_nil in H|].
  apply elem_of_cons in H as [->|H]; cbn [fst length]; [lia|]. apply IH in H. lia.
Qed.

Lemma write_log_loop_spec g ps : forall tail c d ov,
  crep c d ov -> ldev g = 1 -> 0 <= tail -> 0 <= start g ->
  (forall (j : nat) n x, ps !! j = Some (n, x) ->
    hblock (lh g) !! (Z.to_nat tail + j)%nat = Some n /\ inside d n /\ ov !! n = Some x) ->
  (forall j : nat, (j < length ps)%nat ->
     inside d (start g + tail + Z.of_nat j + 1) /\ ov !! (start g + tail + Z.of_nat j + 1) = None) ->
  (size ov < NBUF)%nat ->
  exists c', write_log_loop me (length ps) tail g c = Ok c' /\
    crep c' (apply_writes d (log_writes (start g) tail ps)) ov /\
    writes c' = writes c ++ log_writes (start g) tail ps.
Proof.
  induction ps as [|[n x] ps IH]; intros tail c d ov Hr Hdev Ht Hs H Hlog Hsz; cbn [length write_log_loop log_writes].
  { exists c. by rewrite app_nil_r. }
  destruct (H 0%nat n x eq_refl) as (Hhb & Hin & Hx). rewrite Nat.add_0_r in Hhb.
  destruct (Hlog 0%nat ltac:(cbn [length]; lia)) as [Hlin Hc0]. rewrite Z.add_0_r in Hlin, Hc0.
  rewrite Hdev.
  destruct (copy_block me c d ov n (start g + tail + 1) x (start g + tail + 1) n)
    as (i1 & c1 & i2 & c2 & H1 & H2 & Hrest); try done; [congruence|by right|by right|left; by eexists| |].
  { unfold settled. cbn [over]. by rewrite Hx. }
  cbv zeta in Hrest. rewrite !decide_False in Hrest by congruence.
  destruct Hrest as (b & Hb & c3 & c4 & c5 & c6 & H3 & H4 & H5 & H6 & Hr6 & Hw6).
  rewrite H1. run. rewrite (proj2 (aget_Ok _ _ n)) by done. run. rewrite H2. run. rewrite Hb. run.
  rewrite H3. run. rewrite H4. run. rewrite H5. run. rewrite H6. run.
  rewrite delete_id in Hr6 by done.
  destruct (IH (tail + 1) c6 (<[Z.to_nat (start g + tail + 1) := x]> d) ov Hr6) as (c' & Hc' & Hr' & Hw');
    try done; try lia.
  - intros j m y Hj. destruct (H (S j) m y Hj) as (E1 & E2 & E3). unfold inside in *. rewrite length_insert.
    split_and!; try done; try lia. rewrite <- E1. f_equal. lia.
  - intros j Hj. destruct (Hlog (S j) ltac:(cbn [length]; lia)) as [E1 E2]. unfold inside in *. rewrite length_insert.
    replace (start g + (tail + 1) + Z.of_nat j + 1) with (start g + tail + Z.of_nat (S j) + 1) by lia. done.
  - exists c'. split; [done|]. split; [exact Hr'|]. by rewrite Hw', Hw6, <- app_assoc.
Qed.

(** ** The header block *)

Definition word_at (data : list Z) (o : nat) : Z := get32 (take 4 (drop o data)).

(** The block holds the count and the numbers [bl]. *)
Definition header_is (data : list Z) (bl : list Z) : Prop :=
  length data = Z.to_nat BSIZE /\ word_at data 0 = Z.of_nat (length bl) /\
  forall (j : nat) x, bl !! j = Some x -> word_at data (4 + 4 * j) = x.

Lemma buf_store_splice buf o bs :
  0 <= o -> o + Z.of_nat (length bs) <= Z.of_nat (length buf) ->
  buf_store buf o bs = Ok (splice (Z.to_nat o) bs buf).
Proof. apply buf_store_Ok. Qed.

Lemma word_at_splice_same buf o x :
  (o + 4 <= length buf)%nat -> in_s32 x -> word_at (splice o (le32 x) buf) o = x.
Proof.
  intros Hl Hx. unfold word_at. change 4%nat with (length (le32 x)) at 1.
  rewrite splice_same by lia. rewrite <- (app_nil_r (le32 x)). by apply get32_le32.
Qed.

Lemma word_at_splice_other buf o o' x :
  (o + 4 <= length buf)%nat -> (o' + 4 <= o \/ o + 4 <= o')%nat ->
  word_at (splice o (le32 x) buf) o' = word_at buf o'.
Proof. intros Hl Hd. unfold word_at. by rewrite splice_other. Qed.

Lemma store_blocks_spec hb rs : forall (i : nat) data,
  length data = Z.to_nat BSIZE -> (i + length rs <= LOGSIZE)%nat ->
  (forall (j : nat) x, rs !! j = Some x -> hb !! (i + j)%nat = Some x /\ in_s32 x) ->
  exists data', store_blocks (length rs) (Z.of_nat i) hb data = Ok data' /\
    length data' = Z.to_nat BSIZE /\
    (forall o, (o + 4 <= 4 + 4 * i)%nat -> word_at data' o = word_at data o) /\
    (forall (j : nat) x, rs !! j = Some x -> word_at data' (4 + 4 * (i + j)) = x).
Proof.
  induction rs as [|x rs IH]; intros i data Hl Hi H; cbn [length store_blocks].
  { exists data. split_and!; try done. }
  assert (HB : Z.to_nat BSIZE = 512%nat) by done. assert (HL : LOGSIZE = 30%nat) by done.
  cbn [length] in Hi. destruct (H 0%nat x eq_refl) as [Hx Hs]. rewrite Nat.add_0_r in Hx.
  rewrite (aget_nat _ _ _ Hx). run. rewrite buf_store_splice by (rewrite ?length_le32; lia). run.
  replace (Z.to_nat (4 + 4 * Z.of_nat i)) with (4 + 4 * i)%nat by lia.
  replace (Z.of_nat i + 1) with (Z.of_nat (S i)) by lia.
  destruct (IH (S i) (splice (4 + 4 * i) (le32 x) data)) as (data' & Hd' & Hl' & Hlow & Hrs).
  - rewrite length_splice; [done|rewrite length_le32; lia].
  - lia.
  - intros j y Hj. destruct (H (S j) y Hj) as [E ?]. split; [|done]. rewrite <- E. f_equal. lia.
  - exists data'. split_and!; try done.
    + intros o Ho. rewrite Hlow by lia. apply word_at_splice_other; lia.
    + intros [|j] y Hj.
      * cbn in Hj. simplify_eq. rewrite Nat.add_0_r, Hlow by lia. apply word_at_splice_same; [lia|done].
      * replace (4 + 4 * (i + S j))%nat with (4 + 4 * (S i + j))%nat by lia. by apply Hrs.
Qed.

(** [write_head]. *)
Lemma write_head_spec s d ov bl :
  crep (cache s) d ov -> ldev (lg s) = 1 -> inside d (start (lg s)) -> ov !! start (lg s) = None ->
  (size ov < NBUF)%nat -> hn (lh (lg s)) = Z.of_nat (length bl) -> (length bl <= LOGSIZE)%nat ->
  (forall (j : nat) x, bl !! j = Some x -> hblock (lh (lg s)) !! j = Some x /\ in_s32 x) ->
  exists s' data, write_head me s = Ok s' /\ lg s' = lg s /\ header_is data bl /\
    crep (cache s') (<[Z.to_nat (start (lg s)) := data]> d) ov /\
    writes (cache s') = writes (cache s) ++ [(start (lg s), data)].
Proof.
  intros Hr Hdev Hin Hclean Hsz Hn Hlen Hbl. unfold write_head. rewrite Hdev.
  assert (HB : Z.to_nat BSIZE = 512%nat) by done. assert (HL : LOGSIZE = 30%nat) by done.
  destruct (read_block me _ _ _ _ Hr Hin (or_intror Hsz)) as (i & c1 & b & x & H1 & Hb & Hbx & _ & Hlx & _).
  rewrite H1. run. rewrite Hb. run. rewrite Hbx, Hn, Nat2Z.id.
  rewrite buf_store_splice by (rewrite ?length_le32; lia). run. change (Z.to_nat 0) with 0%nat.
  destruct (store_blocks_spec (hblock (lh (lg s))) bl 0 (splice 0 (le32 (Z.of_nat (length bl))) x))
    as (data & Hd & Hld & Hlow & Hrs); [|lia|done|].
  { rewrite length_splice; [done|rewrite length_le32; lia]. }
  change (Z.of_nat 0) with 0 in Hd. rewrite Hd. run.
  destruct (write_block me _ _ _ _ data Hr Hin (or_intror Hsz) Hld)
    as (i' & c1' & b' & H1' & _ & _ & _ & c2 & c3 & c4 & H2 & H3 & H4 & Hr4 & Hw4).
  rewrite H1 in H1'. simplify_eq. rewrite H2. run. rewrite H3. run. rewrite H4. run.
  eexists _, data. split; [reflexivity|]. split; [done|]. split; [|split].
  - split; [done|]. split; [|done]. rewrite Hlow by lia. apply word_at_splice_same; [lia|].
    apply in_s32_small. lia.
  - cbn [cache]. by rewrite delete_id in Hr4.
  - done.
Qed.

Lemma load_blocks_spec data rs : forall (i : nat) hb,
  length data = Z.to_nat BSIZE -> length hb = LOGSIZE -> (i + length rs <= LOGSIZE)%nat ->
  (forall (j : nat) x, rs !! j = Some x -> word_at data (4 + 4 * (i + j)) = x) ->
  exists hb', load_blocks (length rs) (Z.of_nat i) data hb = Ok hb' /\ length hb' = LOGSIZE /\
    (forall j : nat, (j < i)%nat -> hb' !! j = hb !! j) /\
    (forall (j : nat) x, rs !! j = Some x -> hb' !! (i + j)%nat = Some x).
Proof.
  induction rs as [|x rs IH]; intros i hb Hl Hh Hi H; cbn [length load_blocks].
  { exists hb. split_and!; done. }
  assert (HB : Z.to_nat BSIZE = 512%nat) by done. assert (HL : LOGSIZE = 30%nat) by done.
  cbn [length] in Hi. pose proof (H 0%nat x eq_refl) as Hx. rewrite Nat.add_0_r in Hx.
  rewrite buf_load_Ok by lia. run. rewrite aset_nat by lia. run.
  replace (Z.to_nat (4 + 4 * Z.of_nat i)) with (4 + 4 * i)%nat by lia.
  change (Z.to_nat 4) with 4%nat. fold (word_at data (4 + 4 * i)). rewrite Hx.
  replace (Z.of_nat i + 1) with (Z.of_nat (S i)) by lia.
  destruct (IH (S i) (<[i := x]> hb)) as (hb' & Hd' & Hl' & Hlow & Hrs).
  - done.
  - by rewrite length_insert.
  - lia.
  - intros j y Hj. rewrite <- (H (S j) y Hj). f_equal. lia.
  - exists hb'. split_and!; try done.
    + intros j Hj. rewrite Hlow by lia. apply list_lookup_insert_ne. lia.
    + intros [|j] y Hj.
      * cbn in Hj. simplify_eq. rewrite Nat.add_0_r, Hlow by lia. apply list_lookup_insert_eq. lia.
      * replace (i + S j)%nat with (S i + j)%nat by lia. by apply Hrs.
Qed.

(** [read_head]. *)
Lemma read_head_spec s d ov bl data :
  crep (cache s) d ov -> ldev (lg s) = 1 -> inside d (start (lg s)) -> ov !! start (lg s) = None ->
  (size ov < NBUF)%nat -> length (hblock (lh (lg s))) = LOGSIZE ->
  d !! Z.to_nat (start (lg s)) = Some data -> header_is data bl -> (length bl <= LOGSIZE)%nat ->
  exists s' hb, read_head me s = Ok s' /\ lg s' = set_lh (Logheader (Z.of_nat (length bl)) hb) (lg s) /\
    length hb = LOGSIZE /\ (forall (j : nat) x, bl !! j = Some x -> hb !! j = Some x) /\
    crep (cache s') d ov /\ writes (cache s') = writes (cache s).
Proof.
  intros Hr Hdev Hin Hclean Hsz Hlhb Hdata (Hld & Hcount & Hwords) Hlen. unfold read_head. rewrite Hdev.
  assert (HB : Z.to_nat BSIZE = 512%nat) by done.
  destruct (read_block me _ _ _ _ Hr Hin (or_intror Hsz)) as (i & c1 & b & x & H1 & Hb & Hbx & Hset & Hlx & c2 & H2 & Hr2 & Hw2).
  unfold settled in Hset. cbn [over disk] in Hset. rewrite Hclean, Hdata in Hset. simplify_eq.
  rewrite H1. run. rewrite Hb. run. rewrite buf_load_Ok by lia. run. change (Z.to_nat 0) with 0%nat.
  change (Z.to_nat 4) with 4%nat. fold (word_at (bdata b) 0). rewrite Hcount, Nat2Z.id.
  destruct (load_blocks_spec (bdata b) bl 0 (hblock (lh (lg s)))) as (hb & Hd' & Hlhb' & _ & Hrs); try done.
  change (Z.of_nat 0) with 0 in Hd'. rewrite Hd'. run. rewrite H2. run.
  eexists _, hb. split; [reflexivity|]. split_and!; try done.
Qed.

(** ** Disks *)

Context (st sz : Z).

(** A file-system disk: the superblock gives the place of the log. *)
Record layout (d : list (list Z)) : Prop := Layout {
  y_size : Forall (fun b => length b = Z.to_nat BSIZE) d;
  y_len : Z.of_nat (length d) < 2 ^ 31;
  y_start : 2 <= st;
  y_log : 1 <= sz <= Z.of_nat LOGSIZE;
  y_fits : st + sz <= Z.of_nat (length d);
  y_super : exists b, d !! 1%nat = Some b /\ word_at b 12 = sz /\ word_at b 16 = st
}.

(** The blocks transactions write: neither the superblock nor the log. *)
Definition home (d : list (list Z)) (n : Z) : Prop :=
  inside d n /\ n <> 1 /\ ~ (st <= n < st + sz).

(** The log on the disk holds the updates [ps]. *)
Definition pending (ps : list (Z * list Z)) (d : list (list Z)) : Prop :=
  layout d /\ Z.of_nat (length ps) < sz /\
  (exists data, d !! Z.to_nat st = Some data /\ header_is data ps.*1) /\
  forall (j : nat) n x, ps !! j = Some (n, x) -> home d n /\ d !! Z.to_nat (st + Z.of_nat j + 1) = Some x.

Definition same_home (d d' : list (list Z)) : Prop :=
  length d = length d' /\ forall n, home d n -> d !! Z.to_nat n = d' !! Z.to_nat n.

Lemma home_length d d' n : length d = length d' -> home d n <-> home d' n.
Proof. intros H. unfold home, inside. by rewrite H. Qed.

#[global] Instance same_home_equiv : Equivalence same_home.
Proof.
  split.
  - intros d. by split.
  - intros d d' [Hl H]. split; [done|]. intros n Hn. symmetry. apply H. by apply (home_length d d').
  - intros d1 d2 d3 [Hl1 H1] [Hl2 H2]. split; [congruence|].
    intros n Hn. rewrite H1 by done. apply H2. by apply (home_length d1 d2).
Qed.

Lemma staged_of_pending ps d g :
  pending ps d -> ldev g = 1 -> start g = st ->
  (forall (j : nat) x, ps.*1 !! j = Some x -> hblock (lh g) !! j = Some x) ->
  staged g d 0 ps.
Proof.
  intros (Hy & Hlen & _ & Hps) Hdev Hst Hhb. destruct Hy. split_and!; [done|done|lia|].
  intros j n x Hj. destruct (Hps j n x Hj) as [(Hin & _ & Hout) Hx]. pose proof (lookup_lt_Some _ _ _ Hj).
  rewrite Hst, Z.add_0_r. split_and!.
  - change (Z.to_nat 0 + j)%nat with j. apply Hhb. by rewrite list_lookup_fmap, Hj.
  - done.
  - unfold inside. lia.
  - done.
  - intros k Hk. lia.
Qed.

(** [recover_from_log] on a disk whose log holds [ps]. *)
Lemma recover_spec s ps d :
  pending ps d -> crep (cache s) d ∅ -> ldev (lg s) = 1 -> start (lg s) = st ->
  length (hblock (lh (lg s))) = LOGSIZE ->
  exists s' data hb, recover_from_log me s = Ok s' /\ header_is data [] /\
    crep (cache s') (<[Z.to_nat st := data]> (apply_writes d ps)) ∅ /\
    writes (cache s') = writes (cache s) ++ ps ++ [(st, data)] /\
    lg s' = set_lh (Logheader 0 hb) (lg s) /\ length hb = LOGSIZE.
Proof.
  intros Hp Hr Hdev Hst Hhb. pose proof Hp as (Hy & Hlen & (data & Hdata & Hhead) & _). pose proof Hy as [].
  assert (Hnb : (0 < NBUF)%nat) by (unfold NBUF; lia).
  assert (Hin : inside d (start (lg s))) by (unfold inside; rewrite Hst; lia).
  unfold recover_from_log.
  destruct (read_head_spec s d ∅ ps.*1 data Hr Hdev Hin) as (s1 & hb & H1 & Hlg1 & Hl1 & Hhb1 & Hr1 & Hw1);
    try done; [by rewrite Hst|rewrite length_fmap; lia|].
  rewrite H1. run. unfold install_trans.
  assert (Hn : hn (lh (lg s1)) = Z.of_nat (length ps)) by (rewrite Hlg1; cbn [set_lh lh hn]; by rewrite length_fmap).
  rewrite Hn, Nat2Z.id.
  destruct (install_loop_spec (lg s1) ps 0 (cache s1) d ∅ Hr1) as (c2 & H2 & Hr2 & Hw2); try done.
  { apply staged_of_pending; rewrite ?Hlg1; done. }
  { right. rewrite map_size_empty. unfold NBUF. lia. }
  rewrite H2. run.
  assert (Hdrop : drop_all ps ∅ = (∅ : gmap Z (list Z))).
  { unfold drop_all. clear. induction ps as [|p ps IH]; [done|]. cbn [foldl]. by rewrite delete_empty. }
  rewrite Hdrop in Hr2.
  destruct (write_head_spec (clear_log (LState c2 (lg s1))) (apply_writes d ps) ∅ []) as (s3 & data3 & H3 & Hlg3 & Hh3 & Hr3 & Hw3);
    try done.
  { cbn [clear_log lg set_lh ldev]. by rewrite Hlg1. }
  { cbn [clear_log lg set_lh start]. rewrite Hlg1. unfold inside. by rewrite length_apply_writes. }
  { cbn [length]. lia. }
  cbn [clear_log lg cache set_lh start] in Hr3, Hw3, Hlg3. rewrite Hlg1 in Hr3, Hw3, Hlg3.
  cbn [set_lh start] in Hr3, Hw3. rewrite Hst in Hr3, Hw3.
  exists s3, data3, hb. split; [done|]. split; [done|]. split; [done|]. split; [|done].
  by rewrite Hw3, Hw2, Hw1, <- app_assoc.
Qed.

Lemma pending_boot ps d :
  pending ps d ->
  exists s data hb, boot me d = Ok s /\ header_is data [] /\
    crep (cache s) (<[Z.to_nat st := data]> (apply_writes d ps)) ∅ /\
    writes (cache s) = ps ++ [(st, data)] /\
    lg s = Log st sz 0 0 1 (Logheader 0 hb) /\ length hb = LOGSIZE.
Proof.
  intros Hp. pose proof Hp as (Hy & _). pose proof Hy as []. unfold boot.
  destruct (binit_spec me d) as (c0 & H0 & Hr0 & Hw0); [done|]. rewrite H0. run. clear H0.
  assert (Hr : crep c0 d ∅) by (by eexists). unfold initlog.
  change (4 + 4 * Z.of_nat LOGSIZE >=? BSIZE) with false. cbv iota. unfold readsb_log. cbn [cache].
  destruct (read_block me c0 d ∅ 1 Hr) as (i & c1 & b & x & H1 & Hb & Hbx & Hset & Hlx & c2 & H2 & Hr2 & Hw2).
  { unfold inside. lia. }
  { right. rewrite map_size_empty. unfold NBUF. lia. }
  rewrite H1. run. rewrite Hb. run. assert (HB : Z.to_nat BSIZE = 512%nat) by done.
  rewrite Hbx, !buf_load_Ok by lia. run. rewrite H2. run.
  unfold settled in Hset. cbn [over disk] in Hset. rewrite lookup_empty in Hset.
  destruct y_super0 as (sb & Hsb & Hsz & Hst). change (Z.to_nat 1) with 1%nat in Hset. rewrite Hsb in Hset. injection Hset as <-.
  change (get32 (take (Z.to_nat 4) (drop (Z.to_nat 12) sb))) with (word_at sb 12).
  change (get32 (take (Z.to_nat 4) (drop (Z.to_nat 16) sb))) with (word_at sb 16).
  rewrite Hsz, Hst. cbn [log0 lg outstanding committing lh].
  destruct (recover_spec (LState c2 (Log st sz 0 0 1 (Logheader 0 (replicate LOGSIZE 0)))) ps d)
    as (s & data & hb & Hs & Hh & Hrs & Hws & Hlg & Hlhb);
    [exact Hp|exact Hr2|reflexivity..|].
  exists s, data, hb. split; [done|]. split; [done|]. split; [done|]. split; [|done].
  rewrite Hws. cbn [cache]. by rewrite Hw2, Hw0.
Qed.

(** ** Crashes *)

Definition good_writes (d : list (list Z)) (ws : list (Z * list Z)) : Prop :=
  forall p, p ∈ ws -> 0 <= p.1 /\ p.1 <> 1 /\ length p.2 = Z.to_nat BSIZE.

Lemma layout_writes d ws : layout d -> good_writes d ws -> layout (apply_writes d ws).
Proof.
  intros [] Hg. constructor; try rewrite length_apply_writes; try done.
  - clear -y_size0 Hg. revert d y_size0 Hg. induction ws as [|w ws IH]; intros d Hd Hg; [done|].
    apply (IH (<[Z.to_nat w.1 := w.2]> d)).
    + apply Forall_insert; [done|]. apply Hg. by left.
    + intros p Hp. apply Hg. by right.
  - destruct y_super0 as (b & Hb & ?). exists b. split; [|done]. rewrite <- Hb.
    apply (apply_writes_other d ws 1); [lia|]. intros p Hp. by destruct (Hg p Hp) as (? & ? & ?).
Qed.

Lemma layout_insert d n x :
  layout d -> 0 <= n -> n <> 1 -> length x = Z.to_nat BSIZE -> layout (<[Z.to_nat n := x]> d).
Proof.
  intros Hy Hn Hn1 Hx. apply (layout_writes d [(n, x)] Hy).
  intros p Hp. apply list_elem_of_singleton in Hp as ->. done.
Qed.

Lemma pending_home ps d p : pending ps d -> p ∈ ps -> home d p.1.
Proof.
  intros (_ & _ & _ & H) Hp. apply list_elem_of_lookup in Hp as [j Hj]. destruct p as [n x].
  by destruct (H j n x Hj).
Qed.

Lemma pending_good ps d : pending ps d -> good_writes d ps.
Proof.
  intros Hp p Hin. destruct (pending_home _ _ _ Hp Hin) as ((? & _) & ? & _).
  split_and!; try done. apply list_elem_of_lookup in Hin as [j Hj]. destruct p as [n x].
  destruct Hp as (Hy & _ & _ & Hps). destruct (Hps j n x Hj) as [_ Hx].
  exact (proj1 (Forall_lookup _ _) (y_size _ Hy) _ _ Hx).
Qed.

Lemma subset_writes ps ws d :
  pending ps d -> (forall p, p ∈ ws -> p ∈ ps) -> pending ps (apply_writes d ws).
Proof.
  intros Hp Hsub. pose proof Hp as (Hy & Hlen & (data & Hd & Hh) & Hps). pose proof Hy as [].
  assert (Hother : forall m, 0 <= m -> ~ home d m -> apply_writes d ws !! Z.to_nat m = d !! Z.to_nat m).
  { intros m Hm Hnh. apply apply_writes_other; [done|]. intros p Hin.
    pose proof (pending_home _ _ _ Hp (Hsub p Hin)) as Hph. split; [apply Hph|congruence]. }
  split; [|split; [done|split]].
  - apply layout_writes; [done|]. intros p Hin. apply (pending_good _ _ Hp). by apply Hsub.
  - exists data. split; [|done]. rewrite Hother; [done|lia|]. unfold home. lia.
  - intros j n x Hj. destruct (Hps j n x Hj) as [Hhome Hx]. pose proof (lookup_lt_Some _ _ _ Hj).
    split; [by apply (home_length d); [rewrite length_apply_writes|]|].
    rewrite Hother; [done|lia|]. unfold home. lia.
Qed.

(** Redoing writes does not depend on what was at those places. *)
Lemma apply_writes_agree ps : forall d d',
  length d = length d' -> (forall i : nat, i ∉ ((fun p => Z.to_nat p.1) <$> ps) -> d !! i = d' !! i) ->
  apply_writes d ps = apply_writes d' ps.
Proof.
  induction ps as [|[n x] ps IH]; intros d d' Hl H.
  - apply list_eq. intros i. apply H. apply not_elem_of_nil.
  - apply (IH (<[Z.to_nat n := x]> d) (<[Z.to_nat n := x]> d')); [by rewrite !length_insert|].
    intros i Hi. destruct (decide (i = Z.to_nat n)) as [->|Hne].
    + destruct (decide (Z.to_nat n < length d)%nat).
      * rewrite !list_lookup_insert_eq by congruence. done.
      * rewrite !list_insert_ge by lia. rewrite !lookup_ge_None_2 by lia. done.
    + rewrite !list_lookup_insert_ne by done. apply H. cbn. set_solver.
Qed.

Lemma apply_writes_redo ps ws d :
  (forall p, p ∈ ws -> p ∈ ps) -> apply_writes (apply_writes d ws) ps = apply_writes d ps.
Proof.
  intros Hsub. apply apply_writes_agree; [apply length_apply_writes|].
  intros i Hi. revert d. induction ws as [|w ws IH]; intros d; [done|].
  cbn. unfold apply_writes in IH. rewrite IH by (intros; apply Hsub; by right).
  apply list_lookup_insert_ne. intros <-. apply Hi. apply list_elem_of_fmap. exists w.
  split; [done|]. apply Hsub. by left.
Qed.

Lemma insert_start_home d data : layout d -> same_home (<[Z.to_nat st := data]> d) d.
Proof.
  intros []. split; [by rewrite length_insert|]. intros n (Hin & _ & Hout).
  rewrite list_lookup_insert_ne; [done|]. unfold inside in Hin. lia.
Qed.

Lemma pending_nil d data : layout d -> header_is data [] -> pending [] (<[Z.to_nat st := data]> d).
Proof.
  intros Hy Hh. pose proof Hy as []. split; [|split; [|split]].
  - apply layout_insert; try lia; [done|]. apply Hh.
  - cbn. lia.
  - exists data. split; [|done]. apply list_lookup_insert_eq. lia.
  - intros j n x Hj. by rewrite lookup_nil in Hj.
Qed.

(** The disk after an interrupted recovery. *)
Definition interrupted (d d' : list (list Z)) : Prop :=
  exists s k, boot me d = Ok s /\ d' = apply_writes d (take k (writes (cache s))).

(** [d] recovers to [goal] on the blocks of files. *)
Definition recovers_to (goal d : list (list Z)) : Prop :=
  exists ps, pending ps d /\ same_home (apply_writes d ps) goal.

Lemma take_app_one (ws : list (Z * list Z)) p k :
  take k (ws ++ [p]) = take k ws \/ take k (ws ++ [p]) = ws ++ [p].
Proof.
  destruct (decide (k <= length ws)%nat).
  - left. by apply take_app_le.
  - right. apply take_ge. rewrite length_app. cbn. lia.
Qed.

Lemma interrupted_recovers goal d d' : interrupted d d' -> recovers_to goal d -> recovers_to goal d'.
Proof.
  intros (s & k & Hb & ->) (ps & Hp & Hsame).
  destruct (pending_boot ps d Hp) as (s' & data & hb & Hb' & Hh & _ & Hw & _). rewrite Hb in Hb'. injection Hb' as <-.
  rewrite Hw. destruct (take_app_one ps (st, data) k) as [-> | ->].
  - exists ps. assert (Hsub : forall p, p ∈ take k ps -> p ∈ ps).
    { intros p Hin. rewrite <- (take_drop k ps), elem_of_app. by left. }
    split; [by apply subset_writes|]. by rewrite apply_writes_redo.
  - exists []. rewrite apply_writes_app. cbn [apply_writes foldl fst snd].
    assert (Hy : layout (apply_writes d ps)) by (apply layout_writes; [apply Hp|by apply pending_good]).
    split; [by apply pending_nil|]. etrans; [by apply insert_start_home|done].
Qed.

Lemma recovers_boot goal d :
  recovers_to goal d -> exists s, boot me d = Ok s /\ same_home (memdisk (cache s)) goal.
Proof.
  intros (ps & Hp & Hsame). destruct (pending_boot ps d Hp) as (s & data & hb & Hb & Hh & [l Hr] & _).
  exists s. split; [done|]. rewrite (c_disk _ _ _ _ Hr). cbn [disk].
  assert (Hy : layout (apply_writes d ps)) by (apply layout_writes; [apply Hp|by apply pending_good]).
  etrans; [by apply insert_start_home|done].
Qed.

Lemma crashes_recover goal d d' :
  recovers_to goal d -> rtc interrupted d d' ->
  exists s, boot me d' = Ok s /\ same_home (memdisk (cache s)) goal.
Proof.
  intros Hr Hc. apply recovers_boot. induction Hc as [|? ? ? H _ IH]; [done|].
  apply IH. by eapply interrupted_recovers.
Qed.

(** ** Transactions *)

(** A transaction on the quiet disk [d] has changed the blocks [bl], in the
    order of the header, to [ov]. *)
Record log_ok (s : lstate) (d : list (list Z)) (bl : list Z) (ov : gmap Z (list Z)) (out com : Z) : Prop := LogOk {
  o_cache : crep (cache s) d ov;
  o_log : exists hb, lg s = Log st sz out com 1 (Logheader (Z.of_nat (length bl)) hb) /\ length hb = LOGSIZE /\
            forall (j : nat) x, bl !! j = Some x -> hb !! j = Some x;
  o_quiet : pending [] d;
  o_nodup : NoDup bl;
  o_dom : forall n, n ∈ bl <-> is_Some (ov !! n);
  o_home : forall n, n ∈ bl -> home d n;
  o_data : forall n x, ov !! n = Some x -> length x = Z.to_nat BSIZE;
  o_room : Z.of_nat (length bl) < sz
}.

Lemma log_ok_size s d bl ov out com :
  log_ok s d bl ov out com -> size ov = length bl /\ (size ov < NBUF)%nat.
Proof.
  intros [_ _ Hq Hnd Hdom _ _ Hroom].
  assert (size ov = length bl) as E.
  { rewrite <- size_dom, <- (size_list_to_set (C := gset Z) bl Hnd). f_equal.
    apply set_eq. intros n. rewrite elem_of_list_to_set, elem_of_dom. symmetry. apply Hdom. }
  split; [done|]. destruct Hq as ([] & _). unfold NBUF, LOGSIZE in *. lia.
Qed.

Lemma absorb_index_spec hb n rs : forall i : nat,
  (forall (j : nat) x, rs !! j = Some x -> hb !! (i + j)%nat = Some x) ->
  exists j : nat, absorb_index (length rs) (Z.of_nat i) hb n = Ok (Z.of_nat (i + j)) /\
    ((rs !! j = Some n /\ (j < length rs)%nat) \/ ((n ∉ rs) /\ j = length rs)).
Proof.
  induction rs as [|x rs IH]; intros i H; cbn [length absorb_index].
  { exists 0%nat. rewrite Nat.add_0_r. split; [done|]. right. split; [apply not_elem_of_nil|done]. }
  pose proof (H 0%nat x eq_refl) as Hx. rewrite Nat.add_0_r in Hx. rewrite (aget_nat _ _ _ Hx). run.
  destruct (Z.eqb_spec x n) as [->|Hne].
  { exists 0%nat. rewrite Nat.add_0_r. split; [done|]. left. split; [done|lia]. }
  replace (Z.of_nat i + 1) with (Z.of_nat (S i)) by lia.
  destruct (IH (S i)) as (j & Hj & Hc).
  { intros j y Hj. rewrite <- (H (S j) y Hj). f_equal. lia. }
  exists (S j). rewrite Hj. split; [do 2 f_equal; lia|].
  destruct Hc as [[? ?]|[? ->]]; [left; split; [done|lia]|right; split; [set_solver|done]].
Qed.

Lemma home_s32 d n : layout d -> home d n -> in_s32 n.
Proof. intros [] ((? & ?) & _). unfold in_s32. lia. Qed.

Definition add_block (bl : list Z) (n : Z) : list Z := if decide (n ∈ bl) then bl else bl ++ [n].

(** [log_write] of a held buffer records its block once. *)
Lemma log_write_header bl hb n :
  (forall (j : nat) x, bl !! j = Some x -> hb !! j = Some x) -> length hb = LOGSIZE ->
  (length bl < LOGSIZE)%nat ->
  exists j hb', absorb_index (length bl) 0 hb n = Ok j /\ aset hb j n = Ok hb' /\
    (if j =? Z.of_nat (length bl) then Z.of_nat (length bl) + 1 else Z.of_nat (length bl))
      = Z.of_nat (length (add_block bl n)) /\
    length hb' = LOGSIZE /\ (forall (i : nat) x, add_block bl n !! i = Some x -> hb' !! i = Some x).
Proof.
  intros Hbl Hlen Hroom. destruct (absorb_index_spec hb n bl 0) as (j & Hj & Hc); [done|].
  cbn [Nat.add] in Hj. change (Z.of_nat 0) with 0 in Hj. exists (Z.of_nat j), (<[j := n]> hb).
  assert (Hjl : (j < length hb)%nat) by (destruct Hc as [[_ ?]|[_ ?]]; lia).
  split; [done|]. split; [by apply aset_nat|]. rewrite length_insert. unfold add_block.
  destruct Hc as [[Hn Hlt]|[Hn ->]].
  - rewrite decide_True by (by eapply list_elem_of_lookup_2).
    rewrite (proj2 (Z.eqb_neq _ _)) by lia. split_and!; try done.
    intros i x Hi. rewrite list_insert_id; [by apply Hbl|]. by apply Hbl.
  - rewrite decide_False by done. rewrite Z.eqb_refl, length_app. cbn [length]. split_and!; try done; [lia|].
    intros i x Hi. destruct (decide (i = length bl)) as [->|Hne].
    + rewrite list_lookup_middle in Hi by done. simplify_eq. by apply list_lookup_insert_eq.
    + rewrite list_lookup_insert_ne by done. apply Hbl.
      apply lookup_app_Some in Hi as [?|[? Hi]]; [done|].
      apply list_lookup_singleton_Some in Hi as [? _]. lia.
Qed.

Lemma update_block_spec s d bl ov out n data :
  log_ok s d bl ov out 0 -> 1 <= out -> home d n -> length data = Z.to_nat BSIZE ->
  Z.of_nat (length bl) < sz - 1 ->
  exists s', update_block me s n data = Ok s' /\
    log_ok s' d (add_block bl n) (<[n := data]> ov) out 0 /\ writes (cache s') = writes (cache s).
Proof.
  intros Hok Hout Hhome Hdata Hroom. pose proof (log_ok_size _ _ _ _ _ _ Hok) as [Hsz Hcap].
  pose proof Hok as [[l Hr] (hb & Hlg & Hlhb & Hhb) Hq Hnd Hdom Hho Hda _].
  unfold update_block. pose proof (proj1 Hq) as [].
  destruct (bread_spec me (cache s) l _ n Hr (proj1 Hhome) (lookup_empty n)) as (i & c1 & x & H1 & Hset & Hh & Hr1 & Hw1 & _).
  { right. cbn [over held]. rewrite map_size_empty. lia. }
  rewrite H1. run.
  destruct (modify_spec me c1 l _ i n x data Hr1 Hh) as (c2 & H2 & Hr2 & Hw2 & Hk2); [apply lookup_insert_eq|done|].
  rewrite H2. run. unfold log_write. cbn [lg cache]. rewrite Hlg. cbn [lh hn hblock lsize outstanding].
  assert (Hg1 : (Z.of_nat (length bl) >=? Z.of_nat LOGSIZE) || (Z.of_nat (length bl) >=? sz - 1) = false)
    by (rewrite !Z.geb_leb; apply orb_false_iff; lia).
  rewrite Hg1, (proj2 (Z.ltb_ge _ _)) by done.
  destruct (handle_bat me c2 l _ i n data Hr2) as (b & Hb & Hbi & Hbx & Hbn & _); [by apply Hk2|apply lookup_insert_eq|].
  rewrite Hb. run. rewrite Nat2Z.id, Hbn.
  destruct (log_write_header bl hb n Hhb Hlhb) as (j & hb' & Ha & Has & Hcnt & Hlhb' & Hhb'); [lia|].
  rewrite Ha. run. rewrite Has. run. rewrite Hcnt.
  destruct (pin_spec me c2 l _ i n data b Hr2) as (c3 & H3 & Hr3 & Hw3 & Hk3); [by apply Hk2|apply lookup_insert_eq|done|].
  rewrite H3. run. cbn [cache lg].
  destruct (brelse_spec me c3 l _ i n data Hr3) as (c4 & l1 & l2 & H4 & _ & Hr4 & Hw4 & _).
  { by apply Hk3, Hk2. }
  { apply lookup_insert_eq. }
  { unfold settled. cbn [over]. by rewrite lookup_insert_eq. }
  rewrite H4. run. eexists; split; [reflexivity|]. split; [|cbn [cache]; congruence].
  constructor; cbn [cache lg].
  - eexists. unfold with_held in Hr4. cbn [disk over held] in Hr4.
    rewrite insert_insert_eq, delete_insert_id in Hr4 by apply lookup_empty. exact Hr4.
  - exists hb'. split; [done|]. done.
  - done.
  - unfold add_block. case_decide; [done|]. apply NoDup_app. split; [done|].
    split; [|apply NoDup_singleton]. intros m Hm Hm'. apply list_elem_of_singleton in Hm' as ->. done.
  - intros m. unfold add_block. destruct (decide (m = n)) as [->|Hne].
    + rewrite lookup_insert_eq. case_decide; [|rewrite elem_of_app, list_elem_of_singleton]; naive_solver.
    + rewrite lookup_insert_ne by done. rewrite <- Hdom.
      case_decide; [done|]. rewrite elem_of_app, list_elem_of_singleton. naive_solver.
  - intros m. unfold add_block. case_decide; [apply Hho|].
    rewrite elem_of_app, list_elem_of_singleton. intros [?| ->]; [by apply Hho|done].
  - intros m y. destruct (decide (m = n)) as [->|Hne].
    + rewrite lookup_insert_eq. naive_solver.
    + rewrite lookup_insert_ne by done. apply Hda.
  - unfold add_block. case_decide; [lia|]. rewrite length_app. cbn [length]. lia.
Qed.

(** ** Commit *)

Definition pairs (ov : gmap Z (list Z)) (bl : list Z) : list (Z * list Z) :=
  (fun n => (n, default [] (ov !! n))) <$> bl.

Lemma pairs_fst ov bl : (pairs ov bl).*1 = bl.
Proof. unfold pairs. rewrite <- list_fmap_compose. apply list_fmap_id. Qed.

Lemma pairs_lookup ov bl (j : nat) n x :
  pairs ov bl !! j = Some (n, x) -> bl !! j = Some n /\ x = default [] (ov !! n).
Proof.
  unfold pairs. rewrite list_lookup_fmap. intros H. apply fmap_Some in H as (m & ? & ?). by simplify_eq.
Qed.

Lemma pairs_over s d bl ov out com (j : nat) n x :
  log_ok s d bl ov out com -> pairs ov bl !! j = Some (n, x) ->
  bl !! j = Some n /\ ov !! n = Some x /\ home d n /\ length x = Z.to_nat BSIZE.
Proof.
  intros Hok H. apply pairs_lookup in H as [Hj ->]. split; [done|].
  assert (Hin : n ∈ bl) by (by eapply list_elem_of_lookup_2).
  pose proof (proj1 (o_dom _ _ _ _ _ _ Hok n) Hin) as [x Hx]. rewrite Hx. cbn.
  split; [done|]. split; [by eapply o_home|by eapply o_data].
Qed.

(** The writes of [commit] with headers [h1] and [h2]. *)
Definition commit_writes (ps : list (Z * list Z)) (h1 h2 : list Z) : list (Z * list Z) :=
  log_writes st 0 ps ++ (st, h1) :: ps ++ [(st, h2)].

Lemma drop_all_pairs ov bl :
  (forall n, n ∈ bl <-> is_Some (ov !! n)) -> drop_all (pairs ov bl) ov = ∅.
Proof.
  intros H. apply map_empty. intros n.
  assert (Hgen : forall l m, (n ∈ l.*1 \/ m !! n = None) -> drop_all l m !! n = None).
  { induction l as [|p l IH]; intros m Hc; cbn.
    - destruct Hc as [Hc|Hc]; [by apply elem_of_nil in Hc|done].
    - apply IH. destruct (decide (p.1 = n)) as [<-|Hne]; [right; by apply lookup_delete_eq|].
      rewrite lookup_delete_ne by done. destruct Hc as [Hc|Hc]; [|by right].
      left. apply elem_of_cons in Hc as [?|?]; [congruence|done]. }
  apply Hgen. rewrite pairs_fst. destruct (ov !! n) eqn:E; [left; apply H; by eexists|by right].
Qed.

Lemma log_writes_lookup ps d : forall tail (j : nat) n x,
  0 <= st -> 0 <= tail -> st + tail + Z.of_nat (length ps) < Z.of_nat (length d) ->
  ps !! j = Some (n, x) ->
  apply_writes d (log_writes st tail ps) !! Z.to_nat (st + tail + Z.of_nat j + 1) = Some x.
Proof.
  revert d. induction ps as [|p ps IH]; intros d tail j n x Hs Ht Hl Hj; [by rewrite lookup_nil in Hj|].
  cbn [log_writes length] in *.
  change (apply_writes d ((st + tail + 1, p.2) :: log_writes st (tail + 1) ps))
    with (apply_writes (<[Z.to_nat (st + tail + 1) := p.2]> d) (log_writes st (tail + 1) ps)).
  destruct j as [|j].
  - cbn in Hj. simplify_eq. rewrite Z.add_0_r. rewrite apply_writes_other; [|lia|].
    + apply list_lookup_insert_eq. lia.
    + intros q Hq. apply log_writes_elem in Hq. lia.
  - replace (st + tail + Z.of_nat (S j) + 1) with (st + (tail + 1) + Z.of_nat j + 1) by lia.
    apply (IH _ _ _ n); [done|lia|rewrite length_insert; lia|done].
Qed.

Lemma commit_spec s d bl ov out com :
  log_ok s d bl ov out com -> bl <> [] ->
  exists s' h1 h2 hb, commit me s = Ok s' /\ header_is h1 bl /\ header_is h2 [] /\
    crep (cache s') (apply_writes d (commit_writes (pairs ov bl) h1 h2)) ∅ /\
    writes (cache s') = writes (cache s) ++ commit_writes (pairs ov bl) h1 h2 /\
    lg s' = Log st sz out com 1 (Logheader 0 hb) /\ length hb = LOGSIZE.
Proof.
  intros Hok Hne. pose proof (log_ok_size _ _ _ _ _ _ Hok) as [Hsz Hcap].
  pose proof Hok as [Hr (hb & Hlg & Hlhb & Hhb) Hq Hnd Hdom Hho Hda Hroom].
  pose proof (proj1 Hq) as Hy. pose proof Hy as [].
  set (ps := pairs ov bl).
  assert (Hlps : length ps = length bl) by (unfold ps, pairs; apply length_fmap).
  assert (Hlogclean : forall m, st <= m < st + sz -> ov !! m = None).
  { intros m Hm. destruct (ov !! m) eqn:E; [|done]. destruct (Hho m) as (_ & _ & ?); [apply Hdom; by eexists|lia]. }
  assert (Hlen : (0 < length bl)%nat) by (destruct bl; [done|cbn; lia]).
  unfold commit, write_log. rewrite Hlg. cbn [lh hn].
  assert (Hgt : (Z.of_nat (length bl) >? 0) = true) by lia. rewrite Hgt, Nat2Z.id.
  destruct (write_log_loop_spec (lg s) ps 0 (cache s) d ov Hr) as (c1 & H1 & Hr1 & Hw1);
    rewrite ?Hlg; cbn [ldev start lh hblock]; try done; try lia.
  { intros j n x Hj. destruct (pairs_over _ _ _ _ _ _ _ _ _ Hok Hj) as (Hj' & Hx & Hhn & _).
    split; [by apply Hhb|]. split; [apply Hhn|done]. }
  { intros j Hj. split; [unfold inside; lia|apply Hlogclean; lia]. }
  rewrite Hlg, Hlps in H1. rewrite Hlg in Hr1, Hw1. cbn [start] in Hr1, Hw1. rewrite H1. run.
  set (d1 := apply_writes d (log_writes st 0 ps)) in *.
  assert (Hld1 : length d1 = length d) by apply length_apply_writes.
  destruct (write_head_spec (LState c1 (lg s)) d1 ov bl) as (s2 & h1 & H2 & Hlg2 & Hh1 & Hr2 & Hw2);
    cbn [cache lg]; rewrite ?Hlg; cbn [ldev start lh hn hblock]; try done; try lia.
  { unfold inside. lia. }
  { apply Hlogclean. lia. }
  { intros j x Hj. split; [by apply Hhb|]. apply (home_s32 d); [done|]. apply Hho. by eapply list_elem_of_lookup_2. }
  cbn [cache lg] in *. rewrite Hlg in H2, Hr2, Hw2. cbn [start] in Hr2, Hw2. rewrite H2. run.
  unfold install_trans. rewrite Hlg2, Hlg. cbn [lh hn]. rewrite Nat2Z.id.
  set (d2 := <[Z.to_nat st := h1]> d1) in *.
  destruct (install_loop_spec (lg s) ps 0 (cache s2) d2 ov Hr2) as (c3 & H3 & Hr3 & Hw3);
    rewrite ?Hlg; cbn [start]; try done.
  { split_and!; cbn [ldev start]; [done|lia|lia|].
    intros j n x Hj. pose proof (lookup_lt_Some _ _ _ Hj).
    destruct (pairs_over _ _ _ _ _ _ _ _ _ Hok Hj) as (Hj' & Hx & (Hin & Hn1 & Hout) & _).
    unfold d2, inside in *. rewrite length_insert, Hld1. split_and!; try lia.
    - cbn [lh hblock]. by apply Hhb.
    - rewrite list_lookup_insert_ne by lia. unfold d1. apply (log_writes_lookup ps d 0 j n); [lia|lia|lia|done]. }
  { intros j Hj. apply Hlogclean. lia. }
  { left. unfold ps. rewrite pairs_fst. split; [done|]. intros n. by rewrite Hdom. }
  rewrite Hlg, Hlps in H3. rewrite H3. run. unfold ps in Hr3. rewrite drop_all_pairs in Hr3 by done. fold ps in Hr3.
  destruct (write_head_spec (clear_log (LState c3 (lg s))) (apply_writes d2 ps) ∅ []) as (s4 & h2 & H4 & Hlg4 & Hh2 & Hr4 & Hw4);
    cbn [clear_log cache lg]; rewrite ?Hlg; cbn [set_lh ldev start lh hn hblock]; try done.
  { unfold inside. rewrite length_apply_writes. unfold d2. rewrite length_insert. lia. }
  { rewrite map_size_empty. unfold NBUF. lia. }
  { cbn [length]. lia. }
  cbn [clear_log cache lg] in *. rewrite Hlg in H4, Hr4, Hw4, Hlg4.
  cbn [set_lh start lh hblock ldev lsize outstanding committing] in *.
  exists s4, h1, h2, hb. split; [exact H4|]. split; [done|]. split; [done|].
  split; [|split; [|split; [exact Hlg4|done]]].
  - unfold commit_writes. rewrite apply_writes_app. fold d1.
    change (apply_writes d1 ((st, h1) :: ps ++ [(st, h2)])) with (apply_writes d2 (ps ++ [(st, h2)])).
    rewrite apply_writes_app. exact Hr4.
  - rewrite Hw4, Hw3, Hw2, Hw1. unfold commit_writes. rewrite <- !app_assoc. done.
Qed.

(** ** A crash during commit *)

Lemma apply_same_home ps : forall d d', same_home d d' -> same_home (apply_writes d ps) (apply_writes d' ps).
Proof.
  induction ps as [|[m x] ps IH]; intros d d' H; [done|].
  apply (IH (<[Z.to_nat m := x]> d) (<[Z.to_nat m := x]> d')). destruct H as [Hl H].
  split; [by rewrite !length_insert|]. intros n Hn.
  rewrite (home_length _ d) in Hn by apply length_insert.
  destruct (decide (Z.to_nat m = Z.to_nat n)) as [E|E].
  - rewrite E. destruct Hn as [[? ?] _]. rewrite !list_lookup_insert_eq by lia. done.
  - rewrite !list_lookup_insert_ne by done. by apply H.
Qed.

Lemma writes_not_home d ws : (forall p, p ∈ ws -> st <= p.1 < st + sz) -> 0 <= st -> same_home (apply_writes d ws) d.
Proof.
  intros H Hs. split; [apply length_apply_writes|]. intros n (Hin & _ & Hout).
  unfold inside in Hin. rewrite length_apply_writes in Hin. apply apply_writes_other; [lia|].
  intros p Hp. specialize (H p Hp). lia.
Qed.

Section committing.
Context (s : lstate) (d : list (list Z)) (bl : list Z) (ov : gmap Z (list Z)) (out com : Z).
Context (Hok : log_ok s d bl ov out com).
Let ps := pairs ov bl.

Lemma ps_length : length ps = length bl.
Proof. apply length_fmap. Qed.

Lemma log_writes_good ws :
  (forall p, p ∈ ws -> p ∈ log_writes st 0 ps) ->
  good_writes d ws /\ (forall p, p ∈ ws -> st < p.1 < st + sz).
Proof.
  intros Hsub. pose proof (o_quiet _ _ _ _ _ _ Hok) as (Hy & _). pose proof Hy as [].
  pose proof (o_room _ _ _ _ _ _ Hok) as Hroom.
  assert (H : forall p, p ∈ ws -> st < p.1 < st + sz).
  { intros p Hp. apply Hsub, log_writes_elem in Hp. rewrite ps_length in Hp. lia. }
  split; [|done]. intros p Hp. pose proof (H p Hp). split_and!; [lia..|].
  apply Hsub in Hp. clear -Hp Hok.
  assert (Hin : exists q, q ∈ ps /\ q.2 = p.2).
  { revert Hp. generalize 0. induction ps as [|q l IH]; intros t Hp; cbn in Hp; [by apply elem_of_nil in Hp|].
    apply elem_of_cons in Hp as [->|Hp]; [exists q; split; [left|done]|].
    destruct (IH _ Hp) as (r & ? & ?). exists r. split; [by right|done]. }
  destruct Hin as ([n x] & Hq & <-). apply list_elem_of_lookup in Hq as [j Hj].
  by destruct (pairs_over _ _ _ _ _ _ _ _ _ Hok Hj) as (_ & _ & _ & ?).
Qed.

(** Before the header is written the log is empty. *)
Lemma crash_before ws : (forall p, p ∈ ws -> p ∈ log_writes st 0 ps) -> recovers_to d (apply_writes d ws).
Proof.
  intros Hsub. destruct (log_writes_good ws Hsub) as [Hg Hr].
  pose proof (o_quiet _ _ _ _ _ _ Hok) as (Hy & Hlen & (data & Hd & Hh) & _). pose proof Hy as [].
  exists []. split.
  - split; [by apply layout_writes|]. split; [done|]. split; [|intros j n x Hj; by rewrite lookup_nil in Hj].
    exists data. split; [|done]. rewrite apply_writes_other; [done|lia|]. intros p Hp. specialize (Hr p Hp). lia.
  - cbn. apply writes_not_home; [|lia]. intros p Hp. specialize (Hr p Hp). lia.
Qed.

(** Once it is written the log holds the transaction. *)
Lemma crash_after h1 ws :
  header_is h1 bl -> (forall p, p ∈ ws -> p ∈ ps) ->
  recovers_to (apply_writes d ps)
    (apply_writes (<[Z.to_nat st := h1]> (apply_writes d (log_writes st 0 ps))) ws).
Proof.
  intros Hh Hsub. destruct (log_writes_good (log_writes st 0 ps)) as [Hg Hr]; [done|].
  pose proof (o_quiet _ _ _ _ _ _ Hok) as (Hy & _). pose proof Hy as [].
  pose proof (o_room _ _ _ _ _ _ Hok) as Hroom.
  set (d1 := apply_writes d (log_writes st 0 ps)). set (d2 := <[Z.to_nat st := h1]> d1).
  assert (Hl1 : length d1 = length d) by apply length_apply_writes.
  assert (Hl2 : length d2 = length d) by (unfold d2; by rewrite length_insert).
  assert (Hp2 : pending ps d2).
  { split; [|split; [rewrite ps_length; lia|split]].
    - apply layout_insert; [by apply layout_writes|lia|lia|apply Hh].
    - exists h1. unfold ps. rewrite pairs_fst. split; [|done]. apply list_lookup_insert_eq. lia.
    - intros j n x Hj. pose proof (lookup_lt_Some _ _ _ Hj) as Hlt. rewrite ps_length in Hlt.
      destruct (pairs_over _ _ _ _ _ _ _ _ _ Hok Hj) as (_ & _ & Hhome & _).
      split; [by apply (home_length d2 d)|]. unfold d2. rewrite list_lookup_insert_ne by lia.
      replace (st + Z.of_nat j + 1) with (st + 0 + Z.of_nat j + 1) by lia.
      apply (log_writes_lookup ps d 0 j n); [lia|lia|rewrite ps_length; lia|done]. }
  exists ps. split; [by apply subset_writes|]. rewrite apply_writes_redo by done.
  apply apply_same_home. unfold d2. etrans; [apply insert_start_home; by apply layout_writes|].
  apply writes_not_home; [|lia]. intros p Hp. specialize (Hr p Hp). lia.
Qed.

(** After the second header the log is empty again. *)
Lemma crash_end h1 h2 :
  header_is h1 bl -> header_is h2 [] ->
  recovers_to (apply_writes d ps) (apply_writes d (commit_writes ps h1 h2)).
Proof.
  intros Hh1 Hh2. destruct (crash_after h1 [] Hh1) as (qs & Hq & Hs).
  { intros p Hp. by apply elem_of_nil in Hp. }
  destruct (crash_after h1 ps Hh1) as (rs & Hrs & _); [done|].
  unfold commit_writes. rewrite apply_writes_app.
  set (d1 := apply_writes d (log_writes st 0 ps)) in *.
  change (apply_writes d1 ((st, h1) :: ps ++ [(st, h2)]))
    with (apply_writes (<[Z.to_nat st := h1]> d1) (ps ++ [(st, h2)])).
  set (d2 := <[Z.to_nat st := h1]> d1) in *. rewrite apply_writes_app.
  exists []. split; [apply pending_nil; [apply Hrs|done]|].
  cbn [apply_writes foldl fst snd]. etrans; [apply insert_start_home; apply Hrs|].
  apply apply_same_home. destruct (log_writes_good (log_writes st 0 ps)) as [Hg Hr]; [done|].
  pose proof (o_quiet _ _ _ _ _ _ Hok) as (Hy & _). pose proof Hy as [].
  unfold d2. etrans; [apply insert_start_home; by apply layout_writes|].
  apply writes_not_home; [|lia]. intros p Hp. specialize (Hr p Hp). lia.
Qed.

(** The disk at the end of [commit]. *)
Lemma commit_final h1 h2 :
  header_is h1 bl -> same_home (apply_writes d (commit_writes ps h1 h2)) (apply_writes d ps).
Proof.
  intros Hh1. unfold commit_writes. rewrite apply_writes_app.
  destruct (log_writes_good (log_writes st 0 ps)) as [Hg Hlr]; [done|].
  destruct (crash_after h1 ps Hh1) as (ts & (He2 & _) & _); [done|].
  pose proof (o_quiet _ _ _ _ _ _ Hok) as (Hy & _).
  set (e1 := apply_writes d (log_writes st 0 ps)) in *.
  change (apply_writes e1 ((st, h1) :: ps ++ [(st, h2)]))
    with (apply_writes (<[Z.to_nat st := h1]> e1) (ps ++ [(st, h2)])).
  rewrite apply_writes_app. cbn [apply_writes foldl fst snd].
  assert (He1 : layout e1) by (by apply layout_writes). pose proof He1 as [].
  etrans; [by apply insert_start_home|]. apply apply_same_home.
  etrans; [by apply insert_start_home|]. apply writes_not_home; [|lia].
  intros p Hp. specialize (Hlr p Hp). lia.
Qed.

Lemma take_sub (l : list (Z * list Z)) k p : p ∈ take k l -> p ∈ l.
Proof. intros H. rewrite <- (take_drop k l), elem_of_app. by left. Qed.

Lemma crash_anywhere h1 h2 k :
  header_is h1 bl -> header_is h2 [] ->
  recovers_to d (apply_writes d (take k (commit_writes ps h1 h2))) \/
  recovers_to (apply_writes d ps) (apply_writes d (take k (commit_writes ps h1 h2))).
Proof.
  intros Hh1 Hh2. unfold commit_writes.
  destruct (decide (k <= length (log_writes st 0 ps))%nat) as [Hk|Hk].
  { left. rewrite take_app_le by done. apply crash_before. intros p. apply take_sub. }
  right. rewrite take_app_ge by lia.
  destruct (k - length (log_writes st 0 ps))%nat as [|m] eqn:Em; [lia|]. cbn [take].
  rewrite apply_writes_app.
  set (d1 := apply_writes d (log_writes st 0 ps)).
  change (apply_writes d1 ((st, h1) :: take m (ps ++ [(st, h2)])))
    with (apply_writes (<[Z.to_nat st := h1]> d1) (take m (ps ++ [(st, h2)]))).
  destruct (take_app_one ps (st, h2) m) as [-> | ->].
  - apply crash_after; [done|]. intros p. apply take_sub.
  - pose proof (crash_end h1 h2 Hh1 Hh2) as H. unfold commit_writes in H.
    by rewrite apply_writes_app in H.
Qed.

End committing.

#[local] Opaque boot.

(** ** Whole transactions *)

Definition overlay (ov : gmap Z (list Z)) (us : list (Z * list Z)) : gmap Z (list Z) :=
  foldl (fun m p => <[p.1 := p.2]> m) ov us.

Lemma overlay_lookup us d n :
  inside d n -> (forall p, p ∈ us -> 0 <= p.1) ->
  apply_writes d us !! Z.to_nat n =
    match overlay ∅ us !! n with Some x => Some x | None => d !! Z.to_nat n end.
Proof.
  intros Hin Hpos. induction us as [|[m x] us IH] using rev_ind; [cbn; by rewrite lookup_empty|].
  unfold overlay. rewrite apply_writes_app, foldl_app. cbn [apply_writes foldl fst snd].
  assert (Hm : 0 <= m) by (apply (Hpos (m, x)); set_solver).
  destruct (decide (m = n)) as [->|Hne].
  - rewrite lookup_insert_eq. apply list_lookup_insert_eq. rewrite length_apply_writes. unfold inside in Hin. lia.
  - rewrite lookup_insert_ne by done. unfold inside in Hin. rewrite list_lookup_insert_ne by lia.
    apply IH. intros p Hp. apply Hpos. set_solver.
Qed.

Lemma overlay_pairs ov bl n :
  overlay ∅ (pairs ov bl) !! n = if decide (n ∈ bl) then Some (default [] (ov !! n)) else None.
Proof.
  unfold pairs, overlay. induction bl as [|m bl IH] using rev_ind; [cbn; by rewrite lookup_empty|].
  rewrite fmap_app, foldl_app. cbn [fmap list_fmap foldl fst snd].
  destruct (decide (m = n)) as [->|Hne].
  - rewrite lookup_insert_eq, decide_True by set_solver. done.
  - rewrite lookup_insert_ne, IH by done. by destruct (decide (n ∈ bl)), (decide (n ∈ bl ++ [m])); set_solver.
Qed.

Lemma updates_spec us : forall s d bl ov out,
  log_ok s d bl ov out 0 -> 1 <= out ->
  (forall p, p ∈ us -> home d p.1 /\ length p.2 = Z.to_nat BSIZE) ->
  Z.of_nat (length bl + length us) < sz ->
  exists s' bl', updates me s us = Ok s' /\ log_ok s' d bl' (overlay ov us) out 0 /\
    writes (cache s') = writes (cache s).
Proof.
  induction us as [|[n x] us IH]; intros s d bl ov out Hok Hout Hus Hroom; cbn [updates].
  { by exists s, bl. }
  cbn [length] in Hroom. destruct (Hus (n, x)) as [Hn Hx]; [by left|].
  destruct (update_block_spec s d bl ov out n x Hok Hout Hn Hx) as (s1 & H1 & Hok1 & Hw1); [lia|].
  rewrite H1. run.
  destruct (IH s1 d (add_block bl n) (<[n := x]> ov) out Hok1 Hout) as (s2 & bl2 & H2 & Hok2 & Hw2).
  - intros p Hp. apply Hus. by right.
  - unfold add_block. case_decide; [lia|]. rewrite length_app. cbn [length]. lia.
  - exists s2, bl2. split; [done|]. split; [done|congruence].
Qed.

Lemma pairs_apply s d bl us out com :
  log_ok s d bl (overlay ∅ us) out com -> (forall p, p ∈ us -> home d p.1) ->
  same_home (apply_writes d (pairs (overlay ∅ us) bl)) (apply_writes d us).
Proof.
  intros Hok Hus. split; [by rewrite !length_apply_writes|]. intros n Hn.
  rewrite (home_length _ d) in Hn by apply length_apply_writes. destruct Hn as [Hin _].
  rewrite (overlay_lookup us) by (done || intros p Hp; apply (Hus p Hp)).
  rewrite overlay_lookup; [|done|].
  - rewrite overlay_pairs. pose proof (o_dom _ _ _ _ _ _ Hok n) as Hdom. case_decide as E.
    + apply Hdom in E as [x Hx]. by rewrite Hx.
    + destruct (overlay ∅ us !! n) eqn:Ex; [|done]. exfalso. apply E, Hdom. by eexists.
  - intros p Hp. apply list_elem_of_lookup in Hp as [j Hj]. destruct p as [m x].
    by destruct (pairs_over _ _ _ _ _ _ _ _ _ Hok Hj) as (_ & _ & [[? _] _] & _).
Qed.

(** What a transaction through the log promises: the disk ends with all the
    updates; and whenever the disk loses power, the blocks of files come back
    either all as before or all as after, for good once [end_op] has
    returned. *)
Definition atomic (d : list (list Z)) (us : list (Z * list Z)) (s3 : lstate) : Prop :=
  same_home (memdisk (cache s3)) (apply_writes d us) /\
  (forall k d', rtc interrupted (apply_writes d (take k (writes (cache s3)))) d' ->
     exists r, boot me d' = Ok r /\
       (same_home (memdisk (cache r)) d \/ same_home (memdisk (cache r)) (apply_writes d us))) /\
  (forall d', rtc interrupted (memdisk (cache s3)) d' ->
     exists r, boot me d' = Ok r /\ same_home (memdisk (cache r)) (apply_writes d us)).

Lemma recovers_same goal goal' d : same_home goal goal' -> recovers_to goal d -> recovers_to goal' d.
Proof. intros H (ps & Hp & Hs). exists ps. split; [done|]. by etrans. Qed.

(** From [begin_op] to [end_op] on a quiet disk [d]. *)
Lemma transaction_run c0 hb0 d us :
  pending [] d -> crep c0 d ∅ -> length hb0 = LOGSIZE -> us <> [] ->
  (forall p, p ∈ us -> home d p.1 /\ length p.2 = Z.to_nat BSIZE) -> Z.of_nat (length us) < sz ->
  exists s2 s3 s2' bl h1 h2,
    updates me (LState c0 (Log st sz 1 0 1 (Logheader 0 hb0))) us = Ok s2 /\ end_op me s2 = Ok s3 /\
    log_ok s2' d bl (overlay ∅ us) 0 1 /\ header_is h1 bl /\ header_is h2 [] /\
    writes (cache s3) = writes c0 ++ commit_writes (pairs (overlay ∅ us) bl) h1 h2 /\
    memdisk (cache s3) = apply_writes d (commit_writes (pairs (overlay ∅ us) bl) h1 h2).
Proof.
  intros Hq Hr0 Hlhb Hne Hus Hroom.
  destruct (updates_spec us (LState c0 (Log st sz 1 0 1 (Logheader 0 hb0))) d [] ∅ 1) as (s2 & bl & H2 & Hok2 & Hw2).
  { constructor; cbn [cache lg length]; try done.
    - by exists hb0.
    - constructor.
    - intros n. rewrite lookup_empty. split; [intros H; by apply elem_of_nil in H|by intros [? ?]].
    - intros n H. by apply elem_of_nil in H.
    - destruct Hq as ([] & _). lia. }
  { lia. }
  { done. }
  { cbn [length]. lia. }
  assert (Hbl : bl <> []).
  { intros ->. destruct us as [|[n x] us _] using rev_ind; [done|].
    pose proof (o_dom _ _ _ _ _ _ Hok2 n) as [_ Hd]. apply (not_elem_of_nil n), Hd.
    unfold overlay. rewrite foldl_app. cbn. rewrite lookup_insert_eq. by eexists. }
  pose proof (o_log _ _ _ _ _ _ Hok2) as (hb2 & Hlg2 & Hlhb2 & Hhb2).
  set (g3 := Log st sz 0 1 1 (Logheader (Z.of_nat (length bl)) hb2)).
  assert (Hok3 : log_ok (LState (cache s2) g3) d bl (overlay ∅ us) 0 1).
  { destruct Hok2. constructor; try assumption. exists hb2. done. }
  destruct (commit_spec _ _ _ _ _ _ Hok3 Hbl) as (s3 & h1 & h2 & hb3 & H3 & Hh1 & Hh2 & [l3 Hr3] & Hw3 & _).
  exists s2, (LState (cache s3) (set_committing 0 (lg s3))), (LState (cache s2) g3), bl, h1, h2.
  split; [exact H2|]. split.
  { unfold end_op. rewrite Hlg2. cbn [set_outstanding outstanding committing set_committing start lsize ldev lh].
    change (1 - 1) with 0. cbn [Z.eqb negb].
    change (commit me _) with (commit me (LState (cache s2) g3)). rewrite H3. done. }
  cbn [cache] in *. split; [exact Hok3|]. split; [exact Hh1|]. split; [exact Hh2|]. split.
  - by rewrite Hw3, Hw2.
  - by rewrite (c_disk _ _ _ _ Hr3).
Qed.

(** C2: a transaction of at most [sz - 1] block updates between [begin_op] and
    [end_op], from boot on a disk with an empty log, never faults and is
    atomic: the updates reach the disk, and after a crash at any write,
    followed by any number of crashes during recovery, recovery succeeds with
    all of them or none; a returned [end_op] is never undone. *)
Theorem log_transaction_atomic d us :
  pending [] d -> us <> [] ->
  (forall p, p ∈ us -> home d p.1 /\ length p.2 = Z.to_nat BSIZE) ->
  Z.of_nat (length us) < sz ->
  exists s0 g1 s2 s3,
    boot me d = Ok s0 /\ begin_op (lg s0) = Some g1 /\
    updates me (LState (cache s0) g1) us = Ok s2 /\ end_op me s2 = Ok s3 /\
    atomic d us s3.
Proof.
  intros Hq Hne Hus Hroom. pose proof Hq as (Hy & _).
  destruct (pending_boot [] d Hq) as (s0 & h0 & hb0 & Hb & Hh0 & Hr0 & Hw0 & Hlg0 & Hlhb0).
  exists s0. rewrite Hlg0. exists (Log st sz 1 0 1 (Logheader 0 hb0)).
  cut (exists s2 s3, updates me (LState (cache s0) (Log st sz 1 0 1 (Logheader 0 hb0))) us = Ok s2 /\
         end_op me s2 = Ok s3 /\ atomic d us s3).
  { intros (s2 & s3 & H2 & H3 & Ha). exists s2, s3.
    split; [exact Hb|]. split; [reflexivity|]. split; [exact H2|]. split; [exact H3|exact Ha]. }
  clear Hb Hlg0. change (apply_writes d []) with d in Hr0. cbn [app] in Hw0.
  set (d0 := <[Z.to_nat st := h0]> d) in *.
  assert (Hq0 : pending [] d0) by (by apply pending_nil).
  assert (Hs0 : same_home d0 d) by (by apply insert_start_home).
  assert (Hhome : forall n, home d n <-> home d0 n) by (intros n; apply home_length; by destruct Hs0).
  destruct (transaction_run (cache s0) hb0 d0 us Hq0 Hr0 Hlhb0 Hne) as
    (s2 & s3 & s2' & bl & h1 & h2 & H2 & H3 & Hok & Hh1 & Hh2 & Hw3 & Hm3); [|done|].
  { intros p Hp. destruct (Hus p Hp). by rewrite <- Hhome. }
  exists s2, s3. split; [exact H2|]. split; [exact H3|]. clear H2 H3.
  set (ps := pairs (overlay ∅ us) bl) in *.
  assert (Hps : same_home (apply_writes d0 ps) (apply_writes d us)).
  { etrans; [eapply pairs_apply; [exact Hok|]|by apply apply_same_home].
    intros p Hp. apply Hhome. by apply Hus. }
  split; [rewrite Hm3; etrans; [by eapply commit_final|exact Hps]|]. split.
  - intros k d' Hc. rewrite Hw3, Hw0 in Hc. destruct k as [|k].
    + destruct (crashes_recover d d d') as (r & Hrb & Hrs); [by exists []|exact Hc|].
      exists r. split; [exact Hrb|left; exact Hrs].
    + change (apply_writes d (take (S k) ([(st, h0)] ++ commit_writes ps h1 h2)))
        with (apply_writes d0 (take k (commit_writes ps h1 h2))) in Hc.
      destruct (crash_anywhere _ _ _ _ _ _ Hok h1 h2 k Hh1 Hh2) as [Hrec|Hrec];
        destruct (crashes_recover _ _ _ Hrec Hc) as (r & Hrb & Hrs); exists r; (split; [exact Hrb|]).
      * left. etrans; [exact Hrs|exact Hs0].
      * right. etrans; [exact Hrs|exact Hps].
  - intros d' Hc. rewrite Hm3 in Hc. eapply crashes_recover; [|exact Hc].
    eapply recovers_same; [exact Hps|]. by eapply crash_end.
Qed.

End proofs.

(** ** Runs *)

(** A disk of 70 blocks: the superblock says that the log is the 30 blocks
    from 2; the rest is zero. *)
Definition super0 : list Z :=
  splice 16 (le32 2) (splice 12 (le32 30) (replicate (Z.to_nat BSIZE) 0)).
Definition disk0 : list (list Z) := <[1%nat := super0]> (replicate 70 (replicate (Z.to_nat BSIZE) 0)).

Definition two_updates : list (Z * list Z) :=
  [(40, replicate (Z.to_nat BSIZE) 7); (41, replicate (Z.to_nat BSIZE) 8)].

Lemma disk0_quiet : pending 2 30 [] disk0.
Proof.
  split; [|split; [cbn; lia|split]].
  - constructor.
    + apply Forall_insert; [by apply Forall_replicate|reflexivity].
    + vm_compute. reflexivity.
    + lia.
    + unfold LOGSIZE. lia.
    + vm_compute. discriminate.
    + exists super0. split; [reflexivity|]. split; vm_compute; reflexivity.
  - exists (replicate (Z.to_nat BSIZE) 0). split; [vm_compute; reflexivity|].
    split; [reflexivity|]. split; [vm_compute; reflexivity|].
    intros j x Hj. by rewrite fmap_nil, lookup_nil in Hj.
  - intros j n x Hj. by rewrite lookup_nil in Hj.
Qed.

Lemma two_updates_ok p : p ∈ two_updates -> home 2 30 disk0 p.1 /\ length p.2 = Z.to_nat BSIZE.
Proof.
  intros Hp. unfold two_updates in Hp. rewrite !elem_of_cons, elem_of_nil in Hp.
  destruct Hp as [->|[->|[]]]; (split; [|reflexivity]);
    unfold home, inside; change (length disk0) with 70%nat; cbn [fst]; lia.
Qed.

Lemma log_transaction_atomic_witness :
  exists s0 g1 s2 s3,
    boot 7 disk0 = Ok s0 /\ begin_op (lg s0) = Some g1 /\
    updates 7 (LState (cache s0) g1) two_updates = Ok s2 /\ end_op 7 s2 = Ok s3 /\
    atomic 7 2 30 disk0 two_updates s3.
Proof.
  apply log_transaction_atomic.
  - exact disk0_quiet.
  - discriminate.
  - exact two_updates_ok.
  - reflexivity.
Defined.

(** Three system calls have begun; together they may write 30 blocks. *)
Definition begun (g : log) : option log := g ← begin_op g; g ← begin_op g; begin_op g.

Definition many (n : nat) : list (Z * list Z) :=
  (fun k : nat => (34 + Z.of_nat k, replicate (Z.to_nat BSIZE) 1)) <$> seq 0 n.

(** C40: [begin_op] admits three operations of [MAXOPBLOCKS] = 10 blocks each
    when the log is empty, but the log holds only [nlog - 1] = 29 blocks beside
    its header: the thirtieth block of such operations makes [log_write]
    panic. *)
Theorem log_reservation_overcommits :
  exists s g s2, boot 7 disk0 = Ok s /\ begun (lg s) = Some g /\
    updates 7 (LState (cache s) g) (many 29) = Ok s2 /\
    updates 7 (LState (cache s) g) (many 30) = Stuck Panicked.
Proof.
  set (r := boot 7 disk0). set (s := match r with Ok s => s | Stuck _ => LState (Bio [] [] []) log0 end).
  set (g := match begun (lg s) with Some g => g | None => lg s end).
  set (u := updates 7 (LState (cache s) g) (many 29)).
  exists s, g, (match u with Ok s2 => s2 | Stuck _ => s end).
  split; [vm_compute; reflexivity|]. split; [vm_compute; reflexivity|].
  split; vm_compute; reflexivity.
Qed.
