(* ===== verification/Xv6Fs.v ===== *)
(** The file system of xv6 (src/설계 3번/xv6/fs.c, fs.h, file.h): blocks, inodes
    and their contents.

    Blocks are reached through the buffer cache and the log.  [Xv6Cache] and
    [Xv6Log] show that these behave as an array of blocks with one buffer per
    block; here that array is [blocks], [held] are the blocks whose buffer the
    running process holds (asking for one of them again would block it for
    good), and [logged] are the block numbers given to [log_write], which is
    what the log charges a system call for.

    Functions that work on one in-memory inode take the record and return
    it.  This file holds the definitions; their theorems are in the files
    that follow it. *)

From S2P Require Import Prelude Bytes Xv6Locks Xv6String.

(** ** On-disk format *)

Definition ROOTINO : Z := 1.
Definition ROOTDEV : Z := 1.
Definition BSIZE : Z := 512.
Definition NDIRECT : Z := 12.
Definition NINDIRECT : Z := 128.
Definition MAXFILE : Z := NDIRECT + NINDIRECT.
Definition IPB : Z := 8.
Definition BPB : Z := BSIZE * 8.
Definition DIRSIZ : nat := 14.
Definition T_DIR : Z := 1.
Definition T_FILE : Z := 2.
Definition T_DEV : Z := 3.
Definition NDEV : Z := 10.
Definition NINODE : nat := 50.

Record superblock := Superblock {
  sb_size : Z;
  sb_nblocks : Z;
  sb_ninodes : Z;
  sb_nlog : Z;
  sb_logstart : Z;
  sb_inodestart : Z;
  sb_bmapstart : Z
}.

Definition IBLOCK (i : Z) (sb : superblock) : Z := i / IPB + sb_inodestart sb.
Definition BBLOCK (b : Z) (sb : superblock) : Z := b / BPB + sb_bmapstart sb.

(** The in-memory inode. *)
Record inode := Inode {
  idev : Z;
  inum : Z;
  iref : Z;
  islock : sleeplock;
  ivalid : Z;
  itype : Z;
  imajor : Z;
  iminor : Z;
  inlink : Z;
  isize : Z;
  addrs : list Z
}.

Definition set_ref v i := Inode (idev i) (inum i) v (islock i) (ivalid i) (itype i) (imajor i) (iminor i) (inlink i) (isize i) (addrs i).
Definition set_islock v i := Inode (idev i) (inum i) (iref i) v (ivalid i) (itype i) (imajor i) (iminor i) (inlink i) (isize i) (addrs i).
Definition set_valid v i := Inode (idev i) (inum i) (iref i) (islock i) v (itype i) (imajor i) (iminor i) (inlink i) (isize i) (addrs i).
Definition set_type v i := Inode (idev i) (inum i) (iref i) (islock i) (ivalid i) v (imajor i) (iminor i) (inlink i) (isize i) (addrs i).
Definition set_size v i := Inode (idev i) (inum i) (iref i) (islock i) (ivalid i) (itype i) (imajor i) (iminor i) (inlink i) v (addrs i).
Definition set_addrs v i := Inode (idev i) (inum i) (iref i) (islock i) (ivalid i) (itype i) (imajor i) (iminor i) (inlink i) (isize i) v.

(** ** Words in blocks *)

Definition le16 (z : Z) : list Z := [z mod 256; z / 256 mod 256].
(** An unsigned 16-bit and 32-bit word, and a [short]. *)
Definition getu16 (b : list Z) : Z := match b with b0 :: b1 :: _ => b0 + 256 * b1 | _ => 0 end.
Definition getu32 (b : list Z) : Z :=
  match b with b0 :: b1 :: b2 :: b3 :: _ => b0 + 256 * b1 + 65536 * b2 + 16777216 * b3 | _ => 0 end.
Definition s16 (z : Z) : Z := (z + 32768) mod 65536 - 32768.

Definition word (data : list Z) (i : Z) : res Z := w ← buf_load data (4 * i) 4; Ok (getu32 w).
Definition set_word (data : list Z) (i v : Z) : res (list Z) := buf_store data (4 * i) (le32 v).

(** ** Blocks through the cache and the log *)

Record bstate := Bstate {
  blocks : list (list Z);
  sb : superblock;
  held : list Z;
  logged : list Z
}.

Definition set_sb (v : superblock) (s : bstate) : bstate := Bstate (blocks s) v (held s) (logged s).

(** [bread]: the data of the block. *)
Definition get_buf (s : bstate) (n : Z) : res (list Z * bstate) :=
  if decide (n ∈ held s) then Stuck Blocked
  else
    match (if 0 <=? n then blocks s !! Z.to_nat n else None) with
    | Some d => Ok (d, Bstate (blocks s) (sb s) (n :: held s) (logged s))
    | None => Stuck Panicked
    end.

(** [log_write] of a held buffer whose data is now [d]. *)
Definition log_buf (s : bstate) (n : Z) (d : list Z) : bstate :=
  Bstate (<[Z.to_nat n := d]> (blocks s)) (sb s) (held s) (logged s ++ [n]).

(** [brelse]. *)
Definition put_buf (s : bstate) (n : Z) : bstate :=
  Bstate (blocks s) (sb s) (filter (fun m => m <> n) (held s)) (logged s).

(** The superblock in the first words of a block. *)
Definition load_sb (d : list Z) : res superblock :=
  w0 ← word d 0; w1 ← word d 1; w2 ← word d 2; w3 ← word d 3;
  w4 ← word d 4; w5 ← word d 5; w6 ← word d 6;
  Ok (Superblock w0 w1 w2 w3 w4 w5 w6).

Definition readsb (s : bstate) : res (superblock * bstate) :=
  '(d, s) ← get_buf s 1;
  v ← load_sb d;
  Ok (v, put_buf s 1).

Definition bzero (s : bstate) (bno : Z) : res bstate :=
  '(_, s) ← get_buf s bno;
  Ok (put_buf (log_buf s bno (replicate (Z.to_nat BSIZE) 0)) bno).

(** ** The block allocator *)

(** [for(bi = 0; bi < BPB && b + bi < sb.size; bi++)] looking for a clear bit,
    with [k] values of [bi] left. *)
Fixpoint find_bit (k : nat) (data : list Z) (bi : Z) : res (option Z) :=
  match k with
  | O => Ok None
  | S k' =>
      byte ← aget data (bi / 8);
      if Z.land byte (Z.shiftl 1 (bi mod 8)) =? 0 then Ok (Some bi)
      else find_bit k' data (bi + 1)
  end.

(** [for(b = 0; b < sb.size; b += BPB)]. *)
Fixpoint balloc_loop (fuel : nat) (s : bstate) (b : Z) : res (Z * bstate) :=
  match fuel with
  | O => Stuck OutOfFuel
  | S fuel' =>
      if b <? sb_size (sb s) then
        let bb := BBLOCK b (sb s) in
        '(data, s) ← get_buf s bb;
        r ← find_bit (Z.to_nat (Z.min BPB (sb_size (sb s) - b))) data 0;
        match r with
        | Some bi =>
            byte ← aget data (bi / 8);
            data ← aset data (bi / 8) (Z.lor byte (Z.shiftl 1 (bi mod 8)));
            let s := put_buf (log_buf s bb data) bb in
            s ← bzero s (b + bi);
            Ok (b + bi, s)
        | None => balloc_loop fuel' (put_buf s bb) (b + BPB)
        end
      else Stuck Panicked
  end.

Definition balloc (s : bstate) : res (Z * bstate) :=
  balloc_loop (S (Z.to_nat (sb_size (sb s) / BPB + 1))) s 0.

Definition bfree (s : bstate) (b : Z) : res bstate :=
  '(sb', s) ← readsb s;
  let s := set_sb sb' s in
  let bb := BBLOCK b (sb s) in
  '(data, s) ← get_buf s bb;
  let bi := b mod BPB in
  byte ← aget data (bi / 8);
  if Z.land byte (Z.shiftl 1 (bi mod 8)) =? 0 then Stuck Panicked
  else
    data ← aset data (bi / 8) (Z.land byte (Z.lnot (Z.shiftl 1 (bi mod 8))));
    Ok (put_buf (log_buf s bb data) bb).

(** ** Inodes on disk *)

(** The 64 bytes of a [struct dinode]. *)
Definition dinode_bytes (i : inode) : list Z :=
  le16 (itype i) ++ le16 (imajor i) ++ le16 (iminor i) ++ le16 (inlink i) ++
  le32 (isize i) ++ mjoin (le32 <$> addrs i).

Definition DINODE : Z := 64.

Definition iupdate (s : bstate) (i : inode) : res bstate :=
  let ib := IBLOCK (inum i) (sb s) in
  '(data, s) ← get_buf s ib;
  data ← buf_store data (DINODE * (inum i mod IPB)) (dinode_bytes i);
  Ok (put_buf (log_buf s ib data) ib).

(** The [k] words from byte [o]. *)
Fixpoint words_from (k : nat) (data : list Z) (o : Z) : res (list Z) :=
  match k with
  | O => Ok []
  | S k' => w ← buf_load data o 4; ws ← words_from k' data (o + 4); Ok (getu32 w :: ws)
  end.

(** The copy of the on-disk inode that [ilock] makes. *)
Definition load_dinode (data : list Z) (i : inode) : res inode :=
  let o := DINODE * (inum i mod IPB) in
  w0 ← buf_load data o 2;
  w1 ← buf_load data (o + 2) 2;
  w2 ← buf_load data (o + 4) 2;
  w3 ← buf_load data (o + 6) 2;
  w4 ← buf_load data (o + 8) 4;
  as_ ← words_from 13 data (o + 12);
  Ok (Inode (idev i) (inum i) (iref i) (islock i) 1
        (s16 (getu16 w0)) (s16 (getu16 w1)) (s16 (getu16 w2)) (s16 (getu16 w3)) (getu32 w4) as_).

(** ** Contents of an inode *)

Definition bmap (s : bstate) (i : inode) (bn : Z) : res (Z * inode * bstate) :=
  if bn <? NDIRECT then
    addr ← aget (addrs i) bn;
    if addr =? 0 then
      '(addr, s) ← balloc s;
      a ← aset (addrs i) bn addr;
      Ok (addr, set_addrs a i, s)
    else Ok (addr, i, s)
  else
    let bn := bn - NDIRECT in
    if bn <? NINDIRECT then
      ind ← aget (addrs i) NDIRECT;
      '(ind, i, s) ← (if ind =? 0 then
                        '(ind, s) ← balloc s;
                        a ← aset (addrs i) NDIRECT ind;
                        Ok (ind, set_addrs a i, s)
                      else Ok (ind, i, s));
      '(data, s) ← get_buf s ind;
      addr ← word data bn;
      if addr =? 0 then
        '(addr, s) ← balloc s;
        data ← set_word data bn addr;
        Ok (addr, i, put_buf (log_buf s ind data) ind)
      else Ok (addr, i, put_buf s ind)
    else Stuck Panicked.

(** The two loops of [itrunc]. *)
Fixpoint trunc_direct (k : nat) (j : Z) (s : bstate) (i : inode) : res (inode * bstate) :=
  match k with
  | O => Ok (i, s)
  | S k' =>
      a ← aget (addrs i) j;
      if a =? 0 then trunc_direct k' (j + 1) s i
      else
        s ← bfree s a;
        l ← aset (addrs i) j 0;
        trunc_direct k' (j + 1) s (set_addrs l i)
  end.

Fixpoint trunc_indirect (k : nat) (j : Z) (data : list Z) (s : bstate) : res bstate :=
  match k with
  | O => Ok s
  | S k' =>
      a ← word data j;
      if a =? 0 then trunc_indirect k' (j + 1) data s
      else s ← bfree s a; trunc_indirect k' (j + 1) data s
  end.

Definition itrunc (s : bstate) (i : inode) : res (inode * bstate) :=
  '(i, s) ← trunc_direct (Z.to_nat NDIRECT) 0 s i;
  ind ← aget (addrs i) NDIRECT;
  '(i, s) ← (if ind =? 0 then Ok (i, s)
             else
               '(data, s) ← get_buf s ind;
               s ← trunc_indirect (Z.to_nat NINDIRECT) 0 data s;
               s ← bfree (put_buf s ind) ind;
               l ← aset (addrs i) NDIRECT 0;
               Ok (set_addrs l i, s));
  let i := set_size 0 i in
  s ← iupdate s i;
  Ok (i, s).

Record stat := Stat { st_type : Z; st_dev : Z; st_ino : Z; st_nlink : Z; st_size : Z }.

Definition stati (i : inode) : stat := Stat (itype i) (idev i) (inum i) (inlink i) (isize i).

(** The loop of [readi]: the bytes copied out, [fuel] iterations at most. *)
Fixpoint read_loop (fuel : nat) (s : bstate) (i : inode) (tot off n : Z) : res (list Z * inode * bstate) :=
  match fuel with
  | O => Stuck OutOfFuel
  | S fuel' =>
      if tot <? n then
        '(addr, i, s) ← bmap s i (off / BSIZE);
        '(data, s) ← get_buf s addr;
        let m := Z.min (n - tot) (BSIZE - off mod BSIZE) in
        bs ← buf_load data (off mod BSIZE) m;
        '(rest, i, s) ← read_loop fuel' (put_buf s addr) i (tot + m) (off + m) n;
        Ok (bs ++ rest, i, s)
      else Ok ([], i, s)
  end.

Section devices.
(** [devsw]: the read and write functions of the devices, filled in at run
    time (the console). *)
Context (dev_read : Z -> option (Z -> Z * list Z)) (dev_write : Z -> option (list Z -> Z)).

(** [readi]: the result and the bytes stored at [dst]. *)
Definition readi (s : bstate) (i : inode) (off n : Z) : res (Z * list Z * inode * bstate) :=
  if itype i =? T_DEV then
    if (imajor i <? 0) || (imajor i >=? NDEV) then Ok (-1, [], i, s)
    else match dev_read (imajor i) with
         | None => Ok (-1, [], i, s)
         | Some f => let '(r, bs) := f n in Ok (r, bs, i, s)
         end
  else if (off >? isize i) || (u32 (off + n) <? off) then Ok (-1, [], i, s)
  else
    let n := if u32 (off + n) >? isize i then u32 (isize i - off) else n in
    '(bs, i, s) ← read_loop (S (Z.to_nat n)) s i 0 off n;
    Ok (n, bs, i, s).

(** The loop of [writei]. *)
Fixpoint write_loop (fuel : nat) (s : bstate) (i : inode) (src : list Z) (tot off n : Z)
  : res (Z * inode * bstate) :=
  match fuel with
  | O => Stuck OutOfFuel
  | S fuel' =>
      if tot <? n then
        '(addr, i, s) ← bmap s i (off / BSIZE);
        '(data, s) ← get_buf s addr;
        let m := Z.min (n - tot) (BSIZE - off mod BSIZE) in
        bs ← buf_load src tot m;
        data ← buf_store data (off mod BSIZE) bs;
        write_loop fuel' (put_buf (log_buf s addr data) addr) i src (tot + m) (off + m) n
      else Ok (off, i, s)
  end.

(** [writei]; a device's [write] gets the [n] bytes. *)
Definition writei (s : bstate) (i : inode) (src : list Z) (off n : Z) : res (Z * inode * bstate) :=
  if itype i =? T_DEV then
    if (imajor i <? 0) || (imajor i >=? NDEV) then Ok (-1, i, s)
    else match dev_write (imajor i) with
         | None => Ok (-1, i, s)
         | Some f => Ok (f (take (Z.to_nat n) src), i, s)
         end
  else if (off >? isize i) || (u32 (off + n) <? off) then Ok (-1, i, s)
  else if u32 (off + n) >? MAXFILE * BSIZE then Ok (-1, i, s)
  else
    '(off, i, s) ← write_loop (S (Z.to_nat n)) s i src 0 off n;
    if (n >? 0) && (off >? isize i) then
      let i := set_size off i in
      s ← iupdate s i;
      Ok (n, i, s)
    else Ok (n, i, s).

End devices.
