(* ===== verification/Xv6Dir.v ===== *)
(** The inode cache, directories and path names of the xv6 file system
    (src/설계 3번/xv6/fs.c, second half): definitions.

    A pointer to an in-memory inode is its index in [icache]; a null pointer is
    [None] where the code can have one.  [icache.lock] is held for the whole of
    each short section that uses it, so such a section is one step here; the
    sleep locks of the inodes are part of the state, and waiting for one that
    the running process cannot get is [Stuck Blocked]. *)

From S2P Require Import Prelude Bytes Xv6Locks Xv6String Xv6Fs.

Record fstate := Fstate { fb : bstate; icache : list inode }.

Definition set_fb (b : bstate) (s : fstate) : fstate := Fstate b (icache s).
Definition set_nlink v i := Inode (idev i) (inum i) (iref i) (islock i) (ivalid i) (itype i) (imajor i) (iminor i) v (isize i) (addrs i).
Definition set_majmin maj min i := Inode (idev i) (inum i) (iref i) (islock i) (ivalid i) (itype i) maj min (inlink i) (isize i) (addrs i).

(** [ip->...] *)
Definition iat (s : fstate) (ip : Z) : res inode := aget (icache s) ip.
Definition iset (s : fstate) (ip : Z) (i : inode) : res fstate := l ← aset (icache s) ip i; Ok (Fstate (fb s) l).

Section inodes.
(** The pid of the running process. *)
Context (me : Z).

Definition iinit (s : fstate) : res fstate :=
  '(v, b) ← readsb (fb s);
  Ok (Fstate (set_sb v b) (set_islock initsleeplock <$> icache s)).

(** The scan of [iget]: the entry that caches the inode, or the first unused
    one. *)
Fixpoint iget_scan (dev inum' : Z) (l : list inode) (k : Z) (empty : option Z) : Z + option Z :=
  match l with
  | [] => inr empty
  | i :: l' =>
      if (iref i >? 0) && (idev i =? dev) && (inum i =? inum') then inl k
      else iget_scan dev inum' l' (k + 1)
             (match empty with None => if iref i =? 0 then Some k else None | e => e end)
  end.

Definition iget (s : fstate) (dev inum' : Z) : res (Z * fstate) :=
  match iget_scan dev inum' (icache s) 0 None with
  | inl ip =>
      i ← iat s ip;
      r ← c_int (iref i + 1);
      s ← iset s ip (set_ref r i);
      Ok (ip, s)
  | inr None => Stuck Panicked
  | inr (Some ip) =>
      i ← iat s ip;
      s ← iset s ip (Inode dev inum' 1 (islock i) 0 (itype i) (imajor i) (iminor i) (inlink i) (isize i) (addrs i));
      Ok (ip, s)
  end.

(** The loop of [ialloc] with [k] inode numbers left. *)
Fixpoint ialloc_loop (k : nat) (s : fstate) (dev type inum' : Z) : res (Z * fstate) :=
  match k with
  | O => Stuck Panicked
  | S k' =>
      let ib := IBLOCK inum' (sb (fb s)) in
      '(data, b) ← get_buf (fb s) ib;
      let o := DINODE * (inum' mod IPB) in
      w ← buf_load data o 2;
      if s16 (getu16 w) =? 0 then
        data ← buf_store data o (replicate (Z.to_nat DINODE) 0);
        data ← buf_store data o (le16 type);
        iget (set_fb (put_buf (log_buf b ib data) ib) s) dev inum'
      else ialloc_loop k' (set_fb (put_buf b ib) s) dev type (inum' + 1)
  end.

Definition ialloc (s : fstate) (dev type : Z) : res (Z * fstate) :=
  ialloc_loop (Z.to_nat (sb_ninodes (sb (fb s)) - 1)) s dev type 1.

Definition idup (s : fstate) (ip : Z) : res fstate :=
  i ← iat s ip;
  r ← c_int (iref i + 1);
  iset s ip (set_ref r i).

Definition ilock (s : fstate) (ip : Z) : res fstate :=
  i ← iat s ip;
  if iref i <? 1 then Stuck Panicked
  else
    lk ← acquiresleep me (islock i);
    let i := set_islock lk i in
    if ivalid i =? 0 then
      let ib := IBLOCK (inum i) (sb (fb s)) in
      '(data, b) ← get_buf (fb s) ib;
      i ← load_dinode data i;
      s ← iset (set_fb (put_buf b ib) s) ip i;
      if itype i =? 0 then Stuck Panicked else Ok s
    else iset s ip i.

Definition iunlock (s : fstate) (ip : Z) : res fstate :=
  i ← iat s ip;
  if negb (holdingsleep me (islock i)) || (iref i <? 1) then Stuck Panicked
  else iset s ip (set_islock (releasesleep (islock i)) i).

Definition iput (s : fstate) (ip : Z) : res fstate :=
  i ← iat s ip;
  lk ← acquiresleep me (islock i);
  let i := set_islock lk i in
  '(i, b) ← (if negb (ivalid i =? 0) && (inlink i =? 0) then
               let r := iref i in
               if r =? 1 then
                 '(i, b) ← itrunc (fb s) i;
                 let i := set_type 0 i in
                 b ← iupdate b i;
                 Ok (set_valid 0 i, b)
               else Ok (i, fb s)
             else Ok (i, fb s));
  let i := set_islock (releasesleep (islock i)) i in
  iset (set_fb b s) ip (set_ref (iref i - 1) i).

Definition iunlockput (s : fstate) (ip : Z) : res fstate :=
  s ← iunlock s ip; iput s ip.

(** ** Directories *)

Definition namecmp (s t : list Z) : res Z := Kernel.strncmp s t DIRSIZ.

(** [struct dirent]: the inode number and the name. *)
Definition DIRENT : Z := 16.
Definition de_inum (de : list Z) : Z := getu16 de.
Definition de_name (de : list Z) : list Z := drop 2 de.

Context (dev_read : Z -> option (Z -> Z * list Z)) (dev_write : Z -> option (list Z -> Z)).

(** [readi] and [writei] through the pointer. *)
Definition readi_at (s : fstate) (ip off n : Z) : res (Z * list Z * fstate) :=
  i ← iat s ip;
  '(r, bs, i, b) ← readi dev_read (fb s) i off n;
  s ← iset (set_fb b s) ip i;
  Ok (r, bs, s).

Definition writei_at (s : fstate) (ip : Z) (src : list Z) (off n : Z) : res (Z * fstate) :=
  i ← iat s ip;
  '(r, i, b) ← writei dev_write (fb s) i src off n;
  s ← iset (set_fb b s) ip i;
  Ok (r, s).

(** The loop of [dirlookup]; the result is the inode and its offset. *)
Fixpoint dirlookup_loop (fuel : nat) (s : fstate) (dp : Z) (name : list Z) (off : Z)
  : res (option (Z * Z) * fstate) :=
  match fuel with
  | O => Stuck OutOfFuel
  | S fuel' =>
      d ← iat s dp;
      if off <? isize d then
        '(r, de, s) ← readi_at s dp off DIRENT;
        if negb (r =? DIRENT) then Stuck Panicked
        else if de_inum de =? 0 then dirlookup_loop fuel' s dp name (off + DIRENT)
        else
          c ← namecmp name (de_name de);
          if c =? 0 then
            d ← iat s dp;
            '(ip, s) ← iget s (idev d) (de_inum de);
            Ok (Some (ip, off), s)
          else dirlookup_loop fuel' s dp name (off + DIRENT)
      else Ok (None, s)
  end.

Definition dir_fuel (d : inode) : nat := S (Z.to_nat (isize d / DIRENT + 1)).

Definition dirlookup (s : fstate) (dp : Z) (name : list Z) : res (option (Z * Z) * fstate) :=
  d ← iat s dp;
  if negb (itype d =? T_DIR) then Stuck Panicked
  else dirlookup_loop (dir_fuel d) s dp name 0.

(** The search of [dirlink] for an empty entry: its offset. *)
Fixpoint dirlink_loop (fuel : nat) (s : fstate) (dp off : Z) : res (Z * fstate) :=
  match fuel with
  | O => Stuck OutOfFuel
  | S fuel' =>
      d ← iat s dp;
      if off <? isize d then
        '(r, de, s) ← readi_at s dp off DIRENT;
        if negb (r =? DIRENT) then Stuck Panicked
        else if de_inum de =? 0 then Ok (off, s)
        else dirlink_loop fuel' s dp (off + DIRENT)
      else Ok (off, s)
  end.

(** [de.name] is overwritten completely, so its old bytes do not matter. *)
Definition dirlink (s : fstate) (dp : Z) (name : list Z) (inum' : Z) : res (Z * fstate) :=
  '(found, s) ← dirlookup s dp name;
  match found with
  | Some (ip, _) => s ← iput s ip; Ok (-1, s)
  | None =>
      d ← iat s dp;
      '(off, s) ← dirlink_loop (dir_fuel d) s dp 0;
      nm ← Kernel.strncpy (replicate DIRSIZ 0) name DIRSIZ;
      '(r, s) ← writei_at s dp (le16 inum' ++ nm) off DIRENT;
      if negb (r =? DIRENT) then Stuck Panicked else Ok (0, s)
  end.

(** ** Paths *)

Definition SLASH : Z := 47.

(** The loops that step over slashes. *)
Fixpoint skip_slashes (path : list Z) : res (list Z) :=
  match path with
  | [] => Stuck OutOfBounds
  | c :: path' => if c =? SLASH then skip_slashes path' else Ok path
  end.

(** The loop that steps over one path element: its bytes and the rest. *)
Fixpoint take_elem (path : list Z) : res (list Z * list Z) :=
  match path with
  | [] => Stuck OutOfBounds
  | c :: path' =>
      if negb (c =? SLASH) && negb (c =? 0) then '(e, r) ← take_elem path'; Ok (c :: e, r) else Ok ([], path)
  end.

(** The rest of the path and the new contents of [name]. *)
Definition skipelem (path name : list Z) : res (option (list Z * list Z)) :=
  path ← skip_slashes path;
  c ← aget path 0;
  if c =? 0 then Ok None
  else
    '(e, path) ← take_elem path;
    let len := Z.of_nat (length e) in
    name ← (if len >=? Z.of_nat DIRSIZ then buf_store name 0 (take DIRSIZ e)
            else buf_store name 0 (e ++ [0]));
    path ← skip_slashes path;
    Ok (Some (path, name)).

(** The working directory of the running process. *)
Context (cwd : Z).

Fixpoint namex_loop (fuel : nat) (s : fstate) (ip : Z) (path : list Z) (nameiparent : bool) (name : list Z)
  : res (option Z * list Z * fstate) :=
  match fuel with
  | O => Stuck OutOfFuel
  | S fuel' =>
      e ← skipelem path name;
      match e with
      | None =>
          if nameiparent then s ← iput s ip; Ok (None, name, s) else Ok (Some ip, name, s)
      | Some (path, name) =>
          s ← ilock s ip;
          i ← iat s ip;
          if negb (itype i =? T_DIR) then s ← iunlockput s ip; Ok (None, name, s)
          else
            c ← aget path 0;
            if nameiparent && (c =? 0) then s ← iunlock s ip; Ok (Some ip, name, s)
            else
              '(next, s) ← dirlookup s ip name;
              match next with
              | None => s ← iunlockput s ip; Ok (None, name, s)
              | Some (next, _) =>
                  s ← iunlockput s ip;
                  namex_loop fuel' s next path nameiparent name
              end
      end
  end.

Definition namex (s : fstate) (path : list Z) (nameiparent : bool) (name : list Z)
  : res (option Z * list Z * fstate) :=
  c ← aget path 0;
  '(ip, s) ← (if c =? SLASH then iget s ROOTDEV ROOTINO else s ← idup s cwd; Ok (cwd, s));
  namex_loop (S (length path)) s ip path nameiparent name.

Definition namei (s : fstate) (path : list Z) : res (option Z * fstate) :=
  '(r, _, s) ← namex s path false (replicate DIRSIZ 0);
  Ok (r, s).

Definition nameiparent (s : fstate) (path name : list Z) : res (option Z * list Z * fstate) :=
  namex s path true name.

End inodes.
