(* ===== verification/Xv6Bitmap.v ===== *)
(** The block allocator of the xv6 file system: [balloc] and [bfree] against
    the set of used blocks, the free bit map read bit by bit. *)

From S2P Require Import Prelude Bytes Xv6Fs.

(** ** Bits *)

Definition bit_in (data : list Z) (bi : Z) : bool :=
  Z.testbit (default 0 (data !! Z.to_nat (bi / 8))) (bi mod 8).

(** Block [b] is marked in use. *)
Definition used (s : bstate) (b : Z) : bool :=
  bit_in (default [] (blocks s !! Z.to_nat (BBLOCK b (sb s)))) (b mod BPB).

Lemma land_bit x j : 0 <= j -> (Z.land x (Z.shiftl 1 j) =? 0) = negb (Z.testbit x j).
Proof.
  intros Hj. rewrite Z.shiftl_1_l. destruct (Z.testbit x j) eqn:E; cbn [negb].
  - apply Z.eqb_neq. intros H. apply (f_equal (fun z => Z.testbit z j)) in H.
    rewrite Z.land_spec, Z.pow2_bits_true, E, Z.bits_0 in H by done. done.
  - apply Z.eqb_eq. apply Z.bits_inj'. intros n Hn. rewrite Z.land_spec, Z.bits_0.
    destruct (decide (n = j)) as [->|Hne]; [by rewrite E|].
    rewrite Z.pow2_bits_false by done. apply andb_false_r.
Qed.

Lemma setbit_spec x j n : 0 <= j -> 0 <= n ->
  Z.testbit (Z.lor x (Z.shiftl 1 j)) n = if decide (n = j) then true else Z.testbit x n.
Proof.
  intros Hj Hn. rewrite Z.lor_spec, Z.shiftl_1_l. case_decide as E.
  - subst. rewrite Z.pow2_bits_true by done. apply orb_true_r.
  - rewrite Z.pow2_bits_false by done. apply orb_false_r.
Qed.

Lemma clearbit_spec x j n : 0 <= j -> 0 <= n ->
  Z.testbit (Z.land x (Z.lnot (Z.shiftl 1 j))) n = if decide (n = j) then false else Z.testbit x n.
Proof.
  intros Hj Hn. rewrite Z.land_spec, Z.lnot_spec, Z.shiftl_1_l by done. case_decide as E.
  - subst. rewrite Z.pow2_bits_true by done. apply andb_false_r.
  - rewrite Z.pow2_bits_false by done. apply andb_true_r.
Qed.

(** Changing one byte changes the bits of that byte. *)
Lemma bit_in_insert data bi v x :
  0 <= bi -> 0 <= x -> (Z.to_nat (bi / 8) < length data)%nat ->
  bit_in (<[Z.to_nat (bi / 8) := v]> data) x =
    if decide (x / 8 = bi / 8) then Z.testbit v (x mod 8) else bit_in data x.
Proof.
  intros Hb Hx Hl. unfold bit_in. case_decide as E.
  - rewrite E, list_lookup_insert_eq by done. done.
  - rewrite list_lookup_insert_ne; [done|]. pose proof (Z.div_pos x 8). pose proof (Z.div_pos bi 8). lia.
Qed.

Lemma same_bit x bi : x / 8 = bi / 8 -> x mod 8 = bi mod 8 <-> x = bi.
Proof. intros H. pose proof (Z.div_mod x 8). pose proof (Z.div_mod bi 8). split; [lia|by intros ->]. Qed.

(** The two updates of the bit map. *)
Lemma mark_bit data bi byte x :
  0 <= bi -> 0 <= x -> data !! Z.to_nat (bi / 8) = Some byte ->
  bit_in (<[Z.to_nat (bi / 8) := Z.lor byte (Z.shiftl 1 (bi mod 8))]> data) x =
    if decide (x = bi) then true else bit_in data x.
Proof.
  intros Hb Hx Hd. pose proof (Z.mod_pos_bound bi 8). pose proof (Z.mod_pos_bound x 8).
  rewrite bit_in_insert by (done || by eapply lookup_lt_Some).
  case_decide as E; [|rewrite decide_False; [done|congruence]].
  rewrite setbit_spec by lia. unfold bit_in. rewrite E, Hd. cbn [default].
  destruct (decide (x mod 8 = bi mod 8)) as [E'|E'].
  - apply (same_bit x bi E) in E'. by rewrite decide_True.
  - rewrite decide_False; [done|]. by intros ->.
Qed.

Lemma clear_bit data bi byte x :
  0 <= bi -> 0 <= x -> data !! Z.to_nat (bi / 8) = Some byte ->
  bit_in (<[Z.to_nat (bi / 8) := Z.land byte (Z.lnot (Z.shiftl 1 (bi mod 8)))]> data) x =
    if decide (x = bi) then false else bit_in data x.
Proof.
  intros Hb Hx Hd. pose proof (Z.mod_pos_bound bi 8). pose proof (Z.mod_pos_bound x 8).
  rewrite bit_in_insert by (done || by eapply lookup_lt_Some).
  case_decide as E; [|rewrite decide_False; [done|congruence]].
  rewrite clearbit_spec by lia. unfold bit_in. rewrite E, Hd. cbn [default].
  destruct (decide (x mod 8 = bi mod 8)) as [E'|E'].
  - apply (same_bit x bi E) in E'. by rewrite decide_True.
  - rewrite decide_False; [done|]. by intros ->.
Qed.

Lemma find_bit_spec data k : forall bi,
  length data = Z.to_nat BSIZE -> 0 <= bi -> bi + Z.of_nat k <= BPB ->
  exists r, find_bit k data bi = Ok r /\
    match r with
    | Some x => bi <= x < bi + Z.of_nat k /\ bit_in data x = false /\
                forall y, bi <= y < x -> bit_in data y = true
    | None => forall y, bi <= y < bi + Z.of_nat k -> bit_in data y = true
    end.
Proof.
  induction k as [|k IH]; intros bi Hl Hb Hk; cbn [find_bit].
  { exists None. split; [done|]. intros y Hy. lia. }
  assert (Hin : (Z.to_nat (bi / 8) < length data)%nat).
  { rewrite Hl. unfold BPB, BSIZE in *. Z.div_mod_to_equations. lia. }
  apply lookup_lt_is_Some in Hin as [byte Hbyte].
  rewrite (proj2 (aget_Ok _ _ byte)) by (split; [apply Z.div_pos; lia|done]). run.
  rewrite land_bit by (apply Z.mod_pos_bound; lia).
  assert (Hbit : bit_in data bi = Z.testbit byte (bi mod 8)) by (unfold bit_in; by rewrite Hbyte).
  rewrite <- Hbit. destruct (bit_in data bi) eqn:E; cbn [negb].
  - destruct (IH (bi + 1)) as (r & -> & Hr); [done|lia|lia|]. exists r. split; [done|].
    destruct r as [x|].
    + destruct Hr as (? & ? & Hy). split; [lia|]. split; [done|].
      intros y Hy'. destruct (decide (y = bi)) as [->|]; [done|]. apply Hy. lia.
    + intros y Hy. destruct (decide (y = bi)) as [->|]; [done|]. apply Hr. lia.
  - exists (Some bi). split; [done|]. split; [lia|]. split; [done|]. intros y Hy. lia.
Qed.

(** ** Buffers *)

Definition block (s : bstate) (n : Z) : list Z := default [] (blocks s !! Z.to_nat n).

Definition hold (n : Z) (s : bstate) : bstate := Bstate (blocks s) (sb s) (n :: held s) (logged s).

Lemma get_buf_Ok s n d :
  n ∉ held s -> 0 <= n -> blocks s !! Z.to_nat n = Some d -> get_buf s n = Ok (d, hold n s).
Proof.
  intros Hh Hn Hd. unfold get_buf. rewrite decide_False by done.
  rewrite (proj2 (Z.leb_le _ _)) by done. by rewrite Hd.
Qed.

Lemma filter_held (n : Z) (h : list Z) : n ∉ h -> filter (fun m => m <> n) (n :: h) = h.
Proof.
  intros H. rewrite filter_cons_False by tauto. induction h as [|m h IH]; [done|].
  rewrite filter_cons_True by set_solver. f_equal. apply IH. set_solver.
Qed.

Lemma put_buf_hold s n : n ∉ held s -> put_buf (hold n s) n = s.
Proof. intros H. unfold put_buf, hold. cbn [blocks sb held logged]. rewrite filter_held by done. by destruct s. Qed.

(** [bread], change the data, [log_write], [brelse]. *)
Definition stored (s : bstate) (n : Z) (d : list Z) : bstate :=
  Bstate (<[Z.to_nat n := d]> (blocks s)) (sb s) (held s) (logged s ++ [n]).

Lemma put_buf_stored s n d : n ∉ held s -> put_buf (log_buf (hold n s) n d) n = stored s n d.
Proof.
  intros H. unfold put_buf, log_buf, hold, stored. cbn [blocks sb held logged]. by rewrite filter_held.
Qed.

(** ** A well-formed disk *)

(** The first data block: [sb.bmapstart] and the blocks of the bit map. *)
Definition data_start (v : superblock) : Z := sb_bmapstart v + (sb_size v - 1) / BPB + 1.

Record fs_ok (s : bstate) : Prop := FsOk {
  f_size : Forall (fun d => length d = Z.to_nat BSIZE) (blocks s);
  f_len : sb_size (sb s) <= Z.of_nat (length (blocks s));
  f_inodes : 2 <= sb_inodestart (sb s);
  f_bmap : sb_inodestart (sb s) + sb_ninodes (sb s) / IPB < sb_bmapstart (sb s);
  f_ninodes : 0 <= sb_ninodes (sb s);
  f_data : data_start (sb s) < sb_size (sb s);
  f_int : sb_size (sb s) < 2 ^ 31;
  f_super : load_sb (block s 1) = Ok (sb s);
  f_meta : forall b, 0 <= b < data_start (sb s) -> used s b = true
}.

(** The process holds buffers of data blocks in use only. *)
Definition held_ok (s : bstate) : Prop := forall n, n ∈ held s -> data_start (sb s) <= n /\ used s n = true.

Definition free_block (s : bstate) (b : Z) : Prop := 0 <= b < sb_size (sb s) /\ used s b = false.

Lemma BPB_pos : 0 < BPB.
Proof. done. Qed.

Lemma data_start_pos s : fs_ok s -> 3 <= data_start (sb s).
Proof.
  intros []. unfold data_start, BPB, BSIZE, IPB in *. Z.div_mod_to_equations. lia.
Qed.

Lemma bblock_range s b :
  fs_ok s -> 0 <= b < sb_size (sb s) ->
  2 < BBLOCK b (sb s) < data_start (sb s) /\ BBLOCK b (sb s) < sb_size (sb s).
Proof.
  intros [] Hb. unfold BBLOCK, data_start in *. pose proof BPB_pos.
  assert (0 <= b / BPB) by (apply Z.div_pos; lia).
  assert (b / BPB <= (sb_size (sb s) - 1) / BPB) by (apply Z.div_le_mono; lia).
  assert (0 <= sb_ninodes (sb s) / IPB) by (apply Z.div_pos; unfold IPB; lia). lia.
Qed.

Lemma bblock_not_held s b :
  fs_ok s -> held_ok s -> 0 <= b < sb_size (sb s) -> BBLOCK b (sb s) ∉ held s.
Proof. intros Hf Hh Hb Hin. destruct (Hh _ Hin). pose proof (bblock_range s b Hf Hb). lia. Qed.

Lemma block_lookup s n :
  fs_ok s -> 0 <= n < sb_size (sb s) ->
  blocks s !! Z.to_nat n = Some (block s n) /\ length (block s n) = Z.to_nat BSIZE.
Proof.
  intros [] Hn. destruct (lookup_lt_is_Some_2 (blocks s) (Z.to_nat n)) as [d Hd]; [lia|].
  unfold block. rewrite Hd. cbn [default]. split; [done|].
  exact (proj1 (Forall_lookup _ _) f_size0 _ _ Hd).
Qed.

Lemma free_not_held s b : held_ok s -> used s b = false -> b ∉ held s.
Proof. intros Hh Hu Hin. destruct (Hh _ Hin). congruence. Qed.

Lemma free_data s b : fs_ok s -> free_block s b -> data_start (sb s) <= b.
Proof.
  intros Hf [Hb Hu]. destruct (decide (data_start (sb s) <= b)); [done|].
  rewrite (f_meta _ Hf) in Hu by lia. done.
Qed.

(** Blocks after a store. *)
Lemma block_stored s n d x :
  0 <= n < Z.of_nat (length (blocks s)) -> 0 <= x ->
  block (stored s n d) x = if decide (x = n) then d else block s x.
Proof.
  intros Hn Hx. unfold block, stored. cbn [blocks]. case_decide as E.
  - subst. rewrite list_lookup_insert_eq by lia. done.
  - rewrite list_lookup_insert_ne by lia. done.
Qed.

Lemma used_block s b : used s b = bit_in (block s (BBLOCK b (sb s))) (b mod BPB).
Proof. done. Qed.

(** Same bit map, same allocation. *)
Lemma used_stored_other s n d b :
  fs_ok s -> 0 <= n < Z.of_nat (length (blocks s)) -> 0 <= b < sb_size (sb s) ->
  n <> BBLOCK b (sb s) -> used (stored s n d) b = used s b.
Proof.
  intros Hf Hn Hb Hne. rewrite !used_block. change (sb (stored s n d)) with (sb s).
  pose proof (bblock_range s b Hf Hb). rewrite block_stored by lia. by rewrite decide_False by congruence.
Qed.

(** Storing a data block keeps the disk well formed. *)
Lemma fs_ok_stored_data s n d :
  fs_ok s -> data_start (sb s) <= n < sb_size (sb s) -> length d = Z.to_nat BSIZE -> fs_ok (stored s n d).
Proof.
  intros Hf Hn Hd. pose proof Hf as []. assert (Hlen : 0 <= n < Z.of_nat (length (blocks s))).
  { pose proof (data_start_pos s Hf). lia. }
  constructor; try done; cbn [stored blocks sb].
  - by apply Forall_insert.
  - by rewrite length_insert.
  - rewrite block_stored by lia. rewrite decide_False; [done|]. pose proof (data_start_pos s Hf). lia.
  - intros b Hb. change (sb (stored s n d)) with (sb s) in Hb.
    pose proof (bblock_range s b Hf ltac:(lia)). rewrite used_stored_other by (done || lia). by apply f_meta0.
Qed.

(** Storing a block of the bit map in which one bit was changed. *)
Lemma used_stored_bit s b d v :
  fs_ok s -> 0 <= b < sb_size (sb s) ->
  (forall y, 0 <= y < BPB -> bit_in d y = if decide (y = b mod BPB) then v else bit_in (block s (BBLOCK b (sb s))) y) ->
  forall x, 0 <= x < sb_size (sb s) ->
    used (stored s (BBLOCK b (sb s)) d) x = if decide (x = b) then v else used s x.
Proof.
  intros Hf Hb Hbits x Hx. pose proof (bblock_range s b Hf Hb). pose proof (bblock_range s x Hf Hx).
  pose proof (f_len _ Hf). rewrite used_block. change (sb (stored s _ d)) with (sb s).
  rewrite block_stored by lia. destruct (decide (BBLOCK x (sb s) = BBLOCK b (sb s))) as [E|E].
  - rewrite Hbits by (apply Z.mod_pos_bound, BPB_pos).
    assert (Hdiv : x / BPB = b / BPB) by (unfold BBLOCK in E; lia).
    destruct (decide (x mod BPB = b mod BPB)) as [E'|E'].
    + rewrite decide_True; [done|]. rewrite (Z.div_mod x BPB), (Z.div_mod b BPB) by done. congruence.
    + rewrite decide_False by congruence. rewrite used_block. by rewrite E.
  - rewrite decide_False by congruence. done.
Qed.

Lemma fs_ok_stored_bit s b d v :
  fs_ok s -> 0 <= b < sb_size (sb s) -> length d = Z.to_nat BSIZE ->
  (data_start (sb s) <= b \/ v = true) ->
  (forall y, 0 <= y < BPB -> bit_in d y = if decide (y = b mod BPB) then v else bit_in (block s (BBLOCK b (sb s))) y) ->
  fs_ok (stored s (BBLOCK b (sb s)) d).
Proof.
  intros Hf Hb Hd Hv Hbits. pose proof Hf as []. pose proof (bblock_range s b Hf Hb).
  constructor; try done; cbn [stored blocks sb].
  - by apply Forall_insert.
  - by rewrite length_insert.
  - rewrite block_stored by lia. rewrite decide_False by lia. done.
  - intros x Hx. change (sb (stored s _ d)) with (sb s) in Hx.
    rewrite (used_stored_bit s b d v) by (done || lia). case_decide as E; [|by apply f_meta0].
    subst. destruct Hv; [lia|done].
Qed.

(** ** balloc *)

Definition zeros : list Z := replicate (Z.to_nat BSIZE) 0.

(** Block [b] was free and is now allocated and zero; nothing else changed. *)
Record allocated (s : bstate) (b : Z) (s' : bstate) : Prop := Allocated {
  a_free : free_block s b;
  a_ok : fs_ok s';
  a_sb : sb s' = sb s;
  a_held : held s' = held s;
  a_logged : logged s' = logged s ++ [BBLOCK b (sb s); b];
  a_used : forall x, 0 <= x < sb_size (sb s) -> used s' x = if decide (x = b) then true else used s x;
  a_zero : block s' b = zeros;
  a_other : forall x, 0 <= x -> x <> b -> x <> BBLOCK b (sb s) -> block s' x = block s x
}.

Lemma bzero_spec s b :
  fs_ok s -> data_start (sb s) <= b < sb_size (sb s) -> b ∉ held s -> bzero s b = Ok (stored s b zeros).
Proof.
  intros Hf Hb Hh. pose proof (data_start_pos s Hf). unfold bzero.
  destruct (block_lookup s b Hf) as [Hl _]; [lia|].
  rewrite (get_buf_Ok s b (block s b)) by (done || lia). run. by rewrite put_buf_stored.
Qed.

Lemma mod_small_add b bi : b mod BPB = 0 -> 0 <= bi < BPB -> (b + bi) mod BPB = bi /\ (b + bi) / BPB = b / BPB.
Proof. intros Hb Hi. unfold BPB, BSIZE in *. split; Z.div_mod_to_equations; lia. Qed.

(** Allocating the clear bit [bi] found in the block for [b]. *)
Lemma balloc_found s b bi byte :
  fs_ok s -> held_ok s -> b mod BPB = 0 -> 0 <= bi < BPB -> 0 <= b -> b + bi < sb_size (sb s) ->
  used s (b + bi) = false -> block s (BBLOCK b (sb s)) !! Z.to_nat (bi / 8) = Some byte ->
  let d := <[Z.to_nat (bi / 8) := Z.lor byte (Z.shiftl 1 (bi mod 8))]> (block s (BBLOCK b (sb s))) in
  exists s', bzero (stored s (BBLOCK b (sb s)) d) (b + bi) = Ok s' /\ allocated s (b + bi) s'.
Proof.
  intros Hf Hh Hb Hbi Hb0 Hlt Hu Hbyte d. destruct (mod_small_add b bi Hb Hbi) as [Hmod Hdiv].
  assert (HBB : BBLOCK (b + bi) (sb s) = BBLOCK b (sb s)) by (unfold BBLOCK; by rewrite Hdiv).
  assert (Hfree : free_block s (b + bi)) by (split; [lia|done]).
  pose proof (free_data _ _ Hf Hfree) as Hds. pose proof (f_len _ Hf).
  pose proof (bblock_range s (b + bi) Hf ltac:(lia)) as Hrange. rewrite HBB in Hrange.
  destruct (block_lookup s (BBLOCK b (sb s)) Hf) as [_ Hblen]; [lia|].
  assert (Hbits : forall y, 0 <= y < BPB ->
    bit_in d y = if decide (y = (b + bi) mod BPB) then true else bit_in (block s (BBLOCK (b + bi) (sb s))) y).
  { intros y Hy. rewrite Hmod, HBB. apply mark_bit; [lia|lia|done]. }
  assert (Hd : length d = Z.to_nat BSIZE) by (unfold d; by rewrite length_insert).
  assert (Hf1 : fs_ok (stored s (BBLOCK b (sb s)) d)).
  { rewrite <- HBB. apply (fs_ok_stored_bit s (b + bi) d true); try done; [lia|by right]. }
  assert (Hu1 : forall x, 0 <= x < sb_size (sb s) ->
    used (stored s (BBLOCK b (sb s)) d) x = if decide (x = b + bi) then true else used s x).
  { rewrite <- HBB. apply (used_stored_bit s (b + bi) d true); [done|lia|done]. }
  rewrite bzero_spec; [|done|done|exact (free_not_held s _ Hh Hu)].
  eexists; split; [reflexivity|].
  constructor; try done.
  - by apply fs_ok_stored_data.
  - cbn [stored logged]. rewrite HBB, <- app_assoc. done.
  - intros x Hx. pose proof (bblock_range s x Hf Hx).
    rewrite used_stored_other; [by apply Hu1|done|cbn [stored blocks]; rewrite length_insert; lia|done|].
    cbn [stored sb]. lia.
  - rewrite block_stored by (cbn [stored blocks]; rewrite ?length_insert; lia). by rewrite decide_True.
  - intros x Hx Hne1 Hne2. rewrite HBB in Hne2.
    rewrite !block_stored by (cbn [stored blocks]; rewrite ?length_insert; lia).
    by rewrite !decide_False.
Qed.

Lemma balloc_loop_spec fuel : forall s b,
  fs_ok s -> held_ok s -> 0 <= b -> b mod BPB = 0 ->
  sb_size (sb s) <= b + BPB * (Z.of_nat fuel - 1) -> (0 < fuel)%nat ->
  (forall x, 0 <= x < b -> x < sb_size (sb s) -> used s x = true) ->
  (exists x, free_block s x) ->
  exists x s', balloc_loop fuel s b = Ok (x, s') /\ allocated s x s' /\
    forall y, 0 <= y < x -> used s y = true.
Proof.
  induction fuel as [|fuel IH]; intros s b Hf Hh Hb Hmod Hfuel Hpos Hlow Hex; [lia|]. cbn [balloc_loop].
  destruct (Z.ltb_spec b (sb_size (sb s))) as [Hlt|Hge].
  2: { destruct Hex as (x & Hx & Hu). rewrite Hlow in Hu by lia. done. }
  pose proof (bblock_range s b Hf ltac:(lia)) as Hr.
  destruct (block_lookup s (BBLOCK b (sb s)) Hf) as [Hl Hlen]; [lia|].
  pose proof (bblock_not_held s b Hf Hh ltac:(lia)) as Hnh.
  rewrite (get_buf_Ok s _ _ Hnh ltac:(lia) Hl). run. cbn [hold sb].
  destruct (find_bit_spec (block s (BBLOCK b (sb s))) (Z.to_nat (Z.min BPB (sb_size (sb s) - b))) 0)
    as (r & -> & Hres); [done|lia|lia|]. run.
  assert (Hbit : forall y, 0 <= y < BPB -> used s (b + y) = bit_in (block s (BBLOCK b (sb s))) y).
  { intros y Hy. destruct (mod_small_add b y Hmod Hy) as [E1 E2]. rewrite used_block, E1.
    unfold BBLOCK. by rewrite E2. }
  destruct r as [bi|].
  - destruct Hres as (Hbi & Hclr & Hbefore).
    assert (Hin : (Z.to_nat (bi / 8) < length (block s (BBLOCK b (sb s))))%nat).
    { rewrite Hlen. unfold BPB, BSIZE in *. Z.div_mod_to_equations. lia. }
    pose proof Hin as Hin'. apply lookup_lt_is_Some in Hin' as [byte Hbyte].
    rewrite (proj2 (aget_Ok _ _ byte)) by (split; [apply Z.div_pos; lia|done]). run.
    rewrite aset_Ok by (split; [apply Z.div_pos; lia|lia]). run. rewrite put_buf_stored by done.
    destruct (balloc_found s b bi byte) as (s' & Hz & Ha); try done; try lia.
    { rewrite Hbit by lia. done. }
    rewrite Hz. run. exists (b + bi), s'. split; [done|]. split; [done|].
    intros y Hy. destruct (decide (y < b)); [apply Hlow; lia|].
    replace y with (b + (y - b)) by lia. rewrite Hbit by lia. apply Hbefore. lia.
  - rewrite put_buf_hold by done. apply IH; try done; try lia.
    + pose proof BPB_pos. lia.
    + unfold BPB, BSIZE in *. Z.div_mod_to_equations. lia.
    + destruct fuel; [|lia]. exfalso. pose proof BPB_pos. lia.
    + intros x Hx Hxs. destruct (decide (x < b)); [apply Hlow; lia|].
      replace x with (b + (x - b)) by lia. rewrite Hbit by lia. apply Hres. lia.
Qed.

(** [balloc] allocates the first free block. *)
Lemma balloc_spec s :
  fs_ok s -> held_ok s -> (exists x, free_block s x) ->
  exists b s', balloc s = Ok (b, s') /\ allocated s b s' /\ forall y, 0 <= y < b -> used s y = true.
Proof.
  intros Hf Hh Hex. unfold balloc. apply balloc_loop_spec; try done; try lia.
  pose proof Hf as []. pose proof (data_start_pos s Hf).
  unfold BPB, BSIZE in *. Z.div_mod_to_equations. lia.
Qed.

Lemma balloc_loop_full fuel : forall s b,
  fs_ok s -> held_ok s -> 0 <= b -> b mod BPB = 0 ->
  sb_size (sb s) <= b + BPB * (Z.of_nat fuel - 1) -> (0 < fuel)%nat ->
  (forall x, 0 <= x < sb_size (sb s) -> used s x = true) -> balloc_loop fuel s b = Stuck Panicked.
Proof.
  induction fuel as [|fuel IH]; intros s b Hf Hh Hb Hmod Hfuel Hpos Hall; [lia|]. cbn [balloc_loop].
  destruct (Z.ltb_spec b (sb_size (sb s))) as [Hlt|Hge]; [|done].
  pose proof (bblock_range s b Hf ltac:(lia)) as Hr.
  destruct (block_lookup s (BBLOCK b (sb s)) Hf) as [Hl Hlen]; [lia|].
  pose proof (bblock_not_held s b Hf Hh ltac:(lia)) as Hnh.
  rewrite (get_buf_Ok s _ _ Hnh ltac:(lia) Hl). run. cbn [hold sb].
  destruct (find_bit_spec (block s (BBLOCK b (sb s))) (Z.to_nat (Z.min BPB (sb_size (sb s) - b))) 0)
    as (r & -> & Hres); [done|lia|lia|]. run. destruct r as [bi|].
  - destruct Hres as (Hbi & Hclr & _). destruct (mod_small_add b bi Hmod ltac:(lia)) as [E1 E2].
    pose proof (Hall (b + bi) ltac:(lia)) as Hu. rewrite used_block, E1 in Hu. unfold BBLOCK in Hu, Hclr.
    rewrite E2 in Hu. congruence.
  - rewrite put_buf_hold by done. apply IH; try done; try lia.
    + pose proof BPB_pos. lia.
    + unfold BPB, BSIZE in *. Z.div_mod_to_equations. lia.
    + destruct fuel; [|lia]. exfalso. pose proof BPB_pos. lia.
Qed.

(** With no free block left, [balloc] panics. *)
Lemma balloc_full s :
  fs_ok s -> held_ok s -> (forall x, 0 <= x < sb_size (sb s) -> used s x = true) -> balloc s = Stuck Panicked.
Proof.
  intros Hf Hh Hall. unfold balloc. apply balloc_loop_full; try done; try lia.
  pose proof Hf as []. pose proof (data_start_pos s Hf).
  unfold BPB, BSIZE in *. Z.div_mod_to_equations. lia.
Qed.

(** ** bfree *)

Record freed (s : bstate) (b : Z) (s' : bstate) : Prop := Freed {
  e_ok : fs_ok s';
  e_sb : sb s' = sb s;
  e_held : held s' = held s;
  e_logged : logged s' = logged s ++ [BBLOCK b (sb s)];
  e_used : forall x, 0 <= x < sb_size (sb s) -> used s' x = if decide (x = b) then false else used s x;
  e_other : forall x, 0 <= x -> x <> BBLOCK b (sb s) -> block s' x = block s x
}.

Lemma readsb_spec s : fs_ok s -> held_ok s -> readsb s = Ok (sb s, s).
Proof.
  intros Hf Hh. pose proof (data_start_pos s Hf). pose proof (f_data _ Hf).
  assert (Hn : 1 ∉ held s) by (intros Hin; destruct (Hh _ Hin); lia).
  destruct (block_lookup s 1 Hf) as [Hl _]; [lia|]. unfold readsb.
  rewrite (get_buf_Ok s 1 _ Hn ltac:(lia) Hl). run. rewrite (f_super _ Hf). run. by rewrite put_buf_hold.
Qed.

(** [bfree] clears the bit of a used data block. *)
Lemma bfree_spec s b :
  fs_ok s -> held_ok s -> data_start (sb s) <= b < sb_size (sb s) -> used s b = true ->
  exists s', bfree s b = Ok s' /\ freed s b s'.
Proof.
  intros Hf Hh Hb Hu. pose proof (data_start_pos s Hf). pose proof (f_len _ Hf).
  unfold bfree. rewrite (readsb_spec s Hf Hh). run.
  replace (set_sb (sb s) s) with s by (by destruct s).
  pose proof (bblock_range s b Hf ltac:(lia)) as Hr.
  destruct (block_lookup s (BBLOCK b (sb s)) Hf) as [Hl Hlen]; [lia|].
  pose proof (bblock_not_held s b Hf Hh ltac:(lia)) as Hnh.
  rewrite (get_buf_Ok s _ _ Hnh ltac:(lia) Hl). run.
  pose proof (Z.mod_pos_bound b BPB BPB_pos) as Hm.
  assert (Hin : (Z.to_nat (b mod BPB / 8) < length (block s (BBLOCK b (sb s))))%nat).
  { rewrite Hlen. unfold BPB, BSIZE in *. Z.div_mod_to_equations. lia. }
  pose proof Hin as Hin'. apply lookup_lt_is_Some in Hin' as [byte Hbyte].
  rewrite (proj2 (aget_Ok _ _ byte)) by (split; [apply Z.div_pos; lia|done]). run.
  rewrite land_bit by (apply Z.mod_pos_bound; lia).
  rewrite used_block in Hu. unfold bit_in in Hu. rewrite Hbyte in Hu. change (default 0 (Some byte)) with byte in Hu. rewrite Hu. cbn [negb].
  rewrite aset_Ok by (split; [apply Z.div_pos; lia|lia]). run. rewrite put_buf_stored by done.
  eexists; split; [reflexivity|].
  set (d := <[_ := _]> (block s (BBLOCK b (sb s)))).
  assert (Hbits : forall y, 0 <= y < BPB ->
    bit_in d y = if decide (y = b mod BPB) then false else bit_in (block s (BBLOCK b (sb s))) y).
  { intros y Hy. apply clear_bit; [lia|lia|done]. }
  assert (Hd : length d = Z.to_nat BSIZE) by (unfold d; by rewrite length_insert).
  constructor; try done.
  - apply (fs_ok_stored_bit s b d false); try done; [lia|left; lia].
  - apply (used_stored_bit s b d false); [done|lia|done].
  - intros x Hx Hne. rewrite block_stored by lia. by rewrite decide_False.
Qed.

(** Freeing a free block is detected. *)
Lemma bfree_free s b :
  fs_ok s -> held_ok s -> 0 <= b < sb_size (sb s) -> used s b = false -> bfree s b = Stuck Panicked.
Proof.
  intros Hf Hh Hb Hu. pose proof (data_start_pos s Hf). pose proof (f_data _ Hf).
  unfold bfree. rewrite (readsb_spec s Hf Hh). run.
  replace (set_sb (sb s) s) with s by (by destruct s).
  pose proof (bblock_range s b Hf ltac:(lia)) as Hr.
  destruct (block_lookup s (BBLOCK b (sb s)) Hf) as [Hl Hlen]; [lia|].
  pose proof (bblock_not_held s b Hf Hh ltac:(lia)) as Hnh.
  rewrite (get_buf_Ok s _ _ Hnh ltac:(lia) Hl). run.
  pose proof (Z.mod_pos_bound b BPB BPB_pos) as Hm.
  assert (Hin : (Z.to_nat (b mod BPB / 8) < length (block s (BBLOCK b (sb s))))%nat).
  { rewrite Hlen. unfold BPB, BSIZE in *. Z.div_mod_to_equations. lia. }
  apply lookup_lt_is_Some in Hin as [byte Hbyte].
  rewrite (proj2 (aget_Ok _ _ byte)) by (split; [apply Z.div_pos; lia|done]). run.
  rewrite land_bit by (apply Z.mod_pos_bound; lia).
  rewrite used_block in Hu. unfold bit_in in Hu. rewrite Hbyte in Hu. change (default 0 (Some byte)) with byte in Hu. by rewrite Hu.
Qed.

(** ** Counting free blocks *)

Definition nfree (s : bstate) : nat := length (filter (fun x => used s x = false) (seqZ 0 (sb_size (sb s)))).

Lemma filter_ext_elem (P Q : Z -> Prop) `{forall x, Decision (P x)} `{forall x, Decision (Q x)} (l : list Z) :
  (forall x, x ∈ l -> P x <-> Q x) -> filter P l = filter Q l.
Proof.
  induction l as [|x l IH]; intros HPQ; [done|]. pose proof (HPQ x ltac:(left)) as Hx.
  assert (IH' : filter P l = filter Q l) by (apply IH; intros y Hy; apply HPQ; by right).
  destruct (decide (P x)).
  - rewrite !filter_cons_True by tauto. by rewrite IH'.
  - rewrite !filter_cons_False by tauto. done.
Qed.

Lemma filter_remove (P Q : Z -> Prop) `{forall x, Decision (P x)} `{forall x, Decision (Q x)} b (l : list Z) :
  NoDup l -> b ∈ l -> P b -> (forall x, x ∈ l -> Q x <-> P x /\ x <> b) ->
  length (filter P l) = S (length (filter Q l)).
Proof.
  induction l as [|x l IH]; intros Hnd Hin Hb HQ; [by apply elem_of_nil in Hin|].
  apply NoDup_cons in Hnd as [Hx Hnd]. destruct (decide (x = b)) as [->|Hne].
  - rewrite filter_cons_True by done. rewrite filter_cons_False by (rewrite HQ; [tauto|left]).
    cbn [length]. do 2 f_equal. apply filter_ext_elem. intros y Hy.
    rewrite HQ by (by right). split; [|tauto]. intros HP. split; [done|]. by intros ->.
  - assert (HPQ : Q x <-> P x) by (rewrite HQ by left; tauto).
    assert (IH' : length (filter P l) = S (length (filter Q l))).
    { apply IH; [done|set_solver|done|]. intros y Hy. apply HQ. by right. }
    destruct (decide (P x)).
    + rewrite !filter_cons_True by tauto. cbn. by rewrite IH'.
    + rewrite !filter_cons_False by tauto. done.
Qed.

(** The count depends on the bit map only. *)
Lemma nfree_ext s s' :
  sb s' = sb s -> (forall x, 0 <= x < sb_size (sb s) -> used s' x = used s x) -> nfree s' = nfree s.
Proof.
  intros Hsb Hu. unfold nfree. rewrite Hsb. f_equal. apply filter_ext_elem. intros x Hx.
  apply elem_of_seqZ in Hx. rewrite Hu by lia. done.
Qed.

Lemma nfree_allocated s b s' : allocated s b s' -> nfree s = S (nfree s').
Proof.
  intros [[Hb Hu] _ Hsb _ _ Hused _ _]. unfold nfree. rewrite Hsb.
  apply (filter_remove _ _ b); [apply NoDup_seqZ|apply elem_of_seqZ; lia|done|].
  intros x Hx. apply elem_of_seqZ in Hx. rewrite Hused by lia. case_decide; naive_solver.
Qed.

Lemma nfree_pos s : (0 < nfree s)%nat -> exists x, free_block s x.
Proof.
  unfold nfree. intros H. destruct (filter _ _) as [|x l] eqn:E; [cbn in H; lia|].
  assert (Hin : x ∈ filter (fun x => used s x = false) (seqZ 0 (sb_size (sb s)))) by (rewrite E; left).
  apply list_elem_of_filter in Hin as [Hu Hin]. apply elem_of_seqZ in Hin. exists x. split; [lia|done].
Qed.

Lemma nfree_freed s b s' :
  freed s b s' -> 0 <= b < sb_size (sb s) -> used s b = true -> nfree s' = S (nfree s).
Proof.
  intros [_ Hsb _ _ Hused _] Hb Hu. unfold nfree. rewrite Hsb.
  apply (filter_remove _ _ b); [apply NoDup_seqZ|apply elem_of_seqZ; lia| |].
  - rewrite Hused by lia. by rewrite decide_True.
  - intros x Hx. apply elem_of_seqZ in Hx. rewrite Hused by lia. destruct (decide (x = b)) as [->|]; [rewrite Hu|]; naive_solver.
Qed.
