(* ===== verification/Xv6Inode.v ===== *)
(** The contents of an inode of the xv6 file system: [bmap], [readi] and
    [writei] against a file as a sequence of bytes.

    An inode maps up to [MAXFILE] block numbers to disk blocks, the first 12 in
    the inode and 128 more in its indirect block ([addr_of]).  The invariant
    [inode_ok] says that these blocks are allocated data blocks, all different,
    and that the file has no holes.  [extends] says how an operation on one
    inode may change the disk: it keeps the blocks of everybody else. *)

From S2P Require Import Prelude Bytes Xv6Locks Xv6Fs Xv6Bitmap.

(** ** The block map *)

(** Word [j] of a block. *)
Definition uword (data : list Z) (j : Z) : Z := getu32 (take 4 (drop (Z.to_nat (4 * j)) data)).

Definition ind_of (i : inode) : Z := default 0 (addrs i !! 12%nat).

Definition addr_of (s : bstate) (i : inode) (k : Z) : Z :=
  if k <? NDIRECT then default 0 (addrs i !! Z.to_nat k)
  else if ind_of i =? 0 then 0 else uword (block s (ind_of i)) (k - NDIRECT).

Definition in_file (k : Z) : Prop := 0 <= k < MAXFILE.

Definition data_block (s : bstate) (x : Z) : Prop :=
  data_start (sb s) <= x < sb_size (sb s) /\ used s x = true.

Record inode_ok (s : bstate) (i : inode) : Prop := InodeOk {
  i_len : length (addrs i) = 13%nat;
  i_addr : forall k, in_file k -> addr_of s i k <> 0 -> data_block s (addr_of s i k);
  i_ind : ind_of i <> 0 -> data_block s (ind_of i);
  i_ind_other : forall k, in_file k -> addr_of s i k <> 0 -> addr_of s i k <> ind_of i;
  i_inj : forall k k', in_file k -> in_file k' -> addr_of s i k <> 0 -> addr_of s i k = addr_of s i k' -> k = k'
}.

(** The blocks of the inode. *)
Definition owns (s : bstate) (i : inode) (x : Z) : Prop :=
  x <> 0 /\ (x = ind_of i \/ exists k, in_file k /\ addr_of s i k = x).

(** How work on inode [i] changes the disk. *)
Record extends (s : bstate) (i : inode) (s' : bstate) (i' : inode) : Prop := Extends {
  x_sb : sb s' = sb s;
  x_ino : i' = set_addrs (addrs i') i;
  x_used : forall x, data_block s x -> used s' x = true;
  x_meta : forall x, 0 <= x < sb_bmapstart (sb s) -> block s' x = block s x;
  x_frame : forall x, data_block s x -> ~ owns s i x -> block s' x = block s x;
  x_ind : ind_of i' = ind_of i \/ (ind_of i = 0 /\ ind_of i' <> 0 /\ used s (ind_of i') = false);
  x_addr : forall k, in_file k -> addr_of s i k <> 0 -> addr_of s' i' k = addr_of s i k;
  x_new : forall k, in_file k -> addr_of s i k = 0 -> addr_of s' i' k <> 0 -> used s (addr_of s' i' k) = false;
  x_leak : forall x, data_start (sb s) <= x < sb_size (sb s) -> used s' x = true -> used s x = false -> owns s' i' x
}.

Lemma ext_refl s i : extends s i s i.
Proof.
  constructor; try done; try (by left).
  - by destruct i.
  - by intros x [_ ?].
  - congruence.
Qed.

Lemma owns_back s i s1 i1 x :
  extends s i s1 i1 -> used s x = true -> owns s1 i1 x -> owns s i x.
Proof.
  intros H Hu (H0 & Ho). split; [done|]. destruct Ho as [->|(k & Hk & Ha)].
  - destruct (x_ind _ _ _ _ H) as [E|(_ & _ & E)]; [left; done|congruence].
  - right. exists k. split; [done|]. destruct (decide (addr_of s i k = 0)) as [E|E].
    + pose proof (x_new _ _ _ _ H k Hk E ltac:(congruence)). congruence.
    + by rewrite <- (x_addr _ _ _ _ H k Hk E).
Qed.

Lemma owns_forth s i s1 i1 x : extends s i s1 i1 -> owns s i x -> owns s1 i1 x.
Proof.
  intros H (H0 & Ho). split; [done|]. destruct Ho as [->|(k & Hk & Ha)].
  - destruct (x_ind _ _ _ _ H) as [E|(E & _)]; [by left|congruence].
  - right. exists k. split; [done|]. by rewrite (x_addr _ _ _ _ H k Hk) by congruence.
Qed.

Lemma data_block_forth s i s1 i1 x : extends s i s1 i1 -> data_block s x -> data_block s1 x.
Proof. intros H Hx. split; [rewrite (x_sb _ _ _ _ H); apply Hx|by eapply x_used]. Qed.

(** A block the second step finds free was free before the first. *)
Lemma free_back s i s1 i1 x :
  extends s i s1 i1 -> data_start (sb s) <= x < sb_size (sb s) -> used s1 x = false -> used s x = false.
Proof.
  intros H Hx Hu. destruct (used s x) eqn:E; [|done]. rewrite (x_used _ _ _ _ H) in Hu; [done|by split].
Qed.

Lemma ext_trans s i s1 i1 s2 i2 :
  inode_ok s2 i2 -> extends s i s1 i1 -> extends s1 i1 s2 i2 -> extends s i s2 i2.
Proof.
  intros Hok2 H1 H2. pose proof H1 as [Hsb1 Hi1 Hu1 Hm1 Hf1 Hd1 Ha1 Hn1 Hl1].
  pose proof H2 as [Hsb2 Hi2 Hu2 Hm2 Hf2 Hd2 Ha2 Hn2 Hl2].
  constructor.
  - congruence.
  - rewrite Hi2, Hi1. by destruct i, i1.
  - intros x Hx. apply Hu2. by eapply data_block_forth.
  - intros x Hx. rewrite Hm2 by (by rewrite Hsb1). by apply Hm1.
  - intros x Hx Hno. rewrite Hf2; [by apply Hf1|by eapply data_block_forth|].
    intros Ho. apply Hno. apply (owns_back s i s1 i1); [done|apply Hx|done].
  - destruct Hd2 as [E2|(E2 & E2' & E2'')]; [rewrite E2; done|].
    destruct Hd1 as [E1|(_ & E1 & _)]; [|congruence]. right. split; [congruence|]. split; [done|].
    apply (free_back s i s1 i1); [done| |done].
    destruct (i_ind _ _ Hok2 E2') as [Hr _]. by rewrite Hsb2, Hsb1 in Hr.
  - intros k Hk Ha. rewrite Ha2 by (done || by rewrite Ha1). by apply Ha1.
  - intros k Hk Ha Ha'. destruct (decide (addr_of s1 i1 k = 0)) as [E|E].
    + apply (free_back s i s1 i1); [done| |by apply Hn2].
      destruct (i_addr _ _ Hok2 k Hk Ha') as [Hr _]. by rewrite Hsb2, Hsb1 in Hr.
    + rewrite Ha2 by done. by apply Hn1.
  - intros x Hx Hu2x Hux. destruct (used s1 x) eqn:E.
    + apply (owns_forth s1 i1); [done|]. by apply Hl1.
    + apply Hl2; [by rewrite Hsb1|done|done].
Qed.

(** ** Words of the indirect block *)

Lemma getu32_le32 v rest : 0 <= v < 2 ^ 32 -> getu32 (le32 v ++ rest) = v.
Proof. intros Hv. cbn [le32 app getu32]. rewrite le32_mod. by apply Z.mod_small. Qed.

Lemma word_Ok data j :
  length data = Z.to_nat BSIZE -> 0 <= j < NINDIRECT -> word data j = Ok (uword data j).
Proof.
  intros Hl Hj. unfold word. unfold NINDIRECT, BSIZE in *. rewrite buf_load_Ok by lia. done.
Qed.

Lemma set_word_Ok data j v :
  length data = Z.to_nat BSIZE -> 0 <= j < NINDIRECT -> 0 <= v < 2 ^ 32 ->
  exists data', set_word data j v = Ok data' /\ length data' = Z.to_nat BSIZE /\
    forall k, 0 <= k < NINDIRECT -> uword data' k = if decide (k = j) then v else uword data k.
Proof.
  intros Hl Hj Hv. unfold set_word. unfold NINDIRECT, BSIZE in *.
  rewrite buf_store_Ok by (rewrite ?length_le32; lia). eexists; split; [reflexivity|].
  fold (splice (Z.to_nat (4 * j)) (le32 v) data). split.
  - rewrite length_splice; [done|rewrite length_le32; lia].
  - intros k Hk. unfold uword. case_decide as E.
    + subst. change 4%nat with (length (le32 v)) at 1. rewrite splice_same by lia.
      rewrite <- (app_nil_r (le32 v)). by apply getu32_le32.
    + rewrite splice_other; [done|rewrite length_le32; lia|rewrite length_le32; lia].
Qed.

Lemma uword_zeros j : 0 <= j < NINDIRECT -> uword zeros j = 0.
Proof.
  intros Hj. unfold uword, zeros, NINDIRECT, BSIZE in *. rewrite drop_replicate, take_replicate.
  replace (4 `min` _)%nat with 4%nat by lia. done.
Qed.

(** ** bmap *)

(** A block of the bit map. *)
Definition bitmap_block (v : superblock) (x : Z) : Prop := exists b, 0 <= b < sb_size v /\ x = BBLOCK b v.

(** Whether an indirect block was allocated. *)
Definition ind_cost (i i' : inode) : nat :=
  if decide (ind_of i = 0 /\ ind_of i' <> 0) then 1%nat else 0%nat.

(** What [bmap] of block [k] of the file does. *)
Record mapped (s : bstate) (i : inode) (k : Z) (a : Z) (s' : bstate) (i' : inode) : Prop := Mapped {
  m_ext : extends s i s' i';
  m_fs : fs_ok s';
  m_ino : inode_ok s' i';
  m_held : held s' = [];
  m_addr : a = addr_of s' i' k;
  m_some : a <> 0;
  m_only : forall j, in_file j -> j <> k -> addr_of s' i' j = addr_of s i j;
  m_zero : addr_of s i k = 0 -> block s' a = zeros;
  m_same : addr_of s i k <> 0 -> s' = s /\ i' = i;
  m_keep : forall j, in_file j -> addr_of s i j <> 0 -> block s' (addr_of s i j) = block s (addr_of s i j);
  m_ind : k < NDIRECT -> ind_of i' = ind_of i;
  m_free : (nfree s <= nfree s' + 1 + ind_cost i i')%nat;
  m_log : forall x, x ∈ logged s' -> x ∈ logged s \/ bitmap_block (sb s) x \/ x = a \/ (x = ind_of i' /\ NDIRECT <= k)
}.

Lemma held_ok_nil s : held s = [] -> held_ok s.
Proof. intros H n Hn. rewrite H in Hn. by apply elem_of_nil in Hn. Qed.

Lemma addr_direct s i k : k < NDIRECT -> addr_of s i k = default 0 (addrs i !! Z.to_nat k).
Proof. intros H. unfold addr_of. by rewrite (proj2 (Z.ltb_lt _ _)). Qed.

Lemma addr_indirect s i k :
  NDIRECT <= k -> addr_of s i k = if ind_of i =? 0 then 0 else uword (block s (ind_of i)) (k - NDIRECT).
Proof. intros H. unfold addr_of. by rewrite (proj2 (Z.ltb_ge _ _)). Qed.

Lemma free_data_block s x y : data_block s x -> used s y = false -> x <> y.
Proof. intros [_ Hu] Hf ->. congruence. Qed.

(** An allocation leaves the data of blocks in use alone. *)
Lemma allocated_keeps s b s' x : fs_ok s -> allocated s b s' -> data_block s x -> block s' x = block s x.
Proof.
  intros Hf Ha [Hx Hu]. pose proof (data_start_pos s Hf). pose proof (a_free _ _ _ Ha) as [Hb Hub].
  pose proof (bblock_range s b Hf Hb). apply (a_other _ _ _ Ha); [lia|congruence|lia].
Qed.

Lemma allocated_meta s b s' x :
  fs_ok s -> allocated s b s' -> 0 <= x < sb_bmapstart (sb s) -> block s' x = block s x.
Proof.
  intros Hf Ha Hx. pose proof (a_free _ _ _ Ha) as Hfb. pose proof (free_data s b Hf Hfb).
  pose proof (bblock_range s b Hf (proj1 Hfb)).
  assert (sb_bmapstart (sb s) <= BBLOCK b (sb s)).
  { unfold BBLOCK. pose proof (Z.div_pos b BPB). destruct Hfb. pose proof BPB_pos. lia. }
  assert (sb_bmapstart (sb s) <= data_start (sb s)) by lia.
  apply (a_other _ _ _ Ha); lia.
Qed.

Lemma allocated_used s b s' x :
  fs_ok s -> allocated s b s' -> data_block s x -> data_block s' x.
Proof.
  intros Hf Ha [Hx Hu]. pose proof (data_start_pos s Hf). split; [by rewrite (a_sb _ _ _ Ha)|].
  rewrite (a_used _ _ _ Ha) by lia. by case_decide.
Qed.

Lemma allocated_new s b s' : fs_ok s -> allocated s b s' -> data_block s' b /\ b <> 0.
Proof.
  intros Hf Ha. pose proof (a_free _ _ _ Ha) as Hfb. pose proof (free_data s b Hf Hfb).
  pose proof (data_start_pos s Hf). destruct Hfb as [Hb Hu].
  split; [|lia]. split; [rewrite (a_sb _ _ _ Ha); lia|]. rewrite (a_used _ _ _ Ha) by lia. by rewrite decide_True.
Qed.

(** Block numbers of a file are unaffected by allocations elsewhere. *)
Lemma addr_of_allocated s i b s' k :
  fs_ok s -> inode_ok s i -> allocated s b s' -> addr_of s' i k = addr_of s i k.
Proof.
  intros Hf Hi Ha. unfold addr_of. case_if; [done|]. case_if; [done|].
  rewrite (allocated_keeps s b s'); [done|done|done|by apply (i_ind _ _ Hi)].
Qed.

(** Giving a new block to slot [j] of [addrs]. *)
Lemma ind_insert i (j : nat) b :
  length (addrs i) = 13%nat -> ind_of (set_addrs (<[j := b]> (addrs i)) i) = if decide (j = 12%nat) then b else ind_of i.
Proof.
  intros Hl. unfold ind_of. cbn [set_addrs addrs]. case_decide as E.
  - subst. rewrite list_lookup_insert_eq by lia. done.
  - by rewrite list_lookup_insert_ne.
Qed.

(** The direct case. *)
Lemma bmap_direct_new s i bn :
  fs_ok s -> inode_ok s i -> held s = [] -> 0 <= bn < NDIRECT -> addr_of s i bn = 0 ->
  (0 < nfree s)%nat ->
  exists a i' s', bmap s i bn = Ok (a, i', s') /\ mapped s i bn a s' i'.
Proof.
  intros Hf Hi Hh Hbn Ha0 Hnf. pose proof (i_len _ _ Hi) as Hlen.
  assert (HN : NDIRECT = 12) by done.
  unfold bmap. rewrite (proj2 (Z.ltb_lt _ _)) by lia.
  rewrite addr_direct in Ha0 by lia.
  destruct (lookup_lt_is_Some_2 (addrs i) (Z.to_nat bn)) as [z Hz]; [lia|].
  rewrite Hz in Ha0. change (default 0 (Some z)) with z in Ha0. subst z.
  rewrite (proj2 (aget_Ok _ _ 0)) by (split; [lia|done]). run. cbn [Z.eqb].
  destruct (balloc_spec s Hf (held_ok_nil s Hh) (nfree_pos s Hnf)) as (b & s' & Hb & Hal & _).
  rewrite Hb. run. rewrite aset_Ok by lia. run.
  set (i' := set_addrs (<[Z.to_nat bn := b]> (addrs i)) i). exists b, i', s'. split; [done|].
  destruct (allocated_new s b s' Hf Hal) as [Hnew Hb0].
  pose proof (a_free _ _ _ Hal) as [_ Hub].
  assert (Hind : ind_of i' = ind_of i) by (unfold i'; rewrite ind_insert by done; rewrite decide_False by lia; done).
  assert (Hbn' : addr_of s' i' bn = b).
  { rewrite addr_direct by lia. unfold i'. cbn [set_addrs addrs]. by rewrite list_lookup_insert_eq by lia. }
  assert (Hother : forall k, in_file k -> k <> bn -> addr_of s' i' k = addr_of s i k).
  { intros k Hk Hne. rewrite <- (addr_of_allocated s i b s' k Hf Hi Hal). unfold addr_of. rewrite Hind.
    case_if; [|done]. unfold i'. cbn [set_addrs addrs]. destruct Hk. rewrite list_lookup_insert_ne by lia. done. }
  assert (Hbn0 : addr_of s i bn = 0) by (rewrite addr_direct by lia; by rewrite Hz).
  assert (Hext : extends s i s' i').
  { constructor; try done.
    - apply Hal.
    - intros x Hx. by apply (allocated_used s b s').
    - intros x Hx. by apply (allocated_meta s b s').
    - intros x Hx _. by apply (allocated_keeps s b s').
    - by left.
    - intros k Hk Hka. apply Hother; [done|]. congruence.
    - intros k Hk Hka Hka'. destruct (decide (k = bn)) as [->|Hne]; [by rewrite Hbn'|].
      rewrite Hother in Hka' by done. congruence.
    - intros x Hx Hu Hu'. pose proof (data_start_pos s Hf). rewrite (a_used _ _ _ Hal) in Hu by lia.
      case_decide as E; [|congruence]. rewrite E. split; [done|]. right. exists bn.
      unfold in_file, MAXFILE, NINDIRECT. split; [lia|done]. }
  constructor; try done.
  - apply Hal.
  - constructor.
    + unfold i'. cbn [set_addrs addrs]. by rewrite length_insert.
    + intros k Hk. destruct (decide (k = bn)) as [->|Hne]; [by rewrite Hbn'|].
      rewrite Hother by done. intros Hka. apply (allocated_used s b s'); [done|done|]. by apply (i_addr _ _ Hi).
    + rewrite Hind. intros Hi0. apply (allocated_used s b s'); [done|done|]. by apply (i_ind _ _ Hi).
    + intros k Hk. rewrite Hind. destruct (decide (k = bn)) as [->|Hne].
      * rewrite Hbn'. intros _ E. destruct (decide (ind_of i = 0)); [congruence|].
        apply (free_data_block s (ind_of i) b); [by apply (i_ind _ _ Hi)|done|done].
      * rewrite Hother by done. by apply (i_ind_other _ _ Hi).
    + intros k k' Hk Hk'. destruct (decide (k = bn)) as [->|Hne], (decide (k' = bn)) as [->|Hne']; [done| | |].
      * rewrite Hbn', Hother by done. intros _ E. exfalso.
        apply (free_data_block s (addr_of s i k') b); [apply (i_addr _ _ Hi); [done|congruence]|done|done].
      * rewrite Hbn', Hother by done. intros Hka E. exfalso.
        apply (free_data_block s (addr_of s i k) b); [by apply (i_addr _ _ Hi)|done|done].
      * rewrite !Hother by done. by apply (i_inj _ _ Hi).
  - by rewrite (a_held _ _ _ Hal).
  - intros _. apply Hal.
  - intros j Hj Hja. apply (allocated_keeps s b s'); [done|done|by apply (i_addr _ _ Hi)].
  - rewrite (nfree_allocated _ _ _ Hal). lia.
  - intros x Hx. rewrite (a_logged _ _ _ Hal), elem_of_app, !elem_of_cons, elem_of_nil in Hx.
    destruct Hx as [?|[->|[->|[]]]]; [by left| |by right; right; left].
    right; left. exists b. split; [apply Hal|done].
Qed.

(** A new indirect block maps nothing yet. *)
Lemma new_indirect s i b s1 :
  fs_ok s -> inode_ok s i -> held s = [] -> ind_of i = 0 -> allocated s b s1 ->
  let i1 := set_addrs (<[12%nat := b]> (addrs i)) i in
  extends s i s1 i1 /\ inode_ok s1 i1 /\ held s1 = [] /\ ind_of i1 = b /\
  (forall k, in_file k -> addr_of s1 i1 k = addr_of s i k).
Proof.
  intros Hf Hi Hh Hi0 Hal i1. pose proof (i_len _ _ Hi) as Hlen.
  destruct (allocated_new s b s1 Hf Hal) as [Hnew Hb0]. pose proof (a_free _ _ _ Hal) as [_ Hub].
  assert (Hind : ind_of i1 = b) by (unfold i1; by rewrite ind_insert).
  assert (Haddr : forall k, in_file k -> addr_of s1 i1 k = addr_of s i k).
  { intros k Hk. unfold addr_of. rewrite Hind, Hi0. case_if.
    - unfold i1. cbn [set_addrs addrs]. unfold NDIRECT in *. destruct Hk. rewrite list_lookup_insert_ne by lia. done.
    - rewrite (proj2 (Z.eqb_neq b 0)) by done. rewrite (a_zero _ _ _ Hal). apply uword_zeros.
      unfold in_file, MAXFILE in Hk. lia. }
  split; [|split; [|split; [by rewrite (a_held _ _ _ Hal)|split; [done|done]]]].
  - constructor; try done.
    + apply Hal.
    + intros x Hx. by apply (allocated_used s b s1).
    + intros x Hx. by apply (allocated_meta s b s1).
    + intros x Hx _. by apply (allocated_keeps s b s1).
    + right. by rewrite Hind.
    + intros k Hk _. by apply Haddr.
    + intros k Hk Hka Hka'. rewrite Haddr in Hka' by done. congruence.
    + intros x Hx Hu Hu'. pose proof (data_start_pos s Hf). rewrite (a_used _ _ _ Hal) in Hu by lia.
      case_decide as E; [|congruence]. rewrite E. split; [done|]. by left.
  - constructor.
    + unfold i1. cbn [set_addrs addrs]. by rewrite length_insert.
    + intros k Hk. rewrite Haddr by done. intros Hka. apply (allocated_used s b s1); [done|done|].
      by apply (i_addr _ _ Hi).
    + by rewrite Hind.
    + intros k Hk. rewrite Haddr, Hind by done. intros Hka.
      apply (free_data_block s); [by apply (i_addr _ _ Hi)|done].
    + intros k k' Hk Hk'. rewrite !Haddr by done. by apply (i_inj _ _ Hi).
Qed.

Lemma allocated_unhold s n b s1 :
  held s = [] -> allocated (hold n s) b s1 -> exists s2, s1 = hold n s2 /\ allocated s b s2 /\ held s2 = [].
Proof.
  intros Hh [Hfr Hok Hsb Hheld Hlog Hu Hz Ho]. exists (Bstate (blocks s1) (sb s1) [] (logged s1)). split; [|split].
  - destruct s1. cbn in Hheld. rewrite Hh in Hheld. by rewrite Hheld.
  - constructor; try done. destruct Hok. by constructor.
  - done.
Qed.

Lemma fs_ok_hold n s : fs_ok s -> fs_ok (hold n s).
Proof. intros []. by constructor. Qed.

(** Storing a new block number in the indirect block. *)
Lemma map_indirect s i k b s2 data' :
  fs_ok s -> inode_ok s i -> ind_of i <> 0 -> NDIRECT <= k < MAXFILE -> addr_of s i k = 0 ->
  allocated s b s2 -> held s2 = [] -> length data' = Z.to_nat BSIZE ->
  (forall j, 0 <= j < NINDIRECT ->
     uword data' j = if decide (j = k - NDIRECT) then b else uword (block s (ind_of i)) j) ->
  mapped s i k b (stored s2 (ind_of i) data') i.
Proof.
  intros Hf Hi Hi0 Hk Ha0 Hal Hh2 Hl' Hw. set (s' := stored s2 (ind_of i) data').
  destruct (allocated_new s b s2 Hf Hal) as [Hnew Hb0]. pose proof (a_free _ _ _ Hal) as [Hbr Hub].
  pose proof (a_ok _ _ _ Hal) as Hf2. pose proof (a_sb _ _ _ Hal) as Hsb.
  assert (Hind : data_block s (ind_of i)) by (by apply (i_ind _ _ Hi)).
  assert (Hind2 : data_block s2 (ind_of i)) by (by apply (allocated_used s b s2)).
  pose proof (data_start_pos s2 Hf2) as Hds. pose proof (f_len _ Hf2) as Hfl. destruct Hind2 as [Hir Hiu].
  assert (Hlen2 : 0 <= ind_of i < Z.of_nat (length (blocks s2))) by lia.
  assert (Hneb : ind_of i <> b) by (by apply (free_data_block s)).
  assert (Hblk : forall x, 0 <= x -> x <> ind_of i -> block s' x = block s2 x).
  { intros x Hx Hne. unfold s'. rewrite block_stored by done. by rewrite decide_False. }
  assert (Hused : forall x, 0 <= x < sb_size (sb s) -> used s' x = used s2 x).
  { intros x Hx. rewrite <- Hsb in Hx. pose proof (bblock_range s2 x Hf2 Hx).
    apply used_stored_other; [done|done|done|lia]. }
  assert (Haddr : forall j, in_file j -> addr_of s' i j = if decide (j = k) then b else addr_of s i j).
  { intros j Hj. unfold addr_of. case_if; [rewrite decide_False by lia; done|].
    rewrite (proj2 (Z.eqb_neq (ind_of i) 0)) by done.
    unfold s'. rewrite block_stored by lia. rewrite decide_True by done.
    unfold in_file, MAXFILE in Hj. rewrite Hw by lia.
    destruct (decide (j = k)) as [->|]; [by rewrite decide_True|by rewrite decide_False by lia]. }
  assert (Hsb' : sb s' = sb s) by (cbn; done).
  assert (Hfs' : fs_ok s') by (apply fs_ok_stored_data; done).
  assert (Hdb : forall x, data_block s2 x -> data_block s' x).
  { intros x [Hx Hu]. split; [cbn; done|]. rewrite Hused; [done|]. rewrite <- Hsb. lia. }
  assert (Hfile : in_file k) by (unfold in_file, NDIRECT in *; lia).
  assert (Hext : extends s i s' i).
  { constructor; try done.
    - by destruct i.
    - intros x Hx. apply (Hdb x). by apply (allocated_used s b s2).
    - intros x Hx. rewrite Hblk; [by apply (allocated_meta s b s2)|lia|].
      pose proof Hf as []. unfold data_start in Hir. rewrite Hsb in Hir.
      pose proof (Z.div_pos (sb_size (sb s) - 1) BPB). pose proof BPB_pos. pose proof (data_start_pos s Hf). lia.
    - intros x Hx Hno. rewrite Hblk; [by apply (allocated_keeps s b s2)| |].
      + destruct Hx as [Hx _]. pose proof (data_start_pos s Hf). lia.
      + intros E. apply Hno. rewrite E. split; [done|by left].
    - by left.
    - intros j Hj Hja. rewrite Haddr by done. rewrite decide_False; [done|]. by intros ->.
    - intros j Hj Hja Hja'. rewrite Haddr in Hja' |- * by done. case_decide; [done|congruence].
    - intros x Hx Hu Hu'. pose proof (data_start_pos s Hf).
      rewrite Hused, (a_used _ _ _ Hal) in Hu by lia. case_decide as E; [|congruence]. rewrite E.
      split; [done|]. right. exists k. split; [done|]. rewrite Haddr by done. by rewrite decide_True. }
  constructor; try done.
  - constructor.
    + apply Hi.
    + intros j Hj. rewrite Haddr by done. case_decide; [intros _; by apply Hdb|].
      intros Hja. apply Hdb, (allocated_used s b s2); [done|done|]. by apply (i_addr _ _ Hi).
    + intros _. by apply Hdb.
    + intros j Hj. rewrite Haddr by done. case_decide; [done|]. by apply (i_ind_other _ _ Hi).
    + intros j j' Hj Hj'. rewrite !Haddr by done.
      destruct (decide (j = k)) as [->|Hne], (decide (j' = k)) as [->|Hne']; [done| | |].
      * intros _ E. exfalso. apply (free_data_block s (addr_of s i j') b); [|done|done].
        apply (i_addr _ _ Hi); [done|congruence].
      * intros Hja E. exfalso. apply (free_data_block s (addr_of s i j) b); [|done|done]. by apply (i_addr _ _ Hi).
      * by apply (i_inj _ _ Hi).
  - rewrite Haddr by done. by rewrite decide_True.
  - intros j Hj Hne. rewrite Haddr by done. by rewrite decide_False.
  - intros _. rewrite Hblk by (done || lia). apply Hal.
  - intros j Hj Hja. pose proof (i_addr _ _ Hi j Hj Hja) as Hdj. pose proof (data_start_pos s Hf).
    rewrite Hblk; [by apply (allocated_keeps s b s2)|destruct Hdj; lia|by apply (i_ind_other _ _ Hi)].
  - rewrite (nfree_allocated _ _ _ Hal).
    assert (E : nfree s' = nfree s2); [|rewrite E; lia].
    apply nfree_ext; [done|]. intros x Hx. apply Hused. by rewrite <- Hsb.
  - intros x Hx. cbn [s' stored logged] in Hx. rewrite (a_logged _ _ _ Hal), !elem_of_app, !elem_of_cons, elem_of_nil in Hx.
    destruct Hx as [[?|[->|[->|[]]]]|[->|[]]]; [by left| |by right; right; left|right; right; right; split; [done|lia]].
    right; left. exists b. split; [apply Hal|done].
Qed.

(** The blocks [bmap] may have to allocate. *)
Definition bmap_need (s : bstate) (i : inode) (k : Z) : nat :=
  if decide (addr_of s i k = 0) then
    if decide (NDIRECT <= k /\ ind_of i = 0) then 2%nat else 1%nat
  else 0%nat.

Lemma mapped_refl s i k :
  fs_ok s -> inode_ok s i -> held s = [] -> addr_of s i k <> 0 -> mapped s i k (addr_of s i k) s i.
Proof.
  intros. constructor; try done.
  - apply ext_refl.
  - lia.
  - intros x Hx. by left.
Qed.

(** [bmap] behind an indirect block. *)
Definition bmap_indirect (s : bstate) (i : inode) (bn : Z) : res (Z * inode * bstate) :=
  '(data, s) ← get_buf s (ind_of i);
  addr ← word data bn;
  if addr =? 0 then
    '(addr, s) ← balloc s;
    data ← set_word data bn addr;
    Ok (addr, i, put_buf (log_buf s (ind_of i) data) (ind_of i))
  else Ok (addr, i, put_buf s (ind_of i)).

Lemma bmap_indirect_spec s i k :
  fs_ok s -> inode_ok s i -> held s = [] -> ind_of i <> 0 -> NDIRECT <= k < MAXFILE ->
  addr_of s i k <> 0 \/ (0 < nfree s)%nat ->
  exists a s', bmap_indirect s i (k - NDIRECT) = Ok (a, i, s') /\ mapped s i k a s' i.
Proof.
  intros Hf Hi Hh Hi0 Hk Hfree. pose proof (i_ind _ _ Hi Hi0) as Hind.
  pose proof (data_start_pos s Hf). pose proof Hind as [Hir Hiu].
  destruct (block_lookup s (ind_of i) Hf) as [Hl Hlen]; [lia|].
  assert (Hnh : ind_of i ∉ held s) by (rewrite Hh; apply not_elem_of_nil).
  unfold bmap_indirect. rewrite (get_buf_Ok s _ _ Hnh ltac:(lia) Hl). run.
  assert (Hj : 0 <= k - NDIRECT < NINDIRECT) by (unfold MAXFILE in Hk; lia).
  rewrite (word_Ok _ _ Hlen Hj). run.
  assert (Haddr : addr_of s i k = uword (block s (ind_of i)) (k - NDIRECT)).
  { rewrite addr_indirect by lia. by rewrite (proj2 (Z.eqb_neq _ _)). }
  rewrite <- Haddr. destruct (Z.eqb_spec (addr_of s i k) 0) as [E|E].
  - destruct Hfree as [?|Hfree]; [done|].
    assert (Hh0 : held_ok (hold (ind_of i) s)).
    { intros n Hn. cbn [hold held] in Hn. rewrite Hh in Hn. apply list_elem_of_singleton in Hn as ->.
      split; [apply Hir|exact Hiu]. }
    destruct (balloc_spec (hold (ind_of i) s) (fs_ok_hold _ _ Hf) Hh0) as (b & s1 & Hb & Hal & _).
    { apply nfree_pos. exact Hfree. }
    destruct (allocated_unhold s (ind_of i) b s1 Hh Hal) as (s2 & -> & Hal2 & Hh2).
    rewrite Hb. run. pose proof (a_free _ _ _ Hal2) as [Hbr _]. pose proof (f_int _ Hf).
    destruct (set_word_Ok (block s (ind_of i)) (k - NDIRECT) b Hlen Hj) as (data' & Hd & Hl' & Hw); [lia|].
    rewrite Hd. run. rewrite put_buf_stored by (rewrite Hh2; apply not_elem_of_nil).
    exists b, (stored s2 (ind_of i) data'). split; [done|]. by apply map_indirect.
  - rewrite put_buf_hold by done. exists (addr_of s i k), s. split; [done|]. by apply mapped_refl.
Qed.

Lemma mapped_trans_new s i s1 i1 k a s2 :
  addr_of s i k = 0 -> in_file k -> NDIRECT <= k ->
  extends s i s1 i1 -> ind_of i = 0 -> ind_of i1 <> 0 -> (nfree s <= S (nfree s1))%nat ->
  (forall j, in_file j -> addr_of s1 i1 j = addr_of s i j) ->
  (forall j, in_file j -> addr_of s i j <> 0 -> block s1 (addr_of s i j) = block s (addr_of s i j)) ->
  (forall x, x ∈ logged s1 -> x ∈ logged s \/ bitmap_block (sb s) x \/ x = ind_of i1) ->
  mapped s1 i1 k a s2 i1 -> mapped s i k a s2 i1.
Proof.
  intros H0 Hk Hk12 Hext Hi0 Hi1 Hn Hsame Hkeep Hlog [He Hf Hi Hh Ha Hs Ho Hz Hsm Hkp Hin Hfr Hl].
  constructor; try done.
  - by eapply ext_trans.
  - intros j Hj Hne. rewrite Ho by done. by apply Hsame.
  - intros _. apply Hz. by rewrite Hsame.
  - intros j Hj Hja. rewrite <- Hkeep by done. rewrite <- Hsame in Hja |- * by done. by apply Hkp.
  - lia.
  - unfold ind_cost in *. rewrite decide_False in Hfr by tauto. rewrite decide_True by done. lia.
  - intros x Hx. apply Hl in Hx as [Hx|[Hx|[Hx|Hx]]].
    + apply Hlog in Hx as [?|[?| ->]]; [by left|by right; left|by right; right; right].
    + right; left. by rewrite (x_sb _ _ _ _ Hext) in Hx.
    + by right; right; left.
    + by right; right; right.
Qed.

(** [bmap] returns the disk block of block [k] of the file, allocating it (and
    the indirect block) when needed. *)
Lemma bmap_spec s i k :
  fs_ok s -> inode_ok s i -> held s = [] -> in_file k -> (bmap_need s i k <= nfree s)%nat ->
  exists a i' s', bmap s i k = Ok (a, i', s') /\ mapped s i k a s' i'.
Proof.
  intros Hf Hi Hh Hk Hneed. pose proof (i_len _ _ Hi) as Hlen. unfold in_file in Hk.
  unfold bmap_need in Hneed.
  destruct (Z.ltb_spec k NDIRECT) as [Hd|Hd].
  - destruct (decide (addr_of s i k = 0)) as [E|E].
    + apply bmap_direct_new; try done; [lia|]. case_decide; lia.
    + unfold bmap. rewrite (proj2 (Z.ltb_lt _ _)) by lia.
      pose proof E as E'. rewrite addr_direct in E' by lia. assert (HN : NDIRECT = 12) by done.
      destruct (lookup_lt_is_Some_2 (addrs i) (Z.to_nat k)) as [z Hz]; [lia|].
      rewrite (proj2 (aget_Ok _ _ z)) by (split; [lia|done]). run.
      assert (Hza : z = addr_of s i k) by (rewrite addr_direct by lia; by rewrite Hz).
      rewrite (proj2 (Z.eqb_neq _ _)) by congruence. exists z, i, s. split; [done|].
      rewrite Hza. by apply mapped_refl.
  - assert (Hi12 : addrs i !! 12%nat = Some (ind_of i)).
    { destruct (lookup_lt_is_Some_2 (addrs i) 12) as [z Hz]; [lia|]. unfold ind_of. by rewrite Hz. }
    unfold bmap. rewrite (proj2 (Z.ltb_ge _ _)) by lia.
    rewrite (proj2 (Z.ltb_lt _ _)) by (unfold MAXFILE in Hk; lia).
    rewrite (proj2 (aget_Ok _ NDIRECT (ind_of i))) by done. run.
    destruct (Z.eqb_spec (ind_of i) 0) as [E|E].
    + assert (Ha0 : addr_of s i k = 0) by (rewrite addr_indirect by lia; by rewrite E).
      rewrite decide_True in Hneed by done. rewrite decide_True in Hneed by done.
      destruct (balloc_spec s Hf (held_ok_nil s Hh) (nfree_pos s ltac:(lia))) as (b & s1 & Hb & Hal & _).
      rewrite Hb. run. rewrite aset_Ok by (rewrite Hlen; unfold NDIRECT; lia). run.
      change (Z.to_nat NDIRECT) with 12%nat.
      destruct (new_indirect s i b s1 Hf Hi Hh E Hal) as (Hext & Hi1 & Hh1 & Hind1 & Hsame).
      set (i1 := set_addrs (<[12%nat := b]> (addrs i)) i) in *.
      destruct (allocated_new s b s1 Hf Hal) as [_ Hb0]. pose proof (nfree_allocated _ _ _ Hal) as Hnf.
      destruct (bmap_indirect_spec s1 i1 k (a_ok _ _ _ Hal) Hi1 Hh1) as (a & s2 & Hbi & Hm);
        [congruence|lia|right; lia|].
      exists a, i1, s2. split; [rewrite <- Hind1; exact Hbi|].
      apply (mapped_trans_new s i s1 i1); try done; [congruence|lia| |].
      { intros j Hj Hja. apply (allocated_keeps s b s1); [done|done|by apply (i_addr _ _ Hi)]. }
      intros x Hx. rewrite (a_logged _ _ _ Hal), elem_of_app, !elem_of_cons, elem_of_nil in Hx.
      destruct Hx as [?|[->|[->|[]]]]; [by left| |by right; right].
      right; left. exists b. split; [apply Hal|done].
    + destruct (bmap_indirect_spec s i k Hf Hi Hh E) as (a & s2 & Hbi & Hm); [lia| |].
      { destruct (decide (addr_of s i k = 0)); [right|by left]. case_decide; lia. }
      exists a, i, s2. split; [exact Hbi|done].
Qed.
