(* ===== verification/Xv6Dinode.v ===== *)
(** Inodes on disk: [iupdate] writes the 64 bytes of an inode into its slot of
    its inode block, and the copy that [ilock] makes reads them back. *)

From S2P Require Import Prelude Bytes Xv6Locks Xv6Fs Xv6Bitmap Xv6Inode.

(** ** The fields fit their types *)

Definition in_s16 (z : Z) : Prop := - 32768 <= z < 32768.
Definition in_u32 (z : Z) : Prop := 0 <= z < 2 ^ 32.

Record fields_ok (i : inode) : Prop := FieldsOk {
  d_type : in_s16 (itype i);
  d_major : in_s16 (imajor i);
  d_minor : in_s16 (iminor i);
  d_nlink : in_s16 (inlink i);
  d_size : in_u32 (isize i);
  d_addrs : Forall in_u32 (addrs i);
  d_len : length (addrs i) = 13%nat
}.

(** The inode is in the table and its copy on disk is current. *)
Definition in_table (s : bstate) (i : inode) : Prop := 0 <= inum i < sb_ninodes (sb s).

Definition synced (s : bstate) (i : inode) : Prop :=
  load_dinode (block s (IBLOCK (inum i) (sb s))) i = Ok (set_valid 1 i).

(** ** Bytes *)

Lemma getu16_le16 z rest : in_s16 z -> s16 (getu16 (le16 z ++ rest)) = z.
Proof.
  unfold in_s16, s16. intros H. cbn [le16 app getu16]. Z.div_mod_to_equations. lia.
Qed.

Lemma length_dinode_bytes i : length (addrs i) = 13%nat -> length (dinode_bytes i) = 64%nat.
Proof.
  intros H. unfold dinode_bytes. rewrite !length_app.
  rewrite (length_mjoin_uniform 4) by (apply Forall_fmap, Forall_true; done).
  rewrite length_fmap, H. done.
Qed.

(** A load inside what was stored. *)
Lemma splice_inside o bs buf x n :
  (o + length bs <= length buf)%nat -> (x + n <= length bs)%nat ->
  take n (drop (o + x) (splice o bs buf)) = take n (drop x bs).
Proof.
  intros Hl Hx. apply list_eq. intros j. destruct (decide (j < n)%nat); [|by rewrite !lookup_take_ge by lia].
  rewrite !lookup_take_lt, !lookup_drop, splice_lookup by lia. rewrite decide_True by lia. f_equal. lia.
Qed.

Lemma words_from_spec data ws : forall o,
  0 <= o -> o + 4 * Z.of_nat (length ws) <= Z.of_nat (length data) -> Forall in_u32 ws ->
  take (4 * length ws) (drop (Z.to_nat o) data) = mjoin (le32 <$> ws) ->
  words_from (length ws) data o = Ok ws.
Proof.
  induction ws as [|w ws IH]; intros o Ho Hl Hw Heq; [done|]. cbn [length words_from].
  apply Forall_cons in Hw as [Hw Hws]. cbn [length] in Hl, Heq.
  rewrite fmap_cons in Heq. change (mjoin (le32 w :: (le32 <$> ws))) with (le32 w ++ mjoin (le32 <$> ws)) in Heq.
  replace (4 * S (length ws))%nat with (4 + 4 * length ws)%nat in Heq by lia.
  rewrite <- take_take_drop, drop_drop in Heq.
  apply app_inj_1 in Heq as [H1 H2]; [|rewrite length_take, length_drop, length_le32; lia].
  rewrite buf_load_Ok by lia. run. change (Z.to_nat 4) with 4%nat. rewrite H1.
  rewrite <- (app_nil_r (le32 w)), getu32_le32 by done.
  rewrite IH; try done; try lia.
  rewrite <- H2. do 2 f_equal. lia.
Qed.

(** ** iupdate *)

(** The inode block with the inode in its slot. *)
Definition put_dinode (s : bstate) (i : inode) : list Z :=
  splice (Z.to_nat (DINODE * (inum i mod IPB))) (dinode_bytes i) (block s (IBLOCK (inum i) (sb s))).

Lemma iblock_range s n :
  fs_ok s -> 0 <= n < sb_ninodes (sb s) ->
  2 <= IBLOCK n (sb s) < sb_bmapstart (sb s) /\ IBLOCK n (sb s) < sb_size (sb s).
Proof.
  intros Hf Hn. pose proof Hf as []. unfold IBLOCK, data_start in *.
  assert (0 <= n / IPB) by (apply Z.div_pos; unfold IPB; lia).
  assert (n / IPB <= sb_ninodes (sb s) / IPB) by (apply Z.div_le_mono; unfold IPB; lia).
  pose proof (data_start_pos s Hf). unfold data_start in *.
  assert (0 <= (sb_size (sb s) - 1) / BPB) by (apply Z.div_pos; [lia|done]). lia.
Qed.

Lemma slot_range n : 0 <= DINODE * (n mod IPB) /\ DINODE * (n mod IPB) + 64 <= BSIZE.
Proof. pose proof (Z.mod_pos_bound n IPB). unfold DINODE, IPB, BSIZE in *. lia. Qed.

Lemma iupdate_Ok s i :
  fs_ok s -> in_table s i -> length (addrs i) = 13%nat -> IBLOCK (inum i) (sb s) ∉ held s ->
  iupdate s i = Ok (stored s (IBLOCK (inum i) (sb s)) (put_dinode s i)).
Proof.
  intros Hf Ht Hl Hh. pose proof (iblock_range s _ Hf Ht) as Hr. pose proof (slot_range (inum i)).
  destruct (block_lookup s (IBLOCK (inum i) (sb s)) Hf) as [Hb Hlen]; [lia|].
  unfold iupdate. rewrite (get_buf_Ok s _ _ Hh ltac:(lia) Hb). run.
  rewrite buf_store_Ok by (rewrite ?length_dinode_bytes; lia). run. by rewrite put_buf_stored.
Qed.

Lemma length_put_dinode s i :
  fs_ok s -> in_table s i -> length (addrs i) = 13%nat -> length (put_dinode s i) = Z.to_nat BSIZE.
Proof.
  intros Hf Ht Hl. pose proof (iblock_range s _ Hf Ht) as Hr. pose proof (slot_range (inum i)).
  destruct (block_lookup s (IBLOCK (inum i) (sb s)) Hf) as [_ Hlen]; [lia|].
  unfold put_dinode. rewrite length_splice; [done|]. rewrite length_dinode_bytes by done. lia.
Qed.

(** Storing an inode block keeps the disk well formed and the bit map. *)
Lemma stored_iblock s n d :
  fs_ok s -> 0 <= n < sb_ninodes (sb s) -> length d = Z.to_nat BSIZE ->
  let s' := stored s (IBLOCK n (sb s)) d in
  fs_ok s' /\ (forall b, 0 <= b < sb_size (sb s) -> used s' b = used s b) /\ nfree s' = nfree s /\
  (forall x, 0 <= x -> x <> IBLOCK n (sb s) -> block s' x = block s x).
Proof.
  intros Hf Hn Hd s'. pose proof (iblock_range s n Hf Hn) as Hr. pose proof (f_len _ Hf) as Hlen.
  assert (Hblk : forall x, 0 <= x -> x <> IBLOCK n (sb s) -> block s' x = block s x).
  { intros x Hx Hne. unfold s'. rewrite block_stored by lia. by rewrite decide_False. }
  assert (Hused : forall b, 0 <= b < sb_size (sb s) -> used s' b = used s b).
  { intros b Hb. rewrite !used_block. change (sb s') with (sb s).
    assert (sb_bmapstart (sb s) <= BBLOCK b (sb s)).
    { unfold BBLOCK. pose proof (Z.div_pos b BPB). pose proof BPB_pos. lia. }
    rewrite Hblk by lia. done. }
  split; [|split; [done|split; [by apply nfree_ext|done]]].
  pose proof Hf as []. constructor; try done; cbn [s' stored blocks sb].
  - by apply Forall_insert.
  - by rewrite length_insert.
  - change (stored _ _ _) with s'. rewrite Hblk by lia. done.
  - intros b Hb. change (sb s') with (sb s) in Hb. rewrite Hused by lia. by apply f_meta.
Qed.

(** Reading back what [iupdate] wrote. *)
Lemma load_put_dinode s i :
  fs_ok s -> in_table s i -> fields_ok i -> load_dinode (put_dinode s i) i = Ok (set_valid 1 i).
Proof.
  intros Hf Ht [H1 H2 H3 H4 H5 H6 H7]. pose proof (length_put_dinode s i Hf Ht H7) as Hlen.
  pose proof (length_dinode_bytes i H7) as Hld. pose proof (slot_range (inum i)) as Hslot.
  pose proof (iblock_range s _ Hf Ht) as Hr.
  destruct (block_lookup s (IBLOCK (inum i) (sb s)) Hf) as [_ Hbl]; [lia|].
  unfold load_dinode. set (o := DINODE * (inum i mod IPB)) in *.
  assert (Hload : forall x n, 0 <= x -> 0 <= n -> x + n <= 64 ->
    buf_load (put_dinode s i) (o + x) n = Ok (take (Z.to_nat n) (drop (Z.to_nat x) (dinode_bytes i)))).
  { intros x n Hx Hn Hxn. rewrite buf_load_Ok by lia. f_equal. unfold put_dinode. fold o.
    rewrite Z2Nat.inj_add by lia. apply splice_inside; lia. }
  pose proof (Hload 0 2) as L0. rewrite Z.add_0_r in L0. rewrite L0, !Hload by lia.
  run. unfold dinode_bytes. change (Z.to_nat 2) with 2%nat. change (Z.to_nat 4) with 4%nat.
  change (Z.to_nat 0) with 0%nat. change (Z.to_nat 6) with 6%nat. change (Z.to_nat 8) with 8%nat.
  cbn [le16 le32 app take drop]. rewrite <- H7.
  rewrite words_from_spec; try done; try lia; [|].
  - run. rewrite take_0. change [isize i mod 256; isize i / 256 mod 256; isize i / 65536 mod 256; isize i / 16777216 mod 256]
      with (le32 (isize i) ++ []).
    rewrite getu32_le32 by done.
    change [itype i mod 256; itype i / 256 mod 256] with (le16 (itype i) ++ []).
    change [imajor i mod 256; imajor i / 256 mod 256] with (le16 (imajor i) ++ []).
    change [iminor i mod 256; iminor i / 256 mod 256] with (le16 (iminor i) ++ []).
    change [inlink i mod 256; inlink i / 256 mod 256] with (le16 (inlink i) ++ []).
    rewrite !getu16_le16 by done. by destruct i.
  - unfold put_dinode. fold o. rewrite Z2Nat.inj_add by lia.
    rewrite splice_inside by (rewrite ?Hld, ?H7; lia).
    change (Z.to_nat 12) with 12%nat. unfold dinode_bytes. cbn [le16 le32 app drop].
    apply take_ge. rewrite (length_mjoin_uniform 4) by (apply Forall_fmap, Forall_true; done).
    rewrite length_fmap. lia.
Qed.

(** What the copy of inode [j] reads. *)
Lemma buf_load_agree d1 d2 O x n :
  length d1 = length d2 -> take 64 (drop (Z.to_nat O) d1) = take 64 (drop (Z.to_nat O) d2) ->
  0 <= O -> 0 <= x -> 0 <= n -> x + n <= 64 -> buf_load d1 (O + x) n = buf_load d2 (O + x) n.
Proof.
  intros Hl Heq HO Hx Hn Hxn. unfold buf_load. rewrite Hl. case_if; [|done]. f_equal.
  apply list_eq. intros j. destruct (decide (j < Z.to_nat n)%nat); [|by rewrite !lookup_take_ge by lia].
  apply (f_equal (fun l => l !! (Z.to_nat x + j)%nat)) in Heq.
  rewrite !lookup_take_lt, !lookup_drop in Heq by lia. rewrite !lookup_take_lt, !lookup_drop by lia.
  by replace (Z.to_nat (O + x) + j)%nat with (Z.to_nat O + (Z.to_nat x + j))%nat by lia.
Qed.

Lemma words_from_agree d1 d2 O k : forall x,
  length d1 = length d2 -> take 64 (drop (Z.to_nat O) d1) = take 64 (drop (Z.to_nat O) d2) ->
  0 <= O -> 0 <= x -> x + 4 * Z.of_nat k <= 64 -> words_from k d1 (O + x) = words_from k d2 (O + x).
Proof.
  induction k as [|k IH]; intros x Hl Heq HO Hx Hk; [done|]. cbn [words_from].
  rewrite (buf_load_agree d1 d2) by (done || lia). replace (O + x + 4) with (O + (x + 4)) by lia.
  by rewrite IH by (done || lia).
Qed.

Lemma load_dinode_agree d1 d2 j :
  length d1 = length d2 ->
  take 64 (drop (Z.to_nat (DINODE * (inum j mod IPB))) d1) = take 64 (drop (Z.to_nat (DINODE * (inum j mod IPB))) d2) ->
  load_dinode d1 j = load_dinode d2 j.
Proof.
  intros Hl Heq. unfold load_dinode. pose proof (slot_range (inum j)) as [HO _].
  set (O := DINODE * (inum j mod IPB)) in *.
  pose proof (buf_load_agree d1 d2 O 0 2 Hl Heq HO) as E0. rewrite Z.add_0_r in E0. rewrite E0 by lia.
  rewrite !(buf_load_agree d1 d2 O) by (done || lia).
  by rewrite (words_from_agree d1 d2 O) by (done || lia).
Qed.

(** [iupdate] of one inode leaves the others on disk. *)
Lemma synced_other s i j :
  fs_ok s -> in_table s i -> in_table s j -> length (addrs i) = 13%nat -> inum j <> inum i ->
  synced s j -> synced (stored s (IBLOCK (inum i) (sb s)) (put_dinode s i)) j.
Proof.
  intros Hf Hi Hj Hl Hne. unfold synced. change (sb (stored s _ _)) with (sb s). intros <-.
  pose proof (iblock_range s _ Hf Hi) as Hri. pose proof (iblock_range s _ Hf Hj) as Hrj.
  pose proof (f_len _ Hf). rewrite block_stored by lia. case_decide as E; [|done].
  destruct (block_lookup s (IBLOCK (inum i) (sb s)) Hf) as [_ Hbl]; [lia|].
  apply load_dinode_agree; [rewrite length_put_dinode, E by done; done|].
  unfold put_dinode. rewrite E. pose proof (slot_range (inum i)). pose proof (slot_range (inum j)).
  assert (Hdis : inum i mod IPB <> inum j mod IPB).
  { intros Em. apply Hne. unfold IBLOCK in E.
    rewrite (Z.div_mod (inum j) IPB), (Z.div_mod (inum i) IPB) by done. rewrite Em. f_equal. f_equal. lia. }
  apply splice_other; rewrite length_dinode_bytes by done; unfold DINODE in *; lia.
Qed.
