(* ===== verification/Xv6Content.v ===== *)
(** An inode of the xv6 file system as a file: [readi] and [writei] against a
    sequence of bytes ([contents]).

    A file is dense: every block below its size is mapped.  [readi] returns a
    segment of the contents and changes nothing; [writei] overwrites a
    segment, possibly extending the file, keeps the in-memory inode and its
    copy on disk equal, and leaves the other files alone. *)

From S2P Require Import Prelude Bytes Xv6Locks Xv6Fs Xv6Bitmap Xv6Inode Xv6Dinode.

(** ** Bytes of a file *)

(** Byte [p] of the file; an unmapped block reads as zeros. *)
Definition fbyte (s : bstate) (i : inode) (p : Z) : Z :=
  if decide (addr_of s i (p / BSIZE) = 0) then 0
  else default 0 (block s (addr_of s i (p / BSIZE)) !! Z.to_nat (p mod BSIZE)).

Definition fbytes (s : bstate) (i : inode) (off n : Z) : list Z := fbyte s i <$> seqZ off n.

Definition contents (s : bstate) (i : inode) : list Z := fbytes s i 0 (isize i).

Record file_ok (s : bstate) (i : inode) : Prop := FileOk {
  fo_ino : inode_ok s i;
  fo_size : 0 <= isize i <= MAXFILE * BSIZE;
  fo_dense : forall k, in_file k -> k * BSIZE < isize i -> addr_of s i k <> 0
}.

Lemma BSIZE_pos : 0 < BSIZE.
Proof. done. Qed.

Lemma length_fbytes s i off n : length (fbytes s i off n) = Z.to_nat n.
Proof. unfold fbytes. by rewrite length_fmap, length_seqZ. Qed.

Lemma fbytes_lookup s i off n (j : nat) :
  (j < Z.to_nat n)%nat -> fbytes s i off n !! j = Some (fbyte s i (off + Z.of_nat j)).
Proof. intros H. unfold fbytes. rewrite list_lookup_fmap, lookup_seqZ_lt by lia. done. Qed.

Lemma fbytes_app s i off m n :
  0 <= m -> 0 <= n -> fbytes s i off (m + n) = fbytes s i off m ++ fbytes s i (off + m) n.
Proof. intros Hm Hn. unfold fbytes. by rewrite seqZ_app, fmap_app by lia. Qed.

Lemma contents_segment s i off n :
  0 <= off -> 0 <= n -> off + n <= isize i ->
  fbytes s i off n = take (Z.to_nat n) (drop (Z.to_nat off) (contents s i)).
Proof.
  intros Ho Hn Hle. apply list_eq. intros j. destruct (decide (j < Z.to_nat n)%nat) as [Hj|Hj].
  - rewrite lookup_take_lt, lookup_drop by done. unfold contents.
    rewrite !fbytes_lookup by lia. do 2 f_equal. lia.
  - rewrite lookup_take_ge by lia. apply lookup_ge_None. rewrite length_fbytes. lia.
Qed.

(** Positions inside one block. *)
Lemma in_block off r :
  0 <= r -> off mod BSIZE + r < BSIZE ->
  (off + r) / BSIZE = off / BSIZE /\ (off + r) mod BSIZE = off mod BSIZE + r.
Proof. intros Hr H. unfold BSIZE in *. split; Z.div_mod_to_equations; lia. Qed.

Lemma block_of_file p : 0 <= p < MAXFILE * BSIZE -> in_file (p / BSIZE).
Proof. unfold in_file, MAXFILE, NDIRECT, NINDIRECT, BSIZE. intros H. Z.div_mod_to_equations. lia. Qed.

(** The part of a file in one block. *)
Lemma fbytes_block s i off m :
  addr_of s i (off / BSIZE) <> 0 -> length (block s (addr_of s i (off / BSIZE))) = Z.to_nat BSIZE ->
  0 <= m -> off mod BSIZE + m <= BSIZE ->
  fbytes s i off m = take (Z.to_nat m) (drop (Z.to_nat (off mod BSIZE)) (block s (addr_of s i (off / BSIZE)))).
Proof.
  intros Ha Hl Hm Hle. pose proof (Z.mod_pos_bound off BSIZE BSIZE_pos) as Hmod.
  apply list_eq. intros j. destruct (decide (j < Z.to_nat m)%nat) as [Hj|Hj].
  - rewrite lookup_take_lt, lookup_drop, fbytes_lookup by done. unfold fbyte.
    destruct (in_block off (Z.of_nat j)) as [-> ->]; [lia|lia|].
    rewrite decide_False by done.
    replace (Z.to_nat (off mod BSIZE + Z.of_nat j)) with (Z.to_nat (off mod BSIZE) + j)%nat by lia.
    destruct (lookup_lt_is_Some_2 (block s (addr_of s i (off / BSIZE))) (Z.to_nat (off mod BSIZE) + j)) as [x ->];
      [lia|done].
  - rewrite lookup_take_ge by lia. apply lookup_ge_None. rewrite length_fbytes. lia.
Qed.

(** ** Reading *)

Lemma bmap_old s i k :
  fs_ok s -> inode_ok s i -> held s = [] -> in_file k -> addr_of s i k <> 0 ->
  bmap s i k = Ok (addr_of s i k, i, s).
Proof.
  intros Hf Hi Hh Hk Ha. destruct (bmap_spec s i k Hf Hi Hh Hk) as (a & i' & s' & -> & Hm).
  { unfold bmap_need. rewrite decide_False by done. lia. }
  destruct (m_same _ _ _ _ _ _ Hm Ha) as [-> ->]. by rewrite (m_addr _ _ _ _ _ _ Hm).
Qed.

Lemma data_block_buf s x :
  fs_ok s -> data_block s x -> 0 <= x < sb_size (sb s) /\ blocks s !! Z.to_nat x = Some (block s x) /\
  length (block s x) = Z.to_nat BSIZE.
Proof.
  intros Hf [Hx _]. pose proof (data_start_pos s Hf). split; [lia|]. apply block_lookup; [done|lia].
Qed.

(** The next iteration starts at a block boundary, or there is none. *)
Lemma read_loop_spec fuel : forall s i tot off n,
  fs_ok s -> inode_ok s i -> held s = [] -> 0 <= off -> tot <= n -> n - tot < Z.of_nat fuel ->
  (forall p, off <= p < off + (n - tot) -> in_file (p / BSIZE) /\ addr_of s i (p / BSIZE) <> 0) ->
  read_loop fuel s i tot off n = Ok (fbytes s i off (n - tot), i, s).
Proof.
  induction fuel as [|fuel IH]; intros s i tot off n Hf Hi Hh Ho Hle Hfuel Hmap; [lia|]. cbn [read_loop].
  destruct (Z.ltb_spec tot n) as [Hlt|Hge]; [|by replace (n - tot) with 0 by lia].
  destruct (Hmap off ltac:(lia)) as [Hk Ha]. rewrite (bmap_old s i _ Hf Hi Hh Hk Ha). run.
  destruct (data_block_buf s _ Hf (i_addr _ _ Hi _ Hk Ha)) as (Hx & Hl & Hlen).
  assert (Hnh : addr_of s i (off / BSIZE) ∉ held s) by (rewrite Hh; apply not_elem_of_nil).
  rewrite (get_buf_Ok s _ _ Hnh ltac:(lia) Hl). run.
  pose proof (Z.mod_pos_bound off BSIZE BSIZE_pos) as Hmod.
  set (m := Z.min (n - tot) (BSIZE - off mod BSIZE)).
  rewrite buf_load_Ok by (rewrite ?Hlen; lia). run. rewrite put_buf_hold by done.
  rewrite IH by (done || lia || (intros p Hp; apply Hmap; lia)). run.
  rewrite <- fbytes_block by (done || lia).
  rewrite <- fbytes_app by lia. do 4 f_equal. lia.
Qed.

(** ** Storing a block of the file *)

Lemma addr_of_stored s i x d k :
  fs_ok s -> data_block s x -> inode_ok s i -> x <> ind_of i ->
  addr_of (stored s x d) i k = addr_of s i k.
Proof.
  intros Hf Hx Hi Hne. destruct (data_block_buf s x Hf Hx) as (Hr & _). pose proof (f_len _ Hf).
  unfold addr_of. case_if; [done|]. destruct (Z.eqb_spec (ind_of i) 0) as [E|E]; [done|].
  destruct (data_block_buf s _ Hf (i_ind _ _ Hi E)) as (Hr' & _).
  rewrite block_stored by lia. by rewrite decide_False by done.
Qed.

Lemma used_stored_data s x d b :
  fs_ok s -> data_block s x -> 0 <= b < sb_size (sb s) -> used (stored s x d) b = used s b.
Proof.
  intros Hf Hx Hb. destruct (data_block_buf s x Hf Hx) as (Hr & _). pose proof (f_len _ Hf).
  pose proof (bblock_range s b Hf Hb). destruct Hx as [Hx _]. apply used_stored_other; [done|lia|done|lia].
Qed.

Lemma data_block_stored s x d y : fs_ok s -> data_block s x -> data_block s y -> data_block (stored s x d) y.
Proof.
  intros Hf Hx Hy. destruct (data_block_buf s y Hf Hy) as (Hr & _). destruct Hy as [Hy Hu].
  split; [done|]. by rewrite used_stored_data.
Qed.

(** The disk after a store into block [k] of the file. *)
Lemma store_block s i k d :
  fs_ok s -> inode_ok s i -> in_file k -> addr_of s i k <> 0 -> length d = Z.to_nat BSIZE ->
  let s' := stored s (addr_of s i k) d in
  extends s i s' i /\ fs_ok s' /\ inode_ok s' i /\ (forall j, addr_of s' i j = addr_of s i j) /\
  nfree s' = nfree s.
Proof.
  intros Hf Hi Hk Ha Hl s'. pose proof (i_addr _ _ Hi k Hk Ha) as Hdb.
  pose proof (i_ind_other _ _ Hi k Hk Ha) as Hno.
  assert (Haddr : forall j, addr_of s' i j = addr_of s i j) by (intros j; by apply addr_of_stored).
  assert (Hused : forall x, 0 <= x < sb_size (sb s) -> used s' x = used s x) by (intros; by apply used_stored_data).
  destruct (data_block_buf s _ Hf Hdb) as (Hr & _). pose proof (f_len _ Hf). pose proof (data_start_pos s Hf).
  assert (Hblk : forall x, 0 <= x -> x <> addr_of s i k -> block s' x = block s x).
  { intros x Hx Hne. unfold s'. rewrite block_stored by lia. by rewrite decide_False. }
  split; [|split; [|split; [|split]]]; try done.
  - constructor; try done; try (by left).
    + by destruct i.
    + intros x Hx. rewrite Hused; [apply Hx|]. by destruct (data_block_buf s x Hf Hx).
    + intros x Hx. apply Hblk; [lia|]. destruct Hdb as [Hdb _]. unfold data_start in Hdb.
      pose proof (Z.div_pos (sb_size (sb s) - 1) BPB). pose proof BPB_pos. lia.
    + intros x Hx Hnox. destruct (data_block_buf s x Hf Hx) as (Hrx & _). apply Hblk; [lia|].
      intros ->. apply Hnox. split; [done|]. right. by exists k.
    + intros j Hj Hj0 Hj'. rewrite Haddr in Hj'. congruence.
    + intros x Hx Hu Hu'. rewrite Hused in Hu by lia. congruence.
  - apply fs_ok_stored_data; [done|destruct Hdb; lia|done].
  - constructor.
    + apply Hi.
    + intros j Hj. rewrite Haddr. intros Hja. apply data_block_stored; [done|done|by apply (i_addr _ _ Hi)].
    + intros H0i. apply data_block_stored; [done|done|by apply (i_ind _ _ Hi)].
    + intros j. rewrite Haddr. apply (i_ind_other _ _ Hi).
    + intros j j'. rewrite !Haddr. apply (i_inj _ _ Hi).
  - apply nfree_ext; [done|]. apply Hused.
Qed.

(** ** Writing *)

Definition within (off : Z) (bs : list Z) (p : Z) : Prop := off <= p < off + Z.of_nat (length bs).

#[global] Instance within_dec off bs p : Decision (within off bs p).
Proof. unfold within. apply _. Defined.

(** The effect of storing [bs] at offset [off] of the file. *)
Record wrote (s : bstate) (i : inode) (off : Z) (bs : list Z) (s' : bstate) (i' : inode) : Prop := Wrote {
  w_ext : extends s i s' i';
  w_fs : fs_ok s';
  w_ino : inode_ok s' i';
  w_held : held s' = [];
  w_bytes : forall p, 0 <= p < MAXFILE * BSIZE ->
    fbyte s' i' p = if decide (within off bs p) then default 0 (bs !! Z.to_nat (p - off)) else fbyte s i p;
  w_touch : forall p, within off bs p -> addr_of s' i' (p / BSIZE) <> 0;
  w_other : forall k, in_file k -> (forall p, within off bs p -> p / BSIZE <> k) -> addr_of s' i' k = addr_of s i k;
  w_same : (forall p, within off bs p -> addr_of s i (p / BSIZE) <> 0) -> i' = i;
  w_log : forall x, x ∈ logged s' ->
    x ∈ logged s \/ bitmap_block (sb s) x \/ (x = ind_of i' /\ x <> 0) \/
    exists p, within off bs p /\ x = addr_of s' i' (p / BSIZE)
}.

Lemma wrote_nil s i off :
  fs_ok s -> inode_ok s i -> held s = [] -> wrote s i off [] s i.
Proof.
  intros. constructor; try done.
  - apply ext_refl.
  - intros p _. rewrite decide_False; [done|]. unfold within. cbn [length]. lia.
  - intros p. unfold within. cbn [length]. lia.
  - by left.
Qed.

Lemma within_app off b1 b2 p :
  within off (b1 ++ b2) p <-> within off b1 p \/ within (off + Z.of_nat (length b1)) b2 p.
Proof. unfold within. rewrite length_app. lia. Qed.

Lemma wrote_app s i off b1 s1 i1 b2 s2 i2 :
  0 <= off -> off + Z.of_nat (length (b1 ++ b2)) <= MAXFILE * BSIZE ->
  wrote s i off b1 s1 i1 -> wrote s1 i1 (off + Z.of_nat (length b1)) b2 s2 i2 ->
  wrote s i off (b1 ++ b2) s2 i2.
Proof.
  intros Ho Hmax H1 H2. pose proof H1 as [He1 _ _ _ Hb1 Ht1 Ho1 Hs1 Hl1].
  pose proof H2 as [He2 Hf2 Hi2 Hh2 Hb2 Ht2 Ho2 Hs2 Hl2].
  assert (Hin : forall p, within off (b1 ++ b2) p -> in_file (p / BSIZE)).
  { intros p Hp. apply block_of_file. unfold within in Hp. lia. }
  constructor; try done.
  - by eapply ext_trans.
  - intros p Hp. rewrite Hb2, Hb1 by done. pose proof (within_app off b1 b2 p) as Hiff.
    destruct (decide (within (off + Z.of_nat (length b1)) b2 p)) as [E2|E2].
    + rewrite decide_True by tauto. unfold within in E2. rewrite lookup_app_r by lia. do 2 f_equal. lia.
    + destruct (decide (within off b1 p)) as [E1|E1]; [|by rewrite decide_False by tauto].
      rewrite decide_True by tauto. unfold within in E1. by rewrite lookup_app_l by lia.
  - intros p Hp. pose proof (Hin p Hp). apply within_app in Hp as [Hp|Hp]; [|by apply Ht2].
    rewrite (x_addr _ _ _ _ He2); [by apply Ht1|done|by apply Ht1].
  - intros k Hk Hp. rewrite Ho2, Ho1; [done|done| |done|]; intros p Hw; apply Hp, within_app; tauto.
  - intros Hm. assert (E1 : i1 = i) by (apply Hs1; intros p Hp; apply Hm, within_app; by left).
    rewrite Hs2; [done|]. intros p Hp. pose proof (proj2 (within_app off b1 b2 p) (or_intror Hp)) as Hw.
    rewrite (x_addr _ _ _ _ He1); [by apply Hm|by apply Hin|by apply Hm].
  - intros x Hx. apply Hl2 in Hx as [Hx|[Hx|[Hx|(p & Hp & ->)]]].
    + apply Hl1 in Hx as [Hx|[Hx|[[-> Hx]|(p & Hp & ->)]]].
      * by left.
      * by right; left.
      * right; right; left. destruct (x_ind _ _ _ _ He2) as [E|[E _]]; [by rewrite E|congruence].
      * right; right; right. exists p. pose proof (proj2 (within_app off b1 b2 p) (or_introl Hp)) as Hw.
        split; [done|]. symmetry. apply (x_addr _ _ _ _ He2); [by apply Hin|by apply Ht1].
    + right; left. by rewrite (x_sb _ _ _ _ He1) in Hx.
    + by right; right; left.
    + right; right; right. exists p. split; [apply within_app; by right|done].
Qed.

(** Bytes of a block of the file after a store into it. *)
Lemma fbyte_stored s i off bs p :
  fs_ok s -> inode_ok s i -> 0 <= off -> in_file (off / BSIZE) -> addr_of s i (off / BSIZE) <> 0 ->
  off mod BSIZE + Z.of_nat (length bs) <= BSIZE -> 0 <= p < MAXFILE * BSIZE ->
  let a := addr_of s i (off / BSIZE) in
  fbyte (stored s a (splice (Z.to_nat (off mod BSIZE)) bs (block s a))) i p =
    if decide (within off bs p) then default 0 (bs !! Z.to_nat (p - off)) else fbyte s i p.
Proof.
  intros Hf Hi Ho Hk Ha Hfit Hp a. subst a. pose proof (i_addr _ _ Hi _ Hk Ha) as Hdb.
  destruct (data_block_buf s _ Hf Hdb) as (Hr & _ & Hlen). pose proof (f_len _ Hf).
  pose proof (Z.mod_pos_bound off BSIZE BSIZE_pos) as Hmod. pose proof (Z.mod_pos_bound p BSIZE BSIZE_pos) as Hmp.
  pose proof (Z.div_mod off BSIZE ltac:(done)) as Eo. pose proof (Z.div_mod p BSIZE ltac:(done)) as Ep.
  assert (Hw : within off bs p <-> p / BSIZE = off / BSIZE /\
                 off mod BSIZE <= p mod BSIZE < off mod BSIZE + Z.of_nat (length bs)).
  { unfold within. unfold BSIZE in *. split; [intros; split|intros [? ?]]; Z.div_mod_to_equations; lia. }
  unfold fbyte. rewrite addr_of_stored by (done || by apply (i_ind_other _ _ Hi)).
  destruct (decide (p / BSIZE = off / BSIZE)) as [E|E].
  - rewrite E, (decide_False (P := addr_of s i (off / BSIZE) = 0)) by done.
    rewrite block_stored by lia. rewrite (decide_True (P := _ = _)) by done.
    rewrite splice_lookup by lia. destruct (decide (within off bs p)) as [W|W].
    + apply Hw in W as [_ W]. rewrite decide_True by lia. do 2 f_equal. lia.
    + rewrite (decide_False (P := addr_of s i (off / BSIZE) = 0)) by done.
      rewrite decide_False; [done|]. intros ?. apply W, Hw. lia.
  - rewrite (decide_False (P := within off bs p)) by tauto.
    destruct (decide (addr_of s i (p / BSIZE) = 0)) as [E0|E0]; [done|].
    assert (Hkp : in_file (p / BSIZE)) by (by apply block_of_file).
    destruct (data_block_buf s _ Hf (i_addr _ _ Hi _ Hkp E0)) as (Hrp & _).
    rewrite block_stored by lia. rewrite decide_False; [done|].
    intros Ea. apply E. apply (i_inj _ _ Hi); done.
Qed.

(** [bmap] keeps the bytes of the file. *)
Lemma fbyte_mapped s i k a s' i' p :
  inode_ok s i -> mapped s i k a s' i' -> 0 <= p < MAXFILE * BSIZE -> fbyte s' i' p = fbyte s i p.
Proof.
  intros Hi Hm Hp. assert (Hkp : in_file (p / BSIZE)) by (by apply block_of_file). unfold fbyte.
  destruct (decide (addr_of s i (p / BSIZE) = 0)) as [E|E].
  - destruct (decide (p / BSIZE = k)) as [Ek|Ek].
    + rewrite Ek in *. rewrite <- (m_addr _ _ _ _ _ _ Hm). rewrite decide_False by apply (m_some _ _ _ _ _ _ Hm).
      rewrite (m_zero _ _ _ _ _ _ Hm E). unfold zeros.
      pose proof (Z.mod_pos_bound p BSIZE BSIZE_pos). by rewrite lookup_replicate_2 by lia.
    + rewrite (m_only _ _ _ _ _ _ Hm _ Hkp Ek), E. done.
  - rewrite (x_addr _ _ _ _ (m_ext _ _ _ _ _ _ Hm) _ Hkp E), decide_False by done.
    by rewrite (m_keep _ _ _ _ _ _ Hm _ Hkp E).
Qed.

(** One iteration of the loop of [writei]. *)
Lemma write_chunk s i off bs a i1 s1 :
  inode_ok s i -> 0 <= off < MAXFILE * BSIZE -> bs <> [] ->
  off mod BSIZE + Z.of_nat (length bs) <= BSIZE -> mapped s i (off / BSIZE) a s1 i1 ->
  wrote s i off bs (stored s1 a (splice (Z.to_nat (off mod BSIZE)) bs (block s1 a))) i1.
Proof.
  intros Hi Ho Hne Hfit Hm. assert (Hk : in_file (off / BSIZE)) by (by apply block_of_file).
  pose proof Hm as [Hext Hf1 Hi1 Hh1 Ha Ha0 Honly _ Hsame _ _ _ Hlog].
  assert (Hk0 : addr_of s1 i1 (off / BSIZE) <> 0) by congruence.
  destruct (data_block_buf s1 _ Hf1 (i_addr _ _ Hi1 _ Hk Hk0)) as (Hr & _ & Hlen).
  pose proof (Z.mod_pos_bound off BSIZE BSIZE_pos) as Hmod.
  assert (Hwin : forall p, within off bs p -> p / BSIZE = off / BSIZE).
  { intros p Hp. unfold within, BSIZE in *. Z.div_mod_to_equations. lia. }
  assert (Hfirst : within off bs off) by (unfold within; destruct bs; [done|cbn [length]; lia]).
  rewrite Ha in *. set (d := splice _ _ _).
  assert (Hd : length d = Z.to_nat BSIZE) by (unfold d; rewrite length_splice; lia).
  destruct (store_block s1 i1 _ d Hf1 Hi1 Hk Hk0 Hd) as (Hx2 & Hf2 & Hi2 & Ha2 & _).
  constructor; try done.
  - by eapply ext_trans.
  - intros p Hp. unfold d. rewrite fbyte_stored by (done || lia).
    by rewrite (fbyte_mapped _ _ _ _ _ _ p Hi Hm Hp).
  - intros p Hp. rewrite Ha2, (Hwin p Hp). done.
  - intros k Hkk Hp. rewrite Ha2. apply Honly; [done|]. intros ->. by apply (Hp off).
  - intros Hall. by apply Hsame, (Hall off).
  - intros x Hx. cbn [stored logged] in Hx. apply elem_of_app in Hx as [Hx|Hx].
    + apply Hlog in Hx as [?|[?|[->|[-> H12]]]]; [by left|by right; left| |].
      * right; right; right. exists off. by rewrite Ha2.
      * right; right; left. split; [done|]. intros E. apply Hk0. rewrite addr_indirect by done. by rewrite E.
    + apply list_elem_of_singleton in Hx as ->. right; right; right. exists off. by rewrite Ha2.
Qed.

(** The blocks of the file that [r] bytes from [off] touch. *)
Definition span (off r : Z) : Z := if r <=? 0 then 0 else (off + r - 1) / BSIZE - off / BSIZE + 1.

(** The disk blocks that must be free for the write. *)
Definition write_need (s : bstate) (i : inode) (off r : Z) : nat :=
  Nat.add (length (filter (fun k => addr_of s i k = 0) (seqZ (off / BSIZE) (span off r))))
    (if decide (0 < r /\ NDIRECT <= (off + r - 1) / BSIZE /\ ind_of i = 0) then 1%nat else 0%nat).

(** The rest of a write starts on the next block. *)
Lemma span_next off r m :
  0 <= off -> 0 < r -> m = Z.min r (BSIZE - off mod BSIZE) ->
  span off r = 1 + span (off + m) (r - m) /\ 0 <= span (off + m) (r - m) /\
  (0 < span (off + m) (r - m) -> (off + m) / BSIZE = off / BSIZE + 1).
Proof.
  intros Ho Hr Hm. unfold span, BSIZE in *.
  destruct (Z.leb_spec r 0), (Z.leb_spec (r - m) 0); Z.div_mod_to_equations; lia.
Qed.

Lemma write_need_next s i off r a i1 s1 m :
  0 <= off -> 0 < r -> off + r <= MAXFILE * BSIZE -> m = Z.min r (BSIZE - off mod BSIZE) ->
  mapped s i (off / BSIZE) a s1 i1 -> (write_need s i off r <= nfree s)%nat ->
  (write_need s1 i1 (off + m) (r - m) <= nfree s1)%nat.
Proof.
  intros Ho Hr Hmax Hm Hmap Hneed. destruct (span_next off r m Ho Hr Hm) as (Hs & Hs0 & Hk).
  pose proof Hmap as [Hext _ _ _ _ _ Honly _ Hsame _ Hind Hfree _].
  unfold write_need in *. rewrite Hs, seqZ_cons in Hneed by lia.
  replace (Z.pred (1 + span (off + m) (r - m))) with (span (off + m) (r - m)) in Hneed by lia.
  replace (off + m + (r - m) - 1) with (off + r - 1) by lia.
  assert (Hlast : off / BSIZE <= (off + r - 1) / BSIZE) by (apply Z.div_le_mono; [done|lia]).
  assert (Hmaxk : (off + r - 1) / BSIZE < MAXFILE) by (apply Z.div_lt_upper_bound; [done|lia]).
  assert (Hk0 : 0 <= off / BSIZE) by (apply Z.div_pos; [lia|done]).
  assert (Hseq : filter (fun k => addr_of s1 i1 k = 0) (seqZ ((off + m) / BSIZE) (span (off + m) (r - m))) =
                 filter (fun k => addr_of s i k = 0) (seqZ (Z.succ (off / BSIZE)) (span (off + m) (r - m)))).
  { destruct (decide (0 < span (off + m) (r - m))) as [E|E]; [|by rewrite !seqZ_nil by lia].
    rewrite Hk by done. apply filter_ext_elem. intros x Hx. apply elem_of_seqZ in Hx.
    rewrite Honly; [done| |lia]. unfold in_file. unfold span in Hs at 1. rewrite (proj2 (Z.leb_gt _ _) Hr) in Hs. lia. }
  rewrite Hseq. rewrite filter_cons in Hneed. unfold ind_cost in Hfree.
  destruct (decide (addr_of s i (off / BSIZE) = 0)) as [E|E].
  - cbn [length] in Hneed. destruct (x_ind _ _ _ _ Hext) as [Ei|(Ei & Ei' & _)].
    + rewrite decide_False in Hfree by (rewrite Ei; tauto). rewrite Ei. repeat case_decide; lia.
    + assert (NDIRECT <= off / BSIZE).
      { destruct (decide (NDIRECT <= off / BSIZE)); [done|]. rewrite Hind in Ei' by lia. done. }
      rewrite decide_True in Hfree by done. rewrite decide_True in Hneed by (split; [done|split; [lia|done]]).
      rewrite decide_False by tauto. lia.
  - destruct (Hsame E) as [-> ->]. repeat case_decide; lia.
Qed.

Lemma bmap_need_write s i off r :
  0 <= off -> 0 < r -> (bmap_need s i (off / BSIZE) <= write_need s i off r)%nat.
Proof.
  intros Ho Hr. destruct (span_next off r _ Ho Hr eq_refl) as (Hs & Hs0 & _).
  assert (Hlast : off / BSIZE <= (off + r - 1) / BSIZE) by (apply Z.div_le_mono; [done|lia]).
  unfold bmap_need, write_need. rewrite Hs, seqZ_cons, filter_cons by lia.
  destruct (decide (addr_of s i (off / BSIZE) = 0)); [cbn [length]; repeat case_decide; lia|lia].
Qed.

(** Nothing is needed for a block that is there. *)
Lemma write_need_skip s i off r :
  0 <= off -> 0 < r -> addr_of s i (off / BSIZE) <> 0 ->
  let m := Z.min r (BSIZE - off mod BSIZE) in
  write_need s i off r = write_need s i (off + m) (r - m).
Proof.
  intros Ho Hr Ha m. destruct (span_next off r m Ho Hr eq_refl) as (Hs & Hs0 & Hk).
  pose proof (Z.mod_pos_bound off BSIZE BSIZE_pos) as Hmod.
  unfold write_need. rewrite Hs, seqZ_cons, filter_cons by lia. rewrite decide_False by done.
  replace (Z.pred (1 + span (off + m) (r - m))) with (span (off + m) (r - m)) by lia.
  replace (off + m + (r - m) - 1) with (off + r - 1) by lia. f_equal.
  - destruct (decide (0 < span (off + m) (r - m))) as [E|E]; [|by rewrite !seqZ_nil by lia].
    by rewrite Hk by done.
  - destruct (decide (0 < r - m)) as [E|E].
    + destruct (decide (0 < r /\ _)), (decide (0 < r - m /\ _)); tauto.
    + rewrite (decide_False (P := 0 < r - m /\ _)) by tauto. rewrite decide_False; [done|].
      intros (_ & H12 & Hi0). assert (Eb : (off + r - 1) / BSIZE = off / BSIZE).
      { unfold m, BSIZE in *. Z.div_mod_to_equations. lia. }
      rewrite Eb in H12. apply Ha. rewrite addr_indirect by done. by rewrite Hi0.
Qed.

(** The loop of [writei]; what is needed for [rest] more bytes is left. *)
Lemma write_loop_spec fuel : forall s i src tot off n rest,
  fs_ok s -> inode_ok s i -> held s = [] -> 0 <= off -> 0 <= tot <= n -> n - tot < Z.of_nat fuel ->
  0 <= rest -> off + (n - tot) + rest <= MAXFILE * BSIZE -> n <= Z.of_nat (length src) ->
  (write_need s i off (n - tot + rest) <= nfree s)%nat ->
  exists i' s', write_loop fuel s i src tot off n = Ok (off + (n - tot), i', s') /\
    wrote s i off (take (Z.to_nat (n - tot)) (drop (Z.to_nat tot) src)) s' i' /\
    (write_need s' i' (off + (n - tot)) rest <= nfree s')%nat.
Proof.
  induction fuel as [|fuel IH]; intros s i src tot off n rest Hf Hi Hh Ho Ht Hfuel Hrest Hmax Hsrc Hneed; [lia|].
  cbn [write_loop]. destruct (Z.ltb_spec tot n) as [Hlt|Hge].
  2: { exists i, s. replace (n - tot) with 0 in * by lia. rewrite Z.add_0_r, Z.add_0_l in *.
       split; [done|]. split; [by apply wrote_nil|done]. }
  assert (Hk : in_file (off / BSIZE)) by (apply block_of_file; lia).
  pose proof (bmap_need_write s i off (n - tot + rest) Ho ltac:(lia)).
  destruct (bmap_spec s i (off / BSIZE) Hf Hi Hh Hk ltac:(lia)) as (a & i1 & s1 & -> & Hm). run.
  pose proof Hm as [_ Hf1 Hi1 Hh1 Ha Ha0 _ _ _ _ _ _ _]. rewrite Ha in *.
  destruct (data_block_buf s1 _ Hf1 (i_addr _ _ Hi1 _ Hk Ha0)) as (Hx & Hl & Hlen).
  assert (Hnh : addr_of s1 i1 (off / BSIZE) ∉ held s1) by (rewrite Hh1; apply not_elem_of_nil).
  rewrite (get_buf_Ok s1 _ _ Hnh ltac:(lia) Hl). run.
  pose proof (Z.mod_pos_bound off BSIZE BSIZE_pos) as Hmod.
  set (m := Z.min (n - tot) (BSIZE - off mod BSIZE)).
  rewrite buf_load_Ok by lia. run. set (bs := take (Z.to_nat m) (drop (Z.to_nat tot) src)).
  assert (Hbs : Z.of_nat (length bs) = m) by (unfold bs; rewrite length_take, length_drop; lia).
  rewrite buf_store_Ok by lia. run. rewrite put_buf_stored by done.
  fold (splice (Z.to_nat (off mod BSIZE)) bs (block s1 (addr_of s1 i1 (off / BSIZE)))).
  pose proof (write_chunk s i off bs _ i1 s1 Hi ltac:(lia)
    ltac:(intros E; rewrite E in Hbs; cbn [length] in Hbs; lia) ltac:(lia) Hm) as Hw.
  set (s2 := stored s1 _ _) in *.
  assert (Hnf : nfree s2 = nfree s1) by (apply store_block; [done|done|done|done|rewrite length_splice; lia]).
  assert (Haddr2 : forall x, addr_of s2 i1 x = addr_of s1 i1 x).
  { intros x. unfold s2. by rewrite addr_of_stored by (done || by apply (i_addr _ _ Hi1) || by apply (i_ind_other _ _ Hi1)). }
  assert (Hneed2 : (write_need s2 i1 (off + m) (n - tot + rest - m) <= nfree s2)%nat).
  { rewrite Hnf. set (m0 := Z.min (n - tot + rest) (BSIZE - off mod BSIZE)).
    pose proof (write_need_next s i off (n - tot + rest) _ i1 s1 m0 Ho ltac:(lia) ltac:(lia) eq_refl Hm Hneed) as Hn1.
    assert (E2 : forall o r, write_need s2 i1 o r = write_need s1 i1 o r).
    { intros o r. unfold write_need. f_equal. f_equal. apply filter_ext_elem. intros x _. by rewrite Haddr2. }
    rewrite E2. destruct (decide (m = m0)) as [<-|Hne]; [done|].
    assert (Hmid : (off + m) / BSIZE = off / BSIZE /\ (off + m) mod BSIZE = off mod BSIZE + m) by (apply in_block; lia).
    destruct Hmid as [Hmd Hmm]. rewrite write_need_skip by (lia || by rewrite Hmd).
    rewrite Hmm. replace (Z.min (n - tot + rest - m) (BSIZE - (off mod BSIZE + m))) with (m0 - m) by lia.
    replace (off + m + (m0 - m)) with (off + m0) by lia.
    by replace (n - tot + rest - m - (m0 - m)) with (n - tot + rest - m0) by lia. }
  destruct (IH s2 i1 src (tot + m) (off + m) n rest) as (i' & s' & -> & Hw' & Hn'); try apply Hw; try done; try lia.
  { by replace (n - (tot + m) + rest) with (n - tot + rest - m) by lia. }
  replace (off + m + (n - (tot + m))) with (off + (n - tot)) in * by lia.
  exists i', s'. split; [done|]. split; [|done].
  replace (take (Z.to_nat (n - tot)) (drop (Z.to_nat tot) src))
    with (bs ++ take (Z.to_nat (n - (tot + m))) (drop (Z.to_nat (tot + m)) src)).
  - apply (wrote_app s i off bs s2 i1); [done| |done|by rewrite Hbs].
    rewrite length_app, length_take, length_drop. lia.
  - unfold bs. replace (Z.to_nat (n - tot)) with (Z.to_nat m + Z.to_nat (n - (tot + m)))%nat by lia.
    rewrite <- take_take_drop, drop_drop. do 3 f_equal. lia.
Qed.

(** ** Other files *)

(** Two inodes share no block. *)
Definition apart (s : bstate) (i j : inode) : Prop := forall x, owns s i x -> ~ owns s j x.

Lemma owns_data s i x : inode_ok s i -> owns s i x -> data_block s x.
Proof.
  intros Hi (H0 & [->|(k & Hk & Ha)]); [by apply (i_ind _ _ Hi)|]. rewrite <- Ha. apply (i_addr _ _ Hi); congruence.
Qed.

(** An inode whose blocks did not change. *)
Lemma inode_same s s' j :
  sb s' = sb s -> inode_ok s j -> (forall x, owns s j x -> data_block s' x) ->
  (forall x, owns s j x -> block s' x = block s x) ->
  inode_ok s' j /\ (forall k, addr_of s' j k = addr_of s j k) /\
  (forall p, 0 <= p < MAXFILE * BSIZE -> fbyte s' j p = fbyte s j p).
Proof.
  intros Hsb Hj Hdb Hblk.
  assert (Haddr : forall k, addr_of s' j k = addr_of s j k).
  { intros k. unfold addr_of. case_if; [done|]. destruct (Z.eqb_spec (ind_of j) 0) as [E|E]; [done|].
    rewrite Hblk; [done|]. split; [done|by left]. }
  split; [|split; [done|]].
  - constructor.
    + apply Hj.
    + intros k Hk. rewrite Haddr. intros Hka. apply Hdb. split; [done|]. right. by exists k.
    + intros Hi0. apply Hdb. split; [done|by left].
    + intros k. rewrite Haddr. apply (i_ind_other _ _ Hj).
    + intros k k'. rewrite !Haddr. apply (i_inj _ _ Hj).
  - intros p Hp. unfold fbyte. rewrite Haddr. case_decide as E; [done|]. rewrite Hblk; [done|].
    split; [done|]. right. exists (p / BSIZE). split; [by apply block_of_file|done].
Qed.

Lemma contents_ext s i s' i' :
  isize i' = isize i -> isize i <= MAXFILE * BSIZE ->
  (forall p, 0 <= p < MAXFILE * BSIZE -> fbyte s' i' p = fbyte s i p) -> contents s' i' = contents s i.
Proof.
  intros Hs Hm Hb. apply list_eq. intros j. unfold contents. rewrite Hs.
  destruct (decide (j < Z.to_nat (isize i))%nat) as [Hj|Hj].
  - rewrite !fbytes_lookup by done. f_equal. apply Hb. lia.
  - rewrite !(proj2 (lookup_ge_None _ _)); rewrite ?length_fbytes; [done|lia|lia].
Qed.

(** What an operation on [i] may do to another file [j]. *)
Definition undisturbed (s : bstate) (i j : inode) (s' : bstate) (i' : inode) : Prop :=
  contents s' j = contents s j /\ file_ok s' j /\ apart s' i' j.

Lemma extends_undisturbed s i j s' i' :
  inode_ok s i -> file_ok s j -> apart s i j -> inode_ok s' i' -> extends s i s' i' -> undisturbed s i j s' i'.
Proof.
  intros Hi [Hj Hsz Hd] Hap Hi' He.
  assert (Hblk : forall x, owns s j x -> block s' x = block s x).
  { intros x Hx. apply (x_frame _ _ _ _ He); [by apply (owns_data s j)|]. intros Ho. by apply (Hap x). }
  destruct (inode_same s s' j (x_sb _ _ _ _ He) Hj (fun x Hx => data_block_forth _ _ _ _ x He (owns_data s j x Hj Hx)) Hblk) as (Hj' & Haddr & Hb).
  split; [|split].
  - apply contents_ext; [done|lia|done].
  - constructor; [done|done|]. intros k. rewrite Haddr. apply Hd.
  - intros x Hx Hxj. assert (Hxj0 : owns s j x).
    { destruct Hxj as (H0 & [?|(k & Hk & Hka)]); split; [done|by left|done|]. right. exists k. by rewrite <- Haddr. }
    pose proof (owns_data s j x Hj Hxj0) as [_ Hu]. apply (Hap x); [|done].
    by apply (owns_back s i s' i').
Qed.

(** ** The inode block *)

(** Storing an inode block leaves the data of every file alone. *)
Lemma stored_iblock_file s n d j :
  fs_ok s -> 0 <= n < sb_ninodes (sb s) -> length d = Z.to_nat BSIZE -> inode_ok s j ->
  let s' := stored s (IBLOCK n (sb s)) d in
  inode_ok s' j /\ (forall k, addr_of s' j k = addr_of s j k) /\
  (forall p, 0 <= p < MAXFILE * BSIZE -> fbyte s' j p = fbyte s j p).
Proof.
  intros Hf Hn Hd Hj s'. destruct (stored_iblock s n d Hf Hn Hd) as (_ & Hu & _ & Hblk).
  apply inode_same; [done|done| |].
  - intros x Ho. pose proof (owns_data s j x Hj Ho) as Hx. destruct (data_block_buf s x Hf Hx) as (Hr & _).
    destruct Hx as [Hx Hux]. split; [done|]. by rewrite Hu.
  - intros x Hx. pose proof (owns_data s j x Hj Hx) as Hdb. destruct (data_block_buf s x Hf Hdb) as (Hr & _).
    destruct Hdb as [Hdb _]. pose proof (iblock_range s n Hf Hn). unfold data_start in Hdb.
    assert (0 <= (sb_size (sb s) - 1) / BPB) by (apply Z.div_pos; [lia|done]). apply Hblk; lia.
Qed.

Lemma owns_same s s' j x : (forall k, addr_of s' j k = addr_of s j k) -> owns s' j x <-> owns s j x.
Proof. intros H. unfold owns. by setoid_rewrite H. Qed.

Lemma stored_iblock_undisturbed s n d i j :
  fs_ok s -> 0 <= n < sb_ninodes (sb s) -> length d = Z.to_nat BSIZE -> inode_ok s i ->
  file_ok s j -> apart s i j -> undisturbed s i j (stored s (IBLOCK n (sb s)) d) i.
Proof.
  intros Hf Hn Hd Hi [Hj Hs Hde] Hap. destruct (stored_iblock_file s n d j Hf Hn Hd Hj) as (Hj' & Haj & Hbj).
  destruct (stored_iblock_file s n d i Hf Hn Hd Hi) as (_ & Hai & _). split; [|split].
  - apply contents_ext; [done|lia|done].
  - constructor; [done|done|]. intros k. rewrite Haj. apply Hde.
  - intros x Hx Hxj. rewrite (owns_same s) in Hx by done. rewrite (owns_same s) in Hxj by done. by apply (Hap x).
Qed.

Lemma synced_meta s s' j :
  fs_ok s -> in_table s j -> sb s' = sb s ->
  (forall x, 0 <= x < sb_bmapstart (sb s) -> block s' x = block s x) -> synced s j -> synced s' j.
Proof.
  intros Hf Hj Hsb Hm Hs. unfold synced in *. rewrite Hsb. pose proof (iblock_range s _ Hf Hj).
  by rewrite Hm by lia.
Qed.

Lemma addrs_u32 s i : fs_ok s -> inode_ok s i -> Forall in_u32 (addrs i).
Proof.
  intros Hf Hi. pose proof (i_len _ _ Hi) as Hl. pose proof (f_int _ Hf). pose proof (data_start_pos s Hf).
  apply Forall_lookup. intros k x Hx. destruct (decide (x = 0)) as [->|Hx0]; [done|].
  pose proof (lookup_lt_Some _ _ _ Hx) as Hk. assert (Hdb : data_block s x); [|destruct Hdb; unfold in_u32; lia].
  destruct (decide (k = 12%nat)) as [->|Hne].
  - assert (E : ind_of i = x) by (unfold ind_of; by rewrite Hx). rewrite <- E. apply (i_ind _ _ Hi). congruence.
  - assert (E : addr_of s i (Z.of_nat k) = x).
    { rewrite addr_direct by (unfold NDIRECT; lia). by rewrite Nat2Z.id, Hx. }
    rewrite <- E. apply (i_addr _ _ Hi); [|congruence]. unfold in_file, MAXFILE, NDIRECT, NINDIRECT. lia.
Qed.

(** ** The contents after a write *)

Lemma contents_wrote s i off bs s' i' :
  0 <= off <= isize i -> isize i <= MAXFILE * BSIZE -> off + Z.of_nat (length bs) <= MAXFILE * BSIZE ->
  isize i' = Z.max (isize i) (off + Z.of_nat (length bs)) ->
  (forall p, 0 <= p < MAXFILE * BSIZE ->
     fbyte s' i' p = if decide (within off bs p) then default 0 (bs !! Z.to_nat (p - off)) else fbyte s i p) ->
  contents s' i' = take (Z.to_nat off) (contents s i) ++ bs ++ drop (Z.to_nat off + length bs) (contents s i).
Proof.
  intros Ho Hm Hmax Hs Hb.
  assert (Hlc : forall s i, length (contents s i) = Z.to_nat (isize i)) by (intros; apply length_fbytes).
  apply list_eq. intros j. destruct (decide (j < Z.to_nat (isize i'))%nat) as [Hj|Hj].
  2: { rewrite !(proj2 (lookup_ge_None _ _)); [done| |rewrite Hlc; lia].
       rewrite !length_app, length_take, length_drop, Hlc. lia. }
  unfold contents at 1. rewrite fbytes_lookup, Hb by lia. rewrite Z.add_0_l.
  destruct (decide (j < Z.to_nat off)%nat) as [H1|H1].
  - rewrite lookup_app_l by (rewrite length_take, Hlc; lia). rewrite lookup_take_lt by done.
    unfold contents. rewrite fbytes_lookup by lia. by rewrite decide_False by (unfold within; lia).
  - rewrite lookup_app_r by (rewrite length_take, Hlc; lia). rewrite length_take, Hlc.
    replace (Z.to_nat off `min` Z.to_nat (isize i))%nat with (Z.to_nat off) by lia.
    case_decide as W; unfold within in W.
    + rewrite lookup_app_l by lia. replace (Z.to_nat (Z.of_nat j - off)) with (j - Z.to_nat off)%nat by lia.
      destruct (lookup_lt_is_Some_2 bs (j - Z.to_nat off)) as [x ->]; [lia|done].
    + rewrite lookup_app_r, lookup_drop by lia. unfold contents. rewrite fbytes_lookup by lia. do 2 f_equal. lia.
Qed.

(** The effect of [writei]. *)
Record written (s : bstate) (i : inode) (off : Z) (bs : list Z) (s' : bstate) (i' : inode) : Prop := Written {
  wr_fs : fs_ok s';
  wr_file : file_ok s' i';
  wr_held : held s' = [];
  wr_sb : sb s' = sb s;
  wr_fields : fields_ok i';
  wr_synced : synced s' i';
  wr_inode : i' = set_size (Z.max (isize i) (off + Z.of_nat (length bs))) (set_addrs (addrs i') i);
  wr_contents : contents s' i' =
    take (Z.to_nat off) (contents s i) ++ bs ++ drop (Z.to_nat off + length bs) (contents s i);
  wr_others : forall j, file_ok s j -> apart s i j -> undisturbed s i j s' i';
  wr_synced_others : forall j, in_table s j -> inum j <> inum i -> synced s j -> synced s' j;
  wr_log : forall x, x ∈ logged s' ->
    x ∈ logged s \/ bitmap_block (sb s) x \/ x = ind_of i' \/ x = IBLOCK (inum i) (sb s) \/
    exists p, within off bs p /\ x = addr_of s' i' (p / BSIZE)
}.

(** The file is dense after the bytes are stored. *)
Lemma wrote_dense s i off bs s' i' k :
  file_ok s i -> 0 <= off <= isize i -> wrote s i off bs s' i' -> in_file k ->
  k * BSIZE < Z.max (isize i) (off + Z.of_nat (length bs)) -> addr_of s' i' k <> 0.
Proof.
  intros [Hi Hs Hd] Ho Hw Hk Hlt. destruct (decide (k * BSIZE < isize i)) as [E|E].
  - rewrite (x_addr _ _ _ _ (w_ext _ _ _ _ _ _ Hw) k Hk); by apply Hd.
  - rewrite <- (Z.div_mul k BSIZE) by done. apply (w_touch _ _ _ _ _ _ Hw). unfold within. lia.
Qed.

Lemma wrote_inum s i off bs s' i' : wrote s i off bs s' i' -> i' = set_addrs (addrs i') i.
Proof. intros Hw. apply (x_ino _ _ _ _ (w_ext _ _ _ _ _ _ Hw)). Qed.

(** Inside the file, only data blocks change. *)
Lemma written_inside s i off bs s' i' :
  fs_ok s -> file_ok s i -> in_table s i -> fields_ok i -> synced s i ->
  0 <= off -> off + Z.of_nat (length bs) <= isize i -> wrote s i off bs s' i' -> written s i off bs s' i'.
Proof.
  intros Hf Hfile Ht Hfl Hsy Ho Hin Hw. pose proof Hfile as [Hi Hs Hd].
  assert (E : i' = i).
  { apply (w_same _ _ _ _ _ _ Hw). intros p Hp. unfold within in Hp.
    apply Hd; [apply block_of_file; lia|]. pose proof (Z.mul_div_le p BSIZE BSIZE_pos). lia. }
  subst i'. pose proof Hw as [He Hf' Hi' Hh' Hb _ _ _ Hlog].
  assert (Hmx : Z.max (isize i) (off + Z.of_nat (length bs)) = isize i) by lia.
  constructor; try done.
  - constructor; [done|done|]. intros k Hk Hlt. apply (wrote_dense s i off bs s' i k Hfile); [lia|done|done|lia].
  - apply He.
  - apply (synced_meta s); [done|done|apply He|apply He|done].
  - rewrite Hmx. by destruct i.
  - apply contents_wrote; [lia|lia|lia|lia|done].
  - intros j Hj Hap. by apply extends_undisturbed.
  - intros j Hj Hne. apply (synced_meta s); [done|done|apply He|apply He].
  - intros x Hx. apply Hlog in Hx as [?|[?|[[? _]|?]]]; [by left|by right; left|by right; right; left|].
    by right; right; right; right.
Qed.

Lemma addr_of_set_size s i n k : addr_of s (set_size n i) k = addr_of s i k.
Proof. done. Qed.

(** Past the end, the inode is written back with its new size. *)
Lemma written_past s i off bs s1 i1 :
  fs_ok s -> file_ok s i -> in_table s i -> fields_ok i ->
  0 <= off <= isize i -> off + Z.of_nat (length bs) <= MAXFILE * BSIZE ->
  isize i < off + Z.of_nat (length bs) -> wrote s i off bs s1 i1 ->
  let i' := set_size (off + Z.of_nat (length bs)) i1 in
  exists s', iupdate s1 i' = Ok s' /\ written s i off bs s' i' /\
    ((forall k, addr_of s' i' k = addr_of s1 i1 k) /\ nfree s' = nfree s1).
Proof.
  intros Hf Hfile Ht Hfl Ho Hmax Hpast Hw i'. pose proof Hfile as [Hi Hs _].
  pose proof Hw as [He Hf1 Hi1 Hh1 Hb _ _ _ Hlog]. pose proof (wrote_inum _ _ _ _ _ _ Hw) as Ei.
  assert (Enum : inum i' = inum i) by (unfold i'; by rewrite Ei).
  assert (Hsb : sb s1 = sb s) by apply He.
  assert (Ht1 : in_table s1 i') by (unfold in_table; by rewrite Enum, Hsb).
  assert (Hi1' : inode_ok s1 i') by (destruct Hi1; by constructor).
  pose proof (i_len _ _ Hi1') as Hlen.
  assert (Hnh : IBLOCK (inum i') (sb s1) ∉ held s1) by (rewrite Hh1; apply not_elem_of_nil).
  rewrite (iupdate_Ok s1 i' Hf1 Ht1 Hlen Hnh). eexists; split; [reflexivity|].
  pose proof (length_put_dinode s1 i' Hf1 Ht1 Hlen) as Hdl. set (d := put_dinode s1 i') in *.
  destruct (stored_iblock s1 (inum i') d Hf1 Ht1 Hdl) as (Hf' & _ & Hnf' & Hblk).
  destruct (stored_iblock_file s1 (inum i') d i' Hf1 Ht1 Hdl Hi1') as (Hi' & Haddr & Hbytes).
  set (s' := stored s1 _ d) in *.
  assert (Hfl' : fields_ok i').
  { destruct Hfl as [F1 F2 F3 F4 _ _ _]. unfold i'. rewrite Ei. constructor; cbn; try done.
    - unfold in_u32, MAXFILE, NDIRECT, NINDIRECT, BSIZE in *. lia.
    - apply (addrs_u32 s1 i1); done. }
  assert (HIB : 0 <= IBLOCK (inum i') (sb s1)) by (pose proof (iblock_range s1 _ Hf1 Ht1); lia).
  assert (Hown : block s' (IBLOCK (inum i') (sb s1)) = d).
  { unfold s'. pose proof (f_len _ Hf1). pose proof (iblock_range s1 _ Hf1 Ht1).
    rewrite block_stored by lia. by rewrite decide_True. }
  split; [|done]. constructor; try done.
  - constructor; [done|cbn; lia|]. intros k Hk Hlt. rewrite Haddr.
    apply (wrote_dense s i off bs s1 i1 k Hfile Ho Hw Hk). cbn in Hlt. lia.
  - unfold synced. change (sb s') with (sb s1). rewrite Hown. by apply load_put_dinode.
  - unfold i'. rewrite Ei. cbn. f_equal. lia.
  - apply contents_wrote; [done|lia|done|cbn; lia|]. intros p Hp. rewrite Hbytes by done. by apply Hb.
  - intros j Hj Hap. destruct (extends_undisturbed s i j s1 i1 Hi Hj Hap Hi1 He) as (Hc1 & Hj1 & Hap1).
    destruct (stored_iblock_undisturbed s1 (inum i') d i' j Hf1 Ht1 Hdl Hi1' Hj1 Hap1) as (Hc2 & Hj2 & Hap2).
    split; [etrans; [exact Hc2|exact Hc1]|by split].
  - intros j Hj Hne Hsj. assert (Hsj1 : synced s1 j) by (apply (synced_meta s); [done|done|done|apply He|done]).
    apply synced_other; [done|done|unfold in_table; by rewrite Hsb|done|by rewrite Enum|done].
  - intros x Hx. cbn [s' stored logged] in Hx. apply elem_of_app in Hx as [Hx|Hx].
    + apply Hlog in Hx as [?|[?|[[? _]|(p & Hp & ->)]]]; [by left|by right; left|by right; right; left|].
      right; right; right; right. exists p. by rewrite Haddr.
    + apply list_elem_of_singleton in Hx as ->. right; right; right; left. by rewrite Enum, Hsb.
Qed.

Section devices.
Context (dev_read : Z -> option (Z -> Z * list Z)) (dev_write : Z -> option (list Z -> Z)).

Lemma readi_Ok s i off n :
  fs_ok s -> file_ok s i -> held s = [] -> itype i <> T_DEV ->
  0 <= off <= isize i -> 0 <= n -> off + n < 2 ^ 32 ->
  let m := Z.min n (isize i - off) in
  readi dev_read s i off n = Ok (m, fbytes s i off m, i, s).
Proof.
  intros Hf [Hi Hs Hd] Hh Ht Ho Hn Hov m. unfold readi. rewrite (proj2 (Z.eqb_neq _ _) Ht).
  assert (HM : MAXFILE * BSIZE < 2 ^ 32) by done.
  assert (Hu : u32 (off + n) = off + n) by (apply Z.mod_small; lia).
  assert (Hu' : u32 (isize i - off) = isize i - off) by (apply Z.mod_small; lia).
  rewrite Hu, Hu', !Z.gtb_ltb, (proj2 (Z.ltb_ge _ _)), (proj2 (Z.ltb_ge _ _)) by lia. cbn [orb].
  assert (Em : (if isize i <? off + n then isize i - off else n) = m).
  { destruct (Z.ltb_spec (isize i) (off + n)); lia. }
  rewrite Em. cbv zeta. rewrite read_loop_spec; try done; try lia; [|].
  - run. by rewrite Z.sub_0_r.
  - intros p Hp. assert (Hk : in_file (p / BSIZE)) by (apply block_of_file; lia). split; [done|].
    apply Hd; [done|]. pose proof (Z.mul_div_le p BSIZE BSIZE_pos). lia.
Qed.

Lemma writei_rest s i src off n rest :
  fs_ok s -> file_ok s i -> held s = [] -> itype i <> T_DEV -> in_table s i -> fields_ok i -> synced s i ->
  0 <= off <= isize i -> 0 <= n <= Z.of_nat (length src) -> 0 <= rest -> off + n + rest <= MAXFILE * BSIZE ->
  (write_need s i off (n + rest) <= nfree s)%nat ->
  exists i' s', writei dev_write s i src off n = Ok (n, i', s') /\
    written s i off (take (Z.to_nat n) src) s' i' /\ (write_need s' i' (off + n) rest <= nfree s')%nat.
Proof.
  intros Hf Hfile Hh Ht Htab Hfl Hsy Ho Hn Hrest Hmax Hneed. pose proof Hfile as [Hi Hs _].
  assert (HM : MAXFILE * BSIZE < 2 ^ 32) by done.
  assert (Hu : u32 (off + n) = off + n) by (apply Z.mod_small; lia).
  unfold writei. rewrite (proj2 (Z.eqb_neq _ _) Ht), Hu, !Z.gtb_ltb.
  rewrite (proj2 (Z.ltb_ge (isize i) off)), (proj2 (Z.ltb_ge (off + n) off)) by lia. cbn [orb].
  rewrite (proj2 (Z.ltb_ge (MAXFILE * BSIZE) (off + n))) by lia.
  destruct (write_loop_spec (S (Z.to_nat n)) s i src 0 off n rest) as (i1 & s1 & -> & Hw & Hleft); try done; try lia.
  { by rewrite Z.sub_0_r. }
  run. rewrite Z.sub_0_r in *. rewrite !Z.gtb_ltb.
  assert (Hlen : Z.of_nat (length (take (Z.to_nat n) src)) = n) by (rewrite length_take; lia).
  change (drop (Z.to_nat 0) src) with src in Hw.
  assert (Esz : isize i1 = isize i) by (by rewrite (wrote_inum _ _ _ _ _ _ Hw)).
  rewrite Esz. destruct (Z.ltb_spec 0 n), (Z.ltb_spec (isize i) (off + n)); cbn [andb]; try lia.
  - destruct (written_past s i off (take (Z.to_nat n) src) s1 i1) as (s' & Hup & Hwr & Hsame); try done; try lia.
    rewrite Hlen in Hup, Hwr, Hsame. rewrite Hup. run. exists (set_size (off + n) i1), s'. split; [done|]. split; [done|].
    destruct Hsame as (Ha & ->). unfold write_need. erewrite filter_ext_elem; [exact Hleft|].
    intros x _. cbn beta. by rewrite Ha.
  - exists i1, s1. split; [done|]. split; [|done]. apply written_inside; try done; lia.
  - exists i1, s1. split; [done|]. split; [|done]. apply written_inside; try done; lia.
Qed.

Lemma writei_Ok s i src off n :
  fs_ok s -> file_ok s i -> held s = [] -> itype i <> T_DEV -> in_table s i -> fields_ok i -> synced s i ->
  0 <= off <= isize i -> 0 <= n <= Z.of_nat (length src) -> off + n <= MAXFILE * BSIZE ->
  (write_need s i off n <= nfree s)%nat ->
  exists i' s', writei dev_write s i src off n = Ok (n, i', s') /\ written s i off (take (Z.to_nat n) src) s' i'.
Proof.
  intros. destruct (writei_rest s i src off n 0) as (i' & s' & E & Hw & _); try done; try lia.
  - by rewrite Z.add_0_r.
  - by exists i', s'.
Qed.

End devices.
