(* ===== verification/Xv6Trunc.v ===== *)
(** [itrunc] of the xv6 file system: every block of the file is given back to
    the bit map, and nothing else is. *)

From S2P Require Import Prelude Bytes Xv6Locks Xv6Fs Xv6Bitmap Xv6Inode Xv6Dinode Xv6Content.

(** The blocks of [L] were given back. *)
Record released (s : bstate) (L : list Z) (s' : bstate) : Prop := Released {
  r_ok : fs_ok s';
  r_sb : sb s' = sb s;
  r_held : held s' = held s;
  r_used : forall x, 0 <= x < sb_size (sb s) -> used s' x = if decide (x ∈ L) then false else used s x;
  r_other : forall x, 0 <= x -> ~ bitmap_block (sb s) x -> block s' x = block s x;
  r_log : forall x, x ∈ logged s' -> x ∈ logged s \/ bitmap_block (sb s) x
}.

Lemma released_nil s : fs_ok s -> released s [] s.
Proof.
  intros Hf. constructor; try done. by left.
Qed.

Lemma released_one s b s' : 0 <= b < sb_size (sb s) -> freed s b s' -> released s [b] s'.
Proof.
  intros Hb [Hok Hsb Hh Hlog Hu Ho]. constructor; try done.
  - intros x Hx. rewrite Hu by done. destruct (decide (x = b)) as [->|Hne].
    + by rewrite decide_True by set_solver.
    + by rewrite decide_False by set_solver.
  - intros x Hx Hnb. apply Ho; [done|]. intros ->. apply Hnb. by exists b.
  - intros x Hx. rewrite Hlog in Hx. apply elem_of_app in Hx as [?|Hx]; [by left|].
    apply list_elem_of_singleton in Hx as ->. right. by exists b.
Qed.

Lemma released_app s L1 s1 L2 s2 : released s L1 s1 -> released s1 L2 s2 -> released s (L1 ++ L2) s2.
Proof.
  intros [_ Hsb1 Hh1 Hu1 Ho1 Hl1] [Hok Hsb2 Hh2 Hu2 Ho2 Hl2]. rewrite Hsb1 in *.
  constructor; try done; try congruence.
  - intros x Hx. rewrite Hu2, Hu1 by done. repeat case_decide; set_solver.
  - intros x Hx Hnb. by rewrite Ho2, Ho1.
  - intros x Hx. apply Hl2 in Hx as [Hx|Hx]; [|by right]. by apply Hl1.
Qed.

(** Blocks that may be freed: data blocks in use, all different. *)
Definition freeable (s : bstate) (L : list Z) : Prop := NoDup L /\ Forall (data_block s) L.

Lemma freeable_after s b s' L : freed s b s' -> fs_ok s -> freeable s (b :: L) -> freeable s' L.
Proof.
  intros Hfr Hf [Hnd Hall]. apply NoDup_cons in Hnd as [Hb Hnd]. apply Forall_cons in Hall as [_ Hall].
  split; [done|]. apply Forall_forall. intros x Hx. rewrite Forall_forall in Hall.
  pose proof (Hall x Hx) as Hdb. destruct (data_block_buf s x Hf Hdb) as (Hr & _). destruct Hdb as [Hd Hu].
  split; [by rewrite (e_sb _ _ _ Hfr)|]. rewrite (e_used _ _ _ Hfr) by done.
  rewrite decide_False; [done|]. by intros ->.
Qed.

(** The buffers held are not among the blocks freed. *)
Lemma held_ok_after s b s' : freed s b s' -> fs_ok s -> held_ok s -> b ∉ held s ->
  (forall n, n ∈ held s -> n < sb_size (sb s)) -> held_ok s'.
Proof.
  intros Hfr Hf Hh Hb Hlt n Hn. rewrite (e_held _ _ _ Hfr) in Hn. destruct (Hh n Hn) as [H1 H2].
  pose proof (data_start_pos s Hf). rewrite (e_sb _ _ _ Hfr). split; [done|].
  rewrite (e_used _ _ _ Hfr) by (specialize (Hlt n Hn); lia). rewrite decide_False; [done|]. by intros ->.
Qed.

Definition held_in (s : bstate) (L : list Z) : Prop :=
  held_ok s /\ (forall n, n ∈ held s -> n < sb_size (sb s)) /\ forall n, n ∈ L -> n ∉ held s.

(** Freeing the first block of a list. *)
Lemma free_first s b L :
  fs_ok s -> held_in s (b :: L) -> freeable s (b :: L) ->
  exists s', bfree s b = Ok s' /\ released s [b] s' /\ held_in s' L /\ freeable s' L.
Proof.
  intros Hf (Hh & Hlt & Hn) Hfr. pose proof Hfr as [_ Hall]. apply Forall_cons in Hall as [[Hd Hu] _].
  destruct (bfree_spec s b Hf Hh Hd Hu) as (s' & Hb & Hfd). pose proof (data_start_pos s Hf).
  exists s'. split; [done|]. split; [|split].
  - apply released_one; [lia|done].
  - split; [|split].
    + apply (held_ok_after s b); [done|done|done|apply Hn; left|done].
    + rewrite (e_held _ _ _ Hfd), (e_sb _ _ _ Hfd). done.
    + rewrite (e_held _ _ _ Hfd). intros n HnL. apply Hn. by right.
  - by apply (freeable_after s b).
Qed.

Definition nonzero (l : list Z) : list Z := filter (fun x => x <> 0) l.

(** ** The two loops *)

Lemma trunc_indirect_spec data k : forall j s,
  length data = Z.to_nat BSIZE -> 0 <= j -> j + Z.of_nat k <= NINDIRECT -> fs_ok s ->
  let L := nonzero (uword data <$> seqZ j (Z.of_nat k)) in
  held_in s L -> freeable s L ->
  exists s', trunc_indirect k j data s = Ok s' /\ released s L s'.
Proof.
  induction k as [|k IH]; intros j s Hl Hj Hk Hf L Hh Hfr; cbn [trunc_indirect].
  { exists s. split; [done|]. by apply released_nil. }
  rewrite (word_Ok _ _ Hl) by lia. run. subst L. rewrite seqZ_cons, fmap_cons in * by lia.
  replace (Z.pred (Z.of_nat (S k))) with (Z.of_nat k) in * by lia.
  replace (Z.succ j) with (j + 1) in * by lia. unfold nonzero in *.
  destruct (Z.eqb_spec (uword data j) 0) as [E|E].
  - rewrite filter_cons_False in * by tauto. by apply IH; try done; try lia.
  - rewrite filter_cons_True in * by done.
    destruct (free_first s _ _ Hf Hh Hfr) as (s1 & -> & Hr & Hh1 & Hfr1). run.
    destruct (IH (j + 1) s1) as (s' & -> & Hr'); try done; try lia; [apply Hr|].
    exists s'. split; [done|]. by apply (released_app s [uword data j] s1).
Qed.

Lemma trunc_direct_spec k : forall (j : nat) s i,
  length (addrs i) = 13%nat -> (j + k <= 12)%nat -> fs_ok s ->
  let L := nonzero (take k (drop j (addrs i))) in
  held_in s L -> freeable s L ->
  exists s', trunc_direct k (Z.of_nat j) s i =
    Ok (set_addrs (take j (addrs i) ++ replicate k 0 ++ drop (j + k) (addrs i)) i, s') /\ released s L s'.
Proof.
  induction k as [|k IH]; intros j s i Hl Hk Hf L Hh Hfr; cbn [trunc_direct].
  { exists s. cbn [replicate app]. rewrite Nat.add_0_r, take_drop. split; [by destruct i|]. by apply released_nil. }
  destruct (lookup_lt_is_Some_2 (addrs i) j) as [a Ha]; [lia|].
  rewrite (aget_nat _ _ _ Ha). run. subst L. rewrite (drop_S _ _ _ Ha) in *. cbn [take] in *. unfold nonzero in *.
  replace (Z.of_nat j + 1) with (Z.of_nat (S j)) by lia.
  assert (Hshape : forall l, l !! j = Some 0 -> length l = 13%nat -> drop (S j) l = drop (S j) (addrs i) ->
    take j l = take j (addrs i) ->
    take (S j) l ++ replicate k 0 ++ drop (S j + k) l = take j (addrs i) ++ replicate (S k) 0 ++ drop (j + S k) (addrs i)).
  { intros l H0 Hll Hd Htk. rewrite (take_S_r _ _ _ H0), Htk, <- app_assoc. cbn [replicate app].
    do 3 f_equal. rewrite <- !drop_drop, Hd, !drop_drop. f_equal. lia. }
  destruct (Z.eqb_spec a 0) as [E|E].
  - rewrite filter_cons_False in * by tauto. subst a.
    destruct (IH (S j) s i) as (s' & -> & Hr); try done; try lia.
    exists s'. split; [|done]. by rewrite (Hshape (addrs i)).
  - rewrite filter_cons_True in * by done.
    destruct (free_first s _ _ Hf Hh Hfr) as (s1 & -> & Hr & Hh1 & Hfr1). run.
    rewrite aset_nat by lia. run.
    set (i1 := set_addrs (<[j := 0]> (addrs i)) i).
    assert (Hd1 : drop (S j) (addrs i1) = drop (S j) (addrs i)) by (unfold i1; cbn; rewrite drop_insert_lt by lia; done).
    destruct (IH (S j) s1 i1) as (s' & -> & Hr'); try done; try lia.
    + unfold i1. cbn. by rewrite length_insert.
    + apply Hr.
    + by rewrite Hd1.
    + by rewrite Hd1.
    + exists s'. rewrite Hd1 in Hr'. split; [|by apply (released_app s [a] s1)].
      rewrite (Hshape (addrs i1)); [done| | |done|].
      * unfold i1. cbn. by rewrite list_lookup_insert_eq by lia.
      * unfold i1. cbn. by rewrite length_insert.
      * unfold i1. cbn. by rewrite take_insert_ge by lia.
Qed.

(** ** The blocks of the file *)

Lemma NoDup_nonzero (f : Z -> Z) l :
  NoDup l -> (forall a b, a ∈ l -> b ∈ l -> f a <> 0 -> f a = f b -> a = b) -> NoDup (nonzero (f <$> l)).
Proof.
  induction l as [|a l IH]; intros Hnd Hinj; [constructor|]. apply NoDup_cons in Hnd as [Ha Hnd].
  rewrite fmap_cons. unfold nonzero in *.
  assert (IH' : NoDup (filter (fun x => x <> 0) (f <$> l))).
  { apply IH; [done|]. intros x y Hx Hy. apply Hinj; by right. }
  destruct (decide (f a = 0)); [by rewrite filter_cons_False by tauto|].
  rewrite filter_cons_True by done. constructor; [|done].
  intros Hin. apply list_elem_of_filter in Hin as [_ Hin]. apply list_elem_of_fmap in Hin as (b & Hb & Hbl).
  apply Ha. rewrite (Hinj a b); [done|left|by right|done|done].
Qed.

Definition file_blocks (s : bstate) (i : inode) (a n : Z) : list Z := nonzero (addr_of s i <$> seqZ a n).

Lemma elem_file_blocks s i a n x :
  x ∈ file_blocks s i a n <-> x <> 0 /\ exists k, a <= k < a + n /\ addr_of s i k = x.
Proof.
  unfold file_blocks, nonzero. rewrite list_elem_of_filter, list_elem_of_fmap.
  setoid_rewrite elem_of_seqZ. naive_solver.
Qed.

Lemma freeable_file_blocks s i a n : inode_ok s i -> 0 <= a -> a + n <= MAXFILE -> freeable s (file_blocks s i a n).
Proof.
  intros Hi Ha Hn. split.
  - apply NoDup_nonzero; [apply NoDup_seqZ|]. intros x y Hx Hy. rewrite elem_of_seqZ in Hx, Hy.
    apply (i_inj _ _ Hi); unfold in_file; lia.
  - apply Forall_forall. intros x Hx. apply elem_file_blocks in Hx as (H0 & k & Hk & <-).
    apply (i_addr _ _ Hi); [unfold in_file; lia|done].
Qed.

Lemma direct_blocks s i :
  length (addrs i) = 13%nat -> nonzero (take 12 (drop 0 (addrs i))) = file_blocks s i 0 NDIRECT.
Proof.
  intros Hl. unfold file_blocks. f_equal. rewrite drop_0. apply list_eq. intros k.
  destruct (decide (k < 12)%nat) as [Hk|Hk].
  - rewrite lookup_take_lt, list_lookup_fmap, lookup_seqZ_lt by (unfold NDIRECT; lia).
    cbn [fmap option_fmap option_map]. rewrite Z.add_0_l, addr_direct by (unfold NDIRECT; lia). rewrite Nat2Z.id.
    destruct (lookup_lt_is_Some_2 (addrs i) k) as [x ->]; [lia|done].
  - rewrite lookup_take_ge by lia. symmetry. apply lookup_ge_None. rewrite length_fmap, length_seqZ.
    unfold NDIRECT. lia.
Qed.

Lemma indirect_blocks s i :
  ind_of i <> 0 ->
  nonzero (uword (block s (ind_of i)) <$> seqZ 0 NINDIRECT) = file_blocks s i NDIRECT NINDIRECT.
Proof.
  intros Hi. unfold file_blocks. f_equal. apply list_eq. intros k. rewrite !list_lookup_fmap.
  destruct (decide (k < 128)%nat) as [Hk|Hk].
  - rewrite !lookup_seqZ_lt by (unfold NINDIRECT; lia). cbn [fmap option_fmap option_map]. f_equal.
    rewrite addr_indirect by lia. rewrite (proj2 (Z.eqb_neq _ _) Hi). f_equal. lia.
  - by rewrite !lookup_seqZ_ge by (unfold NINDIRECT; lia).
Qed.

Lemma not_bitmap s x : fs_ok s -> data_block s x -> ~ bitmap_block (sb s) x.
Proof. intros Hf [Hd _] (b & Hb & E). pose proof (bblock_range s b Hf Hb). lia. Qed.

Lemma released_unhold s n L s1 :
  held s = [] -> released (hold n s) L s1 -> exists s2, s1 = hold n s2 /\ released s L s2 /\ held s2 = [].
Proof.
  intros Hh [Hok Hsb Hheld Hu Ho Hl]. exists (Bstate (blocks s1) (sb s1) [] (logged s1)). split; [|split].
  - destruct s1. cbn in Hheld. rewrite Hh in Hheld. by rewrite Hheld.
  - constructor; try done. destruct Hok. by constructor.
  - done.
Qed.

(** Data blocks that were not freed are still there. *)
Lemma data_block_released s L s' x :
  fs_ok s -> released s L s' -> data_block s x -> x ∉ L -> data_block s' x.
Proof.
  intros Hf Hr Hx Hn. destruct (data_block_buf s x Hf Hx) as (Hrx & _). destruct Hx as [Hd Hu].
  split; [by rewrite (r_sb _ _ _ Hr)|]. rewrite (r_used _ _ _ Hr) by done. by rewrite decide_False.
Qed.

Lemma freeable_released s L s' L' :
  fs_ok s -> released s L s' -> freeable s L' -> (forall x, x ∈ L' -> x ∉ L) -> freeable s' L'.
Proof.
  intros Hf Hr [Hnd Hall] Hdis. split; [done|]. rewrite Forall_forall in Hall |- *. intros x Hx.
  apply (data_block_released s L); [done|done|by apply Hall|by apply Hdis].
Qed.

Lemma held_in_nil s L : held s = [] -> held_in s L.
Proof.
  intros Hh. unfold held_in, held_ok. rewrite Hh. split; [|split]; intros n Hn.
  - by apply elem_of_nil in Hn.
  - by apply elem_of_nil in Hn.
  - apply not_elem_of_nil.
Qed.

(** ** itrunc *)

(** Freeing the indirect block and what it maps. *)
Lemma trunc_behind s i :
  fs_ok s -> held s = [] -> data_block s (ind_of i) -> ind_of i <> 0 ->
  let L := file_blocks s i NDIRECT NINDIRECT in
  freeable s L -> ind_of i ∉ L ->
  exists s2 s3, trunc_indirect (Z.to_nat NINDIRECT) 0 (block s (ind_of i)) (hold (ind_of i) s) = Ok (hold (ind_of i) s2) /\
    held s2 = [] /\ bfree s2 (ind_of i) = Ok s3 /\ released s (L ++ [ind_of i]) s3.
Proof.
  intros Hf Hh Hdb H0 L Hfr Hn. destruct (data_block_buf s _ Hf Hdb) as (Hr & _ & Hlen).
  destruct (trunc_indirect_spec (block s (ind_of i)) (Z.to_nat NINDIRECT) 0 (hold (ind_of i) s)) as (s1 & E & Hrel);
    rewrite ?indirect_blocks by done; try done.
  - by apply fs_ok_hold.
  - unfold held_in, held_ok. cbn [hold held sb]. rewrite Hh. split; [|split].
    + intros n Hin. apply list_elem_of_singleton in Hin as ->. destruct Hdb as [? Hu]. split; [lia|exact Hu].
    + intros n Hin. apply list_elem_of_singleton in Hin as ->. lia.
    + intros n Hin Hn'. apply list_elem_of_singleton in Hn' as ->. by apply Hn.
  - rewrite indirect_blocks in Hrel by done. fold L in Hrel.
    destruct (released_unhold s _ L s1 Hh Hrel) as (s2 & -> & Hr2 & Hh2).
    assert (Hfr2 : freeable s2 [ind_of i]).
    { split; [apply NoDup_singleton|]. apply Forall_singleton. by apply (data_block_released s L). }
    destruct (free_first s2 (ind_of i) [] (r_ok _ _ _ Hr2) (held_in_nil _ _ Hh2) Hfr2) as (s3 & Hb & Hr3 & _).
    exists s2, s3. split; [done|]. split; [done|]. split; [done|]. by apply (released_app s L s2).
Qed.

(** All blocks of the file. *)
Definition all_blocks (s : bstate) (i : inode) : list Z :=
  file_blocks s i 0 NDIRECT ++ (if decide (ind_of i = 0) then [] else file_blocks s i NDIRECT NINDIRECT ++ [ind_of i]).

Lemma elem_all_blocks s i x : x ∈ all_blocks s i <-> owns s i x.
Proof.
  unfold all_blocks, owns. rewrite elem_of_app, elem_file_blocks.
  destruct (decide (ind_of i = 0)) as [E|E].
  - split.
    + intros [(H0 & k & Hk & Ha)|H]; [|by apply elem_of_nil in H]. split; [done|]. right. exists k.
      split; [unfold in_file, MAXFILE, NDIRECT, NINDIRECT in *; lia|done].
    + intros (H0 & [?|(k & Hk & Ha)]); [congruence|]. left. split; [done|]. exists k. split; [|done].
      destruct (decide (k < NDIRECT)); [unfold in_file in Hk; lia|].
      rewrite addr_indirect, E in Ha by lia. cbn in Ha. congruence.
  - rewrite elem_of_app, elem_file_blocks, list_elem_of_singleton. split.
    + intros [(H0 & k & Hk & Ha)|[(H0 & k & Hk & Ha)| ->]]; [| |split; [done|by left]];
        (split; [done|]; right; exists k; split; [unfold in_file, MAXFILE, NDIRECT, NINDIRECT in *; lia|done]).
    + intros (H0 & [?|(k & Hk & Ha)]); [by right; right|]. unfold in_file, MAXFILE in Hk.
      destruct (decide (k < NDIRECT)).
      * left. split; [done|]. exists k. split; [lia|done].
      * right; left. split; [done|]. exists k. split; [lia|done].
Qed.

Lemma direct_not_behind s i x :
  inode_ok s i -> ind_of i <> 0 -> x ∈ file_blocks s i NDIRECT NINDIRECT ++ [ind_of i] -> x ∉ file_blocks s i 0 NDIRECT.
Proof.
  intros Hi E Hx Hx0. apply elem_file_blocks in Hx0 as (Hx0 & k & Hk & Ha).
  assert (Hik : in_file k) by (unfold in_file, MAXFILE, NINDIRECT in *; lia).
  apply elem_of_app in Hx as [Hx|Hx].
  - apply elem_file_blocks in Hx as (_ & k' & Hk' & Ha'). enough (k = k') by lia.
    apply (i_inj _ _ Hi); [done|unfold in_file, MAXFILE, NDIRECT in *; lia|congruence|congruence].
  - apply list_elem_of_singleton in Hx as ->. apply (i_ind_other _ _ Hi k Hik); congruence.
Qed.

(** The second part of [itrunc]: the indirect block. *)
Definition trunc_rest (s : bstate) (i : inode) : res (inode * bstate) :=
  if ind_of i =? 0 then Ok (i, s)
  else
    '(data, s) ← get_buf s (ind_of i);
    s ← trunc_indirect (Z.to_nat NINDIRECT) 0 data s;
    s ← bfree (put_buf s (ind_of i)) (ind_of i);
    l ← aset (addrs i) NDIRECT 0;
    Ok (set_addrs l i, s).

Lemma trunc_rest_spec s i s1 i1 :
  fs_ok s -> inode_ok s i -> held s = [] -> released s (file_blocks s i 0 NDIRECT) s1 ->
  i1 = set_addrs (replicate 12 0 ++ [ind_of i]) i ->
  exists s', trunc_rest s1 i1 = Ok (set_addrs (replicate 13 0) i, s') /\ released s (all_blocks s i) s'.
Proof.
  intros Hf Hi Hh Hr1 Hi1.
  assert (Hind : ind_of i1 = ind_of i) by (by rewrite Hi1).
  assert (Ha1 : addrs i1 = replicate 12 0 ++ [ind_of i]) by (by rewrite Hi1).
  assert (Hset : forall l, set_addrs l i1 = set_addrs l i) by (intros l; by rewrite Hi1).
  unfold trunc_rest, all_blocks. rewrite Hind.
  destruct (Z.eqb_spec (ind_of i) 0) as [E|E].
  { rewrite decide_True, app_nil_r by done. exists s1. split; [|done]. by rewrite Hi1, E. }
  rewrite decide_False by done. pose proof (i_ind _ _ Hi E) as Hdb.
  assert (Hdb1 : data_block s1 (ind_of i)).
  { apply (data_block_released s (file_blocks s i 0 NDIRECT)); [done|done|done|].
    apply (direct_not_behind s i); [done|done|]. apply elem_of_app. right. by apply list_elem_of_singleton. }
  assert (Hblk : block s1 (ind_of i) = block s (ind_of i)).
  { apply (r_other _ _ _ Hr1); [destruct (data_block_buf s _ Hf Hdb); lia|by apply not_bitmap]. }
  assert (Hsame : file_blocks s1 i NDIRECT NINDIRECT = file_blocks s i NDIRECT NINDIRECT).
  { by rewrite <- !indirect_blocks, Hblk by done. }
  assert (Hh1 : held s1 = []) by (by rewrite (r_held _ _ _ Hr1)).
  destruct (trunc_behind s1 i (r_ok _ _ _ Hr1) Hh1 Hdb1 E) as (s2 & s3 & Et & Hh2 & Hb & Hr3); rewrite ?Hsame.
  - apply (freeable_released s (file_blocks s i 0 NDIRECT)); [done|done|by apply freeable_file_blocks|].
    intros x Hx. apply (direct_not_behind s i); [done|done|]. apply elem_of_app. by left.
  - intros Hin. apply elem_file_blocks in Hin as (_ & k & Hk & Ha).
    apply (i_ind_other _ _ Hi k); [unfold in_file, MAXFILE, NDIRECT in *; lia|congruence|done].
  - rewrite Hsame in Hr3. destruct (data_block_buf s1 _ (r_ok _ _ _ Hr1) Hdb1) as (Hr & Hlk & _).
    rewrite (get_buf_Ok s1 (ind_of i) _ ltac:(rewrite Hh1; apply not_elem_of_nil) ltac:(lia) Hlk), run_Ok.
    rewrite Et, run_Ok, put_buf_hold by (rewrite Hh2; apply not_elem_of_nil). rewrite Hb, run_Ok.
    rewrite Ha1, aset_Ok, run_Ok, Hset by done. exists s3. split; [reflexivity|]. by apply (released_app s _ s1).
Qed.

(** [itrunc] up to the write of the inode. *)
Lemma itrunc_blocks s i :
  fs_ok s -> inode_ok s i -> held s = [] ->
  exists s', itrunc s i = (let i' := set_size 0 (set_addrs (replicate 13 0) i) in s ← iupdate s' i'; Ok (i', s)) /\
    released s (all_blocks s i) s'.
Proof.
  intros Hf Hi Hh. pose proof (i_len _ _ Hi) as Hl.
  pose proof (freeable_file_blocks s i 0 NDIRECT Hi ltac:(lia) ltac:(done)) as Hfr1.
  destruct (trunc_direct_spec 12 0 s i Hl ltac:(lia) Hf) as (s1 & E1 & Hr1);
    rewrite ?(direct_blocks s i Hl); [by apply held_in_nil|done|].
  rewrite (direct_blocks s i Hl) in Hr1.
  assert (H12 : drop 12 (addrs i) = [ind_of i]).
  { destruct (lookup_lt_is_Some_2 (addrs i) 12) as [z Hz]; [lia|]. unfold ind_of. rewrite Hz.
    rewrite (drop_S _ _ _ Hz), (drop_ge _ 13) by lia. done. }
  cbn [Nat.add] in E1. rewrite H12, take_0, app_nil_l in E1.
  destruct (trunc_rest_spec s i s1 _ Hf Hi Hh Hr1 eq_refl) as (s' & Er & Hr).
  assert (HN : Z.to_nat NDIRECT = 12%nat) by done.
  assert (Hi1 : ind_of (set_addrs (replicate 12 0 ++ [ind_of i]) i) = ind_of i) by done.
  assert (Hg : aget (addrs (set_addrs (replicate 12 0 ++ [ind_of i]) i)) NDIRECT = Ok (ind_of i)) by done.
  unfold trunc_rest in Er. rewrite Hi1 in Er. rewrite Nat2Z.inj_0 in E1.
  exists s'. split; [|done]. unfold itrunc. rewrite HN, E1, run_Ok. cbn iota. rewrite Hg, run_Ok, Er, run_Ok. reflexivity.
Qed.

(** A file the truncation does not concern. *)
Lemma released_undisturbed s i j s' :
  fs_ok s -> inode_ok s i -> file_ok s j -> apart s i j -> released s (all_blocks s i) s' ->
  inode_ok s' j /\ contents s' j = contents s j /\ file_ok s' j.
Proof.
  intros Hf Hi [Hj Hs Hd] Hap Hr.
  assert (Hkeep : forall x, owns s j x -> data_block s' x).
  { intros x Hx. apply (data_block_released s (all_blocks s i)); [done|done|by apply (owns_data s j)|].
    rewrite elem_all_blocks. intros Ho. by apply (Hap x). }
  assert (Hblk : forall x, owns s j x -> block s' x = block s x).
  { intros x Hx. pose proof (owns_data s j x Hj Hx) as Hdb. destruct (data_block_buf s x Hf Hdb) as (Hrx & _).
    apply (r_other _ _ _ Hr); [lia|by apply not_bitmap]. }
  destruct (inode_same s s' j (r_sb _ _ _ Hr) Hj Hkeep Hblk) as (Hj' & Haddr & Hb).
  split; [done|]. split; [apply contents_ext; [done|lia|done]|].
  constructor; [done|done|]. intros k. rewrite Haddr. apply Hd.
Qed.

(** The inode [itrunc] leaves. *)
Definition emptied (i : inode) : inode := set_size 0 (set_addrs (replicate 13 0) i).

Lemma emptied_file s i : file_ok s (emptied i) /\ forall x, ~ owns s (emptied i) x.
Proof.
  assert (Ha : forall k, in_file k -> addr_of s (emptied i) k = 0).
  { intros k Hk. unfold addr_of. case_if; [|done]. unfold in_file, NDIRECT in *.
    change (addrs (emptied i)) with (replicate 13 0). by rewrite lookup_replicate_2 by lia. }
  split.
  - constructor; [|done|].
    + constructor; [done| |done| |].
      * intros k Hk. rewrite Ha by done. done.
      * intros k Hk. rewrite Ha by done. done.
      * intros k k' Hk Hk'. rewrite !Ha by done. done.
    + intros k Hk Hlt. unfold in_file, BSIZE in *. change (isize (emptied i)) with 0 in Hlt. lia.
  - intros x (H0 & [?|(k & Hk & E)]); [done|]. rewrite Ha in E by done. congruence.
Qed.

Lemma itrunc_Ok s i :
  fs_ok s -> inode_ok s i -> held s = [] -> in_table s i -> fields_ok i ->
  exists s', itrunc s i = Ok (emptied i, s') /\ fs_ok s' /\ held s' = [] /\ sb s' = sb s /\
    synced s' (emptied i) /\
    (forall x, data_start (sb s) <= x < sb_size (sb s) -> used s' x = true <-> used s x = true /\ ~ owns s i x) /\
    (forall j, file_ok s j -> apart s i j -> contents s' j = contents s j /\ file_ok s' j) /\
    (forall j, in_table s j -> inum j <> inum i -> synced s j -> synced s' j).
Proof.
  intros Hf Hi Hh Ht Hfl. destruct (itrunc_blocks s i Hf Hi Hh) as (s1 & -> & Hr). fold (emptied i). cbv zeta.
  pose proof Hr as [Hf1 Hsb1 Hh1 Hu1 Ho1 _].
  assert (Ht1 : in_table s1 (emptied i)) by (unfold in_table; by rewrite Hsb1).
  assert (Hnh : IBLOCK (inum (emptied i)) (sb s1) ∉ held s1) by (rewrite Hh1, Hh; apply not_elem_of_nil).
  rewrite (iupdate_Ok s1 (emptied i) Hf1 Ht1 eq_refl Hnh), run_Ok. eexists; split; [reflexivity|].
  pose proof (length_put_dinode s1 (emptied i) Hf1 Ht1 eq_refl) as Hdl. set (d := put_dinode s1 (emptied i)) in *.
  destruct (stored_iblock s1 (inum (emptied i)) d Hf1 Ht1 Hdl) as (Hf' & Hu & _ & _).
  pose proof (iblock_range s1 _ Hf1 Ht1). pose proof (f_len _ Hf1). pose proof (data_start_pos s Hf).
  split; [done|]. split; [cbn [stored held]; by rewrite Hh1|]. split; [done|]. split; [|split; [|split]].
  - unfold synced. change (sb (stored s1 _ d)) with (sb s1). rewrite block_stored by lia. rewrite decide_True by done.
    apply load_put_dinode; [done|done|]. destruct Hfl as [F1 F2 F3 F4 _ _ _]. constructor; try done.
    apply Forall_replicate. done.
  - intros x Hx. rewrite Hu by (rewrite Hsb1; lia). rewrite Hu1 by lia. rewrite <- elem_all_blocks.
    case_decide; naive_solver.
  - intros j Hj Hap. destruct (released_undisturbed s i j s1 Hf Hi Hj Hap Hr) as (Hj1 & Hc & Hfj).
    destruct (emptied_file s1 i) as [[He _ _] Hno].
    destruct (stored_iblock_undisturbed s1 (inum (emptied i)) d (emptied i) j Hf1 Ht1 Hdl He Hfj) as (Hc2 & Hj2 & _).
    { intros x Hx. by apply Hno in Hx. }
    split; [etrans; [exact Hc2|exact Hc]|done].
  - intros j Hj Hne Hs. apply synced_other; [done|done|unfold in_table; by rewrite Hsb1|done|done|].
    apply (synced_meta s); [done|done|done| |done]. intros x Hx. apply Ho1; [lia|].
    intros (b & Hb & E). unfold BBLOCK in E. pose proof (Z.div_pos b BPB). pose proof BPB_pos. lia.
Qed.
