(* ===== verification/Xv6Files.v ===== *)
(** The theorems of the block and inode layer of the xv6 file system, with a
    small disk on which they are instantiated. *)

From S2P Require Import Prelude Bytes Xv6Locks Xv6Fs Xv6Bitmap Xv6Inode Xv6Dinode Xv6Content Xv6Trunc.

(** ** A disk of 16 blocks with one empty file *)

Definition demo_sb : superblock := Superblock 16 11 8 0 2 2 4.

Definition demo_inode : inode := Inode 1 1 1 initsleeplock 1 T_FILE 0 0 1 0 (replicate 13 0).

Definition disk_with (i : inode) : bstate :=
  Bstate ([zeros; splice 0 (mjoin (le32 <$> [16; 11; 8; 0; 2; 2; 4])) zeros;
           splice 64 (dinode_bytes i) zeros; zeros; splice 0 [31] zeros] ++ replicate 11 zeros)
         demo_sb [] [].

Definition demo_disk : bstate := disk_with demo_inode.

(** Checks a concrete disk. *)
Ltac check_disk :=
  constructor; try (vm_compute; done);
  [ repeat constructor
  | intros b Hb; change (data_start _) with 5 in Hb;
    assert (b = 0 \/ b = 1 \/ b = 2 \/ b = 3 \/ b = 4) as [->|[->|[->|[->| ->]]]] by lia; vm_compute; done ].

Lemma demo_fs : fs_ok demo_disk.
Proof. check_disk. Qed.

Lemma demo_file : file_ok demo_disk demo_inode.
Proof. apply (emptied_file demo_disk demo_inode). Qed.

Lemma demo_fields : fields_ok demo_inode.
Proof. constructor; try done. by apply Forall_replicate. Qed.

Lemma demo_synced : synced demo_disk demo_inode.
Proof. vm_compute. done. Qed.

(** ** Theorems *)

(** the block allocator.  On a well-formed disk [balloc] returns the first
    free block, marks exactly that block and zeroes it ([allocated]), and
    [bfree] of it restores the bit map; when no block is free [balloc] panics,
    and [bfree] of a free block panics. *)
Theorem balloc_bfree s :
  fs_ok s -> held_in s [] ->
  (forall b, free_block s b -> bfree s b = Stuck Panicked) /\
  ((forall x, 0 <= x < sb_size (sb s) -> used s x = true) /\ balloc s = Stuck Panicked \/
   exists b s' s'', balloc s = Ok (b, s') /\ allocated s b s' /\ (forall y, 0 <= y < b -> used s y = true) /\
     bfree s' b = Ok s'' /\ forall x, 0 <= x < sb_size (sb s) -> used s'' x = used s x).
Proof.
  intros Hf (Hh & Hlt & _). split; [intros b [Hb Hu]; by apply bfree_free|].
  destruct (decide (nfree s = 0%nat)) as [E|E].
  - left. assert (Hall : forall x, 0 <= x < sb_size (sb s) -> used s x = true).
    { intros x Hx. destruct (used s x) eqn:Hu; [done|]. apply length_zero_iff_nil in E.
      assert (Hin : x ∈ filter (fun x => used s x = false) (seqZ 0 (sb_size (sb s)))).
      { apply list_elem_of_filter. rewrite elem_of_seqZ. split; [done|lia]. }
      unfold nfree in E. rewrite E in Hin. by apply elem_of_nil in Hin. }
    split; [done|]. by apply balloc_full.
  - right. destruct (balloc_spec s Hf Hh (nfree_pos s ltac:(lia))) as (b & s' & Hb & Ha & Hfirst).
    pose proof (free_data s b Hf (a_free _ _ _ Ha)) as Hds. pose proof (data_start_pos s Hf).
    pose proof (a_free _ _ _ Ha) as [Hbr Hub]. pose proof (a_sb _ _ _ Ha) as Hsb.
    assert (Hh' : held_ok s').
    { intros n Hn. rewrite (a_held _ _ _ Ha) in Hn. destruct (Hh n Hn) as [H1 H2]. rewrite Hsb. split; [done|].
      specialize (Hlt n Hn). rewrite (a_used _ _ _ Ha) by lia. by case_decide. }
    destruct (bfree_spec s' b (a_ok _ _ _ Ha) Hh') as (s'' & Hb' & Hfd); [rewrite Hsb; lia| |].
    { rewrite (a_used _ _ _ Ha) by lia. by rewrite decide_True. }
    exists b, s', s''. split; [done|]. split; [done|]. split; [done|]. split; [done|].
    intros x Hx. rewrite (e_used _ _ _ Hfd), (a_used _ _ _ Ha) by (rewrite ?Hsb; done).
    case_decide; [congruence|done].
Qed.

Lemma balloc_bfree_witness :
  fs_ok demo_disk /\ held_in demo_disk [] /\ exists s', balloc demo_disk = Ok (5, s').
Proof.
  assert (Hh : held_in demo_disk []) by (by apply held_in_nil). split; [exact demo_fs|]. split; [exact Hh|].
  destruct (balloc_bfree demo_disk demo_fs Hh) as [_ [[Hall _]|(b & s' & s'' & Hb & Ha & Hfirst & _)]].
  - exfalso. specialize (Hall 5 ltac:(cbn; lia)). vm_compute in Hall. discriminate.
  - exists s'. assert (Eb : b = 5); [|congruence]. destruct (Z.lt_trichotomy b 5) as [Hlt|[?|Hgt]]; [|done|].
    + exfalso. pose proof (free_data demo_disk b demo_fs (a_free _ _ _ Ha)) as Hd.
      change (data_start (sb demo_disk)) with 5 in Hd. lia.
    + exfalso. specialize (Hfirst 5 ltac:(lia)). vm_compute in Hfirst. discriminate.
Defined.

Section devices.
Context (dev_read : Z -> option (Z -> Z * list Z)) (dev_write : Z -> option (list Z -> Z)).

(** [readi] of a regular file or directory returns the bytes of the
    file from [off], clipped at the end of the file, and changes nothing; an
    offset past the end, or one whose sum with the count wraps around, is an
    error. *)
Theorem readi_segment s i off n :
  fs_ok s -> file_ok s i -> held s = [] -> itype i <> T_DEV -> in_u32 off -> in_u32 n ->
  readi dev_read s i off n =
    if decide (off <= isize i /\ off + n < 2 ^ 32) then
      Ok (Z.min n (isize i - off), take (Z.to_nat n) (drop (Z.to_nat off) (contents s i)), i, s)
    else Ok (-1, [], i, s).
Proof.
  intros Hf Hfile Hh Ht Ho Hn. unfold in_u32 in *. case_decide as E.
  - rewrite readi_Ok by (done || lia). do 4 f_equal.
    rewrite contents_segment by lia. destruct (decide (n <= isize i - off)) as [E'|E'].
    + by rewrite Z.min_l by lia.
    + rewrite Z.min_r by lia. unfold contents. rewrite !take_ge; try done; rewrite length_drop, length_fbytes; lia.
  - unfold readi. rewrite (proj2 (Z.eqb_neq _ _) Ht), Z.gtb_ltb.
    assert (Hor : (isize i <? off) || (u32 (off + n) <? off) = true); [|by rewrite Hor].
    apply orb_true_iff. rewrite !Z.ltb_lt. destruct (decide (isize i < off)); [by left|right].
    unfold u32. rewrite <- (Z.mod_unique (off + n) (2 ^ 32) 1 (off + n - 2 ^ 32)); lia.
Qed.

(** C6: [writei] overwrites the bytes [off .. off + n) of the file, extending
    it when they reach past its end, and nothing else: the contents, the size,
    the other attributes, the copy of the inode on disk, the other files
    ([undisturbed]) and their inodes on disk are as they should be
    ([written]).  It needs the free blocks it is going to allocate. *)
Theorem writei_overwrites s i src off n :
  fs_ok s -> file_ok s i -> held s = [] -> itype i <> T_DEV -> in_table s i -> fields_ok i -> synced s i ->
  0 <= off <= isize i -> 0 <= n <= Z.of_nat (length src) -> off + n <= MAXFILE * BSIZE ->
  (write_need s i off n <= nfree s)%nat ->
  exists i' s', writei dev_write s i src off n = Ok (n, i', s') /\ written s i off (take (Z.to_nat n) src) s' i'.
Proof. intros. by apply writei_Ok. Qed.

End devices.

(** [itrunc] empties the file and frees exactly the blocks it owned, the
    indirect block included; every other file and inode is as before. *)
Theorem itrunc_frees s i :
  fs_ok s -> inode_ok s i -> held s = [] -> in_table s i -> fields_ok i ->
  exists s', itrunc s i = Ok (emptied i, s') /\ fs_ok s' /\ held s' = [] /\ sb s' = sb s /\
    synced s' (emptied i) /\
    (forall x, data_start (sb s) <= x < sb_size (sb s) -> used s' x = true <-> used s x = true /\ ~ owns s i x) /\
    (forall j, file_ok s j -> apart s i j -> contents s' j = contents s j /\ file_ok s' j) /\
    (forall j, in_table s j -> inum j <> inum i -> synced s j -> synced s' j).
Proof. apply itrunc_Ok. Qed.

Lemma readi_segment_witness :
  readi (fun _ => None) demo_disk demo_inode 0 10 = Ok (0, [], demo_inode, demo_disk) /\
  readi (fun _ => None) demo_disk demo_inode 1 10 = Ok (-1, [], demo_inode, demo_disk).
Proof.
  split; rewrite readi_segment; try done; try exact demo_fs; try exact demo_file.
Defined.

Lemma writei_overwrites_witness :
  exists i' s', writei (fun _ => None) demo_disk demo_inode [7; 8; 9] 0 3 = Ok (3, i', s') /\
    contents s' i' = [7; 8; 9].
Proof.
  destruct (writei_overwrites (fun _ => None) demo_disk demo_inode [7; 8; 9] 0 3
    demo_fs demo_file eq_refl ltac:(done) ltac:(done) demo_fields demo_synced
    ltac:(split; done) ltac:(split; done) ltac:(done) ltac:(apply Nat.leb_le; vm_compute; reflexivity)) as (i' & s' & Hw & Hwr).
  exists i', s'. split; [exact Hw|]. exact (wr_contents _ _ _ _ _ _ Hwr).
Defined.

Lemma itrunc_frees_witness :
  exists s', itrunc demo_disk demo_inode = Ok (emptied demo_inode, s') /\ fs_ok s'.
Proof.
  destruct (itrunc_frees demo_disk demo_inode demo_fs (fo_ino _ _ demo_file) eq_refl ltac:(done) demo_fields)
    as (s' & H & Hf & _).
  by exists s'.
Defined.
