(* ===== verification/Xv6Path.v ===== *)
(** Path names of the xv6 file system: [skipelem] against the list of the
    elements of a path. *)

From S2P Require Import Prelude Bytes Xv6Fs Xv6Dir.

(** ** The elements of a path *)

(** The pieces of [l] between slashes. *)
Fixpoint split_slash (l : list Z) : list (list Z) :=
  match l with
  | [] => [[]]
  | c :: l' =>
      if c =? SLASH then [] :: split_slash l'
      else match split_slash l' with [] => [[c]] | e :: es => (c :: e) :: es end
  end.

(** The elements are the pieces that are not empty. *)
Definition elements (l : list Z) : list (list Z) := filter (fun e => e <> []) (split_slash l).

(** An element in a [DIRSIZ]-byte name buffer: cut, or terminated. *)
Definition in_name (e name : list Z) : list Z :=
  if decide (DIRSIZ <= length e)%nat then take DIRSIZ e else e ++ 0 :: drop (S (length e)) name.

Lemma split_slash_cons l : exists e es, split_slash l = e :: es.
Proof. induction l as [|c l (e & es & IH)]; cbn; [eauto|]. rewrite IH. case_if; eauto. Qed.

Lemma elements_slash l : elements (SLASH :: l) = elements l.
Proof. unfold elements. cbn [split_slash]. rewrite Z.eqb_refl. by rewrite filter_cons_False by tauto. Qed.

(** A nonempty piece without slashes, up to a slash or the end. *)
Lemma elements_piece e l :
  e <> [] -> SLASH ∉ e -> (l = [] \/ exists l', l = SLASH :: l') -> elements (e ++ l) = e :: elements l.
Proof.
  intros Hne Hs Hl.
  assert (Hsplit : exists es, split_slash (e ++ l) = e :: es /\ elements l = filter (fun e => e <> []) es).
  { clear Hne. induction e as [|c e IH]; cbn [app split_slash].
    - destruct Hl as [->|(l' & ->)]; [by exists []|]. cbn [split_slash]. rewrite Z.eqb_refl.
      exists (split_slash l'). split; [done|]. by rewrite elements_slash.
    - apply not_elem_of_cons in Hs as [Hc Hs]. rewrite (proj2 (Z.eqb_neq _ _)) by done.
      destruct (IH Hs) as (es & -> & Hes). by exists es. }
  destruct Hsplit as (es & E & Hes). unfold elements at 1. rewrite E, filter_cons_True by done. by rewrite <- Hes.
Qed.

(** ** The loops *)

Lemma skip_slashes_spec l rest :
  exists k l', l = replicate k SLASH ++ l' /\ skip_slashes (l ++ 0 :: rest) = Ok (l' ++ 0 :: rest) /\
    elements l' = elements l /\ (forall c, head l' = Some c -> c <> SLASH).
Proof.
  induction l as [|c l (k & l' & -> & E & Hel & Hh)].
  - exists 0%nat, []. done.
  - cbn [app skip_slashes]. destruct (Z.eqb_spec c SLASH) as [->|Hc].
    + exists (S k), l'. split; [done|]. split; [done|]. split; [|done]. by rewrite elements_slash.
    + exists 0%nat, (c :: replicate k SLASH ++ l'). split; [done|]. split; [done|]. split; [done|].
      by intros ? [= <-].
Qed.

Lemma take_elem_spec l rest :
  (0 ∉ l) -> exists e l', l = e ++ l' /\ take_elem (l ++ 0 :: rest) = Ok (e, l' ++ 0 :: rest) /\
    (SLASH ∉ e) /\ (l' = [] \/ exists l'', l' = SLASH :: l'').
Proof.
  induction l as [|c l IH]; intros H0.
  - exists [], []. cbn. split; [done|]. split; [done|]. split; [apply not_elem_of_nil|by left].
  - apply not_elem_of_cons in H0 as [Hc H0]. cbn [app take_elem].
    rewrite (proj2 (Z.eqb_neq c 0)) by done. destruct (Z.eqb_spec c SLASH) as [->|Hs]; cbn [negb andb].
    + exists [], (SLASH :: l). split; [done|]. split; [done|]. split; [apply not_elem_of_nil|right; eauto].
    + destruct (IH H0) as (e & l' & -> & -> & Hse & Hl'). run. exists (c :: e), l'.
      split; [done|]. split; [done|]. split; [|done]. by apply not_elem_of_cons.
Qed.

Lemma store_name e name :
  length name = DIRSIZ ->
  (if Z.of_nat (length e) >=? Z.of_nat DIRSIZ then buf_store name 0 (take DIRSIZ e) else buf_store name 0 (e ++ [0])) =
    Ok (in_name e name).
Proof.
  intros Hn. unfold in_name. rewrite Z.geb_leb. destruct (Z.leb_spec (Z.of_nat DIRSIZ) (Z.of_nat (length e))).
  - rewrite decide_True by lia. rewrite buf_store_Ok by (rewrite ?length_take; lia).
    change (Z.to_nat 0) with 0%nat. rewrite take_0. cbn [app Nat.add]. rewrite drop_ge, app_nil_r; [done|].
    rewrite length_take. lia.
  - rewrite decide_False by lia. rewrite buf_store_Ok by (rewrite ?length_app; cbn [length]; lia).
    change (Z.to_nat 0) with 0%nat. rewrite take_0, length_app, <- app_assoc. cbn [app Nat.add length].
    by rewrite Nat.add_1_r.
Qed.

Lemma length_in_name e name : length name = DIRSIZ -> length (in_name e name) = DIRSIZ.
Proof.
  intros H. unfold in_name. case_decide; [rewrite length_take; lia|].
  rewrite length_app. cbn [length]. rewrite length_drop. lia.
Qed.

(** ** Theorem *)

(** [skipelem] takes the next element off a path.  For a path without
    elements it returns 0; otherwise it stores the first element in [name],
    cut to [DIRSIZ] bytes or NUL-terminated, and returns the rest, whose
    elements are the remaining ones, which has no leading slash, and which is
    empty exactly when the element was the last one (so that the caller can
    test for that). *)
Theorem skipelem_elements l rest name :
  (0 ∉ l) -> length name = DIRSIZ ->
  match elements l with
  | [] => skipelem (l ++ 0 :: rest) name = Ok None
  | e :: es => exists l', skipelem (l ++ 0 :: rest) name = Ok (Some (l' ++ 0 :: rest, in_name e name)) /\
      l' `suffix_of` l /\ elements l' = es /\ (forall c, head l' = Some c -> c <> SLASH) /\ (l' = [] <-> es = [])
  end.
Proof.
  intros H0 Hn. destruct (skip_slashes_spec l rest) as (k & l1 & E & Es & Hel & Hh).
  unfold skipelem. rewrite Es. run. rewrite <- Hel.
  assert (H1 : 0 ∉ l1) by (rewrite E in H0; set_solver).
  destruct l1 as [|c l1].
  { reflexivity. }
  change (aget ((c :: l1) ++ 0 :: rest) 0) with (Ok c). run.
  rewrite (proj2 (Z.eqb_neq c 0)) by set_solver.
  destruct (take_elem_spec (c :: l1) rest H1) as (e & l2 & E2 & -> & Hse & Hl2). run.
  rewrite store_name by done. run.
  destruct (skip_slashes_spec l2 rest) as (k' & l3 & E3 & -> & Hel3 & Hh3). run.
  assert (Hne : e <> []).
  { intros ->. cbn [app] in E2. destruct Hl2 as [->|(l'' & ->)]; [done|].
    apply (Hh c); [done|]. by injection E2. }
  rewrite E2, (elements_piece e l2 Hne Hse Hl2), <- Hel3. exists l3. split; [done|]. split; [|split; [done|split; [done|]]].
  - exists (replicate k SLASH ++ e ++ replicate k' SLASH). rewrite E, E2, E3. by rewrite <- !app_assoc.
  - split; [by intros ->|]. destruct l3 as [|c3 l3]; [done|]. intros Hnil. exfalso.
    unfold elements in Hnil. cbn [split_slash] in Hnil. rewrite (proj2 (Z.eqb_neq c3 SLASH)) in Hnil by (by apply Hh3).
    destruct (split_slash_cons l3) as (e' & es' & E'). rewrite E', filter_cons_True in Hnil by done. done.
Qed.

(** "///a//bb" *)
Lemma skipelem_elements_witness :
  elements [47; 47; 47; 97; 47; 47; 98; 98] = [[97]; [98; 98]] /\
  exists l', skipelem ([47; 47; 47; 97; 47; 47; 98; 98] ++ [0]) (replicate DIRSIZ 7) =
    Ok (Some (l' ++ [0], in_name [97] (replicate DIRSIZ 7))) /\ elements l' = [[98; 98]].
Proof.
  split; [reflexivity|].
  destruct (skipelem_elements [47; 47; 47; 97; 47; 47; 98; 98] [] (replicate DIRSIZ 7)) as (l' & H & _ & He & _);
    [by apply (bool_decide_unpack _)|reflexivity|].
  by exists l'.
Defined.
