(* ===== verification/Xv6Icache.v ===== *)
(** The inode cache of xv6: references to in-memory inodes.

    The cache holds at most one entry per inode ([one_entry]); [refs] is the
    number of references to an inode.  [iget], [idup] and [iput] count
    references; the last [iput] of an inode without links frees it on disk. *)

From S2P Require Import Prelude Bytes Xv6Locks Xv6Fs Xv6Dir Xv6Bitmap Xv6Inode Xv6Dinode Xv6Content Xv6Trunc Xv6Files.

(** ** References *)

(** The entry caches inode [n] of device [dev]. *)
Definition hit (dev n : Z) (i : inode) : bool := (iref i >? 0) && (idev i =? dev) && (inum i =? n).

(** References to the inode. *)
Definition refs (s : fstate) (dev n : Z) : Z :=
  match list_find (fun i => hit dev n i = true) (icache s) with Some (_, i) => iref i | None => 0 end.

Record one_entry (s : fstate) : Prop := OneEntry {
  o_refs : forall (p : nat) i, icache s !! p = Some i -> 0 <= iref i < 2 ^ 31 - 1;
  o_uniq : forall (p q : nat) i j, icache s !! p = Some i -> icache s !! q = Some j ->
    0 < iref i -> 0 < iref j -> idev i = idev j -> inum i = inum j -> p = q
}.

Lemma hit_iff dev n i : hit dev n i = true <-> 0 < iref i /\ idev i = dev /\ inum i = n.
Proof. unfold hit. rewrite Z.gtb_ltb, !andb_true_iff, Z.ltb_lt, !Z.eqb_eq. tauto. Qed.

Lemma iget_scan_spec dev n l : forall k e,
  match iget_scan dev n l k e with
  | inl p => exists j i, p = k + Z.of_nat j /\ l !! j = Some i /\ hit dev n i = true
  | inr e' => (forall (j : nat) i, l !! j = Some i -> hit dev n i = false) /\
      match e with
      | Some _ => e' = e
      | None => match e' with
                | Some p => exists (j : nat) i, p = k + Z.of_nat j /\ l !! j = Some i /\ iref i = 0
                | None => forall (j : nat) i, l !! j = Some i -> iref i <> 0
                end
      end
  end.
Proof.
  induction l as [|i l IH]; intros k e; cbn [iget_scan].
  { split; [by intros j i|]. by destruct e. }
  fold (hit dev n i). destruct (hit dev n i) eqn:Eh.
  { exists 0%nat, i. split; [lia|done]. }
  specialize (IH (k + 1) (match e with None => if iref i =? 0 then Some k else None | e => e end)).
  destruct (iget_scan _ _ _ _ _) as [p|e'].
  - destruct IH as (j & i' & -> & Hj & Hh). exists (S j), i'. split; [lia|done].
  - destruct IH as [Hno He]. split; [intros [|j] i' Hj; [by injection Hj as <-|by eapply Hno]|].
    destruct e as [p|]; [done|]. destruct (Z.eqb_spec (iref i) 0) as [E0|E0].
    + subst e'. exists 0%nat, i. split; [lia|done].
    + destruct e' as [p|].
      * destruct He as (j & i' & -> & Hj & Hz). exists (S j), i'. split; [lia|done].
      * intros [|j] i' Hj; [by injection Hj as <-|by eapply He].
Qed.

(** [refs] through an entry. *)
Lemma refs_entry s (p : nat) i :
  one_entry s -> icache s !! p = Some i -> 0 < iref i -> refs s (idev i) (inum i) = iref i.
Proof.
  intros Ho Hp Hr. unfold refs. destruct (list_find _ _) as [[q j]|] eqn:E.
  - apply list_find_Some in E as (Hq & Hh & _). apply hit_iff in Hh as (H1 & H2 & H3).
    assert (p = q) by (by apply (o_uniq s Ho p q i j)). subst. congruence.
  - apply list_find_None in E. rewrite Forall_lookup in E. exfalso. apply (E p i Hp). by apply hit_iff.
Qed.

Lemma refs_none s dev n : (forall (p : nat) i, icache s !! p = Some i -> hit dev n i = false) -> refs s dev n = 0.
Proof.
  intros H. unfold refs. destruct (list_find _ _) as [[q j]|] eqn:E; [|done].
  apply list_find_Some in E as (Hq & Hh & _). rewrite (H q j Hq) in Hh. done.
Qed.

(** An entry keeps its inode while it is referenced; an unused entry may be
    given to an inode that has none. *)
Definition reused (s : fstate) (i i' : inode) : Prop :=
  (0 < iref i /\ idev i' = idev i /\ inum i' = inum i) \/
  (iref i = 0 /\ 0 < iref i' /\ refs s (idev i') (inum i') = 0).

Lemma reused_elsewhere s (p q : nat) i i' j :
  one_entry s -> icache s !! p = Some i -> reused s i i' -> q <> p -> icache s !! q = Some j -> 0 < iref j ->
  idev j = idev i' -> inum j = inum i' -> False.
Proof.
  intros Ho Hp [(Hi & Hd' & Hn')|(_ & _ & Hz)] Hne Hq Hj Hd Hn.
  - apply Hne. apply (o_uniq s Ho q p j i); try done; congruence.
  - rewrite <- Hd, <- Hn, (refs_entry s q j Ho Hq Hj) in Hz. lia.
Qed.

(** References after an entry changed. *)
Lemma one_entry_update s (p : nat) i i' b :
  one_entry s -> icache s !! p = Some i -> 0 <= iref i' < 2 ^ 31 - 1 -> reused s i i' ->
  one_entry (Fstate b (<[p := i']> (icache s))).
Proof.
  intros Ho Hp Hr' Hreuse. pose proof (lookup_lt_Some _ _ _ Hp) as Hlt. constructor; cbn [icache].
  - intros q j Hq. destruct (decide (q = p)) as [->|Hne].
    + rewrite list_lookup_insert_eq in Hq by done. by injection Hq as <-.
    + rewrite list_lookup_insert_ne in Hq by done. by apply (o_refs s Ho q).
  - intros q r j k Hq Hk Hj0 Hk0 Hd Hn.
    destruct (decide (q = p)) as [Eq|Hne], (decide (r = p)) as [Er|Hne']; subst; [done| | |].
    + rewrite list_lookup_insert_eq in Hq by done. injection Hq as <-.
      rewrite list_lookup_insert_ne in Hk by done. exfalso. by eapply (reused_elsewhere s p r).
    + rewrite list_lookup_insert_eq in Hk by done. injection Hk as <-.
      rewrite list_lookup_insert_ne in Hq by done. exfalso. by eapply (reused_elsewhere s p q).
    + rewrite list_lookup_insert_ne in Hq, Hk by done. by apply (o_uniq s Ho q r j k).
Qed.

Lemma refs_update s (p : nat) i i' b :
  one_entry s -> icache s !! p = Some i -> 0 <= iref i' < 2 ^ 31 - 1 -> reused s i i' ->
  forall dev n, refs (Fstate b (<[p := i']> (icache s))) dev n =
    if decide (idev i' = dev /\ inum i' = n) then iref i' else refs s dev n.
Proof.
  intros Ho Hp Hr' Hreuse dev n. pose proof (one_entry_update s p i i' b Ho Hp Hr' Hreuse) as Ho'.
  pose proof (lookup_lt_Some _ _ _ Hp) as Hlt. set (s' := Fstate b _) in *.
  assert (Hp' : icache s' !! p = Some i') by (by apply list_lookup_insert_eq).
  assert (Hother : forall q : nat, q <> p -> icache s' !! q = icache s !! q) by (intros; by apply list_lookup_insert_ne).
  case_decide as E.
  - destruct E as [<- <-]. destruct (decide (0 < iref i')) as [Hpos|Hz]; [by apply (refs_entry s' p)|].
    replace (iref i') with 0 by lia. apply refs_none. intros q j Hq.
    destruct (hit _ _ j) eqn:Eh; [|done]. exfalso. apply hit_iff in Eh as (Hj & Hd & Hn).
    destruct (decide (q = p)) as [->|Hne]; [rewrite Hp' in Hq; injection Hq as <-; lia|].
    rewrite Hother in Hq by done. by eapply (reused_elsewhere s p q).
  - destruct (list_find (fun j => hit dev n j = true) (icache s)) as [[q j]|] eqn:Ef.
    + apply list_find_Some in Ef as (Hq & Hh & _). apply hit_iff in Hh as (Hj & Hd & Hn).
      assert (Hne : q <> p).
      { intros ->. rewrite Hp in Hq. injection Hq as <-. destruct Hreuse as [(_ & ? & ?)|(? & _)]; [|lia].
        apply E. split; congruence. }
      rewrite <- Hd, <- Hn, (refs_entry s q j Ho Hq Hj). apply (refs_entry s' q); [done|by rewrite Hother|done].
    + apply list_find_None in Ef. rewrite Forall_lookup in Ef.
      rewrite !refs_none; [done| |].
      * intros q j Hq. destruct (hit dev n j) eqn:Eh; [|done]. by apply Ef in Hq.
      * intros q j Hq. destruct (hit dev n j) eqn:Eh; [|done]. destruct (decide (q = p)) as [->|Hne].
        -- rewrite Hp' in Hq. injection Hq as <-. apply hit_iff in Eh. tauto.
        -- rewrite Hother in Hq by done. by apply Ef in Hq.
Qed.

Lemma iat_Ok s (p : nat) i : icache s !! p = Some i -> iat s (Z.of_nat p) = Ok i.
Proof. apply aget_nat. Qed.

Lemma iset_Ok s (p : nat) i i' :
  icache s !! p = Some i -> iset s (Z.of_nat p) i' = Ok (Fstate (fb s) (<[p := i']> (icache s))).
Proof. intros H. unfold iset. rewrite aset_nat by (by eapply lookup_lt_Some). done. Qed.

(** ** iget, idup, iput *)

(** The new reference counts: one more or less for inode [n] of [dev]. *)
Definition counted (s : fstate) (dev n d : Z) (s' : fstate) : Prop :=
  forall dev' n', refs s' dev' n' = refs s dev' n' + (if decide (dev = dev' /\ n = n') then d else 0).

Lemma counted_update s (p : nat) i i' b d :
  one_entry s -> icache s !! p = Some i -> 0 <= iref i' < 2 ^ 31 - 1 -> reused s i i' ->
  iref i' = refs s (idev i') (inum i') + d ->
  counted s (idev i') (inum i') d (Fstate b (<[p := i']> (icache s))).
Proof.
  intros Ho Hp Hr Hre Hd dev n. rewrite (refs_update s p i i' b Ho Hp Hr Hre).
  case_decide as E; [destruct E as [<- <-]; done|lia].
Qed.

Lemma iget_Ok s dev n :
  one_entry s -> refs s dev n < 2 ^ 31 - 2 ->
  match iget s dev n with
  | Ok (ip, s') => exists (p : nat) i i', ip = Z.of_nat p /\ icache s !! p = Some i /\
      s' = Fstate (fb s) (<[p := i']> (icache s)) /\ idev i' = dev /\ inum i' = n /\
      one_entry s' /\ counted s dev n 1 s' /\
      (0 < refs s dev n -> hit dev n i = true /\ i' = set_ref (iref i + 1) i) /\
      (refs s dev n = 0 -> iref i = 0 /\ iref i' = 1 /\ ivalid i' = 0 /\ islock i' = islock i)
  | Stuck f => f = Panicked /\ refs s dev n = 0 /\ forall (p : nat) i, icache s !! p = Some i -> 0 < iref i
  end.
Proof.
  intros Ho Hb. unfold iget. pose proof (iget_scan_spec dev n (icache s) 0 None) as Hscan.
  destruct (iget_scan _ _ _ _ _) as [ip|[ip|]].
  - destruct Hscan as (p & i & -> & Hp & Hh). rewrite Z.add_0_l. pose proof Hh as Hh'.
    apply hit_iff in Hh as (Hi & Hd & Hn). subst dev n.
    rewrite (refs_entry s p i Ho Hp Hi) in *. rewrite (iat_Ok s p i Hp). run. rewrite c_int_Ok by lia. run.
    rewrite (iset_Ok s p i _ Hp). run.
    assert (Hre : reused s i (set_ref (iref i + 1) i)) by (by left).
    exists p, i, (set_ref (iref i + 1) i). split; [done|]. split; [done|]. split; [done|]. split; [done|]. split; [done|].
    split; [apply (one_entry_update s p i); [done|done|cbn; lia|done]|]. split; [|split; [done|lia]].
    apply (counted_update s p i (set_ref (iref i + 1) i)); [done|done|cbn; lia|done|].
    cbn [set_ref idev inum iref]. by rewrite (refs_entry s p i Ho Hp Hi).
  - destruct Hscan as (Hno & p & i & -> & Hp & Hz). rewrite Z.add_0_l.
    pose proof (refs_none s dev n Hno) as H0. rewrite (iat_Ok s p i Hp). run. rewrite (iset_Ok s p i _ Hp). run.
    set (i' := Inode dev n 1 _ _ _ _ _ _ _ _). assert (Hre : reused s i i') by (right; split; [done|split; [done|exact H0]]).
    exists p, i, i'. split; [done|]. split; [done|]. split; [done|]. split; [done|]. split; [done|].
    split; [by apply (one_entry_update s p i)|]. split; [|split; [lia|done]].
    apply (counted_update s p i i'); [done|done|done|done|]. cbn [i' idev inum iref]. rewrite H0. done.
  - destruct Hscan as (Hno & Hz). split; [done|]. split; [by apply refs_none|]. intros p i Hp.
    pose proof (o_refs s Ho p i Hp). specialize (Hz p i Hp). lia.
Qed.

Lemma idup_Ok s (p : nat) i :
  one_entry s -> icache s !! p = Some i -> 0 < iref i < 2 ^ 31 - 2 ->
  exists s', idup s (Z.of_nat p) = Ok s' /\ s' = Fstate (fb s) (<[p := set_ref (iref i + 1) i]> (icache s)) /\
    one_entry s' /\ counted s (idev i) (inum i) 1 s'.
Proof.
  intros Ho Hp Hi. unfold idup. rewrite (iat_Ok s p i Hp). run. rewrite c_int_Ok by lia. run.
  rewrite (iset_Ok s p i _ Hp). eexists. split; [reflexivity|]. split; [done|].
  assert (Hre : reused s i (set_ref (iref i + 1) i)) by (left; split; [lia|done]).
  split; [apply (one_entry_update s p i); [done|done|cbn; lia|done]|].
  apply (counted_update s p i (set_ref (iref i + 1) i)); [done|done|cbn; lia|done|].
  cbn [set_ref idev inum iref]. by rewrite (refs_entry s p i Ho Hp) by lia.
Qed.

Section put.
Context (me : Z).

(** The inode is not freed: it is not loaded, has links, or is referenced
    elsewhere. *)
Definition kept (i : inode) : Prop := ivalid i = 0 \/ inlink i <> 0 \/ iref i <> 1.

Lemma iput_Ok s (p : nat) i :
  one_entry s -> icache s !! p = Some i -> 0 < iref i -> locked (islock i) = 0 -> kept i ->
  exists s', iput me s (Z.of_nat p) = Ok s' /\
    s' = Fstate (fb s) (<[p := set_ref (iref i - 1) (set_islock initsleeplock i)]> (icache s)) /\
    one_entry s' /\ counted s (idev i) (inum i) (-1) s'.
Proof.
  intros Ho Hp Hi Hl Hk. unfold iput. rewrite (iat_Ok s p i Hp). run. unfold acquiresleep. rewrite Hl. cbn [Z.eqb negb]. run.
  cbn [set_islock ivalid inlink iref].
  assert (Hc : (if negb (ivalid i =? 0) && (inlink i =? 0) then iref i =? 1 else false) = false).
  { destruct Hk as [E|[E|E]].
    - by rewrite (proj2 (Z.eqb_eq _ _) E).
    - rewrite (proj2 (Z.eqb_neq _ _) E), andb_false_r. done.
    - rewrite (proj2 (Z.eqb_neq _ _) E). by destruct (_ && _). }
  pose proof (o_refs s Ho p i Hp) as Hri. set (i' := set_ref (iref i - 1) (set_islock initsleeplock i)).
  assert (Hre : reused s i i') by (by left).
  exists (Fstate (fb s) (<[p := i']> (icache s))). split; [|split; [done|split]].
  - destruct (negb (ivalid i =? 0) && (inlink i =? 0)); [rewrite Hc|]; run; by apply (iset_Ok (set_fb (fb s) s) p i).
  - apply (one_entry_update s p i); [done|done|cbn; lia|done].
  - apply (counted_update s p i i'); [done|done|cbn; lia|done|]. cbn [i' set_ref set_islock idev inum iref].
    rewrite (refs_entry s p i Ho Hp Hi). lia.
Qed.

(** Freeing the inode. *)
Lemma iput_free s (p : nat) i :
  one_entry s -> icache s !! p = Some i -> iref i = 1 -> locked (islock i) = 0 -> ivalid i <> 0 -> inlink i = 0 ->
  fs_ok (fb s) -> inode_ok (fb s) i -> held (fb s) = [] -> in_table (fb s) i -> fields_ok i ->
  exists s', iput me s (Z.of_nat p) = Ok s' /\ one_entry s' /\ counted s (idev i) (inum i) (-1) s' /\
    fs_ok (fb s') /\ held (fb s') = [] /\ sb (fb s') = sb (fb s) /\
    synced (fb s') (set_type 0 (emptied (set_islock (Sleeplock 1 me) i))) /\
    (forall x, data_start (sb (fb s)) <= x < sb_size (sb (fb s)) ->
       used (fb s') x = true <-> used (fb s) x = true /\ ~ owns (fb s) i x) /\
    (forall j, file_ok (fb s) j -> apart (fb s) i j -> contents (fb s') j = contents (fb s) j /\ file_ok (fb s') j) /\
    (forall j, in_table (fb s) j -> inum j <> inum i -> synced (fb s) j -> synced (fb s') j).
Proof.
  intros Ho Hp Hi Hl Hv Hnl Hf Hino Hh Ht Hfl. set (il := set_islock (Sleeplock 1 me) i).
  assert (Hil : inode_ok (fb s) il) by (destruct Hino; by constructor).
  assert (Hfll : fields_ok il) by (destruct Hfl; by constructor).
  destruct (itrunc_Ok (fb s) il Hf Hil Hh Ht Hfll) as (b1 & Etr & Hf1 & Hh1 & Hsb1 & _ & Hu1 & Hc1 & Hs1).
  set (i1 := set_type 0 (emptied il)).
  assert (Ht1 : in_table b1 i1) by (unfold in_table; by rewrite Hsb1).
  assert (Hfl1 : fields_ok i1).
  { destruct Hfl as [F1 F2 F3 F4 _ _ _]. constructor; try done. by apply Forall_replicate. }
  assert (Hnh : IBLOCK (inum i1) (sb b1) ∉ held b1) by (rewrite Hh1; apply not_elem_of_nil).
  pose proof (iupdate_Ok b1 i1 Hf1 Ht1 eq_refl Hnh) as Eup.
  pose proof (length_put_dinode b1 i1 Hf1 Ht1 eq_refl) as Hdl.
  destruct (stored_iblock b1 (inum i1) _ Hf1 Ht1 Hdl) as (Hf2 & Hu2 & _ & _).
  set (b2 := stored b1 _ _) in *. set (i2 := set_ref 0 (set_islock initsleeplock (set_valid 0 i1))).
  assert (Hre : reused s i i2) by (left; split; [lia|done]).
  exists (Fstate b2 (<[p := i2]> (icache s))). split; [|split; [|split]].
  - unfold iput. rewrite (iat_Ok s p i Hp), run_Ok. unfold acquiresleep. rewrite Hl. cbn [Z.eqb negb]. rewrite run_Ok.
    cbn [set_islock ivalid inlink iref]. rewrite (proj2 (Z.eqb_neq _ _) Hv), Hnl, Hi. cbn [negb Z.eqb andb Pos.eqb].
    change (Inode (idev i) (inum i) 1 (Sleeplock 1 me) (ivalid i) (itype i) (imajor i) (iminor i) 0 (isize i) (addrs i)) with il.
    fold il. rewrite Etr, run_Ok. cbn iota. fold i1. rewrite Eup, !run_Ok. cbn iota.
    replace (iref _ - 1) with 0 by (cbn; lia).
    exact (iset_Ok (set_fb b2 s) p i i2 Hp).
  - apply (one_entry_update s p i); [done|done|done|done].
  - apply (counted_update s p i i2); [done|done|done|done|]. cbn [i2 set_ref set_islock set_valid idev inum iref].
    change (idev i1) with (idev i). change (inum i1) with (inum i). rewrite (refs_entry s p i Ho Hp) by lia. lia.
  - cbn [fb]. pose proof (iblock_range b1 _ Hf1 Ht1) as Hr. pose proof (f_len _ Hf1).
    pose proof (data_start_pos _ Hf).
    split; [done|]. split; [cbn [b2 stored held]; done|]. split; [done|]. split; [|split; [|split]].
    + unfold synced, b2. change (sb (stored b1 _ _)) with (sb b1). rewrite block_stored by lia.
      rewrite decide_True by done. by apply load_put_dinode.
    + intros x Hx. rewrite Hu2 by (rewrite Hsb1; lia). by apply Hu1.
    + intros j Hj Hap. destruct (Hc1 j Hj Hap) as [Hc Hfj]. destruct (emptied_file b1 il) as [[He _ _] Hno].
      destruct (stored_iblock_undisturbed b1 (inum i1) _ (emptied il) j Hf1 Ht1 Hdl He Hfj) as (Hc2 & Hj2 & _).
      { intros x Hx. by apply Hno in Hx. }
      split; [etrans; [exact Hc2|exact Hc]|done].
    + intros j Hj Hne Hs. apply synced_other; [done|done|unfold in_table; by rewrite Hsb1|done|done|by apply Hs1].
Qed.

End put.

(** ** Theorems *)

Section theorems.
Context (me : Z).

(** the inode cache counts references.  It keeps at most one entry per
    inode; [iget] of an inode that is in use returns its entry with only the
    count changed, otherwise it takes an unused entry and marks it not yet
    loaded, and it panics only when every entry is referenced; [idup] adds a
    reference and [iput] of an inode it does not have to free takes one away.
    The disk does not change. *)
Theorem icache_counts s :
  one_entry s ->
  (forall dev n, refs s dev n < 2 ^ 31 - 2 ->
     match iget s dev n with
     | Ok (ip, s') => exists (p : nat) i i', ip = Z.of_nat p /\ icache s !! p = Some i /\
         s' = Fstate (fb s) (<[p := i']> (icache s)) /\ idev i' = dev /\ inum i' = n /\
         one_entry s' /\ counted s dev n 1 s' /\
         (0 < refs s dev n -> hit dev n i = true /\ i' = set_ref (iref i + 1) i) /\
         (refs s dev n = 0 -> iref i = 0 /\ iref i' = 1 /\ ivalid i' = 0 /\ islock i' = islock i)
     | Stuck f => f = Panicked /\ refs s dev n = 0 /\ forall (p : nat) i, icache s !! p = Some i -> 0 < iref i
     end) /\
  (forall (p : nat) i, icache s !! p = Some i -> 0 < iref i < 2 ^ 31 - 2 ->
     exists s', idup s (Z.of_nat p) = Ok s' /\ fb s' = fb s /\ one_entry s' /\ counted s (idev i) (inum i) 1 s') /\
  (forall (p : nat) i, icache s !! p = Some i -> 0 < iref i -> locked (islock i) = 0 -> kept i ->
     exists s', iput me s (Z.of_nat p) = Ok s' /\ fb s' = fb s /\ one_entry s' /\ counted s (idev i) (inum i) (-1) s').
Proof.
  intros Ho. split; [|split].
  - intros dev n Hb. by apply iget_Ok.
  - intros p i Hp Hi. destruct (idup_Ok s p i Ho Hp Hi) as (s' & E & -> & H1 & H2). by eexists.
  - intros p i Hp Hi Hl Hk. destruct (iput_Ok me s p i Ho Hp Hi Hl Hk) as (s' & E & -> & H1 & H2). by eexists.
Qed.

(** the last [iput] of an inode without links frees it: its blocks, and
    no others, become free, its copy on disk is a free inode, and no other
    file changes. *)
Theorem iput_frees_unlinked s (p : nat) i :
  one_entry s -> icache s !! p = Some i -> iref i = 1 -> locked (islock i) = 0 -> ivalid i <> 0 -> inlink i = 0 ->
  fs_ok (fb s) -> inode_ok (fb s) i -> held (fb s) = [] -> in_table (fb s) i -> fields_ok i ->
  exists s', iput me s (Z.of_nat p) = Ok s' /\ one_entry s' /\ counted s (idev i) (inum i) (-1) s' /\
    fs_ok (fb s') /\ held (fb s') = [] /\ sb (fb s') = sb (fb s) /\
    synced (fb s') (set_type 0 (emptied (set_islock (Sleeplock 1 me) i))) /\
    (forall x, data_start (sb (fb s)) <= x < sb_size (sb (fb s)) ->
       used (fb s') x = true <-> used (fb s) x = true /\ ~ owns (fb s) i x) /\
    (forall j, file_ok (fb s) j -> apart (fb s) i j -> contents (fb s') j = contents (fb s) j /\ file_ok (fb s') j) /\
    (forall j, in_table (fb s) j -> inum j <> inum i -> synced (fb s) j -> synced (fb s') j).
Proof. apply iput_free. Qed.

End theorems.

(** A cache with the inode of [demo_disk], and one unused entry. *)
Definition demo_cache (nlink : Z) : fstate :=
  Fstate demo_disk [set_nlink nlink demo_inode; Inode 0 0 0 initsleeplock 0 0 0 0 0 0 (replicate 13 0)].

Lemma demo_cache_one n : one_entry (demo_cache n).
Proof.
  constructor.
  - intros [|[|p]] i; cbn; intros [= <-]; cbn; lia.
  - intros [|[|p]] [|[|q]] i j; cbn; intros [= <-] [= <-]; cbn; lia || done.
Qed.

Lemma icache_counts_witness :
  exists s', iget (demo_cache 1) 1 1 = Ok (0, s') /\ refs s' 1 1 = 2 /\
    exists s'', iget (demo_cache 1) 1 5 = Ok (1, s'') /\ refs s'' 1 5 = 1.
Proof.
  destruct (icache_counts 0 (demo_cache 1) (demo_cache_one 1)) as [Hget _].
  pose proof (Hget 1 1 ltac:(done)) as H1. pose proof (Hget 1 5 ltac:(done)) as H5.
  destruct (iget (demo_cache 1) 1 1) as [[ip1 s1]|] eqn:E1; [|vm_compute in E1; discriminate].
  destruct (iget (demo_cache 1) 1 5) as [[ip5 s5]|] eqn:E5; [|vm_compute in E5; discriminate].
  destruct H1 as (p & i & i' & _ & _ & _ & _ & _ & _ & Hc & _).
  destruct H5 as (p5 & i5 & i5' & _ & _ & _ & _ & _ & _ & Hc5 & _).
  exists s1. split; [vm_compute in E1; injection E1 as <- <-; reflexivity|]. split; [exact (Hc 1 1)|].
  exists s5. split; [vm_compute in E5; injection E5 as <- <-; reflexivity|]. exact (Hc5 1 5).
Defined.

Lemma iput_frees_unlinked_witness :
  exists s', iput 0 (demo_cache 0) 0 = Ok s' /\ refs s' 1 1 = 0 /\ fs_ok (fb s').
Proof.
  destruct (iput_frees_unlinked 0 (demo_cache 0) 0 (set_nlink 0 demo_inode)) as (s' & E & _ & Hc & Hf & _);
    try done; try exact (demo_cache_one 0); try exact demo_fs.
  - pose proof (fo_ino _ _ demo_file) as []. by constructor.
  - pose proof demo_fields as []. by constructor.
  - exists s'. split; [exact E|]. split; [exact (Hc 1 1)|done].
Defined.
