(* ===== verification/Xv6Dirs.v ===== *)
(** Directories of the xv6 file system: [dirlookup] and [dirlink] against the
    list of the entries of a directory. *)

From S2P Require Import Prelude Bytes Xv6Locks Xv6String Xv6Fs Xv6Dir Xv6Bitmap Xv6Inode Xv6Dinode Xv6Content Xv6Icache Xv6Files.

(** ** Names *)

(** The name in a buffer: at most [DIRSIZ] bytes, up to a NUL. *)
Fixpoint upto0 (l : list Z) : list Z :=
  match l with [] => [] | c :: l' => if c =? 0 then [] else c :: upto0 l' end.

Definition cname (l : list Z) : list Z := upto0 (take DIRSIZ l).

(** The buffer holds a name: it is long enough or terminated. *)
Definition named (l : list Z) : Prop := (DIRSIZ <= length l)%nat \/ 0 ∈ l.

Lemma strncmp_spec n : forall p q,
  (n <= length p)%nat \/ 0 ∈ p -> (n <= length q)%nat \/ 0 ∈ q ->
  exists r, Kernel.strncmp p q n = Ok r /\ (r = 0 <-> upto0 (take n p) = upto0 (take n q)).
Proof.
  induction n as [|n IH]; intros p q Hp Hq.
  { exists 0. split; [by destruct p|]. by rewrite !take_0. }
  destruct p as [|a p]; [destruct Hp as [Hp|Hp]; [cbn in Hp; lia|by apply elem_of_nil in Hp]|].
  destruct q as [|b q]; [destruct Hq as [Hq|Hq]; [cbn in Hq; lia|by apply elem_of_nil in Hq]|].
  cbn [Kernel.strncmp take upto0]. destruct (Z.eqb_spec a 0) as [Ea|Ea]; cbn [negb andb].
  - exists (a - b). split; [done|]. subst. destruct (Z.eqb_spec b 0) as [->|Eb]; [done|].
    split; [lia|done].
  - destruct (Z.eqb_spec a b) as [<-|Hne].
    + rewrite (proj2 (Z.eqb_neq _ _) Ea).
      destruct (IH p q) as (r & -> & Hr).
      * destruct Hp as [Hp|Hp]; [left; cbn in Hp; lia|right]. by apply elem_of_cons in Hp as [?|?].
      * destruct Hq as [Hq|Hq]; [left; cbn in Hq; lia|right]. by apply elem_of_cons in Hq as [?|?].
      * exists r. split; [done|]. rewrite Hr. split; [by intros ->|by intros [=]].
    + exists (a - b). split; [done|]. split; [lia|]. destruct (b =? 0); [done|]. by intros [= ->].
Qed.

Lemma namecmp_spec p q :
  named p -> named q -> exists r, namecmp p q = Ok r /\ (r = 0 <-> cname p = cname q).
Proof. apply strncmp_spec. Qed.

(** ** Entries *)

Definition entry (c : list Z) (k : nat) : list Z := take 16 (drop (16 * k) c).

Definition entries (c : list Z) : list (list Z) := entry c <$> seq 0 (length c / 16).

(** The first entry in use with the name: its position and inode number. *)
Fixpoint find_entry (name : list Z) (es : list (list Z)) (k : Z) : option (Z * Z) :=
  match es with
  | [] => None
  | e :: es' =>
      if decide (de_inum e <> 0 /\ cname name = cname (de_name e)) then Some (k, de_inum e)
      else find_entry name es' (k + 1)
  end.

(** The first entry that is not in use, or the end. *)
Fixpoint find_empty (es : list (list Z)) (k : Z) : Z :=
  match es with
  | [] => k
  | e :: es' => if de_inum e =? 0 then k else find_empty es' (k + 1)
  end.

(** A directory in the cache at [p]. *)
Record dir_at (s : fstate) (p : nat) (d : inode) : Prop := DirAt {
  da_at : icache s !! p = Some d;
  da_fs : fs_ok (fb s);
  da_file : file_ok (fb s) d;
  da_held : held (fb s) = [];
  da_type : itype d = T_DIR;
  da_whole : exists m : nat, isize d = 16 * Z.of_nat m
}.

Lemma length_contents s i : length (contents s i) = Z.to_nat (isize i).
Proof. apply length_fbytes. Qed.

Lemma entries_count s p d (m : nat) :
  dir_at s p d -> isize d = 16 * Z.of_nat m -> length (contents (fb s) d) = (16 * m)%nat /\
  entries (contents (fb s) d) = entry (contents (fb s) d) <$> seq 0 m.
Proof.
  intros Hd Hm. assert (Hl : length (contents (fb s) d) = (16 * m)%nat) by (rewrite length_contents; lia).
  split; [done|]. unfold entries. rewrite Hl. by rewrite Nat.mul_comm, Nat.div_mul.
Qed.

Lemma length_entry c k m : length c = (16 * m)%nat -> (k < m)%nat -> length (entry c k) = 16%nat.
Proof. intros Hc Hk. unfold entry. rewrite length_take, length_drop. lia. Qed.

Section lookup.
Context (dev_read : Z -> option (Z -> Z * list Z)).

Lemma iset_same s (p : nat) i : icache s !! p = Some i -> iset (set_fb (fb s) s) (Z.of_nat p) i = Ok s.
Proof. intros H. rewrite (iset_Ok (set_fb (fb s) s) p i i H). cbn [set_fb fb icache]. rewrite list_insert_id by done. by destruct s. Qed.

(** Reading entry [k]. *)
Lemma read_entry s (p : nat) d (m k : nat) :
  dir_at s p d -> isize d = 16 * Z.of_nat m -> (k < m)%nat ->
  readi_at dev_read s (Z.of_nat p) (16 * Z.of_nat k) DIRENT = Ok (DIRENT, entry (contents (fb s) d) k, s).
Proof.
  intros [Hat Hf Hfile Hh Ht _] Hm Hk. pose proof Hfile as [_ Hs _].
  assert (HM : MAXFILE * BSIZE < 2 ^ 31) by done. unfold readi_at, DIRENT. rewrite (iat_Ok s p d Hat). run.
  rewrite readi_Ok; try done; try lia; [|rewrite Ht; done]. run. rewrite (iset_same s p d Hat). run.
  rewrite Z.min_l by lia. rewrite contents_segment by lia. unfold entry.
  by replace (Z.to_nat (16 * Z.of_nat k)) with (16 * k)%nat by lia.
Qed.

Lemma dirlookup_loop_spec s (p : nat) d name (m : nat) :
  dir_at s p d -> isize d = 16 * Z.of_nat m -> named name ->
  forall n k fuel, (k + n = m)%nat -> (n < fuel)%nat ->
  dirlookup_loop dev_read fuel s (Z.of_nat p) name (16 * Z.of_nat k) =
    match find_entry name (entry (contents (fb s) d) <$> seq k n) (Z.of_nat k) with
    | None => Ok (None, s)
    | Some (j, ino) => '(ip, s') ← iget s (idev d) ino; Ok (Some (ip, 16 * j), s')
    end.
Proof.
  intros Hd Hm Hname. destruct (entries_count s p d m Hd Hm) as [Hl _]. pose proof (da_at _ _ _ Hd) as Hat.
  induction n as [|n IH]; intros k fuel Hk Hfuel; (destruct fuel as [|fuel]; [lia|]); cbn [dirlookup_loop].
  - rewrite (iat_Ok s p d Hat). run. by rewrite (proj2 (Z.ltb_ge _ _)) by lia.
  - rewrite (iat_Ok s p d Hat). run. rewrite (proj2 (Z.ltb_lt _ _)) by lia.
    rewrite (read_entry s p d m k Hd Hm) by lia. run. cbn [negb Z.eqb DIRENT Pos.eqb].
    replace (16 * Z.of_nat k + DIRENT) with (16 * Z.of_nat (S k)) by (unfold DIRENT; lia).
    cbn [seq]. rewrite fmap_cons. cbn [find_entry]. replace (Z.of_nat k + 1) with (Z.of_nat (S k)) by lia.
    set (e := entry (contents (fb s) d) k).
    assert (He : named (de_name e)).
    { left. unfold de_name. rewrite length_drop. unfold e. rewrite (length_entry _ k m) by (done || lia).
      unfold DIRSIZ. lia. }
    destruct (Z.eqb_spec (de_inum e) 0) as [E0|E0].
    + rewrite decide_False by tauto. apply IH; lia.
    + destruct (namecmp_spec name (de_name e) Hname He) as (r & -> & Hr). run.
      destruct (Z.eqb_spec r 0) as [Er|Er].
      * rewrite decide_True by tauto. rewrite (iat_Ok s p d Hat). run. done.
      * rewrite decide_False by tauto. apply IH; lia.
Qed.

Lemma dir_fuel_enough d (m : nat) : isize d = 16 * Z.of_nat m -> (m < dir_fuel d)%nat.
Proof. intros H. unfold dir_fuel. rewrite H. unfold DIRENT. rewrite Z.mul_comm, Z.div_mul by lia. lia. Qed.

Lemma dirlookup_Ok s (p : nat) d name :
  dir_at s p d -> named name ->
  dirlookup dev_read s (Z.of_nat p) name =
    match find_entry name (entries (contents (fb s) d)) 0 with
    | None => Ok (None, s)
    | Some (k, ino) => '(ip, s') ← iget s (idev d) ino; Ok (Some (ip, 16 * k), s')
    end.
Proof.
  intros Hd Hn. destruct (da_whole _ _ _ Hd) as [m Hm]. unfold dirlookup.
  rewrite (iat_Ok s p d (da_at _ _ _ Hd)). run. rewrite (da_type _ _ _ Hd). cbn [Z.eqb T_DIR Pos.eqb negb].
  destruct (entries_count s p d m Hd Hm) as [_ ->].
  apply (dirlookup_loop_spec s p d name m Hd Hm Hn m 0); [lia|by apply dir_fuel_enough].
Qed.

Lemma dirlink_loop_spec s (p : nat) d (m : nat) :
  dir_at s p d -> isize d = 16 * Z.of_nat m ->
  forall n k fuel, (k + n = m)%nat -> (n < fuel)%nat ->
  dirlink_loop dev_read fuel s (Z.of_nat p) (16 * Z.of_nat k) =
    Ok (16 * find_empty (entry (contents (fb s) d) <$> seq k n) (Z.of_nat k), s).
Proof.
  intros Hd Hm. pose proof (da_at _ _ _ Hd) as Hat.
  induction n as [|n IH]; intros k fuel Hk Hfuel; (destruct fuel as [|fuel]; [lia|]); cbn [dirlink_loop].
  - rewrite (iat_Ok s p d Hat). run. by rewrite (proj2 (Z.ltb_ge _ _)) by lia.
  - rewrite (iat_Ok s p d Hat). run. rewrite (proj2 (Z.ltb_lt _ _)) by lia.
    rewrite (read_entry s p d m k Hd Hm) by lia. run. cbn [negb Z.eqb DIRENT Pos.eqb].
    replace (16 * Z.of_nat k + DIRENT) with (16 * Z.of_nat (S k)) by (unfold DIRENT; lia).
    cbn [seq]. rewrite fmap_cons. cbn [find_empty]. replace (Z.of_nat k + 1) with (Z.of_nat (S k)) by lia.
    destruct (de_inum _ =? 0); [done|]. apply IH; lia.
Qed.

End lookup.

(** ** Names as [strncpy] stores them *)

Definition pad0 (n : nat) (l : list Z) : list Z := l ++ replicate (n - length l) 0.

Lemma zero_fill_spec n : forall s, length s = n -> Kernel.zero_fill s n = Ok (replicate n 0).
Proof.
  induction n as [|n IH]; intros [|c s] Hs; try done. cbn [Kernel.zero_fill replicate]. cbn in Hs.
  rewrite IH by lia. done.
Qed.

Lemma strncpy_spec n : forall s t,
  length s = n -> (n <= length t)%nat \/ 0 ∈ t -> Kernel.strncpy s t n = Ok (pad0 n (upto0 (take n t))).
Proof.
  induction n as [|n IH]; intros s t Hs Ht; [destruct s; [done|cbn in Hs; lia]|].
  destruct s as [|a s]; [cbn in Hs; lia|].
  destruct t as [|c t]; [destruct Ht as [Ht|Ht]; [cbn in Ht; lia|by apply elem_of_nil in Ht]|].
  cbn [Kernel.strncpy take upto0]. cbn in Hs. destruct (Z.eqb_spec c 0) as [E|E].
  - rewrite zero_fill_spec by lia. done.
  - rewrite IH; [done|lia|]. destruct Ht as [Ht|Ht]; [left; cbn in Ht; lia|right].
    apply elem_of_cons in Ht as [Ht|Ht]; [congruence|done].
Qed.

Lemma upto0_length l : (length (upto0 l) <= length l)%nat.
Proof. induction l as [|c l IH]; cbn [upto0]; [done|]. case_if; cbn [length]; lia. Qed.

Lemma upto0_pad l n : upto0 (upto0 l ++ replicate n 0) = upto0 l.
Proof.
  induction l as [|c l IH]; cbn [upto0]; [by destruct n|].
  destruct (c =? 0) eqn:E; [by destruct n|]. cbn [app upto0]. by rewrite E, IH.
Qed.

(** The bytes of an entry. *)
Definition new_entry (name : list Z) (ino : Z) : list Z := le16 ino ++ pad0 DIRSIZ (cname name).

Lemma length_new_entry name ino : length (new_entry name ino) = 16%nat.
Proof.
  unfold new_entry, pad0. rewrite !length_app, length_replicate. pose proof (upto0_length (take DIRSIZ name)) as H.
  rewrite length_take in H. unfold cname, DIRSIZ in *. cbn [length le16]. lia.
Qed.

Lemma cname_new_entry name ino : cname (de_name (new_entry name ino)) = cname name.
Proof.
  unfold new_entry, de_name. cbn [le16 app drop]. unfold cname at 1.
  rewrite take_ge; [apply upto0_pad|]. pose proof (length_new_entry name ino) as H.
  unfold new_entry in H. cbn [le16 app length] in H. unfold DIRSIZ in *. rewrite drop_0. lia.
Qed.

Lemma inum_new_entry name ino : 0 <= ino < 65536 -> de_inum (new_entry name ino) = ino.
Proof. intros H. unfold new_entry, de_inum. cbn [le16 app getu16]. Z.div_mod_to_equations. lia. Qed.

(** ** Searching a changed list *)

Lemma find_entry_app name es1 es2 k :
  find_entry name (es1 ++ es2) k =
    match find_entry name es1 k with Some r => Some r | None => find_entry name es2 (k + Z.of_nat (length es1)) end.
Proof.
  revert k. induction es1 as [|e es1 IH]; intros k; cbn [app find_entry length]; [by rewrite Z.add_0_r|].
  case_decide; [done|]. rewrite IH. by replace (k + Z.of_nat (S (length es1))) with (k + 1 + Z.of_nat (length es1)) by lia.
Qed.

(** The place [dirlink] chooses. *)
Lemma find_empty_spec es : forall k,
  exists j : nat, find_empty es k = k + Z.of_nat j /\ (j <= length es)%nat /\
    (forall e, es !! j = Some e -> de_inum e = 0).
Proof.
  induction es as [|e es IH]; intros k; cbn [find_empty].
  - exists 0%nat. split; [lia|]. by split.
  - destruct (Z.eqb_spec (de_inum e) 0) as [E|E].
    + exists 0%nat. split; [lia|]. split; [lia|]. intros e' [= <-]. done.
    + destruct (IH (k + 1)) as (j & -> & Hj & He). exists (S j). split; [lia|]. split; [cbn [length]; lia|done].
Qed.

Definition place (es : list (list Z)) (j : nat) (e : list Z) : list (list Z) := take j es ++ [e] ++ drop (S j) es.

Lemma find_place name es (j : nat) e :
  (j <= length es)%nat -> (forall e', es !! j = Some e' -> de_inum e' = 0) -> de_inum e <> 0 ->
  find_entry name (place es j e) 0 =
    if decide (cname name = cname (de_name e)) then
      match find_entry name (take j es) 0 with Some r => Some r | None => Some (Z.of_nat j, de_inum e) end
    else find_entry name es 0.
Proof.
  intros Hj Hempty He. unfold place. rewrite find_entry_app. cbn [app find_entry].
  rewrite Z.add_0_l, length_take, Nat.min_l by done. case_decide as Hn.
  - by rewrite decide_True by apply Hn.
  - rewrite decide_False by tauto. replace (find_entry name es 0) with (find_entry name (take j es ++ drop j es) 0) by (by rewrite take_drop). rewrite find_entry_app, Z.add_0_l.
    rewrite length_take, Nat.min_l by done. destruct (find_entry name (take j es) 0); [done|].
    destruct (decide (j < length es)%nat) as [Hlt|Hge].
    + apply lookup_lt_is_Some in Hlt as [e' He']. rewrite (drop_S _ _ _ He'). cbn [find_entry].
      rewrite (decide_False (P := de_inum e' <> 0 /\ _)); [done|]. rewrite (Hempty e' He'). tauto.
    + by rewrite !drop_ge by lia.
Qed.

(** Overwriting the bytes of entry [j]. *)
Lemma entries_place c e (m j : nat) :
  length c = (16 * m)%nat -> length e = 16%nat -> (j <= m)%nat ->
  entries (take (16 * j) c ++ e ++ drop (16 * j + 16) c) = place (entries c) j e.
Proof.
  intros Hc He Hj. set (c' := take (16 * j) c ++ e ++ drop (16 * j + 16) c).
  assert (Hes : length (entries c) = m).
  { unfold entries. by rewrite length_fmap, length_seq, Hc, Nat.mul_comm, Nat.div_mul. }
  assert (Hlk : forall k, (k < m)%nat -> entries c !! k = Some (entry c k)).
  { intros k Hk. unfold entries. rewrite list_lookup_fmap, lookup_seq_lt; [done|].
    by rewrite Hc, Nat.mul_comm, Nat.div_mul. }
  set (m' := if decide (j < m)%nat then m else S m).
  assert (Hc' : length c' = (16 * m')%nat).
  { unfold c', m'. rewrite !length_app, length_take, length_drop, Hc, He. case_decide; lia. }
  assert (Hjm : (j < m')%nat) by (unfold m'; case_decide; lia).
  apply list_eq. intros k. unfold entries at 1. rewrite list_lookup_fmap, Hc'.
  rewrite Nat.mul_comm, Nat.div_mul by done. unfold place.
  destruct (decide (k < m')%nat) as [Hk|Hk].
  2: { rewrite lookup_seq_ge by lia. cbn [fmap option_fmap option_map]. symmetry. apply lookup_ge_None.
       rewrite !length_app, length_take, length_drop, Hes. cbn [length]. unfold m' in *. case_decide; lia. }
  rewrite lookup_seq_lt by done. cbn [fmap option_fmap option_map Nat.add].
  assert (Hent : entry c' k = if decide (k = j) then e else entry c k).
  { unfold entry. apply list_eq. intros x. destruct (decide (x < 16)%nat) as [Hx|Hx].
    2: { rewrite lookup_take_ge by lia. symmetry. apply lookup_ge_None. case_decide; [lia|]. rewrite length_take. lia. }
    rewrite lookup_take_lt, lookup_drop by done. unfold c'. destruct (decide (k = j)) as [->|Hne].
    - rewrite lookup_app_r by (rewrite length_take; lia). rewrite length_take, lookup_app_l by lia. f_equal. lia.
    - rewrite lookup_take_lt, lookup_drop by done. destruct (decide (k < j)%nat).
      + rewrite lookup_app_l by (rewrite length_take; lia). by rewrite lookup_take_lt by lia.
      + rewrite lookup_app_r by (rewrite length_take; lia). rewrite length_take, lookup_app_r, lookup_drop by lia.
        f_equal. lia. }
  rewrite Hent. destruct (decide (k = j)) as [->|Hne].
  - rewrite lookup_app_r by (rewrite length_take; lia). rewrite length_take, Hes, Nat.min_l, Nat.sub_diag by done. done.
  - destruct (decide (k < j)%nat).
    + rewrite lookup_app_l by (rewrite length_take; lia). rewrite lookup_take_lt, Hlk by lia. done.
    + rewrite lookup_app_r by (rewrite length_take; lia). rewrite length_take, Hes, Nat.min_l by done.
      destruct (k - j)%nat as [|x] eqn:Ex; [lia|]. 
      change (([e] ++ drop (S j) (entries c)) !! S x) with (drop (S j) (entries c) !! x).
      rewrite lookup_drop, Hlk; [do 2 f_equal; lia|]. unfold m' in *. case_decide; lia.
Qed.

(** ** dirlink *)

Section link.
Context (me : Z) (dev_read : Z -> option (Z -> Z * list Z)) (dev_write : Z -> option (list Z -> Z)).

(** Room on the disk and in the directory for one more entry. *)
Record dir_room (s : fstate) (d : inode) : Prop := DirRoom {
  dr_table : in_table (fb s) d;
  dr_fields : fields_ok d;
  dr_synced : synced (fb s) d;
  dr_size : isize d + 16 <= MAXFILE * BSIZE;
  dr_free : forall off, 0 <= off <= isize d -> (write_need (fb s) d off 16 <= nfree (fb s))%nat
}.

(** A name that is not there is added. *)
Lemma dirlink_new s (p : nat) d name ino :
  dir_at s p d -> dir_room s d -> named name -> 0 < ino < 65536 ->
  find_entry name (entries (contents (fb s) d)) 0 = None ->
  exists (j : nat) d' b', dirlink me dev_read dev_write s (Z.of_nat p) name ino =
      Ok (0, Fstate b' (<[p := d']> (icache s))) /\
    dir_at (Fstate b' (<[p := d']> (icache s))) p d' /\
    written (fb s) d (16 * Z.of_nat j) (new_entry name ino) b' d' /\
    (j <= length (entries (contents (fb s) d)))%nat /\
    (forall e, entries (contents (fb s) d) !! j = Some e -> de_inum e = 0) /\
    entries (contents b' d') = place (entries (contents (fb s) d)) j (new_entry name ino).
Proof.
  intros Hd [Ht Hfl Hsy Hsz Hfree] Hn Hino Hnone. destruct (da_whole _ _ _ Hd) as [m Hm].
  destruct (entries_count s p d m Hd Hm) as [Hl Hes]. pose proof Hd as [Hat Hf Hfile Hh Hty _].
  destruct (find_empty_spec (entries (contents (fb s) d)) 0) as (j & Ej & Hj & Hempty).
  assert (Hes' : length (entries (contents (fb s) d)) = m) by (by rewrite Hes, length_fmap, length_seq).
  rewrite Hes' in Hj. rewrite Z.add_0_l in Ej. pose proof (length_new_entry name ino) as Hle.
  destruct (writei_Ok dev_write (fb s) d (new_entry name ino) (16 * Z.of_nat j) DIRENT Hf Hfile Hh)
    as (d' & b' & Ew & Hw); try done; try (unfold DIRENT; lia); [by rewrite Hty|apply Hfree; lia|].
  rewrite take_ge in Hw by (rewrite Hle; done).
  assert (Hd' : d' = set_size (Z.max (isize d) (16 * Z.of_nat j + 16)) (set_addrs (addrs d') d)).
  { pose proof (wr_inode _ _ _ _ _ _ Hw) as E. by rewrite Hle in E. }
  assert (Hents : entries (contents b' d') = place (entries (contents (fb s) d)) j (new_entry name ino)).
  { rewrite (wr_contents _ _ _ _ _ _ Hw), Hle. replace (Z.to_nat (16 * Z.of_nat j)) with (16 * j)%nat by lia.
    by apply (entries_place _ _ m). }
  exists j, d', b'. split; [|split; [|split; [done|split; [lia|split; [done|done]]]]].
  - unfold dirlink. rewrite (dirlookup_Ok dev_read s p d name Hd Hn), Hnone. run. rewrite (iat_Ok s p d Hat). run.
    assert (Hloop : dirlink_loop dev_read (dir_fuel d) s (Z.of_nat p) 0 = Ok (16 * Z.of_nat j, s)).
    { pose proof (dirlink_loop_spec dev_read s p d m Hd Hm m 0 (dir_fuel d) eq_refl (dir_fuel_enough d m Hm)) as E.
      rewrite <- Hes in E. change (Z.of_nat 0) with 0 in E. rewrite Z.mul_0_r, Ej in E. exact E. }
    rewrite Hloop. run. rewrite strncpy_spec by (done || by rewrite length_replicate). run.
    change (le16 ino ++ pad0 DIRSIZ (upto0 (take DIRSIZ name))) with (new_entry name ino).
    unfold writei_at. rewrite (iat_Ok s p d Hat). run. rewrite Ew. run.
    rewrite (iset_Ok (set_fb b' s) p d d' Hat). run. done.
  - constructor; cbn [icache fb].
    + apply list_lookup_insert_eq. by eapply lookup_lt_Some.
    + apply (wr_fs _ _ _ _ _ _ Hw).
    + apply (wr_file _ _ _ _ _ _ Hw).
    + apply (wr_held _ _ _ _ _ _ Hw).
    + rewrite Hd'. exact Hty.
    + exists (Nat.max m (S j)). rewrite Hd'. cbn. lia.
Qed.

(** A name that is there is refused. *)
Lemma dirlink_dup s (p : nat) d name ino k n :
  dir_at s p d -> named name -> one_entry s -> refs s (idev d) n < 2 ^ 31 - 2 ->
  find_entry name (entries (contents (fb s) d)) 0 = Some (k, n) ->
  (forall (q : nat) i, icache s !! q = Some i -> hit (idev d) n i = true \/ iref i = 0 -> locked (islock i) = 0) ->
  (exists (q : nat) i, icache s !! q = Some i /\ (hit (idev d) n i = true \/ iref i = 0)) ->
  exists s', dirlink me dev_read dev_write s (Z.of_nat p) name ino = Ok (-1, s') /\ fb s' = fb s /\
    one_entry s' /\ forall dev n', refs s' dev n' = refs s dev n'.
Proof.
  intros Hd Hn Ho Hb Hfind Hunl Hroom. unfold dirlink. rewrite (dirlookup_Ok dev_read s p d name Hd Hn), Hfind.
  pose proof (iget_Ok s (idev d) n Ho Hb) as Hg. destruct (iget s (idev d) n) as [[ip s1]|f].
  - run. destruct Hg as (q & i & i' & -> & Hq & Hs1 & Hdev & Hino & Ho1 & Hc1 & Hold & Hnew).
    pose proof (lookup_lt_Some _ _ _ Hq) as Hlt. pose proof (o_refs s Ho q i Hq) as Hri.
    assert (Hcase : (0 < iref i /\ hit (idev d) n i = true /\ i' = set_ref (iref i + 1) i) \/
                    (iref i = 0 /\ iref i' = 1 /\ ivalid i' = 0 /\ islock i' = islock i)).
    { destruct (decide (0 < refs s (idev d) n)) as [E|E].
      - left. destruct (Hold E) as [Hh ->]. destruct (proj1 (hit_iff _ _ _) Hh) as [? _]. by split.
      - right. apply Hnew. unfold refs in *. destruct (list_find _ _) as [[q' j]|] eqn:Ef; [|done].
        apply list_find_Some in Ef as (Hq' & _). pose proof (o_refs s Ho q' j Hq'). lia. }
    assert (Hq1 : icache s1 !! q = Some i') by (rewrite Hs1; by apply list_lookup_insert_eq).
    assert (Hl1 : locked (islock i') = 0).
    { destruct Hcase as [(_ & Hh & ->)|(Hz & _ & _ & ->)]; [apply (Hunl q i Hq); by left|apply (Hunl q i Hq); by right]. }
    destruct (iput_Ok me s1 q i' Ho1 Hq1) as (s2 & -> & Hs2 & Ho2 & Hc2).
    + destruct Hcase as [(? & _ & ->)|(_ & -> & _)]; cbn; lia.
    + done.
    + unfold kept. destruct Hcase as [(? & _ & ->)|(_ & _ & ? & _)]; [right; right; cbn; lia|by left].
    + run. exists s2. split; [done|]. split; [by rewrite Hs2, Hs1|]. split; [done|].
      intros dev n'. rewrite Hc2, Hc1, Hdev, Hino. case_decide; lia.
  - destruct Hg as (_ & Hz & Hall). destruct Hroom as (q & i & Hq & [Hh|Hz']).
    + apply hit_iff in Hh as (Hi & Hd1 & Hn1). rewrite <- Hd1, <- Hn1, (refs_entry s q i Ho Hq Hi) in Hz. lia.
    + specialize (Hall q i Hq). lia.
Qed.

(** The entry refers to the directory itself, as "." does: [iput] waits for
    the lock its caller holds. *)
Lemma dirlink_self s (p : nat) d name ino k :
  dir_at s p d -> named name -> one_entry s -> 0 < iref d < 2 ^ 31 - 2 -> locked (islock d) <> 0 ->
  find_entry name (entries (contents (fb s) d)) 0 = Some (k, inum d) ->
  dirlink me dev_read dev_write s (Z.of_nat p) name ino = Stuck Blocked.
Proof.
  intros Hd Hn Ho Hr Hl Hfind. unfold dirlink. rewrite (dirlookup_Ok dev_read s p d name Hd Hn), Hfind.
  pose proof (da_at _ _ _ Hd) as Hat. pose proof (refs_entry s p d Ho Hat ltac:(lia)) as Href.
  pose proof (iget_Ok s (idev d) (inum d) Ho ltac:(lia)) as Hg.
  destruct (iget s (idev d) (inum d)) as [[ip s1]|f]; [|destruct Hg as (_ & Hz & _); lia].
  run. destruct Hg as (q & i & i' & -> & Hq & Hs1 & _ & _ & _ & _ & Hold & _).
  destruct (Hold ltac:(lia)) as [Hh ->]. apply hit_iff in Hh as (Hi & H1 & H2).
  assert (q = p) by (apply (o_uniq s Ho q p i d); try done; lia). subst q. rewrite Hat in Hq. injection Hq as <-.
  assert (Hq1 : icache s1 !! p = Some (set_ref (iref d + 1) d)).
  { rewrite Hs1. apply list_lookup_insert_eq. by eapply lookup_lt_Some. }
  unfold iput. rewrite (iat_Ok s1 p _ Hq1). run. unfold acquiresleep. cbn [set_ref islock].
  by rewrite (proj2 (Z.eqb_neq _ _) Hl).
Qed.

End link.

(** ** Theorems *)

Section theorems.
Context (me : Z) (dev_read : Z -> option (Z -> Z * list Z)) (dev_write : Z -> option (list Z -> Z)).

(** C8: directories are finite maps from names to inode numbers.  [dirlookup]
    returns the inode of the first entry in use with the name (names are
    compared up to [DIRSIZ] bytes), at its offset, through [iget], and
    otherwise nothing, without any change; a successful [dirlink] makes the
    new name refer to the new inode and leaves every other name as it was, on
    a disk that differs from the old one as after [writei] ([written]). *)
Theorem directory_map s (p : nat) d name ino :
  dir_at s p d -> named name ->
  dirlookup dev_read s (Z.of_nat p) name =
    match find_entry name (entries (contents (fb s) d)) 0 with
    | None => Ok (None, s)
    | Some (k, n) => '(ip, s') ← iget s (idev d) n; Ok (Some (ip, 16 * k), s')
    end /\
  (find_entry name (entries (contents (fb s) d)) 0 = None -> dir_room s d -> 0 < ino < 65536 ->
   exists (j : nat) d' b', let s' := Fstate b' (<[p := d']> (icache s)) in
     dirlink me dev_read dev_write s (Z.of_nat p) name ino = Ok (0, s') /\ dir_at s' p d' /\
     written (fb s) d (16 * Z.of_nat j) (new_entry name ino) b' d' /\
     find_entry name (entries (contents b' d')) 0 = Some (Z.of_nat j, ino) /\
     forall other, cname other <> cname name ->
       find_entry other (entries (contents b' d')) 0 = find_entry other (entries (contents (fb s) d)) 0).
Proof.
  intros Hd Hn. split; [by apply dirlookup_Ok|]. intros Hnone Hroom Hino.
  destruct (dirlink_new me dev_read dev_write s p d name ino Hd Hroom Hn Hino Hnone)
    as (j & d' & b' & Hl & Hd' & Hw & Hj & Hempty & Hents).
  exists j, d', b'. split; [done|]. split; [done|]. split; [done|]. rewrite Hents.
  assert (He : de_inum (new_entry name ino) <> 0) by (rewrite inum_new_entry by lia; lia). split.
  - rewrite find_place by done. rewrite cname_new_entry, decide_True, inum_new_entry by (done || lia).
    destruct (find_entry name (take j (entries (contents (fb s) d))) 0) as [r|] eqn:E; [|done].
    rewrite <- (take_drop j (entries (contents (fb s) d))), find_entry_app, E in Hnone. done.
  - intros other Ho. rewrite find_place by done. by rewrite cname_new_entry, decide_False.
Qed.

(** [dirlink] of a name that is already there changes neither the disk nor
    the reference counts and returns -1; but when the entry found is the
    directory itself, which the caller has locked (the name is "."), [iput]
    waits for that lock and the process blocks for good. *)
Theorem dirlink_existing s (p : nat) d name ino k n :
  dir_at s p d -> named name -> one_entry s -> refs s (idev d) n < 2 ^ 31 - 2 ->
  find_entry name (entries (contents (fb s) d)) 0 = Some (k, n) ->
  ((forall (q : nat) i, icache s !! q = Some i -> hit (idev d) n i = true \/ iref i = 0 -> locked (islock i) = 0) ->
   (exists (q : nat) i, icache s !! q = Some i /\ (hit (idev d) n i = true \/ iref i = 0)) ->
   exists s', dirlink me dev_read dev_write s (Z.of_nat p) name ino = Ok (-1, s') /\ fb s' = fb s /\
     one_entry s' /\ forall dev n', refs s' dev n' = refs s dev n') /\
  (n = inum d -> 0 < iref d -> locked (islock d) <> 0 ->
   dirlink me dev_read dev_write s (Z.of_nat p) name ino = Stuck Blocked).
Proof.
  intros Hd Hn Ho Hb Hfind. split.
  - intros Hunl Hroom. by apply (dirlink_dup me dev_read dev_write s p d name ino k n).
  - intros -> Hr Hl. apply (dirlink_self me dev_read dev_write s p d name ino k); try done.
    by rewrite (refs_entry s p d Ho (da_at _ _ _ Hd) Hr) in Hb.
Qed.

End theorems.

(** A directory that holds ".". *)
Definition dot : list Z := [46; 0].

Definition demo_dir (lk : sleeplock) : inode := Inode 1 1 1 lk 1 T_DIR 0 0 1 0 (replicate 13 0).

Definition spare : inode := Inode 0 0 0 initsleeplock 0 0 0 0 0 0 (replicate 13 0).

Definition empty_dir : fstate := Fstate (disk_with (demo_dir initsleeplock)) [demo_dir (Sleeplock 1 7); spare].

Lemma empty_dir_at : dir_at empty_dir 0 (demo_dir (Sleeplock 1 7)).
Proof.
  constructor; try done; [check_disk| |by exists 0%nat].
  apply (Xv6Trunc.emptied_file _ (demo_dir (Sleeplock 1 7))).
Qed.

Lemma empty_dir_room : dir_room empty_dir (demo_dir (Sleeplock 1 7)).
Proof.
  constructor; try done.
  - constructor; try done. by apply Forall_replicate.
  - intros off Ho. assert (off = 0) as -> by (cbn in Ho; lia). apply Nat.leb_le. vm_compute. reflexivity.
Qed.

Lemma directory_map_witness :
  exists (j : nat) d' b', dirlink 7 (fun _ => None) (fun _ => None) empty_dir 0 dot 1 =
      Ok (0, Fstate b' [d'; spare]) /\ find_entry dot (entries (contents b' d')) 0 = Some (Z.of_nat j, 1).
Proof.
  destruct (directory_map 7 (fun _ => None) (fun _ => None) empty_dir 0 (demo_dir (Sleeplock 1 7)) dot 1 empty_dir_at)
    as [_ Hlink]; [right; unfold dot; set_solver|].
  destruct (Hlink eq_refl empty_dir_room ltac:(lia)) as (j & d' & b' & Hl & _ & _ & Hf & _).
  exists j, d', b'. split; [exact Hl|exact Hf].
Defined.

Lemma dirlink_existing_witness :
  exists s, dirlink 7 (fun _ => None) (fun _ => None) empty_dir 0 dot 1 = Ok (0, s) /\
    dirlink 7 (fun _ => None) (fun _ => None) s 0 dot 5 = Stuck Blocked.
Proof.
  assert (Hn : named dot) by (right; unfold dot; set_solver).
  destruct (dirlink_new 7 (fun _ => None) (fun _ => None) empty_dir 0 (demo_dir (Sleeplock 1 7)) dot 1
    empty_dir_at empty_dir_room Hn ltac:(lia) eq_refl) as (j & d' & b' & Hl & Hd' & Hw & Hj & Hempty & Hents).
  pose proof (wr_inode _ _ _ _ _ _ Hw) as Ed.
  assert (Eref : iref d' = 1) by (rewrite Ed; reflexivity).
  assert (Einum : inum d' = 1) by (rewrite Ed; reflexivity).
  assert (Elock : islock d' = Sleeplock 1 7) by (rewrite Ed; reflexivity).
  clear Ed. exists (Fstate b' [d'; spare]). split; [exact Hl|].
  assert (Ho : one_entry (Fstate b' [d'; spare])).
  { constructor.
    - intros [|[|p]] i; cbn; intros [= <-]; [rewrite Eref; lia|cbn; lia].
    - intros [|[|p]] [|[|q]] i i2; cbn; intros [= <-] [= <-]; cbn; lia || done. }
  assert (Hr : 0 < iref d') by (by rewrite Eref).
  assert (Hf : exists k, find_entry dot (entries (contents b' d')) 0 = Some (k, inum d')).
  { rewrite Hents, find_place by done. rewrite cname_new_entry, decide_True by done.
    destruct j; [|exfalso; vm_compute in Hj; lia]. exists 0. by rewrite Einum. }
  destruct Hf as [k Hf].
  refine (proj2 (dirlink_existing 7 (fun _ => None) (fun _ => None) (Fstate b' [d'; spare]) 0 d' dot 5 k (inum d')
    Hd' Hn Ho _ Hf) eq_refl Hr _).
  - rewrite (refs_entry (Fstate b' [d'; spare]) 0 d' Ho eq_refl Hr). by rewrite Eref.
  - by rewrite Elock.
Defined.
