(* ===== verification/Xv6Syscall.v ===== *)
(** System call arguments and dispatch (src/설계 3번/xv6/syscall.c, syscall.h).

    A system call finds its arguments on the user stack.  [fetchint],
    [fetchstr], [argint], [argptr] and [argstr] check that what they are given
    lies inside the memory of the process, [0 .. sz); the theorem says that
    these checks, with the wrap-around of [uint], are enough, and that nothing
    inside is refused.  [None] is the result -1. *)

From S2P Require Import Prelude Bytes.

(** The process as the system call sees it: its size, its saved stack pointer
    and its memory. *)
Record user := User { usz : Z; uesp : Z; umem : Z -> Z }.

Definition load_int (m : Z -> Z) (a : Z) : Z := get32 [m a; m (a + 1); m (a + 2); m (a + 3)].

Definition fetchint (u : user) (addr : Z) : option Z :=
  if (addr >=? usz u) || (u32 (addr + 4) >? usz u) then None else Some (load_int (umem u) addr).

(** The search for the NUL with [k] bytes left below [sz]. *)
Fixpoint find_nul (k : nat) (m : Z -> Z) (s : Z) : option Z :=
  match k with
  | O => None
  | S k' => if m s =? 0 then Some s else find_nul k' m (s + 1)
  end.

(** The length of the string at [addr]. *)
Definition fetchstr (u : user) (addr : Z) : option Z :=
  if addr >=? usz u then None
  else s ← find_nul (Z.to_nat (usz u - addr)) (umem u) addr; Some (s - addr).

Definition argint (u : user) (n : Z) : option Z := fetchint u (u32 (uesp u + 4 + 4 * n)).

(** The pointer. *)
Definition argptr (u : user) (n size : Z) : option Z :=
  i ← argint u n;
  if (size <? 0) || (u32 i >=? usz u) || (u32 (u32 i + size) >? usz u) then None else Some (u32 i).

(** The pointer and the length of the string. *)
Definition argstr (u : user) (n : Z) : option (Z * Z) :=
  addr ← argint u n;
  len ← fetchstr u (u32 addr);
  Some (u32 addr, len).

(** The bytes of a user string or buffer. *)
Definition user_bytes (u : user) (a n : Z) : list Z := (fun k => umem u (a + k)) <$> seqZ 0 n.

(** ** Dispatch *)

Inductive sysname :=
| SYS_fork | SYS_exit | SYS_wait | SYS_pipe | SYS_read | SYS_kill | SYS_exec | SYS_fstat | SYS_chdir | SYS_dup
| SYS_getpid | SYS_sbrk | SYS_sleep | SYS_uptime | SYS_open | SYS_write | SYS_mknod | SYS_unlink | SYS_link
| SYS_mkdir | SYS_close | SYS_hello | SYS_hello_name | SYS_get_num_proc | SYS_get_max_pid | SYS_get_proc_info
| SYS_set_prio | SYS_get_prio.

#[global] Instance sysname_eq_dec : EqDecision sysname.
Proof. solve_decision. Defined.

(** The table [syscalls], by the numbers of syscall.h; entry 0 is empty. *)
Definition syscalls : list (option sysname) :=
  [None; Some SYS_fork; Some SYS_exit; Some SYS_wait; Some SYS_pipe; Some SYS_read; Some SYS_kill; Some SYS_exec;
   Some SYS_fstat; Some SYS_chdir; Some SYS_dup; Some SYS_getpid; Some SYS_sbrk; Some SYS_sleep; Some SYS_uptime;
   Some SYS_open; Some SYS_write; Some SYS_mknod; Some SYS_unlink; Some SYS_link; Some SYS_mkdir; Some SYS_close;
   Some SYS_hello; Some SYS_hello_name; Some SYS_get_num_proc; Some SYS_get_max_pid; Some SYS_get_proc_info;
   Some SYS_set_prio; Some SYS_get_prio].

Section dispatch.
(** The kernel state and the handlers. *)
Context {K : Type} (handler : sysname -> K -> res (Z * K)).

(** The new value of [tf->eax]. *)
Definition syscall (num : Z) (k : K) : res (Z * K) :=
  if (num >? 0) && (num <? Z.of_nat (length syscalls)) then
    e ← aget syscalls num;
    match e with Some h => handler h k | None => Ok (-1, k) end
  else Ok (-1, k).
End dispatch.

(** ** Theorems *)

Definition KERNBASE : Z := 2 ^ 31.

(** A range inside the memory of the process. *)
Definition inside (u : user) (a n : Z) : Prop := 0 <= a /\ 0 <= n /\ a + n <= usz u.

Lemma find_nul_spec k m : forall s,
  match find_nul k m s with
  | Some e => s <= e < s + Z.of_nat k /\ m e = 0 /\ forall x, s <= x < e -> m x <> 0
  | None => forall x, s <= x < s + Z.of_nat k -> m x <> 0
  end.
Proof.
  induction k as [|k IH]; intros s; cbn [find_nul]; [intros x Hx; lia|].
  destruct (Z.eqb_spec (m s) 0) as [E|E].
  - split; [lia|]. split; [done|]. intros x Hx. lia.
  - specialize (IH (s + 1)). destruct (find_nul k m (s + 1)) as [e|].
    + destruct IH as (H1 & H2 & H3). split; [lia|]. split; [done|].
      intros x Hx. destruct (decide (x = s)) as [->|]; [done|]. apply H3. lia.
    + intros x Hx. destruct (decide (x = s)) as [->|]; [done|]. apply IH. lia.
Qed.

Lemma u32_range z : 0 <= u32 z < 2 ^ 32.
Proof. apply Z.mod_pos_bound. lia. Qed.

Lemma fetchint_spec u addr :
  0 <= usz u <= KERNBASE -> 0 <= addr < 2 ^ 32 ->
  fetchint u addr = if decide (addr + 4 <= usz u) then Some (load_int (umem u) addr) else None.
Proof.
  unfold KERNBASE. intros Hs Ha. unfold fetchint. rewrite Z.geb_leb, Z.gtb_ltb.
  destruct (Z.leb_spec (usz u) addr); cbn [orb]; [by rewrite decide_False by lia|].
  unfold u32. rewrite Z.mod_small by lia. destruct (Z.ltb_spec (usz u) (addr + 4)).
  - by rewrite decide_False by lia.
  - by rewrite decide_True by lia.
Qed.

Lemma fetchstr_spec u addr :
  0 <= addr ->
  match fetchstr u addr with
  | Some len => inside u addr (len + 1) /\ umem u (addr + len) = 0 /\
      forall x, addr <= x < addr + len -> umem u x <> 0
  | None => forall x, addr <= x < usz u -> umem u x <> 0
  end.
Proof.
  intros Ha. unfold fetchstr. rewrite Z.geb_leb. destruct (Z.leb_spec (usz u) addr); [intros x Hx; lia|].
  pose proof (find_nul_spec (Z.to_nat (usz u - addr)) (umem u) addr) as Hf.
  cbn [mbind option_bind]. destruct (find_nul _ _ _) as [e|]; cbn.
  - destruct Hf as (H1 & H2 & H3). replace (addr + (e - addr)) with e by lia.
    split; [unfold inside; lia|]. done.
  - intros x Hx. apply Hf. lia.
Qed.

(** C33: system call arguments are checked exactly.  For a process below
    [KERNBASE], [argint], [argptr] and [argstr] succeed if and only if the
    argument word, the block of [size] bytes, and a NUL-terminated string
    respectively lie inside the memory of the process, whatever the values on
    its stack; the string of [argstr] ends at its first NUL. *)
Theorem arguments_inside u n size :
  0 <= usz u <= KERNBASE -> - 2 ^ 31 <= size < 2 ^ 31 ->
  let w := u32 (uesp u + 4 + 4 * n) in
  (argint u n = if decide (inside u w 4) then Some (load_int (umem u) w) else None) /\
  (argptr u n size = i ← argint u n; if decide (inside u (u32 i) size /\ u32 i < usz u) then Some (u32 i) else None) /\
  (forall i, argint u n = Some i ->
     match argstr u n with
     | Some (p, len) => p = u32 i /\ inside u p (len + 1) /\ umem u (p + len) = 0 /\
         forall x, p <= x < p + len -> umem u x <> 0
     | None => forall x, u32 i <= x < usz u -> umem u x <> 0
     end).
Proof.
  intros Hs Hsize w. pose proof (u32_range (uesp u + 4 + 4 * n)) as Hw. fold w in Hw.
  unfold KERNBASE in Hs. split; [|split].
  - unfold argint. fold w. rewrite fetchint_spec by (done || unfold KERNBASE; lia).
    destruct (decide (w + 4 <= usz u)) as [E|E].
    + by rewrite decide_True by (unfold inside; lia).
    + by rewrite decide_False by (unfold inside; lia).
  - unfold argptr. destruct (argint u n) as [i|]; [|done]. cbn [mbind option_bind].
    pose proof (u32_range i) as Hi. rewrite Z.geb_leb, Z.gtb_ltb.
    destruct (Z.ltb_spec size 0); cbn [orb]; [by rewrite decide_False by (unfold inside; lia)|].
    destruct (Z.leb_spec (usz u) (u32 i)); cbn [orb]; [by rewrite decide_False by (unfold inside; lia)|].
    assert (Hsum : u32 (u32 i + size) = u32 i + size) by (apply Z.mod_small; lia). rewrite Hsum.
    destruct (Z.ltb_spec (usz u) (u32 i + size)).
    + by rewrite decide_False by (unfold inside; lia).
    + by rewrite decide_True by (unfold inside; lia).
  - intros i Hi. unfold argstr. rewrite Hi. cbn [mbind option_bind]. pose proof (u32_range i) as Hr.
    pose proof (fetchstr_spec u (u32 i) ltac:(lia)) as Hf. destruct (fetchstr u (u32 i)) as [len|]; cbn; [|done].
    split; [done|exact Hf].
Qed.

(** A process of 64 bytes with "ab" at 16, whose first argument points at
    it. *)
Definition demo_user : user :=
  User 64 32 (fun a => if a =? 36 then 16 else if a =? 16 then 97 else if a =? 17 then 98 else 0).

Lemma arguments_inside_witness : argint demo_user 0 = Some 16 /\ argptr demo_user 0 49 = None /\
  argstr demo_user 0 = Some (16, 2).
Proof.
  destruct (arguments_inside demo_user 0 49 ltac:(unfold KERNBASE; cbn; lia) ltac:(lia)) as (H1 & H2 & H3).
  split; [exact H1|]. split; [rewrite H2; reflexivity|]. specialize (H3 16 H1). reflexivity.
Defined.

(** Every number in the table is dispatched to its handler and nothing
    else. *)
Lemma syscall_unknown {K} (handler : sysname -> K -> res (Z * K)) num k :
  num <= 0 \/ 28 < num -> syscall handler num k = Ok (-1, k).
Proof.
  intros H. unfold syscall. rewrite Z.gtb_ltb. change (Z.of_nat (length syscalls)) with 29.
  destruct (Z.ltb_spec 0 num), (Z.ltb_spec num 29); cbn [andb]; lia || done.
Qed.
