(* ===== verification/Xv6File.v ===== *)
(** Open files (src/설계 3번/xv6/file.c, [pipealloc] of pipe.c).

    The table [ftable] holds the open files with their reference counts; a
    pointer to a file is its index.  [ftable.lock] protects every access to a
    count, so each section under it is one step.  Pages come from and go back
    to [kpages], the pool [Xv6Kalloc] shows the page allocator to be.  One
    process runs: a pipe operation that would sleep is [Stuck Blocked] (their
    interleavings are in [Xv6Pipe]).

    [begin_op] and [end_op] delimit the transactions of [Xv6Log]; here they
    empty [logged], the blocks the current transaction has written, and
    [txns] keeps the blocks of the finished ones. *)

From S2P Require Import Prelude Bytes Xv6Locks Xv6String Xv6Pipe Xv6Fs Xv6Dir.

Definition NFILE : nat := 100.
Definition NOFILE : nat := 16.

Inductive fdtype := FD_NONE | FD_PIPE | FD_INODE.

#[global] Instance fdtype_eq_dec : EqDecision fdtype.
Proof. solve_decision. Defined.

Record file := File {
  f_type : fdtype;
  f_ref : Z;
  f_readable : bool;
  f_writable : bool;
  f_pipe : Z;
  f_ip : Z;
  f_off : Z
}.

Definition set_fref v f := File (f_type f) v (f_readable f) (f_writable f) (f_pipe f) (f_ip f) (f_off f).
Definition set_foff v f := File (f_type f) (f_ref f) (f_readable f) (f_writable f) (f_pipe f) (f_ip f) v.

Record ks := Ks {
  kfs : fstate;
  ftable : list file;
  pipes : gmap Z pipe;
  kpages : list Z;
  txns : list (list Z)
}.

Definition set_kfs v k := Ks v (ftable k) (pipes k) (kpages k) (txns k).
Definition set_ftable v k := Ks (kfs k) v (pipes k) (kpages k) (txns k).
Definition set_pipes v k := Ks (kfs k) (ftable k) v (kpages k) (txns k).
Definition set_kpages v k := Ks (kfs k) (ftable k) (pipes k) v (txns k).

Definition clear_logged (s : fstate) : fstate :=
  Fstate (Bstate (blocks (fb s)) (sb (fb s)) (held (fb s)) []) (icache s).

Definition begin_op (k : ks) : ks := set_kfs (clear_logged (kfs k)) k.
Definition end_op (k : ks) : ks :=
  Ks (clear_logged (kfs k)) (ftable k) (pipes k) (kpages k) (txns k ++ [logged (fb (kfs k))]).

Definition fat (k : ks) (f : Z) : res file := aget (ftable k) f.
Definition fset (k : ks) (f : Z) (v : file) : res ks := l ← aset (ftable k) f v; Ok (set_ftable l k).

(** The first file with reference count 0. *)
Fixpoint find_file (l : list file) (i : Z) : option Z :=
  match l with
  | [] => None
  | f :: l' => if f_ref f =? 0 then Some i else find_file l' (i + 1)
  end.

Definition filealloc (k : ks) : res (option Z * ks) :=
  match find_file (ftable k) 0 with
  | Some f => v ← fat k f; k ← fset k f (set_fref 1 v); Ok (Some f, k)
  | None => Ok (None, k)
  end.

Definition filedup (k : ks) (f : Z) : res ks :=
  v ← fat k f;
  if f_ref v <? 1 then Stuck Panicked
  else r ← c_int (f_ref v + 1); fset k f (set_fref r v).

(** [pipeclose] of the pipe in page [p], giving the page back after both ends
    are closed. *)
Definition close_pipe (k : ks) (p : Z) (writable : bool) : res ks :=
  match pipes k !! p with
  | None => Stuck OutOfBounds
  | Some pp =>
      let '(pp, _, freed) := pipeclose pp writable in
      if freed then Ok (set_kpages (p :: kpages k) (set_pipes (delete p (pipes k)) k))
      else Ok (set_pipes (<[p := pp]> (pipes k)) k)
  end.

Section files.
(** The pid of the running process, and whether it has been killed. *)
Context (me : Z) (killed : bool).
Context (dev_read : Z -> option (Z -> Z * list Z)) (dev_write : Z -> option (list Z -> Z)).

Definition fileclose (k : ks) (f : Z) : res ks :=
  v ← fat k f;
  if f_ref v <? 1 then Stuck Panicked
  else
    let r := f_ref v - 1 in
    if r >? 0 then fset k f (set_fref r v)
    else
      k ← fset k f (File FD_NONE 0 (f_readable v) (f_writable v) (f_pipe v) (f_ip v) (f_off v));
      match f_type v with
      | FD_PIPE => close_pipe k (f_pipe v) (f_writable v)
      | FD_INODE =>
          let k := begin_op k in
          s ← iput me (kfs k) (f_ip v);
          Ok (end_op (set_kfs s k))
      | FD_NONE => Ok k
      end.

Definition filestat (k : ks) (f : Z) : res (option stat * ks) :=
  v ← fat k f;
  match f_type v with
  | FD_INODE =>
      s ← ilock me (kfs k) (f_ip v);
      i ← iat s (f_ip v);
      s ← iunlock me s (f_ip v);
      Ok (Some (stati i), set_kfs s k)
  | _ => Ok (None, k)
  end.

(** The result and the bytes stored at [addr]; [n] becomes a [uint] in the
    call of [readi]. *)
Definition fileread (k : ks) (f n : Z) : res (Z * list Z * ks) :=
  v ← fat k f;
  if negb (f_readable v) then Ok (-1, [], k)
  else
    match f_type v with
    | FD_PIPE =>
        match pipes k !! f_pipe v with
        | None => Stuck OutOfBounds
        | Some pp =>
            '(pp, _, st, l) ← piperead_run killed pp n;
            match st with
            | Return r => Ok (r, l, set_pipes (<[f_pipe v := pp]> (pipes k)) k)
            | Sleep _ _ => Stuck Blocked
            end
        end
    | FD_INODE =>
        s ← ilock me (kfs k) (f_ip v);
        '(r, bs, s) ← readi_at dev_read s (f_ip v) (f_off v) (u32 n);
        let r := s32 r in
        k ← (if r >? 0 then fset k f (set_foff (u32 (f_off v + r)) v) else Ok k);
        s ← iunlock me s (f_ip v);
        Ok (r, bs, set_kfs s k)
    | FD_NONE => Stuck Panicked
    end.

Definition MAXOPBLOCKS : Z := 10.

(** [max] of [filewrite]. *)
Definition write_max : Z := (MAXOPBLOCKS - 1 - 1 - 2) / 2 * 512.

(** The loop of [filewrite] from byte [i]. *)
Fixpoint filewrite_loop (fuel : nat) (k : ks) (f : Z) (addr : list Z) (i n : Z) : res (Z * ks) :=
  match fuel with
  | O => Stuck OutOfFuel
  | S fuel' =>
      if i <? n then
        let n1 := if n - i >? write_max then write_max else n - i in
        let k := begin_op k in
        v ← fat k f;
        s ← ilock me (kfs k) (f_ip v);
        '(r, s) ← writei_at dev_write s (f_ip v) (drop (Z.to_nat i) addr) (f_off v) n1;
        let r := s32 r in
        k ← (if r >? 0 then fset k f (set_foff (u32 (f_off v + r)) v) else Ok k);
        s ← iunlock me s (f_ip v);
        let k := end_op (set_kfs s k) in
        if r <? 0 then Ok (i, k)
        else if negb (r =? n1) then Stuck Panicked
        else filewrite_loop fuel' k f addr (i + r) n
      else Ok (i, k)
  end.

Definition filewrite (k : ks) (f : Z) (addr : list Z) (n : Z) : res (Z * ks) :=
  v ← fat k f;
  if negb (f_writable v) then Ok (-1, k)
  else
    match f_type v with
    | FD_PIPE =>
        match pipes k !! f_pipe v with
        | None => Stuck OutOfBounds
        | Some pp =>
            '(pp, _, st) ← pipewrite_run (Z.to_nat n) killed pp addr 0;
            match st with
            | Return r => Ok (r, set_pipes (<[f_pipe v := pp]> (pipes k)) k)
            | Sleep _ _ => Stuck Blocked
            end
        end
    | FD_INODE =>
        '(i, k) ← filewrite_loop (S (Z.to_nat n)) k f addr 0 n;
        Ok (if i =? n then n else -1, k)
    | FD_NONE => Stuck Panicked
    end.

(** What is in a page that [kalloc] returns. *)
Context (page_data : Z -> list Z).

(** [pipealloc]: the two files, or [None] after giving everything back. *)
Definition pipealloc (k : ks) : res (option (Z * Z) * ks) :=
  '(f0, k) ← filealloc k;
  match f0 with
  | None => Ok (None, k)
  | Some f0 =>
      '(f1, k) ← filealloc k;
      match f1 with
      | None => k ← fileclose k f0; Ok (None, k)
      | Some f1 =>
          match kpages k with
          | [] => k ← fileclose k f0; k ← fileclose k f1; Ok (None, k)
          | p :: rest =>
              let k := set_kpages rest (set_pipes (<[p := pipe_init (page_data p)]> (pipes k)) k) in
              v0 ← fat k f0;
              k ← fset k f0 (File FD_PIPE (f_ref v0) true false p (f_ip v0) (f_off v0));
              v1 ← fat k f1;
              k ← fset k f1 (File FD_PIPE (f_ref v1) false true p (f_ip v1) (f_off v1));
              Ok (Some (f0, f1), k)
          end
      end
  end.

End files.
