(* ===== verification/Xv6Txn.v ===== *)
(** What a transaction of the xv6 file system changes: only blocks that were
    given to [log_write]. *)

From S2P Require Import Prelude Bytes Xv6Fs Xv6Bitmap.

(** From [s] to [s'] only blocks changed that are now in the log. *)
Record covered (s s' : bstate) : Prop := Covered {
  cv_mono : forall x, x ∈ logged s -> x ∈ logged s';
  cv_same : forall x, 0 <= x -> x ∉ logged s' -> block s' x = block s x
}.

#[export] Instance covered_preorder : PreOrder covered.
Proof.
  split; [by intros s|]. intros s1 s2 s3 [M1 S1] [M2 S2]. constructor; [eauto|].
  intros x Hx Hn. rewrite S2 by done. apply S1; [done|]. intros Hl. by apply Hn, M2.
Qed.

Lemma covered_get s n d s1 : get_buf s n = Ok (d, s1) -> 0 <= n /\ covered s s1.
Proof.
  unfold get_buf. case_decide; [done|]. destruct (Z.leb_spec 0 n); [|done].
  destruct (blocks s !! Z.to_nat n); [|done]. intros [= <- <-]. split; [done|]. by constructor.
Qed.

Lemma covered_put s n : covered s (put_buf s n).
Proof. by constructor. Qed.

Lemma covered_log s n d : 0 <= n -> covered s (log_buf s n d).
Proof.
  intros Hn. constructor; cbn [log_buf logged].
  - intros x Hx. apply elem_of_app. by left.
  - intros x Hx Hl. unfold block. cbn [log_buf blocks]. assert (x <> n) by (intros ->; apply Hl, elem_of_app; right; left).
    by rewrite list_lookup_insert_ne by lia.
Qed.

Lemma covered_write s n d : 0 <= n -> covered s (put_buf (log_buf s n d) n).
Proof. intros Hn. transitivity (log_buf s n d); [by apply covered_log|apply covered_put]. Qed.

(** ** The functions of fs.c *)

Lemma covered_bzero s n s' : bzero s n = Ok s' -> covered s s'.
Proof.
  unfold bzero. intros E. apply bind_Ok in E as ([d s1] & Eg & E). injection E as <-.
  apply covered_get in Eg as [Hn Hc]. transitivity s1; [done|by apply covered_write].
Qed.

Lemma covered_balloc s a s' : balloc s = Ok (a, s') -> covered s s'.
Proof.
  unfold balloc. generalize (S (Z.to_nat (sb_size (sb s) / BPB + 1))) 0. intros fuel b. revert s b.
  induction fuel as [|fuel IH]; intros s b E; [done|]. cbn [balloc_loop] in E. destruct (b <? _); [|done].
  apply bind_Ok in E as ([d s1] & Eg & E). apply covered_get in Eg as [Hn Hc].
  apply bind_Ok in E as ([bi|] & _ & E).
  - apply bind_Ok in E as (byte & _ & E). apply bind_Ok in E as (d' & _ & E).
    apply bind_Ok in E as (s2 & Ez & E). injection E as <- <-. apply covered_bzero in Ez.
    etransitivity; [exact Hc|]. etransitivity; [exact (covered_write s1 _ d' Hn)|exact Ez].
  - apply IH in E. etransitivity; [exact Hc|]. etransitivity; [apply covered_put|exact E].
Qed.

Lemma covered_bmap s i n a i' s' : bmap s i n = Ok (a, i', s') -> covered s s'.
Proof.
  unfold bmap. intros E. destruct (n <? NDIRECT).
  - apply bind_Ok in E as (x & _ & E). destruct (x =? 0); [|by injection E as <- <- <-].
    apply bind_Ok in E as ([y s1] & Ea & E). apply bind_Ok in E as (l & _ & E). injection E as <- <- <-. by eapply covered_balloc.
  - destruct (_ <? NINDIRECT); [|done]. apply bind_Ok in E as (x & _ & E). apply bind_Ok in E as ([[ind i1] s1] & Ei & E).
    assert (H1 : covered s s1).
    { destruct (x =? 0); [|by injection Ei as <- <- <-]. apply bind_Ok in Ei as ([y s2] & Ea & Ei).
      apply bind_Ok in Ei as (l & _ & Ei). injection Ei as <- <- <-. by eapply covered_balloc. }
    apply bind_Ok in E as ([d s2] & Eg & E). apply covered_get in Eg as [Hn H2]. apply bind_Ok in E as (w & _ & E).
    transitivity s1; [done|]. transitivity s2; [done|]. destruct (w =? 0).
    + apply bind_Ok in E as ([y s3] & Ea & E). apply bind_Ok in E as (d' & _ & E). injection E as <- <- <-.
      transitivity s3; [by eapply covered_balloc|by apply covered_write].
    + injection E as <- <- <-. apply covered_put.
Qed.

Lemma covered_iupdate s i s' : iupdate s i = Ok s' -> covered s s'.
Proof.
  unfold iupdate. intros E. apply bind_Ok in E as ([d s1] & Eg & E). apply covered_get in Eg as [Hn Hc].
  apply bind_Ok in E as (d' & _ & E). injection E as <-. transitivity s1; [done|by apply covered_write].
Qed.

Section devices.
Context (dev_write : Z -> option (list Z -> Z)).

Lemma covered_write_loop fuel : forall s i src tot off n r i' s',
  write_loop fuel s i src tot off n = Ok (r, i', s') -> covered s s'.
Proof.
  induction fuel as [|fuel IH]; intros s i src tot off n r i' s' E; [done|]. cbn [write_loop] in E.
  destruct (tot <? n); [|by injection E as <- <- <-]. apply bind_Ok in E as ([[a i1] s1] & Eb & E).
  apply bind_Ok in E as ([d s2] & Eg & E). apply covered_get in Eg as [Hn Hc]. apply bind_Ok in E as (bs & _ & E).
  apply bind_Ok in E as (d' & _ & E). apply IH in E.
  transitivity s1; [by eapply covered_bmap|]. transitivity s2; [done|]. etransitivity; [by apply (covered_write s2 a d')|exact E].
Qed.

(** [writei] changes only blocks that it gives to the log. *)
Lemma covered_writei s i src off n r i' s' : writei dev_write s i src off n = Ok (r, i', s') -> covered s s'.
Proof.
  unfold writei. destruct (itype i =? T_DEV).
  { destruct (_ || _); [by intros [= <- <- <-]|]. destruct (dev_write _); by intros [= <- <- <-]. }
  destruct (_ || _); [by intros [= <- <- <-]|]. destruct (u32 _ >? _); [by intros [= <- <- <-]|]. intros E.
  apply bind_Ok in E as ([[o i1] s1] & Ew & E). apply covered_write_loop in Ew. destruct (_ && _); [|by injection E as <- <- <-].
  apply bind_Ok in E as (s2 & Eu & E). injection E as <- <- <-. transitivity s1; [done|by eapply covered_iupdate].
Qed.

End devices.
