(* ===== verification/Xv6FileIo.v ===== *)
(** Writing an open file: [filewrite] against the contents of its inode, in
    transactions that fit the log. *)

From S2P Require Import Prelude Bytes Xv6Locks Xv6Fs Xv6Dir Xv6Bitmap Xv6Inode Xv6Dinode Xv6Content Xv6Icache Xv6File Xv6Files Xv6Txn.

(** ** Blocks of one transaction *)

(** The number of different blocks written. *)
Definition distinct (l : list Z) : nat := length (remove_dups l).

Lemma distinct_incl l k : l ⊆ k -> (distinct l <= length k)%nat.
Proof.
  intros H. unfold distinct. apply submseteq_length, NoDup_submseteq; [apply NoDup_remove_dups|].
  intros x Hx. rewrite elem_of_remove_dups in Hx. by apply H.
Qed.

(** On a disk whose bit map is one block, [writei] writes the data blocks it
    touches, and at most three more. *)
Lemma written_distinct s i off bs s' i' :
  fs_ok s -> sb_size (sb s) <= BPB -> logged s = [] -> 0 <= off -> written s i off bs s' i' ->
  Z.of_nat (distinct (logged s')) <= span off (Z.of_nat (length bs)) + 3.
Proof.
  intros Hf Hsz Hlog Ho Hw. set (r := Z.of_nat (length bs)).
  assert (Hspan : 0 <= span off r).
  { unfold span. destruct (Z.leb_spec r 0); [lia|].
    assert (off / BSIZE <= (off + r - 1) / BSIZE) by (apply Z.div_le_mono; [done|lia]). lia. }
  pose proof (distinct_incl (logged s')
    ([sb_bmapstart (sb s); ind_of i'; IBLOCK (inum i) (sb s)] ++ (addr_of s' i' <$> seqZ (off / BSIZE) (span off r)))) as Hd.
  rewrite length_app, length_fmap, length_seqZ in Hd. cbn [length] in Hd.
  enough (Hsub : logged s' ⊆ [sb_bmapstart (sb s); ind_of i'; IBLOCK (inum i) (sb s)] ++
            (addr_of s' i' <$> seqZ (off / BSIZE) (span off r))) by (specialize (Hd Hsub); lia).
  intros x Hx. apply (wr_log _ _ _ _ _ _ Hw) in Hx as [Hx|[(b & Hb & ->)|[->|[->|(p & Hp & ->)]]]].
  - rewrite Hlog in Hx. by apply elem_of_nil in Hx.
  - unfold BBLOCK. rewrite (Z.div_small b BPB) by lia. rewrite Z.add_0_l. set_solver.
  - set_solver.
  - set_solver.
  - apply elem_of_app. right. apply list_elem_of_fmap. exists (p / BSIZE). split; [done|].
    apply elem_of_seqZ. unfold within in Hp. unfold span, r in *.
    destruct (Z.leb_spec (Z.of_nat (length bs)) 0); [lia|].
    assert (off / BSIZE <= p / BSIZE) by (apply Z.div_le_mono; [done|lia]).
    assert (p / BSIZE <= (off + Z.of_nat (length bs) - 1) / BSIZE) by (apply Z.div_le_mono; [done|lia]). lia.
Qed.

Lemma span_chunk off r : 0 <= off -> 0 <= r <= write_max -> span off r <= 4.
Proof.
  change write_max with 1536. intros Ho Hr. unfold span. destruct (Z.leb_spec r 0); [lia|].
  unfold BSIZE. Z.div_mod_to_equations. lia.
Qed.

(** ** The inode of an open file *)

Record ready (s : fstate) (p : nat) (i : inode) : Prop := Ready {
  rd_at : icache s !! p = Some i;
  rd_ref : 0 < iref i;
  rd_unlocked : locked (islock i) = 0;
  rd_valid : ivalid i = 1;
  rd_type : itype i <> T_DEV;
  rd_fs : fs_ok (fb s);
  rd_small : sb_size (sb (fb s)) <= BPB;
  rd_file : file_ok (fb s) i;
  rd_held : held (fb s) = [];
  rd_table : in_table (fb s) i;
  rd_fields : fields_ok i;
  rd_synced : synced (fb s) i
}.

Lemma file_ok_lock s i l : file_ok s i <-> file_ok s (set_islock l i).
Proof. split; intros [[] ? ?]; (constructor; [by constructor|done|done]). Qed.

Lemma fields_ok_lock i l : fields_ok i <-> fields_ok (set_islock l i).
Proof. split; intros []; by constructor. Qed.

(** The copy on disk does not depend on the fields in memory only. *)
Lemma load_dinode_lock d i l : load_dinode d (set_islock l i) = (j ← load_dinode d i; Ok (set_islock l j)).
Proof.
  unfold load_dinode. cbn [set_islock inum]. set (o := DINODE * (inum i mod IPB)).
  destruct (buf_load d o 2); [|done]. destruct (buf_load d (o + 2) 2); [|done].
  destruct (buf_load d (o + 4) 2); [|done]. destruct (buf_load d (o + 6) 2); [|done].
  destruct (buf_load d (o + 8) 4); [|done]. run. by destruct (words_from 13 d (o + 12)).
Qed.

Lemma synced_lock s i l : ivalid i = 1 -> synced s i -> synced s (set_islock l i).
Proof. intros Hv Hs. unfold synced in *. rewrite load_dinode_lock. change (inum (set_islock l i)) with (inum i). by rewrite Hs. Qed.

Lemma contents_lock s i l : contents s (set_islock l i) = contents s i.
Proof. done. Qed.

Lemma set_islock_twice l l' i : set_islock l (set_islock l' i) = set_islock l i.
Proof. done. Qed.

Lemma ready_ilock me s p i :
  ready s p i -> ilock me s (Z.of_nat p) = Ok (Fstate (fb s) (<[p := set_islock (Sleeplock 1 me) i]> (icache s))).
Proof.
  intros [Hat Hr Hl Hv _ _ _ _ _ _ _ _]. unfold ilock. rewrite (iat_Ok s p i Hat), run_Ok.
  rewrite (proj2 (Z.ltb_ge _ _)) by lia. unfold acquiresleep. rewrite Hl. cbn [Z.eqb negb]. rewrite run_Ok.
  cbn [set_islock ivalid]. rewrite Hv. cbn [Z.eqb]. by rewrite (iset_Ok s p i _ Hat).
Qed.

(** A disk with another list of logged blocks. *)
Definition relog (b : bstate) (l : list Z) : bstate := Bstate (blocks b) (sb b) (held b) l.

Lemma fs_ok_relog b l : fs_ok b -> fs_ok (relog b l).
Proof. intros []. by constructor. Qed.

Lemma file_ok_relog b l i : file_ok b i -> file_ok (relog b l) i.
Proof. intros [[] ? ?]. constructor; [by constructor|done|done]. Qed.

Section write.
Context (me : Z).
Context (dev_write : Z -> option (list Z -> Z)).

(** What one pass of the loop does. *)
Record advanced (k : ks) (f : Z) (v : file) (p : nat) (i : inode) (bs : list Z) (k' : ks) (i' : inode) : Prop := Advanced {
  ad_ready : ready (kfs k') p i';
  ad_file : fat k' f = Ok (set_foff (f_off v + Z.of_nat (length bs)) v);
  ad_sb : sb (fb (kfs k')) = sb (fb (kfs k));
  ad_size : isize i' = Z.max (isize i) (f_off v + Z.of_nat (length bs));
  ad_contents : contents (fb (kfs k')) i' =
    take (Z.to_nat (f_off v)) (contents (fb (kfs k)) i) ++ bs ++
    drop (Z.to_nat (f_off v) + length bs) (contents (fb (kfs k)) i);
  ad_others : forall j, file_ok (fb (kfs k)) j -> apart (fb (kfs k)) i j ->
    undisturbed (fb (kfs k)) i j (fb (kfs k')) i';
  ad_synced : forall j, in_table (fb (kfs k)) j -> inum j <> inum i -> synced (fb (kfs k)) j -> synced (fb (kfs k')) j;
  ad_inum : inum i' = inum i
}.

(** From [k] to [k1] one transaction was finished, of the blocks [t]: they are at
    most as many as [begin_op] reserves, no other block of the disk changed, and
    nothing waits in the log. *)
Record transaction (k k1 : ks) (t : list Z) : Prop := Transaction {
  tx_done : txns k1 = txns k ++ [t];
  tx_size : Z.of_nat (distinct t) <= MAXOPBLOCKS;
  tx_blocks : forall x, 0 <= x -> x ∉ t -> block (fb (kfs k1)) x = block (fb (kfs k)) x;
  tx_closed : logged (fb (kfs k1)) = []
}.

(** The pieces [l] are written one after the other, each by a transaction of its
    own that leaves the file with the pieces up to it. *)
Inductive passes (f : Z) (p : nat) : ks -> file -> inode -> list (list Z) -> ks -> inode -> Prop :=
| passes_nil k v i : passes f p k v i [] k i
| passes_cons k v i bs t k1 i1 l k' i' : 0 < Z.of_nat (length bs) <= write_max ->
    advanced k f v p i bs k1 i1 -> transaction k k1 t ->
    passes f p k1 (set_foff (f_off v + Z.of_nat (length bs)) v) i1 l k' i' -> passes f p k v i (bs :: l) k' i'.

(** The disk and the cache after one pass. *)
Lemma write_pass s (p : nat) i src off n rest :
  ready s p i -> logged (fb s) = [] ->
  0 <= off <= isize i -> 0 < n <= Z.of_nat (length src) -> n <= write_max -> 0 <= rest ->
  off + n + rest <= MAXFILE * BSIZE -> (write_need (fb s) i off (n + rest) <= nfree (fb s))%nat ->
  exists s1 i2 b2, ilock me s (Z.of_nat p) = Ok s1 /\
    writei_at dev_write s1 (Z.of_nat p) src off n = Ok (n, Fstate b2 (<[p := i2]> (icache s1))) /\
    iunlock me (Fstate b2 (<[p := i2]> (icache s1))) (Z.of_nat p) =
      Ok (Fstate b2 (<[p := set_islock initsleeplock i2]> (icache s))) /\
    written (fb s) (set_islock (Sleeplock 1 me) i) off (take (Z.to_nat n) src) b2 i2 /\ covered (fb s) b2 /\
    (write_need b2 i2 (off + n) rest <= nfree b2)%nat.
Proof.
  intros Hrd Hlog Ho Hn Hmax Hrest Hfit Hneed. pose proof (ready_ilock me s p i Hrd) as El.
  destruct Hrd as [Hat Hr Hl Hv Ht Hf Hsm Hfile Hh Htab Hfl Hsy].
  pose proof (lookup_lt_Some _ _ _ Hat) as Hlt. set (il := set_islock (Sleeplock 1 me) i) in *.
  destruct (writei_rest dev_write (fb s) il src off n rest) as (i2 & b2 & Ew & Hw & Hleft); try done; try lia.
  - by apply file_ok_lock.
  - by apply fields_ok_lock.
  - by apply synced_lock.
  - exists (Fstate (fb s) (<[p := il]> (icache s))), i2, b2. split; [done|].
    assert (Hil : icache (Fstate (fb s) (<[p := il]> (icache s))) !! p = Some il) by (by apply list_lookup_insert_eq).
    split; [|split; [|split; [done|split; [by eapply covered_writei|done]]]].
    + unfold writei_at. rewrite (iat_Ok _ p il Hil), run_Ok. cbn [fb]. rewrite Ew, run_Ok. cbn iota.
      rewrite (iset_Ok (set_fb b2 (Fstate (fb s) (<[p := il]> (icache s)))) p il i2 Hil), run_Ok. done.
    + pose proof (wr_inode _ _ _ _ _ _ Hw) as Ei.
      assert (Elk : islock i2 = Sleeplock 1 me) by (rewrite Ei; done).
      assert (Erf : iref i2 = iref i) by (rewrite Ei; done).
      cbn [icache]. rewrite list_insert_insert_eq.
      assert (Hi2 : icache (Fstate b2 (<[p := i2]> (icache s))) !! p = Some i2) by (by apply list_lookup_insert_eq).
      unfold iunlock. rewrite (iat_Ok _ p i2 Hi2), run_Ok. unfold holdingsleep. rewrite Elk, Erf. cbn [locked lpid].
      rewrite Z.eqb_refl. cbn [Z.eqb negb andb orb]. rewrite (proj2 (Z.ltb_ge _ _)) by lia.
      rewrite (iset_Ok _ p i2 _ Hi2). cbn [icache fb]. by rewrite list_insert_insert_eq.
Qed.

(** The inode is ready again. *)
Lemma written_ready s (p : nat) i off bs b2 i2 l lg :
  ready s p i -> written (fb s) (set_islock l i) off bs b2 i2 ->
  ready (Fstate (relog b2 lg) (<[p := set_islock initsleeplock i2]> (icache s))) p (set_islock initsleeplock i2).
Proof.
  intros [Hat Hr Hl Hv Ht Hf Hsm Hfile Hh Htab Hfl Hsy] Hw. pose proof (wr_inode _ _ _ _ _ _ Hw) as Ei.
  constructor; cbn [fb icache relog sb held].
  - apply list_lookup_insert_eq. by eapply lookup_lt_Some.
  - change (0 < iref i2). rewrite Ei. done.
  - done.
  - change (ivalid i2 = 1). rewrite Ei. done.
  - change (itype i2 <> T_DEV). rewrite Ei. done.
  - apply fs_ok_relog, Hw.
  - by rewrite (wr_sb _ _ _ _ _ _ Hw).
  - apply file_ok_relog. apply (proj1 (file_ok_lock b2 i2 _)), Hw.
  - apply Hw.
  - unfold in_table. change (0 <= inum i2 < sb_ninodes (sb b2)). rewrite (wr_sb _ _ _ _ _ _ Hw), Ei. done.
  - apply (proj1 (fields_ok_lock i2 _)), Hw.
  - change (synced b2 (set_islock initsleeplock i2)). apply synced_lock; [rewrite Ei; done|apply Hw].
Qed.

Lemma advanced_nil k f v p i : ready (kfs k) p i -> fat k f = Ok v -> 0 <= f_off v <= isize i -> advanced k f v p i [] k i.
Proof.
  intros Hrd Hv Ho. constructor; try done.
  - rewrite Hv. cbn [length]. rewrite Z.add_0_r. by destruct v.
  - cbn [length]. lia.
  - cbn [length app]. by rewrite Nat.add_0_r, take_drop.
Qed.

Lemma overwrite_app (c b1 b2 : list Z) (o : nat) :
  (o <= length c)%nat ->
  let c1 := take o c ++ b1 ++ drop (o + length b1) c in
  take (o + length b1) c1 ++ b2 ++ drop (o + length b1 + length b2) c1 =
  take o c ++ (b1 ++ b2) ++ drop (o + length (b1 ++ b2)) c.
Proof.
  intros Ho c1. assert (Hl : length (take o c ++ b1) = (o + length b1)%nat) by (rewrite length_app, length_take; lia).
  assert (E : c1 = (take o c ++ b1) ++ drop (o + length b1) c) by (unfold c1; by rewrite <- app_assoc).
  rewrite E, take_app_length' by done. rewrite <- Hl at 1. rewrite drop_app_add, drop_drop, length_app.
  rewrite <- !app_assoc. do 4 f_equal. lia.
Qed.

Lemma advanced_app k f v p i b1 k1 i1 b2 k2 i2 :
  0 <= f_off v <= isize i -> advanced k f v p i b1 k1 i1 ->
  advanced k1 f (set_foff (f_off v + Z.of_nat (length b1)) v) p i1 b2 k2 i2 ->
  advanced k f v p i (b1 ++ b2) k2 i2.
Proof.
  intros Ho [Hr1 Hf1 Hsb1 Hs1 Hc1 Ho1 Hy1 Hn1] [Hr2 Hf2 Hsb2 Hs2 Hc2 Ho2 Hy2 Hn2].
  cbn [set_foff f_off] in *. constructor; try done.
  - rewrite Hf2. rewrite length_app. f_equal. unfold set_foff. cbn. f_equal. lia.
  - congruence.
  - rewrite Hs2, Hs1, length_app. lia.
  - rewrite Hc2, Hc1. rewrite Z2Nat.inj_add, Nat2Z.id by lia.
    apply overwrite_app. unfold contents. rewrite length_fbytes. lia.
  - intros j Hj Hap. destruct (Ho1 j Hj Hap) as (E1 & Hj1 & Hap1). destruct (Ho2 j Hj1 Hap1) as (E2 & Hj2 & Hap2).
    split; [congruence|done].
  - intros j Hj Hne Hs. apply Hy2; [|congruence|by apply Hy1].
    unfold in_table in *. by rewrite Hsb1.
  - congruence.
Qed.

Lemma fset_Ok k f v v' : fat k f = Ok v -> fset k f v' = Ok (set_ftable (<[Z.to_nat f := v']> (ftable k)) k).
Proof.
  unfold fat, fset. intros H. apply aget_Ok in H as [H0 H]. pose proof (lookup_lt_Some _ _ _ H).
  by rewrite aset_Ok by lia.
Qed.

Lemma fat_set k f v v' : fat k f = Ok v -> fat (set_ftable (<[Z.to_nat f := v']> (ftable k)) k) f = Ok v'.
Proof.
  unfold fat. intros H. apply aget_Ok in H as [H0 H]. pose proof (lookup_lt_Some _ _ _ H).
  apply aget_Ok. split; [done|]. cbn. by apply list_lookup_insert_eq.
Qed.

(** One pass of the loop of [filewrite]. *)
Lemma filewrite_pass fuel k f v (p : nat) i addr j n :
  ready (kfs k) p i -> fat k f = Ok v -> f_ip v = Z.of_nat p -> 0 <= f_off v <= isize i ->
  0 <= j < n -> n <= Z.of_nat (length addr) -> f_off v + (n - j) <= MAXFILE * BSIZE ->
  (write_need (fb (kfs k)) i (f_off v) (n - j) <= nfree (fb (kfs k)))%nat ->
  let n1 := Z.min (n - j) write_max in
  exists k1 i1, filewrite_loop me dev_write (S fuel) k f addr j n = filewrite_loop me dev_write fuel k1 f addr (j + n1) n /\
    advanced k f v p i (take (Z.to_nat n1) (drop (Z.to_nat j) addr)) k1 i1 /\ (exists t, transaction k k1 t) /\
    (write_need (fb (kfs k1)) i1 (f_off v + n1) (n - j - n1) <= nfree (fb (kfs k1)))%nat.
Proof.
  intros Hrd Hv Hip Ho Hj Hlen Hfit Hneed n1. assert (HM : MAXFILE * BSIZE < 2 ^ 31) by done.
  assert (Hwm : write_max = 1536) by done.
  set (s0 := clear_logged (kfs k)).
  assert (Hrd0 : ready s0 p i).
  { destruct Hrd. constructor; try done; [by apply fs_ok_relog|by apply file_ok_relog]. }
  assert (Hdl : Z.of_nat (length (drop (Z.to_nat j) addr)) = Z.of_nat (length addr) - j) by (rewrite length_drop; lia).
  destruct (write_pass s0 p i (drop (Z.to_nat j) addr) (f_off v) n1 (n - j - n1)) as
    (s1 & i2 & b2 & El & Ew & Eu & Hw & Hcov & Hleft); try done; try lia.
  { by replace (n1 + (n - j - n1)) with (n - j) by lia. }
  set (bs := take (Z.to_nat n1) (drop (Z.to_nat j) addr)) in *.
  assert (Hbs : Z.of_nat (length bs) = n1) by (unfold bs; rewrite length_take; lia).
  set (i3 := set_islock initsleeplock i2). set (v1 := set_foff (f_off v + n1) v).
  set (k1 := Ks (Fstate (relog b2 []) (<[p := i3]> (icache (kfs k)))) (<[Z.to_nat f := v1]> (ftable k)) (pipes k) (kpages k)
               (txns k ++ [logged b2])).
  exists k1, i3. split; [|split; [|split]].
  - cbn [filewrite_loop]. rewrite (proj2 (Z.ltb_lt _ _)) by lia. rewrite Z.gtb_ltb.
    assert (En1 : (if write_max <? n - j then write_max else n - j) = n1) by (destruct (Z.ltb_spec write_max (n - j)); lia).
    rewrite En1. change (fat (begin_op k) f) with (fat k f). rewrite Hv, run_Ok, Hip. change (kfs (begin_op k)) with s0.
    rewrite El, run_Ok, Ew, run_Ok. cbn iota. rewrite (s32_id n1) by (unfold in_s32; lia).
    rewrite Z.gtb_ltb, (proj2 (Z.ltb_lt 0 n1)) by lia.
    rewrite (fset_Ok (begin_op k) f v) by done. rewrite run_Ok, Eu, run_Ok.
    rewrite (proj2 (Z.ltb_ge n1 0)) by lia. rewrite Z.eqb_refl. cbn [negb].
    assert (Eu32 : u32 (f_off v + n1) = f_off v + n1) by (apply Z.mod_small; lia). rewrite Eu32. reflexivity.
  - assert (Hf1 : fat k1 f = Ok v1) by exact (fat_set k f v v1 Hv).
    constructor.
    + exact (written_ready s0 p i (f_off v) bs b2 i2 _ [] Hrd0 Hw).
    + rewrite Hf1. unfold v1. by rewrite Hbs.
    + apply Hw.
    + change (isize i3) with (isize i2). rewrite (wr_inode _ _ _ _ _ _ Hw). done.
    + exact (wr_contents _ _ _ _ _ _ Hw).
    + intros x Hx Hap. assert (Hx0 : file_ok (fb s0) x) by (by apply file_ok_relog).
      destruct (wr_others _ _ _ _ _ _ Hw x Hx0 Hap) as (E1 & E2 & E3).
      split; [exact E1|]. split; [by apply file_ok_relog|exact E3].
    + intros x Hx Hne Hs. exact (wr_synced_others _ _ _ _ _ _ Hw x Hx Hne Hs).
    + change (inum i3) with (inum i2). rewrite (wr_inode _ _ _ _ _ _ Hw). done.
  - exists (logged b2). constructor; [done| | |done].
    + pose proof (written_distinct _ _ _ _ _ _ (rd_fs _ _ _ Hrd0) (rd_small _ _ _ Hrd0) eq_refl (proj1 Ho) Hw) as Hd.
      rewrite Hbs in Hd. pose proof (span_chunk (f_off v) n1 (proj1 Ho) ltac:(lia)). unfold MAXOPBLOCKS. lia.
    + intros x Hx Hn. exact (cv_same _ _ Hcov x Hx Hn).
  - exact Hleft.
Qed.

Lemma filewrite_loop_spec fuel : forall k f v (p : nat) i addr j n,
  ready (kfs k) p i -> fat k f = Ok v -> f_ip v = Z.of_nat p -> 0 <= f_off v <= isize i ->
  0 <= j <= n -> n - j < Z.of_nat fuel -> n <= Z.of_nat (length addr) -> f_off v + (n - j) <= MAXFILE * BSIZE ->
  (write_need (fb (kfs k)) i (f_off v) (n - j) <= nfree (fb (kfs k)))%nat ->
  exists l k' i', filewrite_loop me dev_write fuel k f addr j n = Ok (n, k') /\ passes f p k v i l k' i' /\
    mjoin l = take (Z.to_nat (n - j)) (drop (Z.to_nat j) addr) /\ advanced k f v p i (mjoin l) k' i'.
Proof.
  induction fuel as [|fuel IH]; intros k f v p i addr j n Hrd Hv Hip Ho Hj Hfuel Hlen Hfit Hneed; [lia|].
  destruct (decide (j = n)) as [->|Hne].
  { cbn [filewrite_loop]. rewrite Z.ltb_irrefl, Z.sub_diag. exists [], k, i. split; [done|].
    split; [constructor|]. split; [done|]. by apply advanced_nil. }
  destruct (filewrite_pass fuel k f v p i addr j n) as (k1 & i1 & -> & Had & (t & Htx) & Hleft); try done; try lia.
  set (n1 := Z.min (n - j) write_max) in *. assert (Hwm : write_max = 1536) by done.
  set (bs := take (Z.to_nat n1) (drop (Z.to_nat j) addr)) in *.
  assert (Hbs : Z.of_nat (length bs) = n1) by (unfold bs; rewrite length_take, length_drop; lia).
  pose proof Had as [Hr1 Hf1 _ Hs1 _ _ _ _]. rewrite Hbs in *.
  destruct (IH k1 f (set_foff (f_off v + n1) v) p i1 addr (j + n1) n) as (l & k' & i' & -> & Hps & El & Had'); try done; cbn [set_foff f_off]; try lia.
  { by replace (n - (j + n1)) with (n - j - n1) by lia. }
  exists (bs :: l), k', i'. split; [done|]. split; [apply (passes_cons f p k v i bs t k1 i1); rewrite ?Hbs; done || lia|].
  change (mjoin (bs :: l)) with (bs ++ mjoin l). split; [|apply (advanced_app k f v p i bs k1 i1); [done|done|by rewrite Hbs]].
  rewrite El. unfold bs. replace (Z.to_nat (n - j)) with (Z.to_nat n1 + Z.to_nat (n - (j + n1)))%nat by lia.
  rewrite <- take_take_drop, drop_drop. do 3 f_equal. lia.
Qed.

(** C5: [filewrite] to a file of the disk.  It writes all [n] bytes at the
    offset of the file, which it advances; the contents of the inode, its copy
    on disk and the other files are as after one [writei].  The work is done in
    transactions ([passes]): the bytes are cut into pieces of at most
    [write_max], and each piece is written by a finished transaction of at most
    [MAXOPBLOCKS] different blocks, the space [begin_op] reserves, outside of
    which the disk does not change; between two of them the file holds the pieces
    written so far. *)
Theorem filewrite_transactions (killed : bool) k f v (p : nat) i addr n :
  ready (kfs k) p i -> fat k f = Ok v -> f_writable v = true -> f_type v = FD_INODE -> f_ip v = Z.of_nat p ->
  0 <= f_off v <= isize i -> 0 <= n <= Z.of_nat (length addr) -> f_off v + n <= MAXFILE * BSIZE ->
  (write_need (fb (kfs k)) i (f_off v) n <= nfree (fb (kfs k)))%nat ->
  exists l k' i', filewrite me killed dev_write k f addr n = Ok (n, k') /\ passes f p k v i l k' i' /\
    mjoin l = take (Z.to_nat n) addr /\ advanced k f v p i (take (Z.to_nat n) addr) k' i'.
Proof.
  intros Hrd Hv Hwr Hty Hip Ho Hn Hfit Hneed. unfold filewrite. rewrite Hv, run_Ok, Hwr, Hty. cbn [negb].
  destruct (filewrite_loop_spec (S (Z.to_nat n)) k f v p i addr 0 n) as (l & k' & i' & -> & Hps & El & Had); try done; try lia.
  - by rewrite Z.sub_0_r.
  - rewrite Z.sub_0_r in El. change (drop (Z.to_nat 0) addr) with addr in El. rewrite El in Had.
    rewrite run_Ok, Z.eqb_refl. by exists l, k', i'.
Qed.

End write.

(** ** A write on the small disk *)

Definition demo_ks : ks :=
  Ks (demo_cache 1) [File FD_INODE 1 true true 0 0 0] ∅ [] [].

Lemma demo_ready : ready (kfs demo_ks) 0 demo_inode.
Proof.
  constructor; first [exact demo_fs|exact demo_file|exact demo_fields|exact demo_synced|done].
Qed.

Lemma filewrite_transactions_witness :
  exists l k' i', filewrite 7 false (fun _ => None) demo_ks 0 (replicate 2000 5) 2000 = Ok (2000, k') /\ mjoin l = replicate 2000 5 /\
    contents (fb (kfs k')) i' = replicate 2000 5.
Proof.
  destruct (filewrite_transactions 7 (fun _ => None) false demo_ks 0 (File FD_INODE 1 true true 0 0 0) 0 demo_inode
    (replicate 2000 5) 2000) as (l & k' & i' & Hw & _ & El & Had).
  - exact demo_ready.
  - reflexivity.
  - reflexivity.
  - reflexivity.
  - reflexivity.
  - split; done.
  - rewrite length_replicate. lia.
  - done.
  - apply Nat.leb_le. vm_compute. reflexivity.
  - exists l, k', i'. split; [exact Hw|]. split; [exact El|]. rewrite (ad_contents _ _ _ _ _ _ _ _ Had). reflexivity.
Defined.
