(* ===== verification/Xv6Sysfile.v ===== *)
(** File-system calls (src/설계 3번/xv6/sysfile.c): definitions.

    A call fetches its arguments from user memory ([Xv6Syscall]), works on the
    open files and the file system ([Xv6File], [Xv6Dir]) and may store results
    in user memory.  The descriptors of the process are [ofile]; a system call
    is one transaction between [begin_op] and [end_op]. *)

From S2P Require Import Prelude Bytes Xv6Locks Xv6String Xv6Fs Xv6Dir Xv6Syscall Xv6File.

Definition O_RDONLY : Z := 0.
Definition O_WRONLY : Z := 1.
Definition O_RDWR : Z := 2.
Definition O_CREATE : Z := 512.
Definition MAXARG : nat := 32.

(** The running process and the kernel. *)
Record sk := Sk { kst : ks; ofile : list (option Z); cwd : Z; usr : user }.

Definition set_kst v s := Sk v (ofile s) (cwd s) (usr s).
Definition set_ofile v s := Sk (kst s) v (cwd s) (usr s).
Definition set_cwd v s := Sk (kst s) (ofile s) v (usr s).
Definition set_fs v s := set_kst (set_kfs v (kst s)) s.

(** Stores into user memory at a checked address. *)
Definition store_bytes (m : Z -> Z) (a : Z) (bs : list Z) : Z -> Z :=
  fun x => if (a <=? x) && (x <? a + Z.of_nat (length bs)) then default 0 (bs !! Z.to_nat (x - a)) else m x.
Definition poke (a : Z) (bs : list Z) (s : sk) : sk :=
  Sk (kst s) (ofile s) (cwd s) (User (usz (usr s)) (uesp (usr s)) (store_bytes (umem (usr s)) a bs)).

(** A user string with its NUL. *)
Definition user_string (s : sk) (p : Z * Z) : list Z := user_bytes (usr s) p.1 (p.2 + 1).

(** The descriptor and the file. *)
Definition argfd (s : sk) (n : Z) : option (Z * Z) :=
  fd ← argint (usr s) n;
  if (fd <? 0) || (fd >=? Z.of_nat NOFILE) then None
  else f ← mjoin (ofile s !! Z.to_nat fd); Some (fd, f).

(** The first free descriptor. *)
Fixpoint find_fd (l : list (option Z)) (fd : Z) : option Z :=
  match l with
  | [] => None
  | None :: _ => Some fd
  | Some _ :: l' => find_fd l' (fd + 1)
  end.

Definition fdalloc (s : sk) (f : Z) : Z * sk :=
  match find_fd (ofile s) 0 with
  | Some fd => (fd, set_ofile (<[Z.to_nat fd := Some f]> (ofile s)) s)
  | None => (-1, s)
  end.

Definition sys_dup (s : sk) : res (Z * sk) :=
  match argfd s 0 with
  | None => Ok (-1, s)
  | Some (_, f) =>
      let '(fd, s) := fdalloc s f in
      if fd <? 0 then Ok (-1, s)
      else k ← filedup (kst s) f; Ok (fd, set_kst k s)
  end.

Section calls.
Context (me : Z) (killed : bool).
Context (dev_read : Z -> option (Z -> Z * list Z)) (dev_write : Z -> option (list Z -> Z)).
Context (page_data : Z -> list Z).

Definition sys_read (s : sk) : res (Z * sk) :=
  match argfd s 0, argint (usr s) 2 with
  | Some (_, f), Some n =>
      match argptr (usr s) 1 n with
      | Some p =>
          '(r, bs, k) ← fileread me killed dev_read (kst s) f n;
          Ok (r, poke p bs (set_kst k s))
      | None => Ok (-1, s)
      end
  | _, _ => Ok (-1, s)
  end.

Definition sys_write (s : sk) : res (Z * sk) :=
  match argfd s 0, argint (usr s) 2 with
  | Some (_, f), Some n =>
      match argptr (usr s) 1 n with
      | Some p =>
          '(r, k) ← filewrite me killed dev_write (kst s) f (user_bytes (usr s) p n) n;
          Ok (r, set_kst k s)
      | None => Ok (-1, s)
      end
  | _, _ => Ok (-1, s)
  end.

Definition sys_close (s : sk) : res (Z * sk) :=
  match argfd s 0 with
  | None => Ok (-1, s)
  | Some (fd, f) =>
      let s := set_ofile (<[Z.to_nat fd := None]> (ofile s)) s in
      k ← fileclose me (kst s) f;
      Ok (0, set_kst k s)
  end.

Definition STAT : Z := 20.

(** The fields of a [struct stat]; its padding keeps what it holds. *)
Definition poke_stat (p : Z) (st : stat) (s : sk) : sk :=
  poke (p + 16) (le32 (st_size st)) (poke (p + 12) (le16 (st_nlink st))
    (poke (p + 8) (le32 (st_ino st)) (poke (p + 4) (le32 (st_dev st)) (poke p (le16 (st_type st)) s)))).

Definition sys_fstat (s : sk) : res (Z * sk) :=
  match argfd s 0, argptr (usr s) 1 STAT with
  | Some (_, f), Some p =>
      '(st, k) ← filestat me (kst s) f;
      let s := set_kst k s in
      match st with Some st => Ok (0, poke_stat p st s) | None => Ok (-1, s) end
  | _, _ => Ok (-1, s)
  end.

Definition start (s : sk) : sk := set_kst (begin_op (kst s)) s.
Definition finish (s : sk) : sk := set_kst (end_op (kst s)) s.

(** [namei] and [nameiparent] from the working directory of the process. *)
Definition lookup_path (s : sk) (path : list Z) : res (option Z * sk) :=
  '(ip, fs) ← namei me dev_read (cwd s) (kfs (kst s)) path;
  Ok (ip, set_fs fs s).

Definition lookup_parent (s : sk) (path : list Z) : res (option Z * list Z * sk) :=
  '(dp, name, fs) ← nameiparent me dev_read (cwd s) (kfs (kst s)) path (replicate DIRSIZ 0);
  Ok (dp, name, set_fs fs s).

(** An operation of fs.c on the state of the call. *)
Definition on_fs (s : sk) (f : fstate -> res fstate) : res sk := fs ← f (kfs (kst s)); Ok (set_fs fs s).
Definition inode_of (s : sk) (ip : Z) : res inode := iat (kfs (kst s)) ip.

(** [ip->nlink += d; iupdate(ip);] on a locked inode; [nlink] is a
    [short]. *)
Definition add_nlink (ip d : Z) (s : fstate) : res fstate :=
  i ← iat s ip;
  let i := set_nlink (s16 (inlink i + d)) i in
  b ← iupdate (fb s) i;
  iset (set_fb b s) ip i.

(** The label [bad] of [sys_link]. *)
Definition link_bad (s : sk) (ip : Z) : res (Z * sk) :=
  s ← on_fs s (fun fs => ilock me fs ip);
  s ← on_fs s (add_nlink ip (-1));
  s ← on_fs s (fun fs => iunlockput me fs ip);
  Ok (-1, finish s).

Definition sys_link (s : sk) : res (Z * sk) :=
  match argstr (usr s) 0, argstr (usr s) 1 with
  | Some old, Some new =>
      let old := user_string s old in
      let new := user_string s new in
      let s := start s in
      '(ip, s) ← lookup_path s old;
      match ip with
      | None => Ok (-1, finish s)
      | Some ip =>
          s ← on_fs s (fun fs => ilock me fs ip);
          i ← inode_of s ip;
          if itype i =? T_DIR then
            s ← on_fs s (fun fs => iunlockput me fs ip); Ok (-1, finish s)
          else
            s ← on_fs s (add_nlink ip 1);
            s ← on_fs s (fun fs => iunlock me fs ip);
            '(dp, name, s) ← lookup_parent s new;
            match dp with
            | None => link_bad s ip
            | Some dp =>
                s ← on_fs s (fun fs => ilock me fs dp);
                d ← inode_of s dp;
                i ← inode_of s ip;
                '(r, s) ← (if negb (idev d =? idev i) then Ok (-1, s)
                           else '(r, fs) ← dirlink me dev_read dev_write (kfs (kst s)) dp name (inum i); Ok (r, set_fs fs s));
                if r <? 0 then
                  s ← on_fs s (fun fs => iunlockput me fs dp); link_bad s ip
                else
                  s ← on_fs s (fun fs => iunlockput me fs dp);
                  s ← on_fs s (fun fs => iput me fs ip);
                  Ok (0, finish s)
            end
      end
  | _, _ => Ok (-1, s)
  end.

(** The loop of [isdirempty] from [off]. *)
Fixpoint isdirempty_loop (fuel : nat) (s : fstate) (dp off : Z) : res (bool * fstate) :=
  match fuel with
  | O => Stuck OutOfFuel
  | S fuel' =>
      d ← iat s dp;
      if off <? isize d then
        '(r, de, s) ← readi_at dev_read s dp off DIRENT;
        if negb (r =? DIRENT) then Stuck Panicked
        else if negb (de_inum de =? 0) then Ok (false, s)
        else isdirempty_loop fuel' s dp (off + DIRENT)
      else Ok (true, s)
  end.

Definition isdirempty (s : fstate) (dp : Z) : res (bool * fstate) :=
  d ← iat s dp;
  isdirempty_loop (dir_fuel d) s dp (2 * DIRENT).

Definition DOT : list Z := [46; 0].
Definition DOTDOT : list Z := [46; 46; 0].

(** The label [bad] of [sys_unlink]. *)
Definition unlink_bad (s : sk) (dp : Z) : res (Z * sk) :=
  s ← on_fs s (fun fs => iunlockput me fs dp); Ok (-1, finish s).

Definition sys_unlink (s : sk) : res (Z * sk) :=
  match argstr (usr s) 0 with
  | None => Ok (-1, s)
  | Some path =>
      let path := user_string s path in
      let s := start s in
      '(dp, name, s) ← lookup_parent s path;
      match dp with
      | None => Ok (-1, finish s)
      | Some dp =>
          s ← on_fs s (fun fs => ilock me fs dp);
          c1 ← namecmp name DOT;
          c2 ← (if c1 =? 0 then Ok 0 else namecmp name DOTDOT);
          if c2 =? 0 then unlink_bad s dp
          else
            '(found, fs) ← dirlookup dev_read (kfs (kst s)) dp name;
            let s := set_fs fs s in
            match found with
            | None => unlink_bad s dp
            | Some (ip, off) =>
                s ← on_fs s (fun fs => ilock me fs ip);
                i ← inode_of s ip;
                if inlink i <? 1 then Stuck Panicked
                else
                  '(empty, s) ← (if itype i =? T_DIR then
                                   '(e, fs) ← isdirempty (kfs (kst s)) ip; Ok (e, set_fs fs s)
                                 else Ok (true, s));
                  if negb empty then
                    s ← on_fs s (fun fs => iunlockput me fs ip); unlink_bad s dp
                  else
                    '(r, fs) ← writei_at dev_write (kfs (kst s)) dp (replicate (Z.to_nat DIRENT) 0) off DIRENT;
                    if negb (r =? DIRENT) then Stuck Panicked
                    else
                      let s := set_fs fs s in
                      s ← (if itype i =? T_DIR then on_fs s (add_nlink dp (-1)) else Ok s);
                      s ← on_fs s (fun fs => iunlockput me fs dp);
                      s ← on_fs s (add_nlink ip (-1));
                      s ← on_fs s (fun fs => iunlockput me fs ip);
                      Ok (0, finish s)
            end
      end
  end.

(** [create]: the locked inode. *)
Definition create (s : sk) (path : list Z) (type major minor : Z) : res (option Z * sk) :=
  '(dp, name, s) ← lookup_parent s path;
  match dp with
  | None => Ok (None, s)
  | Some dp =>
      s ← on_fs s (fun fs => ilock me fs dp);
      '(found, fs) ← dirlookup dev_read (kfs (kst s)) dp name;
      let s := set_fs fs s in
      match found with
      | Some (ip, _) =>
          s ← on_fs s (fun fs => iunlockput me fs dp);
          s ← on_fs s (fun fs => ilock me fs ip);
          i ← inode_of s ip;
          if (type =? T_FILE) && (itype i =? T_FILE) then Ok (Some ip, s)
          else s ← on_fs s (fun fs => iunlockput me fs ip); Ok (None, s)
      | None =>
          d ← inode_of s dp;
          '(ip, fs) ← ialloc (kfs (kst s)) (idev d) type;
          s ← on_fs (set_fs fs s) (fun fs => ilock me fs ip);
          i ← inode_of s ip;
          let i := set_nlink 1 (set_majmin (s16 major) (s16 minor) i) in
          b ← iupdate (fb (kfs (kst s))) i;
          s ← on_fs s (fun fs => iset (set_fb b fs) ip i);
          s ← (if type =? T_DIR then
                 s ← on_fs s (add_nlink dp 1);
                 '(r, fs) ← dirlink me dev_read dev_write (kfs (kst s)) ip DOT (inum i);
                 if r <? 0 then Stuck Panicked
                 else
                   d ← iat fs dp;
                   '(r, fs) ← dirlink me dev_read dev_write fs ip DOTDOT (inum d);
                   if r <? 0 then Stuck Panicked else Ok (set_fs fs s)
               else Ok s);
          '(r, fs) ← dirlink me dev_read dev_write (kfs (kst s)) dp name (inum i);
          if r <? 0 then Stuck Panicked
          else
            s ← on_fs (set_fs fs s) (fun fs => iunlockput me fs dp);
            Ok (Some ip, s)
      end
  end.

(** The failure of [filealloc] or [fdalloc] in [sys_open]. *)
Definition open_fail (s : sk) (f : option Z) (ip : Z) : res (Z * sk) :=
  s ← match f with Some f => k ← fileclose me (kst s) f; Ok (set_kst k s) | None => Ok s end;
  s ← on_fs s (fun fs => iunlockput me fs ip);
  Ok (-1, finish s).

Definition sys_open (s : sk) : res (Z * sk) :=
  match argstr (usr s) 0, argint (usr s) 1 with
  | Some path, Some omode =>
      let path := user_string s path in
      let s := start s in
      '(ip, s) ← (if negb (Z.land omode O_CREATE =? 0) then create s path T_FILE 0 0
                  else
                    '(ip, s) ← lookup_path s path;
                    match ip with
                    | None => Ok (None, s)
                    | Some ip =>
                        s ← on_fs s (fun fs => ilock me fs ip);
                        i ← inode_of s ip;
                        if (itype i =? T_DIR) && negb (omode =? O_RDONLY)
                        then s ← on_fs s (fun fs => iunlockput me fs ip); Ok (None, s)
                        else Ok (Some ip, s)
                    end);
      match ip with
      | None => Ok (-1, finish s)
      | Some ip =>
          '(f, k) ← filealloc (kst s);
          let s := set_kst k s in
          match f with
          | None => open_fail s None ip
          | Some f =>
              let '(fd, s) := fdalloc s f in
              if fd <? 0 then open_fail s (Some f) ip
              else
                s ← on_fs s (fun fs => iunlock me fs ip);
                let s := finish s in
                v ← fat (kst s) f;
                k ← fset (kst s) f
                      (File FD_INODE (f_ref v) (Z.land omode O_WRONLY =? 0)
                         (negb (Z.land omode O_WRONLY =? 0) || negb (Z.land omode O_RDWR =? 0)) (f_pipe v) ip 0);
                Ok (fd, set_kst k s)
          end
      end
  | _, _ => Ok (-1, s)
  end.

(** The common end of [sys_mkdir] and [sys_mknod]. *)
Definition finish_create (s : sk) (ip : option Z) : res (Z * sk) :=
  match ip with
  | None => Ok (-1, finish s)
  | Some ip => s ← on_fs s (fun fs => iunlockput me fs ip); Ok (0, finish s)
  end.

Definition sys_mkdir (s : sk) : res (Z * sk) :=
  let s := start s in
  match argstr (usr s) 0 with
  | None => Ok (-1, finish s)
  | Some path => '(ip, s) ← create s (user_string s path) T_DIR 0 0; finish_create s ip
  end.

Definition sys_mknod (s : sk) : res (Z * sk) :=
  let s := start s in
  match argstr (usr s) 0, argint (usr s) 1, argint (usr s) 2 with
  | Some path, Some major, Some minor =>
      '(ip, s) ← create s (user_string s path) T_DEV major minor; finish_create s ip
  | _, _, _ => Ok (-1, finish s)
  end.

Definition sys_chdir (s : sk) : res (Z * sk) :=
  let s := start s in
  match argstr (usr s) 0 with
  | None => Ok (-1, finish s)
  | Some path =>
      '(ip, s) ← lookup_path s (user_string s path);
      match ip with
      | None => Ok (-1, finish s)
      | Some ip =>
          s ← on_fs s (fun fs => ilock me fs ip);
          i ← inode_of s ip;
          if negb (itype i =? T_DIR) then
            s ← on_fs s (fun fs => iunlockput me fs ip); Ok (-1, finish s)
          else
            s ← on_fs s (fun fs => iunlock me fs ip);
            s ← on_fs s (fun fs => iput me fs (cwd s));
            Ok (0, set_cwd ip (finish s))
      end
  end.

(** The loop of [sys_exec] that collects [argv], with [k] slots left. *)
Fixpoint fetch_argv (k : nat) (u : user) (a : Z) : option (list (list Z)) :=
  match k with
  | O => None
  | S k' =>
      uarg ← fetchint u (u32 a);
      if uarg =? 0 then Some []
      else
        len ← fetchstr u (u32 uarg);
        rest ← fetch_argv k' u (a + 4);
        Some (user_bytes u (u32 uarg) (len + 1) :: rest)
  end.

(** The path and arguments [sys_exec] gives to [exec], or -1. *)
Definition exec_args (s : sk) : option (list Z * list (list Z)) :=
  path ← argstr (usr s) 0;
  uargv ← argint (usr s) 1;
  argv ← fetch_argv MAXARG (usr s) (u32 uargv);
  Some (user_string s path, argv).

Definition sys_pipe (s : sk) : res (Z * sk) :=
  match argptr (usr s) 0 8 with
  | None => Ok (-1, s)
  | Some fd =>
      '(r, k) ← pipealloc me page_data (kst s);
      let s := set_kst k s in
      match r with
      | None => Ok (-1, s)
      | Some (rf, wf) =>
          let '(fd0, s) := fdalloc s rf in
          let '(fd1, s) := (if fd0 <? 0 then (-1, s) else fdalloc s wf) in
          if (fd0 <? 0) || (fd1 <? 0) then
            let s := if fd0 >=? 0 then set_ofile (<[Z.to_nat fd0 := None]> (ofile s)) s else s in
            k ← fileclose me (kst s) rf;
            k ← fileclose me k wf;
            Ok (-1, set_kst k s)
          else Ok (0, poke (fd + 4) (le32 fd1) (poke fd (le32 fd0) s))
      end
  end.

End calls.
