(* ===== verification/Xv6Fds.v ===== *)
(** File descriptors, open files and pipes: the reference counts of the file
    table and the life of pipes, under [sys_dup], [sys_close] and
    [sys_pipe]. *)

From S2P Require Import Prelude Bytes Xv6Locks Xv6Pipe Xv6Fs Xv6Dir Xv6Syscall Xv6File Xv6FileIo Xv6Sysfile.

(** The descriptors that refer to file [f]. *)
Definition count (f : Z) (l : list (option Z)) : Z := Z.of_nat (length (filter (fun o => o = Some f) l)).

Lemma count_insert f l (fd : nat) o x :
  l !! fd = Some o ->
  count f (<[fd := x]> l) = count f l - (if decide (o = Some f) then 1 else 0) + (if decide (x = Some f) then 1 else 0).
Proof.
  intros H. unfold count. rewrite insert_take_drop by (by eapply lookup_lt_Some).
  rewrite <- (take_drop_middle l fd o H) at 3. rewrite !filter_app, !filter_cons, !length_app.
  case_decide; case_decide; cbn [length]; lia.
Qed.

Lemma count_bound f l : 0 <= count f l <= Z.of_nat (length l).
Proof. unfold count. pose proof (length_filter (fun o => o = Some f) l). lia. Qed.

Lemma count_pos f l (fd : nat) : l !! fd = Some (Some f) -> 0 < count f l.
Proof.
  intros H. unfold count. assert (Hin : Some f ∈ filter (fun o => o = Some f) l).
  { apply list_elem_of_filter. split; [done|]. by eapply list_elem_of_lookup_2. }
  destruct (filter _ l); [by apply elem_of_nil in Hin|]. cbn [length]. lia.
Qed.

(** The end of pipe [p] that a file is. *)
Definition is_end (v : file) (p : Z) (writable : bool) : Prop :=
  f_type v = FD_PIPE /\ f_pipe v = p /\ f_writable v = writable.

Definition end_open (pp : pipe) (writable : bool) : Z := if writable then writeopen pp else readopen pp.

Record fd_ok (s : sk) : Prop := FdOk {
  o_len : length (ofile s) = NOFILE;
  o_range : forall (fd : nat) f, ofile s !! fd = Some (Some f) -> 0 <= f < Z.of_nat (length (ftable (kst s)));
  o_ref : forall (f : nat) v, ftable (kst s) !! f = Some v -> f_ref v = count (Z.of_nat f) (ofile s);
  o_none : forall (f : nat) v, ftable (kst s) !! f = Some v -> f_ref v = 0 -> f_type v = FD_NONE;
  o_pipe : forall (f : nat) v p w, ftable (kst s) !! f = Some v -> is_end v p w ->
    exists pp, pipes (kst s) !! p = Some pp /\ end_open pp w = 1;
  o_ends : forall (f g : nat) v u p w, ftable (kst s) !! f = Some v -> ftable (kst s) !! g = Some u ->
    is_end v p w -> is_end u p w -> f = g;
  o_open : forall p pp w, pipes (kst s) !! p = Some pp -> end_open pp w <> 0 ->
    exists (f : nat) v, ftable (kst s) !! f = Some v /\ is_end v p w;
  o_live : forall p pp, pipes (kst s) !! p = Some pp -> readopen pp <> 0 \/ writeopen pp <> 0;
  o_pages : NoDup (kpages (kst s)) /\ forall p, p ∈ kpages (kst s) -> pipes (kst s) !! p = None
}.

(** ** Descriptors *)

Lemma find_fd_spec l : forall fd,
  match find_fd l fd with
  | Some r => exists j : nat, r = fd + Z.of_nat j /\ l !! j = Some None /\
      forall i : nat, (i < j)%nat -> exists f, l !! i = Some (Some f)
  | None => forall i : nat, (i < length l)%nat -> exists f, l !! i = Some (Some f)
  end.
Proof.
  induction l as [|o l IH]; intros fd; cbn [find_fd]; [intros i Hi; cbn in Hi; lia|].
  destruct o as [f|].
  - specialize (IH (fd + 1)). destruct (find_fd l (fd + 1)) as [r|].
    + destruct IH as (j & -> & Hj & Hlow). exists (S j). split; [lia|]. split; [done|].
      intros [|i] Hi; [by exists f|]. apply Hlow. lia.
    + intros [|i] Hi; [by exists f|]. apply IH. cbn in Hi. lia.
  - exists 0%nat. split; [lia|]. split; [done|]. intros i Hi. lia.
Qed.

Lemma argfd_spec s n fd f :
  argfd s n = Some (fd, f) -> exists j : nat, fd = Z.of_nat j /\ ofile s !! j = Some (Some f).
Proof.
  unfold argfd. destruct (argint (usr s) n) as [x|]; [|done]. cbn [mbind option_bind].
  destruct (Z.ltb_spec x 0); cbn [orb]; [done|]. destruct (x >=? Z.of_nat NOFILE); [done|].
  destruct (ofile s !! Z.to_nat x) as [[g|]|] eqn:E; cbn; try done. intros [= <- <-].
  exists (Z.to_nat x). split; [lia|done].
Qed.

Lemma fat_nat k (f : nat) v : ftable k !! f = Some v -> fat k (Z.of_nat f) = Ok v.
Proof. apply aget_nat. Qed.

Lemma fset_nat k (f : nat) v v' :
  ftable k !! f = Some v -> fset k (Z.of_nat f) v' = Ok (set_ftable (<[f := v']> (ftable k)) k).
Proof. intros H. rewrite (fset_Ok k (Z.of_nat f) v v' (fat_nat k f v H)). by rewrite Nat2Z.id. Qed.

(** The file behind an open descriptor. *)
Lemma open_file s (fd : nat) f :
  fd_ok s -> ofile s !! fd = Some (Some f) ->
  exists (g : nat) v, f = Z.of_nat g /\ ftable (kst s) !! g = Some v /\ 0 < f_ref v <= 16.
Proof.
  intros H Hfd. pose proof (o_range s H fd f Hfd) as Hr.
  destruct (lookup_lt_is_Some_2 (ftable (kst s)) (Z.to_nat f)) as [v Hv]; [lia|].
  exists (Z.to_nat f), v. split; [lia|]. split; [done|]. rewrite (o_ref s H _ v Hv), Z2Nat.id by lia.
  pose proof (count_pos f (ofile s) fd Hfd). pose proof (count_bound f (ofile s)) as Hb.
  rewrite (o_len s H) in Hb. unfold NOFILE in Hb. lia.
Qed.

(** File [f] of the table is an end of pipe [p]. *)
Definition ends (l : list file) (f : nat) (p : Z) (w : bool) : Prop := exists v, l !! f = Some v /\ is_end v p w.

(** A change of counts and descriptors only. *)
Lemma fd_ok_counts s s' :
  fd_ok s -> (forall f p w, ends (ftable (kst s')) f p w <-> ends (ftable (kst s)) f p w) ->
  pipes (kst s') = pipes (kst s) -> kpages (kst s') = kpages (kst s) -> length (ofile s') = NOFILE ->
  (forall (fd : nat) f, ofile s' !! fd = Some (Some f) -> 0 <= f < Z.of_nat (length (ftable (kst s')))) ->
  (forall (f : nat) v, ftable (kst s') !! f = Some v -> f_ref v = count (Z.of_nat f) (ofile s')) ->
  (forall (f : nat) v, ftable (kst s') !! f = Some v -> f_ref v = 0 -> f_type v = FD_NONE) -> fd_ok s'.
Proof.
  intros [_ _ _ _ Hpipe Hends Hopen Hlive Hpages] Hk Hp Hkp Hlen Hrange Href Hnone.
  constructor; rewrite ?Hp, ?Hkp; try done.
  - intros f v p w Hf Hend. destruct (proj1 (Hk f p w)) as (u & Hu & E); [by exists v|]. by apply (Hpipe f u p w Hu).
  - intros f g v u p w Hf Hg Hv Hu. destruct (proj1 (Hk f p w)) as (v0 & Hv0 & E); [by exists v|].
    destruct (proj1 (Hk g p w)) as (u0 & Hu0 & E'); [by exists u|]. by apply (Hends f g v0 u0 p w Hv0 Hu0).
  - intros p pp w Hpp Ho. destruct (Hopen p pp w Hpp Ho) as (f & v & Hf & Hend).
    destruct (proj2 (Hk f p w)) as (u & Hu & E); [by exists v|]. by exists f, u.
Qed.

Lemma ends_insert l (f : nat) v v' :
  l !! f = Some v -> (forall p w, is_end v' p w <-> is_end v p w) -> forall g p w, ends (<[f := v']> l) g p w <-> ends l g p w.
Proof.
  intros H E g p w. unfold ends. destruct (decide (g = f)) as [->|Hne].
  - rewrite list_lookup_insert_eq by (by eapply lookup_lt_Some). rewrite H. split.
    + intros (u & [= <-] & Hu). exists v. split; [done|]. by apply E.
    + intros (u & [= <-] & Hu). exists v'. split; [done|]. by apply E.
  - by rewrite list_lookup_insert_ne.
Qed.

(** The counts after a descriptor and a file changed. *)
Lemma counts_after s (fd g : nat) o x v v' d :
  fd_ok s -> ofile s !! fd = Some o -> ftable (kst s) !! g = Some v -> f_ref v' = f_ref v + d ->
  d = (if decide (x = Some (Z.of_nat g)) then 1 else 0) - (if decide (o = Some (Z.of_nat g)) then 1 else 0) ->
  (forall f : nat, f <> g -> o <> Some (Z.of_nat f) /\ x <> Some (Z.of_nat f)) ->
  forall (f : nat) u, <[g := v']> (ftable (kst s)) !! f = Some u -> f_ref u = count (Z.of_nat f) (<[fd := x]> (ofile s)).
Proof.
  intros H Hfd Hg Hr Hd Ho f u Hf. rewrite (count_insert _ _ fd o _ Hfd).
  pose proof (lookup_lt_Some _ _ _ Hg) as Hlt. destruct (decide (f = g)) as [->|Hne].
  - rewrite list_lookup_insert_eq in Hf by done. injection Hf as <-. rewrite Hr, (o_ref s H g v Hg). lia.
  - rewrite list_lookup_insert_ne in Hf by done. destruct (Ho f Hne) as [H1 H2].
    rewrite !decide_False by done. rewrite (o_ref s H f u Hf). lia.
Qed.

(** ** sys_dup *)

Lemma sys_dup_Ok s :
  fd_ok s ->
  exists r s', sys_dup s = Ok (r, s') /\ fd_ok s' /\
    (r = -1 /\ s' = s \/
     exists j : nat, r = Z.of_nat j /\ ofile s !! j = Some None /\
       (forall i : nat, (i < j)%nat -> exists f, ofile s !! i = Some (Some f)) /\
       exists fd f, argfd s 0 = Some (fd, f) /\ ofile s' = <[j := Some f]> (ofile s)).
Proof.
  intros H. unfold sys_dup. destruct (argfd s 0) as [[fd f]|] eqn:Ea.
  2: { exists (-1), s. split; [done|]. split; [done|]. by left. }
  destruct (argfd_spec s 0 fd f Ea) as (x & -> & Hx). destruct (open_file s x f H Hx) as (g & v & -> & Hv & Hr).
  unfold fdalloc. pose proof (find_fd_spec (ofile s) 0) as Hfd. destruct (find_fd (ofile s) 0) as [r|].
  2: { exists (-1), s. split; [done|]. split; [done|]. by left. }
  destruct Hfd as (j & -> & Hj & Hlow). rewrite Z.add_0_l. rewrite (proj2 (Z.ltb_ge _ _)) by lia. rewrite Nat2Z.id.
  unfold filedup. cbn [set_ofile kst]. rewrite (fat_nat (kst s) g v Hv), run_Ok.
  rewrite (proj2 (Z.ltb_ge _ _)) by lia. rewrite c_int_Ok by lia. rewrite run_Ok, (fset_nat (kst s) g v _ Hv), run_Ok.
  eexists _, _. split; [reflexivity|]. pose proof (lookup_lt_Some _ _ _ Hv) as Hlt. split; [|right; exists j; eauto 10].
  apply (fd_ok_counts s); cbn [set_kst set_ofile kst ofile set_ftable ftable pipes kpages]; try done.
  - by apply (ends_insert _ _ v).
  - rewrite length_insert. apply (o_len s H).
  - intros fd' f'. rewrite length_insert. destruct (decide (fd' = j)) as [->|Hne].
    + rewrite list_lookup_insert_eq by (by eapply lookup_lt_Some). intros [= <-]. lia.
    + rewrite list_lookup_insert_ne by done. apply (o_range s H).
  - apply (counts_after s j g None (Some (Z.of_nat g)) v _ 1 H Hj Hv); [done|by rewrite decide_True, decide_False|].
    intros f' Hne. split; [done|]. intros [=]. lia.
  - intros f' v'. destruct (decide (f' = g)) as [->|Hne].
    + rewrite list_lookup_insert_eq by done. intros [= <-]. cbn. lia.
    + rewrite list_lookup_insert_ne by done. apply (o_none s H).
Qed.

(** ** sys_close *)

Section close.
Context (me : Z).

(** Closing the last reference to an end of a pipe. *)
Lemma close_pipe_end s (g : nat) v p w :
  fd_ok s -> ftable (kst s) !! g = Some v -> is_end v p w -> forall k,
  ftable k = <[g := File FD_NONE 0 (f_readable v) (f_writable v) (f_pipe v) (f_ip v) (f_off v)]> (ftable (kst s)) ->
  pipes k = pipes (kst s) -> kpages k = kpages (kst s) ->
  exists k', close_pipe k p w = Ok k' /\ ftable k' = ftable k /\
    (forall (f : nat) u p' w', ftable k' !! f = Some u -> is_end u p' w' ->
       exists pp, pipes k' !! p' = Some pp /\ end_open pp w' = 1) /\
    (forall p' pp w', pipes k' !! p' = Some pp -> end_open pp w' <> 0 ->
       exists (f : nat) u, ftable k' !! f = Some u /\ is_end u p' w') /\
    (forall p' pp, pipes k' !! p' = Some pp -> readopen pp <> 0 \/ writeopen pp <> 0) /\
    NoDup (kpages k') /\ (forall p', p' ∈ kpages k' -> pipes k' !! p' = None).
Proof.
  intros H Hg Hend k Hft Hpp Hkp. pose proof (lookup_lt_Some _ _ _ Hg) as Hlt.
  destruct (o_pipe s H g v p w Hg Hend) as (pp & Hp & Ho). destruct (o_pages s H) as [Hnd Hfree].
  assert (Hlk : forall (f : nat) u p' w', ftable k !! f = Some u -> is_end u p' w' -> f <> g /\ ftable (kst s) !! f = Some u).
  { intros f u p' w' Hf (Ht & _). rewrite Hft in Hf. destruct (decide (f = g)) as [->|Hne].
    - rewrite list_lookup_insert_eq in Hf by done. by injection Hf as <-.
    - by rewrite list_lookup_insert_ne in Hf. }
  assert (Hother : forall (f : nat) u p' w', f <> g -> ftable (kst s) !! f = Some u -> is_end u p' w' ->
    ~ (p' = p /\ w' = w)).
  { intros f u p' w' Hne Hf Hu [-> ->]. apply Hne. by apply (o_ends s H f g u v p w). }
  assert (Hfwd : forall p' pp' w', ~ (p' = p /\ w' = w) -> pipes (kst s) !! p' = Some pp' -> end_open pp' w' <> 0 ->
    exists (f : nat) u, ftable k !! f = Some u /\ is_end u p' w').
  { intros p' pp' w' Hne Hp' Ho'. destruct (o_open s H p' pp' w' Hp' Ho') as (f & u & Hf & Hu).
    exists f, u. split; [|done]. rewrite Hft, list_lookup_insert_ne; [done|]. intros ->. apply Hne.
    rewrite Hg in Hf. injection Hf as <-. destruct Hu as (_ & <- & <-), Hend as (_ & <- & <-). done. }
  unfold close_pipe. rewrite Hpp, Hp. unfold pipeclose.
  set (pp1 := if w then Pipe (data pp) (nread pp) (nwrite pp) (readopen pp) 0
              else Pipe (data pp) (nread pp) (nwrite pp) 0 (writeopen pp)).
  assert (Hclosed : end_open pp1 w = 0) by (unfold pp1; by destruct w).
  assert (Hsame : forall w', w' <> w -> end_open pp1 w' = end_open pp w') by (intros w' Hw; unfold pp1; by destruct w, w').
  cbn [fst snd]. destruct ((readopen pp1 =? 0) && (writeopen pp1 =? 0)) eqn:Efree.
  - apply andb_true_iff in Efree as [E1 E2]. zbool.
    exists (set_kpages (p :: kpages k) (set_pipes (delete p (pipes (kst s))) k)).
    split; [done|]. split; [done|]. cbn [set_kpages set_pipes ftable pipes kpages].
    split; [|split; [|split; [|split]]].
    + intros f u p' w' Hf Hu. destruct (Hlk f u p' w' Hf Hu) as [Hne Hf0].
      destruct (o_pipe s H f u p' w' Hf0 Hu) as (pp' & Hp' & Ho'). exists pp'. split; [|done].
      rewrite lookup_delete_ne; [done|]. intros <-. rewrite Hp in Hp'. injection Hp' as <-.
      assert (w' <> w) by (intros ->; by apply (Hother f u p w)).
      rewrite <- Hsame in Ho' by done. destruct w'; cbn in Ho'; lia.
    + intros p' pp' w' Hp' Ho'. apply lookup_delete_Some in Hp' as [Hne Hp'].
      apply (Hfwd p' pp' w'); [intros [-> _]; done|done|done].
    + intros p' pp' Hp'. apply lookup_delete_Some in Hp' as [Hne Hp']. by apply (o_live s H p').
    + rewrite Hkp. constructor; [|done]. intros Hin. rewrite (Hfree p Hin) in Hp. done.
    + rewrite Hkp. intros p' Hin. apply elem_of_cons in Hin as [->|Hin]; [apply lookup_delete_eq|].
      destruct (decide (p' = p)) as [->|Hne]; [apply lookup_delete_eq|]. rewrite lookup_delete_ne by done. by apply Hfree.
  - exists (set_pipes (<[p := pp1]> (pipes (kst s))) k). split; [done|]. split; [done|].
    cbn [set_pipes ftable pipes kpages]. split; [|split; [|split; [|split]]].
    + intros f u p' w' Hf Hu. destruct (Hlk f u p' w' Hf Hu) as [Hne Hf0].
      destruct (o_pipe s H f u p' w' Hf0 Hu) as (pp' & Hp' & Ho'). destruct (decide (p' = p)) as [->|Hne'].
      * exists pp1. split; [apply lookup_insert_eq|]. rewrite Hp in Hp'. injection Hp' as <-.
        rewrite Hsame; [done|]. intros ->. by apply (Hother f u p w).
      * exists pp'. by rewrite lookup_insert_ne.
    + intros p' pp' w' Hp' Ho'. destruct (decide (p' = p)) as [->|Hne'].
      * rewrite lookup_insert_eq in Hp'. injection Hp' as <-. assert (Hw : w' <> w) by (intros ->; lia).
        apply (Hfwd p pp w'); [tauto|done|]. by rewrite <- Hsame.
      * rewrite lookup_insert_ne in Hp' by done. apply (Hfwd p' pp' w'); [tauto|done|done].
    + intros p' pp' Hp'. destruct (decide (p' = p)) as [->|Hne'].
      * rewrite lookup_insert_eq in Hp'. injection Hp' as <-. apply andb_false_iff in Efree as [E|E]; zbool; tauto.
      * rewrite lookup_insert_ne in Hp' by done. by apply (o_live s H p').
    + by rewrite Hkp.
    + rewrite Hkp. intros p' Hin. rewrite lookup_insert_ne; [by apply Hfree|]. intros <-. rewrite (Hfree p Hin) in Hp. done.
Qed.

(** The fields of a closed file. *)
Definition closed (v : file) : file := File FD_NONE 0 (f_readable v) (f_writable v) (f_pipe v) (f_ip v) (f_off v).

Lemma sys_close_Ok s :
  fd_ok s ->
  (forall fd f v, argfd s 0 = Some (fd, f) -> fat (kst s) f = Ok v -> f_ref v = 1 -> f_type v = FD_INODE ->
     exists fs, iput me (clear_logged (kfs (kst s))) (f_ip v) = Ok fs) ->
  exists r s', sys_close me s = Ok (r, s') /\ fd_ok s' /\
    (r = -1 /\ s' = s \/
     exists (j : nat) f, r = 0 /\ argfd s 0 = Some (Z.of_nat j, f) /\ ofile s' = <[j := None]> (ofile s)).
Proof.
  intros H Hino. unfold sys_close. destruct (argfd s 0) as [[fd f]|] eqn:Ea.
  2: { exists (-1), s. split; [done|]. split; [done|]. by left. }
  destruct (argfd_spec s 0 fd f Ea) as (j & -> & Hj). destruct (open_file s j f H Hj) as (g & v & -> & Hv & Hr).
  rewrite Nat2Z.id. pose proof (lookup_lt_Some _ _ _ Hv) as Hlt.
  unfold fileclose. cbn [set_ofile kst]. rewrite (fat_nat (kst s) g v Hv), run_Ok. rewrite (proj2 (Z.ltb_ge _ _)) by lia.
  assert (Hcnt : forall v', f_ref v' = f_ref v - 1 -> forall (f : nat) u,
    <[g := v']> (ftable (kst s)) !! f = Some u -> f_ref u = count (Z.of_nat f) (<[j := None]> (ofile s))).
  { intros v' Hv'. apply (counts_after s j g (Some (Z.of_nat g)) None v v' (-1) H Hj Hv); [lia|by rewrite decide_False, decide_True|].
    intros f Hne. split; [intros [=]; lia|done]. }
  assert (Hrng : forall (v' : file) (fd : nat) f, <[j := None]> (ofile s) !! fd = Some (Some f) ->
    0 <= f < Z.of_nat (length (<[g := v']> (ftable (kst s))))).
  { intros v' fd f. rewrite length_insert. destruct (decide (fd = j)) as [->|Hne].
    - rewrite list_lookup_insert_eq by (by eapply lookup_lt_Some). done.
    - rewrite list_lookup_insert_ne by done. apply (o_range s H). }
  assert (Hno : forall v', (f_ref v' = 0 -> f_type v' = FD_NONE) -> forall (f : nat) u,
    <[g := v']> (ftable (kst s)) !! f = Some u -> f_ref u = 0 -> f_type u = FD_NONE).
  { intros v' Hv' f u. destruct (decide (f = g)) as [->|Hne].
    - rewrite list_lookup_insert_eq by done. by intros [= <-].
    - rewrite list_lookup_insert_ne by done. apply (o_none s H). }
  assert (Hlen : length (<[j := None]> (ofile s)) = NOFILE) by (rewrite length_insert; apply (o_len s H)).
  rewrite Z.gtb_ltb. destruct (Z.ltb_spec 0 (f_ref v - 1)) as [Hgt|Hle].
  { rewrite (fset_nat (kst s) g v _ Hv), run_Ok. eexists 0, _. split; [reflexivity|]. split; [|right; by exists j, (Z.of_nat g)].
    apply (fd_ok_counts s); cbn [set_kst set_ofile kst ofile set_ftable ftable pipes kpages]; try done; try apply Hrng.
    - by apply (ends_insert _ _ v).
    - by apply Hcnt.
    - apply Hno. cbn. lia. }
  fold (closed v). rewrite (fset_nat (kst s) g v _ Hv), run_Ok.
  destruct (f_type v) eqn:Et.
  - eexists 0, _. split; [reflexivity|]. split; [|right; by exists j, (Z.of_nat g)].
    apply (fd_ok_counts s); cbn [set_kst set_ofile kst ofile set_ftable ftable pipes kpages]; try done; try apply Hrng.
    + apply (ends_insert _ _ v); [done|]. unfold is_end, closed. cbn. rewrite Et. done.
    + apply Hcnt. cbn. lia.
    + by apply Hno.
  - destruct (close_pipe_end s g v (f_pipe v) (f_writable v) H Hv ltac:(done) (set_ftable (<[g := closed v]> (ftable (kst s))) (kst s)))
      as (k' & -> & Hft & Hp1 & Hp2 & Hp3 & Hp4 & Hp5); [done|done|done|]. rewrite run_Ok.
    eexists 0, _. split; [reflexivity|]. split; [|right; by exists j, (Z.of_nat g)].
    cbn [set_ftable ftable] in Hft. rewrite Hft in Hp1, Hp2.
    constructor; cbn [set_kst set_ofile kst ofile]; rewrite ?Hft; try done.
    + apply Hrng.
    + apply Hcnt. cbn. lia.
    + by apply Hno.
    + intros f1 f2 v1 v2 p w H1 H2 E1 E2.
      assert (Hlk : forall (f : nat) u, <[g := closed v]> (ftable (kst s)) !! f = Some u -> is_end u p w -> ftable (kst s) !! f = Some u).
      { intros f u Hf (Ht & _). destruct (decide (f = g)) as [->|Hne].
        - rewrite list_lookup_insert_eq in Hf by done. by injection Hf as <-.
        - by rewrite list_lookup_insert_ne in Hf. }
      apply (o_ends s H f1 f2 v1 v2 p w); auto.
  - destruct (Hino _ _ v eq_refl (fat_nat (kst s) g v Hv) ltac:(lia) Et) as (fs & Efs).
    cbn [begin_op set_kfs kfs set_ftable]. rewrite Efs, run_Ok. eexists 0, _. split; [reflexivity|].
    split; [|right; by exists j, (Z.of_nat g)].
    apply (fd_ok_counts s); cbn [set_kst set_ofile kst ofile end_op set_kfs begin_op set_ftable ftable pipes kpages]; try done; try apply Hrng.
    + apply (ends_insert _ _ v); [done|]. unfold is_end, closed. cbn. rewrite Et. split; by intros (? & _).
    + apply Hcnt. cbn. lia.
    + by apply Hno.
Qed.

End close.

(** ** sys_pipe *)

Section pipe.
Context (me : Z) (page_data : Z -> list Z).

Lemma find_file_spec l : forall i,
  match find_file l i with
  | Some r => exists (j : nat) v, r = i + Z.of_nat j /\ l !! j = Some v /\ f_ref v = 0
  | None => forall (j : nat) v, l !! j = Some v -> f_ref v <> 0
  end.
Proof.
  induction l as [|v l IH]; intros i; cbn [find_file]; [done|].
  destruct (Z.eqb_spec (f_ref v) 0) as [E|E].
  - exists 0%nat, v. split; [lia|done].
  - specialize (IH (i + 1)). destruct (find_file l (i + 1)) as [r|].
    + destruct IH as (j & u & -> & Hj & Hz). exists (S j), u. split; [lia|done].
    + intros [|j] u Hj; [by injection Hj as <-|by eapply IH].
Qed.

(** [filealloc] takes an unused file. *)
Lemma filealloc_Ok k :
  filealloc k = Ok (None, k) /\ (forall (j : nat) v, ftable k !! j = Some v -> f_ref v <> 0) \/
  exists (j : nat) v, ftable k !! j = Some v /\ f_ref v = 0 /\
    filealloc k = Ok (Some (Z.of_nat j), set_ftable (<[j := set_fref 1 v]> (ftable k)) k).
Proof.
  unfold filealloc. pose proof (find_file_spec (ftable k) 0) as Hf. destruct (find_file (ftable k) 0) as [r|].
  - destruct Hf as (j & v & -> & Hj & Hz). rewrite Z.add_0_l. right. exists j, v. split; [done|]. split; [done|].
    by rewrite (fat_nat k j v Hj), run_Ok, (fset_nat k j v _ Hj), run_Ok.
  - left. done.
Qed.

(** Closing a file that was just allocated puts the table back. *)
Lemma fileclose_fresh k (j : nat) v :
  ftable k !! j = Some (set_fref 1 v) -> f_ref v = 0 -> f_type v = FD_NONE ->
  fileclose me k (Z.of_nat j) = Ok (set_ftable (<[j := v]> (ftable k)) k).
Proof.
  intros Hj Hr Ht. unfold fileclose. rewrite (fat_nat k j _ Hj), run_Ok. cbn [set_fref f_ref f_type].
  rewrite (proj2 (Z.ltb_ge _ _)) by lia. change (1 - 1 >? 0) with false. cbv zeta iota.
  rewrite (fset_nat k j _ _ Hj), run_Ok, Ht. destruct v; cbn in *; by subst.
Qed.

(** The two files of a new pipe. *)
Definition read_end (v : file) (p : Z) : file := File FD_PIPE 1 true false p (f_ip v) (f_off v).
Definition write_end (v : file) (p : Z) : file := File FD_PIPE 1 false true p (f_ip v) (f_off v).

Lemma set_ftable_back l k : set_ftable (ftable k) (set_ftable l k) = k.
Proof. by destruct k. Qed.

Lemma pipealloc_Ok s :
  fd_ok s ->
  pipealloc me page_data (kst s) = Ok (None, kst s) \/
  exists (a b : nat) va vb p rest, a <> b /\ ftable (kst s) !! a = Some va /\ ftable (kst s) !! b = Some vb /\
    f_ref va = 0 /\ f_ref vb = 0 /\ kpages (kst s) = p :: rest /\
    pipealloc me page_data (kst s) = Ok (Some (Z.of_nat a, Z.of_nat b),
      set_ftable (<[b := write_end vb p]> (<[a := read_end va p]> (ftable (kst s))))
        (set_kpages rest (set_pipes (<[p := pipe_init (page_data p)]> (pipes (kst s))) (kst s)))).
Proof.
  intros H. set (k := kst s). unfold pipealloc.
  destruct (filealloc_Ok k) as [[-> _]|(a & va & Ha & Hra & ->)]; [by left|]. rewrite run_Ok. cbn iota.
  pose proof (lookup_lt_Some _ _ _ Ha) as Hla. set (k1 := set_ftable (<[a := set_fref 1 va]> (ftable k)) k).
  assert (Ha1 : ftable k1 !! a = Some (set_fref 1 va)) by (by apply list_lookup_insert_eq).
  pose proof (o_none s H a va Ha Hra) as Hta.
  destruct (filealloc_Ok k1) as [[-> _]|(b & vb & Hb1 & Hrb & ->)]; rewrite run_Ok; cbn iota.
  { rewrite (fileclose_fresh k1 a va Ha1 Hra Hta), run_Ok. left. unfold k1. cbn [set_ftable ftable].
    rewrite list_insert_insert_eq, list_insert_id by done. by rewrite set_ftable_back. }
  assert (Hne : a <> b) by (intros <-; rewrite Ha1 in Hb1; injection Hb1 as <-; done).
  assert (Hb : ftable k !! b = Some vb) by (unfold k1 in Hb1; cbn in Hb1; by rewrite list_lookup_insert_ne in Hb1).
  pose proof (o_none s H b vb Hb Hrb) as Htb. pose proof (lookup_lt_Some _ _ _ Hb) as Hlb.
  set (k2 := set_ftable (<[b := set_fref 1 vb]> (ftable k1)) k1).
  assert (Ha2 : ftable k2 !! a = Some (set_fref 1 va)) by (unfold k2; cbn [set_ftable ftable]; by rewrite list_lookup_insert_ne).
  assert (Hb2 : ftable k2 !! b = Some (set_fref 1 vb)).
  { unfold k2. cbn [set_ftable ftable]. apply list_lookup_insert_eq. unfold k1. cbn. by rewrite length_insert. }
  change (kpages k2) with (kpages k). destruct (kpages k) as [|p rest] eqn:Ep.
  - rewrite (fileclose_fresh k2 a va Ha2 Hra Hta), run_Ok.
    rewrite (fileclose_fresh (set_ftable (<[a := va]> (ftable k2)) k2) b vb), run_Ok; [|cbn [set_ftable ftable]; by rewrite list_lookup_insert_ne|done|done].
    left. do 2 f_equal. unfold k2, k1. destruct k as [kf ft kp kg kt]. unfold set_ftable. cbn [ftable kfs pipes kpages txns] in *.
    f_equal. apply list_eq. intros x. destruct (decide (x = b)) as [->|Hxb].
    + rewrite list_lookup_insert_eq by (rewrite !length_insert; done). done.
    + rewrite list_lookup_insert_ne by done. destruct (decide (x = a)) as [->|Hxa].
      * rewrite list_lookup_insert_eq by (rewrite !length_insert; done). done.
      * by rewrite !list_lookup_insert_ne by done.
  - right. exists a, b, va, vb, p, rest. split; [done|]. split; [done|]. split; [done|]. split; [done|]. split; [done|].
    split; [done|]. set (k3 := set_kpages rest _).
    rewrite (fat_nat k3 a (set_fref 1 va) Ha2), run_Ok, (fset_nat k3 a (set_fref 1 va) _ Ha2), run_Ok.
    set (k4 := set_ftable _ k3).
    assert (Hb4 : ftable k4 !! b = Some (set_fref 1 vb)) by (unfold k4; cbn [set_ftable ftable]; by rewrite list_lookup_insert_ne).
    rewrite (fat_nat k4 b _ Hb4), run_Ok, (fset_nat k4 b _ _ Hb4), run_Ok. do 2 f_equal.
    unfold k4, k3, k2, k1. destruct k as [kf ft kp kg kt]. unfold set_ftable, set_kpages, set_pipes. cbn [ftable kfs pipes kpages txns] in *.
    f_equal. apply list_eq. intros x. destruct (decide (x = b)) as [->|Hxb].
    + rewrite !list_lookup_insert_eq by (rewrite ?length_insert; done). done.
    + rewrite (list_lookup_insert_ne _ b x) by done. rewrite (list_lookup_insert_ne _ b x) by done.
      destruct (decide (x = a)) as [->|Hxa].
      * rewrite !list_lookup_insert_eq by (rewrite ?length_insert; done). done.
      * by rewrite !list_lookup_insert_ne by done.
Qed.

(** The table after [pipealloc], and the kernel with it. *)
Definition with_ends (k : ks) (a b : nat) va vb p rest : ks :=
  set_ftable (<[b := write_end vb p]> (<[a := read_end va p]> (ftable k)))
    (set_kpages rest (set_pipes (<[p := pipe_init (page_data p)]> (pipes k)) k)).

(** Closing both ends of a new pipe gives the page back. *)
Lemma close_both k (a b : nat) va vb p rest :
  a <> b -> ftable k !! a = Some va -> ftable k !! b = Some vb -> pipes k !! p = None ->
  exists k1 k2, fileclose me (with_ends k a b va vb p rest) (Z.of_nat a) = Ok k1 /\ fileclose me k1 (Z.of_nat b) = Ok k2 /\
    ftable k2 = <[b := closed (write_end vb p)]> (<[a := closed (read_end va p)]> (ftable k)) /\
    pipes k2 = pipes k /\ kpages k2 = p :: rest.
Proof.
  intros Hne Ha Hb Hp. pose proof (lookup_lt_Some _ _ _ Ha) as Hla. pose proof (lookup_lt_Some _ _ _ Hb) as Hlb.
  set (k0 := with_ends k a b va vb p rest).
  assert (Ha0 : ftable k0 !! a = Some (read_end va p)).
  { unfold k0, with_ends. cbn [set_ftable ftable]. rewrite list_lookup_insert_ne by done. by apply list_lookup_insert_eq. }
  assert (Hb0 : ftable k0 !! b = Some (write_end vb p)).
  { unfold k0, with_ends. cbn [set_ftable ftable]. apply list_lookup_insert_eq. by rewrite length_insert. }
  set (pp1 := Pipe (page_data p) 0 0 0 1).
  set (k1 := set_pipes (<[p := pp1]> (<[p := pipe_init (page_data p)]> (pipes k))) (set_ftable (<[a := closed (read_end va p)]> (ftable k0)) k0)).
  exists k1. eexists. split; [|split; [|split; [|split]]].
  - unfold fileclose. rewrite (fat_nat k0 a _ Ha0), run_Ok. change (f_ref (read_end va p)) with 1. change (1 <? 1) with false.
    change (1 - 1 >? 0) with false. cbv zeta iota. rewrite (fset_nat k0 a _ _ Ha0), run_Ok.
    change (f_type (read_end va p)) with FD_PIPE. cbv iota. unfold close_pipe.
    change (pipes _) with (<[p := pipe_init (page_data p)]> (pipes k)) at 1. change (f_pipe (read_end va p)) with p.
    rewrite lookup_insert_eq. reflexivity.
  - assert (Hb1 : ftable k1 !! b = Some (write_end vb p)).
    { unfold k1. cbn [set_pipes set_ftable ftable]. by rewrite list_lookup_insert_ne. }
    unfold fileclose. rewrite (fat_nat k1 b _ Hb1), run_Ok. change (f_ref (write_end vb p)) with 1. change (1 <? 1) with false.
    change (1 - 1 >? 0) with false. cbv zeta iota. rewrite (fset_nat k1 b _ _ Hb1), run_Ok.
    change (f_type (write_end vb p)) with FD_PIPE. cbv iota. unfold close_pipe.
    change (pipes _) with (<[p := pp1]> (<[p := pipe_init (page_data p)]> (pipes k))) at 1. change (f_pipe (write_end vb p)) with p.
    rewrite lookup_insert_eq. reflexivity.
  - cbn [set_kpages set_pipes set_ftable ftable]. unfold k1. cbn [set_pipes set_ftable ftable].
    unfold k0, with_ends. cbn [set_ftable ftable].
    apply list_eq. intros x. destruct (decide (x = b)) as [->|Hxb].
    + by rewrite !list_lookup_insert_eq by (rewrite ?length_insert; done).
    + destruct (decide (x = a)) as [->|Hxa]; [|by rewrite !list_lookup_insert_ne by done].
      rewrite !(list_lookup_insert_ne _ b a) by done.
      by rewrite !list_lookup_insert_eq by (rewrite ?length_insert; done).
  - cbn [set_kpages set_pipes set_ftable pipes]. unfold k1. cbn [set_pipes set_ftable pipes]. unfold k0, with_ends. cbn [set_ftable pipes].
    by rewrite insert_insert_eq, delete_insert_id.
  - done.
Qed.

(** The failure of [fdalloc] for one of the ends. *)
Lemma pipe_undone s (a b : nat) va vb p rest of' :
  fd_ok s -> a <> b -> ftable (kst s) !! a = Some va -> ftable (kst s) !! b = Some vb ->
  f_ref va = 0 -> f_ref vb = 0 -> kpages (kst s) = p :: rest -> of' = ofile s ->
  exists k1 k2, fileclose me (with_ends (kst s) a b va vb p rest) (Z.of_nat a) = Ok k1 /\
    fileclose me k1 (Z.of_nat b) = Ok k2 /\ pipes k2 = pipes (kst s) /\ kpages k2 = kpages (kst s) /\
    forall u, fd_ok (Sk k2 of' (cwd s) u).
Proof.
  intros H Hne Ha Hb Hra Hrb Hpg ->. destruct (o_pages s H) as [_ Hfree].
  assert (Hp : pipes (kst s) !! p = None) by (apply Hfree; rewrite Hpg; left).
  destruct (close_both (kst s) a b va vb p rest Hne Ha Hb Hp) as (k1 & k2 & E1 & E2 & Hft & Hpp & Hkp).
  exists k1, k2. split; [done|]. split; [done|]. split; [done|]. split; [by rewrite Hkp, Hpg|]. intros u.
  pose proof (lookup_lt_Some _ _ _ Ha) as Hla. pose proof (lookup_lt_Some _ _ _ Hb) as Hlb.
  apply (fd_ok_counts s); cbn [kst ofile]; rewrite ?Hft, ?Hpp, ?Hkp; try done.
  - intros f q w. rewrite (ends_insert _ b vb); [apply (ends_insert _ a va); [done|]|by rewrite list_lookup_insert_ne|].
    + pose proof (o_none s H a va Ha Hra). unfold is_end, closed. cbn. split; intros (? & _); congruence.
    + pose proof (o_none s H b vb Hb Hrb). unfold is_end, closed. cbn. intros. split; intros (? & _); congruence.
  - apply (o_len s H).
  - rewrite !length_insert. apply (o_range s H).
  - intros f v. destruct (decide (f = b)) as [->|Hfb]; [|destruct (decide (f = a)) as [->|Hfa]].
    + rewrite list_lookup_insert_eq by (rewrite length_insert; done). intros [= <-]. cbn. by rewrite <- (o_ref s H b vb Hb).
    + rewrite list_lookup_insert_ne, list_lookup_insert_eq by done. intros [= <-]. cbn. by rewrite <- (o_ref s H a va Ha).
    + rewrite !list_lookup_insert_ne by done. apply (o_ref s H).
  - intros f v. destruct (decide (f = b)) as [->|Hfb]; [|destruct (decide (f = a)) as [->|Hfa]].
    + rewrite list_lookup_insert_eq by (rewrite length_insert; done). by intros [= <-].
    + rewrite list_lookup_insert_ne, list_lookup_insert_eq by done. by intros [= <-].
    + rewrite !list_lookup_insert_ne by done. apply (o_none s H).
Qed.

(** A new pipe with its two descriptors. *)
Lemma pipe_made s (a b x y : nat) va vb p rest u :
  fd_ok s -> a <> b -> ftable (kst s) !! a = Some va -> ftable (kst s) !! b = Some vb ->
  f_ref va = 0 -> f_ref vb = 0 -> kpages (kst s) = p :: rest -> x <> y ->
  ofile s !! x = Some None -> ofile s !! y = Some None ->
  fd_ok (Sk (with_ends (kst s) a b va vb p rest) (<[y := Some (Z.of_nat b)]> (<[x := Some (Z.of_nat a)]> (ofile s))) (cwd s) u).
Proof.
  intros H Hne Ha Hb Hra Hrb Hpg Hxy Hx Hy. destruct (o_pages s H) as [Hnd Hfree].
  assert (Hp : pipes (kst s) !! p = None) by (apply Hfree; rewrite Hpg; left).
  pose proof (lookup_lt_Some _ _ _ Ha) as Hla. pose proof (lookup_lt_Some _ _ _ Hb) as Hlb.
  pose proof (lookup_lt_Some _ _ _ Hx) as Hlx. pose proof (lookup_lt_Some _ _ _ Hy) as Hly.
  assert (Hlk : forall (f : nat) v, <[b := write_end vb p]> (<[a := read_end va p]> (ftable (kst s))) !! f = Some v ->
    f = b /\ v = write_end vb p \/ f = a /\ v = read_end va p \/ f <> a /\ f <> b /\ ftable (kst s) !! f = Some v).
  { intros f v. destruct (decide (f = b)) as [->|Hfb]; [|destruct (decide (f = a)) as [->|Hfa]].
    - rewrite list_lookup_insert_eq by (rewrite length_insert; done). intros [= <-]. by left.
    - rewrite list_lookup_insert_ne, list_lookup_insert_eq by done. intros [= <-]. right; by left.
    - rewrite !list_lookup_insert_ne by done. intros Hv. by right; right. }
  assert (Hold : forall (f : nat) v q w, ftable (kst s) !! f = Some v -> is_end v q w -> f <> a /\ f <> b /\ q <> p).
  { intros f v q w Hf Hend. destruct (o_pipe s H f v q w Hf Hend) as (pp & Hpp & _). destruct Hend as (Ht & _).
    split; [intros ->; rewrite Ha in Hf; injection Hf as <-; rewrite (o_none s H a va Ha Hra) in Ht; done|].
    split; [intros ->; rewrite Hb in Hf; injection Hf as <-; rewrite (o_none s H b vb Hb Hrb) in Ht; done|congruence]. }
  assert (Hcnt : forall f : nat, count (Z.of_nat f) (<[y := Some (Z.of_nat b)]> (<[x := Some (Z.of_nat a)]> (ofile s))) =
    count (Z.of_nat f) (ofile s) + (if decide (f = a) then 1 else 0) + (if decide (f = b) then 1 else 0)).
  { intros f. rewrite (count_insert _ _ y None), (count_insert _ _ x None) by (done || by rewrite list_lookup_insert_ne).
    rewrite !(decide_False (P := None = Some (Z.of_nat f))) by done.
    repeat case_decide; subst; try lia; try (exfalso; congruence); try (exfalso; match goal with E : Some _ = Some _ |- _ => injection E; lia end). }
  constructor; cbn [kst ofile with_ends set_ftable set_kpages set_pipes ftable pipes kpages].
  - rewrite !length_insert. apply (o_len s H).
  - rewrite !length_insert. intros fd f. destruct (decide (fd = y)) as [->|Hfy]; [|destruct (decide (fd = x)) as [->|Hfx]].
    + rewrite list_lookup_insert_eq by (rewrite length_insert; done). intros [= <-]. lia.
    + rewrite list_lookup_insert_ne, list_lookup_insert_eq by done. intros [= <-]. lia.
    + rewrite !list_lookup_insert_ne by done. apply (o_range s H).
  - intros f v Hf. rewrite Hcnt. destruct (Hlk f v Hf) as [[-> ->]|[[-> ->]|(Hfa & Hfb & Hf0)]].
    + rewrite decide_False, decide_True by done. rewrite <- (o_ref s H b vb Hb), Hrb. done.
    + rewrite decide_True, decide_False by done. rewrite <- (o_ref s H a va Ha), Hra. done.
    + rewrite !decide_False by done. rewrite (o_ref s H f v Hf0). lia.
  - intros f v Hf Hz. destruct (Hlk f v Hf) as [[-> ->]|[[-> ->]|(_ & _ & Hf0)]]; [done|done|by apply (o_none s H f)].
  - intros f v q w Hf Hend. destruct (Hlk f v Hf) as [[-> ->]|[[-> ->]|(_ & _ & Hf0)]].
    + destruct Hend as (_ & <- & <-). eexists; split; [apply lookup_insert_eq|done].
    + destruct Hend as (_ & <- & <-). eexists; split; [apply lookup_insert_eq|done].
    + destruct (Hold f v q w Hf0 Hend) as (_ & _ & Hq). rewrite lookup_insert_ne by done. by apply (o_pipe s H f v).
  - intros f g v v' q w Hf Hg Ev Ev'.
    destruct (Hlk f v Hf) as [[-> ->]|[[-> ->]|(_ & _ & Hf0)]], (Hlk g v' Hg) as [[-> ->]|[[-> ->]|(_ & _ & Hg0)]]; try done.
    + destruct Ev as (_ & _ & <-), Ev' as (_ & _ & ?). done.
    + destruct Ev as (_ & <- & _). by destruct (Hold g v' _ w Hg0 Ev') as (_ & _ & ?).
    + destruct Ev as (_ & _ & <-), Ev' as (_ & _ & ?). done.
    + destruct Ev as (_ & <- & _). by destruct (Hold g v' _ w Hg0 Ev') as (_ & _ & ?).
    + destruct Ev' as (_ & <- & _). by destruct (Hold f v _ w Hf0 Ev) as (_ & _ & ?).
    + destruct Ev' as (_ & <- & _). by destruct (Hold f v _ w Hf0 Ev) as (_ & _ & ?).
    + by apply (o_ends s H f g v v' q w).
  - intros q pp w Hpp Ho. destruct (decide (q = p)) as [->|Hq].
    + destruct w; [exists b, (write_end vb p)|exists a, (read_end va p)]; (split; [|done]).
      * apply list_lookup_insert_eq. by rewrite length_insert.
      * rewrite list_lookup_insert_ne by done. by apply list_lookup_insert_eq.
    + rewrite lookup_insert_ne in Hpp by done. destruct (o_open s H q pp w Hpp Ho) as (f & v & Hf & Hend).
      destruct (Hold f v q w Hf Hend) as (Hfa & Hfb & _). exists f, v. by rewrite !list_lookup_insert_ne by done.
  - intros q pp Hpp. destruct (decide (q = p)) as [->|Hq].
    + rewrite lookup_insert_eq in Hpp. injection Hpp as <-. by left.
    + rewrite lookup_insert_ne in Hpp by done. by apply (o_live s H q).
  - rewrite Hpg in Hnd, Hfree. apply NoDup_cons in Hnd as [Hnp Hnd]. split; [done|]. intros q Hq.
    rewrite lookup_insert_ne by (intros <-; done). apply Hfree. by right.
Qed.

Lemma sys_pipe_Ok s :
  fd_ok s ->
  exists r s', sys_pipe me page_data s = Ok (r, s') /\ fd_ok s' /\
    (r = -1 /\ ofile s' = ofile s /\ pipes (kst s') = pipes (kst s) /\ kpages (kst s') = kpages (kst s) \/
     exists (x y a b : nat) p rest, r = 0 /\ x <> y /\ ofile s !! x = Some None /\ ofile s !! y = Some None /\
       ofile s' = <[y := Some (Z.of_nat b)]> (<[x := Some (Z.of_nat a)]> (ofile s)) /\
       kpages (kst s) = p :: rest /\ kpages (kst s') = rest /\
       ends (ftable (kst s')) a p false /\ ends (ftable (kst s')) b p true).
Proof.
  intros H. unfold sys_pipe. destruct (argptr (usr s) 0 8) as [fd|].
  2: { exists (-1), s. split; [done|]. split; [done|]. by left. }
  destruct (pipealloc_Ok s H) as [->|(a & b & va & vb & p & rest & Hne & Ha & Hb & Hra & Hrb & Hpg & ->)];
    rewrite run_Ok; cbn iota.
  { exists (-1), (set_kst (kst s) s). split; [done|]. split; [by destruct s|]. by left. }
  fold (with_ends (kst s) a b va vb p rest). set (kw := with_ends (kst s) a b va vb p rest).
  unfold fdalloc at 1. cbn [set_kst ofile]. pose proof (find_fd_spec (ofile s) 0) as Hf0.
  destruct (find_fd (ofile s) 0) as [r0|].
  2: { cbn iota. change (-1 <? 0) with true. cbn [orb]. change (-1 >=? 0) with false. cbn [set_kst kst].
       destruct (pipe_undone s a b va vb p rest (ofile s) H Hne Ha Hb Hra Hrb Hpg eq_refl) as (k1 & k2 & E1 & E2 & Hp2 & Hk2 & Hok).
       fold kw in E1. rewrite E1, run_Ok, E2, run_Ok. eexists (-1), _. split; [reflexivity|]. split; [apply Hok|]. by left. }
  destruct Hf0 as (x & -> & Hx & _). rewrite Z.add_0_l, Nat2Z.id. pose proof (lookup_lt_Some _ _ _ Hx) as Hlx.
  rewrite !(proj2 (Z.ltb_ge (Z.of_nat x) 0)) by lia. unfold fdalloc. cbn [set_ofile set_kst ofile].
  pose proof (find_fd_spec (<[x := Some (Z.of_nat a)]> (ofile s)) 0) as Hf1.
  destruct (find_fd (<[x := Some (Z.of_nat a)]> (ofile s)) 0) as [r1|].
  - destruct Hf1 as (y & -> & Hy & _). rewrite Z.add_0_l, Nat2Z.id. cbn [orb].
    rewrite (proj2 (Z.ltb_ge (Z.of_nat y) 0)) by lia.
    assert (Hxy : x <> y) by (intros <-; by rewrite list_lookup_insert_eq in Hy).
    rewrite list_lookup_insert_ne in Hy by done.
    eexists 0, _. split; [reflexivity|]. pose proof (lookup_lt_Some _ _ _ Ha) as Hla. pose proof (lookup_lt_Some _ _ _ Hb) as Hlb.
    split; [exact (pipe_made s a b x y va vb p rest _ H Hne Ha Hb Hra Hrb Hpg Hxy Hx Hy)|].
    right. exists x, y, a, b, p, rest. split; [done|]. split; [done|]. split; [done|]. split; [done|]. split; [done|].
    split; [done|]. split; [done|]. split.
    + exists (read_end va p). split; [|done]. cbn. rewrite list_lookup_insert_ne by done. by apply list_lookup_insert_eq.
    + exists (write_end vb p). split; [|done]. cbn. apply list_lookup_insert_eq. by rewrite length_insert.
  - cbn iota. change (-1 <? 0) with true. cbn [orb]. rewrite Z.geb_leb, (proj2 (Z.leb_le 0 (Z.of_nat x))) by lia.
    cbn [set_ofile set_kst kst ofile].
    destruct (pipe_undone s a b va vb p rest (ofile s) H Hne Ha Hb Hra Hrb Hpg eq_refl) as (k1 & k2 & E1 & E2 & Hp2 & Hk2 & Hok).
    fold kw in E1. rewrite E1, run_Ok, E2, run_Ok. eexists (-1), _. split; [reflexivity|].
    cbn [set_kst set_ofile ofile kst cwd usr]. rewrite list_insert_insert_eq, list_insert_id by done.
    split; [apply Hok|]. by left.
Qed.

End pipe.

(** ** Theorem *)

(** C7: descriptors, open files and pipes.  Every file of the table has as many
    references as there are descriptors for it, an unused file has no type,
    every open end of a pipe has exactly one file, and the pages of pipes are
    the ones taken from the page allocator ([fd_ok]).  [sys_dup], [sys_close]
    and [sys_pipe] return on every such state and keep it so, on all their
    error paths too: [sys_dup] uses the lowest free descriptor, [sys_pipe] makes
    two descriptors for the two ends of a pipe in a fresh page or changes
    nothing, and closing the last descriptor of the last end gives the page
    back.  (For a file of the disk, [sys_close] relies on its [iput].) *)
Theorem descriptors_and_pipes me page_data s :
  fd_ok s ->
  (exists r s', sys_dup s = Ok (r, s') /\ fd_ok s' /\
    (r = -1 /\ s' = s \/
     exists j : nat, r = Z.of_nat j /\ ofile s !! j = Some None /\
       (forall i : nat, (i < j)%nat -> exists f, ofile s !! i = Some (Some f)) /\
       exists fd f, argfd s 0 = Some (fd, f) /\ ofile s' = <[j := Some f]> (ofile s))) /\
  (exists r s', sys_pipe me page_data s = Ok (r, s') /\ fd_ok s' /\
    (r = -1 /\ ofile s' = ofile s /\ pipes (kst s') = pipes (kst s) /\ kpages (kst s') = kpages (kst s) \/
     exists (x y a b : nat) p rest, r = 0 /\ x <> y /\ ofile s !! x = Some None /\ ofile s !! y = Some None /\
       ofile s' = <[y := Some (Z.of_nat b)]> (<[x := Some (Z.of_nat a)]> (ofile s)) /\
       kpages (kst s) = p :: rest /\ kpages (kst s') = rest /\
       ends (ftable (kst s')) a p false /\ ends (ftable (kst s')) b p true)) /\
  ((forall fd f v, argfd s 0 = Some (fd, f) -> fat (kst s) f = Ok v -> f_ref v = 1 -> f_type v = FD_INODE ->
     exists fs, iput me (clear_logged (kfs (kst s))) (f_ip v) = Ok fs) ->
   exists r s', sys_close me s = Ok (r, s') /\ fd_ok s' /\
    (r = -1 /\ s' = s \/
     exists (j : nat) f, r = 0 /\ argfd s 0 = Some (Z.of_nat j, f) /\ ofile s' = <[j := None]> (ofile s))).
Proof.
  intros H. split; [by apply sys_dup_Ok|]. split; [by apply sys_pipe_Ok|]. by apply sys_close_Ok.
Qed.

(** A process without open files, with two free pages. *)
Definition idle : sk :=
  Sk (Ks (Fstate (Bstate [] (Superblock 0 0 0 0 0 0 0) [] []) []) (replicate NFILE (File FD_NONE 0 false false 0 0 0)) ∅ [4096; 8192] [])
     (replicate NOFILE None) 0 (User 4096 100 (fun _ => 0)).

Lemma idle_ok : fd_ok idle.
Proof.
  constructor; cbn [idle kst ofile ftable pipes kpages]; try done.
  - intros fd f Hf. apply lookup_replicate in Hf as [? _]. done.
  - intros f v Hf. apply lookup_replicate in Hf as [-> _]. done.
  - intros f v Hf. apply lookup_replicate in Hf as [-> _]. done.
  - intros f v p w Hf (Ht & _). apply lookup_replicate in Hf as [-> _]. done.
  - intros f g v u p w Hf _ (Ht & _). apply lookup_replicate in Hf as [-> _]. done.
  - split; [by apply (bool_decide_unpack _)|done].
Qed.

Lemma descriptors_and_pipes_witness :
  exists s', sys_pipe 1 (fun _ => []) idle = Ok (0, s') /\ fd_ok s' /\ kpages (kst s') = [8192].
Proof.
  destruct (descriptors_and_pipes 1 (fun _ => []) idle idle_ok) as (_ & (r & s' & E & Hok & Hr) & _).
  destruct Hr as [(-> & _ & _ & Hkp)|(x & y & a & b & p & rest & -> & _ & _ & _ & _ & Hpg & Hkp & _)].
  - exfalso. vm_compute in E. injection E as E _. discriminate.
  - exists s'. split; [exact E|]. split; [exact Hok|]. injection Hpg as _ <-. exact Hkp.
Defined.
