(* ===== verification/Xv6Sh.v ===== *)
(** The shell of xv6 (src/설계 3번/xv6/sh.c): reading a command line and parsing
    it.

    The line is in the buffer [mem]; a [char *] is an index into it.  The parser
    builds a tree whose strings are pairs of pointers into the buffer (start and
    end) and, when the whole line is accepted, writes a NUL at every end
    ([nulterminate]).  [panic] prints a message and ends the process that
    parses: [Stuck Panicked].  [malloc] is taken to succeed. *)

From S2P Require Import Prelude Bytes Xv6String.

(** ** Commands *)

Definition MAXARGS : Z := 10.

(** [struct cmd] with its five kinds; a null pointer is [None]. *)
Inductive cmd : Type :=
| EXEC (argv eargv : list (option Z))
| REDIR (subcmd : cmd) (file efile mode fd : Z)
| PIPE (left right : cmd)
| LIST (left right : cmd)
| BACK (subcmd : cmd).

Definition O_RDONLY : Z := 0.
Definition O_WRONLY : Z := 1.
Definition O_CREATE : Z := 512.

Definition execcmd : cmd :=
  EXEC (replicate (Z.to_nat MAXARGS) None) (replicate (Z.to_nat MAXARGS) None).

(** ** Tokens *)

Definition whitespace : list Z := [32; 9; 13; 10; 11; 0].
Definition symbols : list Z := [60; 124; 62; 38; 59; 40; 41; 0].

Fixpoint skip_white (fuel : nat) (mem : list Z) (s es : Z) : res Z :=
  match fuel with
  | O => Stuck OutOfFuel
  | S fuel' =>
      if s <? es then
        c ← aget mem s;
        r ← User.strchr whitespace c;
        match r with
        | Some _ => skip_white fuel' mem (s + 1) es
        | None => Ok s
        end
      else Ok s
  end.

Fixpoint skip_word (fuel : nat) (mem : list Z) (s es : Z) : res Z :=
  match fuel with
  | O => Stuck OutOfFuel
  | S fuel' =>
      if s <? es then
        c ← aget mem s;
        r ← User.strchr whitespace c;
        match r with
        | Some _ => Ok s
        | None =>
            r ← User.strchr symbols c;
            match r with
            | Some _ => Ok s
            | None => skip_word fuel' mem (s + 1) es
            end
        end
      else Ok s
  end.

Definition scan_fuel (s es : Z) : nat := S (Z.to_nat (es - s)).

(** The result is [ret], [*q], [*eq] and the new [*ps]. *)
Definition gettoken (mem : list Z) (ps es : Z) : res (Z * Z * Z * Z) :=
  s ← skip_white (scan_fuel ps es) mem ps es;
  let q := s in
  c ← aget mem s;
  '(ret, s) ←
    (if c =? 0 then Ok (c, s)
     else if (c =? 124) || (c =? 40) || (c =? 41) || (c =? 59) || (c =? 38) || (c =? 60) then Ok (c, s + 1)
     else if c =? 62 then
       c2 ← aget mem (s + 1);
       if c2 =? 62 then Ok (43, s + 1 + 1) else Ok (c, s + 1)
     else
       s ← skip_word (scan_fuel s es) mem s es;
       Ok (97, s));
  let eq := s in
  s ← skip_white (scan_fuel s es) mem s es;
  Ok (ret, q, eq, s).

Definition peek (mem : list Z) (ps es : Z) (toks : list Z) : res (bool * Z) :=
  s ← skip_white (scan_fuel ps es) mem ps es;
  c ← aget mem s;
  if c =? 0 then Ok (false, s)
  else
    r ← User.strchr toks c;
    match r with
    | Some _ => Ok (true, s)
    | None => Ok (false, s)
    end.

(** ** The parser *)

Fixpoint parseredirs (fuel : nat) (c : cmd) (mem : list Z) (ps es : Z) : res (cmd * Z) :=
  match fuel with
  | O => Stuck OutOfFuel
  | S fuel' =>
      '(b, ps) ← peek mem ps es [60; 62; 0];
      if b : bool then
        '(tok, _, _, ps) ← gettoken mem ps es;
        '(t, q, eq, ps) ← gettoken mem ps es;
        if negb (t =? 97) then Stuck Panicked
        else
          let c :=
            if tok =? 60 then REDIR c q eq O_RDONLY 0
            else if tok =? 62 then REDIR c q eq (Z.lor O_WRONLY O_CREATE) 1
            else if tok =? 43 then REDIR c q eq (Z.lor O_WRONLY O_CREATE) 1
            else c in
          parseredirs fuel' c mem ps es
      else Ok (c, ps)
  end.

(** [cmd->argv[argc] = q; cmd->eargv[argc] = eq], where [cmd] is the [execcmd]
    inside the redirections of [ret]. *)
Fixpoint set_arg (ret : cmd) (argc : Z) (q eq : option Z) : res cmd :=
  match ret with
  | EXEC argv eargv =>
      argv ← aset argv argc q;
      eargv ← aset eargv argc eq;
      Ok (EXEC argv eargv)
  | REDIR c file efile mode fd => c ← set_arg c argc q eq; Ok (REDIR c file efile mode fd)
  | _ => Stuck OutOfBounds
  end.

Fixpoint parseargs (fuel : nat) (ret : cmd) (argc : Z) (mem : list Z) (ps es : Z) : res (cmd * Z) :=
  match fuel with
  | O => Stuck OutOfFuel
  | S fuel' =>
      '(b, ps) ← peek mem ps es [124; 41; 38; 59; 0];
      if b : bool then ret ← set_arg ret argc None None; Ok (ret, ps)
      else
        '(tok, q, eq, ps) ← gettoken mem ps es;
        if tok =? 0 then ret ← set_arg ret argc None None; Ok (ret, ps)
        else if negb (tok =? 97) then Stuck Panicked
        else
          ret ← set_arg ret argc (Some q) (Some eq);
          let argc := argc + 1 in
          if argc >=? MAXARGS then Stuck Panicked
          else
            '(ret, ps) ← parseredirs (scan_fuel ps es) ret mem ps es;
            parseargs fuel' ret argc mem ps es
  end.

Fixpoint parseback (fuel : nat) (c : cmd) (mem : list Z) (ps es : Z) : res (cmd * Z) :=
  match fuel with
  | O => Stuck OutOfFuel
  | S fuel' =>
      '(b, ps) ← peek mem ps es [38; 0];
      if b : bool then
        '(_, _, _, ps) ← gettoken mem ps es;
        parseback fuel' (BACK c) mem ps es
      else Ok (c, ps)
  end.

Fixpoint parseline (fuel : nat) (mem : list Z) (ps es : Z) {struct fuel} : res (cmd * Z) :=
  match fuel with
  | O => Stuck OutOfFuel
  | S fuel' =>
      '(c, ps) ← parsepipe fuel' mem ps es;
      '(c, ps) ← parseback (scan_fuel ps es) c mem ps es;
      '(b, ps) ← peek mem ps es [59; 0];
      if b : bool then
        '(_, _, _, ps) ← gettoken mem ps es;
        '(r, ps) ← parseline fuel' mem ps es;
        Ok (LIST c r, ps)
      else Ok (c, ps)
  end
with parsepipe (fuel : nat) (mem : list Z) (ps es : Z) {struct fuel} : res (cmd * Z) :=
  match fuel with
  | O => Stuck OutOfFuel
  | S fuel' =>
      '(c, ps) ← parseexec fuel' mem ps es;
      '(b, ps) ← peek mem ps es [124; 0];
      if b : bool then
        '(_, _, _, ps) ← gettoken mem ps es;
        '(r, ps) ← parsepipe fuel' mem ps es;
        Ok (PIPE c r, ps)
      else Ok (c, ps)
  end
with parseexec (fuel : nat) (mem : list Z) (ps es : Z) {struct fuel} : res (cmd * Z) :=
  match fuel with
  | O => Stuck OutOfFuel
  | S fuel' =>
      '(b, ps) ← peek mem ps es [40; 0];
      if b : bool then parseblock fuel' mem ps es
      else
        '(ret, ps) ← parseredirs (scan_fuel ps es) execcmd mem ps es;
        parseargs (scan_fuel ps es) ret 0 mem ps es
  end
with parseblock (fuel : nat) (mem : list Z) (ps es : Z) {struct fuel} : res (cmd * Z) :=
  match fuel with
  | O => Stuck OutOfFuel
  | S fuel' =>
      '(b, ps) ← peek mem ps es [40; 0];
      if negb b then Stuck Panicked
      else
        '(_, _, _, ps) ← gettoken mem ps es;
        '(c, ps) ← parseline fuel' mem ps es;
        '(b, ps) ← peek mem ps es [41; 0];
        if negb b then Stuck Panicked
        else
          '(_, _, _, ps) ← gettoken mem ps es;
          parseredirs (scan_fuel ps es) c mem ps es
  end.

(** ** Terminating the strings *)

Fixpoint null_args (argv eargv : list (option Z)) (mem : list Z) : res (list Z) :=
  match argv, eargv with
  | None :: _, _ => Ok mem
  | Some _ :: argv', Some e :: eargv' => mem ← aset mem e 0; null_args argv' eargv' mem
  | _, _ => Stuck OutOfBounds
  end.

Fixpoint nulterminate (c : cmd) (mem : list Z) : res (list Z) :=
  match c with
  | EXEC argv eargv => null_args argv eargv mem
  | REDIR c _ efile _ _ => mem ← nulterminate c mem; aset mem efile 0
  | PIPE l r | LIST l r => mem ← nulterminate l mem; nulterminate r mem
  | BACK c => nulterminate c mem
  end.

(** A command of [n] characters nests at most [n] deep, four functions to a
    level. *)
Definition parse_fuel (n : Z) : nat := 4 * Z.to_nat n + 4.

Definition parsecmd (mem : list Z) (s : Z) : res (cmd * list Z) :=
  n ← strlen (drop (Z.to_nat s) mem);
  let es := s + n in
  '(c, s) ← parseline (parse_fuel n) mem s es;
  '(_, s) ← peek mem s es [0];
  if negb (s =? es) then Stuck Panicked
  else mem ← nulterminate c mem; Ok (c, mem).

(** ** Reading commands *)

(** [getcmd] on the input that [read] delivers: the result, the buffer and the
    rest of the input. *)
Definition getcmd (buf : list Z) (nbuf : Z) (input : list Z) : res (Z * list Z * list Z) :=
  buf ← User.memset buf 0 0 nbuf;
  '(buf, input) ← User.gets buf nbuf input;
  c ← aget buf 0;
  Ok (if c =? 0 then -1 else 0, buf, input).

(** What the loop of [main] does with a line: change the directory itself, or
    hand the line to a child, which parses it. *)
Inductive action : Type :=
| Chdir (path : list Z)
| Child (parsed : res (cmd * list Z)).

Definition sh_line (buf : list Z) : res action :=
  c0 ← aget buf 0;
  c1 ← (if c0 =? 99 then aget buf 1 else Ok 0);
  c2 ← (if (c0 =? 99) && (c1 =? 100) then aget buf 2 else Ok 0);
  if (c0 =? 99) && (c1 =? 100) && (c2 =? 32) then
    n ← strlen buf;
    buf ← aset buf (n - 1) 0;
    Ok (Chdir (drop 3 buf))
  else Ok (Child (parsecmd buf 0)).

(** The loop of [main], with fuel for the number of lines. *)
Fixpoint sh_main (fuel : nat) (buf : list Z) (input : list Z) : res (list action) :=
  match fuel with
  | O => Stuck OutOfFuel
  | S fuel' =>
      '(r, buf, input) ← getcmd buf 100 input;
      if r >=? 0 then
        a ← sh_line buf;
        rest ← sh_main fuel' buf input;
        Ok (a :: rest)
      else Ok []
  end.

(** ** The language *)

Inductive tok : Type :=
| Word (w : list Z)
| Sym (c : Z)
| Append.

Definition white (c : Z) : bool := bool_decide (c ∈ [32; 9; 13; 10; 11]).
Definition symbol (c : Z) : bool := bool_decide (c ∈ [60; 124; 62; 38; 59; 40; 41]).

Definition flush (w : list Z) (ts : list tok) : list tok :=
  match w with [] => ts | _ => Word w :: ts end.

(** The tokens of a text, [w] being the word read so far. *)
Fixpoint lex (w : list Z) (text : list Z) : list tok :=
  match text with
  | [] => flush w []
  | c :: text' =>
      if white c then flush w (lex [] text')
      else if symbol c then
        flush w (match text' with
                 | c2 :: text'' =>
                     if (c =? 62) && (c2 =? 62) then Append :: lex [] text'' else Sym c :: lex [] text'
                 | [] => [Sym c]
                 end)
      else lex (w ++ [c]) text'
  end.

(** Redirections: [<], [>] and [>>] with a file. *)
Inductive redir : Type :=
| RIn (w : list Z)
| ROut (w : list Z)
| RApp (w : list Z).

Inductive line : Type :=
| LEnd (p : pipeline) (backs : nat)
| LSeq (p : pipeline) (backs : nat) (l : line)
with pipeline : Type :=
| POne (e : simple)
| PBar (e : simple) (p : pipeline)
with simple : Type :=
| SBlock (l : line) (rs : list redir)
| SWords (rs : list redir) (args : list (list Z * list redir)).

Definition redir_toks (r : redir) : list tok :=
  match r with
  | RIn w => [Sym 60; Word w]
  | ROut w => [Sym 62; Word w]
  | RApp w => [Append; Word w]
  end.

Definition redirs_toks (rs : list redir) : list tok := rs ≫= redir_toks.

Definition args_toks (args : list (list Z * list redir)) : list tok :=
  args ≫= fun a => Word a.1 :: redirs_toks a.2.

Fixpoint line_toks (l : line) : list tok :=
  match l with
  | LEnd p n => pipe_toks p ++ replicate n (Sym 38)
  | LSeq p n l => pipe_toks p ++ replicate n (Sym 38) ++ Sym 59 :: line_toks l
  end
with pipe_toks (p : pipeline) : list tok :=
  match p with
  | POne e => simple_toks e
  | PBar e p => simple_toks e ++ Sym 124 :: pipe_toks p
  end
with simple_toks (e : simple) : list tok :=
  match e with
  | SBlock l rs => Sym 40 :: line_toks l ++ Sym 41 :: redirs_toks rs
  | SWords rs args => redirs_toks rs ++ args_toks args
  end.

(** The meaning of a line: a command tree with strings. *)
Inductive scmd : Type :=
| CExec (args : list (list Z))
| CRedir (c : scmd) (file : list Z) (mode fd : Z)
| CPipe (l r : scmd)
| CList (l r : scmd)
| CBack (c : scmd).

Definition redirect (c : scmd) (r : redir) : scmd :=
  match r with
  | RIn w => CRedir c w O_RDONLY 0
  | ROut w | RApp w => CRedir c w (Z.lor O_WRONLY O_CREATE) 1
  end.

Fixpoint line_tree (l : line) : scmd :=
  match l with
  | LEnd p n => Nat.iter n CBack (pipe_tree p)
  | LSeq p n l => CList (Nat.iter n CBack (pipe_tree p)) (line_tree l)
  end
with pipe_tree (p : pipeline) : scmd :=
  match p with
  | POne e => simple_tree e
  | PBar e p => CPipe (simple_tree e) (pipe_tree p)
  end
with simple_tree (e : simple) : scmd :=
  match e with
  | SBlock l rs => foldl redirect (line_tree l) rs
  | SWords rs args => foldl redirect (CExec args.*1) (rs ++ (args ≫= snd))
  end.

(** At most [MAXARGS - 1] words in a simple command. *)
Fixpoint line_fits (l : line) : Prop :=
  match l with
  | LEnd p _ => pipe_fits p
  | LSeq p _ l => pipe_fits p /\ line_fits l
  end
with pipe_fits (p : pipeline) : Prop :=
  match p with
  | POne e => simple_fits e
  | PBar e p => simple_fits e /\ pipe_fits p
  end
with simple_fits (e : simple) : Prop :=
  match e with
  | SBlock l _ => line_fits l
  | SWords _ args => Z.of_nat (length args) < MAXARGS
  end.

(** The strings of a parsed command, read from the buffer. *)
Fixpoint cstring (m : list Z) : option (list Z) :=
  match m with
  | [] => None
  | c :: m' => if c =? 0 then Some [] else cons c <$> cstring m'
  end.

Definition string_at (mem : list Z) (p : Z) : option (list Z) := cstring (drop (Z.to_nat p) mem).

Fixpoint arg_strings (mem : list Z) (argv : list (option Z)) : option (list (list Z)) :=
  match argv with
  | Some q :: argv' => w ← string_at mem q; ws ← arg_strings mem argv'; Some (w :: ws)
  | _ => Some []
  end.

Fixpoint meaning (mem : list Z) (c : cmd) : option scmd :=
  match c with
  | EXEC argv _ => CExec <$> arg_strings mem argv
  | REDIR c q _ mode fd => c ← meaning mem c; w ← string_at mem q; Some (CRedir c w mode fd)
  | PIPE l r => l ← meaning mem l; r ← meaning mem r; Some (CPipe l r)
  | LIST l r => l ← meaning mem l; r ← meaning mem r; Some (CList l r)
  | BACK c => CBack <$> meaning mem c
  end.

