(* ===== verification/Xv6Shell.v ===== *)
(** The command parser of the xv6 shell ([Xv6Sh]) against the language of
    command lines: a text is accepted exactly when its tokens are those of a
    [line], and the tree that is built, with its strings terminated in place,
    means that line. *)

From S2P Require Import Prelude Bytes Xv6String Xv6Sh.

Lemma strchr_spec (l : list Z) c :
  0 ∉ l -> exists r, User.strchr (l ++ [0]) c = Ok r /\ (r = None <-> c ∉ l).
Proof.
  induction l as [|x l IH]; intros H0; cbn.
  - exists None. split; [done|]. split; [intros _; apply not_elem_of_nil|done].
  - apply not_elem_of_cons in H0 as [Hx H0].
    rewrite (proj2 (Z.eqb_neq x 0)) by done. case_if; subst; run.
    + exists (Some 0%nat). split; [done|]. split; [done|]. intros H. exfalso. apply H. left.
    + destruct (IH H0) as (r & -> & Hr). run. eexists. split; [done|].
      rewrite not_elem_of_cons. destruct r; cbn; split; try done; naive_solver.
Qed.

Fixpoint skip (f : Z -> bool) (l : list Z) : list Z :=
  match l with
  | c :: l' => if f c then skip f l' else l
  | [] => []
  end.

Fixpoint span (f : Z -> bool) (l : list Z) : list Z :=
  match l with
  | c :: l' => if f c then c :: span f l' else []
  | [] => []
  end.

Lemma span_skip f l : span f l ++ skip f l = l.
Proof. induction l as [|c l IH]; cbn; [done|]. case_if; cbn; [by rewrite IH|done]. Qed.

Lemma span_Forall f l : Forall (fun c => f c = true) (span f l).
Proof. induction l as [|c l IH]; cbn; [done|]. case_if; [by constructor|constructor]. Qed.

Lemma skip_head f l c l' : skip f l = c :: l' -> f c = false.
Proof. induction l as [|x l IH]; cbn; [done|]. case_if; [done|congruence]. Qed.

Definition plain (c : Z) : bool := negb (white c) && negb (symbol c).

Lemma lex_white l : lex [] (skip white l) = lex [] l.
Proof. induction l as [|c l IH]; cbn; [done|]. destruct (white c) eqn:E; [done|cbn; by rewrite E]. Qed.

Lemma lex_plain l : forall w, w <> [] ->
  lex w l = Word (w ++ span plain l) :: lex [] (skip plain l).
Proof.
  induction l as [|c l IH]; intros w Hw.
  - cbn. rewrite app_nil_r. by destruct w.
  - unfold plain in *. cbn.
    destruct (white c) eqn:Ew; cbn.
    { rewrite app_nil_r, Ew. by destruct w. }
    destruct (symbol c) eqn:Es; cbn.
    + rewrite app_nil_r, Ew, Es. destruct w; [done|]. cbn. by destruct l.
    + rewrite IH by (by destruct w). by rewrite <- app_assoc.
Qed.

Lemma lex_length l : forall w, (length (lex w l) <= length l + match w with [] => 0 | _ => 1 end)%nat.
Proof.
  assert (Hf : forall w ts, (length (flush w ts) <= length ts + match w with [] => 0 | _ => 1 end)%nat)
    by (intros [|??] ?; cbn; lia).
  assert (forall n l w, (length l <= n)%nat ->
    (length (lex w l) <= length l + match w with [] => 0 | _ => 1 end)%nat) as H; [|eauto].
  clear l. induction n as [|n IH]; intros [|c l] w Hl; cbn in Hl; try lia; cbn [lex].
  1,2: etrans; [apply Hf|done].
  case_if.
  { etrans; [apply Hf|]. specialize (IH l [] ltac:(lia)). cbn in *. lia. }
  case_if.
  - etrans; [apply Hf|]. destruct l as [|c2 l]; [done|]. cbn in Hl. case_if; cbn [length].
    + specialize (IH l [] ltac:(lia)). cbn in *. lia.
    + specialize (IH (c2 :: l) [] ltac:(cbn; lia)). cbn in *. lia.
  - specialize (IH l (w ++ [c]) ltac:(lia)). destruct w; cbn in *; lia.
Qed.

Definition good_tok (t : tok) : Prop := match t with Sym c => symbol c = true | _ => True end.

Lemma lex_good l : forall w, Forall good_tok (lex w l).
Proof.
  assert (Hf : forall w ts, Forall good_tok ts -> Forall good_tok (flush w ts))
    by (intros [|??] ??; cbn; [done|by constructor]).
  assert (forall n l w, (length l <= n)%nat -> Forall good_tok (lex w l)) as H; [|eauto].
  clear l. induction n as [|n IH]; intros [|c l] w Hl; cbn in Hl; try lia; cbn [lex].
  1,2: by apply Hf.
  case_if; [apply Hf, IH; lia|]. case_if; [|apply IH; lia]. apply Hf.
  destruct l as [|c2 l]; [by repeat constructor|]. cbn in Hl.
  case_if; constructor; try done; apply IH; cbn; lia.
Qed.

Scheme line_mut := Induction for line Sort Prop
with pipeline_mut := Induction for pipeline Sort Prop
with simple_mut := Induction for simple Sort Prop.
Combined Scheme grammar_ind from line_mut, pipeline_mut, simple_mut.

(** ** Positions in the buffer *)

Section text.
Context (text rest : list Z) (Htext : 0 ∉ text).

Let mem := text ++ 0 :: rest.
Let es := Z.of_nat (length text).

Definition at_suffix (p : Z) (suf : list Z) : Prop :=
  exists pre, text = pre ++ suf /\ p = Z.of_nat (length pre).

Lemma at_end p suf : at_suffix p suf -> p + Z.of_nat (length suf) = es.
Proof. intros (pre & -> & ->). unfold es. rewrite length_app. lia. Qed.

Lemma at_here p suf : at_suffix p suf ->
  aget mem p = Ok (match suf with c :: _ => c | [] => 0 end) /\
  (p <? es) = match suf with _ :: _ => true | [] => false end.
Proof.
  intros Ha. pose proof (at_end _ _ Ha) as He. destruct Ha as (pre & Ht & ->).
  split.
  - unfold mem. rewrite Ht. destruct suf as [|c suf]; apply aget_nat.
    + by rewrite app_nil_r, lookup_app_r, Nat.sub_diag by lia.
    + by rewrite <- app_assoc, lookup_app_r, Nat.sub_diag by lia.
  - destruct suf; [apply Z.ltb_ge|apply Z.ltb_lt]; cbn in He; lia.
Qed.

Lemma at_next p c suf : at_suffix p (c :: suf) -> at_suffix (p + 1) suf.
Proof.
  intros (pre & Ht & ->). exists (pre ++ [c]). rewrite <- app_assoc, length_app.
  split; [done|cbn; lia].
Qed.

Lemma at_nonzero p c suf : at_suffix p (c :: suf) -> (c =? 0) = false.
Proof.
  intros (pre & Ht & _). apply Z.eqb_neq. intros ->. apply Htext. rewrite Ht.
  apply elem_of_app. right. left.
Qed.

Lemma strchr_white c : exists r, User.strchr whitespace c = Ok r /\ white c = negb (bool_decide (r = None)).
Proof.
  destruct (strchr_spec [32; 9; 13; 10; 11] c) as (r & Hr & Hn); [by set_unfold; lia|].
  exists r. split; [exact Hr|]. unfold white.
  rewrite (bool_decide_ext _ _ Hn), <- bool_decide_not. apply bool_decide_ext.
  split; [intros H H'; done|]. intros H. apply dec_stable. done.
Qed.

Lemma strchr_symbol c : exists r, User.strchr symbols c = Ok r /\ symbol c = negb (bool_decide (r = None)).
Proof.
  destruct (strchr_spec [60; 124; 62; 38; 59; 40; 41] c) as (r & Hr & Hn); [by set_unfold; lia|].
  exists r. split; [exact Hr|]. unfold symbol.
  rewrite (bool_decide_ext _ _ Hn), <- bool_decide_not. apply bool_decide_ext.
  split; [intros H H'; done|]. intros H. apply dec_stable. done.
Qed.

Lemma skip_white_spec suf : forall fuel p, (length suf < fuel)%nat -> at_suffix p suf ->
  exists p', skip_white fuel mem p es = Ok p' /\ at_suffix p' (skip white suf) /\ p <= p'.
Proof.
  induction suf as [|c suf IH]; intros [|fuel] p Hf Ha; cbn in Hf; try lia;
    destruct (at_here _ _ Ha) as [Hg Hlt]; cbn [skip_white]; rewrite Hlt.
  - eexists. split; [done|]. split; [done|lia].
  - rewrite Hg. run. destruct (strchr_white c) as (r & -> & Hw). run. cbn [skip]. rewrite Hw.
    destruct r; cbn.
    + destruct (IH fuel (p + 1)) as (p' & -> & Ha' & Hle); [lia|by eapply at_next|].
      exists p'. split; [done|]. split; [done|lia].
    + eexists. split; [done|]. split; [done|lia].
Qed.

Lemma skip_word_spec suf : forall fuel p, (length suf < fuel)%nat -> at_suffix p suf ->
  exists p', skip_word fuel mem p es = Ok p' /\ at_suffix p' (skip plain suf) /\
    p' = p + Z.of_nat (length (span plain suf)).
Proof.
  induction suf as [|c suf IH]; intros [|fuel] p Hf Ha; cbn in Hf; try lia;
    destruct (at_here _ _ Ha) as [Hg Hlt]; cbn [skip_word]; rewrite Hlt.
  - eexists. split; [done|]. split; [done|cbn; lia].
  - rewrite Hg. run. destruct (strchr_white c) as (r & -> & Hw). run. cbn [skip span].
    unfold plain at 1 3. rewrite Hw.
    destruct r.
    { cbn. eexists. split; [done|]. split; [done|lia]. }
    destruct (strchr_symbol c) as (r & -> & Hs). run. rewrite Hs. destruct r; cbn.
    { eexists. split; [done|]. split; [done|lia]. }
    destruct (IH fuel (p + 1)) as (p' & -> & Ha' & Hle); [lia|by eapply at_next|].
    exists p'. split; [done|]. split; [done|lia].
Qed.

Lemma scan_fuel_ok p suf : at_suffix p suf -> (length suf < scan_fuel p es)%nat.
Proof. intros H%at_end. unfold scan_fuel. lia. Qed.

(** ** Tokens at a position *)

Definition toks_at (p : Z) (ts : list tok) : Prop := exists suf, at_suffix p suf /\ lex [] suf = ts.

Definition starts (l : list Z) (ts : list tok) : bool :=
  match ts with
  | Sym c :: _ => bool_decide (c ∈ l)
  | Append :: _ => bool_decide (62 ∈ l)
  | _ => false
  end.

(** A word of the text: plain characters, followed by one that is not. *)
Definition word_at (q e : Z) (w : list Z) : Prop :=
  exists suf, at_suffix q (w ++ suf) /\ e = q + Z.of_nat (length w) /\
    Forall (fun c => plain c = true) w /\
    match suf with c :: _ => plain c = false | [] => True end.

Lemma toks_at_length p ts : toks_at p ts -> (length ts < scan_fuel p es)%nat.
Proof.
  intros (suf & Ha & <-). pose proof (scan_fuel_ok _ _ Ha). pose proof (lex_length suf []).
  cbn in *. lia.
Qed.

Lemma skipped p ts : toks_at p ts ->
  exists p' suf, skip_white (scan_fuel p es) mem p es = Ok p' /\ at_suffix p' suf /\
    lex [] suf = ts /\ (forall c s, suf = c :: s -> white c = false).
Proof.
  intros (suf & Ha & <-).
  destruct (skip_white_spec suf _ p (scan_fuel_ok _ _ Ha) Ha) as (p' & Hs & Ha' & _).
  exists p', (skip white suf). split; [done|]. split; [done|]. split; [apply lex_white|].
  intros c s Hc. by eapply skip_head.
Qed.

Lemma peek_spec p ts l : toks_at p ts -> l ⊆ [60; 124; 62; 38; 59; 40; 41] ->
  exists p', peek mem p es (l ++ [0]) = Ok (starts l ts, p') /\ toks_at p' ts.
Proof.
  intros Ht Hl. destruct (skipped _ _ Ht) as (p' & suf & Hs & Ha & Hlex & Hw).
  exists p'. split; [|by exists suf]. unfold peek. rewrite Hs. run.
  destruct (at_here _ _ Ha) as [Hg _]. rewrite Hg. run. subst ts.
  destruct suf as [|c suf]; [done|]. rewrite (at_nonzero _ _ _ Ha).
  destruct (strchr_spec l c) as (r & -> & Hr).
  { intros H%Hl. set_unfold. lia. }
  run. specialize (Hw c suf eq_refl). cbn [lex]. rewrite Hw.
  assert (Hb : (match r with Some _ => Ok (true, p') | None => Ok (false, p') end : res (bool * Z)) =
    Ok (bool_decide (c ∈ l), p')).
  { destruct r.
    - rewrite bool_decide_true; [done|]. apply dec_stable. intros H%Hr. done.
    - rewrite bool_decide_false; [done|]. by apply Hr. }
  rewrite Hb. f_equal. f_equal. destruct (symbol c) eqn:Es.
  - destruct suf as [|c2 suf]; [done|]. cbn [flush]. case_if; [|done]. zbool. by subst.
  - rewrite lex_plain by done. cbn. apply bool_decide_eq_false. intros Hc%Hl.
    unfold symbol in Es. by apply bool_decide_eq_false in Es.
Qed.

Definition tok_code (t : tok) : Z :=
  match t with Word _ => 97 | Sym c => c | Append => 43 end.

(** The end of [gettoken]: the token ends at [s], where [suf] begins. *)
Lemma gettoken_end s suf : at_suffix s suf ->
  exists p', skip_white (scan_fuel s es) mem s es = Ok p' /\ toks_at p' (lex [] suf).
Proof.
  intros Ha. destruct (skip_white_spec suf _ s (scan_fuel_ok _ _ Ha) Ha) as (p' & Hs & Ha' & _).
  exists p'. split; [done|]. eexists. split; [done|]. apply lex_white.
Qed.

Lemma symbol_cases c : symbol c = true ->
  ((c =? 124) || (c =? 40) || (c =? 41) || (c =? 59) || (c =? 38) || (c =? 60) = true /\ c <> 62) \/
  ((c =? 124) || (c =? 40) || (c =? 41) || (c =? 59) || (c =? 38) || (c =? 60) = false /\ c = 62).
Proof.
  unfold symbol. intros H%bool_decide_eq_true.
  repeat (apply elem_of_cons in H as [->|H]; [first [by left|by right]|]). by apply elem_of_nil in H.
Qed.

Lemma plain_cases c : white c = false -> symbol c = false ->
  plain c = true /\
  (c =? 124) || (c =? 40) || (c =? 41) || (c =? 59) || (c =? 38) || (c =? 60) = false /\ (c =? 62) = false.
Proof.
  intros Hw Hs. unfold plain. rewrite Hw, Hs. split; [done|].
  unfold symbol in Hs. apply bool_decide_eq_false in Hs. set_unfold.
  split; [|apply Z.eqb_neq; lia].
  repeat (apply orb_false_iff; split); apply Z.eqb_neq; lia.
Qed.

Lemma gettoken_spec p t ts : toks_at p (t :: ts) ->
  exists q e p', gettoken mem p es = Ok (tok_code t, q, e, p') /\ toks_at p' ts /\
    (forall w, t = Word w -> word_at q e w).
Proof.
  intros Ht. destruct (skipped _ _ Ht) as (q & suf & Hs & Ha & Hlex & Hw).
  unfold gettoken. rewrite Hs. run. destruct (at_here _ _ Ha) as [Hg _]. rewrite Hg. run.
  destruct suf as [|c suf]; [done|]. rewrite (at_nonzero _ _ _ Ha).
  specialize (Hw c suf eq_refl). pose proof (at_next _ _ _ Ha) as Hn.
  cbn [lex] in Hlex. rewrite Hw in Hlex. destruct (symbol c) eqn:Es; cbn [flush] in Hlex.
  - destruct (symbol_cases c Es) as [[-> Hc]|[-> ->]].
    + run. destruct (gettoken_end _ _ Hn) as (p' & -> & Hp'). run.
      rewrite (proj2 (Z.eqb_neq c 62)) in Hlex by done. cbn [andb] in Hlex.
      assert (Sym c :: lex [] suf = t :: ts) as [= <- <-] by (by destruct suf).
      eexists _, _, _. split; [done|]. split; [done|]. done.
    + cbn [Z.eqb Pos.eqb]. destruct (at_here _ _ Hn) as [Hg2 _]. rewrite Hg2. run.
      destruct suf as [|c2 suf].
      { cbn [Z.eqb]. run. destruct (gettoken_end _ _ Hn) as (p' & -> & Hp'). run.
        injection Hlex as <- <-. eexists _, _, _. split; [done|]. split; [done|]. done. }
      cbn [Z.eqb Pos.eqb andb] in Hlex. destruct (c2 =? 62) eqn:E2; run.
      * destruct (gettoken_end _ _ (at_next _ _ _ Hn)) as (p' & -> & Hp'). run.
        injection Hlex as <- <-. eexists _, _, _. split; [done|]. split; [done|]. done.
      * destruct (gettoken_end _ _ Hn) as (p' & -> & Hp'). run.
        injection Hlex as <- <-. eexists _, _, _. split; [done|]. split; [done|]. done.
  - destruct (plain_cases c Hw Es) as (Hpl & -> & ->).
    destruct (skip_word_spec (c :: suf) _ q (scan_fuel_ok _ _ Ha) Ha) as (s' & -> & Ha' & Hs').
    run. destruct (gettoken_end _ _ Ha') as (p' & -> & Hp'). run.
    rewrite lex_plain in Hlex by done. injection Hlex as <- Hts.
    cbn [skip span app] in *. rewrite Hpl in *. rewrite Hts in Hp'.
    eexists _, _, _. split; [done|]. split; [done|]. intros w [= <-].
    exists (skip plain suf). cbn [app]. rewrite span_skip. split; [done|]. split; [done|].
    split; [constructor; [done|apply span_Forall]|].
    destruct (skip plain suf) as [|c' s''] eqn:Ek; [done|]. by eapply skip_head.
Qed.

Lemma gettoken_none p : toks_at p [] ->
  exists q e p', gettoken mem p es = Ok (0, q, e, p') /\ toks_at p' [].
Proof.
  intros Ht. destruct (skipped _ _ Ht) as (q & suf & Hs & Ha & Hlex & Hw).
  unfold gettoken. rewrite Hs. run. destruct (at_here _ _ Ha) as [Hg _]. rewrite Hg. run.
  destruct suf as [|c suf].
  - cbn [Z.eqb]. run. destruct (gettoken_end _ _ Ha) as (p' & -> & Hp'). run.
    eexists _, _, _. split; [done|]. done.
  - exfalso. specialize (Hw c suf eq_refl). cbn [lex] in Hlex. rewrite Hw in Hlex.
    destruct (symbol c); [|by rewrite lex_plain in Hlex].
    destruct suf; [done|]. cbn in Hlex. by destruct (_ && _).
Qed.

(** ** Trees over the text *)

Definition pad (l : list Z) : list (option Z) :=
  (Some <$> l) ++ replicate (Z.to_nat MAXARGS - length l) None.

Definition args_read (argv eargv : list (option Z)) (ws : list (list Z)) : Prop :=
  exists qs qe, argv = pad qs /\ eargv = pad qe /\ Forall3 word_at qs qe ws /\
    (length ws <= Z.to_nat MAXARGS)%nat.

(** The words that the pointers of a command delimit. *)
Fixpoint reads (c : cmd) (sc : scmd) : Prop :=
  match c, sc with
  | EXEC argv eargv, CExec ws => args_read argv eargv ws
  | REDIR c q e mode fd, CRedir sc w mode' fd' =>
      reads c sc /\ word_at q e w /\ mode = mode' /\ fd = fd'
  | PIPE l r, CPipe l' r' => reads l l' /\ reads r r'
  | LIST l r, CList l' r' => reads l l' /\ reads r r'
  | BACK c, CBack sc => reads c sc
  | _, _ => False
  end.

Lemma pad_insert l n x : length l = n -> (n < Z.to_nat MAXARGS)%nat ->
  <[n := Some x]> (pad l) = pad (l ++ [x]).
Proof.
  intros <- Hn. unfold pad. rewrite fmap_app, length_app. cbn [length fmap list_fmap].
  rewrite insert_app_r_alt by (by rewrite length_fmap). rewrite length_fmap, Nat.sub_diag.
  destruct (Z.to_nat MAXARGS - length l)%nat as [|k] eqn:E; [lia|]. cbn [replicate].
  rewrite <- app_assoc. f_equal. cbn. f_equal. f_equal. lia.
Qed.

Lemma pad_null l : (length l < Z.to_nat MAXARGS)%nat -> <[length l := None]> (pad l) = pad l.
Proof.
  intros Hn. apply list_insert_id. unfold pad.
  rewrite lookup_app_r by (by rewrite length_fmap). rewrite length_fmap, Nat.sub_diag.
  apply lookup_replicate. split; [done|lia].
Qed.

Lemma length_pad l : (length l <= Z.to_nat MAXARGS)%nat -> length (pad l) = Z.to_nat MAXARGS.
Proof. intros. unfold pad. rewrite length_app, length_fmap, length_replicate. lia. Qed.

Lemma args_set argv eargv ws q e w : args_read argv eargv ws -> word_at q e w ->
  Z.of_nat (length ws) < MAXARGS ->
  exists argv' eargv', set_arg (EXEC argv eargv) (Z.of_nat (length ws)) (Some q) (Some e) = Ok (EXEC argv' eargv') /\
    args_read argv' eargv' (ws ++ [w]).
Proof.
  intros (qs & qe & -> & -> & H3 & Hl) Hw Hn. unfold MAXARGS in Hn.
  pose proof (Forall3_length_lm _ _ _ _ H3) as L1. pose proof (Forall3_length_lr _ _ _ _ H3) as L2.
  cbn [set_arg]. rewrite aset_nat by (rewrite length_pad; unfold MAXARGS in *; lia). run.
  rewrite aset_nat by (rewrite length_pad; unfold MAXARGS in *; lia). run.
  rewrite !pad_insert by (unfold MAXARGS; lia).
  eexists _, _. split; [done|]. exists (qs ++ [q]), (qe ++ [e]). do 2 (split; [done|]). split.
  - apply Forall3_app; [done|]. by repeat constructor.
  - rewrite length_app. unfold MAXARGS. cbn. lia.
Qed.

Lemma args_end argv eargv ws : args_read argv eargv ws -> Z.of_nat (length ws) < MAXARGS ->
  set_arg (EXEC argv eargv) (Z.of_nat (length ws)) None None = Ok (EXEC argv eargv).
Proof.
  intros (qs & qe & -> & -> & H3 & Hl) Hn. unfold MAXARGS in Hn.
  pose proof (Forall3_length_lm _ _ _ _ H3) as L1. pose proof (Forall3_length_lr _ _ _ _ H3) as L2.
  cbn [set_arg]. rewrite aset_nat by (rewrite length_pad; unfold MAXARGS in *; lia). run.
  rewrite aset_nat by (rewrite length_pad; unfold MAXARGS in *; lia). run.
  rewrite <- L2 at 1. rewrite pad_null by (unfold MAXARGS; lia).
  assert (length ws = length qe) as -> by lia. by rewrite pad_null by (unfold MAXARGS; lia).
Qed.

(** An [execcmd] with the words [ws] inside the redirections [rs]. *)
Definition exec_tree (ws : list (list Z)) (rs : list redir) : scmd := foldl redirect (CExec ws) rs.

Lemma exec_tree_snoc ws rs r : exec_tree ws (rs ++ [r]) = redirect (exec_tree ws rs) r.
Proof. unfold exec_tree. by rewrite foldl_app. Qed.

Lemma reads_redirect c sc r : reads c (redirect sc r) ->
  exists c' q e w mode fd, c = REDIR c' q e mode fd /\ reads c' sc /\ word_at q e w /\
    (forall sc', redirect sc' r = CRedir sc' w mode fd).
Proof. destruct c, r; cbn; try done; intros (? & ? & -> & ->); by eauto 12. Qed.

Lemma set_arg_reads ws rs q e w : forall ret, reads ret (exec_tree ws rs) -> word_at q e w ->
  Z.of_nat (length ws) < MAXARGS ->
  exists ret', set_arg ret (Z.of_nat (length ws)) (Some q) (Some e) = Ok ret' /\
    reads ret' (exec_tree (ws ++ [w]) rs).
Proof.
  induction rs as [|r rs IH] using rev_ind; intros ret Hr Hw Hn.
  - destruct ret; try done. destruct (args_set _ _ _ _ _ _ Hr Hw Hn) as (? & ? & -> & ?). eauto.
  - rewrite exec_tree_snoc in Hr.
    destruct (reads_redirect _ _ _ Hr) as (c' & q' & e' & w' & mode & fd & -> & Hc & Hw' & Hred).
    destruct (IH _ Hc Hw Hn) as (ret' & Hs & Hr'). cbn [set_arg]. rewrite Hs. run.
    eexists. split; [done|]. by rewrite exec_tree_snoc, Hred.
Qed.

Lemma set_arg_null ws rs : forall ret, reads ret (exec_tree ws rs) -> Z.of_nat (length ws) < MAXARGS ->
  set_arg ret (Z.of_nat (length ws)) None None = Ok ret.
Proof.
  induction rs as [|r rs IH] using rev_ind; intros ret Hr Hn.
  - destruct ret; try done. by apply args_end.
  - rewrite exec_tree_snoc in Hr.
    destruct (reads_redirect _ _ _ Hr) as (c' & q' & e' & w' & mode & fd & -> & Hc & _ & _).
    cbn [set_arg]. by rewrite (IH _ Hc Hn).
Qed.

Lemma reads_execcmd : reads execcmd (exec_tree [] []).
Proof. exists [], []. split; [done|]. split; [done|]. split; [constructor|cbn; lia]. Qed.

(** ** The loops of the parser *)

Lemma toks_at_good p ts : toks_at p ts -> Forall good_tok ts.
Proof. intros (suf & _ & <-). apply lex_good. Qed.

Lemma code_word p t ts : toks_at p (t :: ts) -> (tok_code t =? 0) = false /\
  (tok_code t =? 97) = match t with Word _ => true | _ => false end.
Proof.
  intros Hg%toks_at_good. inversion_clear Hg as [|?? Ht]. destruct t as [w|c|]; cbn in *; [done| |done].
  unfold symbol in Ht. apply bool_decide_eq_true in Ht. set_unfold. split; apply Z.eqb_neq; lia.
Qed.

(** A result of the parser that satisfies [P], or a syntax error. *)
Definition parsed (r : res (cmd * Z)) (P : cmd -> Z -> Prop) : Prop :=
  match r with Ok (c, p) => P c p | Stuck f => f = Panicked end.

Lemma parsed_bind {A B} (m : res A) (k : A -> res B) (Q : res B -> Prop) :
  (forall f, m = Stuck f -> Q (Stuck f)) -> (forall a, m = Ok a -> Q (k a)) -> Q (m ≫= k).
Proof. destruct m; cbn; eauto. Qed.

(** The redirection that its first token and its file make. *)
Definition redir_of (t : tok) (w : list Z) : redir :=
  match t with Sym 60 => RIn w | Append => RApp w | _ => ROut w end.

(** The node that [parseredirs] builds after the token [t]. *)
Definition redir_node (t : tok) (c : cmd) (q e : Z) : cmd :=
  if tok_code t =? 60 then REDIR c q e O_RDONLY 0
  else if tok_code t =? 62 then REDIR c q e (Z.lor O_WRONLY O_CREATE) 1
  else if tok_code t =? 43 then REDIR c q e (Z.lor O_WRONLY O_CREATE) 1
  else c.

Lemma starts_redir ts : starts [60; 62] ts = true ->
  exists t ts', ts = t :: ts' /\ (forall w, redir_toks (redir_of t w) = [t; Word w]) /\
    (forall c sc q e w, reads c sc -> word_at q e w -> reads (redir_node t c q e) (redirect sc (redir_of t w))).
Proof.
  destruct ts as [|[w|c|] ts]; cbn [starts]; try done; intros H%bool_decide_eq_true.
  - apply elem_of_cons in H as [->|H]; [|apply elem_of_cons in H as [->|H]; [|by apply elem_of_nil in H]];
      eexists _, _; (split; [done|]); split; done.
  - eexists _, _; (split; [done|]); split; done.
Qed.

Ltac peek_step H := let p' := fresh "p" in let Hp := fresh "Hp" in let Hat := fresh "Hat" in
  match goal with |- context [peek _ _ _ ?l] =>
    let l' := eval cbv in (removelast l) in
    destruct (peek_spec _ _ l' H) as (p' & Hp & Hat);
    [intros ?; set_unfold; lia|]; change l with (l' ++ [0]); rewrite Hp; clear Hp; run
  end.

Ltac token_step H := let q := fresh "q" in let e := fresh "e" in let p' := fresh "p" in
  let Hp := fresh "Hp" in let Hat := fresh "Hat" in let Hw := fresh "Hw" in
  first [destruct (gettoken_spec _ _ _ H) as (q & e & p' & Hp & Hat & Hw)
        |destruct (gettoken_none _ H) as (q & e & p' & Hp & Hat)];
  rewrite Hp; clear Hp; run.

Lemma parseredirs_sound fuel : forall c sc p ts, (length ts < fuel)%nat -> toks_at p ts -> reads c sc ->
  parsed (parseredirs fuel c mem p es) (fun c' p' =>
    exists rs ts', ts = redirs_toks rs ++ ts' /\ toks_at p' ts' /\ reads c' (foldl redirect sc rs)).
Proof.
  induction fuel as [|fuel IH]; intros c sc p ts Hf Ht Hr; [lia|]. cbn [parseredirs].
  peek_step Ht. destruct (starts [60; 62] ts) eqn:Es.
  2:{ exists [], ts. done. }
  destruct (starts_redir _ Es) as (t & ts1 & -> & Htoks & Hred). token_step Hat.
  destruct ts1 as [|t2 ts2].
  { by token_step Hat0. }
  token_step Hat0. destruct (code_word _ _ _ Hat0) as [_ ->].
  destruct t2 as [w| |]; cbn [negb]; try done. fold (redir_node t c q0 e0).
  specialize (IH _ _ _ ts2 ltac:(cbn in Hf; lia) Hat1 (Hred _ _ _ _ _ Hr (Hw0 _ eq_refl))).
  destruct (parseredirs _ _ _ _ _) as [[c' p']|f]; cbn [parsed] in *; [|done].
  destruct IH as (rs & ts' & -> & Hat' & Hr'). exists (redir_of t w :: rs), ts'.
  split; [|done]. unfold redirs_toks. cbn [mbind list_bind]. by rewrite Htoks.
Qed.

Lemma redir_first r : exists t w, redir_toks r = [t; Word w] /\ r = redir_of t w /\ starts [60; 62] [t] = true.
Proof. destruct r; eexists _, _; done. Qed.

Lemma parseredirs_complete rs : forall fuel c sc p ts', (length (redirs_toks rs ++ ts') < fuel)%nat ->
  toks_at p (redirs_toks rs ++ ts') -> starts [60; 62] ts' = false -> reads c sc ->
  exists c' p', parseredirs fuel c mem p es = Ok (c', p') /\ toks_at p' ts' /\ reads c' (foldl redirect sc rs).
Proof.
  induction rs as [|r rs IH]; intros [|fuel] c sc p ts' Hf Ht Hend Hr; try lia; cbn [parseredirs].
  - peek_step Ht. change (redirs_toks [] ++ ts') with ts' in *. rewrite Hend. by eexists _, _.
  - destruct (redir_first r) as (t & w & Hrt & -> & Hst).
    assert (Heq : redirs_toks (redir_of t w :: rs) ++ ts' = t :: Word w :: redirs_toks rs ++ ts').
    { unfold redirs_toks. cbn [mbind list_bind]. by rewrite Hrt. }
    rewrite Heq in *. peek_step Ht. 
    assert (Hst' : starts [60; 62] (t :: Word w :: redirs_toks rs ++ ts') = true) by (by destruct t).
    rewrite Hst'. destruct (starts_redir _ Hst') as (t' & ts1 & [= <- <-] & Htoks & Hred).
    token_step Hat. token_step Hat0. cbn [tok_code Z.eqb Pos.eqb negb]. fold (redir_node t c q0 e0).
    apply IH; [cbn in Hf; lia|done|done|]. apply Hred; [done|]. by apply Hw0.
Qed.

(** *** Arguments *)

Definition arg_end : list Z := [124; 41; 38; 59].

Lemma foldl_redirect_app sc rs rs' : foldl redirect (foldl redirect sc rs) rs' = foldl redirect sc (rs ++ rs').
Proof. by rewrite foldl_app. Qed.

Lemma parseargs_sound fuel : forall ret ws rs p ts, (length ts < fuel)%nat -> toks_at p ts ->
  reads ret (exec_tree ws rs) -> Z.of_nat (length ws) < MAXARGS ->
  parsed (parseargs fuel ret (Z.of_nat (length ws)) mem p es) (fun c' p' =>
    exists args ts', ts = args_toks args ++ ts' /\ toks_at p' ts' /\
      Z.of_nat (length (ws ++ args.*1)) < MAXARGS /\
      reads c' (exec_tree (ws ++ args.*1) (rs ++ (args ≫= snd)))).
Proof.
  induction fuel as [|fuel IH]; intros ret ws rs p ts Hf Ht Hr Hn; [lia|]. cbn [parseargs].
  peek_step Ht.
  assert (Hstop : forall ps, toks_at ps ts -> parsed (ret0 ← set_arg ret (Z.of_nat (length ws)) None None; Ok (ret0, ps))
    (fun c' p' => exists args ts', ts = args_toks args ++ ts' /\ toks_at p' ts' /\
      Z.of_nat (length (ws ++ args.*1)) < MAXARGS /\
      reads c' (exec_tree (ws ++ args.*1) (rs ++ (args ≫= snd))))).
  { intros ps Hps. rewrite (set_arg_null _ _ _ Hr Hn). run. exists [], ts. cbn. rewrite !app_nil_r. done. }
  destruct (starts _ ts); [by apply Hstop|].
  destruct ts as [|t ts]; token_step Hat; [by apply Hstop|].
  destruct (code_word _ _ _ Hat) as [-> ->]. destruct t as [w| |]; cbn [negb]; try done.
  destruct (set_arg_reads _ _ _ _ _ _ Hr (Hw _ eq_refl) Hn) as (ret' & -> & Hr'). run.
  assert (Hlen : Z.of_nat (length ws) + 1 = Z.of_nat (length (ws ++ [w]))) by (rewrite length_app; cbn; lia).
  rewrite Hlen. case_if; [done|].
  pose proof (parseredirs_sound (scan_fuel p1 es) ret' _ p1 ts (toks_at_length _ _ Hat0) Hat0 Hr') as Hrd.
  destruct (parseredirs _ _ _ _ _) as [[c1 p2]|f]; cbn [parsed] in Hrd; run; [|done].
  destruct Hrd as (rs1 & ts1 & -> & Hat1 & Hr1). unfold exec_tree in Hr1.
  rewrite foldl_redirect_app in Hr1. fold (exec_tree (ws ++ [w]) (rs ++ rs1)) in Hr1.
  specialize (IH c1 (ws ++ [w]) (rs ++ rs1) p2 ts1). cbn in Hf. rewrite length_app in Hf.
  specialize (IH ltac:(lia) Hat1 Hr1 ltac:(lia)).
  destruct (parseargs _ _ _ _ _ _) as [[c' p']|f]; cbn [parsed] in *; [|done].
  destruct IH as (args & ts' & -> & Hat' & Hb & Hr2).
  exists ((w, rs1) :: args), ts'. rewrite <- !app_assoc in *. split; [|done].
  unfold args_toks. cbn. by rewrite <- app_assoc.
Qed.

Lemma parseargs_complete args : forall fuel ret ws rs p ts', (length (args_toks args ++ ts') < fuel)%nat ->
  toks_at p (args_toks args ++ ts') -> (ts' = [] \/ starts arg_end ts' = true) ->
  reads ret (exec_tree ws rs) -> Z.of_nat (length (ws ++ args.*1)) < MAXARGS ->
  exists c' p', parseargs fuel ret (Z.of_nat (length ws)) mem p es = Ok (c', p') /\ toks_at p' ts' /\
      reads c' (exec_tree (ws ++ args.*1) (rs ++ (args ≫= snd))).
Proof.
  induction args as [|[w rs1] args IH]; intros [|fuel] ret ws rs p ts' Hf Ht Hend Hr Hn; try lia;
    cbn [parseargs].
  - change (args_toks [] ++ ts') with ts' in *. peek_step Ht. cbn [fmap list_fmap mbind list_bind] in *. rewrite !app_nil_r in *.
    fold arg_end. destruct Hend as [->|Hend].
    + cbn [starts]. token_step Hat. cbn [Z.eqb]. rewrite (set_arg_null _ _ _ Hr Hn). run. by eexists _, _.
    + rewrite Hend. rewrite (set_arg_null _ _ _ Hr Hn). run. by eexists _, _.
  - assert (Heq : args_toks ((w, rs1) :: args) ++ ts' = Word w :: redirs_toks rs1 ++ args_toks args ++ ts').
    { unfold args_toks. cbn. by rewrite <- app_assoc. }
    rewrite Heq in *. peek_step Ht. cbn [starts]. token_step Hat. cbn [tok_code Z.eqb Pos.eqb negb].
    assert (Hlen : Z.of_nat (length ws) + 1 = Z.of_nat (length (ws ++ [w]))) by (rewrite length_app; cbn; lia).
    cbn [fmap list_fmap fst] in Hn. rewrite cons_middle, app_assoc in Hn.
    assert (Z.of_nat (length (ws ++ [w])) < MAXARGS) by (rewrite length_app in Hn; lia).
    destruct (set_arg_reads _ _ _ _ _ _ Hr (Hw _ eq_refl) ltac:(lia)) as (ret' & -> & Hr'). run.
    rewrite Hlen. case_if; [lia|].
    destruct (parseredirs_complete rs1 (scan_fuel p1 es) ret' (exec_tree (ws ++ [w]) rs) p1 (args_toks args ++ ts')
      (toks_at_length _ _ Hat0) Hat0) as (c1 & p2 & -> & Hat1 & Hr1); [|done|].
    { destruct args as [|[w' ?] ?]; [|done]. cbn. destruct Hend as [->|He]; [done|].
      destruct ts' as [|[]]; try done; cbn in *; apply bool_decide_eq_true in He;
        apply bool_decide_eq_false; set_unfold; lia. }
    run. unfold exec_tree in Hr1. rewrite foldl_redirect_app in Hr1. fold (exec_tree (ws ++ [w]) (rs ++ rs1)) in Hr1.
    destruct (IH fuel c1 (ws ++ [w]) (rs ++ rs1) p2 ts') as (c' & p' & -> & Hat' & Hr2); try done.
    { cbn in Hf. rewrite length_app in Hf. lia. }
    eexists _, _. split; [done|]. split; [done|]. cbn. rewrite <- !app_assoc in Hr2. done.
Qed.

(** *** Background commands *)

(** One symbol that [peek] has found. *)
Lemma starts_sym c ts : c <> 62 -> starts [c] ts = true -> exists ts', ts = Sym c :: ts'.
Proof.
  intros Hc. destruct ts as [|[w|c'|] ts]; cbn; try done; intros H%bool_decide_eq_true.
  - apply list_elem_of_singleton in H as ->. eauto.
  - apply list_elem_of_singleton in H. congruence.
Qed.

Lemma parseback_sound fuel : forall c sc p ts, (length ts < fuel)%nat -> toks_at p ts -> reads c sc ->
  exists n ts' c' p', parseback fuel c mem p es = Ok (c', p') /\ ts = replicate n (Sym 38) ++ ts' /\
    toks_at p' ts' /\ starts [38] ts' = false /\ reads c' (Nat.iter n CBack sc).
Proof.
  induction fuel as [|fuel IH]; intros c sc p ts Hf Ht Hr; [lia|]. cbn [parseback].
  peek_step Ht. destruct (starts [38] ts) eqn:Es.
  - destruct (starts_sym 38 _ ltac:(done) Es) as [ts1 ->].
    token_step Hat. destruct (IH (BACK c) (CBack sc) p1 ts1) as (n & ts' & c' & p' & -> & -> & ? & ? & Hr');
      [cbn in Hf; lia|done|done|].
    exists (S n), ts', c', p'. do 4 (split; [done|]). by rewrite Nat.iter_succ_r.
  - by exists 0%nat, ts, c, p0.
Qed.

(** The number of [&] is that of the text. *)
Lemma back_unique n n' ts ts' : replicate n (Sym 38) ++ ts = replicate n' (Sym 38) ++ ts' ->
  starts [38] ts = false -> starts [38] ts' = false -> n = n' /\ ts = ts'.
Proof.
  revert n'. induction n as [|n IH]; intros [|n'] H Hs Hs'; cbn in H.
  - done.
  - by subst ts.
  - by subst ts'.
  - injection H as H. destruct (IH _ H Hs Hs') as [-> ->]. done.
Qed.

(** ** The grammar *)

Definition line_ok (fuel : nat) : Prop := forall p ts, toks_at p ts -> (4 * length ts + 4 <= fuel)%nat ->
  parsed (parseline fuel mem p es) (fun c p' => exists l ts', ts = line_toks l ++ ts' /\ toks_at p' ts' /\
    line_fits l /\ reads c (line_tree l)).
Definition pipe_ok (fuel : nat) : Prop := forall p ts, toks_at p ts -> (4 * length ts + 3 <= fuel)%nat ->
  parsed (parsepipe fuel mem p es) (fun c p' => exists l ts', ts = pipe_toks l ++ ts' /\ toks_at p' ts' /\
    pipe_fits l /\ reads c (pipe_tree l)).
Definition exec_ok (fuel : nat) : Prop := forall p ts, toks_at p ts -> (4 * length ts + 2 <= fuel)%nat ->
  parsed (parseexec fuel mem p es) (fun c p' => exists l ts', ts = simple_toks l ++ ts' /\ toks_at p' ts' /\
    simple_fits l /\ reads c (simple_tree l)).
Definition block_ok (fuel : nat) : Prop := forall p ts, toks_at p ts -> (4 * length ts + 1 <= fuel)%nat ->
  parsed (parseblock fuel mem p es) (fun c p' => exists l ts', ts = simple_toks l ++ ts' /\ toks_at p' ts' /\
    simple_fits l /\ reads c (simple_tree l)).

Lemma line_sound fuel : line_ok fuel -> pipe_ok fuel -> line_ok (S fuel).
Proof.
  intros IHl IHp p ts Ht Hf. cbn [parseline]. specialize (IHp p ts Ht ltac:(lia)).
  destruct (parsepipe _ _ _ _) as [[c p1]|f]; cbn [parsed] in IHp; run; [|done].
  destruct IHp as (pl & ts1 & -> & Hat & Hfit & Hr). rewrite length_app in Hf.
  destruct (parseback_sound (scan_fuel p1 es) c _ p1 ts1 (toks_at_length _ _ Hat) Hat Hr)
    as (n & ts2 & c2 & p2 & -> & -> & Hat2 & _ & Hr2). run.
  rewrite length_app in Hf.
  peek_step Hat2. destruct (starts [59] ts2) eqn:Es.
  - destruct (starts_sym 59 _ ltac:(done) Es) as [ts3 ->]. token_step Hat0. cbn in Hf.
    specialize (IHl _ ts3 Hat1 ltac:(lia)).
    destruct (parseline _ _ _ _) as [[c3 p3']|f]; cbn [parsed] in IHl; run; [|done].
    destruct IHl as (l & ts4 & -> & Hat4 & Hfit4 & Hr4). exists (LSeq pl n l), ts4. cbn.
    rewrite <- !app_assoc. done.
  - exists (LEnd pl n), ts2. cbn. rewrite <- !app_assoc. done.
Qed.

Lemma pipe_sound fuel : pipe_ok fuel -> exec_ok fuel -> pipe_ok (S fuel).
Proof.
  intros IHp IHe p ts Ht Hf. cbn [parsepipe]. specialize (IHe p ts Ht ltac:(lia)).
  destruct (parseexec _ _ _ _) as [[c p1]|f]; cbn [parsed] in IHe; run; [|done].
  destruct IHe as (e & ts1 & -> & Hat & Hfit & Hr). rewrite length_app in Hf.
  peek_step Hat. destruct (starts [124] ts1) eqn:Es.
  - destruct (starts_sym 124 _ ltac:(done) Es) as [ts2 ->]. token_step Hat0. cbn in Hf.
    specialize (IHp _ ts2 Hat1 ltac:(lia)).
    destruct (parsepipe _ _ _ _) as [[c3 p3]|f]; cbn [parsed] in IHp; run; [|done].
    destruct IHp as (l & ts4 & -> & Hat4 & Hfit4 & Hr4). exists (PBar e l), ts4. cbn.
    rewrite <- !app_assoc. done.
  - exists (POne e), ts1. done.
Qed.

Lemma exec_sound fuel : block_ok fuel -> exec_ok (S fuel).
Proof.
  intros IHb p ts Ht Hf. cbn [parseexec]. peek_step Ht. destruct (starts [40] ts) eqn:Es.
  - apply IHb; [done|lia].
  - pose proof (parseredirs_sound (scan_fuel p0 es) execcmd _ p0 ts (toks_at_length _ _ Hat) Hat reads_execcmd) as Hrd.
    destruct (parseredirs _ _ _ _ _) as [[c p1]|f]; cbn [parsed] in Hrd; run; [|done].
    destruct Hrd as (rs & ts1 & -> & Hat1 & Hr).
    pose proof (parseargs_sound (scan_fuel p1 es) c [] rs p1 ts1 (toks_at_length _ _ Hat1) Hat1 Hr ltac:(done)) as Ha.
    cbn [length Z.of_nat] in Ha.
    destruct (parseargs _ _ _ _ _ _) as [[c2 p2]|f]; cbn [parsed] in *; [|done].
    destruct Ha as (args & ts2 & -> & Hat2 & Hn & Hr2). exists (SWords rs args), ts2.
    cbn in *. rewrite <- app_assoc, length_fmap in *. done.
Qed.

Lemma block_sound fuel : line_ok fuel -> block_ok (S fuel).
Proof.
  intros IHl p ts Ht Hf. cbn [parseblock]. peek_step Ht. destruct (starts [40] ts) eqn:Es; cbn [negb]; [|done].
  destruct (starts_sym 40 _ ltac:(done) Es) as [ts1 ->]. token_step Hat. cbn in Hf.
  specialize (IHl _ ts1 Hat0 ltac:(lia)).
  destruct (parseline _ _ _ _) as [[c p2]|f]; cbn [parsed] in IHl; run; [|done].
  destruct IHl as (l & ts2 & -> & Hat2 & Hfit & Hr).
  peek_step Hat2. destruct (starts [41] ts2) eqn:Es2; cbn [negb]; [|done].
  destruct (starts_sym 41 _ ltac:(done) Es2) as [ts3 ->]. token_step Hat1.
  pose proof (parseredirs_sound (scan_fuel p4 es) c _ p4 ts3 (toks_at_length _ _ Hat3) Hat3 Hr) as Hrd.
  destruct (parseredirs _ _ _ _ _) as [[c' p']|f]; cbn [parsed] in *; [|done].
  destruct Hrd as (rs & ts4 & -> & Hat4 & Hr4). exists (SBlock l rs), ts4. cbn.
  rewrite <- !app_assoc. done.
Qed.

Lemma parser_sound fuel : line_ok fuel /\ pipe_ok fuel /\ exec_ok fuel /\ block_ok fuel.
Proof.
  induction fuel as [|fuel (IHl & IHp & IHe & IHb)].
  - split_and!; intros ????; lia.
  - split_and!; eauto using line_sound, pipe_sound, exec_sound, block_sound.
Qed.

(** What may follow: the end of the text or a symbol of [l]. *)
Definition follow (l : list Z) (ts : list tok) : Prop := ts = [] \/ starts l ts = true.

Lemma follow_not l l' ts : follow l ts -> (forall c, c ∈ l -> c ∉ l') -> starts l' ts = false.
Proof.
  intros [->|H] Hd; [done|]. destruct ts as [|[w|c|] ts]; cbn in *; try done;
    apply bool_decide_eq_true in H; apply bool_decide_eq_false; by apply Hd.
Qed.

Lemma follow_weaken l l' ts : follow l ts -> l ⊆ l' -> follow l' ts.
Proof.
  intros [->|H] Hd; [by left|]. right. destruct ts as [|[w|c|] ts]; cbn in *; try done;
    apply bool_decide_eq_true in H; apply bool_decide_eq_true; by apply Hd.
Qed.

Ltac follows := first [eassumption
  | eapply follow_not; [eassumption|intros ?; unfold arg_end; set_unfold; lia]
  | eapply follow_weaken; [eassumption|intros ?; unfold arg_end; set_unfold; lia]].

Definition line_done (l : line) : Prop := forall fuel p ts', toks_at p (line_toks l ++ ts') ->
  (4 * length (line_toks l ++ ts') + 4 <= fuel)%nat -> follow [41] ts' -> line_fits l ->
  exists c p', parseline fuel mem p es = Ok (c, p') /\ toks_at p' ts' /\ reads c (line_tree l).
Definition pipe_done (l : pipeline) : Prop := forall fuel p ts', toks_at p (pipe_toks l ++ ts') ->
  (4 * length (pipe_toks l ++ ts') + 3 <= fuel)%nat -> follow [41; 38; 59] ts' -> pipe_fits l ->
  exists c p', parsepipe fuel mem p es = Ok (c, p') /\ toks_at p' ts' /\ reads c (pipe_tree l).
Definition exec_done (l : simple) : Prop := forall fuel p ts', toks_at p (simple_toks l ++ ts') ->
  (4 * length (simple_toks l ++ ts') + 2 <= fuel)%nat -> follow arg_end ts' -> simple_fits l ->
  exists c p', parseexec fuel mem p es = Ok (c, p') /\ toks_at p' ts' /\ reads c (simple_tree l).

Lemma follow_back n ts l : follow l ts -> 38 ∈ l -> follow l (replicate n (Sym 38) ++ ts).
Proof. intros Hf Hin. destruct n; [done|]. right. cbn. by apply bool_decide_eq_true. Qed.

(** A line up to its last [&], followed by [ts']. *)
Lemma line_prefix pl n ts' fuel p : pipe_done pl ->
  toks_at p (pipe_toks pl ++ replicate n (Sym 38) ++ ts') ->
  (4 * length (pipe_toks pl ++ replicate n (Sym 38) ++ ts') + 3 <= fuel)%nat ->
  follow [41; 59] ts' -> pipe_fits pl ->
  exists c p1 c2 p2, parsepipe fuel mem p es = Ok (c, p1) /\
    parseback (scan_fuel p1 es) c mem p1 es = Ok (c2, p2) /\
    toks_at p2 ts' /\ reads c2 (Nat.iter n CBack (pipe_tree pl)).
Proof.
  intros IH Ht Hf Hfol Hfit.
  destruct (IH fuel p _ Ht Hf) as (c & p1 & Hp & Hat & Hr); [|done|].
  { apply follow_back; [follows|set_solver]. }
  destruct (parseback_sound (scan_fuel p1 es) c _ p1 _ (toks_at_length _ _ Hat) Hat Hr)
    as (n2 & ts2 & c2 & p2 & Hb & Heq & Hat2 & Hs2 & Hr2).
  destruct (back_unique _ _ _ _ Heq) as [-> ->]; [follows|done|].
  by exists c, p1, c2, p2.
Qed.

Lemma line_end_done pl n : pipe_done pl -> line_done (LEnd pl n).
Proof.
  intros IH fuel p ts' Ht Hf Hfol Hfit. destruct fuel as [|fuel]; [lia|].
  cbn [line_toks] in *. rewrite <- app_assoc in *.
  destruct (line_prefix pl n ts' fuel p IH Ht ltac:(lia) ltac:(follows) Hfit)
    as (c & p1 & c2 & p2 & Hp & Hb & Hat & Hr).
  cbn [parseline]. rewrite Hp. run. rewrite Hb. run. peek_step Hat.
  replace (starts [59] ts') with false by (symmetry; follows). by eexists _, _.
Qed.

Lemma line_seq_done pl n l : pipe_done pl -> line_done l -> line_done (LSeq pl n l).
Proof.
  intros IH IHl fuel p ts' Ht Hf Hfol [Hfit Hfit']. destruct fuel as [|fuel]; [lia|].
  assert (Heq : line_toks (LSeq pl n l) ++ ts' = pipe_toks pl ++ replicate n (Sym 38) ++ Sym 59 :: line_toks l ++ ts')
    by (cbn; by rewrite <- !app_assoc).
  rewrite Heq in *.
  destruct (line_prefix pl n _ fuel p IH Ht ltac:(lia) ltac:(by right) Hfit)
    as (c & p1 & c2 & p2 & Hp & Hb & Hat & Hr).
  cbn [parseline]. rewrite Hp. run. rewrite Hb. run. peek_step Hat. cbn [starts].
  rewrite bool_decide_true by set_solver. token_step Hat0.
  rewrite !length_app in Hf. cbn [length] in Hf.
  destruct (IHl fuel p3 ts' Hat1 ltac:(lia) Hfol Hfit') as (c3 & p4 & -> & Hat3 & Hr3). run.
  by eexists _, _.
Qed.

Lemma pipe_one_done e : exec_done e -> pipe_done (POne e).
Proof.
  intros IH fuel p ts' Ht Hf Hfol Hfit. destruct fuel as [|fuel]; [lia|].
  cbn [pipe_toks] in *. destruct (IH fuel p ts' Ht ltac:(lia) ltac:(follows) Hfit) as (c & p1 & Hp & Hat & Hr).
  cbn [parsepipe]. rewrite Hp. run. peek_step Hat.
  replace (starts [124] ts') with false by (symmetry; follows). by eexists _, _.
Qed.

Lemma pipe_bar_done e l : exec_done e -> pipe_done l -> pipe_done (PBar e l).
Proof.
  intros IH IHl fuel p ts' Ht Hf Hfol [Hfit Hfit']. destruct fuel as [|fuel]; [lia|].
  assert (Heq : pipe_toks (PBar e l) ++ ts' = simple_toks e ++ Sym 124 :: pipe_toks l ++ ts')
    by (cbn; by rewrite <- !app_assoc).
  rewrite Heq in *. destruct (IH fuel p _ Ht ltac:(lia) ltac:(by right) Hfit) as (c & p1 & Hp & Hat & Hr).
  cbn [parsepipe]. rewrite Hp. run. peek_step Hat. cbn [starts].
  rewrite bool_decide_true by set_solver. token_step Hat0.
  rewrite !length_app in Hf. cbn [length] in Hf.
  destruct (IHl fuel p2 ts' Hat1 ltac:(lia) Hfol Hfit') as (c3 & p4 & -> & Hat3 & Hr3). run.
  by eexists _, _.
Qed.

Lemma block_done l rs : line_done l -> exec_done (SBlock l rs).
Proof.
  intros IH fuel p ts' Ht Hf Hfol Hfit. destruct fuel as [|[|fuel]]; [lia..|].
  assert (Heq : simple_toks (SBlock l rs) ++ ts' = Sym 40 :: line_toks l ++ Sym 41 :: redirs_toks rs ++ ts')
    by (cbn; by rewrite <- !app_assoc).
  rewrite Heq in *. cbn [parseexec]. peek_step Ht. cbn [starts]. rewrite bool_decide_true by set_solver.
  cbn [parseblock]. peek_step Hat. cbn [starts]. rewrite bool_decide_true by set_solver. cbn [negb].
  token_step Hat0. cbn [length] in Hf.
  destruct (IH fuel p2 _ Hat1 ltac:(lia) ltac:(by right) Hfit) as (c & p3 & -> & Hat3 & Hr). run.
  peek_step Hat3. cbn [starts]. rewrite bool_decide_true by set_solver. cbn [negb]. token_step Hat2.
  apply parseredirs_complete; [by apply toks_at_length|done|follows|done].
Qed.

Lemma words_done rs args : exec_done (SWords rs args).
Proof.
  intros fuel p ts' Ht Hf Hfol Hfit. destruct fuel as [|fuel]; [lia|].
  cbn [simple_toks] in *. rewrite <- app_assoc in *. cbn [parseexec].
  assert (Hnr : forall l, (forall c, c ∈ arg_end -> c ∉ l) -> starts l (args_toks args ++ ts') = false).
  { intros l Hl. destruct args as [|[w ?] args]; [|done]. by eapply follow_not. }
  assert (Hnp : starts [40] (redirs_toks rs ++ args_toks args ++ ts') = false).
  { destruct rs as [|[] rs]; [|done..]. apply Hnr. intros ?. unfold arg_end. set_unfold. lia. }
  peek_step Ht. rewrite Hnp.
  destruct (parseredirs_complete rs (scan_fuel p0 es) execcmd _ p0 _ (toks_at_length _ _ Hat) Hat
    ltac:(apply Hnr; intros ?; unfold arg_end; set_unfold; lia) reads_execcmd) as (c & p1 & -> & Hat1 & Hr). run.
  apply (parseargs_complete args (scan_fuel p1 es) c [] rs p1 ts'); [by apply toks_at_length|done|done|done|].
  cbn in *. by rewrite length_fmap.
Qed.

Lemma parser_complete : (forall l, line_done l) /\ (forall p, pipe_done p) /\ (forall e, exec_done e).
Proof.
  apply grammar_ind; eauto using line_end_done, line_seq_done, pipe_one_done, pipe_bar_done,
    block_done, words_done.
Qed.

(** ** The strings *)

(** [m'] is [m] with NULs at the positions [E]. *)
Definition cut (m m' : list Z) (E : list Z) : Prop :=
  length m' = length m /\
  forall i : nat, m' !! i = if decide (Z.of_nat i ∈ E) then Some 0 else m !! i.

Definition break_at (e : Z) : Prop :=
  exists suf, at_suffix e suf /\ match suf with c :: _ => plain c = false | [] => True end.

Lemma word_break q e w : word_at q e w -> break_at e.
Proof.
  intros (suf & (pre & Ht & ->) & -> & _ & Hb). exists suf. split; [|done].
  exists (pre ++ w). rewrite <- app_assoc, length_app. split; [done|lia].
Qed.

Lemma break_range e : break_at e -> 0 <= e < Z.of_nat (length mem).
Proof.
  intros (suf & Ha & _). pose proof (at_end _ _ Ha). destruct Ha as (pre & _ & ->).
  unfold mem, es in *. rewrite length_app. cbn. lia.
Qed.

Lemma cut_nil m : cut m m [].
Proof. split; [done|]. intros i. by rewrite decide_False by apply not_elem_of_nil. Qed.

Lemma cut_app m1 m2 m3 E1 E2 : cut m1 m2 E1 -> cut m2 m3 E2 -> cut m1 m3 (E1 ++ E2).
Proof.
  intros [L1 H1] [L2 H2]. split; [congruence|]. intros i. rewrite H2, H1.
  repeat case_decide; set_solver.
Qed.

Lemma cut_one m e : break_at e -> length m = length mem -> exists m', aset m e 0 = Ok m' /\ cut m m' [e].
Proof.
  intros Hb%break_range Hl. rewrite aset_Ok by lia. eexists. split; [done|]. split; [apply length_insert|].
  intros i. case_decide as Hi.
  - apply list_elem_of_singleton in Hi. subst e. rewrite Nat2Z.id. apply list_lookup_insert_eq. lia.
  - apply list_lookup_insert_ne. intros <-. apply Hi. rewrite Z2Nat.id by lia. by left.
Qed.

Fixpoint ends (c : cmd) : list Z :=
  match c with
  | EXEC _ eargv => omap id eargv
  | REDIR c _ e _ _ => ends c ++ [e]
  | PIPE l r | LIST l r => ends l ++ ends r
  | BACK c => ends c
  end.

Fixpoint short (sc : scmd) : Prop :=
  match sc with
  | CExec ws => Z.of_nat (length ws) < MAXARGS
  | CRedir sc _ _ _ | CBack sc => short sc
  | CPipe l r | CList l r => short l /\ short r
  end.

Lemma short_redirects sc rs : short (foldl redirect sc rs) <-> short sc.
Proof. revert sc. induction rs as [|r rs IH]; intros sc; cbn; [done|]. rewrite IH. by destruct r. Qed.

Lemma short_backs n sc : short (Nat.iter n CBack sc) <-> short sc.
Proof. induction n; cbn; done. Qed.

Lemma fits_short : (forall l, line_fits l -> short (line_tree l)) /\
  (forall p, pipe_fits p -> short (pipe_tree p)) /\ (forall e, simple_fits e -> short (simple_tree e)).
Proof.
  apply grammar_ind; cbn; intros; rewrite ?short_backs, ?short_redirects; try naive_solver.
  cbn. by rewrite length_fmap.
Qed.

Lemma pad_ends qe : omap id (pad qe) = qe.
Proof.
  unfold pad. rewrite omap_app.
  assert (forall n, omap id (replicate n (None : option Z)) = []) as -> by (intros n; induction n; cbn; auto).
  rewrite app_nil_r. induction qe; cbn; [done|by f_equal].
Qed.

Lemma null_args_cut k qs qe ws : Forall3 word_at qs qe ws -> forall m, length m = length mem ->
  exists m', null_args ((Some <$> qs) ++ None :: k) ((Some <$> qe) ++ None :: k) m = Ok m' /\ cut m m' qe.
Proof.
  induction 1 as [|q e w qs qe ws Hw _ IH]; intros m Hm; cbn [fmap list_fmap app null_args].
  - eexists. split; [done|apply cut_nil].
  - destruct (cut_one m e (word_break _ _ _ Hw) Hm) as (m1 & -> & Hc). run.
    destruct (IH m1) as (m2 & -> & Hc2); [by destruct Hc as [-> _]|].
    eexists. split; [done|]. by apply (cut_app _ _ _ [e] qe Hc Hc2).
Qed.

Lemma pad_room l : (length l < Z.to_nat MAXARGS)%nat ->
  pad l = (Some <$> l) ++ None :: replicate (Z.to_nat MAXARGS - 1 - length l) None.
Proof.
  intros H. unfold pad. f_equal. by replace (Z.to_nat MAXARGS - length l)%nat with (S (Z.to_nat MAXARGS - 1 - length l)) by lia.
Qed.

Lemma nulterminate_cut c : forall sc m, reads c sc -> short sc -> length m = length mem ->
  exists m', nulterminate c m = Ok m' /\ cut m m' (ends c).
Proof.
  assert (Htwo : forall l r, (forall sc m, reads l sc -> short sc -> length m = length mem ->
      exists m', nulterminate l m = Ok m' /\ cut m m' (ends l)) ->
    (forall sc m, reads r sc -> short sc -> length m = length mem ->
      exists m', nulterminate r m = Ok m' /\ cut m m' (ends r)) ->
    forall sl sr m, reads l sl /\ reads r sr -> short sl /\ short sr -> length m = length mem ->
    exists m', (m ← nulterminate l m; nulterminate r m) = Ok m' /\ cut m m' (ends l ++ ends r)).
  { intros l r IHl IHr sl sr m [Hl Hr] [Sl Sr] Hm.
    destruct (IHl _ _ Hl Sl Hm) as (m1 & -> & H1). run.
    destruct (IHr _ m1 Hr Sr) as (m2 & -> & H2); [by destruct H1 as [-> _]|].
    eexists. split; [done|]. by eapply cut_app. }
  induction c as [argv eargv|c IH q e mode fd|l IHl r IHr|l IHl r IHr|c IH]; intros sc m Hr Hs Hm;
    destruct sc; try done; cbn [nulterminate ends] in *.
  - destruct Hr as (qs & qe & -> & -> & H3 & _). cbn [short] in Hs. unfold MAXARGS in Hs.
    pose proof (Forall3_length_lm _ _ _ _ H3). pose proof (Forall3_length_lr _ _ _ _ H3).
    rewrite pad_ends. rewrite !pad_room by (unfold MAXARGS; lia).
    replace (length qe) with (length qs) by lia. by eapply null_args_cut.
  - destruct Hr as (Hr & Hw & -> & ->). destruct (IH _ _ Hr Hs Hm) as (m1 & -> & H1). run.
    destruct (cut_one m1 e (word_break _ _ _ Hw)) as (m2 & -> & H2); [by destruct H1 as [-> _]|].
    eexists. split; [done|]. by eapply cut_app.
  - by eapply Htwo.
  - by eapply Htwo.
  - by eapply IH.
Qed.

Lemma ends_break c : forall sc, reads c sc -> Forall break_at (ends c).
Proof.
  induction c as [argv eargv|c IH q e mode fd|l IHl r IHr|l IHl r IHr|c IH]; intros sc Hr;
    destruct sc; try done; cbn [ends] in *.
  - destruct Hr as (qs & qe & -> & -> & H3 & _). rewrite pad_ends.
    induction H3; constructor; eauto using word_break.
  - destruct Hr as (Hr & Hw & -> & ->). apply Forall_app. split; [eauto|].
    constructor; [by eapply word_break|done].
  - destruct Hr as [H1 H2]. apply Forall_app. eauto.
  - destruct Hr as [H1 H2]. apply Forall_app. eauto.
  - eauto.
Qed.

Lemma at_unique p s1 s2 : at_suffix p s1 -> at_suffix p s2 -> s1 = s2.
Proof.
  intros (p1 & H1 & ->) (p2 & H2 & Hp). rewrite H1 in H2. apply app_inj_1 in H2; [by destruct H2|lia].
Qed.

Lemma word_kept m' E q e w : cut mem m' E -> Forall break_at E -> word_at q e w -> e ∈ E ->
  string_at m' q = Some w.
Proof.
  intros [_ Hc] HE (suf & Ha & -> & Hpl & _) Hin. unfold string_at.
  revert q Ha Hin. induction Hpl as [|c w Hp _ IH]; intros q Ha Hin.
  - cbn in *. rewrite Z.add_0_r in Hin. destruct Ha as (pre & _ & ->). specialize (Hc (length pre)).
    rewrite decide_True in Hc by done. rewrite Nat2Z.id. by rewrite (drop_S _ _ _ Hc).
  - pose proof (at_nonzero _ _ _ Ha) as Hz. pose proof (at_next _ _ _ Ha) as Hn.
    assert (Hq : m' !! Z.to_nat q = Some c).
    { destruct (at_here _ _ Ha) as [Hg _]. apply aget_Ok in Hg as [Hq0 Hg]. rewrite Hc, Z2Nat.id by done.
      case_decide as Hb; [|done]. exfalso. rewrite Forall_forall in HE. destruct (HE _ Hb) as (s' & Ha' & Hs').
      rewrite (at_unique _ _ _ Ha' Ha) in Hs'. cbn in Hs'. congruence. }
    rewrite (drop_S _ _ _ Hq). cbn [cstring]. rewrite Hz.
    assert (0 <= q) by (destruct Ha as (? & _ & ->); lia).
    replace (S (Z.to_nat q)) with (Z.to_nat (q + 1)) by lia. rewrite IH; [done|done|].
    cbn [length] in Hin. by replace (q + 1 + Z.of_nat (length w)) with (q + Z.of_nat (S (length w))) by lia.
Qed.

Lemma arg_strings_read m' k qs qe ws : Forall3 word_at qs qe ws ->
  (forall q e w, word_at q e w -> e ∈ qe -> string_at m' q = Some w) ->
  arg_strings m' ((Some <$> qs) ++ replicate k None) = Some ws.
Proof.
  intros H. induction H as [|q e w qs qe ws Hw _ IH]; intros Hm; cbn; [by destruct k|].
  rewrite (Hm q e w) by (done || left). cbn. rewrite IH; [done|]. intros q' e' w' Hw' Hin.
  eapply Hm; [done|by right].
Qed.

Lemma meaning_reads m' c : forall sc, reads c sc ->
  (forall q e w, word_at q e w -> e ∈ ends c -> string_at m' q = Some w) -> meaning m' c = Some sc.
Proof.
  induction c as [argv eargv|c IH q e mode fd|l IHl r IHr|l IHl r IHr|c IH]; intros sc Hr Hm;
    destruct sc; try done; cbn [meaning ends] in *.
  - destruct Hr as (qs & qe & -> & -> & H3 & _). rewrite pad_ends in Hm.
    unfold pad. by erewrite arg_strings_read.
  - destruct Hr as (Hr & Hw & -> & ->). rewrite (IH _ Hr).
    + cbn. by rewrite (Hm _ _ _ Hw) by set_solver.
    + intros. eapply Hm; [done|set_solver].
  - destruct Hr as [H1 H2]. rewrite (IHl _ H1), (IHr _ H2); [done|..]; intros; (eapply Hm; [done|set_solver]).
  - destruct Hr as [H1 H2]. rewrite (IHl _ H1), (IHr _ H2); [done|..]; intros; (eapply Hm; [done|set_solver]).
  - by rewrite (IH _ Hr).
Qed.

(** The end of [parsecmd] once the line has been read up to [p]. *)
Definition finish (c : cmd) (p : Z) : res (cmd * list Z) :=
  '(_, s) ← peek mem p es [0];
  if negb (s =? es) then Stuck Panicked else m ← nulterminate c mem; Ok (c, m).

Lemma finish_spec c sc p ts : toks_at p ts -> reads c sc -> short sc ->
  match ts with
  | [] => exists m', finish c p = Ok (c, m') /\ meaning m' c = Some sc
  | _ => finish c p = Stuck Panicked
  end.
Proof.
  intros Ht Hr Hs. destruct (skipped _ _ Ht) as (p' & suf & Hsk & Ha & Hlex & Hw).
  assert (Hp : peek mem p es [0] = Ok (false, p')).
  { unfold peek. rewrite Hsk. run. destruct (at_here _ _ Ha) as [-> _]. run. cbn.
    by destruct suf as [|x suf]; [|rewrite (at_nonzero _ _ _ Ha)]. }
  unfold finish. rewrite Hp. run. pose proof (at_end _ _ Ha) as He. destruct suf as [|x suf].
  - cbn in Hlex, He. subst ts. rewrite (proj2 (Z.eqb_eq p' es)) by lia. cbn [negb].
    destruct (nulterminate_cut c sc mem Hr Hs eq_refl) as (m' & -> & Hc). run.
    exists m'. split; [done|]. apply meaning_reads; [done|]. intros q e w Hwd Hin.
    eapply word_kept; [done|by eapply ends_break|done|done].
  - rewrite (proj2 (Z.eqb_neq p' es)) by (cbn in He; lia). cbn [negb].
    destruct ts as [|t ts]; [|done]. exfalso. specialize (Hw x suf eq_refl).
    cbn [lex] in Hlex. rewrite Hw in Hlex. destruct (symbol x); [|by rewrite lex_plain in Hlex].
    destruct suf; [done|]. cbn in Hlex. by destruct (_ && _).
Qed.

Lemma parsecmd_eq : parsecmd mem 0 =
  '(c, p) ← parseline (parse_fuel es) mem 0 es; finish c p.
Proof.
  unfold parsecmd. change (drop (Z.to_nat 0) mem) with (text ++ 0 :: rest).
  by rewrite strlen_cstr.
Qed.

Lemma toks_start : toks_at 0 (lex [] text).
Proof. exists text. split; [by exists []|done]. Qed.

Lemma parse_fuel_ok : (4 * length (lex [] text) + 4 <= parse_fuel es)%nat.
Proof. pose proof (lex_length text []). unfold parse_fuel, es. cbn in *. lia. Qed.

Lemma parsecmd_sound :
  match parsecmd mem 0 with
  | Ok (c, m') => exists l, lex [] text = line_toks l /\ line_fits l /\ meaning m' c = Some (line_tree l)
  | Stuck f => f = Panicked
  end.
Proof.
  rewrite parsecmd_eq.
  pose proof (proj1 (parser_sound (parse_fuel es)) 0 _ toks_start parse_fuel_ok) as H.
  destruct (parseline _ _ _ _) as [[c p]|f]; cbn [parsed] in H; run; [|done].
  destruct H as (l & ts & Hl & Hat & Hfit & Hr).
  pose proof (finish_spec c _ p ts Hat Hr (proj1 fits_short _ Hfit)) as Hfin.
  destruct ts as [|t ts].
  - destruct Hfin as (m' & -> & Hm). exists l. by rewrite Hl, app_nil_r.
  - by rewrite Hfin.
Qed.

Lemma parsecmd_complete l : lex [] text = line_toks l -> line_fits l ->
  exists c m', parsecmd mem 0 = Ok (c, m') /\ meaning m' c = Some (line_tree l).
Proof.
  intros Hl Hfit. rewrite parsecmd_eq.
  destruct (proj1 parser_complete l (parse_fuel es) 0 []) as (c & p & -> & Hat & Hr); try done.
  - rewrite app_nil_r, <- Hl. apply toks_start.
  - rewrite app_nil_r, <- Hl. apply parse_fuel_ok.
  - by left.
  - run. destruct (finish_spec c _ p [] Hat Hr (proj1 fits_short _ Hfit)) as (m' & -> & Hm). eauto.
Qed.

End text.

(** C17: the parser of the xv6 shell accepts exactly the command lines.  For a
    NUL-terminated text in the buffer, [parsecmd] always returns or reports a
    syntax error (it never reads or writes outside the buffer or an argument
    vector, and never loops).  It returns exactly when the tokens of the text
    are those of a command line with at most [MAXARGS - 1] words per simple
    command; the tree it returns, with the strings its pointers denote in the
    buffer that [nulterminate] has cut up, is then the meaning of that line. *)
Theorem parsecmd_language text rest :
  0 ∉ text ->
  match parsecmd (text ++ 0 :: rest) 0 with
  | Ok (c, mem') => exists l, lex [] text = line_toks l /\ line_fits l /\ meaning mem' c = Some (line_tree l)
  | Stuck f => f = Panicked /\ forall l, lex [] text = line_toks l -> ~ line_fits l
  end /\
  (forall l, lex [] text = line_toks l -> line_fits l ->
    exists c mem', parsecmd (text ++ 0 :: rest) 0 = Ok (c, mem') /\ meaning mem' c = Some (line_tree l)).
Proof.
  intros H0. pose proof (parsecmd_sound text rest H0) as Hs.
  pose proof (parsecmd_complete text rest H0) as Hc. split; [|exact Hc].
  destruct (parsecmd _ _) as [[c m']|f]; [done|]. split; [done|].
  intros l Hl Hfit. by destruct (Hc l Hl Hfit) as (? & ? & ? & _).
Qed.

(** [ls|wc>o&] *)
Definition demo_line : list Z := [108; 115; 124; 119; 99; 62; 111; 38].

Lemma parsecmd_language_witness :
  exists c mem', parsecmd (demo_line ++ [0; 7]) 0 = Ok (c, mem') /\
    meaning mem' c = Some (CBack (CPipe (CExec [[108; 115]]) (CRedir (CExec [[119; 99]]) [111] 513 1))).
Proof.
  exact (proj2 (parsecmd_language demo_line [7] ltac:(unfold demo_line; set_unfold; lia))
    (LEnd (PBar (SWords [] [([108; 115], [])]) (POne (SWords [] [([119; 99], [ROut [111]])]))) 1)
    ltac:(vm_compute; reflexivity) ltac:(cbn; unfold MAXARGS; lia)).
Defined.
