(* ===== verification/Xv6Run.v ===== *)
(** Running a parsed command: [runcmd] of the xv6 shell (src/설계 3번/xv6/sh.c).

    [runcmd] is a program that makes system calls; it is translated to the tree
    of the calls it can make, each continued by what it does with the result
    ([calls]).  [run_calls] executes such a tree for the one thing a pipeline
    depends on, the table of descriptors: a descriptor is the lowest free one,
    [fork] copies the table, [exec] keeps it.  It lists the programs in the order
    of the line; when they run and wait for each other is not part of it.  Opening a file or executing a program
    may fail; [fork] and [pipe] are taken to succeed while descriptors last.

    Shown: every command of a line is started with its standard input and
    output where the line says, and with no other descriptor open, so a reader
    of a pipe sees its end when its writers have gone. *)

From S2P Require Import Prelude Bytes Xv6String Xv6Sh Xv6Shell.

(** ** Programs as trees of system calls *)

(** Strings and argument vectors are pointers, as the shell passes them. *)
Inductive calls : Type :=
| Exit
| Close (fd : Z) (k : calls)
| Open (file mode : Z) (k : Z -> calls)
| Exec (path : Z) (argv : list (option Z)) (k : calls)
| Fork (k : Z -> calls)
| Wait (k : calls)
| Pipe (k : option (Z * Z) -> calls)
| Dup (fd : Z) (k : Z -> calls)
| Printf (k : calls).

Definition panic : calls := Printf Exit.

Definition fork1 (k : Z -> calls) : calls :=
  Fork (fun pid => if pid =? -1 then panic else k pid).

Fixpoint runcmd (c : cmd) : calls :=
  match c with
  | EXEC argv _ =>
      match argv with
      | Some path :: _ => Exec path argv (Printf Exit)
      | _ => Exit
      end
  | REDIR c file _ mode fd =>
      Close fd (Open file mode (fun r => if r <? 0 then Printf Exit else runcmd c))
  | LIST l r =>
      fork1 (fun pid => if pid =? 0 then runcmd l else Wait (runcmd r))
  | PIPE l r =>
      Pipe (fun p =>
        match p with
        | None => panic
        | Some (p0, p1) =>
            fork1 (fun pid =>
              if pid =? 0 then Close 1 (Dup p1 (fun _ => Close p0 (Close p1 (runcmd l))))
              else fork1 (fun pid =>
                if pid =? 0 then Close 0 (Dup p0 (fun _ => Close p0 (Close p1 (runcmd r))))
                else Close p0 (Close p1 (Wait (Wait Exit)))))
        end)
  | BACK c => fork1 (fun pid => if pid =? 0 then runcmd c else Exit)
  end.

(** ** Descriptors *)

(** What a descriptor refers to: something the shell was started with, a file
    it opened, or an end of the [n]-th pipe. *)
Inductive endpoint : Type :=
| Inherited (n : nat)
| Opened (file : list Z) (mode : Z)
| ReadEnd (n : nat)
| WriteEnd (n : nat).

Definition fdtable := list (option endpoint).

Fixpoint lowest (fds : fdtable) : option nat :=
  match fds with
  | [] => None
  | None :: _ => Some O
  | Some _ :: fds' => S <$> lowest fds'
  end.

(** Redirections change descriptor 0 or 1. *)
Fixpoint std_redirs (sc : scmd) : Prop :=
  match sc with
  | CExec _ => True
  | CRedir sc _ _ fd => (fd = 0 \/ fd = 1) /\ std_redirs sc
  | CPipe l r | CList l r => std_redirs l /\ std_redirs r
  | CBack sc => std_redirs sc
  end.

Lemma std_redirs_fold sc rs : std_redirs (foldl redirect sc rs) <-> std_redirs sc.
Proof. revert sc. induction rs as [|r rs IH]; intros sc; cbn; [done|]. rewrite IH. destruct r; cbn; naive_solver. Qed.

Lemma line_std_redirs : (forall l, std_redirs (line_tree l)) /\
  (forall p, std_redirs (pipe_tree p)) /\ (forall e, std_redirs (simple_tree e)).
Proof.
  assert (forall n sc, std_redirs (Nat.iter n CBack sc) <-> std_redirs sc) by (intros n ?; induction n; done).
  apply grammar_ind; cbn; intros; rewrite ?std_redirs_fold; naive_solver.
Qed.

Section world.
Context (mem : list Z).
Context (openable : list Z -> Z -> bool) (executable : list Z -> bool).

(** The programs started, with their descriptors, and the number of pipes made;
    a child runs before its parent goes on. *)
Fixpoint run_calls (pr : calls) (fds : fdtable) (n : nat) : list (list (option Z) * fdtable) * nat :=
  match pr with
  | Exit => ([], n)
  | Close fd k => run_calls k (<[Z.to_nat fd := None]> fds) n
  | Open file mode k =>
      match string_at mem file, lowest fds with
      | Some name, Some i =>
          if openable name mode then run_calls (k (Z.of_nat i)) (<[i := Some (Opened name mode)]> fds) n
          else run_calls (k (-1)) fds n
      | _, _ => run_calls (k (-1)) fds n
      end
  | Exec path argv k =>
      match string_at mem path with
      | Some name => if executable name then ([(argv, fds)], n) else run_calls k fds n
      | None => run_calls k fds n
      end
  | Fork k =>
      let '(a, n) := run_calls (k 0) fds n in
      let '(b, n) := run_calls (k 1) fds n in
      (a ++ b, n)
  | Wait k => run_calls k fds n
  | Pipe k =>
      match lowest fds with
      | Some i =>
          let fds1 := <[i := Some (ReadEnd n)]> fds in
          match lowest fds1 with
          | Some j => run_calls (k (Some (Z.of_nat i, Z.of_nat j))) (<[j := Some (WriteEnd n)]> fds1) (S n)
          | None => run_calls (k None) fds n
          end
      | None => run_calls (k None) fds n
      end
  | Dup fd k =>
      match fds !! Z.to_nat fd, lowest fds with
      | Some (Some e), Some i => run_calls (k (Z.of_nat i)) (<[i := Some e]> fds) n
      | _, _ => run_calls (k (-1)) fds n
      end
  | Printf k => run_calls k fds n
  end.

(** ** What a command line should start *)

Record streams := Streams { std_in : endpoint; std_out : endpoint; std_err : endpoint }.

Fixpoint started (sc : scmd) (io : streams) (n : nat) : list (list (list Z) * streams) * nat :=
  match sc with
  | CExec [] => ([], n)
  | CExec (w :: ws) => if executable w then ([(w :: ws, io)], n) else ([], n)
  | CRedir sc file mode fd =>
      if openable file mode then
        started sc (if fd =? 0 then Streams (Opened file mode) (std_out io) (std_err io)
                    else Streams (std_in io) (Opened file mode) (std_err io)) n
      else ([], n)
  | CPipe l r =>
      let '(a, n1) := started l (Streams (std_in io) (WriteEnd n) (std_err io)) (S n) in
      let '(b, n2) := started r (Streams (ReadEnd n) (std_out io) (std_err io)) n1 in
      (a ++ b, n2)
  | CList l r =>
      let '(a, n) := started l io n in
      let '(b, n) := started r io n in
      (a ++ b, n)
  | CBack sc => started sc io n
  end.

(** The table with the three standard descriptors and nothing else. *)
Definition table (io : streams) : fdtable :=
  [Some (std_in io); Some (std_out io); Some (std_err io)] ++ replicate 13 None.

Definition as_started (p : list (list Z) * streams) (q : list (option Z) * fdtable) : Prop :=
  arg_strings mem q.1 = Some p.1 /\ q.2 = table p.2.

Lemma run_pipe l r io n : run_calls (runcmd (PIPE l r)) (table io) n =
  let '(a, n1) := run_calls (runcmd l) (table (Streams (std_in io) (WriteEnd n) (std_err io))) (S n) in
  let '(b, n2) := (let '(b, n2) := run_calls (runcmd r) (table (Streams (ReadEnd n) (std_out io) (std_err io))) n1 in
                   (b ++ [], n2)) in
  (a ++ b, n2).
Proof. reflexivity. Qed.

Lemma run_list l r io n : run_calls (runcmd (LIST l r)) (table io) n =
  let '(a, n1) := run_calls (runcmd l) (table io) n in
  let '(b, n2) := run_calls (runcmd r) (table io) n1 in
  (a ++ b, n2).
Proof. reflexivity. Qed.

Lemma run_redir c q e mode fd w io n : fd = 0 \/ fd = 1 -> string_at mem q = Some w ->
  run_calls (runcmd (REDIR c q e mode fd)) (table io) n =
  if openable w mode then
    run_calls (runcmd c) (table (if fd =? 0 then Streams (Opened w mode) (std_out io) (std_err io)
                    else Streams (std_in io) (Opened w mode) (std_err io))) n
  else ([], n).
Proof.
  intros Hfd Hw. cbn [runcmd run_calls]. rewrite Hw. destruct Hfd as [-> | ->]; by destruct (openable w mode).
Qed.

Lemma runcmd_started c : forall sc io n, meaning mem c = Some sc -> std_redirs sc ->
  Forall2 as_started (started sc io n).1 (run_calls (runcmd c) (table io) n).1 /\
  (started sc io n).2 = (run_calls (runcmd c) (table io) n).2.
Proof.
  induction c as [argv eargv|c IH q e mode fd|l IHl r IHr|l IHl r IHr|c IH]; intros sc io n Hm Hsr;
    cbn [meaning] in Hm.
  - apply fmap_Some in Hm as (ws & Hws & ->). destruct argv as [|[path|] argv].
    + injection Hws as <-. by cbn.
    + pose proof Hws as Hall. cbn [arg_strings] in Hws.
      apply bind_Some in Hws as (w & Hw & Hws). apply bind_Some in Hws as (ws' & Hws' & [= <-]).
      cbn [runcmd run_calls started]. rewrite Hw. destruct (executable w); cbn; [|done].
      split; [|done]. constructor; [|constructor]. split; [|done]. exact Hall.
    + injection Hws as <-. by cbn.
  - apply bind_Some in Hm as (sc' & Hc & Hm). apply bind_Some in Hm as (w & Hw & [= <-]).
    destruct Hsr as [Hfd Hsr]. rewrite (run_redir _ _ _ _ _ _ _ _ Hfd Hw). cbn [started].
    destruct (openable w mode); [by apply IH|done].
  - apply bind_Some in Hm as (sl & Hl & Hm). apply bind_Some in Hm as (sr & Hr & [= <-]). destruct Hsr as [Hs1 Hs2].
    destruct (IHl sl (Streams (std_in io) (WriteEnd n) (std_err io)) (S n) Hl Hs1) as [F1 E1].
    rewrite run_pipe. cbn [started]. destruct (started sl _ _) as [a n1], (run_calls _ _ (S n)) as [a' n1'].
    cbn in E1. subst n1'.
    destruct (IHr sr (Streams (ReadEnd n) (std_out io) (std_err io)) n1 Hr Hs2) as [F2 E2].
    destruct (started sr _ _) as [b n2], (run_calls _ _ n1) as [b' n2']. cbn in *. subst.
    rewrite app_nil_r. split; [by apply Forall2_app|done].
  - apply bind_Some in Hm as (sl & Hl & Hm). apply bind_Some in Hm as (sr & Hr & [= <-]). destruct Hsr as [Hs1 Hs2].
    destruct (IHl sl io n Hl Hs1) as [F1 E1].
    rewrite run_list. cbn [started]. destruct (started sl _ _) as [a n1], (run_calls _ _ n) as [a' n1'].
    cbn in E1. subst n1'. destruct (IHr sr io n1 Hr Hs2) as [F2 E2].
    destruct (started sr _ _) as [b n2], (run_calls _ _ n1) as [b' n2']. cbn in *. subst.
    split; [by apply Forall2_app|done].
  - apply fmap_Some in Hm as (sc' & Hc & ->). destruct (IH sc' io n Hc Hsr) as [F E].
    cbn [started]. change (run_calls (runcmd (BACK c)) (table io) n) with
      (let '(a, n1) := run_calls (runcmd c) (table io) n in (a ++ [], n1)).
    destruct (run_calls _ _ n) as [a' n1]. cbn in *. by rewrite app_nil_r.
Qed.

End world.

(** C37: what the shell does with a line it accepts.  The child that parses the
    text and runs the result starts exactly the programs of the line (those
    whose files can be opened and that can be executed), in the order of the
    line, with the words of the line as arguments; the standard input and
    output of each are what the line says (its redirection, the pipe to its
    neighbour, or those of the shell) and it has no other descriptor open, in
    particular no stray end of a pipe. *)
Theorem shell_runs_line openable executable text rest io n c mem' :
  0 ∉ text -> parsecmd (text ++ 0 :: rest) 0 = Ok (c, mem') ->
  exists l, lex [] text = line_toks l /\
    Forall2 (as_started mem') (started openable executable (line_tree l) io n).1
      (run_calls mem' openable executable (runcmd c) (table io) n).1.
Proof.
  intros H0 Hp. pose proof (parsecmd_sound text rest H0) as Hs. rewrite Hp in Hs.
  destruct Hs as (l & Hl & _ & Hm). exists l. split; [done|].
  apply (runcmd_started _ _ _ c (line_tree l) io n Hm (proj1 line_std_redirs l)).
Qed.

Definition demo_io : streams := Streams (Inherited 0) (Inherited 1) (Inherited 2).

(** [ls|wc>o&] starts [ls] writing to the pipe and [wc] reading from it and
    writing to the file. *)
Lemma shell_runs_line_witness : exists c mem',
  parsecmd (demo_line ++ [0; 7]) 0 = Ok (c, mem') /\
  run_calls mem' (fun _ _ => true) (fun _ => true) (runcmd c) (table demo_io) 0 =
    ([([Some 0] ++ replicate 9 None, table (Streams (Inherited 0) (WriteEnd 0) (Inherited 2)));
      ([Some 3] ++ replicate 9 None, table (Streams (ReadEnd 0) (Opened [111] 513) (Inherited 2)))], 1%nat) /\
  exists l, lex [] demo_line = line_toks l /\
    Forall2 (as_started mem') (started (fun _ _ => true) (fun _ => true) (line_tree l) demo_io 0).1
      (run_calls mem' (fun _ _ => true) (fun _ => true) (runcmd c) (table demo_io) 0).1.
Proof.
  eexists _, _. split; [vm_compute; reflexivity|]. split; [vm_compute; reflexivity|].
  apply (shell_runs_line _ _ demo_line [7]); [unfold demo_line; set_unfold; lia|vm_compute; reflexivity].
Defined.
