(* ===== verification/Xv6Vm.v ===== *)
(** Page tables of the xv6 kernel (src/설계 3번/xv6/vm.c, mmu.h): definitions.

    Memory is a map from the (kernel virtual) address of an allocated page to
    what it holds: a page directory or page table, or bytes.  A page gets its
    use from the [memset] that clears it after [kalloc]; reading an entry of a
    page that holds bytes, or anything from a page that is not allocated, is a
    fault.  [pool] is the free list, a pool of pages by the theorem of
    [Xv6Kalloc].  A pointer to an entry is the page and the index in it; a null
    pointer is [None].  [end_] and [data] are set by the linker.

    The functions that load segment and control registers (seginit, switchkvm,
    switchuvm) are not modelled. *)

From S2P Require Import Prelude Bytes Xv6Kalloc.

(** ** Addresses and entries *)

Definition NPDENTRIES : Z := 1024.
Definition EXTMEM : Z := 1048576.
Definition DEVSPACE : Z := 4261412864.
Definition KERNLINK : Z := KERNBASE + EXTMEM.

Definition PTE_P : Z := 1.
Definition PTE_W : Z := 2.
Definition PTE_U : Z := 4.

Definition PDX (va : Z) : Z := Z.land (Z.shiftr va 22) 1023.
Definition PTX (va : Z) : Z := Z.land (Z.shiftr va 12) 1023.
Definition PGADDR (d t o : Z) : Z := u32 (Z.lor (Z.lor (Z.shiftl d 22) (Z.shiftl t 12)) o).
Definition PGROUNDDOWN (a : Z) : Z := Z.land a (u32 (Z.lnot (PGSIZE - 1))).
Definition PTE_ADDR (pte : Z) : Z := Z.land pte (u32 (Z.lnot 4095)).
Definition PTE_FLAGS (pte : Z) : Z := Z.land pte 4095.

Definition present (pte : Z) : bool := negb (Z.land pte PTE_P =? 0).

(** ** Memory *)

Inductive content : Type :=
| Table (entries : gmap Z Z)
| Data (bs : list Z).

Record vmem := Vmem { frames : gmap Z content; pool : list Z }.

Definition put_frame (v : Z) (c : content) (s : vmem) : vmem := Vmem (<[v := c]> (frames s)) (pool s).

Definition zeros : list Z := replicate (Z.to_nat PGSIZE) 0.

Definition tget (s : vmem) (pg i : Z) : res Z :=
  match frames s !! pg with
  | Some (Table t) => Ok (default 0 (t !! i))
  | _ => Stuck Uninitialised
  end.

Definition tset (s : vmem) (pg i x : Z) : res vmem :=
  match frames s !! pg with
  | Some (Table t) => Ok (put_frame pg (Table (<[i := x]> t)) s)
  | _ => Stuck Uninitialised
  end.

Definition dget (s : vmem) (pg : Z) : res (list Z) :=
  match frames s !! pg with
  | Some (Data bs) => Ok bs
  | _ => Stuck Uninitialised
  end.

(** The page allocator: the address of a page, or 0. *)
Definition kalloc_page (s : vmem) : Z * vmem :=
  match pool s with
  | [] => (0, s)
  | v :: l => (v, Vmem (frames s) l)
  end.

Section vm.
Context (end_ data : Z).

Definition kfree_page (s : vmem) (v : Z) : res vmem :=
  if negb (v mod PGSIZE =? 0) || (v <? end_) || (PHYSTOP <=? V2P v) then Stuck Panicked
  else Ok (Vmem (delete v (frames s)) (v :: pool s)).

(** ** Entries *)

Definition walkpgdir (s : vmem) (pgdir va : Z) (alloc : bool) : res (option (Z * Z) * vmem) :=
  pde ← tget s pgdir (PDX va);
  if present pde then Ok (Some (P2V (PTE_ADDR pde), PTX va), s)
  else if negb alloc then Ok (None, s)
  else
    let '(pgtab, s) := kalloc_page s in
    if pgtab =? 0 then Ok (None, s)
    else
      let s := put_frame pgtab (Table ∅) s in
      s ← tset s pgdir (PDX va) (Z.lor (Z.lor (Z.lor (V2P pgtab) PTE_P) PTE_W) PTE_U);
      Ok (Some (pgtab, PTX va), s).

(** The loop of [mappages]; the result is 0 or -1. *)
Fixpoint map_loop (fuel : nat) (s : vmem) (pgdir a last pa perm : Z) : res (Z * vmem) :=
  match fuel with
  | O => Stuck OutOfFuel
  | S fuel' =>
      '(p, s) ← walkpgdir s pgdir a true;
      match p with
      | None => Ok (-1, s)
      | Some (pg, i) =>
          pte ← tget s pg i;
          if present pte then Stuck Panicked
          else
            s ← tset s pg i (Z.lor (Z.lor pa perm) PTE_P);
            if a =? last then Ok (0, s)
            else map_loop fuel' s pgdir (u32 (a + PGSIZE)) last (u32 (pa + PGSIZE)) perm
      end
  end.

Definition mappages (s : vmem) (pgdir va size pa perm : Z) : res (Z * vmem) :=
  let a := PGROUNDDOWN va in
  let last := PGROUNDDOWN (u32 (va + size - 1)) in
  map_loop (S (Z.to_nat (u32 (last - a) / PGSIZE))) s pgdir a last pa perm.

(** ** Releasing memory *)

(** The loop of [deallocuvm]: every pass moves [a] up by a page at least. *)
Fixpoint dealloc_loop (fuel : nat) (s : vmem) (pgdir a oldsz : Z) : res vmem :=
  match fuel with
  | O => Stuck OutOfFuel
  | S fuel' =>
      if a <? oldsz then
        '(p, s) ← walkpgdir s pgdir a false;
        match p with
        | None =>
            let a := u32 (PGADDR (PDX a + 1) 0 0 - PGSIZE) in
            dealloc_loop fuel' s pgdir (u32 (a + PGSIZE)) oldsz
        | Some (pg, i) =>
            pte ← tget s pg i;
            if present pte then
              let pa := PTE_ADDR pte in
              if pa =? 0 then Stuck Panicked
              else
                s ← kfree_page s (P2V pa);
                s ← tset s pg i 0;
                dealloc_loop fuel' s pgdir (u32 (a + PGSIZE)) oldsz
            else dealloc_loop fuel' s pgdir (u32 (a + PGSIZE)) oldsz
        end
      else Ok s
  end.

Definition deallocuvm (s : vmem) (pgdir oldsz newsz : Z) : res (Z * vmem) :=
  if newsz >=? oldsz then Ok (oldsz, s)
  else
    let a := PGROUNDUP newsz in
    s ← dealloc_loop (S (Z.to_nat ((oldsz - a) / PGSIZE + 1))) s pgdir a oldsz;
    Ok (newsz, s).

(** The loop of [freevm] over the [k] directory entries from [i]. *)
Fixpoint free_tables (k : nat) (s : vmem) (pgdir i : Z) : res vmem :=
  match k with
  | O => Ok s
  | S k' =>
      pde ← tget s pgdir i;
      s ← (if present pde then kfree_page s (P2V (PTE_ADDR pde)) else Ok s);
      free_tables k' s pgdir (i + 1)
  end.

Definition freevm (s : vmem) (pgdir : Z) : res vmem :=
  if pgdir =? 0 then Stuck Panicked
  else
    '(_, s) ← deallocuvm s pgdir KERNBASE 0;
    s ← free_tables (Z.to_nat NPDENTRIES) s pgdir 0;
    kfree_page s pgdir.

(** ** Building address spaces *)

Record kmap_entry := Kmap { virt : Z; phys_start : Z; phys_end : Z; kperm : Z }.

Definition kmap : list kmap_entry :=
  [Kmap KERNBASE 0 EXTMEM PTE_W;
   Kmap KERNLINK (V2P KERNLINK) (V2P data) 0;
   Kmap data (V2P data) PHYSTOP PTE_W;
   Kmap DEVSPACE DEVSPACE 0 PTE_W].

Fixpoint map_kernel (ks : list kmap_entry) (s : vmem) (pgdir : Z) : res (Z * vmem) :=
  match ks with
  | [] => Ok (pgdir, s)
  | k :: ks' =>
      '(r, s) ← mappages s pgdir (virt k) (u32 (phys_end k - phys_start k)) (phys_start k) (kperm k);
      if r <? 0 then s ← freevm s pgdir; Ok (0, s)
      else map_kernel ks' s pgdir
  end.

Definition setupkvm (s : vmem) : res (Z * vmem) :=
  let '(pgdir, s) := kalloc_page s in
  if pgdir =? 0 then Ok (0, s)
  else
    let s := put_frame pgdir (Table ∅) s in
    if P2V PHYSTOP >? DEVSPACE then Stuck Panicked
    else map_kernel kmap s pgdir.

(** [kalloc] is not checked: a null page is written to. *)
Definition inituvm (s : vmem) (pgdir : Z) (init : list Z) (sz : Z) : res vmem :=
  if sz >=? PGSIZE then Stuck Panicked
  else
    let '(mem, s) := kalloc_page s in
    if mem =? 0 then Stuck OutOfBounds
    else
      let s := put_frame mem (Data zeros) s in
      '(_, s) ← mappages s pgdir 0 PGSIZE (V2P mem) (Z.lor PTE_W PTE_U);
      bs ← buf_load init 0 sz;
      old ← dget s mem;
      new ← buf_store old 0 bs;
      Ok (put_frame mem (Data new) s).

(** [readi off n] is what [readi] of fs.c delivers from the file: the number of
    bytes, or -1, and the bytes. *)
Fixpoint load_loop (fuel : nat) (readi : Z -> Z -> Z * list Z) (s : vmem) (pgdir addr offset sz i : Z)
  : res (Z * vmem) :=
  match fuel with
  | O => Stuck OutOfFuel
  | S fuel' =>
      if i <? sz then
        '(p, s) ← walkpgdir s pgdir (u32 (addr + i)) false;
        match p with
        | None => Stuck Panicked
        | Some (pg, j) =>
            pte ← tget s pg j;
            let pa := PTE_ADDR pte in
            let n := if sz - i <? PGSIZE then sz - i else PGSIZE in
            let '(r, bs) := readi (u32 (offset + i)) n in
            old ← dget s (P2V pa);
            new ← buf_store old 0 bs;
            let s := put_frame (P2V pa) (Data new) s in
            if negb (r =? n) then Ok (-1, s)
            else load_loop fuel' readi s pgdir addr offset sz (u32 (i + PGSIZE))
        end
      else Ok (0, s)
  end.

Definition loaduvm (readi : Z -> Z -> Z * list Z) (s : vmem) (pgdir addr offset sz : Z) : res (Z * vmem) :=
  if negb (addr mod PGSIZE =? 0) then Stuck Panicked
  else load_loop (S (Z.to_nat (sz / PGSIZE + 1))) readi s pgdir addr offset sz 0.

(** The loop of [allocuvm]; the result is [newsz] or 0. *)
Fixpoint alloc_loop (fuel : nat) (s : vmem) (pgdir a oldsz newsz : Z) : res (Z * vmem) :=
  match fuel with
  | O => Stuck OutOfFuel
  | S fuel' =>
      if a <? newsz then
        let '(mem, s) := kalloc_page s in
        if mem =? 0 then
          '(_, s) ← deallocuvm s pgdir newsz oldsz;
          Ok (0, s)
        else
          let s := put_frame mem (Data zeros) s in
          '(r, s) ← mappages s pgdir a PGSIZE (V2P mem) (Z.lor PTE_W PTE_U);
          if r <? 0 then
            '(_, s) ← deallocuvm s pgdir newsz oldsz;
            s ← kfree_page s mem;
            Ok (0, s)
          else alloc_loop fuel' s pgdir (u32 (a + PGSIZE)) oldsz newsz
      else Ok (newsz, s)
  end.

Definition allocuvm (s : vmem) (pgdir oldsz newsz : Z) : res (Z * vmem) :=
  if newsz >=? KERNBASE then Ok (0, s)
  else if newsz <? oldsz then Ok (oldsz, s)
  else
    let a := PGROUNDUP oldsz in
    alloc_loop (S (Z.to_nat ((newsz - a) / PGSIZE + 1))) s pgdir a oldsz newsz.

Definition clearpteu (s : vmem) (pgdir uva : Z) : res vmem :=
  '(p, s) ← walkpgdir s pgdir uva false;
  match p with
  | None => Stuck Panicked
  | Some (pg, i) =>
      pte ← tget s pg i;
      tset s pg i (Z.land pte (u32 (Z.lnot PTE_U)))
  end.

(** The loop of [copyuvm]; [bad:] is the second branch. *)
Fixpoint copy_loop (fuel : nat) (s : vmem) (pgdir d sz i : Z) : res (Z * vmem) :=
  match fuel with
  | O => Stuck OutOfFuel
  | S fuel' =>
      if i <? sz then
        '(p, s) ← walkpgdir s pgdir i false;
        match p with
        | None => Stuck Panicked
        | Some (pg, j) =>
            pte ← tget s pg j;
            if negb (present pte) then Stuck Panicked
            else
              let pa := PTE_ADDR pte in
              let flags := PTE_FLAGS pte in
              let '(mem, s) := kalloc_page s in
              if mem =? 0 then s ← freevm s d; Ok (0, s)
              else
                bs ← dget s (P2V pa);
                let s := put_frame mem (Data bs) s in
                '(r, s) ← mappages s d i PGSIZE (V2P mem) flags;
                if r <? 0 then
                  s ← kfree_page s mem;
                  s ← freevm s d;
                  Ok (0, s)
                else copy_loop fuel' s pgdir d sz (u32 (i + PGSIZE))
        end
      else Ok (d, s)
  end.

Definition copyuvm (s : vmem) (pgdir sz : Z) : res (Z * vmem) :=
  '(d, s) ← setupkvm s;
  if d =? 0 then Ok (0, s)
  else copy_loop (S (Z.to_nat (sz / PGSIZE + 1))) s pgdir d sz 0.

(** ** Access to another address space *)

(** [*pte] is read without a test for the null pointer. *)
Definition uva2ka (s : vmem) (pgdir uva : Z) : res (Z * vmem) :=
  '(p, s) ← walkpgdir s pgdir uva false;
  match p with
  | None => Stuck OutOfBounds
  | Some (pg, i) =>
      pte ← tget s pg i;
      if negb (present pte) then Ok (0, s)
      else if Z.land pte PTE_U =? 0 then Ok (0, s)
      else Ok (P2V (PTE_ADDR pte), s)
  end.

Fixpoint copyout_loop (fuel : nat) (s : vmem) (pgdir va : Z) (buf : list Z) (len : Z) : res (Z * vmem) :=
  match fuel with
  | O => Stuck OutOfFuel
  | S fuel' =>
      if len >? 0 then
        let va0 := PGROUNDDOWN va in
        '(pa0, s) ← uva2ka s pgdir va0;
        if pa0 =? 0 then Ok (-1, s)
        else
          let n := PGSIZE - (va - va0) in
          let n := if n >? len then len else n in
          bs ← buf_load buf 0 n;
          old ← dget s pa0;
          new ← buf_store old (va - va0) bs;
          copyout_loop fuel' (put_frame pa0 (Data new) s) pgdir (u32 (va0 + PGSIZE))
            (drop (Z.to_nat n) buf) (len - n)
      else Ok (0, s)
  end.

Definition copyout (s : vmem) (pgdir va : Z) (buf : list Z) (len : Z) : res (Z * vmem) :=
  copyout_loop (S (S (Z.to_nat (len / PGSIZE + 1)))) s pgdir va buf len.

End vm.
