(* ===== verification/Xv6Pgtab.v ===== *)
(** Page tables of xv6 as maps: [walkpgdir] and [mappages] of [Xv6Vm] against a
    map from page numbers to entries.

    An address space is described by two maps, [A] from virtual page numbers to
    the entries that are present and [T] from directory indices to page tables
    ([rep]); the pages it owns are its directory, its tables and the pages its
    user entries point to ([owned]).  [space P F s pgdir A T E] says that memory
    [s] consists of that address space, some pages [E] in transit, the pages [F]
    of everybody else, and the pool; [P] is the fixed set of all pages.  A
    function that keeps [P] and [F] therefore loses no page and touches
    nobody else's. *)

From S2P Require Import Prelude Bytes Xv6Kalloc Xv6Vm.

(** ** Bits of addresses and entries *)

Lemma lor_page x f : x mod PGSIZE = 0 -> 0 <= f < PGSIZE -> Z.lor x f = x + f.
Proof.
  intros Hx Hf. assert (Hd : Z.land x f = 0).
  { apply Z.bits_inj'. intros n Hn. rewrite Z.land_spec, Z.bits_0.
    destruct (Z.lt_ge_cases n 12).
    - rewrite (Z.div_mod x PGSIZE), Hx, Z.add_0_r by done. change PGSIZE with (2 ^ 12).
      rewrite Z.mul_comm, <- Z.shiftl_mul_pow2, Z.shiftl_spec_low by lia. done.
    - replace (Z.testbit f n) with false; [apply andb_false_r|]. symmetry.
      destruct (Z.eq_dec f 0) as [->|]; [apply Z.bits_0|]. apply Z.bits_above_log2; [lia|].
      apply Z.log2_lt_pow2; [lia|]. eapply Z.lt_le_trans; [apply Hf|].
      change PGSIZE with (2 ^ 12). by apply Z.pow_le_mono_r. }
  rewrite Z.add_nocarry_lxor by done. symmetry. by apply Z.lxor_lor.
Qed.

Lemma PTE_ADDR_spec p : 0 <= p < 2 ^ 32 -> PTE_ADDR p = p / PGSIZE * PGSIZE.
Proof. apply page_mask. Qed.

Lemma PGROUNDDOWN_spec a : 0 <= a < 2 ^ 32 -> PGROUNDDOWN a = a / PGSIZE * PGSIZE.
Proof. apply page_mask. Qed.

Lemma PTE_FLAGS_spec p : PTE_FLAGS p = p mod PGSIZE.
Proof. unfold PTE_FLAGS. change 4095 with (Z.ones 12). by rewrite Z.land_ones. Qed.

Lemma present_odd p : present p = Z.odd p.
Proof.
  unfold present, PTE_P. change 1 with (Z.ones 1). rewrite Z.land_ones by lia.
  change (2 ^ 1) with 2. rewrite Zmod_odd. by destruct (Z.odd p).
Qed.

Lemma PDX_spec n k : 0 <= n < 2 ^ 20 -> 0 <= k < PGSIZE -> PDX (PGSIZE * n + k) = n / 1024.
Proof.
  intros Hn Hk. unfold PDX. change 1023 with (Z.ones 10). rewrite Z.land_ones, Z.shiftr_div_pow2 by lia.
  change (2 ^ 22) with 4194304. change (2 ^ 10) with 1024. change (2 ^ 20) with 1048576 in Hn. page_lia.
Qed.

Lemma PTX_spec n k : 0 <= n < 2 ^ 20 -> 0 <= k < PGSIZE -> PTX (PGSIZE * n + k) = n mod 1024.
Proof.
  intros Hn Hk. unfold PTX. change 1023 with (Z.ones 10). rewrite Z.land_ones, Z.shiftr_div_pow2 by lia.
  change (2 ^ 12) with 4096. change (2 ^ 10) with 1024. change (2 ^ 20) with 1048576 in Hn. page_lia.
Qed.

(** The next directory entry. *)
Lemma PGADDR_spec d : 0 <= d <= 1023 -> PGADDR (d + 1) 0 0 = u32 (PGSIZE * (1024 * (d + 1))).
Proof.
  intros Hd. unfold PGADDR. rewrite Z.shiftl_0_l, !Z.lor_0_r, Z.shiftl_mul_pow2 by lia.
  f_equal. change (2 ^ 22) with 4194304. unfold PGSIZE. lia.
Qed.

Section pgtab.
Context (end_ : Z).

Definition good (v : Z) : Prop := good_page end_ v.

Lemma good_V2P v : good v -> V2P v = v - KERNBASE /\ V2P v mod PGSIZE = 0 /\ 0 <= V2P v < PHYSTOP.
Proof. intros (Hm & He & Ht). unfold V2P. repeat split; page_lia. Qed.

Lemma good_P2V v : good v -> P2V (V2P v) = v.
Proof. intros Hg. destruct (good_V2P v Hg) as (-> & _ & _). destruct Hg as (? & ? & ?). unfold P2V. page_lia. Qed.

Lemma good_nonzero v : good v -> (v =? 0) = false.
Proof. intros (? & ? & ?). apply Z.eqb_neq. page_lia. Qed.

(** The page that an entry points to. *)
Definition upage (pte : Z) : Z := P2V (PTE_ADDR pte).

Lemma upage_entry v f : good v -> 0 <= f < PGSIZE -> upage (V2P v + f) = v /\ PTE_FLAGS (V2P v + f) = f.
Proof.
  intros Hg Hf. destruct (good_V2P v Hg) as (_ & Hm & Hb). unfold upage.
  rewrite PTE_ADDR_spec by page_lia. rewrite PTE_FLAGS_spec.
  replace ((V2P v + f) / PGSIZE * PGSIZE) with (V2P v) by page_lia. rewrite good_P2V by done.
  split; [done|page_lia].
Qed.

Lemma table_entry v : good v ->
  Z.lor (Z.lor (Z.lor (V2P v) PTE_P) PTE_W) PTE_U = V2P v + 7 /\
  present (V2P v + 7) = true /\ upage (V2P v + 7) = v.
Proof.
  intros Hg. destruct (good_V2P v Hg) as (_ & Hm & Hb). unfold PTE_P, PTE_W, PTE_U.
  rewrite <- !Z.lor_assoc. change (Z.lor 1 (Z.lor 2 4)) with 7.
  rewrite lor_page by (done || (unfold PGSIZE; lia)). split; [done|]. split.
  - rewrite present_odd, Z.odd_add. replace (Z.odd (V2P v)) with false; [done|].
    symmetry. rewrite <- Z.negb_even. apply negb_false_iff, Z.even_spec. exists (V2P v / 2). page_lia.
  - apply upage_entry; [done|unfold PGSIZE; lia].
Qed.

(** ** Address spaces *)

Record rep (s : vmem) (pgdir : Z) (A T : gmap Z Z) : Prop := Rep {
  rep_dir : exists d, frames s !! pgdir = Some (Table d) /\
    forall i, 0 <= i < 1024 ->
      match T !! i with
      | Some v => default 0 (d !! i) = V2P v + 7
      | None => present (default 0 (d !! i)) = false
      end;
  rep_good : forall i v, T !! i = Some v -> 0 <= i < 1024 /\ good v /\ v <> pgdir;
  rep_inj : forall i j v, T !! i = Some v -> T !! j = Some v -> i = j;
  rep_tab : forall i v, T !! i = Some v -> exists t, frames s !! v = Some (Table t) /\
    forall j, 0 <= j < 1024 ->
      match A !! (1024 * i + j) with
      | Some p => default 0 (t !! j) = p /\ present p = true
      | None => present (default 0 (t !! j)) = false
      end;
  rep_ent : forall n p, A !! n = Some p -> 0 <= n < 2 ^ 20 /\ is_Some (T !! (n / 1024)) }.

Definition pool_ok (s : vmem) : Prop :=
  NoDup (pool s) /\ forall v, v ∈ pool s -> good v /\ frames s !! v = None.

Lemma rep_frame s s' pgdir A T : rep s pgdir A T ->
  (forall x, x = pgdir \/ (exists i, T !! i = Some x) -> frames s' !! x = frames s !! x) ->
  rep s' pgdir A T.
Proof.
  intros [Hd Hg Hi Ht He] Hf. constructor; try done.
  - rewrite Hf by (by left). done.
  - intros i v Hv. rewrite Hf by (right; by exists i). by apply Ht.
Qed.

Lemma dir_range n : 0 <= n < 2 ^ 20 -> 0 <= n / 1024 < 1024.
Proof. intros Hn. change (2 ^ 20) with 1048576 in Hn. Z.div_mod_to_equations. lia. Qed.

Lemma split_vpn n : 1024 * (n / 1024) + n mod 1024 = n.
Proof. Z.div_mod_to_equations. lia. Qed.

Section walk.
Context (s : vmem) (pgdir : Z) (A T : gmap Z Z) (n k : Z).
Context (Hrep : rep s pgdir A T) (Hn : 0 <= n < 2 ^ 20) (Hk : 0 <= k < PGSIZE).

Lemma walk_found v alloc : T !! (n / 1024) = Some v ->
  walkpgdir s pgdir (PGSIZE * n + k) alloc = Ok (Some (v, n mod 1024), s).
Proof.
  intros Hv. destruct (rep_dir _ _ _ _ Hrep) as (d & Hd & Hent). specialize (Hent _ (dir_range _ Hn)).
  rewrite Hv in Hent. destruct (rep_good _ _ _ _ Hrep _ _ Hv) as (_ & Hg & _).
  destruct (table_entry v Hg) as (_ & Hp & Hu).
  unfold walkpgdir, tget. rewrite PDX_spec, PTX_spec, Hd by done. run. rewrite Hent, Hp.
  fold (upage (V2P v + 7)). by rewrite Hu.
Qed.

Lemma walk_none : T !! (n / 1024) = None -> walkpgdir s pgdir (PGSIZE * n + k) false = Ok (None, s).
Proof.
  intros Hv. destruct (rep_dir _ _ _ _ Hrep) as (d & Hd & Hent). specialize (Hent _ (dir_range _ Hn)).
  rewrite Hv in Hent. unfold walkpgdir, tget. rewrite PDX_spec, Hd by done. run. by rewrite Hent.
Qed.

Lemma walk_full : T !! (n / 1024) = None -> pool s = [] ->
  walkpgdir s pgdir (PGSIZE * n + k) true = Ok (None, s).
Proof.
  intros Hv Hp. destruct (rep_dir _ _ _ _ Hrep) as (d & Hd & Hent). specialize (Hent _ (dir_range _ Hn)).
  rewrite Hv in Hent. unfold walkpgdir, tget. rewrite PDX_spec, Hd by done. run. rewrite Hent.
  cbn [negb]. unfold kalloc_page. by rewrite Hp.
Qed.

Lemma walk_new v l : T !! (n / 1024) = None -> pool_ok s -> pool s = v :: l ->
  exists s', walkpgdir s pgdir (PGSIZE * n + k) true = Ok (Some (v, n mod 1024), s') /\
    rep s' pgdir A (<[n / 1024 := v]> T) /\ pool s' = l /\ is_Some (frames s' !! v) /\
    forall x, x <> v -> x <> pgdir -> frames s' !! x = frames s !! x.
Proof.
  intros Hv [Hnd Hpool] Hp. destruct (rep_dir _ _ _ _ Hrep) as (d & Hd & Hent).
  pose proof (Hent _ (dir_range _ Hn)) as Hpde. rewrite Hv in Hpde.
  destruct (Hpool v) as [Hgv Hfv]; [rewrite Hp; left|].
  assert (Hne : v <> pgdir) by congruence. destruct (table_entry v Hgv) as (He & Hpr & _).
  unfold walkpgdir, tget. rewrite PDX_spec, PTX_spec, Hd by done. run. rewrite Hpde. cbn [negb].
  unfold kalloc_page. rewrite Hp, (good_nonzero v Hgv). unfold tset, put_frame. cbn [frames pool].
  rewrite lookup_insert_ne, Hd by done. run. rewrite He. eexists. split; [done|]. cbn [frames pool].
  assert (Htab : forall x t, frames s !! x = Some t -> x <> v) by (intros x t Hx ->; congruence).
  split; [|split; [done|split]].
  - constructor.
    + eexists. split; [apply lookup_insert_eq|]. intros i Hi.
      destruct (decide (i = n / 1024)) as [->|Hni].
      * by rewrite !lookup_insert_eq.
      * rewrite !lookup_insert_ne by done. by apply Hent.
    + intros i w. destruct (decide (i = n / 1024)) as [->|Hni].
      * rewrite lookup_insert_eq. intros [= <-]. split; [by apply dir_range|done].
      * rewrite lookup_insert_ne by done. apply (rep_good _ _ _ _ Hrep).
    + assert (Hfresh : forall i, T !! i = Some v -> False).
      { intros i Hi. destruct (rep_tab _ _ _ _ Hrep _ _ Hi) as (t & Ht & _). congruence. }
      intros i j w Hi Hj. apply lookup_insert_Some in Hi as [[<- <-]|[Hi Hi']];
        apply lookup_insert_Some in Hj as [[<- Hj]|[Hj Hj']]; try done.
      * exfalso. by eapply Hfresh.
      * subst w. exfalso. by eapply Hfresh.
      * by eapply (rep_inj _ _ _ _ Hrep).
    + intros i w Hi. apply lookup_insert_Some in Hi as [[<- <-]|[Hi Hi']]; cbn.
      * exists ∅. rewrite lookup_insert_ne, lookup_insert_eq by done. split; [done|]. intros j Hj.
        destruct (A !! _) as [p|] eqn:EA; [|done].
        destruct (rep_ent _ _ _ _ Hrep _ _ EA) as [_ [w Hw]].
        replace ((1024 * (n / 1024) + j) / 1024) with (n / 1024) in Hw by (Z.div_mod_to_equations; lia).
        congruence.
      * destruct (rep_tab _ _ _ _ Hrep _ _ Hi') as (t & Ht & Hj). exists t. split; [|done].
        destruct (rep_good _ _ _ _ Hrep _ _ Hi') as (_ & _ & Hwp).
        rewrite !lookup_insert_ne; [done| |congruence]. intros ->. congruence.
    + intros m p Hm. destruct (rep_ent _ _ _ _ Hrep _ _ Hm) as [? Hs]. split; [done|].
      destruct (decide (m / 1024 = n / 1024)) as [->|]; [by rewrite lookup_insert_eq|].
      by rewrite lookup_insert_ne.
  - rewrite lookup_insert_ne, lookup_insert_eq by done. eauto.
  - intros x Hx1 Hx2. by rewrite !lookup_insert_ne.
Qed.

End walk.

(** ** Entries *)

Lemma entry_get s pgdir A T n v : rep s pgdir A T -> T !! (n / 1024) = Some v ->
  exists x, tget s v (n mod 1024) = Ok x /\
    match A !! n with Some p => x = p /\ present p = true | None => present x = false end.
Proof.
  intros Hrep Hv. destruct (rep_tab _ _ _ _ Hrep _ _ Hv) as (t & Ht & Hj).
  specialize (Hj (n mod 1024) ltac:(Z.div_mod_to_equations; lia)). rewrite split_vpn in Hj.
  unfold tget. rewrite Ht. eauto.
Qed.

(** [x] replaces an entry: a mapping is added or removed. *)
Lemma entry_set s pgdir A T n v x : rep s pgdir A T -> T !! (n / 1024) = Some v -> 0 <= n < 2 ^ 20 ->
  exists s', tset s v (n mod 1024) x = Ok s' /\
    rep s' pgdir (if present x then <[n := x]> A else delete n A) T /\
    pool s' = pool s /\ (forall y, y <> v -> frames s' !! y = frames s !! y) /\ is_Some (frames s' !! v) /\
    is_Some (frames s !! v).
Proof.
  intros Hrep Hv Hn. destruct (rep_tab _ _ _ _ Hrep _ _ Hv) as (t & Ht & Hent).
  destruct (rep_good _ _ _ _ Hrep _ _ Hv) as (Hi & Hg & Hvp).
  unfold tset. rewrite Ht. eexists. split; [done|]. unfold put_frame. cbn [frames pool].
  set (A' := if present x then _ else _).
  assert (HA : forall m, m <> n -> A' !! m = A !! m).
  { intros m Hm. unfold A'. destruct (present x); [by rewrite lookup_insert_ne|by rewrite lookup_delete_ne]. }
  split_and!; [|done|by intros y Hy; rewrite lookup_insert_ne|rewrite lookup_insert_eq; eauto|eauto].
  constructor.
  - cbn [frames]. rewrite lookup_insert_ne by done. apply (rep_dir _ _ _ _ Hrep).
  - apply (rep_good _ _ _ _ Hrep).
  - apply (rep_inj _ _ _ _ Hrep).
  - intros i w Hw. cbn [frames]. destruct (decide (i = n / 1024)) as [->|Hni].
    + assert (w = v) as -> by congruence. rewrite lookup_insert_eq. eexists. split; [done|]. intros j Hj.
      destruct (decide (j = n mod 1024)) as [->|Hnj].
      * rewrite split_vpn, lookup_insert_eq. unfold A'. destruct (present x) eqn:Ex.
        -- by rewrite lookup_insert_eq.
        -- by rewrite lookup_delete_eq.
      * rewrite lookup_insert_ne by done. rewrite HA by (Z.div_mod_to_equations; lia). by apply Hent.
    + rewrite lookup_insert_ne.
      * destruct (rep_tab _ _ _ _ Hrep _ _ Hw) as (t' & Ht' & Hent'). exists t'. split; [done|].
        intros j Hj. rewrite HA by (Z.div_mod_to_equations; lia). by apply Hent'.
      * intros ->. apply Hni. by eapply (rep_inj _ _ _ _ Hrep).
  - intros m p Hm. destruct (decide (m = n)) as [->|Hne]; [eauto|]. rewrite HA in Hm by done.
    by apply (rep_ent _ _ _ _ Hrep _ _ Hm).
Qed.

(** ** Ownership *)

(** Entries below [KERNBASE] are the user's. *)
Definition USERTOP : Z := 524288.

Definition user_ok (s : vmem) (A : gmap Z Z) : Prop :=
  (forall n p, A !! n = Some p -> n < USERTOP -> 0 <= p < 2 ^ 32 /\ good (upage p) /\
    exists bs, frames s !! upage p = Some (Data bs) /\ length bs = Z.to_nat PGSIZE) /\
  (forall n m p q, A !! n = Some p -> A !! m = Some q -> n < USERTOP -> m < USERTOP ->
    upage p = upage q -> n = m).

Definition owned (pgdir : Z) (A T : gmap Z Z) (x : Z) : Prop :=
  x = pgdir \/ (exists i, T !! i = Some x) \/ exists n p, A !! n = Some p /\ n < USERTOP /\ upage p = x.

Record space (P : Z -> Prop) (F : gmap Z content) (s : vmem) (pgdir : Z) (A T : gmap Z Z) (E : list Z) : Prop := Space {
  sp_rep : rep s pgdir A T;
  sp_user : user_ok s A;
  sp_pool : pool_ok s;
  sp_dir : good pgdir;
  sp_transit : forall x, x ∈ E -> is_Some (frames s !! x) /\ good x /\ ~ owned pgdir A T x;
  sp_mine : forall x, owned pgdir A T x \/ x ∈ E -> F !! x = None;
  sp_frame : forall x, ~ owned pgdir A T x -> x ∉ E -> frames s !! x = F !! x;
  sp_all : forall x, P x <-> x ∈ pool s \/ is_Some (frames s !! x) }.

#[global] Instance owned_dec pgdir A T x : Decision (owned pgdir A T x).
Proof.
  assert (H : Decision (x = pgdir \/ x ∈ (map_to_list T).*2 \/
    x ∈ (upage ∘ snd <$> filter (fun e => e.1 < USERTOP) (map_to_list A)))) by apply _.
  destruct H as [H|H]; [left|right]; unfold owned.
  - destruct H as [H|[H|H]]; [by left|right; left|right; right].
    + apply list_elem_of_fmap in H as ([i v] & -> & Hi). exists i. by apply elem_of_map_to_list.
    + apply list_elem_of_fmap in H as ([i v] & -> & Hi). apply list_elem_of_filter in Hi as [? Hi].
      exists i, v. apply elem_of_map_to_list in Hi. done.
  - intros [->|[[i Hi]|(m & p & Hm & Hlt & <-)]]; apply H; [by left|right; left|right; right].
    + apply list_elem_of_fmap. exists (i, x). split; [done|]. by apply elem_of_map_to_list.
    + apply list_elem_of_fmap. exists (m, p). split; [done|]. apply list_elem_of_filter.
      split; [done|by apply elem_of_map_to_list].
Qed.

Lemma owned_some P F s pgdir A T E x : space P F s pgdir A T E -> owned pgdir A T x -> is_Some (frames s !! x).
Proof.
  intros Hs [->|[[i Hi]|(n & p & Hn & Hu & <-)]].
  - destruct (rep_dir _ _ _ _ (sp_rep _ _ _ _ _ _ _ Hs)) as (d & -> & _). eauto.
  - destruct (rep_tab _ _ _ _ (sp_rep _ _ _ _ _ _ _ Hs) _ _ Hi) as (t & -> & _). eauto.
  - destruct (proj1 (sp_user _ _ _ _ _ _ _ Hs) _ _ Hn Hu) as (_ & _ & bs & -> & _). eauto.
Qed.

(** A page of the pool is nobody's. *)
Lemma pool_fresh P F s pgdir A T E v l : space P F s pgdir A T E -> pool s = v :: l ->
  good v /\ frames s !! v = None /\ ~ owned pgdir A T v /\ (v ∉ E) /\ v ∉ l.
Proof.
  intros Hs Hp. destruct (sp_pool _ _ _ _ _ _ _ Hs) as [Hnd Hpool].
  destruct (Hpool v) as [Hg Hf]; [rewrite Hp; left|]. split; [done|]. split; [done|]. split; [|split].
  - intros Ho. destruct (owned_some _ _ _ _ _ _ _ _ Hs Ho) as [? ?]. congruence.
  - intros Hin. destruct (sp_transit _ _ _ _ _ _ _ Hs v Hin) as [[? ?] _]. congruence.
  - rewrite Hp in Hnd. by apply NoDup_cons in Hnd as [? _].
Qed.

(** A user page is not a directory or a table. *)
Lemma user_not_table s pgdir A T x bs : rep s pgdir A T -> frames s !! x = Some (Data bs) ->
  x <> pgdir /\ forall i, T !! i <> Some x.
Proof.
  intros Hr Hx. split.
  - intros ->. destruct (rep_dir _ _ _ _ Hr) as (d & Hd & _). congruence.
  - intros i Hi. destruct (rep_tab _ _ _ _ Hr _ _ Hi) as (t & Ht & _). congruence.
Qed.

Lemma user_ok_frame s s' A : user_ok s A ->
  (forall n p bs, A !! n = Some p -> n < USERTOP -> frames s !! upage p = Some (Data bs) ->
     frames s' !! upage p = Some (Data bs)) ->
  user_ok s' A.
Proof.
  intros [H1 H2] Hf. split; [|done]. intros n p Hn Hu. destruct (H1 _ _ Hn Hu) as (? & ? & bs & Hb & Hl).
  split; [done|]. split; [done|]. exists bs. eauto.
Qed.

(** ** Adding mappings *)

(** Pages of bytes keep what they hold. *)
Definition keeps (s s' : vmem) : Prop :=
  forall y bs, frames s !! y = Some (Data bs) -> frames s' !! y = Some (Data bs).

Lemma keeps_trans s1 s2 s3 : keeps s1 s2 -> keeps s2 s3 -> keeps s1 s3.
Proof. intros H1 H2 y bs Hy. eauto. Qed.

Lemma keeps_off s s' (D : Z -> Prop) :
  (forall y, ~ D y -> frames s' !! y = frames s !! y) ->
  (forall y bs, D y -> frames s !! y <> Some (Data bs)) -> (forall y, Decision (D y)) -> keeps s s'.
Proof.
  intros Hf Hd Hdec y bs Hy. destruct (decide (D y)) as [H|H]; [by destruct (Hd y bs H)|].
  by rewrite Hf.
Qed.

Lemma owned_table pgdir A T i v x : T !! i = None ->
  owned pgdir A (<[i := v]> T) x <-> x = v \/ owned pgdir A T x.
Proof.
  intros Hi. unfold owned. split.
  - intros [->|[[j Hj]|H]]; [by right; left| |right; right; by right].
    apply lookup_insert_Some in Hj as [[_ ->]|[_ Hj]]; [by left|right; right; left; eauto].
  - intros [->|[->|[[j Hj]|H]]]; [right; left; exists i; by rewrite lookup_insert_eq|by left| |by right; right].
    right; left. exists j. rewrite lookup_insert_ne; [done|congruence].
Qed.

Lemma walk_space P F s d A T E n : space P F s d A T E -> 0 <= n < 2 ^ 20 ->
  (walkpgdir s d (PGSIZE * n) true = Ok (None, s) /\ pool s = []) \/
  exists v s' T', walkpgdir s d (PGSIZE * n) true = Ok (Some (v, n mod 1024), s') /\
    space P F s' d A T' E /\ T' !! (n / 1024) = Some v /\ keeps s s'.
Proof.
  intros Hs Hn. pose proof (sp_rep _ _ _ _ _ _ _ Hs) as Hr. rewrite <- (Z.add_0_r (PGSIZE * n)).
  destruct (T !! (n / 1024)) as [v|] eqn:Ev.
  { right. exists v, s, T. split; [by apply (walk_found s d A T)|]. split; [done|]. split; [done|]. by intros y bs. }
  destruct (pool s) as [|v l] eqn:Ep.
  { left. split; [|done]. by apply (walk_full s d A T). }
  right. destruct (pool_fresh _ _ _ _ _ _ _ _ _ Hs Ep) as (Hg & Hf & Ho & HvE & Hvl).
  pose proof (sp_pool _ _ _ _ _ _ _ Hs) as [Hnd Hpool].
  destruct (walk_new s d A T n 0 Hr Hn ltac:(done) v l Ev (conj Hnd Hpool) Ep) as (s' & Hw & Hr' & Hp' & Hv' & Hoff).
  exists v, s', (<[n / 1024 := v]> T). split; [done|].
  assert (Hkeep : keeps s s').
  { apply (keeps_off s s' (fun y => y = v \/ y = d)); [| |apply _].
    - intros y Hy. apply Hoff; naive_solver.
    - intros y bs [->| ->] Hy; [congruence|]. destruct (rep_dir _ _ _ _ Hr) as (? & ? & _). congruence. }
  split; [|split; [apply lookup_insert_eq|done]].
  assert (Hd : is_Some (frames s !! d) /\ is_Some (frames s' !! d)).
  { destruct (rep_dir _ _ _ _ Hr) as (? & -> & _). destruct (rep_dir _ _ _ _ Hr') as (? & -> & _). eauto. }
  constructor; try done.
  - eapply user_ok_frame; [apply (sp_user _ _ _ _ _ _ _ Hs)|]. intros m p bs _ _ Hb. by apply Hkeep.
  - rewrite Ep in Hnd, Hpool. apply NoDup_cons in Hnd as [_ Hnd]. split; [by rewrite Hp'|]. intros y Hy. rewrite Hp' in Hy.
    destruct (Hpool y) as [? Hy2]; [by right|]. split; [done|]. rewrite Hoff; [done|congruence|].
    intros ->. destruct Hd as [[? ?] _]. congruence.
  - apply (sp_dir _ _ _ _ _ _ _ Hs).
  - intros x Hx. destruct (sp_transit _ _ _ _ _ _ _ Hs x Hx) as (Hx1 & Hx2 & Hx3).
    rewrite owned_table by done. assert (x <> v) by congruence.
    split; [|split; [done|naive_solver]]. rewrite Hoff; [done|done|]. intros ->. apply Hx3. by left.
  - intros x. rewrite owned_table by done. intros Hx.
    destruct (decide (x = v)) as [->|Hne]; [|apply (sp_mine _ _ _ _ _ _ _ Hs); naive_solver].
    rewrite <- (sp_frame _ _ _ _ _ _ _ Hs v Ho HvE). done.
  - intros x. rewrite owned_table by done. intros Hx HxE.
    rewrite Hoff; [apply (sp_frame _ _ _ _ _ _ _ Hs); naive_solver|naive_solver|].
    intros ->. apply Hx. right. by left.
  - intros x. rewrite (sp_all _ _ _ _ _ _ _ Hs x), Ep, Hp', elem_of_cons.
    destruct (decide (x = v)) as [->|Hne]; [naive_solver|].
    destruct (decide (x = d)) as [->|Hne']; [naive_solver|]. rewrite Hoff by done. naive_solver.
Qed.

Lemma set_keeps s s' d A T i v : rep s d A T -> T !! i = Some v ->
  (forall y, y <> v -> frames s' !! y = frames s !! y) -> keeps s s'.
Proof.
  intros Hr Hv Hoff. apply (keeps_off s s' (fun y => y = v)); [done| |apply _].
  intros y bs -> Hy. destruct (rep_tab _ _ _ _ Hr _ _ Hv) as (t & ? & _). congruence.
Qed.

Lemma pool_ok_set s s' v : pool_ok s -> pool s' = pool s -> is_Some (frames s !! v) ->
  (forall y, y <> v -> frames s' !! y = frames s !! y) -> pool_ok s'.
Proof.
  intros [Hnd Hp] Hps [c Hc] Hoff. unfold pool_ok. rewrite Hps. split; [done|].
  intros y Hy. destruct (Hp y Hy) as [? Hn]. split; [done|]. rewrite Hoff; congruence.
Qed.

(** An entry of the kernel part. *)
Lemma set_kernel P F s d A T E n v x : space P F s d A T E -> T !! (n / 1024) = Some v ->
  USERTOP <= n < 2 ^ 20 -> present x = true ->
  exists s', tset s v (n mod 1024) x = Ok s' /\ space P F s' d (<[n := x]> A) T E /\ keeps s s'.
Proof.
  intros Hs Hv Hn Hx. pose proof (sp_rep _ _ _ _ _ _ _ Hs) as Hr.
  destruct (entry_set s d A T n v x Hr Hv ltac:(unfold USERTOP in *; lia)) as (s' & Ht & Hr' & Hp & Hoff & Hsv & Hsv0).
  rewrite Hx in Hr'. pose proof (set_keeps _ _ _ _ _ _ _ Hr Hv Hoff) as Hk.
  exists s'. split; [done|]. split; [|done].
  assert (Hown : forall y, owned d (<[n := x]> A) T y <-> owned d A T y).
  { intros y. unfold owned. do 2 (apply or_iff_compat_l). split; intros (m & p & Hm & Hu & Hp'); exists m, p.
    - rewrite lookup_insert_ne in Hm by lia. done.
    - rewrite lookup_insert_ne by lia. done. }
  assert (Hvo : owned d A T v) by (right; left; eauto).
  constructor; try done.
  - destruct (user_ok_frame s s' A (sp_user _ _ _ _ _ _ _ Hs)) as [U1 U2]; [intros m p bs _ _; apply Hk|].
    split.
    + intros m p Hm Hu. rewrite lookup_insert_ne in Hm by lia. eauto.
    + intros m m' p q Hm Hm' Hu Hu'. rewrite lookup_insert_ne in Hm by lia. rewrite lookup_insert_ne in Hm' by lia. eauto.
  - eapply pool_ok_set; [apply (sp_pool _ _ _ _ _ _ _ Hs)|done|exact Hsv0|done].
  - apply (sp_dir _ _ _ _ _ _ _ Hs).
  - intros y Hy. rewrite Hown. destruct (sp_transit _ _ _ _ _ _ _ Hs y Hy) as (H1 & H2 & H3).
    split; [|done]. rewrite Hoff; [done|]. intros ->. done.
  - intros y. rewrite Hown. apply (sp_mine _ _ _ _ _ _ _ Hs).
  - intros y. rewrite Hown. intros Hy HyE. rewrite Hoff; [by apply (sp_frame _ _ _ _ _ _ _ Hs)|]. by intros ->.
  - intros y. rewrite (sp_all _ _ _ _ _ _ _ Hs y), Hp.
    destruct (decide (y = v)) as [->|Hne]; [naive_solver|]. by rewrite Hoff.
Qed.

(** A user entry for the page in transit. *)
Lemma set_user P F s d A T w n v x bs : space P F s d A T [w] -> T !! (n / 1024) = Some v ->
  0 <= n < USERTOP -> A !! n = None -> present x = true -> 0 <= x < 2 ^ 32 -> upage x = w ->
  frames s !! w = Some (Data bs) -> length bs = Z.to_nat PGSIZE ->
  exists s', tset s v (n mod 1024) x = Ok s' /\ space P F s' d (<[n := x]> A) T [] /\ keeps s s'.
Proof.
  intros Hs Hv Hn HA Hx Hxb Hw Hbs Hlen. pose proof (sp_rep _ _ _ _ _ _ _ Hs) as Hr.
  destruct (entry_set s d A T n v x Hr Hv ltac:(unfold USERTOP in *; lia)) as (s' & Ht & Hr' & Hp & Hoff & Hsv & Hsv0).
  rewrite Hx in Hr'. pose proof (set_keeps _ _ _ _ _ _ _ Hr Hv Hoff) as Hk.
  exists s'. split; [done|]. split; [|done].
  destruct (sp_transit _ _ _ _ _ _ _ Hs w ltac:(by left)) as (_ & Hgw & Hnw).
  assert (Hown : forall y, owned d (<[n := x]> A) T y <-> y = w \/ owned d A T y).
  { intros y. unfold owned. split.
    - intros [H|[H|(m & p & Hm & Hu & Hp')]]; [naive_solver..|].
      apply lookup_insert_Some in Hm as [[<- <-]|[_ Hm]]; [left; congruence|right; right; right; eauto].
    - intros [->|[H|[H|(m & p & Hm & Hu & Hp')]]]; [|by left|by right; left|].
      + right; right. exists n, x. rewrite lookup_insert_eq. naive_solver lia.
      + right; right. exists m, p. rewrite lookup_insert_ne; [done|congruence]. }
  assert (Hvo : owned d A T v) by (right; left; eauto).
  assert (Hother : forall m p, A !! m = Some p -> m < USERTOP -> upage p <> w).
  { intros m p Hm Hu Hup. apply Hnw. right; right. eauto. }
  constructor; try done.
  - destruct (user_ok_frame s s' A (sp_user _ _ _ _ _ _ _ Hs)) as [U1 U2]; [intros m p b _ _; apply Hk|].
    split.
    + intros m p Hm Hu. apply lookup_insert_Some in Hm as [[<- <-]|[_ Hm]]; [|by eauto].
      rewrite Hw. split; [done|]. split; [done|]. exists bs. split; [by apply Hk|done].
    + intros m m' p q Hm Hm' Hu Hu' Hpq.
      apply lookup_insert_Some in Hm as [[<- <-]|[_ Hm]]; apply lookup_insert_Some in Hm' as [[<- <-]|[_ Hm']];
        [done| | |by eauto]; exfalso; [eapply Hother; [exact Hm'|done|congruence]|eapply Hother; [exact Hm|done|congruence]].
  - eapply pool_ok_set; [apply (sp_pool _ _ _ _ _ _ _ Hs)|done|exact Hsv0|done].
  - apply (sp_dir _ _ _ _ _ _ _ Hs).
  - intros y Hy. by apply elem_of_nil in Hy.
  - intros y. rewrite Hown. intros Hy. apply (sp_mine _ _ _ _ _ _ _ Hs).
    destruct Hy as [[->|Hy]|Hy]; [right; by left|by left|by apply elem_of_nil in Hy].
  - intros y. rewrite Hown. intros Hy _. rewrite Hoff; [|naive_solver].
    apply (sp_frame _ _ _ _ _ _ _ Hs); [naive_solver|]. intros Hin%list_elem_of_singleton. naive_solver.
  - intros y. rewrite (sp_all _ _ _ _ _ _ _ Hs y), Hp.
    destruct (decide (y = v)) as [->|Hne]; [naive_solver|]. by rewrite Hoff.
Qed.

End pgtab.
