(* ===== verification/Xv6Uvm.v ===== *)
(** Address spaces of xv6: building, growing, shrinking, copying and freeing
    them ([Xv6Vm]), with the separation of [Xv6Pgtab]. *)

From S2P Require Import Prelude Bytes Xv6Kalloc Xv6Vm Xv6Pgtab.

Section uvm.
Context (end_ data : Z) (Hend : KERNBASE < end_).

Abbreviation space := (space end_).
Abbreviation good := (good end_).
Abbreviation pool_ok := (pool_ok end_).

(** ** Mapping pages *)

Lemma addr_page n : 0 <= n < 2 ^ 20 -> PGROUNDDOWN (PGSIZE * n) = PGSIZE * n /\ 0 <= PGSIZE * n < 2 ^ 32.
Proof.
  intros Hn. change (2 ^ 20) with 1048576 in Hn.
  assert (0 <= PGSIZE * n < 2 ^ 32) by page_lia. split; [|done].
  rewrite PGROUNDDOWN_spec by done. page_lia.
Qed.

Lemma entry_value pa perm : pa mod PGSIZE = 0 -> 0 <= perm < PGSIZE -> 0 <= pa <= 2 ^ 32 - PGSIZE ->
  let x := Z.lor (Z.lor pa perm) PTE_P in
  x = pa + Z.lor perm 1 /\ 0 <= Z.lor perm 1 < PGSIZE /\ present x = true /\ 0 <= x < 2 ^ 32.
Proof.
  intros Hm Hp Hb x. unfold x. rewrite <- Z.lor_assoc. unfold PTE_P.
  assert (Hr : 0 <= Z.lor perm 1 < PGSIZE).
  { split; [apply Z.lor_nonneg; lia|]. destruct (Z.eq_dec (Z.lor perm 1) 0) as [->|]; [done|].
    change PGSIZE with (2 ^ 12). apply Z.log2_lt_pow2; [pose proof (Z.lor_nonneg perm 1); lia|].
    rewrite Z.log2_lor by lia. apply Z.max_lub_lt; [|done].
    destruct (Z.eq_dec perm 0) as [->|]; [done|]. apply Z.log2_lt_pow2; [lia|]. apply Hp. }
  rewrite lor_page by done. split; [done|]. split; [done|]. split; [|page_lia].
  rewrite present_odd, Z.odd_add.
  replace (Z.odd pa) with false.
  - rewrite <- Z.bit0_odd, Z.lor_spec. by rewrite orb_true_r.
  - symmetry. rewrite <- Z.negb_even. apply negb_false_iff, Z.even_spec. exists (pa / 2). page_lia.
Qed.

(** [mappages] of one user page, which is in transit. *)
Lemma map_user P F s d A T w n perm bs : space P F s d A T [w] -> 0 <= n < USERTOP -> A !! n = None ->
  0 <= perm < PGSIZE -> frames s !! w = Some (Data bs) -> length bs = Z.to_nat PGSIZE ->
  (mappages s d (PGSIZE * n) PGSIZE (V2P w) perm = Ok (-1, s)) \/
  exists s' T', mappages s d (PGSIZE * n) PGSIZE (V2P w) perm = Ok (0, s') /\
    space P F s' d (<[n := V2P w + Z.lor perm 1]> A) T' [] /\ keeps s s'.
Proof.
  intros Hs Hn HA Hp Hw Hl. assert (Hn20 : 0 <= n < 2 ^ 20) by (unfold USERTOP in Hn; lia).
  destruct (addr_page n Hn20) as [Ha Hb]. unfold mappages. rewrite Ha.
  assert (PGROUNDDOWN (u32 (PGSIZE * n + PGSIZE - 1)) = PGSIZE * n) as ->.
  { unfold USERTOP in Hn. rewrite PGROUNDDOWN_spec by page_lia. page_lia. }
  rewrite Z.sub_diag. change (S (Z.to_nat (u32 0 / PGSIZE))) with 1%nat. cbn [map_loop].
  destruct (walk_space _ _ _ _ _ _ _ _ n Hs Hn20) as [[-> _]|(v & s1 & T1 & -> & Hs1 & Hv & Hk)]; run; [by left|].
  right. pose proof (sp_rep _ _ _ _ _ _ _ _ Hs1) as Hr1.
  destruct (entry_get _ s1 d A T1 n v Hr1 Hv) as (x & -> & Hx). rewrite HA in Hx. run. rewrite Hx.
  destruct (sp_transit _ _ _ _ _ _ _ _ Hs w ltac:(by left)) as (_ & Hgw & _).
  destruct (good_V2P _ _ Hgw) as (_ & Hm & Hpb).
  destruct (entry_value (V2P w) perm Hm Hp ltac:(page_lia)) as (Hval & Hf & Hpr & Hxb).
  destruct (set_user end_ P F s1 d A T1 w n v (Z.lor (Z.lor (V2P w) perm) PTE_P) bs) as (s2 & -> & Hs2 & Hk2); try done.
  { rewrite Hval. by apply (upage_entry end_). }
  { by apply Hk. }
  run. rewrite Z.eqb_refl. exists s2, T1. split; [done|]. rewrite Hval in Hs2. split; [done|]. by eapply keeps_trans.
Qed.

(** [mappages] of a range of the kernel part: pages [n .. n + k]. *)
Lemma map_kernel_loop P F d perm E k : forall fuel s A T n pa, (Z.to_nat k < fuel)%nat -> 0 <= k ->
  space P F s d A T E -> USERTOP <= n -> n + k < 2 ^ 20 -> (forall m, n <= m <= n + k -> A !! m = None) ->
  pa mod PGSIZE = 0 -> 0 <= pa -> pa + PGSIZE * k <= 2 ^ 32 - PGSIZE -> 0 <= perm < PGSIZE ->
  exists r s' A' T', map_loop fuel s d (PGSIZE * n) (PGSIZE * (n + k)) pa perm = Ok (r, s') /\
    space P F s' d A' T' E /\ keeps s s' /\ (forall m, ~ n <= m <= n + k -> A' !! m = A !! m) /\
    (r = -1 \/ r = 0 /\ forall m, n <= m <= n + k -> A' !! m = Some (pa + PGSIZE * (m - n) + Z.lor perm 1)).
Proof.
  intros fuel. revert k. induction fuel as [|fuel IH]; intros k s A T n pa Hf Hk Hs Hn Hnk HA Hm Hpa Hpk Hp; [lia|].
  cbn [map_loop]. assert (Hn20 : 0 <= n < 2 ^ 20) by (unfold USERTOP in Hn; lia).
  destruct (walk_space _ _ _ _ _ _ _ _ n Hs Hn20) as [[-> _]|(v & s1 & T1 & -> & Hs1 & Hv & Hk1)]; run.
  { exists (-1), s, A, T. split; [done|]. split; [done|]. split; [by intros ??|]. split; [done|by left]. }
  pose proof (sp_rep _ _ _ _ _ _ _ _ Hs1) as Hr1.
  destruct (entry_get _ s1 d A T1 n v Hr1 Hv) as (x & -> & Hx). rewrite HA in Hx by lia. run. rewrite Hx.
  destruct (entry_value pa perm Hm Hp ltac:(page_lia)) as (Hval & Hfl & Hpr & Hxb).
  destruct (set_kernel end_ P F s1 d A T1 E n v (Z.lor (Z.lor pa perm) PTE_P) Hs1 Hv ltac:(lia) Hpr)
    as (s2 & -> & Hs2 & Hk2). run. rewrite Hval in Hs2.
  pose proof (keeps_trans _ _ _ Hk1 Hk2) as Hk12.
  destruct (Z.eq_dec k 0) as [->|Hk0].
  - rewrite Z.add_0_r, Z.eqb_refl. eexists 0, s2, _, T1. split; [done|]. split; [done|]. split; [done|]. split.
    + intros m Hm'. apply lookup_insert_ne. lia.
    + right. split; [done|]. intros m Hm'. assert (m = n) as -> by lia. rewrite lookup_insert_eq.
      f_equal. unfold PGSIZE. lia.
  - rewrite (proj2 (Z.eqb_neq _ _)) by (unfold PGSIZE; lia).
    assert (u32 (PGSIZE * n + PGSIZE) = PGSIZE * (n + 1)) as ->.
    { change (2 ^ 20) with 1048576 in *. unfold USERTOP in Hn. page_lia. }
    assert (u32 (pa + PGSIZE) = pa + PGSIZE) as -> by page_lia.
    destruct (IH (k - 1) s2 (<[n := pa + Z.lor perm 1]> A) T1 (n + 1) (pa + PGSIZE))
      as (r & s3 & A3 & T3 & Hl & Hs3 & Hk3 & Hout & Hres); try done; try lia; try page_lia.
    { intros m Hm'. rewrite lookup_insert_ne by lia. apply HA. lia. }
    replace (n + 1 + (k - 1)) with (n + k) in Hl, Hout, Hres by lia.
    exists r, s3, A3, T3. split; [done|]. split; [done|]. split; [by eapply keeps_trans|]. split.
    + intros m Hm'. rewrite Hout by lia. apply lookup_insert_ne. lia.
    + destruct Hres as [->|[-> Hin]]; [by left|right]. split; [done|]. intros m Hm'.
      destruct (Z.eq_dec m n) as [->|Hmn].
      * rewrite Hout by lia. rewrite lookup_insert_eq. f_equal. unfold PGSIZE. lia.
      * rewrite Hin by lia. f_equal. unfold PGSIZE. lia.
Qed.

(** [mappages] of the [k] pages from [n]. *)
Lemma map_kernel_range P F s d A T E n k pa perm : 0 < k -> space P F s d A T E -> USERTOP <= n -> n + k <= 2 ^ 20 ->
  (forall m, n <= m < n + k -> A !! m = None) -> pa mod PGSIZE = 0 -> 0 <= pa -> pa + PGSIZE * k <= 2 ^ 32 ->
  0 <= perm < PGSIZE ->
  exists r s' A' T', mappages s d (PGSIZE * n) (PGSIZE * k) pa perm = Ok (r, s') /\
    space P F s' d A' T' E /\ keeps s s' /\ (forall m, ~ n <= m < n + k -> A' !! m = A !! m) /\
    (r = -1 \/ r = 0 /\ forall m, n <= m < n + k -> A' !! m = Some (pa + PGSIZE * (m - n) + Z.lor perm 1)).
Proof.
  intros Hk Hs Hn Hnk HA Hm Hpa Hpk Hp. unfold USERTOP in Hn. change (2 ^ 20) with 1048576 in *.
  destruct (addr_page n ltac:(change (2 ^ 20) with 1048576; lia)) as [Ha Hb]. unfold mappages. rewrite Ha.
  assert (PGROUNDDOWN (u32 (PGSIZE * n + PGSIZE * k - 1)) = PGSIZE * (n + (k - 1))) as ->.
  { assert (u32 (PGSIZE * n + PGSIZE * k - 1) = PGSIZE * n + PGSIZE * k - 1) as -> by page_lia.
    rewrite PGROUNDDOWN_spec by page_lia. page_lia. }
  assert (u32 (PGSIZE * (n + (k - 1)) - PGSIZE * n) / PGSIZE = k - 1) as -> by page_lia.
  destruct (map_kernel_loop P F d perm E (k - 1) (S (Z.to_nat (k - 1))) s A T n pa)
    as (r & s' & A' & T' & H1 & H2 & H3 & H4 & H5); try done; try lia; try page_lia.
  { intros m Hm'. apply HA. lia. }
  exists r, s', A', T'. split; [done|]. split; [done|]. split; [done|]. split.
  - intros m Hm'. apply H4. lia.
  - destruct H5 as [->|[-> H5]]; [by left|right]. split; [done|]. intros m Hm'. apply H5. lia.
Qed.

(** ** Releasing user pages *)

Lemma kfree_good s v : good v -> kfree_page end_ s v = Ok (Vmem (delete v (frames s)) (v :: pool s)).
Proof.
  intros Hg. destruct (good_V2P _ _ Hg) as (_ & _ & Hb). destruct Hg as (Hm & He & Ht). unfold kfree_page.
  rewrite Hm. cbn [Z.eqb negb orb]. rewrite (proj2 (Z.ltb_ge _ _)), (proj2 (Z.leb_gt _ _)) by lia. done.
Qed.

(** The page of the entry [p] is given back and the entry cleared. *)
Lemma release P F s d A T E n v p : space P F s d A T E -> T !! (n / 1024) = Some v -> 0 <= n < USERTOP ->
  A !! n = Some p ->
  exists s1 s2, kfree_page end_ s (upage p) = Ok s1 /\ tset s1 v (n mod 1024) 0 = Ok s2 /\
    space P F s2 d (delete n A) T E /\
    (forall y bs, y <> upage p -> frames s !! y = Some (Data bs) -> frames s2 !! y = Some (Data bs)).
Proof.
  intros Hs Hv Hn HA. pose proof (sp_rep _ _ _ _ _ _ _ _ Hs) as Hr. destruct (sp_user _ _ _ _ _ _ _ _ Hs) as [U1 U2].
  destruct (U1 n p HA ltac:(lia)) as (Hpb & Hg & bs & Hbs & Hl).
  destruct (user_not_table _ _ _ _ _ _ _ Hr Hbs) as [Hud Hut]. rewrite (kfree_good _ _ Hg).
  set (s1 := Vmem _ _). assert (Hr1 : rep end_ s1 d A T).
  { eapply rep_frame; [done|]. intros x Hx. cbn. apply lookup_delete_ne. intros <-. naive_solver. }
  destruct (entry_set _ s1 d A T n v 0 Hr1 Hv ltac:(unfold USERTOP in *; lia))
    as (s2 & Hset & Hr2 & Hp2 & Hoff & Hsv & _). change (present 0) with false in Hr2. cbn in Hr2.
  exists s1, s2. split; [done|]. split; [done|].
  assert (Hvu : v <> upage p) by (intros ->; by apply (Hut (n / 1024))).
  assert (Hvt : forall b, frames s !! v <> Some (Data b)).
  { intros b Hb. destruct (rep_tab _ _ _ _ _ Hr _ _ Hv) as (t & ? & _). congruence. }
  assert (Hk : forall y b, y <> upage p -> frames s !! y = Some (Data b) -> frames s2 !! y = Some (Data b)).
  { intros y b Hy Hb. rewrite Hoff by (intros ->; by apply (Hvt b)). cbn. by rewrite lookup_delete_ne by congruence. }
  split; [|done].
  assert (Hu2 : frames s2 !! upage p = None) by (rewrite Hoff by congruence; apply lookup_delete_eq).
  assert (Hother : forall m q, m <> n -> A !! m = Some q -> m < USERTOP -> upage q <> upage p).
  { intros m q Hm Hq Hu Heq. apply Hm. eapply U2; [exact Hq|exact HA|done|lia|done]. }
  assert (Hown : forall y, owned d (delete n A) T y <-> y <> upage p /\ owned d A T y).
  { intros y. unfold owned. split.
    - intros [->|[[i Hi]|(m & q & Hm & Hu & <-)]].
      + split; [congruence|by left].
      + split; [|right; left; eauto]. intros ->. by apply (Hut i).
      + apply lookup_delete_Some in Hm as [Hne Hm]. split; [by eapply Hother|]. right; right. eauto.
    - intros [Hy [->|[H|(m & q & Hm & Hu & <-)]]]; [by left|by right; left|]. right; right.
      exists m, q. rewrite lookup_delete_ne; [done|]. intros ->. congruence. }
  destruct (sp_pool _ _ _ _ _ _ _ _ Hs) as [Hnd Hpool].
  assert (Huo : owned d A T (upage p)) by (right; right; exists n, p; split; [done|split; [lia|done]]).
  constructor; try done.
  - split.
    + intros m q Hm Hu. apply lookup_delete_Some in Hm as [Hne Hm].
      destruct (U1 _ _ Hm Hu) as (? & ? & b & Hb & ?). split; [done|]. split; [done|]. exists b.
      split; [|done]. apply Hk; [by eapply Hother|done].
    + intros m m' q q' Hm Hm'. apply lookup_delete_Some in Hm as [_ Hm]. apply lookup_delete_Some in Hm' as [_ Hm'].
      by eapply U2.
  - split.
    + rewrite Hp2. cbn. apply NoDup_cons. split; [|done]. intros Hin. destruct (Hpool _ Hin). congruence.
    + intros y. rewrite Hp2. cbn. rewrite elem_of_cons. intros [->|Hin]; [done|].
      destruct (Hpool _ Hin) as [? Hy]. split; [done|]. destruct (decide (y = v)) as [->|Hyv].
      * destruct (rep_tab _ _ _ _ _ Hr _ _ Hv) as (t & ? & _). congruence.
      * rewrite Hoff by done. cbn. by apply lookup_delete_None; right.
  - apply (sp_dir _ _ _ _ _ _ _ _ Hs).
  - intros y Hy. destruct (sp_transit _ _ _ _ _ _ _ _ Hs y Hy) as (H1 & H2 & H3). rewrite Hown.
    split; [|split; [done|naive_solver]]. destruct (decide (y = v)) as [->|Hyv]; [done|].
    rewrite Hoff by done. cbn. rewrite lookup_delete_ne; [done|]. intros <-. done.
  - intros y. rewrite Hown. intros Hy. apply (sp_mine _ _ _ _ _ _ _ _ Hs). naive_solver.
  - intros y. rewrite Hown. intros Hy HyE. destruct (decide (y = upage p)) as [->|Hne].
    + rewrite Hu2. symmetry. apply (sp_mine _ _ _ _ _ _ _ _ Hs). by left.
    + rewrite Hoff; [|intros ->; apply Hy; split; [done|right; left; eauto]].
      cbn. rewrite lookup_delete_ne by done. apply (sp_frame _ _ _ _ _ _ _ _ Hs); naive_solver.
  - intros y. rewrite (sp_all _ _ _ _ _ _ _ _ Hs y), Hp2. cbn. rewrite elem_of_cons.
    destruct (decide (y = upage p)) as [->|Hne]; [rewrite Hbs; naive_solver|].
    destruct (decide (y = v)) as [->|Hyv].
    { destruct (rep_tab _ _ _ _ _ Hr _ _ Hv) as (t & -> & _). naive_solver. }
    rewrite Hoff by done. cbn. rewrite lookup_delete_ne by done. naive_solver.
Qed.

(** The pages from [n] on that lie below [sz] are gone. *)
Definition dropped (A A' : gmap Z Z) (n sz : Z) : Prop :=
  forall m, A' !! m = if decide (n <= m /\ PGSIZE * m < sz) then None else A !! m.

Lemma dropped_step A A' n n' sz : n <= n' ->
  (forall m, n <= m < n' -> PGSIZE * m < sz -> A !! m = None) -> dropped A A' n' sz -> dropped A A' n sz.
Proof.
  unfold PGSIZE. intros Hn HA H m. rewrite H. unfold PGSIZE. repeat case_decide; try done; try lia.
  destruct (Z.lt_ge_cases m n'); [apply HA; lia|lia].
Qed.

Lemma dropped_delete A A' n sz : PGSIZE * n < sz -> dropped (delete n A) A' (n + 1) sz -> dropped A A' n sz.
Proof.
  unfold PGSIZE. intros Hn H m. rewrite H. unfold PGSIZE. destruct (decide (m = n)) as [->|Hne].
  - rewrite lookup_delete_eq. repeat case_decide; try done; lia.
  - rewrite lookup_delete_ne by done. repeat case_decide; try done; lia.
Qed.

(** Pages of bytes other than those of the entries of [A] in the range keep
    what they hold. *)
Definition spares (A : gmap Z Z) (n sz : Z) (s s' : vmem) : Prop :=
  forall y bs, (forall m p, A !! m = Some p -> n <= m -> PGSIZE * m < sz -> upage p <> y) ->
    frames s !! y = Some (Data bs) -> frames s' !! y = Some (Data bs).

Lemma shrink_loop_spec P F d T E sz : sz <= KERNBASE -> forall fuel s A n,
  space P F s d A T E -> 0 <= n <= USERTOP -> sz <= PGSIZE * (n + Z.of_nat fuel) ->
  exists s' A', dealloc_loop end_ (S fuel) s d (PGSIZE * n) sz = Ok s' /\ space P F s' d A' T E /\
    dropped A A' n sz /\ spares A n sz s s'.
Proof.
  intros Hsz. unfold KERNBASE in Hsz.
  induction fuel as [|fuel IH]; intros s A n Hs Hn Hf; cbn [dealloc_loop];
    (destruct (Z.ltb_spec (PGSIZE * n) sz) as [Hlt|Hge];
     [|exists s, A; split; [done|]; split; [done|]; split;
       [intros m; case_decide as Hd; [unfold PGSIZE in *; lia|done]|by intros y bs _]]); [unfold PGSIZE in *; lia|].
  assert (Hn19 : 0 <= n < USERTOP) by (unfold USERTOP, PGSIZE in *; lia).
  assert (Hn20 : 0 <= n < 2 ^ 20) by (unfold USERTOP in *; lia).
  pose proof (sp_rep _ _ _ _ _ _ _ _ Hs) as Hr.
  assert (Hnext : u32 (PGSIZE * n + PGSIZE) = PGSIZE * (n + 1)) by (unfold USERTOP in *; page_lia).
  rewrite <- (Z.add_0_r (PGSIZE * n)).
  destruct (T !! (n / 1024)) as [v|] eqn:Ev.
  - rewrite (walk_found _ s d A T n 0 Hr Hn20 ltac:(done) v false Ev). run. rewrite Z.add_0_r.
    destruct (entry_get _ s d A T n v Hr Ev) as (x & -> & Hx). run.
    destruct (A !! n) as [p|] eqn:EA.
    + destruct Hx as [-> Hpr]. rewrite Hpr. fold (upage p).
      destruct (proj1 (sp_user _ _ _ _ _ _ _ _ Hs) n p EA ltac:(lia)) as (_ & Hg & _).
      rewrite (proj2 (Z.eqb_neq (PTE_ADDR p) 0)).
      2:{ intros H0. unfold upage in Hg. rewrite H0 in Hg. destruct Hg as (_ & Hg & _).
          unfold P2V in Hg. rewrite Z.add_0_l in Hg. page_lia. }
      destruct (release P F s d A T E n v p Hs Ev Hn19 EA) as (s1 & s2 & Hk & Ht & Hs2 & Hkeep).
      rewrite Hk. run. rewrite Ht. run. rewrite Hnext.
      destruct (IH s2 (delete n A) (n + 1) Hs2 ltac:(lia) ltac:(lia)) as (s' & A' & Hl & Hs' & HA' & Hsp).
      exists s', A'. split; [exact Hl|]. split; [done|]. split; [by apply dropped_delete|].
      intros y bs Hy Hb. apply Hsp.
      * intros m q Hm. apply lookup_delete_Some in Hm as [_ Hm]. intros. eapply Hy; [done|lia|done].
      * apply Hkeep; [|done]. intros ->. exact (Hy n p EA ltac:(lia) Hlt eq_refl).
    + rewrite Hx, Hnext.
      destruct (IH s A (n + 1) Hs ltac:(lia) ltac:(lia)) as (s' & A' & Hl & Hs' & HA' & Hsp).
      exists s', A'. split; [exact Hl|]. split; [done|]. split.
      * eapply dropped_step; [| |exact HA']; [lia|]. intros m Hm _. by assert (m = n) as -> by lia.
      * intros y bs Hy. apply Hsp. intros m q Hm ?. apply Hy; [done|lia].
  - rewrite (walk_none _ s d A T n 0 Hr Hn20 ltac:(done) Ev). run. rewrite Z.add_0_r.
    assert (Hslot : forall m, n <= m < 1024 * (n / 1024 + 1) -> A !! m = None).
    { intros m Hm. destruct (A !! m) as [q|] eqn:Eq; [|done].
      destruct (rep_ent _ _ _ _ _ Hr _ _ Eq) as [_ [w Hw]].
      replace (m / 1024) with (n / 1024) in Hw by (Z.div_mod_to_equations; lia). congruence. }
    pose proof (PDX_spec n 0 Hn20 ltac:(done)) as Hpdx. rewrite Z.add_0_r in Hpdx. rewrite Hpdx.
    rewrite PGADDR_spec by (pose proof (dir_range n Hn20); lia).
    set (n' := 1024 * (n / 1024 + 1)) in *.
    assert (Hn' : n < n' <= USERTOP) by (unfold n', USERTOP in *; Z.div_mod_to_equations; lia).
    assert (u32 (u32 (u32 (PGSIZE * n') - PGSIZE) + PGSIZE) = PGSIZE * n') as ->.
    { clearbody n'. unfold USERTOP in *. page_lia. }
    destruct (IH s A n' Hs ltac:(lia) ltac:(unfold PGSIZE in *; lia)) as (s' & A' & Hl & Hs' & HA' & Hsp).
    exists s', A'. split; [exact Hl|]. split; [done|]. split.
    + eapply dropped_step; [| |exact HA']; [lia|]. intros m Hm _. by apply Hslot.
    + intros y bs Hy. apply Hsp. intros m q Hm ?. apply Hy; [done|lia].
Qed.

Lemma deallocuvm_spec P F s d A T E oldsz newsz : space P F s d A T E -> 0 <= newsz < oldsz -> oldsz <= KERNBASE ->
  exists s' A', deallocuvm end_ s d oldsz newsz = Ok (newsz, s') /\ space P F s' d A' T E /\
    dropped A A' (PGROUNDUP newsz / PGSIZE) oldsz /\ spares A (PGROUNDUP newsz / PGSIZE) oldsz s s'.
Proof.
  intros Hs Hn Ho. unfold deallocuvm. rewrite Z.geb_leb, (proj2 (Z.leb_gt _ _)) by lia.
  set (n := PGROUNDUP newsz / PGSIZE).
  assert (Ha : PGROUNDUP newsz = PGSIZE * n /\ 0 <= n <= USERTOP).
  { unfold n. rewrite PGROUNDUP_spec by page_lia. unfold USERTOP. page_lia. }
  destruct Ha as [-> Hb].
  destruct (shrink_loop_spec P F d T E oldsz Ho (Z.to_nat ((oldsz - PGSIZE * n) / PGSIZE + 1)) s A n Hs Hb)
    as (s' & A' & -> & H1 & H2 & H3); [page_lia|].
  run. by exists s', A'.
Qed.

(** ** Freeing an address space *)

Lemma free_tables_spec d (dd T : gmap Z Z) : (forall i, 0 <= i < 1024 ->
    match T !! i with Some v => default 0 (dd !! i) = V2P v + 7 | None => present (default 0 (dd !! i)) = false end) ->
  (forall i j v, T !! i = Some v -> T !! j = Some v -> i = j) ->
  forall k s i, 0 <= i -> i + Z.of_nat k = 1024 -> frames s !! d = Some (Table dd) -> pool_ok s ->
  (forall j v, T !! j = Some v -> i <= j -> 0 <= j < 1024 /\ good v /\ v <> d /\ is_Some (frames s !! v)) ->
  exists s', free_tables end_ k s d i = Ok s' /\ pool_ok s' /\ frames s' !! d = frames s !! d /\
    forall x, (exists j, i <= j /\ T !! j = Some x) /\ frames s' !! x = None /\ x ∈ pool s' \/
      (~ exists j, i <= j /\ T !! j = Some x) /\ frames s' !! x = frames s !! x /\ (x ∈ pool s' <-> x ∈ pool s).
Proof.
  intros Hdir Hinj. induction k as [|k IH]; intros s i Hi Hk Hd [Hnd Hpool] HT; cbn [free_tables].
  - exists s. split; [done|]. split; [done|]. split; [done|]. intros x. right. split; [|done].
    intros (j & Hj & Hx). destruct (HT _ _ Hx Hj). lia.
  - unfold tget. rewrite Hd. run. specialize (Hdir i ltac:(lia)). destruct (T !! i) as [v|] eqn:Ev.
    + destruct (HT i v Ev ltac:(lia)) as (_ & Hg & Hvd & [c Hc]). rewrite Hdir.
      destruct (table_entry _ _ Hg) as (_ & -> & Hu). fold (upage (V2P v + 7)). rewrite Hu, kfree_good by done. run.
      set (s1 := Vmem _ _).
      destruct (IH s1 (i + 1)) as (s' & -> & Hp' & Hd' & Hx); [lia|lia|by cbn; rewrite lookup_delete_ne| | |].
      * split; cbn.
        -- apply NoDup_cons. split; [|done]. intros Hin. destruct (Hpool _ Hin). congruence.
        -- intros y. rewrite elem_of_cons. intros [->|Hin]; [by rewrite lookup_delete_eq|].
           destruct (Hpool _ Hin). split; [done|]. by apply lookup_delete_None; right.
      * intros j w Hw Hj. destruct (HT j w Hw ltac:(lia)) as (? & ? & ? & ?). split; [done|]. split; [done|].
        split; [done|]. cbn. rewrite lookup_delete_ne; [done|]. intros ->. assert (i = j) by eauto. lia.
      * exists s'. split; [done|]. split; [done|]. split; [rewrite Hd'; cbn; by rewrite lookup_delete_ne|].
        intros x. destruct (Hx x) as [((j & Hj & Hjx) & Hf & Hin)|(Hnx & Hf & Hin)].
        -- left. split; [exists j; split; [lia|done]|done].
        -- destruct (decide (x = v)) as [->|Hxv].
           ++ left. split; [exists i; split; [lia|done]|]. cbn in Hf, Hin. rewrite lookup_delete_eq in Hf.
              split; [done|]. apply Hin. by left.
           ++ right. cbn in Hf, Hin. rewrite lookup_delete_ne in Hf by done. rewrite elem_of_cons in Hin.
              split; [|split; [done|naive_solver]]. intros (j & Hj & Hjx). apply Hnx. exists j. split; [|done].
              destruct (Z.eq_dec j i) as [->|]; [congruence|lia].
    + rewrite Hdir. run. destruct (IH s (i + 1)) as (s' & -> & Hp' & Hd' & Hx); [lia|lia|done|done| |].
      { intros j w Hw Hj. apply HT; [done|lia]. }
      exists s'. split; [done|]. split; [done|]. split; [congruence|]. intros x.
      destruct (Hx x) as [((j & Hj & Hjx) & H)|(Hnx & H)]; [left; split; [exists j; split; [lia|done]|done]|right].
      split; [|done]. intros (j & Hj & Hjx). apply Hnx. exists j. split; [|done].
      destruct (Z.eq_dec j i) as [->|]; [congruence|lia].
Qed.

(** All that is left is [F] and the pool. *)
Record only (P : Z -> Prop) (F : gmap Z content) (s : vmem) : Prop := Only {
  only_frames : frames s = F;
  only_pool : pool_ok s;
  only_all : forall x, P x <-> x ∈ pool s \/ is_Some (frames s !! x) }.

Lemma freevm_spec P F s d A T : space P F s d A T [] -> exists s', freevm end_ s d = Ok s' /\ only P F s'.
Proof.
  intros Hs. unfold freevm. rewrite (good_nonzero _ _ (sp_dir _ _ _ _ _ _ _ _ Hs)).
  destruct (deallocuvm_spec P F s d A T [] KERNBASE 0 Hs ltac:(done) ltac:(done)) as (s1 & A1 & -> & Hs1 & HA1 & _). run.
  change (PGROUNDUP 0 / PGSIZE) with 0 in HA1. pose proof (sp_rep _ _ _ _ _ _ _ _ Hs1) as Hr.
  assert (Hnouser : forall m p, A1 !! m = Some p -> m < USERTOP -> False).
  { intros m p Hm Hu. destruct (rep_ent _ _ _ _ _ Hr _ _ Hm) as [? _]. rewrite HA1, decide_True in Hm; [done|].
    unfold USERTOP, KERNBASE, PGSIZE in *. lia. }
  assert (Hown : forall x, owned d A1 T x <-> x = d \/ exists i, T !! i = Some x).
  { intros x. unfold owned. split; [|naive_solver]. intros [?|[?|(m & p & Hm & Hu & _)]]; [by left|by right|].
    exfalso. by eapply Hnouser. }
  destruct (rep_dir _ _ _ _ _ Hr) as (dd & Hd & Hdir).
  destruct (free_tables_spec d dd T Hdir (rep_inj _ _ _ _ _ Hr) (Z.to_nat NPDENTRIES) s1 0) as (s2 & -> & [Hnd2 Hp2] & Hd2 & Hx);
    [done|done|done|apply (sp_pool _ _ _ _ _ _ _ _ Hs1)| |].
  { intros j v Hv _. destruct (rep_good _ _ _ _ _ Hr _ _ Hv) as (? & ? & ?).
    destruct (rep_tab _ _ _ _ _ Hr _ _ Hv) as (t & -> & _). eauto. }
  run. rewrite (kfree_good _ _ (sp_dir _ _ _ _ _ _ _ _ Hs1)). eexists. split; [done|].
  assert (Hcase : forall x, (exists j, 0 <= j /\ T !! j = Some x) <-> exists j, T !! j = Some x).
  { intros x. split; [naive_solver|]. intros [j Hj]. exists j. split; [|done].
    by destruct (rep_good _ _ _ _ _ Hr _ _ Hj) as [[? _] _]. }
  assert (Hframes : delete d (frames s2) = F).
  { apply map_eq. intros x. destruct (decide (x = d)) as [->|Hxd].
    - rewrite lookup_delete_eq. symmetry. apply (sp_mine _ _ _ _ _ _ _ _ Hs1). left. by left.
    - rewrite lookup_delete_ne by done. destruct (Hx x) as [(Ht & -> & _)|(Ht & -> & _)]; rewrite Hcase in Ht.
      + symmetry. apply (sp_mine _ _ _ _ _ _ _ _ Hs1). left. rewrite Hown. by right.
      + apply (sp_frame _ _ _ _ _ _ _ _ Hs1); [rewrite Hown; naive_solver|apply not_elem_of_nil]. }
  assert (Hnd : d ∉ pool s2) by (intros Hin; destruct (Hp2 _ Hin); congruence).
  constructor; [done| |]; cbn [frames pool].
  - split; cbn [frames pool]; [by apply NoDup_cons|]. intros y. rewrite elem_of_cons.
    intros [->|Hin]; [split; [apply (sp_dir _ _ _ _ _ _ _ _ Hs1)|apply lookup_delete_eq]|].
    destruct (Hp2 _ Hin). split; [done|]. by apply lookup_delete_None; right.
  - intros x. rewrite (sp_all _ _ _ _ _ _ _ _ Hs1 x), elem_of_cons.
    destruct (decide (x = d)) as [->|Hxd]; [rewrite Hd; naive_solver|]. rewrite lookup_delete_ne by done.
    destruct (Hx x) as [(Ht & -> & Hin)|(Ht & -> & Hin)]; rewrite Hcase in Ht; [|naive_solver].
    destruct Ht as [j Hj]. destruct (rep_tab _ _ _ _ _ Hr _ _ Hj) as (t & -> & _). naive_solver.
Qed.

(** ** Pages in transit *)

(** A page is taken from the pool and filled. *)
Lemma take_page P F s d A T v l c : space P F s d A T [] -> pool s = v :: l ->
  let s' := put_frame v c (Vmem (frames s) l) in
  space P F s' d A T [v] /\ keeps s s' /\ frames s' !! v = Some c /\ (v =? 0) = false.
Proof.
  intros Hs Hp s'. destruct (pool_fresh _ _ _ _ _ _ _ _ _ _ Hs Hp) as (Hg & Hf & Ho & _ & Hvl).
  assert (Hoff : forall x, x <> v -> frames s' !! x = frames s !! x) by (intros x Hx; cbn; by rewrite lookup_insert_ne).
  assert (Hk : keeps s s') by (intros y bs Hy; rewrite Hoff; [done|congruence]).
  assert (Hv : frames s' !! v = Some c) by apply lookup_insert_eq.
  split; [|split; [done|split; [done|by apply (good_nonzero end_)]]].
  destruct (sp_pool _ _ _ _ _ _ _ _ Hs) as [Hnd Hpool]. rewrite Hp in Hnd, Hpool.
  constructor.
  - eapply rep_frame; [apply (sp_rep _ _ _ _ _ _ _ _ Hs)|]. intros x Hx. apply Hoff. intros ->. apply Ho.
    destruct Hx as [->|?]; [by left|by right; left].
  - eapply user_ok_frame; [apply (sp_user _ _ _ _ _ _ _ _ Hs)|]. intros m p bs _ _. apply Hk.
  - split; [by apply NoDup_cons in Hnd as [_ ?]|]. intros y Hy. cbn in Hy. destruct (Hpool y) as [? ?]; [by right|].
    split; [done|]. rewrite Hoff; [done|]. intros ->. done.
  - apply (sp_dir _ _ _ _ _ _ _ _ Hs).
  - intros x ->%list_elem_of_singleton. rewrite Hv. eauto.
  - intros x [Hx|Hx]; [apply (sp_mine _ _ _ _ _ _ _ _ Hs); by left|]. apply list_elem_of_singleton in Hx as ->.
    rewrite <- (sp_frame _ _ _ _ _ _ _ _ Hs); [done|done|apply not_elem_of_nil].
  - intros x Hx HxE. rewrite Hoff by (intros ->; apply HxE; by left).
    apply (sp_frame _ _ _ _ _ _ _ _ Hs); [done|apply not_elem_of_nil].
  - intros x. rewrite (sp_all _ _ _ _ _ _ _ _ Hs x), Hp, elem_of_cons. cbn.
    destruct (decide (x = v)) as [->|Hx]; [rewrite lookup_insert_eq; naive_solver|].
    rewrite lookup_insert_ne by done. naive_solver.
Qed.

(** It is given back. *)
Lemma untake_page P F s d A T v : space P F s d A T [v] ->
  exists s', kfree_page end_ s v = Ok s' /\ space P F s' d A T [] /\
    (forall y, y <> v -> frames s' !! y = frames s !! y).
Proof.
  intros Hs. destruct (sp_transit _ _ _ _ _ _ _ _ Hs v ltac:(by left)) as ([c Hc] & Hg & Ho).
  rewrite (kfree_good _ _ Hg). eexists. split; [done|]. set (s' := Vmem _ _).
  assert (Hoff : forall x, x <> v -> frames s' !! x = frames s !! x) by (intros x Hx; cbn; by rewrite lookup_delete_ne).
  split; [|done]. destruct (sp_pool _ _ _ _ _ _ _ _ Hs) as [Hnd Hpool].
  constructor.
  - eapply rep_frame; [apply (sp_rep _ _ _ _ _ _ _ _ Hs)|]. intros x Hx. apply Hoff. intros ->. apply Ho.
    destruct Hx as [->|?]; [by left|by right; left].
  - eapply user_ok_frame; [apply (sp_user _ _ _ _ _ _ _ _ Hs)|]. intros m p bs Hm Hu Hb. rewrite Hoff; [done|].
    intros <-. apply Ho. right; right. eauto.
  - split; cbn.
    + apply NoDup_cons. split; [|done]. intros Hin. destruct (Hpool _ Hin). congruence.
    + intros y. rewrite elem_of_cons. intros [->|Hin]; [by rewrite lookup_delete_eq|].
      destruct (Hpool _ Hin). split; [done|]. by apply lookup_delete_None; right.
  - apply (sp_dir _ _ _ _ _ _ _ _ Hs).
  - intros x Hx. by apply elem_of_nil in Hx.
  - intros x [Hx|Hx]; [apply (sp_mine _ _ _ _ _ _ _ _ Hs); by left|by apply elem_of_nil in Hx].
  - intros x Hx _. destruct (decide (x = v)) as [->|Hne].
    + cbn. rewrite lookup_delete_eq. symmetry. apply (sp_mine _ _ _ _ _ _ _ _ Hs). right. by left.
    + rewrite Hoff by done. apply (sp_frame _ _ _ _ _ _ _ _ Hs); [done|]. by intros ?%list_elem_of_singleton.
  - intros x. rewrite (sp_all _ _ _ _ _ _ _ _ Hs x). cbn. rewrite elem_of_cons.
    destruct (decide (x = v)) as [->|Hx]; [rewrite Hc; naive_solver|].
    rewrite lookup_delete_ne by done. naive_solver.
Qed.

(** ** The kernel part *)

Context (Hdata : data mod PGSIZE = 0) (Hlow : KERNLINK < data) (Hhigh : data < KERNBASE + PHYSTOP).

(** The entry of page [n] that every address space has. *)
Definition kernel_pte (n : Z) : option Z :=
  let va := PGSIZE * n in
  if va <? KERNBASE then None
  else if va <? KERNLINK then Some (va - KERNBASE + 3)
  else if va <? data then Some (va - KERNBASE + 1)
  else if va <? KERNBASE + PHYSTOP then Some (va - KERNBASE + 3)
  else if va <? DEVSPACE then None
  else if va <? 2 ^ 32 then Some (va + 3)
  else None.

Lemma new_space P F s v l : only P F s -> pool s = v :: l ->
  (v =? 0) = false /\ space P F (put_frame v (Table ∅) (Vmem (frames s) l)) v ∅ ∅ [].
Proof.
  intros [Hf [Hnd Hpool] Hall] Hp. rewrite Hp in Hnd, Hpool.
  destruct (Hpool v) as [Hg Hv]; [left|]. split; [by apply (good_nonzero end_)|].
  assert (Hown : forall x, owned v ∅ ∅ x <-> x = v).
  { intros x. split; [|by left]. intros [?|[[i Hi]|(n & p & Hn & _)]]; [done|by rewrite lookup_empty in Hi|by rewrite lookup_empty in Hn]. }
  constructor.
  - constructor; try (intros *; by rewrite lookup_empty).
    exists ∅. cbn. rewrite lookup_insert_eq. split; [done|]. intros i _. by rewrite !lookup_empty.
  - split; intros *; by rewrite lookup_empty.
  - split; [by apply NoDup_cons in Hnd as [_ ?]|]. intros y Hy. cbn in *. destruct (Hpool y); [by right|].
    split; [done|]. rewrite lookup_insert_ne; [done|]. intros ->. by apply NoDup_cons in Hnd as [? _].
  - done.
  - intros x Hx. by apply elem_of_nil in Hx.
  - intros x [->%Hown|Hx]; [by rewrite <- Hf|by apply elem_of_nil in Hx].
  - intros x Hx _. rewrite Hown in Hx. cbn. rewrite lookup_insert_ne by done. by rewrite Hf.
  - intros x. rewrite Hall, Hp, elem_of_cons. cbn. destruct (decide (x = v)) as [->|Hx]; [rewrite lookup_insert_eq; naive_solver|].
    rewrite lookup_insert_ne by done. naive_solver.
Qed.

(** One line of [kmap]. *)
Lemma kmap_step P F s d A T k ks n cnt : space P F s d A T [] -> virt k = PGSIZE * n ->
  u32 (phys_end k - phys_start k) = PGSIZE * cnt -> 0 < cnt -> USERTOP <= n -> n + cnt <= 2 ^ 20 ->
  (forall m, n <= m < n + cnt -> A !! m = None) -> phys_start k mod PGSIZE = 0 -> 0 <= phys_start k ->
  phys_start k + PGSIZE * cnt <= 2 ^ 32 -> 0 <= kperm k < PGSIZE ->
  (exists s', map_kernel end_ (k :: ks) s d = Ok (0, s') /\ only P F s') \/
  exists s' A' T', map_kernel end_ (k :: ks) s d = map_kernel end_ ks s' d /\ space P F s' d A' T' [] /\
    (forall m, A' !! m = if decide (n <= m < n + cnt) then Some (phys_start k + PGSIZE * (m - n) + Z.lor (kperm k) 1) else A !! m).
Proof.
  intros Hs Hv Hsz Hc Hn Hnc HA Hm Hp Hpc Hperm. cbn [map_kernel]. rewrite Hv, Hsz.
  destruct (map_kernel_range P F s d A T [] n cnt (phys_start k) (kperm k)) as (r & s' & A' & T' & -> & Hs' & _ & Hout & Hr); try done.
  run. destruct Hr as [->|[-> Hin]].
  - left. cbn [Z.ltb Z.compare]. destruct (freevm_spec _ _ _ _ _ _ Hs') as (s2 & -> & Ho). run. eauto.
  - right. exists s', A', T'. split; [done|]. split; [done|]. intros m. case_decide; [by apply Hin|by apply Hout].
Qed.

Lemma setupkvm_spec P F s : only P F s ->
  exists r s', setupkvm end_ data s = Ok (r, s') /\
    (r = 0 /\ only P F s' \/
     (r =? 0) = false /\ exists A T, space P F s' r A T [] /\ forall n, A !! n = kernel_pte n).
Proof.
  intros Ho. unfold setupkvm, kalloc_page. destruct (pool s) as [|v l] eqn:Hp.
  { exists 0, s. split; [done|]. by left. }
  destruct (new_space _ _ _ _ _ Ho Hp) as [-> Hs0]. change (P2V PHYSTOP >? DEVSPACE) with false. cbn [negb].
  set (s0 := put_frame _ _ _) in *. unfold kmap.
  assert (V2P data = data - KERNBASE) as HV by (unfold V2P, KERNLINK, EXTMEM in *; page_lia).
  assert (Hd4 : data = PGSIZE * (data / PGSIZE)) by page_lia.
  set (nd := data / PGSIZE) in *. clearbody nd.
  assert (Hb : 524544 < nd < 581632) by (unfold KERNLINK, EXTMEM, KERNBASE, PHYSTOP, PGSIZE in *; lia).
  assert (Hfin : forall r, (exists s', r = Ok (0, s') /\ only P F s') \/
      (exists s' A T, r = Ok (v, s') /\ space P F s' v A T [] /\ forall n, A !! n = kernel_pte n) ->
    exists r0 s', r = Ok (r0, s') /\ (r0 = 0 /\ only P F s' \/
     (r0 =? 0) = false /\ exists A T, space P F s' r0 A T [] /\ forall n, A !! n = kernel_pte n)).
  { intros r [(s' & -> & H)|(s' & A & T & -> & H1 & H2)]; [exists 0, s'; split; [done|by left]|].
    exists v, s'. split; [done|right]. split; [|by exists A, T].
    apply (good_nonzero end_), (sp_dir _ _ _ _ _ _ _ _ H1). }
  apply Hfin. clear Hfin.
  destruct (kmap_step P F s0 v ∅ ∅ (Kmap KERNBASE 0 EXTMEM PTE_W) [Kmap KERNLINK (V2P KERNLINK) (V2P data) 0;
     Kmap data (V2P data) PHYSTOP PTE_W; Kmap DEVSPACE DEVSPACE 0 PTE_W] 524288 256)
    as [?|(s1 & A1 & T1 & -> & Hs1 & HA1)]; try done; [by left|].
  destruct (kmap_step P F s1 v A1 T1 (Kmap KERNLINK (V2P KERNLINK) (V2P data) 0) [
     Kmap data (V2P data) PHYSTOP PTE_W; Kmap DEVSPACE DEVSPACE 0 PTE_W] 524544 (nd - 524544))
    as [?|(s2 & A2 & T2 & -> & Hs2 & HA2)]; try done; cbn [virt phys_start phys_end kperm]; try lia.
  { rewrite HV. change (V2P KERNLINK) with 1048576. page_lia. }
  { intros m Hm. rewrite HA1. by rewrite decide_False by lia. }
  { change (V2P KERNLINK) with 1048576. page_lia. }
  { by left. }
  destruct (kmap_step P F s2 v A2 T2 (Kmap data (V2P data) PHYSTOP PTE_W) [Kmap DEVSPACE DEVSPACE 0 PTE_W] nd (581632 - nd))
    as [?|(s3 & A3 & T3 & -> & Hs3 & HA3)]; try done; cbn [virt phys_start phys_end kperm]; try (unfold USERTOP; lia).
  { rewrite HV. page_lia. }
  { intros m Hm. rewrite HA2, HA1. by rewrite !decide_False by lia. }
  { rewrite HV. page_lia. }
  { rewrite HV. page_lia. }
  { rewrite HV. page_lia. }
  { by left. }
  destruct (kmap_step P F s3 v A3 T3 (Kmap DEVSPACE DEVSPACE 0 PTE_W) [] 1040384 8192)
    as [?|(s4 & A4 & T4 & -> & Hs4 & HA4)]; try done; cbn [virt phys_start phys_end kperm].
  { intros m Hm. rewrite HA3, HA2, HA1. by rewrite !decide_False by lia. }
  { by left. }
  right. exists s4, A4, T4. split; [done|]. split; [done|]. intros m. rewrite HA4, HA3, HA2, HA1, lookup_empty.
  cbn [virt phys_start phys_end kperm]. rewrite HV. unfold kernel_pte. rewrite Hd4.
  change (V2P KERNLINK) with 1048576. unfold KERNLINK, EXTMEM, KERNBASE, PHYSTOP, DEVSPACE, PGSIZE, PTE_W.
  change (2 ^ 32) with 4294967296. change (Z.lor 2 1) with 3. change (Z.lor 0 1) with 1.
  repeat case_decide; repeat case_if; try lia; try done; f_equal; lia.
Qed.

End uvm.
