(* ===== verification/Xv6Vmem.v ===== *)
(** User memory of xv6: what [allocuvm], [deallocuvm], [copyuvm], [freevm] and
    [copyout] of [Xv6Vm] do to the memory a process sees. *)

From S2P Require Import Prelude Bytes Xv6Kalloc Xv6Vm Xv6Pgtab Xv6Uvm.

(** Page [n] of the user memory: its flags and its bytes. *)
Definition uview (s : vmem) (A : gmap Z Z) (n : Z) : option (Z * list Z) :=
  p ← A !! n;
  match frames s !! upage p with
  | Some (Data bs) => Some (PTE_FLAGS p, bs)
  | _ => None
  end.

Section vmem.
Context (end_ data : Z) (Hend : KERNBASE < end_).

Abbreviation space := (space end_).
Abbreviation good := (good end_).

Lemma uview_same s s' A A' n : A' !! n = A !! n ->
  (forall p, A !! n = Some p -> exists bs, frames s !! upage p = Some (Data bs)) ->
  (forall p bs, A !! n = Some p -> frames s !! upage p = Some (Data bs) -> frames s' !! upage p = Some (Data bs)) ->
  uview s' A' n = uview s A n.
Proof.
  intros HA Hd Hk. unfold uview. rewrite HA. destruct (A !! n) as [p|]; [|done]. cbn.
  destruct (Hd p eq_refl) as [bs Hb]. by rewrite Hb, (Hk p bs eq_refl Hb).
Qed.

Lemma uview_keeps P F s s' d A A' T E n : space P F s d A T E -> n < USERTOP -> A' !! n = A !! n -> keeps s s' ->
  uview s' A' n = uview s A n.
Proof.
  intros Hs Hn HA Hk. apply uview_same; [done| |].
  - intros p Hp. destruct (proj1 (sp_user _ _ _ _ _ _ _ _ Hs) _ _ Hp Hn) as (_ & _ & bs & ? & _). eauto.
  - intros p bs _. apply Hk.
Qed.

(** The page that [mappages] has just mapped. *)
Lemma uview_mapped s A n w f bs : good w -> 0 <= f < PGSIZE -> frames s !! w = Some (Data bs) ->
  uview s (<[n := V2P w + f]> A) n = Some (f, bs).
Proof.
  intros Hg Hf Hw. destruct (upage_entry _ _ _ Hg Hf) as [Hu Hfl]. unfold uview.
  rewrite lookup_insert_eq. cbn. by rewrite Hu, Hw, Hfl.
Qed.

(** ** Growing *)

Definition first_page (sz : Z) : Z := PGROUNDUP sz / PGSIZE.

Lemma first_page_spec sz : 0 <= sz <= KERNBASE ->
  PGROUNDUP sz = PGSIZE * first_page sz /\ 0 <= first_page sz <= USERTOP /\
  (forall n, n < first_page sz <-> PGSIZE * n < sz).
Proof.
  intros Hsz. unfold first_page. rewrite PGROUNDUP_spec by page_lia.
  unfold USERTOP, KERNBASE, PGSIZE in *. split; [|split].
  - Z.div_mod_to_equations. lia.
  - Z.div_mod_to_equations. lia.
  - intros n. Z.div_mod_to_equations. lia.
Qed.

Lemma length_zeros : length zeros = Z.to_nat PGSIZE.
Proof. apply length_replicate. Qed.

(** The state of the loop of [allocuvm] at page [n], which began with [s0] and
    [A0]. *)
Definition growing (s0 s : vmem) (A0 A : gmap Z Z) (oldsz n : Z) : Prop :=
  (forall m, ~ first_page oldsz <= m < n -> A !! m = A0 !! m) /\
  (forall m, m < USERTOP -> ~ first_page oldsz <= m < n -> uview s A m = uview s0 A0 m) /\
  (forall m, first_page oldsz <= m < n -> uview s A m = Some (7, zeros)).

(** Undoing it. *)
Lemma grow_undo P F s0 s d A0 A T E oldsz newsz n : space P F s d A T E -> growing s0 s A0 A oldsz n ->
  0 <= oldsz < newsz -> newsz <= KERNBASE -> n <= first_page newsz ->
  (forall m, first_page oldsz <= m -> PGSIZE * m < newsz -> A0 !! m = None) ->
  exists s', deallocuvm end_ s d newsz oldsz = Ok (oldsz, s') /\ space P F s' d A0 T E /\
    (forall m, m < USERTOP -> uview s' A0 m = uview s0 A0 m).
Proof.
  intros Hs (HA & Hv & _) Ho Hn Hnn H0.
  destruct (deallocuvm_spec end_ Hend P F s d A T E newsz oldsz Hs Ho Hn) as (s' & A' & -> & Hs' & Hd & Hsp).
  fold (first_page oldsz) in Hd, Hsp.
  destruct (first_page_spec newsz ltac:(lia)) as (_ & _ & Hfp).
  assert (A' = A0) as ->.
  { apply map_eq. intros m. rewrite Hd. case_decide as Hm.
    - symmetry. apply H0; lia.
    - apply HA. intros H. apply Hm. split; [lia|]. apply Hfp. lia. }
  exists s'. split; [done|]. split; [done|]. intros m Hm.
  destruct (decide (first_page oldsz <= m /\ PGSIZE * m < newsz)) as [Hin|Hout].
  - unfold uview. by rewrite H0 by lia.
  - assert (Hnr : ~ first_page oldsz <= m < n) by (intros H; apply Hout; split; [lia|apply Hfp; lia]).
    rewrite <- Hv by done. apply uview_same; [by rewrite HA| |].
    + intros p Hp. destruct (proj1 (sp_user _ _ _ _ _ _ _ _ Hs) _ _ Hp Hm) as (_ & _ & bs & ? & _). eauto.
    + intros p bs Hp. apply Hsp. intros m' p' Hp' Hge Hlt Heq. apply Hout.
      assert (m' = m) as ->; [|done].
      destruct (first_page_spec oldsz ltac:(lia)) as (_ & ? & _).
      eapply (proj2 (sp_user _ _ _ _ _ _ _ _ Hs)); [exact Hp'|exact Hp| |done|done].
      unfold USERTOP, KERNBASE, PGSIZE in *. lia.
Qed.

Lemma grow_loop_spec P F s0 d A0 oldsz newsz : 0 <= oldsz <= newsz -> newsz < KERNBASE ->
  (forall m, first_page oldsz <= m -> PGSIZE * m < newsz -> A0 !! m = None) ->
  forall fuel s A T n, space P F s d A T [] -> growing s0 s A0 A oldsz n ->
  first_page oldsz <= n -> n <= Z.max (first_page oldsz) (first_page newsz) ->
  newsz <= PGSIZE * (n + Z.of_nat fuel) ->
  exists r s' A' T', alloc_loop end_ (S fuel) s d (PGSIZE * n) oldsz newsz = Ok (r, s') /\
    space P F s' d A' T' [] /\
    (r = newsz /\ growing s0 s' A0 A' oldsz (Z.max (first_page oldsz) (first_page newsz)) \/
     r = 0 /\ A' = A0 /\ forall m, m < USERTOP -> uview s' A0 m = uview s0 A0 m).
Proof.
  intros Ho Hn H0. destruct (first_page_spec oldsz ltac:(lia)) as (_ & Hf1 & Hfp1).
  destruct (first_page_spec newsz ltac:(lia)) as (_ & Hf2 & Hfp2).
  induction fuel as [|fuel IH]; intros s A T n Hs Hg Hn1 Hn2 Hf.
  all: cbn [alloc_loop]; destruct (Z.ltb_spec (PGSIZE * n) newsz) as [Hlt|Hge];
    [|exists newsz, s, A, T; split; [done|]; split; [done|]; left; split; [done|];
      assert (n = Z.max (first_page oldsz) (first_page newsz)) as <-;
        [pose proof (proj1 (Hfp2 n)); lia|done]].
  { unfold PGSIZE in *. lia. }
  assert (Hn' : n < first_page newsz) by (apply Hfp2; lia).
  assert (Hlt' : oldsz < newsz) by (pose proof (proj2 (Hfp1 n)); lia).
  unfold kalloc_page. destruct (pool s) as [|v l] eqn:Ep.
  { cbn [Z.eqb]. destruct (grow_undo P F s0 s d A0 A T [] oldsz newsz n Hs Hg) as (s' & -> & Hs' & Hv); try lia; [done|].
    run. exists 0, s', A0, T. split; [done|]. split; [done|]. by right. }
  destruct (take_page end_ P F s d A T v l (Data zeros) Hs Ep) as (Hs1 & Hk1 & Hv1 & ->).
  set (s1 := put_frame _ _ _) in *.
  assert (Hn19 : 0 <= n < USERTOP) by lia.
  assert (HAn : A !! n = None) by (rewrite (proj1 Hg) by lia; apply H0; lia).
  assert (Hg1 : growing s0 s1 A0 A oldsz n).
  { destruct Hg as (Ha & Hb & Hc). split; [done|]. split.
    - intros m Hm Hr. rewrite <- Hb by done. by eapply uview_keeps.
    - intros m Hr. rewrite <- (Hc m Hr). eapply uview_keeps; [done|lia|done|done]. }
  destruct (map_user end_ P F s1 d A T v n (Z.lor PTE_W PTE_U) zeros Hs1 Hn19 HAn ltac:(done) Hv1 length_zeros)
    as [->|(s2 & T2 & -> & Hs2 & Hk2)]; run; cbn [Z.ltb Z.compare].
  - destruct (grow_undo P F s0 s1 d A0 A T [v] oldsz newsz n Hs1 Hg1) as (s' & -> & Hs' & Hv); try lia; [done|].
    run. destruct (untake_page end_ P F s' d A0 T v Hs') as (s3 & -> & Hs3 & Hoff). run.
    exists 0, s3, A0, T. split; [done|]. split; [done|]. right. split; [done|]. split; [done|].
    intros m Hm. rewrite <- Hv by done. apply uview_same; [done| |].
    + intros p Hp. destruct (proj1 (sp_user _ _ _ _ _ _ _ _ Hs') _ _ Hp Hm) as (_ & _ & bs & ? & _). eauto.
    + intros p bs Hp Hb. rewrite Hoff; [done|]. intros Heq.
      destruct (sp_transit _ _ _ _ _ _ _ _ Hs' v ltac:(by left)) as (_ & _ & Hno). apply Hno. right; right. eauto.
  - change (Z.lor (Z.lor PTE_W PTE_U) 1) with 7 in Hs2.
    assert (u32 (PGSIZE * n + PGSIZE) = PGSIZE * (n + 1)) as -> by (unfold USERTOP in *; page_lia).
    apply (IH s2 (<[n := V2P v + 7]> A) T2 (n + 1) Hs2); [|lia|lia|lia].
    destruct (sp_transit _ _ _ _ _ _ _ _ Hs1 v ltac:(by left)) as (_ & Hgv & _).
    destruct Hg1 as (Ha & Hb & Hc). split; [|split].
    + intros m Hm. rewrite lookup_insert_ne by lia. apply Ha. lia.
    + intros m Hm Hr. rewrite <- Hb by (lia || intros ?; lia). eapply uview_keeps; [exact Hs1|done| |done].
      apply lookup_insert_ne. lia.
    + intros m Hr. destruct (decide (m = n)) as [->|Hne].
      * apply uview_mapped; [done|done|]. by apply Hk2.
      * rewrite <- (Hc m) by lia. eapply uview_keeps; [exact Hs1|lia| |done]. apply lookup_insert_ne. lia.
Qed.

Lemma allocuvm_spec P F s d A T oldsz newsz : space P F s d A T [] -> 0 <= oldsz <= newsz -> newsz < KERNBASE ->
  (forall m, first_page oldsz <= m -> PGSIZE * m < newsz -> A !! m = None) ->
  exists r s' A' T', allocuvm end_ s d oldsz newsz = Ok (r, s') /\ space P F s' d A' T' [] /\
    (forall m, USERTOP <= m -> A' !! m = A !! m) /\
    (r = newsz /\ (forall m, m < USERTOP -> uview s' A' m =
       if decide (first_page oldsz <= m /\ PGSIZE * m < newsz) then Some (7, zeros) else uview s A m) \/
     r = 0 /\ forall m, m < USERTOP -> uview s' A' m = uview s A m).
Proof.
  intros Hs Ho Hn H0. unfold allocuvm. rewrite Z.geb_leb, (proj2 (Z.leb_gt _ _)) by lia.
  rewrite (proj2 (Z.ltb_ge _ _)) by lia.
  destruct (first_page_spec oldsz ltac:(lia)) as (-> & Hf1 & Hfp1).
  destruct (first_page_spec newsz ltac:(lia)) as (_ & Hf2 & Hfp2).
  destruct (grow_loop_spec P F s d A oldsz newsz Ho Hn H0 (Z.to_nat ((newsz - PGSIZE * first_page oldsz) / PGSIZE + 1))
    s A T (first_page oldsz) Hs) as (r & s' & A' & T' & Hl & Hs' & Hres).
  - split_and!; [done|done|intros m Hm; lia].
  - lia.
  - lia.
  - assert (H : PGSIZE * 1 > 0) by done. unfold PGSIZE in *. Z.div_mod_to_equations. lia.
  - exists r, s', A', T'. split; [exact Hl|]. split; [done|].
    destruct Hres as [(-> & Ha & Hb & Hc)|(-> & -> & Hv)]; [|split; [done|by right]]. split.
    + intros m Hm. apply Ha. lia.
    + left. split; [done|]. intros m Hm. specialize (Hfp2 m). case_decide as Hd.
      * apply Hc. lia.
      * apply Hb; [done|]. lia.
Qed.

(** ** Copying *)

Context (Hdata : data mod PGSIZE = 0) (Hlow : KERNLINK < data) (Hhigh : data < KERNBASE + PHYSTOP).

(** Another address space, all of whose pages are in [F], is as it was. *)
Lemma parent_rep P F s0 s pg A T d Ac Tc E : rep end_ s0 pg A T -> F = frames s0 -> space P F s d Ac Tc E ->
  rep end_ s pg A T.
Proof.
  intros Hr -> Hs. eapply rep_frame; [done|]. intros x Hx.
  assert (Hsome : is_Some (frames s0 !! x)).
  { destruct Hx as [->|[i Hi]].
    - destruct (rep_dir _ _ _ _ _ Hr) as (dd & -> & _). eauto.
    - destruct (rep_tab _ _ _ _ _ Hr _ _ Hi) as (t & -> & _). eauto. }
  destruct Hsome as [c Hc]. apply (sp_frame _ _ _ _ _ _ _ _ Hs).
  - intros Ho. rewrite (sp_mine _ _ _ _ _ _ _ _ Hs x ltac:(by left)) in Hc. done.
  - intros Ho. rewrite (sp_mine _ _ _ _ _ _ _ _ Hs x ltac:(by right)) in Hc. done.
Qed.

Lemma parent_data P s0 s d Ac Tc E y c : space P (frames s0) s d Ac Tc E -> frames s0 !! y = Some c ->
  frames s !! y = Some c.
Proof.
  intros Hs Hy. rewrite (sp_frame _ _ _ _ _ _ _ _ Hs); [done|..]; intros Ho;
    rewrite (sp_mine _ _ _ _ _ _ _ _ Hs y ltac:(auto)) in Hy; done.
Qed.

(** The pages below [n] have been copied. *)
Definition copied (s0 s : vmem) (A Ac : gmap Z Z) (n : Z) : Prop :=
  (forall m, USERTOP <= m -> Ac !! m = kernel_pte data m) /\
  (forall m, n <= m < USERTOP -> Ac !! m = None) /\
  (forall m, 0 <= m < n -> uview s Ac m = uview s0 A m).

Lemma flags_lor p : present p = true -> Z.lor (PTE_FLAGS p) 1 = PTE_FLAGS p.
Proof.
  intros Hp. apply Z.bits_inj'. intros k Hk. rewrite Z.lor_spec. destruct (Z.eq_dec k 0) as [->|Hk0].
  - rewrite present_odd in Hp. rewrite PTE_FLAGS_spec. change PGSIZE with (2 ^ 12).
    rewrite Z.mod_pow2_bits_low, Z.bit0_odd, Hp by lia. done.
  - replace (Z.testbit 1 k) with false; [apply orb_false_r|]. symmetry. apply Z.bits_above_log2; cbn; lia.
Qed.

Lemma flags_range p : 0 <= PTE_FLAGS p < PGSIZE.
Proof. rewrite PTE_FLAGS_spec. by apply Z.mod_pos_bound. Qed.

Lemma copy_loop_spec P s0 pg A T sz : rep end_ s0 pg A T -> user_ok end_ s0 A -> 0 <= sz <= KERNBASE ->
  (forall m, 0 <= m -> PGSIZE * m < sz -> is_Some (A !! m)) ->
  forall fuel s d Ac Tc n, space P (frames s0) s d Ac Tc [] -> copied s0 s A Ac n -> 0 <= n <= first_page sz ->
  sz <= PGSIZE * (n + Z.of_nat fuel) ->
  exists r s', copy_loop end_ (S fuel) s pg d sz (PGSIZE * n) = Ok (r, s') /\
    (r = 0 /\ only end_ P (frames s0) s' \/
     r = d /\ exists Ac Tc, space P (frames s0) s' d Ac Tc [] /\ copied s0 s' A Ac (first_page sz)).
Proof.
  intros Hr [U1 U2] Hsz Hall. destruct (first_page_spec sz ltac:(lia)) as (_ & Hf1 & Hfp).
  induction fuel as [|fuel IH]; intros s d Ac Tc n Hs Hc Hn Hf.
  all: cbn [copy_loop]; destruct (Z.ltb_spec (PGSIZE * n) sz) as [Hlt|Hge];
    [|exists d, s; split; [done|]; right; split; [done|]; exists Ac, Tc; split; [done|];
      assert (n = first_page sz) as <-; [pose proof (proj1 (Hfp n)); lia|done]].
  { unfold PGSIZE in *. lia. }
  assert (Hn' : n < first_page sz) by (apply Hfp; lia).
  assert (Hn20 : 0 <= n < 2 ^ 20) by (unfold USERTOP in *; lia).
  destruct (Hall n ltac:(lia) Hlt) as [p Hp].
  destruct (rep_ent _ _ _ _ _ Hr _ _ Hp) as [_ [v Hv]].
  pose proof (parent_rep _ _ _ _ _ _ _ _ _ _ _ Hr eq_refl Hs) as Hrs.
  pose proof (walk_found _ s pg A T n 0 Hrs Hn20 ltac:(done) v false Hv) as Hwalk.
  rewrite Z.add_0_r in Hwalk. rewrite Hwalk. run.
  destruct (entry_get _ s pg A T n v Hrs Hv) as (x & -> & Hx). rewrite Hp in Hx. destruct Hx as [-> Hpr]. run.
  rewrite Hpr. cbn [negb]. fold (upage p).
  destruct (U1 n p Hp ltac:(lia)) as (Hpb & Hgp & bs & Hbs & Hl).
  unfold kalloc_page. destruct (pool s) as [|w l] eqn:Ep.
  { cbn [Z.eqb]. destruct (freevm_spec end_ Hend _ _ _ _ _ _ Hs) as (s' & -> & Ho). run. exists 0, s'. split; [done|]. by left. }
  destruct (take_page end_ P _ s d Ac Tc w l (Data bs) Hs Ep) as (Hs1 & Hk1 & Hw1 & ->).
  unfold dget. cbn [frames]. rewrite (parent_data _ _ _ _ _ _ _ _ _ Hs Hbs). run.
  set (s1 := put_frame _ _ _) in *. destruct Hc as (Hc1 & Hc2 & Hc3).
  assert (Hn19 : 0 <= n < USERTOP) by lia.
  destruct (map_user end_ P _ s1 d Ac Tc w n (PTE_FLAGS p) bs Hs1 Hn19 (Hc2 n ltac:(lia)) (flags_range p) Hw1 Hl)
    as [->|(s2 & T2 & -> & Hs2 & Hk2)]; run; cbn [Z.ltb Z.compare].
  - destruct (untake_page end_ P _ s1 d Ac Tc w Hs1) as (s3 & -> & Hs3 & _). run.
    destruct (freevm_spec end_ Hend _ _ _ _ _ _ Hs3) as (s' & -> & Ho). run. exists 0, s'. split; [done|]. by left.
  - rewrite (flags_lor p Hpr) in Hs2.
    assert (u32 (PGSIZE * n + PGSIZE) = PGSIZE * (n + 1)) as -> by (unfold USERTOP in *; page_lia).
    apply (IH s2 d (<[n := V2P w + PTE_FLAGS p]> Ac) T2 (n + 1) Hs2); [|lia|lia].
    destruct (sp_transit _ _ _ _ _ _ _ _ Hs1 w ltac:(by left)) as (_ & Hgw & _). split; [|split].
    + intros m Hm. rewrite lookup_insert_ne by lia. by apply Hc1.
    + intros m Hm. rewrite lookup_insert_ne by lia. apply Hc2. lia.
    + intros m Hm. destruct (decide (m = n)) as [->|Hne].
      * rewrite (uview_mapped _ _ _ _ _ bs Hgw (flags_range p)) by (by apply Hk2).
        unfold uview. rewrite Hp. cbn. by rewrite Hbs.
      * rewrite <- Hc3 by lia. eapply uview_keeps; [exact Hs|lia|apply lookup_insert_ne; lia|by eapply keeps_trans].
Qed.

Lemma copyuvm_spec P F s pg A T sz : space P F s pg A T [] -> 0 <= sz <= KERNBASE ->
  (forall m, 0 <= m -> PGSIZE * m < sz -> is_Some (A !! m)) ->
  exists r s', copyuvm end_ data s pg sz = Ok (r, s') /\
    (r = 0 /\ only end_ P (frames s) s' \/
     exists Ac Tc, space P (frames s) s' r Ac Tc [] /\ copied s s' A Ac (first_page sz)).
Proof.
  intros Hs Hsz Hall.
  assert (Ho : only end_ P (frames s) s).
  { constructor; [done|apply (sp_pool _ _ _ _ _ _ _ _ Hs)|apply (sp_all _ _ _ _ _ _ _ _ Hs)]. }
  unfold copyuvm. destruct (setupkvm_spec end_ data Hend Hdata Hlow Hhigh P _ s Ho)
    as (d & s1 & -> & [[-> Ho1]|(Hd & Ac & Tc & Hs1 & HAc)]); run.
  { exists 0, s1. split; [done|]. by left. }
  rewrite Hd.
  destruct (copy_loop_spec P s pg A T sz (sp_rep _ _ _ _ _ _ _ _ Hs) (sp_user _ _ _ _ _ _ _ _ Hs) Hsz Hall
    (Z.to_nat (sz / PGSIZE + 1)) s1 d Ac Tc 0 Hs1) as (r & s' & Hl & Hres).
  - split; [intros m _; apply HAc|]. split; [|intros m ?; lia]. intros m Hm. rewrite HAc. unfold kernel_pte.
    rewrite (proj2 (Z.ltb_lt _ _)); [done|]. unfold USERTOP, KERNBASE, PGSIZE in *. lia.
  - destruct (first_page_spec sz ltac:(lia)) as (_ & ? & _). lia.
  - unfold PGSIZE. Z.div_mod_to_equations. lia.
  - rewrite Z.mul_0_r in Hl. exists r, s'. split; [exact Hl|].
    destruct Hres as [?|[-> (Ac' & Tc' & ? & ?)]]; [by left|right; eauto].
Qed.

End vmem.

Section access.
Context (end_ : Z).

Abbreviation space := (space end_).
Abbreviation good := (good end_).

(** ** Writing into another address space *)

(** The byte at a user address. *)
Definition ubyte (s : vmem) (A : gmap Z Z) (x : Z) : option Z :=
  '(_, bs) ← uview s A (x / PGSIZE);
  bs !! Z.to_nat (x mod PGSIZE).

(** The page at [n] may be used by the process. *)
Definition user_page (A : gmap Z Z) (n : Z) : Prop :=
  exists p, A !! n = Some p /\ Z.land p PTE_U <> 0.

Lemma set_data P F s d A T n p bs : space P F s d A T [] -> A !! n = Some p -> n < USERTOP ->
  length bs = Z.to_nat PGSIZE -> space P F (put_frame (upage p) (Data bs) s) d A T [].
Proof.
  intros Hs Hp Hn Hl. destruct (sp_user _ _ _ _ _ _ _ _ Hs) as [U1 U2].
  destruct (U1 n p Hp Hn) as (_ & Hg & b0 & Hb0 & _). pose proof (sp_rep _ _ _ _ _ _ _ _ Hs) as Hr.
  destruct (user_not_table _ _ _ _ _ _ _ Hr Hb0) as [Hud Hut].
  assert (Hoff : forall y, y <> upage p -> frames (put_frame (upage p) (Data bs) s) !! y = frames s !! y)
    by (intros y Hy; cbn; by rewrite lookup_insert_ne).
  assert (Ho : owned d A T (upage p)) by (right; right; eauto).
  constructor.
  - eapply rep_frame; [done|]. intros x Hx. apply Hoff. intros ->. naive_solver.
  - split; [|done]. intros m q Hm Hu. destruct (U1 m q Hm Hu) as (? & ? & b & Hb & ?). split; [done|]. split; [done|].
    destruct (decide (upage q = upage p)) as [->|Hne]; [exists bs; cbn; by rewrite lookup_insert_eq|].
    exists b. by rewrite Hoff.
  - destruct (sp_pool _ _ _ _ _ _ _ _ Hs) as [Hnd Hpool]. split; [done|]. intros y Hy. destruct (Hpool y Hy) as [? Hy'].
    split; [done|]. rewrite Hoff; [done|congruence].
  - apply (sp_dir _ _ _ _ _ _ _ _ Hs).
  - intros x Hx. by apply elem_of_nil in Hx.
  - apply (sp_mine _ _ _ _ _ _ _ _ Hs).
  - intros x Hx HxE. rewrite Hoff; [by apply (sp_frame _ _ _ _ _ _ _ _ Hs)|]. by intros ->.
  - intros x. rewrite (sp_all _ _ _ _ _ _ _ _ Hs x). cbn.
    destruct (decide (x = upage p)) as [->|Hne]; [rewrite lookup_insert_eq, Hb0; naive_solver|].
    by rewrite lookup_insert_ne.
Qed.

Lemma uva2ka_spec P F s d A T n p : space P F s d A T [] -> 0 <= n < USERTOP -> A !! n = Some p ->
  Z.land p PTE_U <> 0 -> uva2ka s d (PGSIZE * n) = Ok (upage p, s).
Proof.
  intros Hs Hn Hp Hu. pose proof (sp_rep _ _ _ _ _ _ _ _ Hs) as Hr.
  destruct (rep_ent _ _ _ _ _ Hr _ _ Hp) as [Hn20 [v Hv]]. unfold uva2ka.
  pose proof (walk_found _ s d A T n 0 Hr Hn20 ltac:(done) v false Hv) as Hwalk.
  rewrite Z.add_0_r in Hwalk. rewrite Hwalk. run.
  destruct (entry_get _ s d A T n v Hr Hv) as (x & -> & Hx). rewrite Hp in Hx. destruct Hx as [-> Hpr]. run.
  rewrite Hpr, (proj2 (Z.eqb_neq _ _)) by done. done.
Qed.

(** One page of [copyout]: [bs] at offset [o] of page [n]. *)
Lemma write_page P F s d A T n p o bs old : space P F s d A T [] -> A !! n = Some p -> 0 <= n < USERTOP ->
  frames s !! upage p = Some (Data old) -> length old = Z.to_nat PGSIZE -> 0 <= o ->
  o + Z.of_nat (length bs) <= PGSIZE -> forall x, 0 <= x < KERNBASE ->
  ubyte (put_frame (upage p) (Data (splice (Z.to_nat o) bs old)) s) A x =
    if decide (PGSIZE * n + o <= x < PGSIZE * n + o + Z.of_nat (length bs))
    then bs !! Z.to_nat (x - (PGSIZE * n + o)) else ubyte s A x.
Proof.
  intros Hs Hp Hn Hold Hl Ho Hb x Hx. unfold ubyte, uview. destruct (decide (x / PGSIZE = n)) as [Hxn|Hxn].
  - rewrite Hxn, Hp. cbn. rewrite lookup_insert_eq, Hold. cbn.
    rewrite splice_lookup by (rewrite Hl; unfold PGSIZE in *; lia).
    assert (x mod PGSIZE = x - PGSIZE * n) as -> by (unfold PGSIZE in *; Z.div_mod_to_equations; lia).
    unfold PGSIZE in *. repeat case_decide; try lia; f_equal; Z.div_mod_to_equations; lia.
  - rewrite decide_False by (unfold PGSIZE in *; Z.div_mod_to_equations; lia).
    destruct (A !! (x / PGSIZE)) as [q|] eqn:Eq; [|done]. cbn. rewrite lookup_insert_ne; [done|].
    intros Heq. apply Hxn. eapply (proj2 (sp_user _ _ _ _ _ _ _ _ Hs)); [exact Eq|exact Hp| |lia|done].
    unfold USERTOP, KERNBASE, PGSIZE in *. Z.div_mod_to_equations. lia.
Qed.

Lemma copyout_loop_S fuel s d va buf len : copyout_loop (S fuel) s d va buf len =
  if len >? 0 then
    let va0 := PGROUNDDOWN va in
    '(pa0, s) ← uva2ka s d va0;
    if pa0 =? 0 then Ok (-1, s)
    else
      let k := if PGSIZE - (va - va0) >? len then len else PGSIZE - (va - va0) in
      bs ← buf_load buf 0 k;
      old ← dget s pa0;
      new ← buf_store old (va - va0) bs;
      copyout_loop fuel (put_frame pa0 (Data new) s) d (u32 (va0 + PGSIZE)) (drop (Z.to_nat k) buf) (len - k)
  else Ok (0, s).
Proof. reflexivity. Qed.

Lemma copyout_loop_spec P F d A T : forall fuel s va buf len, space P F s d A T [] -> 0 <= va -> 0 <= len ->
  va + len <= KERNBASE -> len <= Z.of_nat (length buf) -> va mod PGSIZE + len <= PGSIZE * Z.of_nat fuel ->
  (forall n, 0 <= n -> va < PGSIZE * n + PGSIZE -> PGSIZE * n < va + len -> user_page A n) ->
  exists s', copyout_loop (S fuel) s d va buf len = Ok (0, s') /\ space P F s' d A T [] /\
    forall x, 0 <= x < KERNBASE -> ubyte s' A x =
      if decide (va <= x < va + len) then buf !! Z.to_nat (x - va) else ubyte s A x.
Proof.
  induction fuel as [|fuel IH]; intros s va buf len Hs Hva Hlen Hend' Hbuf Hf Hacc;
    rewrite copyout_loop_S, Z.gtb_ltb; (destruct (Z.ltb_spec 0 len) as [Hpos|Hz];
    [|exists s; split; [done|]; split; [done|]; intros x Hx; by rewrite decide_False by lia]);
    [unfold PGSIZE in *; Z.div_mod_to_equations; lia|].
  rewrite PGROUNDDOWN_spec by page_lia. set (n := va / PGSIZE). set (o := va mod PGSIZE).
  assert (Hvo : va = PGSIZE * n + o /\ 0 <= o < PGSIZE) by (unfold n, o, PGSIZE; Z.div_mod_to_equations; lia).
  assert (Hn19 : 0 <= n < USERTOP) by (unfold USERTOP, KERNBASE, PGSIZE in *; lia).
  fold o in Hf. cbv zeta. rewrite (Z.mul_comm n PGSIZE). clearbody n o. destruct (Hacc n) as (p & Hp & Hu); [lia|lia|lia|].
  rewrite (uva2ka_spec P F s d A T n p Hs Hn19 Hp Hu). run.
  destruct (proj1 (sp_user _ _ _ _ _ _ _ _ Hs) n p Hp ltac:(lia)) as (_ & Hg & old & Hold & Hl).
  rewrite (good_nonzero _ _ Hg). replace (va - PGSIZE * n) with o by lia.
  set (k := if PGSIZE - o >? len then len else PGSIZE - o).
  assert (Hk : k = Z.min (PGSIZE - o) len).
  { unfold k. rewrite Z.gtb_ltb. destruct (Z.ltb_spec len (PGSIZE - o)); lia. }
  clearbody k. assert (Hk0 : 0 <= k <= len) by lia. rewrite buf_load_Ok by lia. run. unfold dget. rewrite Hold. run.
  change (drop (Z.to_nat 0) buf) with buf. set (bs := take (Z.to_nat k) buf).
  assert (Hlb : length bs = Z.to_nat k) by (unfold bs; rewrite length_take; lia).
  rewrite buf_store_Ok by (rewrite ?Hl, ?Hlb; unfold PGSIZE in *; lia). run. fold (splice (Z.to_nat o) bs old).
  set (s1 := put_frame _ _ _).
  assert (Hs1 : space P F s1 d A T []).
  { eapply set_data; [done|done|lia|]. rewrite length_splice; [done|]. rewrite Hl, Hlb. unfold PGSIZE in *. lia. }
  assert (u32 (PGSIZE * n + PGSIZE) = PGSIZE * (n + 1)) as -> by (unfold USERTOP in *; page_lia).
  destruct (Z.eq_dec k len) as [Hkl|Hkl].
  - (* the last page *)
    assert (Hdone : copyout_loop (S fuel) s1 d (PGSIZE * (n + 1)) (drop (Z.to_nat k) buf) (len - k) = Ok (0, s1)).
    { rewrite copyout_loop_S. by replace (len - k) with 0 by lia. }
    exists s1. split; [exact Hdone|]. split; [done|]. intros x Hx.
    unfold s1. rewrite (write_page P F s d A T n p o bs old Hs Hp Hn19 Hold Hl) by (done || lia).
    rewrite Hlb. replace (PGSIZE * n + o) with va by lia. rewrite Z2Nat.id, Hkl by lia.
    case_decide; [|done]. unfold bs. rewrite lookup_take_lt by lia. done.
  - destruct (IH s1 (PGSIZE * (n + 1)) (drop (Z.to_nat k) buf) (len - k) Hs1) as (s' & Hl' & Hs' & Hx').
    { lia. } { lia. } { lia. }
    { rewrite length_drop. lia. }
    { unfold PGSIZE in *. Z.div_mod_to_equations. lia. }
    { intros m Hm1 Hm2 Hm3. apply Hacc; [done|lia|lia]. }
    exists s'. split; [exact Hl'|]. split; [done|]. intros x Hx. rewrite Hx' by done.
    unfold s1. rewrite (write_page P F s d A T n p o bs old Hs Hp Hn19 Hold Hl) by (done || lia).
    rewrite Hlb. replace (PGSIZE * n + o) with va by lia. rewrite Z2Nat.id by lia.
    assert (Hkv : va + k = PGSIZE * (n + 1)) by lia.
    repeat case_decide; try lia; [|by unfold bs; rewrite lookup_take_lt by lia|done].
    rewrite lookup_drop. f_equal. lia.
Qed.

Lemma deallocuvm_view (Hend : KERNBASE < end_) P F s d A T oldsz newsz : space P F s d A T [] -> 0 <= newsz < oldsz -> oldsz <= KERNBASE ->
  exists s' A', deallocuvm end_ s d oldsz newsz = Ok (newsz, s') /\ space P F s' d A' T [] /\
    (forall m, USERTOP <= m -> A' !! m = A !! m) /\
    forall m, m < USERTOP -> uview s' A' m =
      if decide (first_page newsz <= m /\ PGSIZE * m < oldsz) then None else uview s A m.
Proof.
  intros Hs Hn Ho.
  destruct (deallocuvm_spec end_ Hend P F s d A T [] oldsz newsz Hs Hn Ho) as (s' & A' & -> & Hs' & Hd & Hsp).
  fold (first_page newsz) in Hd, Hsp. exists s', A'. split; [done|]. split; [done|]. split.
  { intros m Hm. rewrite Hd. rewrite decide_False; [done|]. unfold USERTOP, KERNBASE, PGSIZE in *. lia. }
  intros m Hm. case_decide as Hdec; [unfold uview; by rewrite Hd, decide_True|].
  apply uview_same; [by rewrite Hd, decide_False| |].
  - intros p Hp. destruct (proj1 (sp_user _ _ _ _ _ _ _ _ Hs) _ _ Hp Hm) as (_ & _ & bs & ? & _). eauto.
  - intros p bs Hp. apply Hsp. intros m' p' Hp' Hge Hlt Heq. apply Hdec.
    assert (m' = m) as ->; [|done].
    eapply (proj2 (sp_user _ _ _ _ _ _ _ _ Hs)); [exact Hp'|exact Hp| |done|done].
    unfold USERTOP, KERNBASE, PGSIZE in *. lia.
Qed.

(** No kernel entry is for the user. *)
Lemma kernel_private data n p : data mod PGSIZE = 0 -> kernel_pte data n = Some p -> Z.land p PTE_U = 0 /\ KERNBASE <= PGSIZE * n.
Proof.
  unfold kernel_pte. intros Hdata Hp.
  assert (Hbit : forall va f, va mod PGSIZE = 0 -> f = 1 \/ f = 3 -> Z.land (va + f) PTE_U = 0).
  { intros va f Hva Hf. rewrite <- lor_page by (done || (unfold PGSIZE; lia)). unfold PTE_U.
    rewrite Z.land_lor_distr_l. assert (Z.land f 4 = 0) as -> by (by destruct Hf as [-> | ->]). rewrite Z.lor_0_r.
    apply Z.bits_inj'. intros k Hk. rewrite Z.land_spec, Z.bits_0. destruct (Z.eq_dec k 2) as [->|Hk2].
    - rewrite (Z.div_mod va PGSIZE), Hva, Z.add_0_r by done. change PGSIZE with (2 ^ 12).
      rewrite Z.mul_comm, <- Z.shiftl_mul_pow2, Z.shiftl_spec_low by lia. done.
    - change 4 with (2 ^ 2). rewrite Z.pow2_bits_false by lia. apply andb_false_r. }
  destruct (PGSIZE * n <? KERNBASE) eqn:E0; [done|]. zbool.
  repeat match type of Hp with (if ?b then _ else _) = _ => destruct b end; try done; injection Hp as <-;
    (split; [|done]); apply Hbit; auto; page_lia.
Qed.

(** A present user page is always visible. *)
Lemma uview_present P F s d A T m : space P F s d A T [] -> m < USERTOP -> is_Some (uview s A m) <-> is_Some (A !! m).
Proof.
  intros Hs Hm. unfold uview. destruct (A !! m) as [p|] eqn:E; [|split; intros [? ?]; done].
  destruct (proj1 (sp_user _ _ _ _ _ _ _ _ Hs) _ _ E Hm) as (_ & _ & bs & Hb & _). cbn. rewrite Hb. split; eauto.
Qed.

End access.

(** ** A small address space *)

Definition demo_end : Z := KERNBASE + 4194304.
Definition demo_dir : Z := demo_end.
Definition demo_tab : Z := demo_end + 4096.
Definition demo_usr : Z := demo_end + 8192.
Definition demo_data : Z := KERNBASE + 2097152.

(** One user page; two pages are free. *)
Definition demo_vm : vmem :=
  Vmem (<[demo_dir := Table {[0 := V2P demo_tab + 7]}]>
       (<[demo_tab := Table {[0 := V2P demo_usr + 7]}]>
       (<[demo_usr := Data zeros]> ∅)))
    [demo_end + 12288; demo_end + 16384].
Definition demo_A : gmap Z Z := {[0 := V2P demo_usr + 7]}.
Definition demo_T : gmap Z Z := {[0 := demo_tab]}.
Definition demo_P (x : Z) : Prop :=
  x ∈ [demo_dir; demo_tab; demo_usr; demo_end + 12288; demo_end + 16384].

Lemma demo_good x : demo_P x -> good demo_end x.
Proof.
  unfold demo_P. intros H. unfold good, good_page, demo_dir, demo_tab, demo_usr, demo_end in *.
  set_unfold. destruct_or!; subst; try done; split_and!; unfold KERNBASE, PHYSTOP; try done; lia.
Qed.

Lemma demo_frames x : frames demo_vm !! x =
  if decide (x = demo_dir) then Some (Table {[0 := V2P demo_tab + 7]})
  else if decide (x = demo_tab) then Some (Table {[0 := V2P demo_usr + 7]})
  else if decide (x = demo_usr) then Some (Data zeros) else None.
Proof.
  unfold demo_vm. cbn [frames]. repeat case_decide; subst.
  - by rewrite lookup_insert_eq.
  - by rewrite lookup_insert_ne, lookup_insert_eq.
  - by rewrite 2!lookup_insert_ne, lookup_insert_eq.
  - by rewrite !lookup_insert_ne, lookup_empty by congruence.
Qed.

Lemma demo_owned x : owned demo_dir demo_A demo_T x <-> x = demo_dir \/ x = demo_tab \/ x = demo_usr.
Proof.
  assert (Hu : upage (V2P demo_usr + 7) = demo_usr) by reflexivity.
  unfold owned, demo_A, demo_T. split.
  - intros [?|[[i Hi]|(n & p & Hn & _ & <-)]]; [by left| |].
    + apply lookup_singleton_Some in Hi as [_ <-]. auto.
    + apply lookup_singleton_Some in Hn as [_ <-]. auto.
  - intros [?|[->| ->]]; [by left| |].
    + right; left. exists 0. apply lookup_singleton_eq.
    + right; right. exists 0, (V2P demo_usr + 7). split; [apply lookup_singleton_eq|done].
Qed.

Lemma demo_space : space demo_end demo_P ∅ demo_vm demo_dir demo_A demo_T [].
Proof.
  assert (Hu : upage (V2P demo_usr + 7) = demo_usr) by reflexivity.
  pose proof demo_owned as Hown. unfold demo_A, demo_T in *.
  constructor.
  - constructor.
    + eexists. split; [by rewrite demo_frames, decide_True|]. intros i _.
      destruct (decide (i = 0)) as [->|Hi]; [by rewrite !lookup_singleton_eq|].
      by rewrite !lookup_singleton_ne by done.
    + intros i v [<- <-]%lookup_singleton_Some. split; [done|]. split; [|done]. apply demo_good. unfold demo_P. set_solver.
    + intros i j v [<- _]%lookup_singleton_Some [<- _]%lookup_singleton_Some. done.
    + intros i v [<- <-]%lookup_singleton_Some. eexists. split; [by rewrite demo_frames|]. intros j Hj.
      rewrite Z.mul_0_r, Z.add_0_l. destruct (decide (j = 0)) as [->|Hi]; [by rewrite !lookup_singleton_eq|].
      by rewrite !lookup_singleton_ne by done.
    + intros n p [<- <-]%lookup_singleton_Some. split; [done|]. change (0 / 1024) with 0. rewrite lookup_singleton_eq. eauto.
  - split.
    + intros n p [<- <-]%lookup_singleton_Some _. rewrite Hu. split; [done|]. split; [apply demo_good; unfold demo_P; set_solver|].
      exists zeros. split; [by rewrite demo_frames|apply length_replicate].
    + intros n m p q [<- _]%lookup_singleton_Some [<- _]%lookup_singleton_Some. done.
  - split; [cbn; apply NoDup_cons; split; [set_unfold; unfold demo_end, KERNBASE; lia|apply NoDup_singleton]|].
    intros v Hv. cbn in Hv. split; [apply demo_good; unfold demo_P; set_solver|]. rewrite demo_frames.
    unfold demo_dir, demo_tab, demo_usr. set_unfold. repeat case_decide; try done; lia.
  - apply demo_good. unfold demo_P. set_solver.
  - intros x Hx. by apply elem_of_nil in Hx.
  - intros x _. apply lookup_empty.
  - intros x Hx _. rewrite Hown in Hx. rewrite demo_frames, lookup_empty. by rewrite !decide_False by naive_solver.
  - intros x. unfold demo_P. cbn [pool demo_vm]. rewrite demo_frames. set_unfold.
    repeat case_decide; subst; split; intros Hin; try (by right; eauto); try naive_solver.
Qed.

(** ** Theorems *)

(** C15: [allocuvm] and [deallocuvm] change the user memory of a process as
    asked.  Growing from [oldsz] to [newsz] either adds exactly the missing
    pages, zeroed and accessible, or, when memory runs out, returns 0 and leaves
    the memory of the process as it was; shrinking removes exactly the pages
    above [newsz].  Either way the kernel part, the other address spaces ([F])
    and the set of all pages ([P]) are unchanged: no page is lost or shared. *)
Theorem uvm_resize end_ P F s d A T oldsz newsz :
  KERNBASE < end_ -> space end_ P F s d A T [] ->
  (0 <= oldsz <= newsz -> newsz < KERNBASE ->
   (forall m, first_page oldsz <= m -> PGSIZE * m < newsz -> A !! m = None) ->
   exists r s' A' T', allocuvm end_ s d oldsz newsz = Ok (r, s') /\ space end_ P F s' d A' T' [] /\
     (forall m, USERTOP <= m -> A' !! m = A !! m) /\
     (r = newsz /\ (forall m, m < USERTOP -> uview s' A' m =
        if decide (first_page oldsz <= m /\ PGSIZE * m < newsz) then Some (7, zeros) else uview s A m) \/
      r = 0 /\ forall m, m < USERTOP -> uview s' A' m = uview s A m)) /\
  (0 <= newsz < oldsz -> oldsz <= KERNBASE ->
   exists s' A', deallocuvm end_ s d oldsz newsz = Ok (newsz, s') /\ space end_ P F s' d A' T [] /\
     (forall m, USERTOP <= m -> A' !! m = A !! m) /\
     forall m, m < USERTOP -> uview s' A' m =
       if decide (first_page newsz <= m /\ PGSIZE * m < oldsz) then None else uview s A m).
Proof.
  intros He Hs. split.
  - intros. by eapply allocuvm_spec.
  - intros. by eapply deallocuvm_view.
Qed.

Lemma uvm_resize_witness :
  (exists r s' A' T', allocuvm demo_end demo_vm demo_dir 4096 8192 = Ok (r, s') /\
     space demo_end demo_P ∅ s' demo_dir A' T' [] /\ (forall m, USERTOP <= m -> A' !! m = demo_A !! m) /\
     (r = 8192 /\ (forall m, m < USERTOP -> uview s' A' m =
        if decide (first_page 4096 <= m /\ PGSIZE * m < 8192) then Some (7, zeros) else uview demo_vm demo_A m) \/
      r = 0 /\ forall m, m < USERTOP -> uview s' A' m = uview demo_vm demo_A m)) /\
  (exists s' A', deallocuvm demo_end demo_vm demo_dir 4096 100 = Ok (100, s') /\
     space demo_end demo_P ∅ s' demo_dir A' demo_T [] /\ (forall m, USERTOP <= m -> A' !! m = demo_A !! m) /\
     forall m, m < USERTOP -> uview s' A' m =
       if decide (first_page 100 <= m /\ PGSIZE * m < 4096) then None else uview demo_vm demo_A m).
Proof.
  split.
  - apply (uvm_resize demo_end demo_P ∅ demo_vm demo_dir demo_A demo_T 4096 8192); [done|apply demo_space|done|done|].
    intros m Hm _. change (first_page 4096) with 1 in Hm. apply lookup_singleton_ne. lia.
  - apply (uvm_resize demo_end demo_P ∅ demo_vm demo_dir demo_A demo_T 4096 100); [done|apply demo_space|done|done].
Defined.

(** C14: [copyuvm], which [fork] uses, makes an equal and separate copy.  If the
    pages of the first [sz] bytes are present it returns either 0, with every
    page as before and none lost, or a new address space that shows the same
    bytes with the same flags in these pages and no others, has the kernel
    part, and consists of pages that were free: nothing that existed before,
    the parent included, has changed. *)
Theorem copyuvm_copies end_ data P F s pg A T sz :
  KERNBASE < end_ -> data mod PGSIZE = 0 -> KERNLINK < data < KERNBASE + PHYSTOP ->
  space end_ P F s pg A T [] -> 0 <= sz <= KERNBASE ->
  (forall m, 0 <= m -> PGSIZE * m < sz -> is_Some (A !! m)) ->
  exists r s', copyuvm end_ data s pg sz = Ok (r, s') /\
    (r = 0 /\ only end_ P (frames s) s' \/
     exists A' T', space end_ P (frames s) s' r A' T' [] /\
       (forall m, USERTOP <= m -> A' !! m = kernel_pte data m) /\
       (forall m, 0 <= m < USERTOP -> uview s' A' m = if decide (PGSIZE * m < sz) then uview s A m else None) /\
       (forall x, owned r A' T' x -> frames s !! x = None /\ x ∈ pool s)).
Proof.
  intros He Hd [Hl Hh] Hs Hsz Hall.
  destruct (copyuvm_spec end_ data He Hd Hl Hh P F s pg A T sz Hs Hsz Hall)
    as (r & s' & Hc & [Hz|(A' & T' & Hs' & Hk & Hn & Hv)]); exists r, s'; (split; [done|]); [by left|right].
  destruct (first_page_spec sz Hsz) as (_ & Hf & Hfp).
  exists A', T'. split; [done|]. split; [done|]. split.
  - intros m Hm. specialize (Hfp m). case_decide; [apply Hv; lia|]. unfold uview. by rewrite Hn by lia.
  - intros x Hx. pose proof (sp_mine _ _ _ _ _ _ _ _ Hs' x ltac:(by left)) as Hnone. split; [done|].
    pose proof (owned_some _ _ _ _ _ _ _ _ _ Hs' Hx) as Hsome.
    assert (Hp : P x) by (apply (sp_all _ _ _ _ _ _ _ _ Hs'); by right).
    apply (sp_all _ _ _ _ _ _ _ _ Hs) in Hp as [?|[? ?]]; [done|congruence].
Qed.

Lemma copyuvm_copies_witness :
  exists r s', copyuvm demo_end demo_data demo_vm demo_dir 4096 = Ok (r, s') /\
    (r = 0 /\ only demo_end demo_P (frames demo_vm) s' \/
     exists A' T', space demo_end demo_P (frames demo_vm) s' r A' T' [] /\
       (forall m, USERTOP <= m -> A' !! m = kernel_pte demo_data m) /\
       (forall m, 0 <= m < USERTOP -> uview s' A' m = if decide (PGSIZE * m < 4096) then uview demo_vm demo_A m else None) /\
       (forall x, owned r A' T' x -> frames demo_vm !! x = None /\ x ∈ pool demo_vm)).
Proof.
  apply (copyuvm_copies demo_end demo_data demo_P ∅ demo_vm demo_dir demo_A demo_T 4096);
    [done|done|done|apply demo_space|done|].
  intros m Hm1 Hm2. assert (m = 0) as -> by (unfold PGSIZE in Hm2; lia). unfold demo_A. rewrite lookup_singleton_eq. eauto.
Defined.

(** the life of an address space.  [setupkvm] returns 0 with nothing
    changed, or a new address space whose only entries are those of the kernel
    ([kernel_pte]: physical memory at [KERNBASE], read-only text, devices), none
    of which a user may use; [freevm] of any address space returns its
    directory, its tables and its user pages to the pool and touches nothing
    else. *)
Theorem space_lifecycle end_ data P F s :
  KERNBASE < end_ -> data mod PGSIZE = 0 -> KERNLINK < data < KERNBASE + PHYSTOP ->
  (only end_ P F s ->
   exists r s', setupkvm end_ data s = Ok (r, s') /\
     (r = 0 /\ only end_ P F s' \/
      exists A T, space end_ P F s' r A T [] /\ (forall n, A !! n = kernel_pte data n) /\
        forall n p, A !! n = Some p -> Z.land p PTE_U = 0 /\ KERNBASE <= PGSIZE * n)) /\
  (forall d A T, space end_ P F s d A T [] -> exists s', freevm end_ s d = Ok s' /\ only end_ P F s').
Proof.
  intros He Hd [Hl Hh]. split.
  - intros Ho. destruct (setupkvm_spec end_ data He Hd Hl Hh P F s Ho) as (r & s' & Hr & Hres).
    exists r, s'. split; [done|]. destruct Hres as [?|(_ & A & T & Hs & HA)]; [by left|right].
    exists A, T. split; [done|]. split; [done|]. intros n p Hn. rewrite HA in Hn. by eapply kernel_private.
  - intros d A T Hs. by eapply freevm_spec.
Qed.

Lemma space_lifecycle_witness :
  (exists s', freevm demo_end demo_vm demo_dir = Ok s' /\ only demo_end demo_P ∅ s') /\
  (forall s', only demo_end demo_P ∅ s' -> exists r s2, setupkvm demo_end demo_data s' = Ok (r, s2)).
Proof.
  split.
  - apply (space_lifecycle demo_end demo_data demo_P ∅ demo_vm) with (A := demo_A) (T := demo_T);
      [done|done|done|apply demo_space].
  - intros s' Ho. destruct (space_lifecycle demo_end demo_data demo_P ∅ s') as [H _]; [done|done|done|].
    destruct (H Ho) as (r & s2 & Hr & _). eauto.
Defined.

(** [copyout] writes into the memory of a process.  When the pages of
    [va .. va + len) are present and accessible to the user, it returns 0, the
    bytes there become those of the buffer, and every other byte of the process
    and every other page stay as they were. *)
Theorem copyout_writes end_ P F s d A T va buf len :
  KERNBASE < end_ -> space end_ P F s d A T [] -> 0 <= va -> 0 <= len -> va + len <= KERNBASE ->
  len <= Z.of_nat (length buf) ->
  (forall n, 0 <= n -> va < PGSIZE * n + PGSIZE -> PGSIZE * n < va + len -> user_page A n) ->
  exists s', copyout s d va buf len = Ok (0, s') /\ space end_ P F s' d A T [] /\
    forall x, 0 <= x < KERNBASE -> ubyte s' A x =
      if decide (va <= x < va + len) then buf !! Z.to_nat (x - va) else ubyte s A x.
Proof.
  intros He Hs Hva Hlen Hb Hl Hacc. unfold copyout. apply (copyout_loop_spec end_); try done.
  unfold PGSIZE. Z.div_mod_to_equations. lia.
Qed.

Lemma copyout_writes_witness :
  exists s', copyout demo_vm demo_dir 10 [1; 2; 3] 3 = Ok (0, s') /\
    space demo_end demo_P ∅ s' demo_dir demo_A demo_T [] /\
    forall x, 0 <= x < KERNBASE -> ubyte s' demo_A x =
      if decide (10 <= x < 10 + 3) then [1; 2; 3] !! Z.to_nat (x - 10) else ubyte demo_vm demo_A x.
Proof.
  apply (copyout_writes demo_end demo_P ∅ demo_vm demo_dir demo_A demo_T 10 [1; 2; 3] 3); try done.
  - apply demo_space.
  - intros n Hn1 Hn2 Hn3. assert (n = 0) as -> by (unfold PGSIZE in *; lia).
    exists (V2P demo_usr + 7). split; [apply lookup_singleton_eq|done].
Defined.

(** [copyout] to an address that has no page table reads through a null
    pointer: [uva2ka] does not test the result of [walkpgdir]. *)
Lemma copyout_null : copyout demo_vm demo_dir 4194304 [1] 1 = Stuck OutOfBounds.
Proof. vm_compute. reflexivity. Qed.
