(* ===== verification/Xv6Print.v ===== *)
(** Formatted output of xv6: [printint] and [printf] of the user library
    (src/설계 3번/xv6/printf.c), [printint] and [cprintf] of the kernel
    (src/설계 3번/xv6/console.c).

    The output of a call is the list of the characters it gives to [putc] or
    [consputc], in order.  The variable arguments are a list of [uint]s; taking
    one too many is undefined.  A [%s] argument is an address, and [strings]
    gives the memory there. *)

From S2P Require Import Prelude Bytes Xv6String.

(** ** Integers *)

Definition digits_upper : list Z := [48; 49; 50; 51; 52; 53; 54; 55; 56; 57; 65; 66; 67; 68; 69; 70].
Definition digits_lower : list Z := [48; 49; 50; 51; 52; 53; 54; 55; 56; 57; 97; 98; 99; 100; 101; 102].

(** [buf[i++] = c] on [char buf[16]]; [buf] is the part in use. *)
Definition put_buf (buf : list Z) (c : Z) : res (list Z) :=
  if Z.of_nat (length buf) <? 16 then Ok (buf ++ [c]) else Stuck OutOfBounds.

(** The [do]-[while] loop over the digits of [x]. *)
Fixpoint digit_loop (digits : list Z) (fuel : nat) (x base : Z) (buf : list Z) : res (list Z) :=
  match fuel with
  | O => Stuck OutOfFuel
  | S fuel' =>
      d ← aget digits (x mod base);
      buf ← put_buf buf d;
      if negb (x / base =? 0) then digit_loop digits fuel' (x / base) base buf else Ok buf
  end.

(** A [uint] has at most 32 digits. *)
Definition digit_fuel : nat := 33.

Module UserPrint.

Definition printint (xx base sgn : Z) : res (list Z) :=
  '(neg, x) ← (if negb (sgn =? 0) && (xx <? 0) then x ← c_int (- xx); Ok (1, u32 x) else Ok (0, u32 xx));
  buf ← digit_loop digits_upper digit_fuel x base [];
  buf ← (if negb (neg =? 0) then put_buf buf 45 else Ok buf);
  Ok (reverse buf).

End UserPrint.

Module KernelPrint.

Definition printint (xx base sign : Z) : res (list Z) :=
  '(sign, x) ←
    (if negb (sign =? 0) then
       let sign := if xx <? 0 then 1 else 0 in
       if negb (sign =? 0) then x ← c_int (- xx); Ok (sign, u32 x) else Ok (sign, u32 xx)
     else Ok (sign, u32 xx));
  buf ← digit_loop digits_lower digit_fuel x base [];
  buf ← (if negb (sign =? 0) then put_buf buf 45 else Ok buf);
  Ok (reverse buf).

End KernelPrint.

(** ** Formats *)

(** [*ap++]. *)
Definition next_arg (ap : list Z) : res (Z * list Z) :=
  match ap with
  | a :: ap => Ok (a, ap)
  | [] => Stuck OutOfBounds
  end.

Definition null_text : list Z := [40; 110; 117; 108; 108; 41].

Section printf.
Context (strings : Z -> list Z).

(** The characters of the string at [s], up to its NUL. *)
Fixpoint put_string (m : list Z) : res (list Z) :=
  match m with
  | [] => Stuck OutOfBounds
  | c :: m' => if c =? 0 then Ok [] else r ← put_string m'; Ok (c :: r)
  end.

Definition put_str_arg (s : Z) : res (list Z) :=
  if s =? 0 then Ok null_text else put_string (strings s).

(** The loop of [printf]; [state] is 0 or ['%']. *)
Fixpoint printf (fmt : list Z) (state : Z) (ap : list Z) : res (list Z) :=
  match fmt with
  | [] => Stuck OutOfBounds
  | c :: fmt' =>
      if c =? 0 then Ok []
      else if state =? 0 then
        if c =? 37 then printf fmt' 37 ap
        else r ← printf fmt' 0 ap; Ok (c :: r)
      else
        '(out, ap) ←
          (if c =? 100 then
             '(a, ap) ← next_arg ap; o ← UserPrint.printint (s32 a) 10 1; Ok (o, ap)
           else if (c =? 120) || (c =? 112) then
             '(a, ap) ← next_arg ap; o ← UserPrint.printint (s32 a) 16 0; Ok (o, ap)
           else if c =? 115 then
             '(a, ap) ← next_arg ap; o ← put_str_arg a; Ok (o, ap)
           else if c =? 99 then
             '(a, ap) ← next_arg ap; Ok ([a mod 256], ap)
           else if c =? 37 then Ok ([c], ap)
           else Ok ([37; c], ap));
        r ← printf fmt' 0 ap;
        Ok (out ++ r)
  end.

(** The loop of [cprintf]. *)
Fixpoint cprintf (fmt : list Z) (argp : list Z) : res (list Z) :=
  match fmt with
  | [] => Stuck OutOfBounds
  | c :: fmt' =>
      if c =? 0 then Ok []
      else if negb (c =? 37) then r ← cprintf fmt' argp; Ok (c :: r)
      else
        match fmt' with
        | [] => Stuck OutOfBounds
        | c :: fmt'' =>
            if c =? 0 then Ok []
            else
              '(out, argp) ←
                (if c =? 100 then
                   '(a, argp) ← next_arg argp; o ← KernelPrint.printint (s32 a) 10 1; Ok (o, argp)
                 else if (c =? 120) || (c =? 112) then
                   '(a, argp) ← next_arg argp; o ← KernelPrint.printint (s32 a) 16 0; Ok (o, argp)
                 else if c =? 115 then
                   '(a, argp) ← next_arg argp; o ← put_str_arg a; Ok (o, argp)
                 else if c =? 37 then Ok ([37], argp)
                 else Ok ([37; c], argp));
              r ← cprintf fmt'' argp;
              Ok (out ++ r)
        end
  end.

End printf.

(** ** Digits *)

(** The number that digits stand for, most significant first. *)
Definition horner (base : Z) (ds : list Z) : Z := foldl (fun n d => n * base + d) 0 ds.

(** [ds] are the digits of [x], least significant first, without leading
    zeros. *)
Record digits_of (base x : Z) (ds : list Z) : Prop := DigitsOf {
  do_value : horner base (reverse ds) = x;
  do_range : Forall (fun d => 0 <= d < base) ds;
  do_some : ds <> [];
  do_lead : ds = [0] \/ last ds <> Some 0;
  do_short : forall k, 0 < k -> x < base ^ k -> Z.of_nat (length ds) <= k }.

Lemma horner_snoc base ds d : horner base (ds ++ [d]) = horner base ds * base + d.
Proof. unfold horner. by rewrite foldl_app. Qed.

Lemma digits_one base x : 2 <= base -> 0 <= x < base -> digits_of base x [x].
Proof.
  intros Hb Hx. constructor; [cbn; lia|by constructor|done| |cbn; lia].
  destruct (Z.eq_dec x 0) as [->|Hne]; [by left|right]. cbn. congruence.
Qed.

Lemma digits_more base x ds : 2 <= base -> 0 <= x -> x / base <> 0 -> digits_of base (x / base) ds ->
  digits_of base x (x mod base :: ds).
Proof.
  intros Hb Hx Hq [Hv Hr Hs Hl Hk]. pose proof (Z.div_mod x base ltac:(lia)).
  pose proof (Z.mod_pos_bound x base ltac:(lia)). pose proof (Z.div_pos x base Hx ltac:(lia)). constructor.
  - rewrite reverse_cons, horner_snoc, Hv. lia.
  - by constructor.
  - done.
  - right. destruct ds as [|d ds]; [done|]. rewrite last_cons_cons. destruct Hl as [[= -> ->]|Hl]; [|done].
    exfalso. apply Hq. rewrite <- Hv. done.
  - intros k Hk0 Hlt. cbn [length]. destruct (Z.eq_dec k 1) as [->|].
    { rewrite Z.pow_1_r in Hlt. rewrite Z.div_small in Hq; [done|lia]. }
    specialize (Hk (k - 1) ltac:(lia)). enough (x / base < base ^ (k - 1)) by lia.
    apply Z.div_lt_upper_bound; [lia|]. rewrite <- Z.pow_succ_r by lia. by replace (Z.succ (k - 1)) with k by lia.
Qed.

Definition glyph (table : list Z) (d : Z) : Z := nth (Z.to_nat d) table 0.

Lemma glyph_aget table d : length table = 16%nat -> 0 <= d < 16 -> aget table d = Ok (glyph table d).
Proof.
  intros Ht Hd. apply aget_Ok. split; [lia|]. unfold glyph.
  destruct (lookup_lt_is_Some_2 table (Z.to_nat d) ltac:(lia)) as [y Hy]. rewrite Hy. f_equal.
  symmetry. by apply nth_lookup_Some.
Qed.

Lemma put_buf_Ok buf c : (length buf < 16)%nat -> put_buf buf c = Ok (buf ++ [c]).
Proof. intros H. unfold put_buf. by rewrite (proj2 (Z.ltb_lt _ _)) by lia. Qed.

Lemma digit_loop_spec table base : 2 <= base <= 16 -> length table = 16%nat -> forall fuel x buf,
  0 <= x < base ^ Z.of_nat (S fuel) -> x < base ^ (16 - Z.of_nat (length buf)) -> (length buf < 16)%nat ->
  exists ds, digit_loop table (S fuel) x base buf = Ok (buf ++ (glyph table <$> ds)) /\ digits_of base x ds.
Proof.
  intros Hb Ht. induction fuel as [|fuel IH]; intros x buf Hx H16 Hlen; cbn [digit_loop];
    pose proof (Z.mod_pos_bound x base ltac:(lia)) as Hm;
    rewrite (glyph_aget table (x mod base) Ht) by lia; run; rewrite put_buf_Ok by done; run.
  - change (Z.of_nat 1) with 1 in Hx. rewrite Z.pow_1_r in Hx. rewrite Z.div_small, Z.mod_small by lia. cbn [Z.eqb negb].
    exists [x]. split; [done|]. apply digits_one; lia.
  - destruct (Z.eqb_spec (x / base) 0) as [Hq|Hq]; cbn [negb].
    + assert (x < base) by (apply Z.div_small_iff in Hq; lia). rewrite Z.mod_small by lia.
      exists [x]. split; [done|]. apply digits_one; lia.
    + pose proof (Z.div_pos x base ltac:(lia) ltac:(lia)) as Hp.
      assert (Hq16 : x / base < base ^ (15 - Z.of_nat (length buf))).
      { apply Z.div_lt_upper_bound; [lia|]. rewrite <- Z.pow_succ_r by lia.
        by replace (Z.succ (15 - Z.of_nat (length buf))) with (16 - Z.of_nat (length buf)) by lia. }
      destruct (IH (x / base) (buf ++ [glyph table (x mod base)])) as (ds & Hl & Hd).
      * split; [done|]. apply Z.div_lt_upper_bound; [lia|]. rewrite <- Z.pow_succ_r by lia.
        replace (Z.succ (Z.of_nat (S fuel))) with (Z.of_nat (S (S fuel))) by lia. apply Hx.
      * rewrite length_app. cbn. by replace (16 - Z.of_nat (length buf + 1)) with (15 - Z.of_nat (length buf)) by lia.
      * rewrite length_app. cbn. destruct (decide (length buf = 15%nat)) as [Heq|]; [|lia].
        rewrite Heq in Hq16. change (15 - Z.of_nat 15) with 0 in Hq16. rewrite Z.pow_0_r in Hq16. lia.
      * exists (x mod base :: ds). split; [|apply digits_more; [lia|lia|done|done]].
        etrans; [exact Hl|]. by rewrite <- app_assoc.
Qed.

(** The digits of a [uint], for the bases that are used. *)
Lemma digit_loop_uint table base x : base = 10 \/ base = 16 -> length table = 16%nat -> 0 <= x < 2 ^ 32 ->
  exists ds, digit_loop table digit_fuel x base [] = Ok (glyph table <$> ds) /\ digits_of base x ds /\
    (length ds <= 10)%nat.
Proof.
  intros Hb Ht Hx. change (2 ^ 32) with 4294967296 in Hx.
  destruct (digit_loop_spec table base ltac:(lia) Ht 32 x []) as (ds & Hl & Hd).
  - split; [lia|]. destruct Hb as [-> | ->]; change (Z.of_nat 33) with 33; lia.
  - destruct Hb as [-> | ->]; cbn; lia.
  - cbn. lia.
  - exists ds. split; [exact Hl|]. split; [done|].
    pose proof (do_short _ _ _ Hd 10 ltac:(lia)) as H. destruct Hb as [-> | ->]; lia.
Qed.

(** What [printint] prints: a sign and digits. *)
Definition number (table : list Z) (base n : Z) (out : list Z) : Prop :=
  exists ds, digits_of base (Z.abs n) ds /\
    out = (if n <? 0 then [45] else []) ++ (glyph table <$> reverse ds).

Lemma printint_tail table base n neg x : base = 10 \/ base = 16 -> length table = 16%nat -> 0 <= x < 2 ^ 32 ->
  x = Z.abs n -> neg = (if n <? 0 then 1 else 0) ->
  exists out, (buf ← digit_loop table digit_fuel x base [];
    buf ← (if negb (neg =? 0) then put_buf buf 45 else Ok buf); Ok (reverse buf)) = Ok out /\ number table base n out.
Proof.
  intros Hb Ht Hx Hn ->. destruct (digit_loop_uint table base x Hb Ht Hx) as (ds & -> & Hd & Hlen). run.
  subst x. destruct (n <? 0) eqn:En; cbn [Z.eqb negb].
  - rewrite put_buf_Ok by (rewrite length_fmap; lia). run. eexists. split; [done|]. exists ds. split; [done|].
    by rewrite En, reverse_app, fmap_reverse.
  - run. eexists. split; [done|]. exists ds. split; [done|]. by rewrite En, fmap_reverse.
Qed.

(** The [int] behind a [uint]. *)
Lemma u32_nonneg n : 0 <= n < 2 ^ 31 -> u32 n = n.
Proof. intros H. unfold u32. apply Z.mod_small. lia. Qed.

Lemma user_printint_signed n base : base = 10 \/ base = 16 -> - 2 ^ 31 < n < 2 ^ 31 ->
  exists out, UserPrint.printint n base 1 = Ok out /\ number digits_upper base n out.
Proof.
  intros Hb Hn. unfold UserPrint.printint. cbn [Z.eqb negb andb]. destruct (n <? 0) eqn:En; zbool.
  - rewrite c_int_Ok by lia. run. rewrite u32_nonneg by lia.
    apply (printint_tail digits_upper base n 1 (- n)); [done|done|lia|lia|by rewrite (proj2 (Z.ltb_lt _ _))].
  - run. rewrite u32_nonneg by lia.
    apply (printint_tail digits_upper base n 0 n); [done|done|lia|lia|by rewrite (proj2 (Z.ltb_ge _ _))].
Qed.

Lemma kernel_printint_signed n base : base = 10 \/ base = 16 -> - 2 ^ 31 < n < 2 ^ 31 ->
  exists out, KernelPrint.printint n base 1 = Ok out /\ number digits_lower base n out.
Proof.
  intros Hb Hn. unfold KernelPrint.printint. cbn [Z.eqb negb andb]. destruct (n <? 0) eqn:En; zbool; cbn [Z.eqb negb].
  - rewrite c_int_Ok by lia. run. rewrite u32_nonneg by lia.
    apply (printint_tail digits_lower base n 1 (- n)); [done|done|lia|lia|by rewrite (proj2 (Z.ltb_lt _ _))].
  - run. rewrite u32_nonneg by lia.
    apply (printint_tail digits_lower base n 0 n); [done|done|lia|lia|by rewrite (proj2 (Z.ltb_ge _ _))].
Qed.

(** ** Reading numbers back *)

Lemma glyph_decimal table d : table = digits_upper \/ table = digits_lower -> 0 <= d < 10 -> glyph table d = 48 + d.
Proof.
  intros Ht Hd. assert (Hc : d ∈ seqZ 0 10) by (apply elem_of_seqZ; lia). vm_compute in Hc.
  repeat (apply elem_of_cons in Hc as [->|Hc]; [by destruct Ht as [-> | ->]|]). by apply elem_of_nil in Hc.
Qed.

Lemma horner_ge ds m : 0 <= m -> Forall (fun d => 0 <= d < 10) ds -> m <= foldl (fun n d => n * 10 + d) m ds.
Proof.
  intros Hm H. revert m Hm. induction H as [|d ds Hd _ IH]; intros m Hm; cbn; [lia|].
  specialize (IH (m * 10 + d) ltac:(lia)). lia.
Qed.

Lemma atoi_digits table ds rest : table = digits_upper \/ table = digits_lower ->
  Forall (fun d => 0 <= d < 10) ds -> forall m, 0 <= m ->
  foldl (fun n d => n * 10 + d) m ds < 2 ^ 31 - 48 ->
  User.atoi_loop ((glyph table <$> ds) ++ 0 :: rest) m = Ok (foldl (fun n d => n * 10 + d) m ds).
Proof.
  intros Ht H. induction H as [|d ds Hd Hds IH]; intros m Hm Hb; cbn [fmap list_fmap app foldl User.atoi_loop]; [done|].
  cbn [foldl] in Hb. pose proof (horner_ge ds (m * 10 + d) ltac:(lia) Hds).
  rewrite (glyph_decimal table d Ht Hd). rewrite (proj2 (Z.leb_le _ _)), (proj2 (Z.leb_le _ _)) by lia. cbn [andb].
  rewrite (c_int_Ok (m * 10)) by lia. run. rewrite (c_int_Ok (m * 10 + _)) by lia. run.
  replace (m * 10 + (48 + d) - 48) with (m * 10 + d) by lia. rewrite c_int_Ok by lia. run. apply IH; [lia|done].
Qed.

(** printing a number and reading it back.  Both [printint] functions print
    every [int] above [INT_MIN] without overrunning their buffer, as an
    optional minus sign and the digits of its absolute value without leading
    zeros; and [atoi] of the user library returns the number that was printed,
    for every number below [2^31 - 48] (above it [atoi] overflows while adding a
    character code). *)
Theorem printint_roundtrip n rest : - 2 ^ 31 < n < 2 ^ 31 ->
  (forall base, base = 10 \/ base = 16 ->
    (exists out, UserPrint.printint n base 1 = Ok out /\ number digits_upper base n out) /\
    (exists out, KernelPrint.printint n base 1 = Ok out /\ number digits_lower base n out)) /\
  (0 <= n < 2 ^ 31 - 48 ->
    exists out, UserPrint.printint n 10 1 = Ok out /\ User.atoi (out ++ 0 :: rest) = Ok n).
Proof.
  intros Hn. split.
  - intros base Hb. split; [by apply user_printint_signed|by apply kernel_printint_signed].
  - intros Hpos. destruct (user_printint_signed n 10 ltac:(by left) Hn) as (out & Ho & ds & Hd & Hout).
    exists out. split; [done|]. rewrite (proj2 (Z.ltb_ge _ _)) in Hout by lia. cbn [app] in Hout. subst out.
    pose proof (do_value _ _ _ Hd) as Hv. rewrite Z.abs_eq in Hv by lia. unfold User.atoi, horner in *.
    rewrite (atoi_digits digits_upper); [by rewrite Hv|by left| |lia|rewrite Hv; lia].
    apply Forall_reverse, (do_range _ _ _ Hd).
Qed.

Lemma printint_roundtrip_witness :
  (UserPrint.printint 1234 10 1 = Ok [49; 50; 51; 52] /\ UserPrint.printint (-26) 16 1 = Ok [45; 49; 65]) /\
  exists out, UserPrint.printint 1234 10 1 = Ok out /\ User.atoi (out ++ [0]) = Ok 1234.
Proof.
  split; [split; vm_compute; reflexivity|].
  exact (proj2 (printint_roundtrip 1234 [] ltac:(lia)) ltac:(lia)).
Defined.

(** [atoi] overflows on the largest [int]. *)
Lemma atoi_max_overflows :
  UserPrint.printint 2147483647 10 1 = Ok [50; 49; 52; 55; 52; 56; 51; 54; 52; 55] /\
  User.atoi [50; 49; 52; 55; 52; 56; 51; 54; 52; 55; 0] = Stuck IntOverflow.
Proof. split; vm_compute; reflexivity. Qed.

(** ** The two format interpreters *)

(** No [%x], [%p] or [%c], on which they differ. *)
Fixpoint common_format (fmt : list Z) : Prop :=
  match fmt with
  | [] => True
  | c :: fmt' =>
      if c =? 37 then
        match fmt' with
        | [] => True
        | c2 :: fmt'' => c2 <> 120 /\ c2 <> 112 /\ c2 <> 99 /\ common_format fmt''
        end
      else common_format fmt'
  end.

Lemma digit_loop_decimal fuel : forall x buf,
  digit_loop digits_upper fuel x 10 buf = digit_loop digits_lower fuel x 10 buf.
Proof.
  induction fuel as [|fuel IH]; intros x buf; [done|]. cbn [digit_loop].
  pose proof (Z.mod_pos_bound x 10 ltac:(lia)) as Hm.
  rewrite !glyph_aget by (done || lia). rewrite !glyph_decimal by (auto || lia). run.
  destruct (put_buf buf _); run; [|done]. destruct (negb _); [apply IH|done].
Qed.

Lemma printint_decimal a : UserPrint.printint a 10 1 = KernelPrint.printint a 10 1.
Proof.
  unfold UserPrint.printint, KernelPrint.printint. cbn [Z.eqb negb andb].
  destruct (a <? 0); cbn [Z.eqb negb]; [destruct (c_int (- a)); run; [|done]|run]; by rewrite digit_loop_decimal.
Qed.

(** the user's [printf] and the kernel's [cprintf] are two implementations
    of one language: on every format without [%x], [%p] and [%c] (hexadecimal
    digits differ in case, and [cprintf] has no [%c]) and every argument list
    they print the same characters, or both go wrong. *)
Theorem printf_cprintf strings fmt ap : common_format fmt -> printf strings fmt 0 ap = cprintf strings fmt ap.
Proof.
  assert (forall n fmt ap, (length fmt <= n)%nat -> common_format fmt ->
    printf strings fmt 0 ap = cprintf strings fmt ap) as H; [|by eapply H].
  clear fmt ap. induction n as [|n IH]; intros [|c fmt] ap Hl Hc; cbn [length] in Hl; try done; [lia|].
  cbn [printf cprintf common_format] in *. destruct (c =? 0); [done|]. cbn [Z.eqb].
  destruct (c =? 37); cbn [negb].
  2:{ rewrite (IH fmt ap); [done|lia|done]. }
  destruct fmt as [|c2 fmt]; [done|]. destruct Hc as (H1 & H2 & H3 & Hc). cbn [length] in Hl. cbn [printf].
  destruct (c2 =? 0); [done|]. cbn [Z.eqb]. rewrite (proj2 (Z.eqb_neq c2 120)), (proj2 (Z.eqb_neq c2 112)) by done.
  rewrite (proj2 (Z.eqb_neq c2 99)) by done. cbn [orb].
  destruct (c2 =? 100).
  { destruct (next_arg ap) as [[a ap']|]; run; [|done]. rewrite printint_decimal.
    destruct (KernelPrint.printint _ _ _); run; [|done]. rewrite (IH fmt ap'); [done|lia|done]. }
  destruct (c2 =? 115).
  { destruct (next_arg ap) as [[a ap']|]; run; [|done].
    destruct (put_str_arg strings a); run; [|done]. rewrite (IH fmt ap'); [done|lia|done]. }
  destruct (Z.eqb_spec c2 37) as [->|]; run; (rewrite (IH fmt ap); [done|lia|done]).
Qed.

(** ["%d: %s%%"] with the arguments 42 and a string. *)
Definition demo_format : list Z := [37; 100; 58; 32; 37; 115; 37; 37; 0].
Definition demo_strings (a : Z) : list Z := [104; 105; 0].

Lemma printf_cprintf_witness :
  printf demo_strings demo_format 0 [42; 4096] = cprintf demo_strings demo_format [42; 4096] /\
  printf demo_strings demo_format 0 [42; 4096] = Ok [52; 50; 58; 32; 104; 105; 37].
Proof.
  split; [|vm_compute; reflexivity]. apply (printf_cprintf demo_strings demo_format [42; 4096]). cbn. lia.
Defined.
