(* ===== verification/Xv6Console.v ===== *)
(** The console of xv6 (src/설계 3번/xv6/console.c): the screen, the input buffer
    with its line editing, and reading and writing the console.

    [cons.lock] is held by [consoleintr] for the whole call and by
    [consoleread] between two sleeps, so each is one step here; [read_run] is
    such a section of [consoleread].  The cursor position, which the code keeps
    in registers of the display, is part of the screen.  The locks of the inode
    and the case that another CPU has panicked are left out.

    The specification of the input is a queue of bytes that may be read and the
    line being edited ([typed], [read_queue]). *)

From S2P Require Import Prelude Bytes.

(** ** The screen *)

Definition BACKSPACE : Z := 256.

Record cga := Cga { crt : list Z; cursor : Z }.

Definition cgaputc (g : cga) (c : Z) : res cga :=
  let pos := cursor g in
  '(crt, pos) ←
    (if c =? 10 then Ok (crt g, pos + (80 - pos mod 80))
     else if c =? BACKSPACE then Ok (crt g, if pos >? 0 then pos - 1 else pos)
     else crt ← aset (crt g) pos (Z.lor (Z.land c 255) 1792); Ok (crt, pos + 1));
  if (pos <? 0) || (pos >? 25 * 80) then Stuck Panicked
  else
    '(crt, pos) ←
      (if pos / 80 >=? 24 then
         rows ← buf_load crt 80 (23 * 80);
         crt ← buf_store crt 0 rows;
         let pos := pos - 80 in
         crt ← buf_store crt pos (replicate (Z.to_nat (24 * 80 - pos)) 0);
         Ok (crt, pos)
       else Ok (crt, pos));
    crt ← aset crt pos (Z.lor 32 1792);
    Ok (Cga crt pos).

(** ** Input *)

Definition INPUT_BUF : Z := 128.

Record input := Input { ibuf : list Z; ir : Z; iw : Z; ie : Z }.

Definition set_e (e : Z) (i : input) : input := Input (ibuf i) (ir i) (iw i) e.
Definition set_w (w : Z) (i : input) : input := Input (ibuf i) (ir i) w (ie i).
Definition set_r (r : Z) (i : input) : input := Input (ibuf i) r (iw i) (ie i).
Definition set_ibuf (b : list Z) (i : input) : input := Input b (ir i) (iw i) (ie i).

(** The console with what went out on the serial line. *)
Record console := Console { inp : input; scr : cga; uart : list Z }.

Definition set_inp (i : input) (k : console) : console := Console i (scr k) (uart k).

Definition consputc (k : console) (c : Z) : res console :=
  let out := if c =? BACKSPACE then [8; 32; 8] else [c] in
  g ← cgaputc (scr k) c;
  Ok (Console (inp k) g (uart k ++ out)).

(** [C('x')]. *)
Definition CTRL_D : Z := 4.
Definition CTRL_H : Z := 8.
Definition CTRL_P : Z := 16.
Definition CTRL_U : Z := 21.

Fixpoint kill_line (fuel : nat) (k : console) : res console :=
  match fuel with
  | O => Stuck OutOfFuel
  | S fuel' =>
      let i := inp k in
      if negb (ie i =? iw i) then
        b ← aget (ibuf i) (u32 (ie i - 1) mod INPUT_BUF);
        if negb (b =? 10) then
          k ← consputc (set_inp (set_e (u32 (ie i - 1)) i) k) BACKSPACE;
          kill_line fuel' k
        else Ok k
      else Ok k
  end.

(** One character of [consoleintr]: the console, whether the readers are woken
    up and whether the processes are listed. *)
Definition intr_char (k : console) (c : Z) : res (console * bool * bool) :=
  let i := inp k in
  if c =? CTRL_P then Ok (k, false, true)
  else if c =? CTRL_U then k ← kill_line (S (Z.to_nat (u32 (ie i - iw i)))) k; Ok (k, false, false)
  else if (c =? CTRL_H) || (c =? 127) then
    if negb (ie i =? iw i) then
      k ← consputc (set_inp (set_e (u32 (ie i - 1)) i) k) BACKSPACE;
      Ok (k, false, false)
    else Ok (k, false, false)
  else if negb (c =? 0) && (u32 (ie i - ir i) <? INPUT_BUF) then
    let c := if c =? 13 then 10 else c in
    b ← aset (ibuf i) (ie i mod INPUT_BUF) c;
    let i := set_e (u32 (ie i + 1)) (set_ibuf b i) in
    k ← consputc (set_inp i k) c;
    if (c =? 10) || (c =? CTRL_D) || (ie i =? u32 (ir i + INPUT_BUF)) then
      Ok (set_inp (set_w (ie i) i) k, true, false)
    else Ok (k, false, false)
  else Ok (k, false, false).

(** [consoleintr] with the characters that [getc] delivers before it returns
    a negative number. *)
Fixpoint consoleintr (k : console) (cs : list Z) (woken doprocdump : bool) : res (console * bool * bool) :=
  match cs with
  | [] => Ok (k, woken, doprocdump)
  | c :: cs' =>
      '(k, w, p) ← intr_char k c;
      consoleintr k cs' (woken || w) (doprocdump || p)
  end.

(** ** Reading and writing *)

Inductive rstop := RReturn (r : Z) | RSleep (n : Z).

(** A section of [consoleread], [n] bytes of [target] being still wanted:
    the bytes it delivers and how it ends. *)
Fixpoint read_run (fuel : nat) (killed : bool) (i : input) (n target : Z) : res (input * list Z * rstop) :=
  match fuel with
  | O => Stuck OutOfFuel
  | S fuel' =>
      if n >? 0 then
        if ir i =? iw i then
          if killed then Ok (i, [], RReturn (-1)) else Ok (i, [], RSleep n)
        else
          c ← aget (ibuf i) (ir i mod INPUT_BUF);
          let i := set_r (u32 (ir i + 1)) i in
          if c =? CTRL_D then
            let i := if n <? target then set_r (u32 (ir i - 1)) i else i in
            Ok (i, [], RReturn (target - n))
          else if c =? 10 then Ok (i, [c], RReturn (target - (n - 1)))
          else
            '(i, d, st) ← read_run fuel' killed i (n - 1) target;
            Ok (i, c :: d, st)
      else Ok (i, [], RReturn (target - n))
  end.

Definition consoleread (killed : bool) (i : input) (n target : Z) : res (input * list Z * rstop) :=
  read_run (S (Z.to_nat n)) killed i n target.

Fixpoint consolewrite (k : console) (buf : list Z) : res console :=
  match buf with
  | [] => Ok k
  | c :: buf' => k ← consputc k (Z.land c 255); consolewrite k buf'
  end.

(** ** The screen stays in its bounds *)

Record screen_ok (g : cga) : Prop := ScreenOk {
  so_crt : (24 * 80 <= length (crt g))%nat;
  so_cursor : 0 <= cursor g < 24 * 80 }.

Lemma cgaputc_ok g c : screen_ok g -> exists g', cgaputc g c = Ok g' /\ screen_ok g' /\ length (crt g') = length (crt g).
Proof.
  intros [Hl Hp]. unfold cgaputc.
  set (m := if c =? 10 then _ else _).
  assert (Hm : exists t pos, m = Ok (t, pos) /\ length t = length (crt g) /\ 0 <= pos <= 24 * 80).
  { unfold m. destruct (c =? 10); [|destruct (c =? BACKSPACE)].
    - eexists _, _. split; [done|]. split; [done|]. Z.div_mod_to_equations. lia.
    - eexists _, _. split; [done|]. split; [done|]. destruct (Z.gtb_spec (cursor g) 0); lia.
    - rewrite aset_Ok by lia. run. eexists _, _. split; [done|]. rewrite length_insert. lia. }
  clearbody m. destruct Hm as (t & pos & -> & Ht & Hpos). run.
  rewrite (proj2 (Z.ltb_ge _ _)), Z.gtb_ltb, (proj2 (Z.ltb_ge _ _)) by lia. cbn [orb].
  rewrite Z.geb_leb. destruct (Z.leb_spec 24 (pos / 80)) as [Hs|Hs].
  - assert (pos = 24 * 80) as -> by (Z.div_mod_to_equations; lia).
    rewrite buf_load_Ok by lia. run. set (rows := take _ _).
    assert (Hr : length rows = Z.to_nat (23 * 80)) by (unfold rows; rewrite length_take, length_drop; lia).
    rewrite buf_store_Ok by lia. run. fold (splice (Z.to_nat 0) rows t).
    assert (Hsp : length (splice (Z.to_nat 0) rows t) = length t) by (apply length_splice; lia).
    rewrite buf_store_Ok by (rewrite ?length_replicate, ?Hsp; lia). run.
    set (z := replicate _ _). fold (splice (Z.to_nat (24 * 80 - 80)) z (splice (Z.to_nat 0) rows t)).
    assert (Hz : length z = 80%nat) by apply length_replicate.
    assert (Hsp2 : length (splice (Z.to_nat (24 * 80 - 80)) z (splice (Z.to_nat 0) rows t)) = length t)
      by (rewrite length_splice; [done|]; rewrite Hz, Hsp; lia).
    rewrite aset_Ok by (rewrite Hsp2; lia). run. eexists. split; [done|]. cbn.
    rewrite length_insert, Hsp2. split; [|done]. constructor; cbn; [rewrite length_insert; lia|lia].
  - run. assert (pos < 24 * 80) by (Z.div_mod_to_equations; lia). rewrite aset_Ok by lia. run.
    eexists. split; [done|]. cbn. rewrite length_insert. split; [|done]. constructor; cbn; [rewrite length_insert|]; lia.
Qed.

Lemma consputc_ok k c : screen_ok (scr k) ->
  exists k', consputc k c = Ok k' /\ screen_ok (scr k') /\ inp k' = inp k.
Proof.
  intros Hs. unfold consputc. destruct (cgaputc_ok _ c Hs) as (g & -> & Hg & _). run. eauto.
Qed.

(** ** The input as a queue and a line *)

Record input_view (i : input) (ready line : list Z) : Prop := InputView {
  iv_len : length (ibuf i) = Z.to_nat INPUT_BUF;
  iv_r : 0 <= ir i < 2 ^ 32;
  iv_w : iw i = u32 (ir i + Z.of_nat (length ready));
  iv_e : ie i = u32 (ir i + Z.of_nat (length (ready ++ line)));
  iv_room : (length (ready ++ line) <= Z.to_nat INPUT_BUF)%nat;
  iv_full : length (ready ++ line) = Z.to_nat INPUT_BUF -> line = [];
  iv_line : Forall (fun c => c <> 10 /\ c <> CTRL_D) line;
  iv_bytes : forall (n : nat) x, (ready ++ line) !! n = Some x ->
    ibuf i !! Z.to_nat ((ir i + Z.of_nat n) mod INPUT_BUF) = Some x }.

(** A key is typed. *)
Definition typed (t : list Z * list Z) (c : Z) : list Z * list Z :=
  let '(ready, line) := t in
  if c =? CTRL_P then t
  else if c =? CTRL_U then (ready, [])
  else if (c =? CTRL_H) || (c =? 127) then (ready, take (length line - 1) line)
  else if negb (c =? 0) && (Z.of_nat (length (ready ++ line)) <? INPUT_BUF) then
    let c := if c =? 13 then 10 else c in
    if (c =? 10) || (c =? CTRL_D) || (Z.of_nat (length (ready ++ line)) + 1 =? INPUT_BUF)
    then (ready ++ line ++ [c], [])
    else (ready, line ++ [c])
  else t.

(** Reading up to [n] bytes; [some] says that bytes were read before.  The
    bytes delivered, the bytes left and whether the reader has to wait. *)
Fixpoint read_queue (q : list Z) (n : nat) (some : bool) {struct n} : list Z * list Z * bool :=
  match n with
  | O => ([], q, false)
  | S n' =>
      match q with
      | [] => ([], [], true)
      | c :: q' =>
          if c =? CTRL_D then ([], if some then q else q', false)
          else if c =? 10 then ([c], q', false)
          else let '(d, rest, waits) := read_queue q' n' true in (c :: d, rest, waits)
      end
  end.

Ltac ring_lia :=
  unfold u32, INPUT_BUF in *; change (2 ^ 32) with 4294967296 in *;
  Z.div_mod_to_equations; lia.

(** The indices wrap at [2^32], a multiple of the size of the buffer. *)
Lemma slot_of r n : 0 <= r < 2 ^ 32 -> u32 (r + n) mod INPUT_BUF = (r + n) mod INPUT_BUF.
Proof. intros. ring_lia. Qed.

Lemma view_push i ready line c : input_view i ready line -> (length (ready ++ line) < Z.to_nat INPUT_BUF)%nat ->
  exists b, aset (ibuf i) (ie i mod INPUT_BUF) c = Ok b /\ length b = Z.to_nat INPUT_BUF /\
    forall n x, (ready ++ line ++ [c]) !! n = Some x -> b !! Z.to_nat ((ir i + Z.of_nat n) mod INPUT_BUF) = Some x.
Proof.
  intros [Hl Hr Hw He Hroom Hfull Hline Hb] Hf. set (f := length (ready ++ line)) in *.
  rewrite He, slot_of by done. pose proof (Z.mod_pos_bound (ir i + Z.of_nat f) INPUT_BUF ltac:(done)) as Hm.
  rewrite aset_Ok by (rewrite Hl; unfold INPUT_BUF in *; lia). eexists. split; [done|].
  split; [by rewrite length_insert|]. intros n x. rewrite app_assoc. intros Hn.
  destruct (decide (n = f)) as [->|Hne].
  - rewrite lookup_app_r, Nat.sub_diag in Hn by done. injection Hn as <-.
    apply list_lookup_insert_eq. rewrite Hl. unfold INPUT_BUF in *. lia.
  - assert (Hlt : (n < f)%nat).
    { apply lookup_lt_Some in Hn. rewrite length_app in Hn. cbn in Hn. unfold f in *. lia. }
    rewrite lookup_app_l in Hn by done. rewrite list_lookup_insert_ne; [by apply Hb|].
    unfold INPUT_BUF in *. Z.div_mod_to_equations. lia.
Qed.

(** Removing the last character of the line. *)
Lemma view_pop i ready line : input_view i ready line -> line <> [] ->
  input_view (set_e (u32 (ie i - 1)) i) ready (take (length line - 1) line).
Proof.
  intros [Hl Hr Hw He Hroom Hfull Hline Hb] Hne.
  assert (0 < length line)%nat by (destruct line; [done|cbn; lia]).
  rewrite length_app in *. constructor; cbn; try done; rewrite ?length_app, ?length_take.
  - rewrite He. ring_lia.
  - lia.
  - lia.
  - by apply Forall_take.
  - intros n x Hn. apply Hb. destruct (decide (n < length ready)%nat).
    + rewrite lookup_app_l in * by done. done.
    + rewrite lookup_app_r in * by lia. apply lookup_take_Some in Hn as [? _]. done.
Qed.

Lemma view_empty_line i ready line : input_view i ready line -> (ie i =? iw i) = bool_decide (line = []).
Proof.
  intros [Hl Hr Hw He Hroom Hfull Hline Hb]. rewrite length_app in *. rewrite He, Hw.
  destruct line as [|c line]; [rewrite bool_decide_true by done; apply Z.eqb_eq; cbn; f_equal; lia|].
  rewrite bool_decide_false by done. apply Z.eqb_neq. cbn in *. ring_lia.
Qed.

Lemma kill_line_spec fuel : forall k ready line, input_view (inp k) ready line -> screen_ok (scr k) ->
  (length line < fuel)%nat ->
  exists k', kill_line fuel k = Ok k' /\ input_view (inp k') ready [] /\ screen_ok (scr k').
Proof.
  induction fuel as [|fuel IH]; intros k ready line Hv Hs Hf; [lia|]. cbn [kill_line].
  rewrite (view_empty_line _ _ _ Hv). case_bool_decide as Hl; cbn [negb].
  { subst line. eauto. }
  assert (Hpos : (0 < length line)%nat) by (destruct line; [done|cbn; lia]).
  assert (Hlast : is_Some ((ready ++ line) !! (length (ready ++ line) - 1)%nat)).
  { apply lookup_lt_is_Some. rewrite length_app. lia. }
  destruct Hlast as [x Hx]. pose proof (iv_bytes _ _ _ Hv _ _ Hx) as Hbx.
  pose proof (iv_e _ _ _ Hv) as He. pose proof (iv_r _ _ _ Hv) as Hr.
  assert (Hslot : u32 (ie (inp k) - 1) mod INPUT_BUF =
    (ir (inp k) + Z.of_nat (length (ready ++ line) - 1)) mod INPUT_BUF).
  { rewrite He, length_app. ring_lia. }
  rewrite Hslot. assert (Hget : forall a, (0 <=? a mod INPUT_BUF) = true).
  { intros a. apply Z.leb_le, Z.mod_pos_bound. done. }
  unfold aget. rewrite Hget, Hbx. run.
  assert (Hx10 : x <> 10).
  { rewrite length_app, lookup_app_r in Hx by lia. apply list_elem_of_lookup_2 in Hx.
    pose proof (iv_line _ _ _ Hv) as Hall. rewrite Forall_forall in Hall. by apply Hall. }
  rewrite (proj2 (Z.eqb_neq _ _)) by done. cbn [negb].
  destruct (consputc_ok (set_inp (set_e (u32 (ie (inp k) - 1)) (inp k)) k) BACKSPACE Hs) as (k1 & -> & Hs1 & Hi1). run.
  destruct (IH k1 ready (take (length line - 1) line)) as (k' & -> & ? & ?); [|done|rewrite length_take; lia|eauto].
  rewrite Hi1. by apply view_pop.
Qed.

Lemma view_line_length i ready line : input_view i ready line -> Z.to_nat (u32 (ie i - iw i)) = length line.
Proof. intros [Hl Hr Hw He Hroom Hfull Hline Hb]. rewrite length_app in *. rewrite He, Hw. ring_lia. Qed.

Lemma view_fill i ready line : input_view i ready line -> u32 (ie i - ir i) = Z.of_nat (length (ready ++ line)).
Proof. intros [Hl Hr Hw He Hroom Hfull Hline Hb]. rewrite He. ring_lia. Qed.

Lemma intr_char_spec k c ready line : input_view (inp k) ready line -> screen_ok (scr k) ->
  exists k' woken dump, intr_char k c = Ok (k', woken, dump) /\ screen_ok (scr k') /\
    input_view (inp k') (typed (ready, line) c).1 (typed (ready, line) c).2 /\
    (woken = false -> (typed (ready, line) c).1 = ready).
Proof.
  intros Hv Hs. unfold intr_char, typed. rewrite (view_line_length _ _ _ Hv), (view_fill _ _ _ Hv).
  rewrite (view_empty_line _ _ _ Hv).
  destruct (c =? CTRL_P); [eauto 10|]. destruct (c =? CTRL_U).
  { destruct (kill_line_spec (S (length line)) k ready line Hv Hs ltac:(lia)) as (k' & -> & ? & ?). run. eauto 10. }
  destruct ((c =? CTRL_H) || (c =? 127)).
  { case_bool_decide as Hl; cbn [negb]; [subst line; eauto 10|].
    destruct (consputc_ok (set_inp (set_e (u32 (ie (inp k) - 1)) (inp k)) k) BACKSPACE Hs) as (k1 & -> & Hs1 & Hi1). run.
    exists k1, false, false. split; [done|]. split; [done|]. split; [|done]. rewrite Hi1. by apply view_pop. }
  destruct (negb (c =? 0)); cbn [andb]; [|eauto 10].
  destruct (Z.ltb_spec (Z.of_nat (length (ready ++ line))) INPUT_BUF) as [Hlt|Hge]; [|eauto 10].
  set (c' := if c =? 13 then 10 else c). clearbody c'.
  destruct (view_push _ _ _ c' Hv ltac:(unfold INPUT_BUF in *; lia)) as (b & -> & Hbl & Hb). run.
  set (i1 := set_e _ _). destruct (consputc_ok (set_inp i1 k) c' Hs) as (k1 & -> & Hs1 & Hi1). run.
  change (inp (set_inp i1 k)) with i1 in Hi1.
  destruct Hv as [Hl Hr Hw He Hroom Hfull Hline Hold]. rewrite length_app in *.
  assert (He1 : ie i1 = u32 (ir i1 + Z.of_nat (length (ready ++ line ++ [c'])))).
  { cbn. rewrite He, !length_app. cbn. ring_lia. }
  assert (Hlast : (ie i1 =? u32 (ir i1 + INPUT_BUF)) = (Z.of_nat (length ready + length line) + 1 =? INPUT_BUF)).
  { rewrite He1, !length_app. cbn [length]. change (ir i1) with (ir (inp k)).
    destruct (Z.eqb_spec (Z.of_nat (length ready + length line) + 1) INPUT_BUF) as [Heq|Hne];
      [apply Z.eqb_eq|apply Z.eqb_neq]; ring_lia. }
  assert (Hib : ibuf i1 = b /\ ir i1 = ir (inp k) /\ iw i1 = iw (inp k)) by done.
  clearbody i1. destruct Hib as (Hib & Hir & Hiw).
  rewrite Hlast. destruct ((c' =? 10) || (c' =? CTRL_D) || _) eqn:Ec.
  - eexists _, true, false. split; [done|]. split; [done|]. split; [|done]. cbn [fst snd inp set_inp].
    constructor; cbn [ibuf ir iw ie set_w]; rewrite ?app_nil_r, ?Hib, ?He1, ?Hir; try done.
    rewrite !length_app. cbn [length]. unfold INPUT_BUF in *. lia.
  - apply orb_false_iff in Ec as [Ec E3]. apply orb_false_iff in Ec as [E1 E2]. zbool.
    eexists k1, false, false. split; [done|]. split; [done|]. split; [|done]. cbn [fst snd]. rewrite Hi1.
    constructor; rewrite ?Hib, ?Hiw, ?He1, ?Hir; try done; rewrite ?length_app; cbn [length].
    + unfold INPUT_BUF in *. lia.
    + unfold INPUT_BUF in *. lia.
    + apply Forall_app. split; [done|]. by constructor.
Qed.

Lemma consoleintr_spec cs : forall k ready line woken dump, input_view (inp k) ready line -> screen_ok (scr k) ->
  exists k' woken' dump', consoleintr k cs woken dump = Ok (k', woken', dump') /\ screen_ok (scr k') /\
    input_view (inp k') (foldl typed (ready, line) cs).1 (foldl typed (ready, line) cs).2 /\
    (woken' = false -> woken = false /\ (foldl typed (ready, line) cs).1 = ready).
Proof.
  induction cs as [|c cs IH]; intros k ready line woken dump Hv Hs; cbn [consoleintr foldl]; [eauto 10|].
  destruct (intr_char_spec k c ready line Hv Hs) as (k1 & w1 & d1 & -> & Hs1 & Hv1 & Hw1). run.
  destruct (typed (ready, line) c) as [ready1 line1]. cbn in Hv1, Hw1.
  destruct (IH k1 ready1 line1 (woken || w1) (dump || d1) Hv1 Hs1) as (k' & w' & d' & -> & Hs' & Hv' & Hw').
  exists k', w', d'. split; [done|]. split; [done|]. split; [done|]. intros Hf. destruct (Hw' Hf) as [Hor Hr].
  apply orb_false_iff in Hor as [-> ->]. split; [done|]. by rewrite Hr, Hw1.
Qed.

(** ** Reading *)

Lemma view_take i c ready line : input_view i (c :: ready) line ->
  aget (ibuf i) (ir i mod INPUT_BUF) = Ok c /\ (ir i =? iw i) = false /\
  input_view (set_r (u32 (ir i + 1)) i) ready line.
Proof.
  intros [Hl Hr Hw He Hroom Hfull Hline Hb]. cbn [length app] in *. split; [|split].
  - specialize (Hb 0%nat c eq_refl). change (Z.of_nat 0) with 0 in Hb. rewrite Z.add_0_r in Hb.
    apply aget_Ok. split; [apply Z.mod_pos_bound; done|done].
  - apply Z.eqb_neq. rewrite Hw. rewrite length_app in Hroom. ring_lia.
  - constructor; cbn [ibuf ir iw ie set_r]; try done.
    + ring_lia.
    + rewrite Hw. ring_lia.
    + rewrite He. ring_lia.
    + lia.
    + lia.
    + intros n x Hn. specialize (Hb (S n) x Hn). rewrite <- Hb. do 2 f_equal. ring_lia.
Qed.

Lemma view_empty i line : input_view i [] line -> (ir i =? iw i) = true.
Proof. intros [Hl Hr Hw _ _ _ _ _]. apply Z.eqb_eq. rewrite Hw. cbn. ring_lia. Qed.

Lemma read_run_spec killed target : forall fuel i ready line n, input_view i ready line -> 0 <= n <= target ->
  (Z.to_nat n < fuel)%nat ->
  let '(d, rest, waits) := read_queue ready (Z.to_nat n) (n <? target) in
  exists i', read_run fuel killed i n target =
    Ok (i', d, if waits : bool then if killed then RReturn (-1) else RSleep (n - Z.of_nat (length d))
               else RReturn (target - n + Z.of_nat (length d))) /\
    input_view i' rest line.
Proof.
  induction fuel as [|fuel IH]; intros i ready line n Hv Hn Hf; [lia|]. cbn [read_run].
  destruct (Z.gtb_spec n 0) as [Hpos|Hz].
  2:{ assert (n = 0) as -> by lia. cbn [Z.to_nat read_queue length Z.of_nat]. exists i. split; [|done].
      cbn. by rewrite Z.add_0_r. }
  destruct (Z.to_nat n) as [|n'] eqn:En; [lia|]. cbn [read_queue].
  destruct ready as [|c ready].
  { rewrite (view_empty _ _ Hv). exists i. split; [|done]. cbn [length Z.of_nat]. rewrite Z.sub_0_r. by destruct killed. }
  destruct (view_take _ _ _ _ Hv) as (Hg & -> & Hv'). rewrite Hg. run.
  destruct (c =? CTRL_D).
  { eexists. split; [cbn [length Z.of_nat]; by rewrite Z.add_0_r|]. destruct (n <? target); [|done].
    cbn [ir set_r ibuf iw ie]. replace (set_r _ _) with i; [done|].
    destruct i as [b r w e]. unfold set_r. cbn in *. f_equal. destruct Hv as [_ Hr _ _ _ _ _ _]. cbn in Hr. ring_lia. }
  destruct (c =? 10).
  { eexists. split; [cbn [length]; repeat first [lia|f_equal]|done]. }
  specialize (IH _ ready line (n - 1) Hv' ltac:(lia) ltac:(lia)).
  replace (Z.to_nat (n - 1)) with n' in IH by lia. rewrite (proj2 (Z.ltb_lt (n - 1) target)) in IH by lia.
  destruct (read_queue ready n' true) as [[d rest] waits]. destruct IH as (i' & -> & Hv2). run.
  exists i'. split; [|done]. cbn [length]. destruct waits; [destruct killed|]; repeat first [done|lia|f_equal].
Qed.

Lemma consolewrite_spec buf : forall k, screen_ok (scr k) ->
  exists k', consolewrite k buf = Ok k' /\ screen_ok (scr k') /\ inp k' = inp k.
Proof.
  induction buf as [|c buf IH]; intros k Hs; cbn [consolewrite]; [eauto|].
  destruct (consputc_ok k (Z.land c 255) Hs) as (k1 & -> & Hs1 & Hi1). run.
  destruct (IH k1 Hs1) as (k' & -> & ? & Hi). rewrite Hi1 in Hi. eauto.
Qed.

(** the console implements a queue of bytes and an editable line.  In every
    state that shows a queue and a line (with the indices anywhere in the range
    of [uint], also about to wrap): [consoleintr] handles any keys without a
    fault, has exactly the effect of typing them ([typed]) and wakes the readers
    whenever something was added to the queue; a section of [consoleread] takes
    from the queue what [read_queue] says and sleeps exactly when it runs empty;
    [consolewrite] never runs off the screen. *)
Theorem console_queue k ready line : input_view (inp k) ready line -> screen_ok (scr k) ->
  (forall cs, exists k' woken dump, consoleintr k cs false false = Ok (k', woken, dump) /\ screen_ok (scr k') /\
     input_view (inp k') (foldl typed (ready, line) cs).1 (foldl typed (ready, line) cs).2 /\
     (woken = false -> (foldl typed (ready, line) cs).1 = ready)) /\
  (forall killed n target, 0 <= n <= target ->
     let '(d, rest, waits) := read_queue ready (Z.to_nat n) (n <? target) in
     exists i', consoleread killed (inp k) n target =
       Ok (i', d, if waits : bool then if killed then RReturn (-1) else RSleep (n - Z.of_nat (length d))
                  else RReturn (target - n + Z.of_nat (length d))) /\
       input_view i' rest line) /\
  (forall buf, exists k', consolewrite k buf = Ok k' /\ screen_ok (scr k') /\ inp k' = inp k).
Proof.
  intros Hv Hs. split; [|split].
  - intros cs. destruct (consoleintr_spec cs k ready line false false Hv Hs) as (k' & w & d & ? & ? & ? & Hw).
    exists k', w, d. split_and!; try done. intros Hf. by apply Hw.
  - intros killed n target Hn. apply (read_run_spec killed target (S (Z.to_nat n)) (inp k) ready line n Hv Hn). lia.
  - intros buf. by apply consolewrite_spec.
Qed.

(** An empty console whose indices are about to wrap. *)
Definition demo_console : console :=
  Console (Input (replicate 128 0) 4294967294 4294967294 4294967294) (Cga (replicate 2000 0) 1919) [].

Lemma demo_view : input_view (inp demo_console) [] [].
Proof. constructor; cbn; try done; try lia. Qed.

Lemma demo_screen : screen_ok (scr demo_console).
Proof. constructor; cbn; [apply Nat.leb_le; vm_compute; reflexivity|lia]. Qed.

(** [a], [b], backspace, [c], return. *)
Definition demo_keys : list Z := [97; 98; 8; 99; 13].

Lemma console_queue_witness :
  exists k' woken dump, consoleintr demo_console demo_keys false false = Ok (k', woken, dump) /\
    screen_ok (scr k') /\ input_view (inp k') [97; 99; 10] [] /\ (woken = false -> [97; 99; 10] = []).
Proof. exact (proj1 (console_queue demo_console [] [] demo_view demo_screen) demo_keys). Defined.

(** ** Lines *)

(** What editing keys make of a line. *)
Definition edit_key (l : list Z) (c : Z) : list Z :=
  if c =? CTRL_U then []
  else if (c =? CTRL_H) || (c =? 127) then take (length l - 1) l
  else if (c =? CTRL_P) || (c =? 0) then l
  else l ++ [c].

Definition ends_line (c : Z) : Prop := c = 10 \/ c = 13 \/ c = CTRL_D.

Lemma typed_edit c l : ~ ends_line c -> (length l < 127)%nat -> typed ([], l) c = ([], edit_key l c).
Proof.
  intros Hc Hl. unfold typed, edit_key, ends_line, CTRL_D in *. cbn [app]. destruct (Z.eqb_spec c CTRL_P) as [->|Hp]; [done|].
  destruct (c =? CTRL_U); [done|]. destruct ((c =? CTRL_H) || (c =? 127)); [done|]. cbn [orb].
  destruct (Z.eqb_spec c 0) as [->|]; [done|]. cbn [negb andb].
  rewrite (proj2 (Z.ltb_lt _ _)) by (unfold INPUT_BUF; lia).
  rewrite (proj2 (Z.eqb_neq c 13)), (proj2 (Z.eqb_neq c 10)), (proj2 (Z.eqb_neq c 4)) by lia. cbn [orb].
  rewrite (proj2 (Z.eqb_neq _ _)) by (unfold INPUT_BUF; lia). done.
Qed.

Lemma edit_key_length l c : (length (edit_key l c) <= length l + 1)%nat.
Proof.
  unfold edit_key. repeat case_if; cbn; rewrite ?length_take, ?length_app; cbn; lia.
Qed.

Lemma edit_key_plain l c : ~ ends_line c -> Forall (fun x => ~ ends_line x) l -> Forall (fun x => ~ ends_line x) (edit_key l c).
Proof.
  intros Hc Hl. unfold edit_key. repeat case_if; try done; [by apply Forall_take|]. apply Forall_app. split; [done|by constructor].
Qed.

Lemma typed_keys keys : forall l, Forall (fun c => ~ ends_line c) keys -> Forall (fun c => ~ ends_line c) l ->
  (length l + length keys < 127)%nat ->
  foldl typed ([], l) keys = ([], foldl edit_key l keys) /\
  (length (foldl edit_key l keys) < 127)%nat /\ Forall (fun c => ~ ends_line c) (foldl edit_key l keys).
Proof.
  induction keys as [|c keys IH]; intros l Hk Hl Hlen; cbn [foldl length] in *; [split; [done|split; [lia|done]]|].
  apply Forall_cons in Hk as [Hc Hk]. rewrite typed_edit by (done || lia). pose proof (edit_key_length l c).
  apply IH; [done|by apply edit_key_plain|lia].
Qed.

Lemma read_line text : Forall (fun c => ~ ends_line c) text -> forall n some, (length text < n)%nat ->
  read_queue (text ++ [10]) n some = (text ++ [10], [], false).
Proof.
  induction 1 as [|c text Hc _ IH]; intros [|n] some Hn; cbn [length] in Hn; try lia; cbn [app read_queue]; [done|].
  unfold ends_line in Hc. rewrite (proj2 (Z.eqb_neq c CTRL_D)), (proj2 (Z.eqb_neq c 10)) by tauto.
  by rewrite (IH n true) by lia.
Qed.

(** Characters that make up a line wake the readers, and the line is read. *)
Lemma line_read k cs text n : input_view (inp k) [] [] -> screen_ok (scr k) ->
  foldl typed ([], []) cs = (text ++ [10], []) -> Forall (fun c => ~ ends_line c) text -> Z.of_nat (length text) < n ->
  exists k' dump i', consoleintr k cs false false = Ok (k', true, dump) /\
    consoleread false (inp k') n n = Ok (i', text ++ [10], RReturn (Z.of_nat (length text) + 1)) /\
    input_view i' [] [] /\ screen_ok (scr k').
Proof.
  intros Hv Hs Hq Htp Hn. destruct (consoleintr_spec cs k [] [] false false Hv Hs) as (k' & w & dump & Hc & Hs' & Hv' & Hw).
  rewrite Hq in Hv', Hw. cbn [fst snd] in Hv', Hw.
  destruct w; [|destruct (Hw eq_refl) as [_ Hbad]; by destruct text].
  pose proof (read_run_spec false n (S (Z.to_nat n)) (inp k') (text ++ [10]) [] n Hv' ltac:(lia) ltac:(lia)) as Hr.
  rewrite (read_line text Htp) in Hr by lia. destruct Hr as (i' & Hr & Hi').
  exists k', dump, i'. split; [done|]. split; [|done]. unfold consoleread. rewrite Hr.
  rewrite length_app. cbn [length]. repeat first [lia|f_equal].
Qed.

Lemma typed_line keys eol : Forall (fun c => ~ ends_line c) keys -> (length keys < 127)%nat -> eol = 10 \/ eol = 13 ->
  foldl typed ([], []) (keys ++ [eol]) = (foldl edit_key [] keys ++ [10], []) /\
  Forall (fun c => ~ ends_line c) (foldl edit_key [] keys).
Proof.
  intros Hk Hlen Heol. destruct (typed_keys keys [] Hk (Forall_nil_2 _) ltac:(cbn; lia)) as (Ht & Htl & Htp). split; [|done].
  rewrite foldl_app, Ht. cbn [foldl]. unfold typed. cbn [app].
  rewrite (proj2 (Z.eqb_neq eol CTRL_P)), (proj2 (Z.eqb_neq eol CTRL_U)), (proj2 (Z.eqb_neq eol CTRL_H)),
    (proj2 (Z.eqb_neq eol 127)), (proj2 (Z.eqb_neq eol 0)) by (unfold CTRL_P, CTRL_U, CTRL_H; lia). cbn [orb negb andb].
  rewrite (proj2 (Z.ltb_lt _ _)) by (unfold INPUT_BUF; lia). by destruct Heol as [-> | ->].
Qed.

(** a line typed is a line read.  On an idle console, typing up to 126 keys
    (characters, backspaces and line kills, in any order) and return wakes the
    readers, and a read of enough bytes returns exactly the edited line with a
    newline, leaving the console idle again. *)
Theorem console_line k keys eol n : input_view (inp k) [] [] -> screen_ok (scr k) ->
  Forall (fun c => ~ ends_line c) keys -> (length keys < 127)%nat -> eol = 10 \/ eol = 13 ->
  let text := foldl edit_key [] keys in
  Z.of_nat (length text) < n ->
  exists k' dump i', consoleintr k (keys ++ [eol]) false false = Ok (k', true, dump) /\
    consoleread false (inp k') n n = Ok (i', text ++ [10], RReturn (Z.of_nat (length text) + 1)) /\
    input_view i' [] [] /\ screen_ok (scr k').
Proof.
  intros Hv Hs Hk Hlen Heol text Hn. destruct (typed_line keys eol Hk Hlen Heol) as [Hq Htp]. by apply line_read.
Qed.

Lemma console_line_witness :
  exists k' dump i', consoleintr demo_console ([97; 98; 8; 99] ++ [13]) false false = Ok (k', true, dump) /\
    consoleread false (inp k') 100 100 = Ok (i', [97; 99] ++ [10], RReturn (Z.of_nat (length [97; 99]) + 1)) /\
    input_view i' [] [] /\ screen_ok (scr k').
Proof.
  apply (console_line demo_console [97; 98; 8; 99] 13 100); [apply demo_view|apply demo_screen| |cbn; lia|by right|cbn; lia].
  unfold ends_line, CTRL_D. repeat constructor; lia.
Defined.
