(* ===== verification/Xv6Umalloc.v ===== *)
(** The memory allocator of the xv6 user library (src/설계 3번/xv6/umalloc.c):
    [malloc] and [free] on a circular list of free blocks, after Kernighan and
    Ritchie.

    The headers are in the memory they describe.  [ptrs] and [sizes] hold the
    two fields of the headers that have been written, by address; reading a
    field that was never written is a fault.  A block of [n] units starts with
    its header, and a unit is the size of a header, 8 bytes.  [base] is the
    address of the static header, below the heap.  [sbrk] follows sys_sbrk
    (sysproc.c) and [growproc] (proc.c): [brk] is the size of the process and
    [room] says whether the kernel has the pages for a new size. *)

From Stdlib Require Import Sorted.
From S2P Require Import Prelude Bytes Xv6Kalloc.

Definition UNIT : Z := 8.

Record uheap := Uheap { ptrs : gmap Z Z; sizes : gmap Z Z; freep : Z; brk : Z }.

Definition set_ptr (p q : Z) (s : uheap) : uheap := Uheap (<[p := q]> (ptrs s)) (sizes s) (freep s) (brk s).
Definition set_size (p n : Z) (s : uheap) : uheap := Uheap (ptrs s) (<[p := n]> (sizes s)) (freep s) (brk s).
Definition set_freep (p : Z) (s : uheap) : uheap := Uheap (ptrs s) (sizes s) p (brk s).
Definition set_brk (b : Z) (s : uheap) : uheap := Uheap (ptrs s) (sizes s) (freep s) b.

Definition field (m : gmap Z Z) (p : Z) : res Z :=
  match m !! p with Some x => Ok x | None => Stuck Uninitialised end.

(** [p + n] for a [Header *]. *)
Definition padd (p n : Z) : Z := u32 (p + UNIT * n).

Section umalloc.
Context (base : Z) (room : Z -> bool).

(** [sbrk]; the result -1 is [None].  The new size is what [allocuvm] or
    [deallocuvm] return, 0 when they fail. *)
Definition sbrk (s : uheap) (n : Z) : option Z * uheap :=
  let n := s32 n in
  let addr := brk s in
  let newsz := u32 (addr + n) in
  let sz :=
    if n >? 0 then
      if newsz >=? KERNBASE then 0
      else if newsz <? addr then addr
      else if room newsz then newsz else 0
    else if n <? 0 then (if newsz >=? addr then addr else newsz)
    else addr in
  if negb (n =? 0) && (sz =? 0) then (None, s) else (Some addr, set_brk sz s).

(** The loop of [free]: the block after which [bp] belongs. *)
Fixpoint free_loop (fuel : nat) (s : uheap) (bp p : Z) : res Z :=
  match fuel with
  | O => Stuck OutOfFuel
  | S fuel' =>
      q ← field (ptrs s) p;
      if (bp >? p) && (bp <? q) then Ok p
      else if (p >=? q) && ((bp >? p) || (bp <? q)) then Ok p
      else free_loop fuel' s bp q
  end.

(** The list has at most one entry per written pointer. *)
Definition walk_fuel (s : uheap) : nat := S (size (ptrs s)).

Definition free (s : uheap) (ap : Z) : res uheap :=
  let bp := padd ap (-1) in
  p ← free_loop (walk_fuel s) s bp (freep s);
  n ← field (sizes s) bp;
  q ← field (ptrs s) p;
  s ← (if padd bp n =? q then
         m ← field (sizes s) q;
         r ← field (ptrs s) q;
         Ok (set_ptr bp r (set_size bp (u32 (n + m)) s))
       else Ok (set_ptr bp q s));
  k ← field (sizes s) p;
  s ← (if padd p k =? bp then
         n ← field (sizes s) bp;
         r ← field (ptrs s) bp;
         Ok (set_ptr p r (set_size p (u32 (k + n)) s))
       else Ok (set_ptr p bp s));
  Ok (set_freep p s).

Definition morecore (s : uheap) (nu : Z) : res (Z * uheap) :=
  let nu := if nu <? 4096 then 4096 else nu in
  let '(r, s) := sbrk s (u32 (nu * UNIT)) in
  match r with
  | None => Ok (0, s)
  | Some hp =>
      s ← free (set_size hp nu s) (padd hp 1);
      Ok (freep s, s)
  end.

(** The loop of [malloc]. *)
Fixpoint malloc_loop (fuel : nat) (s : uheap) (nunits prevp p : Z) : res (Z * uheap) :=
  match fuel with
  | O => Stuck OutOfFuel
  | S fuel' =>
      n ← field (sizes s) p;
      if n >=? nunits then
        if n =? nunits then
          q ← field (ptrs s) p;
          Ok (padd p 1, set_freep prevp (set_ptr prevp q s))
        else
          let n' := u32 (n - nunits) in
          let p' := padd p n' in
          Ok (padd p' 1, set_freep prevp (set_size p' nunits (set_size p n' s)))
      else
        '(stop, p, s) ←
          (if p =? freep s then '(p, s) ← morecore s nunits; Ok (p =? 0, p, s)
           else Ok (false, p, s));
        if stop : bool then Ok (0, s)
        else
          q ← field (ptrs s) p;
          malloc_loop fuel' s nunits p q
  end.

(** Once around the list, and once more after [morecore]. *)
Definition malloc_fuel (s : uheap) : nat := 2 * size (ptrs s) + 4.

Definition malloc (s : uheap) (nbytes : Z) : res (Z * uheap) :=
  let nunits := u32 (nbytes + UNIT - 1) / UNIT + 1 in
  let s := if freep s =? 0 then set_freep base (set_size base 0 (set_ptr base base s)) else s in
  let prevp := freep s in
  p ← field (ptrs s) prevp;
  malloc_loop (malloc_fuel s) s nunits prevp p.

End umalloc.

(** ** Lists of blocks *)

(** [l] is linked in order, its last element to [z]. *)
Fixpoint links (m : gmap Z Z) (l : list Z) (z : Z) : Prop :=
  match l with
  | [] => True
  | x :: l' => m !! x = Some (default z (head l')) /\ links m l' z
  end.

Lemma links_app m l1 x l2 z : links m (l1 ++ x :: l2) z <-> links m l1 x /\ links m (x :: l2) z.
Proof.
  induction l1 as [|y l1 IH]; cbn [app links]; [naive_solver|]. rewrite IH. cbn [links].
  destruct l1; cbn; naive_solver.
Qed.

Lemma links_other m l z p q : p ∉ l -> links (<[p := q]> m) l z <-> links m l z.
Proof.
  induction l as [|x l IH]; intros Hp; cbn [links]; [done|]. apply not_elem_of_cons in Hp as [Hx Hp].
  rewrite IH, lookup_insert_ne by done. done.
Qed.

Lemma links_next m l z i x : links m l z -> l !! i = Some x -> m !! x = Some (default z (l !! S i)).
Proof.
  revert i. induction l as [|y l IH]; intros i Hl Hi; [done|]. destruct Hl as [Hy Hl].
  destruct i as [|i]; [injection Hi as ->; rewrite Hy; by destruct l|]. by apply IH.
Qed.

Lemma sorted_lt l i j x y : StronglySorted Z.lt l -> l !! i = Some x -> l !! j = Some y -> (i < j)%nat -> x < y.
Proof.
  intros H. revert i j. induction H as [|z l _ IH Hz]; intros i j Hi Hj Hij; [done|].
  destruct j as [|j]; [lia|]. destruct i as [|i].
  - injection Hi as ->. rewrite Forall_forall in Hz. apply Hz. by eapply list_elem_of_lookup_2.
  - by eapply IH; [exact Hi|exact Hj|lia].
Qed.

Lemma sorted_NoDup l : StronglySorted Z.lt l -> NoDup l.
Proof.
  induction 1 as [|z l _ IH Hz]; [constructor|]. constructor; [|done]. intros Hin.
  rewrite Forall_forall in Hz. specialize (Hz _ Hin). lia.
Qed.

Lemma sorted_split l1 x l2 : StronglySorted Z.lt (l1 ++ x :: l2) ->
  (forall y, y ∈ l1 -> y < x) /\ (forall y, y ∈ l2 -> x < y).
Proof.
  intros H. split; intros y [i Hi]%list_elem_of_lookup.
  - apply (sorted_lt _ i (length l1) y x H); [by apply lookup_app_l_Some| |by eapply lookup_lt_Some].
    by rewrite lookup_app_r, Nat.sub_diag by lia.
  - apply (sorted_lt _ (length l1) (length l1 + S i) x y H); [| |lia].
    + by rewrite lookup_app_r, Nat.sub_diag by lia.
    + rewrite lookup_app_r by lia. by replace (length l1 + S i - length l1)%nat with (S i) by lia.
Qed.

Lemma sorted_drop l1 x l2 : StronglySorted Z.lt (l1 ++ x :: l2) -> StronglySorted Z.lt (l1 ++ l2).
Proof.
  induction l1 as [|y l1 IH]; cbn [app]; intros [H Hy]%StronglySorted_inv; [done|].
  constructor; [by apply IH|]. rewrite Forall_forall in *. intros z Hz. apply Hy. set_solver.
Qed.

Lemma sorted_insert l1 p bp l2 : StronglySorted Z.lt (l1 ++ p :: l2) -> p < bp -> (forall y, y ∈ l2 -> bp < y) ->
  StronglySorted Z.lt (l1 ++ p :: bp :: l2).
Proof.
  intros H Hp Hbp. induction l1 as [|y l1 IH]; cbn [app] in *; apply StronglySorted_inv in H as [H Hy].
  - rewrite Forall_forall in Hy. constructor; [|rewrite Forall_forall; set_solver].
    constructor; [done|by apply Forall_forall].
  - constructor; [by apply IH|]. rewrite Forall_forall in *. intros z Hz.
    assert (y < p) by (apply Hy; set_solver). destruct (decide (z = bp)) as [->|]; [lia|]. apply Hy. set_solver.
Qed.

(** Where [bp] belongs in a sorted list. *)
Lemma place l bp x : StronglySorted Z.lt (x :: l) -> x < bp -> bp ∉ l ->
  exists l1 p l2, x :: l = l1 ++ p :: l2 /\ p < bp /\ forall y, y ∈ l2 -> bp < y.
Proof.
  revert x. induction l as [|y l IH]; intros x Hs Hx Hn.
  - exists [], x, []. set_solver.
  - apply not_elem_of_cons in Hn as [Hy Hn]. apply StronglySorted_inv in Hs as [Hs Hxl].
    destruct (Z.lt_ge_cases y bp) as [Hlt|Hge].
    + destruct (IH y Hs Hlt Hn) as (l1 & p & l2 & E & Hp & Hq). exists (x :: l1), p, l2. by rewrite E.
    + exists [], x, (y :: l). split; [done|]. split; [done|]. apply StronglySorted_inv in Hs as [_ Hs].
      rewrite Forall_forall in Hs. intros z [->|Hz]%elem_of_cons; [lia|]. specialize (Hs _ Hz). lia.
Qed.

(** A closed list can be entered anywhere. *)
Lemma links_rotate m l1 x l2 b : links m (l1 ++ x :: l2) b -> head (l1 ++ x :: l2) = Some b ->
  links m (x :: l2 ++ l1) x.
Proof.
  intros Hl Hh. destruct l1 as [|y l1]; cbn in Hh; injection Hh as ->; [by rewrite app_nil_r|].
  apply links_app in Hl as [H1 H2]. apply (links_app m (x :: l2) b l1 x). done.
Qed.

Lemma links_length m l z : links m l z -> NoDup l -> (length l <= size m)%nat.
Proof.
  intros Hl Hn. rewrite <- size_dom, <- (size_list_to_set (C := gset Z) l Hn). apply subseteq_size. intros x Hx%elem_of_list_to_set.
  apply list_elem_of_lookup in Hx as [i Hi]. apply elem_of_dom. by rewrite (links_next m l z i x Hl Hi).
Qed.

(** ** Blocks *)

Definition wf_blocks (lo hi : Z) (B : gmap Z Z) : Prop :=
  (forall a n, B !! a = Some n -> 0 < n /\ lo <= a /\ a + UNIT * n <= hi) /\
  (forall a n a' n', B !! a = Some n -> B !! a' = Some n' -> a < a' -> a + UNIT * n <= a').

Lemma wf_merge lo hi B a n a' n' : wf_blocks lo hi B -> B !! a = Some n -> B !! a' = Some n' -> a + UNIT * n = a' ->
  wf_blocks lo hi (<[a := n + n']> (delete a' B)).
Proof.
  unfold wf_blocks, UNIT. intros [H1 H2] Ha Ha' Heq. destruct (H1 _ _ Ha) as (? & ? & ?). destruct (H1 _ _ Ha') as (? & ? & ?).
  assert (Hcase : forall b m, <[a := n + n']> (delete a' B) !! b = Some m ->
    b = a /\ m = n + n' \/ b <> a /\ b <> a' /\ B !! b = Some m).
  { intros b m Hb. apply lookup_insert_Some in Hb as [[<- <-]|[Hne Hb]]; [by left|right].
    apply lookup_delete_Some in Hb as [? ?]. done. }
  split.
  - intros b m [[-> ->]|(? & ? & Hb)]%Hcase; [lia|]. by apply H1.
  - intros b m b' m' [[-> ->]|(? & ? & Hb)]%Hcase [[-> ->]|(? & ? & Hb')]%Hcase Hlt; [lia| | |by eapply H2].
    + pose proof (H2 _ _ _ _ Ha Hb' Hlt). destruct (Z.lt_total a' b') as [Hl|[Heq'|Hl]]; [|congruence|].
      * pose proof (H2 _ _ _ _ Ha' Hb' Hl). lia.
      * pose proof (H2 _ _ _ _ Hb' Ha' Hl). destruct (H1 _ _ Hb') as (? & ? & ?). lia.
    + pose proof (H2 _ _ _ _ Hb Ha Hlt). lia.
Qed.

Lemma wf_split lo hi B a n k : wf_blocks lo hi B -> B !! a = Some n -> 0 < k < n ->
  wf_blocks lo hi (<[a + UNIT * (n - k) := k]> (<[a := n - k]> B)) /\ B !! (a + UNIT * (n - k)) = None.
Proof.
  unfold wf_blocks, UNIT. intros [H1 H2] Ha Hk. destruct (H1 _ _ Ha) as (? & ? & ?). set (a' := a + 8 * (n - k)).
  assert (Hfresh : B !! a' = None).
  { destruct (B !! a') as [m|] eqn:E; [|done]. pose proof (H2 a n a' m Ha E ltac:(lia)). lia. }
  assert (Hcase : forall b m, <[a' := k]> (<[a := n - k]> B) !! b = Some m ->
    b = a' /\ m = k \/ b = a /\ m = n - k \/ b <> a /\ b <> a' /\ B !! b = Some m).
  { intros b m Hb. apply lookup_insert_Some in Hb as [[<- <-]|[Hne Hb]]; [by left|right].
    apply lookup_insert_Some in Hb as [[<- <-]|[? ?]]; [by left|by right]. }
  split; [|done]. split.
  - intros b m [[-> ->]|[[-> ->]|(? & ? & Hb)]]%Hcase; [lia|lia|]. by apply H1.
  - intros b m b' m' [[-> ->]|[[-> ->]|(? & ? & Hb)]]%Hcase [[-> ->]|[[-> ->]|(? & ? & Hb')]]%Hcase Hlt; try lia.
    + pose proof (H2 a n b' m' Ha Hb' ltac:(lia)). lia.
    + pose proof (H2 a n b' m' Ha Hb' ltac:(lia)). lia.
    + destruct (Z.lt_total b a) as [Hl|[Heq'|Hl]]; [|congruence|].
      * pose proof (H2 b m a n Hb Ha Hl). lia.
      * pose proof (H2 a n b m Ha Hb Hl). destruct (H1 _ _ Hb). lia.
    + pose proof (H2 b m a n Hb Ha Hlt). lia.
    + by eapply H2.
Qed.

Lemma wf_grow lo hi hi' B a n : wf_blocks lo hi B -> lo <= hi <= a -> 0 < n -> a + UNIT * n <= hi' ->
  wf_blocks lo hi' (<[a := n]> B).
Proof.
  unfold wf_blocks, UNIT. intros [H1 H2] Hlo Hn Hhi. split.
  - intros b m [[<- <-]|[Hne Hb]]%lookup_insert_Some; [lia|]. destruct (H1 _ _ Hb). lia.
  - intros b m b' m' [[<- <-]|[Hne Hb]]%lookup_insert_Some [[<- <-]|[Hne' Hb']]%lookup_insert_Some Hlt; [lia| | |by eapply H2].
    + destruct (H1 _ _ Hb'). lia.
    + destruct (H1 _ _ Hb). lia.
Qed.
