(* ===== verification/Xv6Uheap.v ===== *)
(** The xv6 user allocator keeps its heap: [malloc] and [free] (Xv6Umalloc)
    terminate without a fault, and the blocks they hand out are disjoint, large
    enough and left alone until they are freed.

    The heap is a map [B] of blocks from addresses to sizes, no two of which
    overlap.  The blocks held by the program are the map [U], and the others are
    on the free list [c], which starts at the static header [base] and is sorted
    by address. *)

From Stdlib Require Import Sorted.
From S2P Require Import Prelude Bytes Xv6Kalloc Xv6Umalloc.

Section heap.
Context (base : Z).

(** What the sizes of the headers say. *)
Record blocks_ok (sz : gmap Z Z) (hi : Z) (c : list Z) (U B : gmap Z Z) : Prop := {
  bo_base : 0 < base;
  bo_hi : base + UNIT <= hi <= KERNBASE;
  bo_wf : wf_blocks (base + UNIT) hi B;
  bo_sorted : StronglySorted Z.lt c;
  bo_head : head c = Some base;
  bo_size0 : sz !! base = Some 0;
  bo_sizes : forall a n, B !! a = Some n -> sz !! a = Some n;
  bo_all : forall a, a <> base -> is_Some (B !! a) <-> a ∈ c \/ is_Some (U !! a);
  bo_used : U ⊆ B;
  bo_free : forall a, a ∈ c -> U !! a = None }.

(** The free list is closed, and [freep] is on it. *)
Record heap_ok (s : uheap) (c : list Z) (U B : gmap Z Z) : Prop := {
  ho_blocks : blocks_ok (sizes s) (brk s) c U B;
  ho_links : links (ptrs s) c base;
  ho_freep : freep s ∈ c }.

(** The headers inside the blocks [U] are the same. *)
Definition keeps (U : gmap Z Z) (s s' : uheap) : Prop :=
  forall b n a, U !! b = Some n -> b < a < b + UNIT * n ->
    ptrs s' !! a = ptrs s !! a /\ sizes s' !! a = sizes s !! a.

Lemma headers_kept_trans U s1 s2 s3 : keeps U s1 s2 -> keeps U s2 s3 -> keeps U s1 s3.
Proof.
  intros H12 H23 b n a Hb Ha. destruct (H12 b n a Hb Ha), (H23 b n a Hb Ha). split; congruence.
Qed.

Lemma keeps_mono U U' s s' : U' ⊆ U -> keeps U s s' -> keeps U' s s'.
Proof. intros HU H b n a Hb. apply H. by eapply lookup_weaken. Qed.

(** Headers of other blocks are outside. *)
Definition outside (U : gmap Z Z) (x : Z) : Prop := forall b n, U !! b = Some n -> x <= b \/ b + UNIT * n <= x.

Lemma keeps_ptr U x q s : outside U x -> keeps U s (set_ptr x q s).
Proof. intros Hx b n a Hb Ha. split; [|done]. apply lookup_insert_ne. specialize (Hx b n Hb). lia. Qed.

Lemma keeps_size U x m s : outside U x -> keeps U s (set_size x m s).
Proof. intros Hx b n a Hb Ha. split; [done|]. apply lookup_insert_ne. specialize (Hx b n Hb). lia. Qed.

Lemma keeps_freep U p s : keeps U s (set_freep p s).
Proof. done. Qed.

Lemma keeps_brk U b s : keeps U s (set_brk b s).
Proof. done. Qed.

Lemma outside_mono U U' x : U' ⊆ U -> outside U x -> outside U' x.
Proof. intros HU H b n Hb. apply H. by eapply lookup_weaken. Qed.

Section blocks.
Context {sz : gmap Z Z} {hi : Z} {c : list Z} {U B : gmap Z Z} (H : blocks_ok sz hi c U B).

Lemma block_range a n : B !! a = Some n -> 0 < n /\ base + UNIT <= a /\ a + UNIT * n <= hi.
Proof. apply (bo_wf _ _ _ _ _ H). Qed.

Lemma base_no_block : B !! base = None.
Proof.
  destruct (B !! base) as [n|] eqn:E; [|done]. destruct (block_range _ _ E) as (_ & ? & _). unfold UNIT in *. lia.
Qed.

Lemma outside_block x n : B !! x = Some n -> outside U x.
Proof.
  intros Hx b m Hb. pose proof (lookup_weaken _ _ _ _ Hb (bo_used _ _ _ _ _ H)) as Hb'.
  destruct (Z.le_gt_cases x b) as [|Hlt]; [by left|right]. destruct (bo_wf _ _ _ _ _ H) as [_ H2]. by eapply H2.
Qed.

Lemma free_block a : a ∈ c -> a <> base -> exists n, B !! a = Some n /\ sz !! a = Some n.
Proof.
  intros Ha Hb. destruct (proj2 (bo_all _ _ _ _ _ H a Hb) (or_introl Ha)) as [n Hn]. exists n. split; [done|].
  by apply (bo_sizes _ _ _ _ _ H).
Qed.

Lemma outside_base : outside U base.
Proof.
  intros b n Hb. left. pose proof (lookup_weaken _ _ _ _ Hb (bo_used _ _ _ _ _ H)) as Hb'.
  destruct (block_range _ _ Hb') as (_ & ? & _). unfold UNIT in *. lia.
Qed.

Lemma outside_free a : a ∈ c -> outside U a.
Proof.
  intros Ha. destruct (decide (a = base)) as [->|Hb]; [apply outside_base|].
  destruct (free_block a Ha Hb) as (n & Hn & _). by eapply outside_block.
Qed.

(** The headers the loops read. *)
Lemma free_range a : a ∈ c -> exists n, sz !! a = Some n /\ 0 <= n /\ base <= a /\ a + UNIT * n <= hi /\
  (a = base /\ n = 0 \/ a <> base /\ B !! a = Some n /\ 0 < n).
Proof.
  intros Ha. pose proof (bo_hi _ _ _ _ _ H) as Hhi. unfold UNIT in *. destruct (decide (a = base)) as [->|Hb].
  - exists 0. split; [apply (bo_size0 _ _ _ _ _ H)|]. lia.
  - destruct (free_block a Ha Hb) as (n & Hn & Hs). exists n. split; [done|]. destruct (block_range a n Hn) as (? & ? & ?).
    unfold UNIT in *. split; [lia|]. split; [lia|]. split; [lia|]. by right.
Qed.
End blocks.

(** A block given up by the program goes on the list. *)
Lemma blocks_free sz hi l1 p bp l2 U B : blocks_ok sz hi (l1 ++ p :: l2) U B -> is_Some (U !! bp) -> p < bp ->
  (forall y, y ∈ l2 -> bp < y) -> blocks_ok sz hi (l1 ++ p :: bp :: l2) (delete bp U) B.
Proof.
  intros H [n Hn] Hp Hl2. pose proof (base_no_block H) as Hbase. pose proof (lookup_weaken _ _ _ _ Hn (bo_used _ _ _ _ _ H)) as HnB.
  destruct H as [? ? ? Hs Hh ? ? Hall Hused Hfree]. split; try done.
  - by apply sorted_insert.
  - by destruct l1.
  - intros a Ha. rewrite (Hall a Ha), lookup_delete_is_Some. destruct (decide (a = bp)) as [->|Hne]; [|set_solver].
    split; intros _; [left; set_solver|by right].
  - transitivity U; [apply delete_subseteq|done].
  - intros a Ha. destruct (decide (a = bp)) as [->|Hne]; [apply lookup_delete_eq|]. rewrite lookup_delete_ne by done.
    apply Hfree. set_solver.
Qed.

(** Two neighbours on the list that touch become one block. *)
Lemma blocks_merge sz hi k1 a a' k2 U B n n' : blocks_ok sz hi (k1 ++ a :: a' :: k2) U B ->
  B !! a = Some n -> B !! a' = Some n' -> a + UNIT * n = a' ->
  blocks_ok (<[a := n + n']> sz) hi (k1 ++ a :: k2) U (<[a := n + n']> (delete a' B)).
Proof.
  intros H Ha Ha' Heq. pose proof (base_no_block H) as Hbase. pose proof (block_range H _ _ Ha) as (? & ? & ?).
  destruct H as [? ? Hwf Hs Hh Hsz0 Hsz Hall Hused Hfree]. split; try done.
  - by apply wf_merge.
  - replace (k1 ++ a :: k2) with ((k1 ++ [a]) ++ k2) by by rewrite <- app_assoc. apply (sorted_drop (k1 ++ [a]) a').
    by rewrite <- app_assoc.
  - by destruct k1.
  - rewrite lookup_insert_ne; [done|congruence].
  - intros b m [[<- <-]|[Hne Hb]]%lookup_insert_Some; [apply lookup_insert_eq|]. rewrite lookup_insert_ne by done.
    apply lookup_delete_Some in Hb as [_ Hb]. by apply Hsz.
  - intros b Hb. specialize (Hall b Hb). pose proof (sorted_NoDup _ Hs) as Hnd.
    rewrite lookup_insert_is_Some, lookup_delete_is_Some. destruct (decide (b = a')) as [->|Hne].
    + assert (a <> a') by (unfold UNIT in *; lia). assert (U !! a' = None) as HU by (apply Hfree; set_solver).
      rewrite HU. split; [intros [?|(? & ? & ?)]; done|].
      intros [Hin|[? ?]]; [|done]. exfalso. apply NoDup_app in Hnd as (Hnd1 & Hnd2 & Hnd3).
      apply NoDup_cons in Hnd3 as [? Hnd3]. apply NoDup_cons in Hnd3 as [? ?]. set_solver.
    + split.
      * intros [->|(? & _ & Hin)]; [left; set_solver|]. apply Hall in Hin as [|]; [left; set_solver|by right].
      * intros Hin. destruct (decide (b = a)) as [->|]; [by left|right]. split; [done|]. split; [done|]. apply Hall.
        destruct Hin; [left; set_solver|by right].
  - apply map_subseteq_spec. intros b m Hb. assert (b <> a) by (intros ->; rewrite Hfree in Hb by set_solver; done).
    assert (b <> a') by (intros ->; rewrite Hfree in Hb by set_solver; done).
    rewrite lookup_insert_ne, lookup_delete_ne by done. by eapply lookup_weaken.
  - intros b Hb. apply Hfree. set_solver.
Qed.

(** ** The loop of [free] *)

Definition stops (bp p q : Z) : bool :=
  ((bp >? p) && (bp <? q)) || ((p >=? q) && ((bp >? p) || (bp <? q))).

Lemma free_walk s bp w1 p w2 z fuel : links (ptrs s) (w1 ++ p :: w2) z ->
  (forall x q, x ∈ w1 -> ptrs s !! x = Some q -> stops bp x q = false) ->
  (forall q, ptrs s !! p = Some q -> stops bp p q = true) -> (length w1 < fuel)%nat ->
  free_loop fuel s bp (default p (head w1)) = Ok p.
Proof.
  intros Hl Hw Hp. revert fuel Hl. induction w1 as [|x w1 IH]; intros [|fuel] Hl Hf; try (cbn in Hf; lia);
    cbn [head app links from_option id free_loop] in *; destruct Hl as [Hx Hl]; unfold field; rewrite Hx; cbn [mbind res_bind].
  - specialize (Hp _ Hx). unfold stops in Hp. apply orb_true_iff in Hp as [->| ->]; [done|]. by destruct (_ && _).
  - pose proof (Hw x _ ltac:(left) Hx) as [-> ->]%orb_false_iff.
    replace (default z (head (w1 ++ p :: w2))) with (default p (head w1)) by by destruct w1.
    apply IH; [|done|cbn in Hf; lia]. intros y q Hy. apply Hw. by right.
Qed.

Lemma links_at m l1 x l2 z : links m (l1 ++ x :: l2) z -> m !! x = Some (default z (head l2)).
Proof. by intros [_ [? _]]%links_app. Qed.

Lemma free_place s l1 p l2 U B bp : heap_ok s (l1 ++ p :: l2) U B -> base < bp -> p < bp -> (forall y, y ∈ l2 -> bp < y) ->
  free_loop (walk_fuel s) s bp (freep s) = Ok p.
Proof.
  intros [Hb Hl Hf] Hbase Hp Hl2. pose proof (bo_sorted _ _ _ _ _ Hb) as Hs. pose proof (sorted_split _ _ _ Hs) as [Hl1 _].
  pose proof (links_length _ _ _ Hl (sorted_NoDup _ Hs)) as Hlen.
  assert (Hno : forall x q, x ∈ l1 ++ p :: l2 -> x <> p -> ptrs s !! x = Some q -> stops bp x q = false).
  { intros x q Hx Hne Hq. unfold stops. apply elem_of_app in Hx as [Hx|[->|Hx]%elem_of_cons]; [|done|].
    - specialize (Hl1 x Hx). apply list_elem_of_split in Hx as (a1 & a2 & ->). rewrite <- app_assoc in Hl, Hs. cbn in Hl, Hs.
      pose proof (links_at _ _ _ _ _ Hl) as Hq'. assert (x < q /\ q <= p) as [? ?]; [|lia].
      apply sorted_split in Hs as Hsx. destruct Hsx as [_ Hsx].
      destruct a2 as [|y a2]; cbn in Hq'; rewrite Hq in Hq'; injection Hq' as ->; [split; [apply Hsx; set_solver|lia]|].
      split; [apply Hsx; set_solver|]. cut (y < p); [lia|].
      replace (a1 ++ x :: (y :: a2) ++ p :: l2) with ((a1 ++ x :: y :: a2) ++ p :: l2) in Hs by by rewrite <- app_assoc.
      apply sorted_split in Hs as [Hs _]. apply Hs. set_solver.
    - specialize (Hl2 x Hx). apply list_elem_of_split in Hx as (a1 & a2 & ->).
      replace (l1 ++ p :: a1 ++ x :: a2) with ((l1 ++ p :: a1) ++ x :: a2) in Hl, Hs by by rewrite <- app_assoc.
      pose proof (links_at _ _ _ _ _ Hl) as Hq'. apply sorted_split in Hs as [_ Hsx].
      destruct a2 as [|y a2]; cbn in Hq'; rewrite Hq in Hq'; injection Hq' as ->; [lia|].
      specialize (Hsx y ltac:(left)). lia. }
  assert (Hyes : forall q, ptrs s !! p = Some q -> stops bp p q = true).
  { intros q Hq. rewrite (links_at _ _ _ _ _ Hl) in Hq. injection Hq as <-. unfold stops. destruct l2 as [|y l2]; cbn.
    - assert (base <= p); [|lia]. pose proof (bo_head _ _ _ _ _ Hb) as Hh. destruct l1 as [|x l1]; cbn in Hh; injection Hh as ->; [lia|].
      specialize (Hl1 base ltac:(left)). lia.
    - specialize (Hl2 y ltac:(left)). lia. }
  apply list_elem_of_split in Hf as (k1 & k2 & Ec). rewrite Ec in Hl.
  pose proof (links_rotate _ _ _ _ _ Hl ltac:(rewrite <- Ec; apply (bo_head _ _ _ _ _ Hb))) as Hr.
  assert (Hperm : forall x, x ∈ freep s :: k2 ++ k1 <-> x ∈ l1 ++ p :: l2) by (intros x; rewrite Ec; set_solver).
  assert (Hlen' : length (freep s :: k2 ++ k1) = length (l1 ++ p :: l2)) by (rewrite Ec; cbn; rewrite !length_app; cbn; lia).
  assert (Hpr : p ∈ freep s :: k2 ++ k1) by (apply Hperm; set_solver).
  apply list_elem_of_split_l in Hpr as (w1 & w2 & Ew & Hpw). rewrite Ew in Hr, Hlen', Hperm.
  replace (freep s) with (default p (head w1)) by (destruct w1; cbn in Ew |- *; congruence).
  eapply free_walk; [exact Hr| |done|].
  - intros x q Hx. apply Hno; [apply Hperm; set_solver|]. by intros ->.
  - rewrite length_app in Hlen'. cbn in Hlen'. unfold walk_fuel. lia.
Qed.

(** ** [free] *)

Lemma padd_small x n : 0 <= x + UNIT * n < 2 ^ 32 -> padd x n = x + UNIT * n.
Proof. apply Z.mod_small. Qed.

Lemma u32_id n : 0 <= n < 2 ^ 32 -> u32 n = n.
Proof. apply Z.mod_small. Qed.

Lemma field_some m p x : m !! p = Some x -> field m p = Ok x.
Proof. unfold field. by intros ->. Qed.

Lemma not_in_parts l1 p bp l2 : StronglySorted Z.lt (l1 ++ p :: bp :: l2) ->
  (p ∉ l1) /\ (bp ∉ l1) /\ bp <> p /\ (bp ∉ l2) /\ (p ∉ l2).
Proof.
  intros (_ & H1 & [Hp [Hb _]%NoDup_cons]%NoDup_cons)%sorted_NoDup%NoDup_app. set_solver.
Qed.

(** The first half of [free]: join [bp] to the block after it. *)
Lemma free_right s l1 p bp l2 U B n :
  blocks_ok (sizes s) (brk s) (l1 ++ p :: bp :: l2) U B -> links (ptrs s) (l1 ++ p :: l2) base -> B !! bp = Some n ->
  exists s1 l2' B1 n1,
    (let q := default base (head l2) in
     if padd bp n =? q then
       m ← field (sizes s) q;
       r ← field (ptrs s) q;
       Ok (set_ptr bp r (set_size bp (u32 (n + m)) s))
     else Ok (set_ptr bp q s)) = Ok s1 /\
    brk s1 = brk s /\ blocks_ok (sizes s1) (brk s) (l1 ++ p :: bp :: l2') U B1 /\
    links (ptrs s1) l1 p /\ links (ptrs s1) (bp :: l2') base /\ B1 !! bp = Some n1 /\ n <= n1 /\ keeps U s s1 /\
    (length l2' <= length l2)%nat.
Proof.
  intros H Hl Hn. pose proof (not_in_parts _ _ _ _ (bo_sorted _ _ _ _ _ H)) as (_ & Hb1 & _ & Hb2 & _).
  destruct (block_range H _ _ Hn) as (Hn0 & Hlo & Hhi). pose proof (bo_hi _ _ _ _ _ H) as Hhi'. pose proof (bo_base _ _ _ _ _ H) as Hb0.
  rewrite padd_small by (unfold UNIT, KERNBASE in *; lia). apply links_app in Hl as [Hl1 [_ Hl2]]. cbn zeta.
  assert (Hout : outside U bp) by (by eapply outside_block).
  destruct (Z.eqb_spec (bp + UNIT * n) (default base (head l2))) as [Heq|Hne].
  - destruct l2 as [|y l2]; cbn in Heq; [unfold UNIT in *; lia|]. destruct Hl2 as [Hy Hl2].
    destruct (free_block H y ltac:(set_solver) ltac:(unfold UNIT in *; lia)) as (m & Hm & Hsm).
    destruct (block_range H _ _ Hm) as (? & ? & ?). cbn [head from_option id]. unfold field. rewrite Hsm, Hy. run.
    rewrite (u32_id (n + m)) by (unfold UNIT, KERNBASE in *; lia).
    do 4 eexists. split; [reflexivity|]. split; [done|]. cbn [set_ptr set_size ptrs sizes].
    split; [pose proof (blocks_merge (sizes s) (brk s) (l1 ++ [p]) bp y l2 U B n m) as Hmerge; rewrite <- !app_assoc in Hmerge; by apply Hmerge|].
    split; [by apply links_other|]. split; [split; [apply lookup_insert_eq|apply links_other; set_solver]|].
    split; [apply lookup_insert_eq|]. split; [lia|].
    split; [eapply headers_kept_trans; [apply keeps_size|apply keeps_ptr]; done|cbn; lia].
  - do 4 eexists. split; [reflexivity|]. split; [done|]. cbn [set_ptr ptrs sizes]. split; [done|].
    split; [by apply links_other|]. split; [split; [apply lookup_insert_eq|by apply links_other]|].
    split; [done|]. split; [lia|]. split; [by apply keeps_ptr|done].
Qed.

(** The second half: join it to the block before it. *)
Lemma free_left s l1 p bp l2 U B n :
  blocks_ok (sizes s) (brk s) (l1 ++ p :: bp :: l2) U B -> links (ptrs s) l1 p -> links (ptrs s) (bp :: l2) base ->
  B !! bp = Some n ->
  exists s' c' B',
    (k ← field (sizes s) p;
     s ← (if padd p k =? bp then
            n ← field (sizes s) bp;
            r ← field (ptrs s) bp;
            Ok (set_ptr p r (set_size p (u32 (k + n)) s))
          else Ok (set_ptr p bp s));
     Ok (set_freep p s)) = Ok s' /\
    brk s' = brk s /\ heap_ok s' c' U B' /\ (length c' <= length (l1 ++ p :: bp :: l2))%nat /\ keeps U s s' /\
    exists a m, a ∈ c' /\ B' !! a = Some m /\ n <= m.
Proof.
  intros H Hl1 Hl2 Hn. pose proof (not_in_parts _ _ _ _ (bo_sorted _ _ _ _ _ H)) as (Hp1 & _ & _ & _ & Hp2).
  destruct (block_range H _ _ Hn) as (Hn0 & Hlo & Hhi). pose proof (bo_hi _ _ _ _ _ H) as Hhi'. pose proof (bo_base _ _ _ _ _ H) as Hb0.
  destruct (free_range H p ltac:(set_solver)) as (k & Hk & Hk0 & Hp & Hpk & Hcase).
  assert (Hout : outside U p) by (apply (outside_free H); set_solver). pose proof (bo_sizes _ _ _ _ _ H _ _ Hn) as Hsn.
  unfold field. rewrite Hk. run. rewrite padd_small by (unfold UNIT, KERNBASE in *; lia).
  destruct (Z.eqb_spec (p + UNIT * k) bp) as [Heq|Hne].
  - destruct Hcase as [[-> ->]|(Hpb & HpB & Hk1)]; [unfold UNIT in *; lia|]. destruct Hl2 as [Hr Hl2]. rewrite Hsn, Hr. run.
    rewrite (u32_id (k + n)) by (unfold UNIT, KERNBASE in *; lia).
    do 3 eexists. split; [reflexivity|]. split; [done|]. split; [split|].
    + cbn [set_freep set_ptr set_size sizes brk]. by eapply blocks_merge.
    + cbn [set_freep set_ptr set_size ptrs]. apply links_app. split; [by apply links_other|].
      split; [apply lookup_insert_eq|by apply links_other].
    + cbn. set_solver.
    + split; [rewrite !length_app; cbn; lia|]. split; [eapply headers_kept_trans; [by apply keeps_size|]; by apply keeps_ptr|].
      exists p, (k + n). split; [set_solver|]. split; [apply lookup_insert_eq|lia].
  - do 3 eexists. split; [reflexivity|]. split; [done|]. split; [split|].
    + cbn [set_freep set_ptr sizes brk]. done.
    + cbn [set_freep set_ptr ptrs]. apply links_app. split; [by apply links_other|].
      split; [apply lookup_insert_eq|]. apply links_other; [|done]. destruct (not_in_parts _ _ _ _ (bo_sorted _ _ _ _ _ H)). set_solver.
    + cbn. set_solver.
    + split; [done|]. split; [by apply keeps_ptr|]. exists bp, n. split; [set_solver|done].
Qed.

Lemma free_spec s c U B bp n : heap_ok s c U B -> U !! bp = Some n ->
  exists s' c' B', free s (bp + UNIT) = Ok s' /\ heap_ok s' c' (delete bp U) B' /\ brk s' = brk s /\
    (length c' <= S (length c))%nat /\ keeps (delete bp U) s s' /\ exists a m, a ∈ c' /\ B' !! a = Some m /\ n <= m.
Proof.
  intros H Hn. pose proof (ho_blocks _ _ _ _ H) as Hb. pose proof (lookup_weaken _ _ _ _ Hn (bo_used _ _ _ _ _ Hb)) as HnB.
  destruct (block_range Hb _ _ HnB) as (Hn0 & Hlo & Hhi). pose proof (bo_hi _ _ _ _ _ Hb) as Hhi'. pose proof (bo_base _ _ _ _ _ Hb) as Hb0.
  assert (Hbase : base < bp) by (unfold UNIT in *; lia).
  assert (exists l1 p l2, c = l1 ++ p :: l2 /\ p < bp /\ forall y, y ∈ l2 -> bp < y) as (l1 & p & l2 & -> & Hp & Hl2).
  { pose proof (bo_head _ _ _ _ _ Hb) as Hh. pose proof (bo_sorted _ _ _ _ _ Hb) as Hs.
    destruct c as [|x l]; [done|]. injection Hh as ->. apply place; [done..|]. intros Hin.
    by rewrite (bo_free _ _ _ _ _ Hb bp ltac:(by right)) in Hn. }
  assert (Hb' := blocks_free _ _ _ _ _ _ _ _ Hb ltac:(by eexists) Hp Hl2). pose proof (ho_links _ _ _ _ H) as Hl.
  destruct (free_right _ _ _ _ _ _ _ _ Hb' Hl HnB) as (s1 & l2' & B1 & n1 & E1 & Hk1 & Hb1 & Hl1 & Hl2' & Hn1 & Hle & Hkeep & Hlen1).
  rewrite <- Hk1 in Hb1.
  destruct (free_left _ _ _ _ _ _ _ _ Hb1 Hl1 Hl2' Hn1) as (s2 & c' & B2 & E2 & Hk2 & H2 & Hlen2 & Hkeep2 & a & m & Ha & HB & Hm).
  exists s2, c', B2. split.
  - unfold free. rewrite (padd_small (bp + UNIT)) by (unfold UNIT, KERNBASE in *; lia).
    replace (bp + UNIT + UNIT * -1) with bp by (unfold UNIT; lia). rewrite (free_place _ _ _ _ _ _ _ H Hbase Hp Hl2). run.
    rewrite (field_some _ _ _ (bo_sizes _ _ _ _ _ Hb _ _ HnB)). run. rewrite (field_some _ _ _ (links_at _ _ _ _ _ Hl)). run.
    cbv zeta in E1. rewrite E1. run. exact E2.
  - split; [done|]. split; [congruence|]. split; [rewrite !length_app in *; cbn in *; lia|]. split; [by eapply headers_kept_trans|]. exists a, m. split; [done|]. split; [done|lia].
Qed.

(** ** [morecore] *)

Lemma blocks_grow sz hi c U B n : blocks_ok sz hi c U B -> 0 < n -> hi + UNIT * n <= KERNBASE ->
  U !! hi = None /\ blocks_ok (<[hi := n]> sz) (hi + UNIT * n) c (<[hi := n]> U) (<[hi := n]> B).
Proof.
  intros H Hn Hk. assert (Hlt : forall a m, B !! a = Some m -> a < hi).
  { intros a m (? & ? & ?)%(block_range H). unfold UNIT in *. lia. }
  assert (Hfree : forall a, a ∈ c -> a < hi).
  { intros a (m & _ & ? & ? & ? & Hcase)%(free_range H). pose proof (bo_hi _ _ _ _ _ H). unfold UNIT in *. lia. }
  assert (HB : B !! hi = None) by (destruct (B !! hi) eqn:E; [apply Hlt in E; lia|done]).
  pose proof (bo_hi _ _ _ _ _ H) as Hhi. destruct H as [? ? Hwf Hs Hh Hsz0 Hsz Hall Hused Hun]. split; [by eapply lookup_weaken_None|].
  split; try done.
  - unfold UNIT in *. lia.
  - eapply wf_grow; [done|lia|done|done].
  - rewrite lookup_insert_ne; [done|]. unfold UNIT in *. lia.
  - intros a m [[<- <-]|[Hne Hb]]%lookup_insert_Some; [apply lookup_insert_eq|]. rewrite lookup_insert_ne by done. by apply Hsz.
  - intros a Ha. rewrite !lookup_insert_is_Some'. specialize (Hall a Ha). tauto.
  - by apply insert_mono.
  - intros a Ha. rewrite lookup_insert_ne; [by apply Hun|]. specialize (Hfree a Ha). lia.
Qed.

Context (room : Z -> bool).

(** What [morecore] asks of the kernel, and when it gets nothing. *)
Definition request (s : uheap) (nu : Z) : Z := brk s + UNIT * Z.max nu 4096.
Definition refused (s : uheap) (nu : Z) : Prop := KERNBASE <= request s nu \/ room (request s nu) = false.

Lemma sbrk_grow s n : 0 <= brk s <= KERNBASE -> 0 < n < 2 ^ 31 ->
  sbrk room s n = if (KERNBASE <=? brk s + n) || negb (room (brk s + n)) then (None, s)
                  else (Some (brk s), set_brk (brk s + n) s).
Proof.
  intros Hb Hn. unfold sbrk. rewrite s32_id by (unfold in_s32; lia). rewrite u32_id by (unfold KERNBASE in *; lia).
  replace (n >? 0) with true by lia. replace (n =? 0) with false by lia. replace (brk s + n <? brk s) with false by lia.
  rewrite Z.geb_leb. destruct (KERNBASE <=? brk s + n); [done|]. destruct (room (brk s + n)); [|done].
  cbn [negb andb orb]. by replace (brk s + n =? 0) with false by lia.
Qed.

Lemma morecore_spec s c U B nu : heap_ok s c U B -> 0 < nu -> UNIT * nu < 2 ^ 31 ->
  (refused s nu /\ morecore room s nu = Ok (0, s)) \/
  (~ refused s nu /\ exists s' c' B', morecore room s nu = Ok (freep s', s') /\ heap_ok s' c' U B' /\ brk s' = request s nu /\
     (length c' <= S (length c))%nat /\ keeps U s s' /\ exists a m, a ∈ c' /\ B' !! a = Some m /\ nu <= m).
Proof.
  intros H Hnu Hmax. pose proof (ho_blocks _ _ _ _ H) as Hb. pose proof (bo_hi _ _ _ _ _ Hb) as Hhi. pose proof (bo_base _ _ _ _ _ Hb) as Hb0.
  unfold morecore, refused, request. replace (if nu <? 4096 then 4096 else nu) with (Z.max nu 4096) by (destruct (Z.ltb_spec nu 4096); lia).
  set (nu' := Z.max nu 4096). assert (0 < UNIT * nu' < 2 ^ 31) by (unfold UNIT in *; lia).
  replace (nu' * UNIT) with (UNIT * nu') by lia. rewrite u32_id by lia. rewrite sbrk_grow by (unfold UNIT in *; lia).
  destruct (Z.leb_spec KERNBASE (brk s + UNIT * nu')) as [Hover|Hfit]; [left; split; [by left|done]|].
  destruct (room (brk s + UNIT * nu')) eqn:Hr; cbn [orb negb]; [right|left; split; [by right|done]].
  split; [intros [|]; [lia|congruence]|].
  destruct (blocks_grow _ _ _ _ _ nu' Hb ltac:(unfold UNIT in *; lia) ltac:(lia)) as [HU Hg].
  set (s1 := set_size (brk s) nu' (set_brk (brk s + UNIT * nu') s)).
  assert (H1 : heap_ok s1 c (<[brk s := nu']> U) (<[brk s := nu']> B)) by (destruct H; by split).
  destruct (free_spec _ _ _ _ (brk s) nu' H1 ltac:(apply lookup_insert_eq)) as (s2 & c' & B' & E & H2 & Hk & Hlen & Hkeep & a & m & Ha & Hm & Hle).
  rewrite delete_insert_id in H2, Hkeep by done. rewrite padd_small by (unfold UNIT, KERNBASE in *; lia).
  replace (brk s + UNIT * 1) with (brk s + UNIT) by (unfold UNIT; lia). rewrite E. run. exists s2, c', B'. split; [done|].
  split; [done|]. split; [done|]. split; [done|]. split; [|exists a, m; split; [done|split; [done|lia]]].
  eapply headers_kept_trans; [|done]. intros b n x Hx Hin. cbn. split; [done|]. apply lookup_insert_ne. intros <-.
  pose proof (lookup_weaken _ _ _ _ Hx (bo_used _ _ _ _ _ Hb)) as Hxb. destruct (block_range Hb _ _ Hxb) as (? & ? & ?). lia.
Qed.

(** ** [malloc] *)

(** Two headers linked one to the next are neighbours on the list. *)
Lemma neighbours s c U B prev p : heap_ok s c U B -> prev ∈ c -> ptrs s !! prev = Some p -> p <> base ->
  exists k1 k2, c = k1 ++ prev :: p :: k2.
Proof.
  intros H Hin Hp Hb. apply list_elem_of_split in Hin as (k1 & k2 & ->). exists k1.
  pose proof (links_at _ _ _ _ _ (ho_links _ _ _ _ H)) as E. rewrite Hp in E. injection E as ->.
  destruct k2 as [|y k2]; cbn in *; [done|]. by exists k2.
Qed.

(** A block of the right size leaves the list. *)
Lemma take_whole s k1 prev p k2 U B n : heap_ok s (k1 ++ prev :: p :: k2) U B -> B !! p = Some n ->
  heap_ok (set_freep prev (set_ptr prev (default base (head k2)) s)) (k1 ++ prev :: k2) (<[p := n]> U) B.
Proof.
  intros [Hb Hl Hf] Hp. pose proof (not_in_parts _ _ _ _ (bo_sorted _ _ _ _ _ Hb)) as (Hi1 & Hi2 & Hi3 & Hi4 & Hi5).
  pose proof (base_no_block Hb) as Hbase. split; cbn [set_freep set_ptr ptrs sizes freep brk].
  - destruct Hb as [? ? Hwf Hs Hh Hsz0 Hsz Hall Hused Hun]. split; try done.
    + pose proof (sorted_drop (k1 ++ [prev]) p k2) as Hd. rewrite <- !app_assoc in Hd. by apply Hd.
    + by destruct k1.
    + intros a Ha. rewrite (Hall a Ha), lookup_insert_is_Some'. set_solver.
    + by apply insert_subseteq_l.
    + intros a Ha. rewrite lookup_insert_ne; [apply Hun; set_solver|]. set_solver.
  - apply links_app in Hl as [Hl1 (_ & _ & Hl2)]. apply links_app. split; [by apply links_other|].
    split; [apply lookup_insert_eq|]. by apply links_other.
  - set_solver.
Qed.

(** A larger block gives its end. *)
Lemma take_end s c U B p n k prev : heap_ok s c U B -> p ∈ c -> prev ∈ c -> B !! p = Some n -> 0 < k < n ->
  let p' := p + UNIT * (n - k) in
  U !! p' = None /\
  heap_ok (set_freep prev (set_size p' k (set_size p (n - k) s))) c (<[p' := k]> U) (<[p' := k]> (<[p := n - k]> B)).
Proof.
  intros [Hb Hl Hf] Hpc Hprev Hp Hk p'. destruct (wf_split _ _ _ _ _ _ (bo_wf _ _ _ _ _ Hb) Hp Hk) as [Hwf' Hnew]. fold p' in Hwf', Hnew.
  pose proof (base_no_block Hb) as Hbase. destruct (block_range Hb _ _ Hp) as (? & ? & ?).
  destruct Hb as [? ? Hwf Hs Hh Hsz0 Hsz Hall Hused Hun]. split; [by eapply lookup_weaken_None|].
  assert (base <> p') by (unfold p', UNIT in *; lia). assert (base <> p) by (unfold UNIT in *; lia).
  assert (p' ∉ c) by (intros Hin; destruct (proj2 (Hall p' ltac:(done)) (or_introl Hin)); congruence).
  split; cbn [set_freep set_size ptrs sizes freep brk]; [|done|done]. split; try done.
  - by rewrite !lookup_insert_ne by done.
  - intros a m [[<- <-]|[? Ha]]%lookup_insert_Some; [apply lookup_insert_eq|]. rewrite lookup_insert_ne by done.
    apply lookup_insert_Some in Ha as [[<- <-]|[? Ha]]; [apply lookup_insert_eq|]. rewrite lookup_insert_ne by done. by apply Hsz.
  - intros a Ha. rewrite !lookup_insert_is_Some'. specialize (Hall a Ha). split; [|tauto].
    intros [->|[<-|]]; [by right; left|by left|tauto].
  - apply insert_mono. apply insert_subseteq_r; [by apply Hun|done].
  - intros a Ha. rewrite lookup_insert_ne by set_solver. by apply Hun.
Qed.

(** What [malloc] hands out. *)
Definition handed (s : uheap) (U : gmap Z Z) (k : Z) (r : res (Z * uheap)) : Prop :=
  exists a s' c' B', r = Ok (a + UNIT, s') /\ heap_ok s' c' (<[a := k]> U) B' /\ U !! a = None /\ brk s' = brk s /\ keeps U s s'.

Lemma malloc_take s c U B prev p n k fuel : heap_ok s c U B -> prev ∈ c -> p ∈ c -> ptrs s !! prev = Some p ->
  B !! p = Some n -> 0 < k <= n -> handed s U k (malloc_loop room (S fuel) s k prev p).
Proof.
  intros H Hprev Hpc Hpp Hp Hk. pose proof (ho_blocks _ _ _ _ H) as Hb. pose proof (bo_hi _ _ _ _ _ Hb) as Hhi. pose proof (bo_base _ _ _ _ _ Hb) as Hb0.
  destruct (block_range Hb _ _ Hp) as (? & ? & ?). assert (Hne : p <> base) by (unfold UNIT in *; lia).
  cbn [malloc_loop]. rewrite (field_some _ _ _ (bo_sizes _ _ _ _ _ Hb _ _ Hp)). run. replace (n >=? k) with true by lia.
  assert (HU : U !! p = None) by (apply (bo_free _ _ _ _ _ Hb); done).
  destruct (Z.eqb_spec n k) as [->|Hlt].
  - destruct (neighbours _ _ _ _ _ _ H Hprev Hpp Hne) as (k1 & k2 & ->).
    pose proof (links_at (ptrs s) (k1 ++ [prev]) p k2 base) as Hq. rewrite <- app_assoc in Hq.
    rewrite (field_some _ _ _ (Hq (ho_links _ _ _ _ H))). run. rewrite padd_small by (unfold UNIT, KERNBASE in *; lia).
    replace (p + UNIT * 1) with (p + UNIT) by lia. do 4 eexists. split; [reflexivity|]. split; [by apply take_whole|].
    split; [done|]. split; [done|]. apply keeps_ptr. by apply (outside_free Hb).
  - rewrite u32_id by (unfold UNIT, KERNBASE in *; lia). rewrite !padd_small by (rewrite ?padd_small; unfold UNIT, KERNBASE in *; lia).
    destruct (take_end _ _ _ _ _ _ k prev H Hpc Hprev Hp ltac:(lia)) as [Hnew H'].
    replace (p + UNIT * (n - k) + UNIT * 1) with (p + UNIT * (n - k) + UNIT) by lia. do 4 eexists. split; [reflexivity|].
    split; [exact H'|]. split; [done|]. split; [done|].
    assert (outside U p) by (by apply (outside_free Hb)).
    assert (outside U (p + UNIT * (n - k))).
    { intros b m HbU. destruct (wf_split _ _ _ _ _ k (bo_wf _ _ _ _ _ Hb) Hp ltac:(lia)) as [[_ Hwf] _].
      pose proof (lookup_weaken _ _ _ _ HbU (bo_used _ _ _ _ _ Hb)) as HbB.
      assert (b <> p) by congruence. destruct (decide (b = p + UNIT * (n - k))) as [->|]; [by left; lia|].
      destruct (Z.le_gt_cases (p + UNIT * (n - k)) b) as [|Hgt]; [by left|right].
      apply (Hwf b m (p + UNIT * (n - k)) k); [by rewrite !lookup_insert_ne by done|apply lookup_insert_eq|done]. }
    apply (headers_kept_trans _ _ (set_size p (n - k) s)); [by apply keeps_size|].
    by apply (keeps_size U (p + UNIT * (n - k)) k (set_size p (n - k) s)).
Qed.

(** The loop passes small blocks. *)
Definition small (s : uheap) (k a : Z) : Prop := exists n, sizes s !! a = Some n /\ n < k.

#[local] Instance small_dec s k a : Decision (small s k a).
Proof.
  unfold small. destruct (sizes s !! a) as [n|] eqn:E; [|right; intros (? & ? & ?); done].
  destruct (decide (n < k)); [left; eauto|right; intros (? & [= <-] & ?); lia].
Defined.

Lemma first_split (P : Z -> Prop) `{!forall a, Decision (P a)} w :
  Forall P w \/ exists w1 x w2, w = w1 ++ x :: w2 /\ ~ P x /\ Forall P w1.
Proof.
  induction w as [|y w IH]; [by left|]. destruct (decide (P y)) as [Hy|Hy]; [|right; by exists [], y, w].
  destruct IH as [|(w1 & x & w2 & -> & Hx & Hw)]; [left|right]; [by constructor|]. exists (y :: w1), x, w2.
  split; [done|]. split; [done|]. by constructor.
Qed.

Lemma malloc_skip s k x z w1 : forall prev, links (ptrs s) (prev :: w1 ++ [x]) z ->
  (forall y, y ∈ w1 -> y <> freep s /\ small s k y) ->
  exists prev', prev' ∈ prev :: w1 /\ ptrs s !! prev' = Some x /\
    forall f, malloc_loop room (length w1 + f) s k prev (default x (head w1)) = malloc_loop room f s k prev' x.
Proof.
  induction w1 as [|y w1 IH]; intros prev Hl Hw.
  - exists prev. destruct Hl as [Hp _]. split; [left|done].
  - destruct Hl as [Hp Hl]. destruct (IH y Hl) as (prev' & Hin & Hx & Hrun); [intros; apply Hw; by right|].
    exists prev'. split; [by right|]. split; [done|]. intros f. rewrite <- Hrun. destruct (Hw y ltac:(left)) as [Hf (n & Hn & Hlt)].
    cbn [length plus head from_option id malloc_loop]. rewrite (field_some _ _ _ Hn). run. replace (n >=? k) with false by lia.
    replace (y =? freep s) with false by lia. run. destruct Hl as [Hy _]. rewrite (field_some _ _ _ Hy). run.
    by destruct w1.
Qed.

(** The list in the order the loop visits it, ending at [freep]. *)
Lemma visit s c U B : heap_ok s c U B -> exists w, length c = S (length w) /\ (freep s ∉ w) /\
  (forall x, x ∈ c <-> x ∈ w \/ x = freep s) /\ links (ptrs s) (freep s :: w) (freep s).
Proof.
  intros [Hb Hl Hf]. pose proof (bo_head _ _ _ _ _ Hb) as Hh. pose proof (sorted_NoDup _ (bo_sorted _ _ _ _ _ Hb)) as Hnd.
  apply list_elem_of_split in Hf as (k1 & k2 & ->). exists (k2 ++ k1). rewrite !length_app. cbn.
  apply NoDup_app in Hnd as (_ & Hd & [Hd2 _]%NoDup_cons).
  split; [lia|]. split; [set_solver|]. split; [set_solver|]. by eapply links_rotate.
Qed.

Lemma links_close m p w : links m (p :: w) p -> exists q, m !! p = Some q /\ q = default p (head w) /\ links m (p :: w ++ [p]) q.
Proof.
  intros H. destruct H as [Hp Hw]. eexists. split; [exact Hp|]. split; [done|].
  apply (links_app m (p :: w) p [] _). split; split; done.
Qed.

(** A free block that is large enough is found. *)
Lemma malloc_found s c U B k fuel q : heap_ok s c U B -> 0 < k -> (exists a, a ∈ c /\ ~ small s k a) ->
  (length c <= fuel)%nat -> ptrs s !! freep s = Some q -> handed s U k (malloc_loop room fuel s k (freep s) q).
Proof.
  intros H Hk Hbig Hfuel Hq. pose proof (ho_blocks _ _ _ _ H) as Hb.
  destruct (visit _ _ _ _ H) as (w & Hlen & Hnf & Hall & Hl). apply links_close in Hl as (q' & Hq' & Eq & Hl).
  rewrite Hq in Hq'. injection Hq' as <-.
  assert (exists w1 x w2, w ++ [freep s] = w1 ++ x :: w2 /\ ~ small s k x /\ forall y, y ∈ w1 -> y <> freep s /\ small s k y)
    as (w1 & x & w2 & Ew & Hx & Hw1).
  { destruct (first_split (small s k) w) as [Hs|(w1 & x & w2 & -> & Hx & Hs)]; rewrite Forall_forall in Hs.
    - exists w, (freep s), []. split; [done|]. split; [|split; [set_solver|by apply Hs]].
      destruct Hbig as (a & [Ha| ->]%Hall & Hns); [|done]. by destruct Hns; apply Hs.
    - exists w1, x, (w2 ++ [freep s]). rewrite <- app_assoc. split; [done|]. split; [done|]. intros y Hy. split; [set_solver|by apply Hs]. }
  assert (Hl' : links (ptrs s) (freep s :: w1 ++ [x]) (default q (head w2))).
  { replace (freep s :: w ++ [freep s]) with ((freep s :: w1) ++ x :: w2) in Hl by (cbn; congruence).
    apply links_app in Hl as [Hl1 [Hl2 _]]. apply (links_app _ (freep s :: w1) x [] _). done. }
  assert (Hxc : x ∈ c) by (apply Hall; cut (x ∈ w ++ [freep s]); [set_solver|rewrite Ew; set_solver]).
  destruct (malloc_skip s k x _ w1 _ Hl' Hw1) as (prev & Hprev & Hpx & Hrun).
  assert (length w1 + length w2 = length w)%nat by (apply (f_equal length) in Ew; rewrite !length_app in Ew; cbn in Ew; lia).
  replace fuel with (length w1 + S (fuel - length w1 - 1))%nat by lia.
  replace q with (default x (head w1)) by (rewrite Eq; destruct w1, w; cbn in *; congruence). rewrite Hrun.
  destruct (free_range Hb x Hxc) as (n & Hn & ? & _ & _ & Hcase). assert (k <= n) by (apply Z.le_ngt; intros ?; apply Hx; by exists n).
  destruct Hcase as [[_ ->]|(_ & HxB & _)]; [lia|]. eapply malloc_take; [done| |done|done|done|lia].
  apply Hall. cut (prev ∈ freep s :: w ++ [freep s]); [set_solver|]. rewrite Ew. set_solver.
Qed.

(** Otherwise the loop comes back to [freep] and asks for more. *)
Lemma malloc_none s c U B k fuel q : heap_ok s c U B -> 0 < k -> (forall a, a ∈ c -> small s k a) ->
  ptrs s !! freep s = Some q ->
  malloc_loop room (length c + fuel) s k (freep s) q =
    ('(p, s) ← morecore room s k;
     if p =? 0 then Ok (0, s)
     else q ← field (ptrs s) p; malloc_loop room fuel s k p q).
Proof.
  intros H Hk Hsmall Hq. destruct (visit _ _ _ _ H) as (w & Hlen & Hnf & Hall & Hl). apply links_close in Hl as (q' & Hq' & Eq & Hl).
  rewrite Hq in Hq'. injection Hq' as <-.
  destruct (malloc_skip s k (freep s) _ w _ Hl) as (prev & _ & _ & Hrun).
  { intros y Hy. split; [set_solver|]. apply Hsmall, Hall. by left. }
  replace (length c + fuel)%nat with (length w + S fuel)%nat by lia. rewrite Eq, Hrun. cbn [malloc_loop].
  destruct (Hsmall (freep s) ltac:(apply Hall; by right)) as (n & Hn & Hlt). rewrite (field_some _ _ _ Hn). run.
  replace (n >=? k) with false by lia. rewrite Z.eqb_refl. by destruct (morecore room s k) as [[p s']|].
Qed.

(** Who may call: [U] are the blocks held. *)
Definition heap (s : uheap) (U : gmap Z Z) : Prop :=
  (freep s = 0 /\ U = ∅ /\ 0 < base /\ base + UNIT <= brk s <= KERNBASE) \/ exists c B, heap_ok s c U B.

Definition nunits (nbytes : Z) : Z := (nbytes + UNIT - 1) / UNIT + 1.

Lemma heap_start s U : heap s U ->
  exists c B s', (if freep s =? 0 then set_freep base (set_size base 0 (set_ptr base base s)) else s) = s' /\
    heap_ok s' c U B /\ brk s' = brk s /\ keeps U s s'.
Proof.
  intros [(Hf & -> & Hb & Hhi)|(c & B & H)].
  - rewrite Hf. exists [base], ∅. eexists. split; [reflexivity|]. split; [split|]; cbn; [split|split; [apply lookup_insert_eq|done]|by left|]; try done.
    + by repeat constructor.
    + apply lookup_insert_eq.
    + intros a Ha. split; [by intros [? ?]|]. intros [?%list_elem_of_singleton|[? ?]]; done.
  - exists c, B, s. pose proof (ho_blocks _ _ _ _ H) as Hb. destruct (free_range Hb _ (ho_freep _ _ _ _ H)) as (_ & _ & _ & ? & _).
    pose proof (bo_base _ _ _ _ _ Hb). replace (freep s =? 0) with false by lia. done.
Qed.

Lemma malloc_spec s U nbytes : heap s U -> 0 <= nbytes <= 2 ^ 31 - 32 ->
  (refused s (nunits nbytes) /\ exists s', malloc base room s nbytes = Ok (0, s') /\ heap s' U /\ brk s' = brk s /\ keeps U s s') \/
  (exists a s', malloc base room s nbytes = Ok (a + UNIT, s') /\ heap s' (<[a := nunits nbytes]> U) /\ U !! a = None /\
     brk s <= brk s' /\ keeps U s s').
Proof.
  intros H Hn. destruct (heap_start s U H) as (c & B & s0 & E0 & H0 & Hbrk & Hkeep). unfold malloc. rewrite E0.
  set (k := nunits nbytes). assert (Hk : 0 < k /\ UNIT * k < 2 ^ 31) by (unfold k, nunits, UNIT; Z.to_euclidean_division_equations; lia).
  rewrite u32_id by (unfold UNIT; lia). fold (nunits nbytes). fold k. cbn zeta.
  destruct (visit _ _ _ _ H0) as (w & Hlen & _ & _ & [Hq _]). rewrite (field_some _ _ _ Hq). run.
  assert (Hlen' : (length c <= size (ptrs s0))%nat).
  { eapply links_length; [apply (ho_links _ _ _ _ H0)|]. apply sorted_NoDup, (bo_sorted _ _ _ _ _ (ho_blocks _ _ _ _ H0)). }
  destruct (first_split (small s0 k) c) as [Hs|(c1 & x & c2 & Ec & Hx & _)].
  - rewrite Forall_forall in Hs. unfold malloc_fuel.
    replace (2 * size (ptrs s0) + 4)%nat with (length c + (2 * size (ptrs s0) + 4 - length c))%nat by lia.
    rewrite (malloc_none _ _ _ _ k _ _ H0 ltac:(lia) Hs Hq).
    destruct (morecore_spec _ _ _ _ k H0 ltac:(lia) ltac:(lia)) as [[Hr ->]|(Hnr & s1 & c1 & B1 & -> & H1 & Hb1 & Hl1 & Hk1 & a & m & Ha & Hm & Hle)]; run.
    + left. split; [unfold refused, request in *; rewrite <- Hbrk; exact Hr|]. exists s0. split; [done|]. split; [right; eauto|]. done.
    + right. destruct (free_range (ho_blocks _ _ _ _ H1) _ (ho_freep _ _ _ _ H1)) as (_ & _ & _ & Hf & _).
      pose proof (bo_base _ _ _ _ _ (ho_blocks _ _ _ _ H1)) as Hbb. replace (freep s1 =? 0) with false by lia.
      destruct (visit _ _ _ _ H1) as (w1 & _ & _ & _ & [Hq1 _]). rewrite (field_some _ _ _ Hq1). run.
      assert (Hbig : exists a, a ∈ c1 /\ ~ small s1 k a).
      { exists a. split; [done|]. intros (n & Hn' & Hlt). rewrite (bo_sizes _ _ _ _ _ (ho_blocks _ _ _ _ H1) _ _ Hm) in Hn'.
        injection Hn' as ->. lia. }
      destruct (malloc_found _ _ _ _ k (2 * size (ptrs s0) + 4 - length c) _ H1 ltac:(lia) Hbig ltac:(lia) Hq1)
        as (b & s2 & c2 & B2 & E & H2 & HU & Hb2 & Hk2). exists b, s2. split; [exact E|]. split; [right; eauto|]. split; [done|].
      split; [unfold request, UNIT in *; lia|]. eapply headers_kept_trans; [done|]. by eapply headers_kept_trans.
  - right. destruct (malloc_found _ _ _ _ k (malloc_fuel s0) _ H0 ltac:(lia) ltac:(exists x; split; [set_solver|done])
      ltac:(unfold malloc_fuel; lia) Hq) as (b & s2 & c' & B2 & E & H2 & HU & Hb2 & Hk2). exists b, s2.
    split; [exact E|]. split; [right; eauto|]. split; [done|]. split; [lia|]. by eapply headers_kept_trans.
Qed.
End heap.

(** ** Programs *)

(** What a program does with the allocator; [M] maps the pointers it holds to
    the sizes it asked for.  A program frees only what it holds. *)
Inductive uop := UMalloc (nbytes : Z) | UFree (ap : Z).

Definition ustep (base : Z) (room : Z -> bool) (sm : uheap * gmap Z Z) (op : uop) : res (uheap * gmap Z Z) :=
  let '(s, M) := sm in
  match op with
  | UMalloc nbytes =>
      '(p, s) ← malloc base room s nbytes;
      Ok (s, if p =? 0 then M else <[p := nbytes]> M)
  | UFree ap =>
      match M !! ap with
      | Some _ => s ← free s ap; Ok (s, delete ap M)
      | None => Ok (s, M)
      end
  end.

Fixpoint urun (base : Z) (room : Z -> bool) (sm : uheap * gmap Z Z) (ops : list uop) : res (uheap * gmap Z Z) :=
  match ops with
  | [] => Ok sm
  | op :: ops' => sm ← ustep base room sm op; urun base room sm ops'
  end.

Definition uop_ok (op : uop) : Prop := match op with UMalloc n => 0 <= n <= 2 ^ 31 - 32 | UFree _ => True end.

(** The blocks held are in the heap and apart, with room for a header between. *)
Definition apart (base : Z) (s : uheap) (M : gmap Z Z) : Prop :=
  (forall p n, M !! p = Some n -> base + 2 * UNIT <= p /\ p + n <= brk s) /\
  (forall p n p' n', M !! p = Some n -> M !! p' = Some n' -> p < p' -> p + n + UNIT <= p').

(** No header inside a block held before and after has changed. *)
Definition data_kept (s s' : uheap) (M M' : gmap Z Z) : Prop :=
  forall p n a, M !! p = Some n -> M' !! p = Some n -> p <= a < p + n ->
    ptrs s' !! a = ptrs s !! a /\ sizes s' !! a = sizes s !! a.

(** The result of a step. *)
Definition ustep_result (room : Z -> bool) (s : uheap) (M : gmap Z Z) (op : uop) (M' : gmap Z Z) : Prop :=
  match op with
  | UMalloc n => M' = M /\ refused room s (nunits n) \/ exists p, p <> 0 /\ M !! p = None /\ M' = <[p := n]> M
  | UFree p => M' = delete p M
  end.

Section client.
Context (base : Z) (room : Z -> bool).

Definition rep (sm : uheap * gmap Z Z) : Prop :=
  exists U, heap base sm.1 U /\
    (forall p n, sm.2 !! p = Some n -> U !! (p - UNIT) = Some (nunits n) /\ 0 <= n) /\
    (forall b, is_Some (U !! b) -> is_Some (sm.2 !! (b + UNIT))).

Lemma nunits_enough n : n + UNIT <= UNIT * nunits n.
Proof. unfold nunits, UNIT. Z.to_euclidean_division_equations. lia. Qed.

Lemma heap_block s U b k : heap base s U -> U !! b = Some k -> 0 < base /\ base + UNIT <= b /\ b + UNIT * k <= brk s.
Proof.
  intros [(_ & -> & _)|(c & B & H)] Hb; [done|]. apply ho_blocks in H.
  pose proof (lookup_weaken _ _ _ _ Hb (bo_used _ _ _ _ _ _ H)) as HB. split; [apply (bo_base _ _ _ _ _ _ H)|].
  by destruct (block_range base H _ _ HB) as (_ & ? & ?).
Qed.

Lemma heap_apart s U b k b' k' : heap base s U -> U !! b = Some k -> U !! b' = Some k' -> b < b' -> b + UNIT * k <= b'.
Proof.
  intros [(_ & -> & _)|(c & B & H)] Hb Hb'; [done|]. apply ho_blocks in H. pose proof (bo_used _ _ _ _ _ _ H) as HU.
  apply (proj2 (bo_wf _ _ _ _ _ _ H)) with k'; by eapply lookup_weaken.
Qed.

Lemma rep_apart s M : rep (s, M) -> apart base s M.
Proof.
  intros (U & H & HM & _). cbn [fst snd] in *. split.
  - intros p n [Hp _]%HM. pose proof (heap_block _ _ _ _ H Hp). pose proof (nunits_enough n). unfold UNIT in *. lia.
  - intros p n p' n' [Hp _]%HM [Hp' _]%HM Hlt. pose proof (heap_apart _ _ (p - UNIT) _ (p' - UNIT) _ H Hp Hp' ltac:(lia)).
    pose proof (nunits_enough n). unfold UNIT in *. lia.
Qed.

Lemma keeps_data s s' U M M' : (forall p n, M !! p = Some n -> M' !! p = Some n -> U !! (p - UNIT) = Some (nunits n)) ->
  keeps U s s' -> data_kept s s' M M'.
Proof.
  intros HM Hk p n a Hp Hp' Ha. apply (Hk (p - UNIT) (nunits n) a); [by apply HM|].
  pose proof (nunits_enough n). unfold UNIT in *. lia.
Qed.

Lemma rep_step s M op : rep (s, M) -> uop_ok op ->
  exists s' M', ustep base room (s, M) op = Ok (s', M') /\ rep (s', M') /\ data_kept s s' M M' /\ ustep_result room s M op M'.
Proof.
  intros Hrep Hop. pose proof Hrep as (U & H & HM & HU). cbn [fst snd] in *. destruct op as [n|ap]; cbn [ustep uop_ok] in *.
  - destruct (malloc_spec base room s U n H Hop) as [(Hr & s' & -> & H' & _ & Hk)|(a & s' & -> & H' & Ha & _ & Hk)]; run.
    + exists s', M. split; [done|]. split; [by exists U|]. split; [|by left].
      apply (keeps_data _ _ U); [|done]. by intros p m [? _]%HM.
    + destruct (heap_block _ _ a (nunits n) H' ltac:(apply lookup_insert_eq)) as (? & ? & ?).
      replace (a + UNIT =? 0) with false by (unfold UNIT in *; lia).
      assert (Hnew : M !! (a + UNIT) = None).
      { destruct (M !! (a + UNIT)) as [m|] eqn:E; [|done]. apply HM in E as [E _].
        replace (a + UNIT - UNIT) with a in E by lia. congruence. }
      exists s', (<[a + UNIT := n]> M). split; [done|]. split; [|split].
      * exists (<[a := nunits n]> U). split; [done|]. cbn [fst snd]. split.
        -- intros p m [[<- <-]|[Hne Hp]]%lookup_insert_Some; [|rewrite lookup_insert_ne by lia; by apply HM].
           replace (a + UNIT - UNIT) with a by lia. rewrite lookup_insert_eq. split; [done|lia].
        -- intros b. rewrite !lookup_insert_is_Some'. intros [->|Hb]; [by left|right; by apply HU].
      * apply (keeps_data _ _ U); [|done]. by intros p m [? _]%HM.
      * right. exists (a + UNIT). split; [unfold UNIT in *; lia|done].
  - destruct (M !! ap) as [n|] eqn:E; [|exists s, M; split; [done|]; split; [done|]; split; [done|]; cbn; by rewrite delete_id].
    destruct (HM _ _ E) as [Hap Hn]. destruct H as [(_ & -> & _)|(c & B & H)]; [done|].
    destruct (free_spec base _ _ _ _ (ap - UNIT) _ H Hap) as (s' & c' & B' & Ef & H' & _ & _ & Hk & _).
    replace (ap - UNIT + UNIT) with ap in Ef by lia. rewrite Ef. run. exists s', (delete ap M). split; [done|]. split; [|split; [|done]].
    + exists (delete (ap - UNIT) U). split; [right; eauto|]. cbn [fst snd]. split.
      * intros p m [Hne Hp]%lookup_delete_Some. rewrite lookup_delete_ne by lia. by apply HM.
      * intros b. rewrite !lookup_delete_is_Some. intros [Hne Hb]. split; [lia|by apply HU].
    + apply (keeps_data _ _ (delete (ap - UNIT) U)); [|done]. intros p m [Hp _]%HM [Hne _]%lookup_delete_Some.
      rewrite lookup_delete_ne by lia. done.
Qed.

Lemma rep_run ops : forall sm, rep sm -> Forall uop_ok ops -> exists sm', urun base room sm ops = Ok sm' /\ rep sm'.
Proof.
  induction ops as [|op ops IH]; intros [s M] H Hops; [by eexists|]. apply Forall_cons in Hops as [Hop Hops].
  destruct (rep_step s M op H Hop) as (s' & M' & E & H' & _). cbn [urun]. rewrite E. run. by apply IH.
Qed.
End client.

(** C16: The memory allocator of user programs.  After any sequence of calls in
    which the program frees only blocks it holds and asks for at most 2^31-32
    bytes, the next call returns without a fault; [malloc] returns null only
    when the kernel refuses to grow the process, and otherwise a new block; the
    blocks held lie inside the process above the static header, do not overlap
    each other or each other's headers, have the sizes asked for, and the call
    writes no header inside a block that stays held. *)
Theorem umalloc_blocks base room brk0 ops op :
  0 < base -> base + UNIT <= brk0 <= KERNBASE -> Forall uop_ok ops -> uop_ok op ->
  exists s M s' M',
    urun base room (Uheap ∅ ∅ 0 brk0, ∅) ops = Ok (s, M) /\ ustep base room (s, M) op = Ok (s', M') /\
    ustep_result room s M op M' /\ apart base s M /\ apart base s' M' /\ data_kept s s' M M'.
Proof.
  intros Hb Hbrk Hops Hop.
  destruct (rep_run base room ops (Uheap ∅ ∅ 0 brk0, ∅)) as ([s M] & E & Hrep); [|done|].
  - exists ∅. split; [by left|]. split; [done|by intros b [? ?]].
  - destruct (rep_step base room s M op Hrep Hop) as (s' & M' & E' & Hrep' & Hk & Hr). exists s, M, s', M'.
    split; [done|]. split; [done|]. split; [done|]. split; [by apply (rep_apart base)|]. split; [by apply (rep_apart base)|done].
Qed.

(** Two blocks, the first freed, and a third that is put in its place. *)
Lemma umalloc_blocks_witness :
  exists s M s' M',
    urun 4096 (fun _ => true) (Uheap ∅ ∅ 0 8192, ∅) [UMalloc 100; UMalloc 20; UFree 40856] = Ok (s, M) /\
    ustep 4096 (fun _ => true) (s, M) (UMalloc 60) = Ok (s', M') /\
    ustep_result (fun _ => true) s M (UMalloc 60) M' /\ apart 4096 s M /\ apart 4096 s' M' /\ data_kept s s' M M'.
Proof.
  apply (umalloc_blocks 4096 (fun _ => true) 8192 [UMalloc 100; UMalloc 20; UFree 40856] (UMalloc 60));
    unfold UNIT, KERNBASE; [lia|lia| |cbn; lia]. repeat constructor; cbn; lia.
Defined.

Example umalloc_reuse :
  (sm ← urun 4096 (fun _ => true) (Uheap ∅ ∅ 0 8192, ∅) [UMalloc 100; UMalloc 20; UFree 40856; UMalloc 60]; Ok (map_to_list sm.2)) =
  Ok [(40824, 20); (40896, 60)].
Proof. vm_compute. reflexivity. Qed.

(** A request of 2^31 bytes or more: [sbrk] takes the size as a negative number,
    succeeds, and does not grow the process. *)
Lemma sbrk_huge room s n : 0 < brk s -> 2 ^ 31 <= n -> brk s + n < 2 ^ 32 -> sbrk room s n = (Some (brk s), s).
Proof.
  intros Hb Hn Hlt. unfold sbrk. assert (E : s32 n = n - 2 ^ 32).
  { unfold s32. replace (n + 2 ^ 31) with (n - 2 ^ 31 + 1 * 2 ^ 32) by lia. rewrite Z.mod_add, Z.mod_small by lia. lia. }
  rewrite E. replace (n - 2 ^ 32 >? 0) with false by lia. replace (n - 2 ^ 32 <? 0) with true by lia.
  replace (u32 (brk s + (n - 2 ^ 32))) with (brk s + n); [replace (brk s + n >=? brk s) with true by lia; replace (brk s =? 0) with false by lia; rewrite andb_false_r; by destruct s|].
  unfold u32. rewrite <- (Z.mod_add _ 1) by lia. rewrite Z.mod_small; lia.
Qed.

(** A request of 2^32-1 bytes wraps to a block with no bytes at all. *)
Lemma malloc_wraps :
  match malloc 4096 (fun _ => true) (Uheap ∅ ∅ 0 8192) (2 ^ 32 - 1) with
  | Ok (p, s) => p =? brk s
  | Stuck _ => false
  end = true.
Proof. vm_compute. reflexivity. Qed.
