(* ===== verification/Xv6Grep.v ===== *)
(** The xv6 user program grep (src/설계 3번/xv6/grep.c): the matcher of regular
    expressions after Kernighan and Pike, and the loop that reads a file through
    a buffer and prints the lines that match.

    Strings are memory from a pointer on, and end with a zero byte; a read past
    the end of the memory is a fault. *)

From S2P Require Import Prelude Bytes Xv6String.

(** ** The matcher *)

Definition CARET : Z := 94.
Definition STAR : Z := 42.
Definition DOLLAR : Z := 36.
Definition DOT : Z := 46.
Definition NL : Z := 10.

(** [matchstar(c, re, text)]; [here] is [matchhere(re, ...)]. *)
Fixpoint matchstar (here : list Z -> res bool) (c : Z) (text : list Z) : res bool :=
  b ← here text;
  if b : bool then Ok true
  else
    match text with
    | [] => Stuck OutOfBounds
    | t :: text' =>
        if negb (t =? 0) && ((t =? c) || (c =? DOT)) then matchstar here c text' else Ok false
    end.

Fixpoint matchhere (re text : list Z) : res bool :=
  match re with
  | [] => Stuck OutOfBounds
  | c :: re1 =>
      if c =? 0 then Ok true
      else
        match re1 with
        | [] => Stuck OutOfBounds
        | d :: re2 =>
            if d =? STAR then matchstar (matchhere re2) c text
            else
              match text with
              | [] => Stuck OutOfBounds
              | t :: text' =>
                  if (c =? DOLLAR) && (d =? 0) then Ok (t =? 0)
                  else if negb (t =? 0) && ((c =? DOT) || (c =? t)) then matchhere re1 text'
                  else Ok false
              end
        end
  end.

(** The loop of [match]. *)
Fixpoint match_from (here : list Z -> res bool) (text : list Z) : res bool :=
  b ← here text;
  if b : bool then Ok true
  else
    match text with
    | [] => Stuck OutOfBounds
    | t :: text' => if t =? 0 then Ok false else match_from here text'
    end.

Definition re_match (re text : list Z) : res bool :=
  match re with
  | [] => Stuck OutOfBounds
  | c :: re' => if c =? CARET then matchhere re' text else match_from (matchhere re) text
  end.

(** ** Printing the lines that match *)

Definition GREP_BUF : Z := 1024.

(** The loop over the lines in the buffer, from the pointer [p] on. *)
Fixpoint grep_lines (fuel : nat) (pattern buf : list Z) (p : Z) (out : list Z) : res (list Z * Z * list Z) :=
  match fuel with
  | O => Stuck OutOfFuel
  | S fuel' =>
      r ← User.strchr (drop (Z.to_nat p) buf) NL;
      match r with
      | None => Ok (buf, p, out)
      | Some k =>
          let q := p + Z.of_nat k in
          buf ← aset buf q 0;
          b ← re_match pattern (drop (Z.to_nat p) buf);
          if b : bool then
            buf ← aset buf q NL;
            line ← buf_load buf p (q + 1 - p);
            grep_lines fuel' pattern buf (q + 1) (out ++ line)
          else grep_lines fuel' pattern buf (q + 1) out
      end
  end.

Section grep.
(** [read]: how many of the bytes that are left a request for [n] delivers. *)
Context (rd : list Z -> Z -> Z).

Fixpoint grep_loop (fuel : nat) (pattern buf : list Z) (m : Z) (input out : list Z) : res (list Z) :=
  match fuel with
  | O => Stuck OutOfFuel
  | S fuel' =>
      let n := rd input (GREP_BUF - m - 1) in
      if n >? 0 then
        buf ← buf_store buf m (take (Z.to_nat n) input);
        let m := m + n in
        buf ← aset buf m 0;
        '(buf, p, out) ← grep_lines (S (length buf)) pattern buf 0 out;
        let m := if p =? 0 then 0 else m in
        '(buf, m) ←
          (if m >? 0 then
             let m := m - p in
             buf ← User.memmove buf 0 p m;
             Ok (buf, m)
           else Ok (buf, m));
        grep_loop fuel' pattern buf m (drop (Z.to_nat n) input) out
      else Ok out
  end.

Definition grep (pattern : list Z) (input : list Z) : res (list Z) :=
  grep_loop (S (length input)) pattern (replicate (Z.to_nat GREP_BUF) 0) 0 input [].
End grep.

(** Reading from a file delivers what is there. *)
Definition file_read (input : list Z) (n : Z) : Z := Z.min n (Z.of_nat (length input)).

(** ** What a pattern means *)

Inductive elem := One (c : Z) | Star (c : Z).

(** The elements of a pattern, and whether it ends with a dollar sign. *)
Fixpoint elems (pat : list Z) : list elem * bool :=
  match pat with
  | [] => ([], false)
  | c :: pat1 =>
      match pat1 with
      | [] => if c =? DOLLAR then ([], true) else ([One c], false)
      | d :: pat2 =>
          if d =? STAR then let '(es, e) := elems pat2 in (Star c :: es, e)
          else let '(es, e) := elems pat1 in (One c :: es, e)
      end
  end.

Definition fits (c x : Z) : Prop := c = DOT \/ x = c.

(** The strings a sequence of elements stands for. *)
Fixpoint lang (es : list elem) (s : list Z) : Prop :=
  match es with
  | [] => s = []
  | One c :: es' => exists x s', s = x :: s' /\ fits c x /\ lang es' s'
  | Star c :: es' => exists s1 s2, s = s1 ++ s2 /\ Forall (fits c) s1 /\ lang es' s2
  end.

(** Some beginning of [text] is in the language. *)
Definition begins (pat text : list Z) : Prop :=
  exists s1 s2, text = s1 ++ s2 /\ lang (elems pat).1 s1 /\ ((elems pat).2 = true -> s2 = []).

(** A line matches: the pattern occurs in it, at its start for a caret. *)
Definition matches (pat line : list Z) : Prop :=
  match pat with
  | c :: pat' =>
      if c =? CARET then begins pat' line
      else exists s0 s, line = s0 ++ s /\ begins pat s
  | [] => True
  end.

(** ** The matcher implements it *)

Definition decides (r : res bool) (P : Prop) : Prop := exists b : bool, r = Ok b /\ (b = true <-> P).

Lemma decides_iff r P Q : (P <-> Q) -> decides r P -> decides r Q.
Proof. intros H (b & E & Hb). exists b. split; [done|]. by rewrite Hb. Qed.

Lemma begins_star c pat text : begins (c :: STAR :: pat) text <->
  begins pat text \/ exists t text', text = t :: text' /\ fits c t /\ begins (c :: STAR :: pat) text'.
Proof.
  unfold begins. cbn [elems]. rewrite Z.eqb_refl. destruct (elems pat) as [es e]. cbn [fst snd lang]. split.
  - intros (s1 & s2 & -> & (a & b & -> & Ha & Hb) & He). destruct a as [|x a].
    + left. by exists b, s2.
    + right. apply Forall_cons in Ha as [Hx Ha]. exists x, ((a ++ b) ++ s2). split; [done|]. split; [done|].
      exists (a ++ b), s2. split; [done|]. split; [by exists a, b|done].
  - intros [(s1 & s2 & -> & Hs & He)|(t & text' & -> & Ht & s1 & s2 & -> & (a & b & -> & Ha & Hb) & He)].
    + exists s1, s2. split; [done|]. split; [by exists [], s1|done].
    + exists (t :: a ++ b), s2. split; [done|]. split; [|done]. exists (t :: a), b. split; [done|]. split; [by constructor|done].
Qed.

Lemma matchstar_spec here c pat text r : (forall text', 0 ∉ text' -> decides (here (text' ++ 0 :: r)) (begins pat text')) -> 0 ∉ text ->
  decides (matchstar here c (text ++ 0 :: r)) (begins (c :: STAR :: pat) text).
Proof.
  intros Hh. induction text as [|t text IH]; intros H0.
  - destruct (Hh [] H0) as (b & E & Hb). exists b. cbn [app matchstar]. cbn [app] in E. rewrite E. run.
    split; [by destruct b|]. rewrite begins_star, Hb. split; [by left|]. intros [|(? & ? & ? & _)]; done.
  - destruct (Hh (t :: text) H0) as (b & E & Hb). apply not_elem_of_cons in H0 as [Ht H0]. destruct (IH H0) as (b' & E' & Hb').
    cbn [app matchstar]. cbn [app] in E. rewrite E. run.
    apply (decides_iff _ _ _ (iff_sym (begins_star c pat (t :: text)))). destruct b.
    + exists true. split; [done|]. split; [left; by apply Hb|done].
    + replace (t =? 0) with false by lia. cbn [negb andb].
      destruct ((t =? c) || (c =? DOT)) eqn:Hf.
      * exists b'. split; [done|]. rewrite Hb'. split.
        -- intros Hs. right. exists t, text. split; [done|]. split; [|done]. unfold fits. lia.
        -- intros [Hs|(? & ? & [= <- <-] & _ & Hs)]; [by apply Hb in Hs|done].
      * exists false. split; [done|]. split; [done|]. intros [Hs|(? & ? & [= <- <-] & Hfit & _)]; [by apply Hb in Hs|].
        unfold fits in Hfit. lia.
Qed.

Lemma begins_one c pat text : (match pat with d :: _ => d <> STAR | [] => c <> DOLLAR end) ->
  begins (c :: pat) text <-> exists t text', text = t :: text' /\ fits c t /\ begins pat text'.
Proof.
  intros Hd. unfold begins. assert (E : elems (c :: pat) = let '(es, e) := elems pat in (One c :: es, e)).
  { cbn [elems]. destruct pat as [|d pat]; [by replace (c =? DOLLAR) with false by lia|]. by replace (d =? STAR) with false by lia. }
  rewrite E. destruct (elems pat) as [es e]. cbn [fst snd lang]. split.
  - intros (s1 & s2 & -> & (x & s' & -> & Hx & Hs) & He). exists x, (s' ++ s2). split; [done|]. split; [done|]. by exists s', s2.
  - intros (t & text' & -> & Ht & s1 & s2 & -> & Hs & He). exists (t :: s1), s2. split; [done|]. split; [by exists t, s1|done].
Qed.

Lemma matchhere_spec pat text r r' : 0 ∉ pat -> 0 ∉ text -> decides (matchhere (pat ++ 0 :: r) (text ++ 0 :: r')) (begins pat text).
Proof.
  remember (length pat) as n eqn:En. revert pat text En. induction (lt_wf n) as [n _ IH]. intros pat text -> Hp H0.
  destruct pat as [|c pat].
  { exists true. split; [done|]. split; [|done]. intros _. by exists [], text. }
  apply not_elem_of_cons in Hp as [Hc Hp].
  assert (Hone : (match pat with d :: _ => d <> STAR | [] => c <> DOLLAR end) ->
    decides (match text ++ 0 :: r' with [] => Stuck OutOfBounds | t :: text' =>
      if negb (t =? 0) && ((c =? DOT) || (c =? t)) then matchhere (pat ++ 0 :: r) text' else Ok false end) (begins (c :: pat) text)).
  { intros Hd. apply (decides_iff _ _ _ (iff_sym (begins_one c pat text Hd))). destruct text as [|t text]; cbn [app].
    - exists false. split; [done|]. split; [done|]. by intros (? & ? & ? & _).
    - apply not_elem_of_cons in H0 as [Ht H0]. replace (t =? 0) with false by lia. cbn [negb andb].
      destruct ((c =? DOT) || (c =? t)) eqn:Hf.
      + destruct (IH (length pat) ltac:(cbn; lia) pat text eq_refl Hp H0) as (b & E & Hb). exists b. split; [done|]. rewrite Hb. split.
        * intros Hs. exists t, text. split; [done|]. split; [|done]. unfold fits. lia.
        * by intros (? & ? & [= <- <-] & _ & Hs).
      + exists false. split; [done|]. split; [done|]. intros (? & ? & [= <- <-] & Hfit & _). unfold fits in Hfit. lia. }
  cbn [app matchhere]. replace (c =? 0) with false by lia. destruct pat as [|d pat]; cbn [app] in *.
  - change (0 =? STAR) with false. cbn iota. destruct (Z.eqb_spec c DOLLAR) as [->|Hne].
    + destruct text as [|t text]; cbn [app].
      * exists true. split; [done|]. split; [|done]. intros _. by exists [], [].
      * apply not_elem_of_cons in H0 as [Ht H0]. exists false. rewrite Z.eqb_refl. cbn [andb]. split; [f_equal; lia|]. split; [done|].
        intros (s1 & s2 & E & Hs & He). cbn in Hs, He. subst s1. rewrite He in E by done. done.
    + specialize (Hone Hne). destruct (text ++ 0 :: r') as [|t text'] eqn:Et; [by destruct text|]. done.
  - apply not_elem_of_cons in Hp as [Hd Hp]. destruct (Z.eqb_spec d STAR) as [->|Hne].
    + apply matchstar_spec; [|done]. intros text' H0'. by apply (IH (length pat) ltac:(cbn; lia)).
    + specialize (Hone Hne). destruct (text ++ 0 :: r') as [|t text'] eqn:Et; [by destruct text|].
      replace (d =? 0) with false by lia. by rewrite andb_false_r.
Qed.

Lemma match_from_spec here pat text r : (forall text', 0 ∉ text' -> decides (here (text' ++ 0 :: r)) (begins pat text')) -> 0 ∉ text ->
  decides (match_from here (text ++ 0 :: r)) (exists s0 s, text = s0 ++ s /\ begins pat s).
Proof.
  intros Hh. induction text as [|t text IH]; intros H0.
  - destruct (Hh [] H0) as (b & E & Hb). exists b. cbn [app match_from]. cbn [app] in E. rewrite E. run.
    split; [by destruct b|]. rewrite Hb. split; [by exists [], []|]. intros (s0 & s & E' & Hs). symmetry in E'.
    by apply app_eq_nil in E' as [-> ->].
  - destruct (Hh (t :: text) H0) as (b & E & Hb). apply not_elem_of_cons in H0 as [Ht H0]. destruct (IH H0) as (b' & E' & Hb').
    cbn [app match_from]. cbn [app] in E. rewrite E. run. destruct b.
    + exists true. split; [done|]. split; [|done]. intros _. exists [], (t :: text). split; [done|]. by apply Hb.
    + replace (t =? 0) with false by lia. exists b'. split; [done|]. rewrite Hb'. split.
      * intros (s0 & s & -> & Hs). by exists (t :: s0), s.
      * intros ([|x s0] & s & Es & Hs); cbn in Es; [subst s; by apply Hb in Hs|]. injection Es as -> ->. by exists s0, s.
Qed.

Lemma re_match_spec pat line r r' : 0 ∉ pat -> 0 ∉ line ->
  decides (re_match (pat ++ 0 :: r) (line ++ 0 :: r')) (matches pat line).
Proof.
  intros Hp H0. destruct pat as [|c pat]; cbn [app re_match matches].
  - exists true. split; [|done]. by destruct line.
  - destruct (Z.eqb_spec c CARET) as [->|Hne].
    + apply matchhere_spec; [|done]. by apply not_elem_of_cons in Hp as [_ Hp].
    + apply (match_from_spec (matchhere (c :: pat ++ 0 :: r))); [|done]. intros text' H0'. by apply (matchhere_spec (c :: pat)).
Qed.

(** ** Lines *)

Definition line_ok (l : list Z) : Prop := (NL ∉ l) /\ (0 ∉ l).
Definition unlines (ls : list (list Z)) : list Z := mjoin (map (fun l => l ++ [NL]) ls).

Definition keep (pat line : list Z) : bool :=
  match re_match (pat ++ [0]) (line ++ [0]) with Ok b => b | Stuck _ => false end.

Lemma keep_spec pat line r r' : 0 ∉ pat -> 0 ∉ line ->
  re_match (pat ++ 0 :: r) (line ++ 0 :: r') = Ok (keep pat line) /\ (keep pat line = true <-> matches pat line).
Proof.
  intros Hp Hl. destruct (re_match_spec pat line r r' Hp Hl) as (b & E & Hb). destruct (re_match_spec pat line [] [] Hp Hl) as (b' & E' & Hb').
  unfold keep. rewrite E', E. split; [|done]. f_equal. apply Bool.eq_iff_eq_true. by rewrite Hb, Hb'.
Qed.

Lemma unlines_cons l ls : unlines (l :: ls) = l ++ NL :: unlines ls.
Proof. unfold unlines. cbn. by rewrite <- app_assoc. Qed.

Lemma unlines_app ls ls' : unlines (ls ++ ls') = unlines ls ++ unlines ls'.
Proof. unfold unlines. by rewrite map_app, join_app. Qed.

(** A text is lines and a rest without a newline, in one way. *)
Lemma split_lines w : 0 ∉ w -> exists ls c, w = unlines ls ++ c /\ Forall line_ok ls /\ line_ok c.
Proof.
  induction w as [|x w IH]; intros H0.
  - exists [], []. split; [done|]. split; [constructor|]. split; set_solver.
  - apply not_elem_of_cons in H0 as [Hx H0]. destruct (IH H0) as (ls & c & -> & Hls & Hc). destruct (decide (x = NL)) as [->|Hne].
    + exists ([] :: ls), c. rewrite unlines_cons. split; [done|]. split; [|done]. constructor; [split; set_solver|done].
    + destruct ls as [|l ls].
      * exists [], (x :: c). split; [done|]. split; [done|]. destruct Hc. split; set_solver.
      * apply Forall_cons in Hls as [[Hl1 Hl2] Hls]. exists ((x :: l) :: ls), c. rewrite !unlines_cons. split; [done|].
        split; [|done]. constructor; [split; set_solver|done].
Qed.

Lemma first_line l l' a b : NL ∉ l -> NL ∉ l' -> l ++ NL :: a = l' ++ NL :: b -> l = l' /\ a = b.
Proof.
  revert l'. induction l as [|x l IH]; intros [|x' l'] Hl Hl' E; cbn in E.
  - by injection E as ->.
  - injection E as <- _. by destruct Hl'; left.
  - injection E as -> _. by destruct Hl; left.
  - injection E as -> E. apply not_elem_of_cons in Hl as [_ Hl]. apply not_elem_of_cons in Hl' as [_ Hl'].
    by destruct (IH l' Hl Hl' E) as [-> ->].
Qed.

Lemma lines_prefix ls1 c ls rest : Forall line_ok ls1 -> Forall line_ok ls -> line_ok rest ->
  unlines ls1 ++ c = unlines ls ++ rest -> exists ls2, ls = ls1 ++ ls2 /\ c = unlines ls2 ++ rest.
Proof.
  intros H1. revert ls. induction H1 as [|l ls1 [Hl _] _ IH]; intros ls H Hr E; [by exists ls|].
  rewrite unlines_cons in E. destruct ls as [|l' ls].
  - destruct Hr as [Hr _]. exfalso. apply Hr. cbn in E. rewrite <- E. set_solver.
  - apply Forall_cons in H as [[Hl' _] H]. rewrite unlines_cons, <- !app_assoc in E. apply first_line in E as [-> E]; [|done|done].
    destruct (IH ls H Hr E) as (ls2 & -> & ->). by exists ls2.
Qed.

(** ** The loop over the lines of the buffer *)

Lemma strchr_newline l r : NL ∉ l -> 0 ∉ l -> User.strchr (l ++ NL :: r) NL = Ok (Some (length l)).
Proof.
  induction l as [|x l IH]; intros Hn H0; [done|]. apply not_elem_of_cons in Hn as [Hx Hn]. apply not_elem_of_cons in H0 as [Hx0 H0].
  cbn [app User.strchr]. replace (x =? 0) with false by lia. replace (x =? NL) with false by lia. by rewrite IH.
Qed.

Lemma strchr_none l r : NL ∉ l -> 0 ∉ l -> User.strchr (l ++ 0 :: r) NL = Ok None.
Proof.
  induction l as [|x l IH]; intros Hn H0; [done|]. apply not_elem_of_cons in Hn as [Hx Hn]. apply not_elem_of_cons in H0 as [Hx0 H0].
  cbn [app User.strchr]. replace (x =? 0) with false by lia. replace (x =? NL) with false by lia. by rewrite IH.
Qed.

Lemma aset_mid (a : list Z) x b i y : i = Z.of_nat (length a) -> aset (a ++ x :: b) i y = Ok (a ++ y :: b).
Proof.
  intros ->. unfold aset. rewrite length_app. cbn [length]. rewrite (proj2 (Z.leb_le _ _)), (proj2 (Z.ltb_lt _ _)) by lia. cbn [andb].
  by rewrite Nat2Z.id, insert_app_r_alt, Nat.sub_diag by lia.
Qed.

Lemma grep_lines_spec pat r ls c junk : forall pre fuel out, 0 ∉ pat -> Forall line_ok ls -> line_ok c -> (length ls < fuel)%nat ->
  exists pre', grep_lines fuel (pat ++ 0 :: r) (pre ++ unlines ls ++ c ++ 0 :: junk) (Z.of_nat (length pre)) out =
    Ok (pre' ++ c ++ 0 :: junk, Z.of_nat (length pre'), out ++ unlines (List.filter (keep pat) ls)) /\
    length pre' = (length pre + length (unlines ls))%nat.
Proof.
  induction ls as [|l ls IH]; intros pre [|fuel] out Hp Hls Hc Hf; cbn [length] in Hf; try lia.
  - exists pre. cbn [grep_lines]. rewrite Nat2Z.id, drop_app_length. change (unlines []) with (@nil Z). cbn [app].
    destruct Hc. rewrite strchr_none by done. run. cbn. rewrite app_nil_r. split; [done|lia].
  - apply Forall_cons in Hls as [[Hl1 Hl2] Hls]. cbn [grep_lines]. rewrite Nat2Z.id, drop_app_length, unlines_cons, <- app_assoc.
    cbn [app]. rewrite strchr_newline by done. run. set (tl := unlines ls ++ c ++ 0 :: junk).
    rewrite (app_assoc pre l). rewrite (aset_mid (pre ++ l)) by (rewrite length_app; lia). run.
    rewrite <- app_assoc, drop_app_length. destruct (keep_spec pat l r tl Hp Hl2) as [-> _]. run.
    assert (Hlen : Z.of_nat (length pre) + Z.of_nat (length l) + 1 = Z.of_nat (length (pre ++ l ++ [NL])) /\
                   Z.of_nat (length pre) + Z.of_nat (length l) + 1 = Z.of_nat (length (pre ++ l ++ [0]))).
    { rewrite !length_app. cbn. lia. } destruct Hlen as [Hlen Hlen0].
    cbn [List.filter]. destruct (keep pat l) eqn:Ek.
    + rewrite (app_assoc pre l), (aset_mid (pre ++ l)) by (rewrite length_app; lia). run.
      rewrite buf_load_Ok by (rewrite ?length_app; cbn; lia). run. rewrite Nat2Z.id, <- app_assoc, drop_app_length.
      replace (Z.to_nat _) with (length (l ++ [NL])) by (rewrite length_app; cbn; lia).
      replace (l ++ NL :: tl) with ((l ++ [NL]) ++ tl) by by rewrite <- app_assoc. rewrite take_app_length.
      rewrite Hlen, (app_assoc pre). destruct (IH (pre ++ l ++ [NL]) fuel (out ++ l ++ [NL]) Hp Hls Hc ltac:(lia)) as (pre' & E & Hl').
      exists pre'. unfold tl. rewrite E. split; [|rewrite Hl', !length_app; cbn; lia].
      rewrite unlines_cons, <- !app_assoc. done.
    + rewrite Hlen0. replace (pre ++ l ++ 0 :: tl) with ((pre ++ l ++ [0]) ++ tl) by by rewrite <- !app_assoc.
      destruct (IH (pre ++ l ++ [0]) fuel out Hp Hls Hc ltac:(lia)) as (pre' & E & Hl').
      exists pre'. unfold tl. rewrite E. split; [done|]. rewrite Hl', !length_app. cbn. lia.
Qed.

Lemma copy_down_front pre c tl : exists junk,
  User.memmove (pre ++ c ++ tl) 0 (Z.of_nat (length pre)) (Z.of_nat (length c)) = Ok (c ++ junk) /\ length junk = (length pre + length tl)%nat.
Proof.
  unfold User.memmove. rewrite Nat2Z.id.
  destruct (copy_up_spec (pre ++ c ++ tl) 0 (length pre) (length c)) as (m' & E & Hl & Hm); [rewrite !length_app; lia..|lia|].
  exists (drop (length c) m'). split.
  - change 0 with (Z.of_nat 0). rewrite E. f_equal. rewrite <- (take_drop (length c) m') at 1. f_equal. apply list_eq. intros i.
    destruct (decide (i < length c)%nat) as [Hi|Hi].
    + rewrite lookup_take_lt, Hm, decide_True by lia. rewrite lookup_app_r, lookup_app_l by lia. f_equal. lia.
    + rewrite lookup_take_ge by lia. symmetry. apply lookup_ge_None. lia.
  - rewrite length_drop, Hl, !length_app. lia.
Qed.

(** ** Files *)

(** A line of the file is in the part of it that is in the buffer, when that
    part is full or all of the file. *)
Lemma first_line_inside (l tl w d : list Z) : Z.of_nat (length l) <= 1022 -> w ++ d = l ++ NL :: tl -> length w = 1023%nat \/ d = [] -> NL ∈ w.
Proof.
  intros Hl E [Hw| ->]; [|rewrite app_nil_r in E; set_solver].
  assert (Hi : (w ++ d) !! length l = Some NL) by (by rewrite E, lookup_app_r, Nat.sub_diag by lia).
  rewrite lookup_app_l in Hi by lia. by eapply list_elem_of_lookup_2.
Qed.

Lemma unlines_nonzero ls : Forall line_ok ls -> 0 ∉ unlines ls.
Proof. induction 1 as [|l ls [_ Hl] _ IH]; [set_solver|]. rewrite unlines_cons. unfold NL in *. set_solver. Qed.

Lemma length_unlines ls : (length ls <= length (unlines ls))%nat.
Proof. induction ls as [|l ls IH]; [done|]. rewrite unlines_cons, length_app. cbn. lia. Qed.

(** Reading after the bytes that are kept, and closing the string. *)
Lemma fill_buffer c junk bs : length (c ++ junk) = 1024%nat -> (length c + length bs < 1024)%nat ->
  exists buf junk', buf_store (c ++ junk) (Z.of_nat (length c)) bs = Ok buf /\
    aset buf (Z.of_nat (length c) + Z.of_nat (length bs)) 0 = Ok ((c ++ bs) ++ 0 :: junk') /\
    (length c + length bs + S (length junk') = 1024)%nat.
Proof.
  intros Hbuf Hlt. rewrite buf_store_Ok by lia. rewrite Nat2Z.id, take_app_length.
  destruct (drop (length c + length bs) (c ++ junk)) as [|z junk'] eqn:Ed; apply (f_equal length) in Ed as Hd;
    rewrite length_drop in Hd; cbn in Hd; [lia|].
  eexists _, junk'. split; [reflexivity|]. split; [|lia]. rewrite app_assoc. apply aset_mid. rewrite length_app. lia.
Qed.

Lemma grep_loop_spec pat r : 0 ∉ pat -> forall n input c junk ls rest out fuel, length input = n ->
  Forall (fun l => line_ok l /\ Z.of_nat (length l) <= 1022) ls -> line_ok rest -> line_ok c -> (length c < 1023)%nat ->
  length (c ++ junk) = 1024%nat -> c ++ input = unlines ls ++ rest -> (n < fuel)%nat ->
  grep_loop file_read fuel (pat ++ 0 :: r) (c ++ junk) (Z.of_nat (length c)) input out =
  Ok (out ++ unlines (List.filter (keep pat) ls)).
Proof.
  intros Hp n. induction (lt_wf n) as [n _ IH]. intros input c junk ls rest out fuel Hn Hls Hrest Hc Hcl Hbuf E Hf.
  destruct fuel as [|fuel]; [lia|]. assert (Hls' : Forall line_ok ls) by (eapply Forall_impl; [done|]; by intros ? [? _]).
  cbn [grep_loop]. set (k := file_read input (GREP_BUF - Z.of_nat (length c) - 1)).
  assert (Hk : k = Z.min (1023 - Z.of_nat (length c)) (Z.of_nat (length input))) by (unfold k, file_read, GREP_BUF; lia).
  destruct (Z.gtb_spec k 0) as [Hpos|Hz].
  - set (bs := take (Z.to_nat k) input). set (d := drop (Z.to_nat k) input).
    assert (Hbs : length bs = Z.to_nat k) by (unfold bs; rewrite length_take; lia).
    assert (Ein : input = bs ++ d) by (symmetry; apply take_drop). rewrite length_app in Hbuf.
    destruct (fill_buffer c junk bs) as (buf1 & junk' & E1 & E2 & Hj); [rewrite length_app; lia|lia|]. rewrite E1. run.
    replace (Z.of_nat (length c) + k) with (Z.of_nat (length c) + Z.of_nat (length bs)) by lia. rewrite E2. run. clear E1 E2.
    assert (H0 : 0 ∉ c ++ bs).
    { intros Hin. assert (Hin' : 0 ∈ unlines ls ++ rest) by (rewrite <- E, Ein; set_solver).
      apply elem_of_app in Hin' as [Hin'|Hin']; [|by destruct Hrest]. by apply (unlines_nonzero ls). }
    destruct (split_lines (c ++ bs) H0) as (ls1 & c' & Ew & Hls1 & Hc').
    pose proof (length_unlines ls1) as Hlen1.
    assert (Hw : (length (unlines ls1) + length c' = length c + length bs)%nat) by (apply (f_equal length) in Ew; rewrite !length_app in Ew; lia).
    rewrite Ew, <- app_assoc. destruct (grep_lines_spec pat r ls1 c' junk' [] (S (length (unlines ls1 ++ c' ++ 0 :: junk'))) out Hp Hls1 Hc')
      as (pre' & Eg & Hpre); [rewrite length_app; lia|]. cbn [app length] in Eg. change (Z.of_nat 0) with 0 in Eg. rewrite Eg. run. cbn [length] in Hpre.
    rewrite Ein, app_assoc, Ew, <- app_assoc in E. destruct (lines_prefix _ _ _ _ Hls1 Hls' Hrest E) as (ls2 & -> & E2).
    apply Forall_app in Hls as [_ Hls2]. rewrite List.filter_app, unlines_app, (app_assoc out).
    destruct ls1 as [|l1 ls1].
    + change (unlines []) with (@nil Z) in *. cbn [length] in Hpre. destruct pre'; [|done]. cbn [app length] in *. change (Z.of_nat 0 =? 0) with true.
      cbn iota. change (0 >? 0) with false. run. destruct ls2 as [|l2 ls2].
      * apply (IH (length d) ltac:(rewrite <- Hn, Ein, length_app; lia) d [] (c' ++ 0 :: junk') [] d (out ++ unlines (List.filter (keep pat) [])) fuel); [done|done| |split; set_solver|cbn; lia| |done|].
        -- cbn in E2. subst rest. destruct Hrest. split; set_solver.
        -- cbn. rewrite length_app. cbn. lia.
        -- rewrite <- Hn, Ein, length_app in Hf. lia.
      * apply Forall_cons in Hls2 as [[_ Hl2] _]. exfalso. destruct Hc' as [Hc' _]. apply Hc'.
        rewrite unlines_cons, <- app_assoc in E2. eapply first_line_inside; [exact Hl2|exact E2|].
        destruct (decide (d = [])) as [->|Hd]; [by right|left]. rewrite Hbs in Hw.
        assert (length d <> 0%nat) by (by destruct d). unfold d in *. rewrite length_drop in *. lia.
    + rewrite unlines_cons, length_app in Hpre. cbn [length] in Hpre. replace (Z.of_nat (length pre') =? 0) with false by lia.
      replace (Z.of_nat (length c) + Z.of_nat (length bs) >? 0) with true by lia.
      assert (Hm : Z.of_nat (length c) + Z.of_nat (length bs) - Z.of_nat (length pre') = Z.of_nat (length c')).
      { rewrite unlines_cons, length_app in Hw. cbn [length] in Hw. lia. }
      rewrite Hm. destruct (copy_down_front pre' c' (0 :: junk')) as (junk2 & -> & Hj2). run. cbn [length] in Hj2.
      rewrite unlines_cons, length_app in Hw. cbn [length] in Hw.
      apply (IH (length d) ltac:(rewrite <- Hn, Ein, length_app; lia) d c' junk2 ls2 rest); [done|done|done|done|lia| |done|].
      * rewrite length_app. lia.
      * rewrite <- Hn, Ein, length_app in Hf. lia.
  - assert (input = []) as -> by (destruct input; [done|cbn in Hk; lia]). rewrite app_nil_r in E.
    destruct ls as [|l ls]; [cbn; by rewrite app_nil_r|]. exfalso. destruct Hc as [Hc _]. apply Hc. rewrite E, unlines_cons. set_solver.
Qed.

(** C18: grep prints the lines of a file that match.  For every pattern, and
    every file of lines of at most 1022 characters (and a rest without a
    newline), reading the file through the buffer ends without a fault and
    prints exactly the lines that match, in order; a line matches when the
    pattern, read as single characters and repeated characters with the dot for
    any character, occurs in it, at its start after a caret and at its end
    before a dollar sign. *)
Theorem grep_prints pat r ls rest :
  0 ∉ pat -> Forall (fun l => line_ok l /\ Z.of_nat (length l) <= 1022) ls -> line_ok rest ->
  exists keep : list Z -> bool,
    (forall l, l ∈ ls -> keep l = true <-> matches pat l) /\
    grep file_read (pat ++ 0 :: r) (unlines ls ++ rest) = Ok (unlines (List.filter keep ls)).
Proof.
  intros Hp Hls Hrest. exists (keep pat). split.
  - intros l Hl. rewrite Forall_forall in Hls. destruct (Hls l Hl) as [[_ H0] _]. by apply (keep_spec pat l [] []).
  - unfold grep. change (replicate (Z.to_nat GREP_BUF) 0) with ([] ++ replicate 1024 0).
    apply (grep_loop_spec pat r Hp (length (unlines ls ++ rest)) _ [] (replicate 1024 0) ls rest []); try done; [split; set_solver|cbn; lia|lia].
Qed.

(** The lines of "xab", "ba" and "b" that match "a.*b*$". *)
Lemma grep_prints_witness :
  exists keep : list Z -> bool,
    (forall l, l ∈ [[120; 97; 98]; [98; 97]; [98]] -> keep l = true <-> matches [97; 46; 42; 98; 42; 36] l) /\
    grep file_read ([97; 46; 42; 98; 42; 36] ++ 0 :: []) (unlines [[120; 97; 98]; [98; 97]; [98]] ++ [97]) =
      Ok (unlines (List.filter keep [[120; 97; 98]; [98; 97]; [98]])).
Proof.
  apply (grep_prints [97; 46; 42; 98; 42; 36] [] [[120; 97; 98]; [98; 97]; [98]] [97]).
  - set_solver.
  - repeat constructor; unfold NL; cbn; set_solver || lia.
  - split; unfold NL; set_solver.
Defined.

Example grep_runs :
  grep file_read ([97; 46; 42; 98; 42; 36] ++ [0]) (unlines [[120; 97; 98]; [98; 97]; [98]] ++ [97]) =
  Ok [120; 97; 98; 10; 98; 97; 10].
Proof. vm_compute. reflexivity. Qed.

(** A read that ends inside a line, as a pipe delivers it: the first part of
    the line is dropped, and the line that matches is not printed. *)
Lemma grep_loses_line :
  grep (fun input n => Z.min n (Z.min 2 (Z.of_nat (length input)))) [97; 0] [97; 98; 99; 10] = Ok [] /\
  grep file_read [97; 0] [97; 98; 99; 10] = Ok [97; 98; 99; 10].
Proof. vm_compute. done. Qed.
