(* ===== verification/Xv6Kbd.v ===== *)
(** The keyboard driver of xv6 (src/설계 3번/xv6/kbd.c, kbd.h): scan codes of key
    presses and releases become characters, with the state of the modifier keys
    in [shift].  The controller is the list of scan codes that wait in it; an
    interrupt hands all of them to the console (console.c). *)

From stdpp Require Import strings.
From Stdlib Require Import Ascii.
From S2P Require Import Prelude Bytes Xv6Console.

Definition NO : Z := 0.
Definition SHIFT : Z := 1.
Definition CTL : Z := 2.
Definition ALT : Z := 4.
Definition CAPSLOCK : Z := 8.
Definition NUMLOCK : Z := 16.
Definition SCROLLLOCK : Z := 32.
Definition E0ESC : Z := 64.

Definition KEY_HOME : Z := 0xE0.
Definition KEY_END : Z := 0xE1.
Definition KEY_UP : Z := 0xE2.
Definition KEY_DN : Z := 0xE3.
Definition KEY_LF : Z := 0xE4.
Definition KEY_RT : Z := 0xE5.
Definition KEY_PGUP : Z := 0xE6.
Definition KEY_PGDN : Z := 0xE7.
Definition KEY_INS : Z := 0xE8.
Definition KEY_DEL : Z := 0xE9.

(** [C(x)]. *)
Definition C (x : Z) : Z := x - 64.

(** A table of 256 bytes: entries in order, then entries by index. *)
Definition table (l : list Z) (ds : list (Z * Z)) : list Z :=
  foldl (fun t d => <[Z.to_nat d.1 := d.2]> t) (l ++ replicate (256 - length l) 0) ds.

Definition shiftcode : list Z := Eval cbv in
  table [] [(0x1D, CTL); (0x2A, SHIFT); (0x36, SHIFT); (0x38, ALT); (0x9D, CTL); (0xB8, ALT)].

Definition togglecode : list Z := Eval cbv in
  table [] [(0x3A, CAPSLOCK); (0x45, NUMLOCK); (0x46, SCROLLLOCK)].

Definition special : list (Z * Z) :=
  [(0xC8, KEY_UP); (0xD0, KEY_DN); (0xC9, KEY_PGUP); (0xD1, KEY_PGDN); (0xCB, KEY_LF); (0xCD, KEY_RT);
   (0x97, KEY_HOME); (0xCF, KEY_END); (0xD2, KEY_INS); (0xD3, KEY_DEL)].

Definition normalmap : list Z := Eval cbv in
  table
  [NO; 0x1B; 49; 50; 51; 52; 53; 54;
   55; 56; 57; 48; 45; 61; 8; 9;
   113; 119; 101; 114; 116; 121; 117; 105;
   111; 112; 91; 93; 10; NO; 97; 115;
   100; 102; 103; 104; 106; 107; 108; 59;
   39; 96; NO; 92; 122; 120; 99; 118;
   98; 110; 109; 44; 46; 47; NO; 42;
   NO; 32; NO; NO; NO; NO; NO; NO;
   NO; NO; NO; NO; NO; NO; NO; 55;
   56; 57; 45; 52; 53; 54; 43; 49;
   50; 51; 48; 46; NO; NO; NO; NO]
  ([(0x9C, 10); (0xB5, 47)] ++ special).

Definition shiftmap : list Z := Eval cbv in
  table
  [NO; 27; 33; 64; 35; 36; 37; 94;
   38; 42; 40; 41; 95; 43; 8; 9;
   81; 87; 69; 82; 84; 89; 85; 73;
   79; 80; 123; 125; 10; NO; 65; 83;
   68; 70; 71; 72; 74; 75; 76; 58;
   34; 126; NO; 124; 90; 88; 67; 86;
   66; 78; 77; 60; 62; 63; NO; 42;
   NO; 32; NO; NO; NO; NO; NO; NO;
   NO; NO; NO; NO; NO; NO; NO; 55;
   56; 57; 45; 52; 53; 54; 43; 49;
   50; 51; 48; 46; NO; NO; NO; NO]
  ([(0x9C, 10); (0xB5, 47)] ++ special).

Definition ctlmap : list Z := Eval cbv in
  table
  [NO; NO; NO; NO; NO; NO; NO; NO;
   NO; NO; NO; NO; NO; NO; NO; NO;
   C 81; C 87; C 69; C 82; C 84; C 89; C 85; C 73;
   C 79; C 80; NO; NO; 13; NO; C 65; C 83;
   C 68; C 70; C 71; C 72; C 74; C 75; C 76; NO;
   NO; NO; NO; C 92; C 90; C 88; C 67; C 86;
   C 66; C 78; C 77; NO; NO; u32 (C 47) mod 256; NO; NO]
  ([(0x9C, 13); (0xB5, u32 (C 47) mod 256)] ++ special).

Definition charcode : list (list Z) := [normalmap; shiftmap; ctlmap; ctlmap].

(** [x &= ~y] on an unsigned number. *)
Definition clear (x y : Z) : Z := Z.land x (u32 (Z.lnot y)).

(** [kbdgetc]: the result, the new [shift] and the scan codes left. *)
Definition kbdgetc (shift : Z) (port : list Z) : res (Z * Z * list Z) :=
  match port with
  | [] => Ok (-1, shift, [])
  | data :: port =>
      if data =? 0xE0 then Ok (0, Z.lor shift E0ESC, port)
      else if negb (Z.land data 0x80 =? 0) then
        let data := if negb (Z.land shift E0ESC =? 0) then data else Z.land data 0x7F in
        code ← aget shiftcode data;
        Ok (0, clear shift (Z.lor code E0ESC), port)
      else
        let '(data, shift) :=
          if negb (Z.land shift E0ESC =? 0) then (Z.lor data 0x80, clear shift E0ESC) else (data, shift) in
        code ← aget shiftcode data;
        let shift := Z.lor shift code in
        toggle ← aget togglecode data;
        let shift := Z.lxor shift toggle in
        map ← aget charcode (Z.land shift (Z.lor CTL SHIFT));
        c ← aget map data;
        let c :=
          if negb (Z.land shift CAPSLOCK =? 0) then
            if (97 <=? c) && (c <=? 122) then u32 (c + 65 - 97)
            else if (65 <=? c) && (c <=? 90) then u32 (c + 97 - 65)
            else c
          else c in
        Ok (c, shift, port)
  end.

(** What the loop of [consoleintr] gets: the characters up to the first
    negative number. *)
Fixpoint kbd_chars (fuel : nat) (shift : Z) (port : list Z) : res (list Z * Z) :=
  match fuel with
  | O => Stuck OutOfFuel
  | S fuel' =>
      '(c, shift, port) ← kbdgetc shift port;
      if c <? 0 then Ok ([], shift)
      else '(cs, shift) ← kbd_chars fuel' shift port; Ok (c :: cs, shift)
  end.

Definition kbdintr (shift : Z) (port : list Z) (k : console) : res (console * bool * bool * Z) :=
  '(cs, shift) ← kbd_chars (S (length port)) shift port;
  '(k, woken, dump) ← consoleintr k cs false false;
  Ok (k, woken, dump, shift).

(** ** Typing *)

(** The codes of pressing and releasing the key [d]. *)
Definition press (d : Z) : list Z := [d; Z.lor d 0x80].

(** The characters of a string. *)
Definition codes (t : string) : list Z := (fun a => Z.of_N (N_of_ascii a)) <$> String.list_ascii_of_string t.

(** A row of keys with consecutive scan codes: code, character, character with
    shift. *)
Definition row (first : Z) (plain shifted : list Z) : list (Z * Z * Z) :=
  zip (zip (seqZ first (Z.of_nat (length plain))) plain) shifted.

(** The keys of the keyboard, by what is printed on them (scan codes of set 1,
    US layout): escape, the row of digits with backspace and tab, the rows of
    letters, return and the space bar. *)
Definition layout : list (Z * Z * Z) :=
  row 0x01 [27] [27] ++ row 0x02 (codes "1234567890-=") (codes "!@#$%^&*()_+") ++
  row 0x0E [8; 9] [8; 9] ++ row 0x10 (codes "qwertyuiop[]") (codes "QWERTYUIOP{}") ++
  row 0x1C [10] [10] ++ row 0x1E (codes "asdfghjkl;'`") (codes "ASDFGHJKL:" ++ [34; 126]) ++
  row 0x2B (codes "\") (codes "|") ++ row 0x2C (codes "zxcvbnm,./") (codes "ZXCVBNM<>?") ++
  row 0x39 (codes " ") (codes " ").

Definition key_with (P : Z * Z * Z -> bool) : option Z := (fun p => p.2.1.1) <$> list_find (fun k => P k = true) layout.

(** The codes that type the character [c]: with a key alone, with shift held
    down (0x2A), or with control held down (0x1D) and the key of a letter or the
    backslash. *)
Definition stroke (c : Z) : list Z :=
  match key_with (fun '(_, x, _) => x =? c), key_with (fun '(_, _, y) => y =? c),
        key_with (fun '(_, _, y) => (y - 64 =? c) && (65 <=? y) && (y <=? 90) || (c =? 28) && (y =? 124)) with
  | Some d, _, _ => press d
  | None, Some d, _ => 0x2A :: press d ++ [0xAA]
  | None, None, Some d => 0x1D :: press d ++ [0x9D]
  | None, None, None => []
  end.

(** The characters on the keys: the printable ones, return, tab, backspace and
    escape, and control with a letter or the backslash. *)
Definition typable (c : Z) : bool := (1 <=? c) && (c <=? 28) || (32 <=? c) && (c <=? 126).

(** The driver takes the codes of [c] for that character, and no modifier key
    stays down. *)
Definition typed_as (c : Z) : bool :=
  match kbd_chars 8 0 (stroke c) with
  | Ok (cs, shift) => bool_decide (filter (fun x => x <> 0) cs = [c]) && (shift =? 0)
  | Stuck _ => false
  end.

Lemma typable_stroke c : typable c = true ->
  exists cs, kbd_chars 8 0 (stroke c) = Ok (cs, 0) /\ filter (fun x => x <> 0) cs = [c].
Proof.
  assert (H : forallb typed_as (seqZ 1 28 ++ seqZ 32 95) = true) by (vm_compute; reflexivity).
  intros Hc. rewrite forallb_forall in H. specialize (H c).
  assert (Hin : typed_as c = true).
  { apply H, list_elem_of_In. unfold typable in Hc. rewrite elem_of_app, !elem_of_seqZ. lia. }
  unfold typed_as in Hin. destruct (kbd_chars 8 0 (stroke c)) as [[cs shift]|]; [|done].
  apply andb_true_iff in Hin as [Hf%bool_decide_eq_true Hs%Z.eqb_eq]. subst shift. by exists cs.
Qed.

Lemma kbd_chars_more fuel : forall shift port r, kbd_chars fuel shift port = Ok r -> kbd_chars (S fuel) shift port = Ok r.
Proof.
  induction fuel as [|fuel IH]; intros shift port r H; [done|]. cbn [kbd_chars] in H. 
  change (kbd_chars (S (S fuel)) shift port) with
    ('(c, shift, port) ← kbdgetc shift port;
     if c <? 0 then Ok ([], shift)
     else '(cs, shift) ← kbd_chars (S fuel) shift port; Ok (c :: cs, shift)).
  destruct (kbdgetc shift port) as [[[c shift'] port']|]; [|done]. cbn [mbind res_bind] in H |- *. destruct (c <? 0); [done|].
  destruct (kbd_chars fuel shift' port') as [[cs sh]|] eqn:E; [|done]. by rewrite (IH _ _ _ E).
Qed.

Lemma kbd_chars_fuel fuel fuel' shift port r : (fuel <= fuel')%nat -> kbd_chars fuel shift port = Ok r -> kbd_chars fuel' shift port = Ok r.
Proof. intros H. induction H as [|m _ IH]; [done|]. intros E. apply kbd_chars_more, IH, E. Qed.

Definition nonneg (t : list Z) : Prop := Forall (fun x => 0 <= x) t.

Lemma charcode_nonneg : Forall nonneg charcode.
Proof.
  assert (H : forallb (forallb (fun x => 0 <=? x)) charcode = true) by (vm_compute; reflexivity).
  rewrite forallb_forall in H. apply Forall_forall. intros t Ht%list_elem_of_In. specialize (H t Ht). rewrite forallb_forall in H.
  apply Forall_forall. intros x Hx%list_elem_of_In. specialize (H x Hx). lia.
Qed.

(** One code is taken at a time, and gives a character or zero. *)
Lemma kbdgetc_cons shift d port c shift' rest : kbdgetc shift (d :: port) = Ok (c, shift', rest) ->
  0 <= c /\ rest = port /\ forall port', kbdgetc shift (d :: port') = Ok (c, shift', port').
Proof.
  unfold kbdgetc. destruct (d =? 0xE0); [intros [= <- <- <-]; done|]. destruct (negb (Z.land d 0x80 =? 0)).
  - destruct (aget shiftcode _); [|done]. run. intros [= <- <- <-]. done.
  - destruct (negb (Z.land shift E0ESC =? 0)); cbn zeta; (destruct (aget shiftcode _) as [code|]; [|done]; run;
      destruct (aget togglecode _) as [tg|]; [|done]; run; destruct (aget charcode _) as [map|] eqn:Em; [|done]; run;
      destruct (aget map _) as [x|] eqn:Ex; [|done]; run; intros [= <- <- <-]; split; [|done];
      apply aget_Ok in Em as [_ Em]; apply aget_Ok in Ex as [_ Ex];
      pose proof (Forall_lookup_1 _ _ _ _ charcode_nonneg Em) as Hm; pose proof (Forall_lookup_1 _ _ _ _ Hm Ex) as Hx; cbn beta in Hx;
      repeat case_match; [apply Z.mod_pos_bound; lia|apply Z.mod_pos_bound; lia|done|done]).
Qed.

Lemma kbd_chars_app p1 : forall fuel shift cs shift1, kbd_chars fuel shift p1 = Ok (cs, shift1) -> forall p2 f,
  kbd_chars (length p1 + f) shift (p1 ++ p2) = ('(cs2, shift2) ← kbd_chars f shift1 p2; Ok (cs ++ cs2, shift2)).
Proof.
  induction p1 as [|d p1 IH]; intros [|fuel] shift cs shift1 H p2 f; try done; cbn [kbd_chars] in H.
  - cbn in H. injection H as <- <-. cbn [length plus app]. by destruct (kbd_chars f shift p2) as [[? ?]|].
  - destruct (kbdgetc shift (d :: p1)) as [[[c shift'] rest]|] eqn:E; [|done]. cbn [mbind res_bind] in H.
    destruct (kbdgetc_cons _ _ _ _ _ _ E) as (Hc & -> & Hall). replace (c <? 0) with false in H by lia.
    destruct (kbd_chars fuel shift' p1) as [[cs' sh]|] eqn:E1; [|done]. cbn in H. injection H as <- <-.
    cbn [length plus app kbd_chars]. rewrite Hall. run. replace (c <? 0) with false by lia. rewrite (IH _ _ _ _ E1).
    destruct (kbd_chars f sh p2) as [[? ?]|]; done.
Qed.

(** The characters of a whole text, up to zeros. *)
Lemma kbd_strokes keys : Forall (fun c => typable c = true) keys -> exists cs,
  kbd_chars (S (length (mjoin (map stroke keys)))) 0 (mjoin (map stroke keys)) = Ok (cs, 0) /\ filter (fun x => x <> 0) cs = keys.
Proof.
  induction 1 as [|c keys Hc _ (cs & E & Hf)]; [by exists []|]. destruct (typable_stroke c Hc) as (cs1 & E1 & Hf1).
  exists (cs1 ++ cs). change (mjoin (map stroke (c :: keys))) with (stroke c ++ mjoin (map stroke keys)).
  rewrite length_app, <- Nat.add_succ_r, (kbd_chars_app _ _ _ _ _ E1), E. split; [done|]. by rewrite filter_app, Hf1, Hf.
Qed.

Lemma typed_nonzero cs : forall t, foldl typed t cs = foldl typed t (filter (fun x => x <> 0) cs).
Proof.
  induction cs as [|c cs IH]; intros t; [done|]. destruct (decide (c = 0)) as [->|Hc].
  - rewrite filter_cons_False by tauto. cbn [foldl]. replace (typed t 0) with t by (by destruct t). apply IH.
  - rewrite filter_cons_True by done. cbn [foldl]. apply IH.
Qed.

(** C21: from keys to a line.  With no modifier key down and an idle console,
    typing any sequence of up to 126 [typable] characters on the keyboard (all
    printable characters, tabs, escapes, backspaces and control characters that
    do not end a line, as presses and releases of the keys of [layout], with
    shift or control held down where needed) and return wakes the readers of the console
    with all modifier keys up again; a read of enough bytes returns exactly the
    line with its editing done, and the console is idle again. *)
Theorem keyboard_line k keys n : input_view (inp k) [] [] -> screen_ok (scr k) ->
  Forall (fun c => typable c = true) keys -> Forall (fun c => ~ ends_line c) keys -> (length keys < 127)%nat ->
  let text := foldl edit_key [] keys in
  Z.of_nat (length text) < n ->
  exists k' dump i', kbdintr 0 (mjoin (map stroke (keys ++ [10]))) k = Ok (k', true, dump, 0) /\
    consoleread false (inp k') n n = Ok (i', text ++ [10], RReturn (Z.of_nat (length text) + 1)) /\
    input_view i' [] [] /\ screen_ok (scr k').
Proof.
  intros Hv Hs Ht Hk Hlen text Hn. destruct (typed_line keys 10 Hk Hlen ltac:(by left)) as [Hq Htp].
  destruct (kbd_strokes (keys ++ [10])) as (cs & E & Hf); [apply Forall_app; split; [done|by repeat constructor]|].
  unfold kbdintr. rewrite E. run. rewrite <- Hf, <- typed_nonzero in Hq.
  destruct (line_read k cs _ n Hv Hs Hq Htp Hn) as (k' & dump & i' & -> & Hr & Hi & Hs'). run. by exists k', dump, i'.
Qed.

(** "Hi", a backspace and "!" typed. *)
Lemma keyboard_line_witness :
  exists k' dump i', kbdintr 0 (mjoin (map stroke ([72; 105; 8; 33] ++ [10]))) demo_console = Ok (k', true, dump, 0) /\
    consoleread false (inp k') 80 80 = Ok (i', [72; 33] ++ [10], RReturn (Z.of_nat (length [72; 33]) + 1)) /\
    input_view i' [] [] /\ screen_ok (scr k').
Proof.
  apply (keyboard_line demo_console [72; 105; 8; 33] 80); [apply demo_view|apply demo_screen|by repeat constructor| |cbn; lia|cbn; lia].
  unfold ends_line, CTRL_D. repeat constructor; lia.
Defined.

(** The home key sends 0xE0 0x47, which is looked up at 0xC7; its entry is at
    0x97, so the key does nothing. *)
Lemma home_key_lost :
  kbd_chars 9 0 [0xE0; 0x47] = Ok ([0; 0], 0) /\ kbd_chars 9 0 [0xE0; 0x4F] = Ok ([0; KEY_END], 0).
Proof. vm_compute. done. Qed.
