(* ===== verification/Xv6Exec.v ===== *)
(** Replacing the program of a process: exec.c and elf.h of xv6
    (src/설계 3번/xv6/), on the address spaces of [Xv6Vm].

    [exec] builds a new address space beside the old one: it loads the segments
    of an ELF file, adds an inaccessible page and a stack page, and pushes the
    arguments; only then does it switch the process over and free the old
    address space.  Every failure goes to [bad], which frees what was built.

    The file system is an interface ([ExecFs]): its state [K], the calls that
    bracket the use of the program file, and reading from it.  [readi_of] is what
    [readi] delivers from a file with given contents. *)

From S2P Require Import Proc.
From S2P Require Import Prelude Bytes Xv6String Xv6Kalloc Xv6Vm.

(** ** ELF files *)

Definition ELF_MAGIC : Z := 0x464C457F.
Definition ELF_PROG_LOAD : Z := 1.
Definition ELFHDR : Z := 52.
Definition PROGHDR : Z := 32.
Definition MAXARG : Z := 32.

Definition get16 (b : list Z) : Z := match b with x :: y :: _ => x + 256 * y | _ => 0 end.

(** The fields that [exec] reads. *)
Record elfhdr := Elfhdr { magic : Z; entry : Z; phoff : Z; phnum : Z }.

Definition elf_of (b : list Z) : elfhdr :=
  Elfhdr (u32 (get32 b)) (u32 (get32 (drop 24 b))) (u32 (get32 (drop 28 b))) (get16 (drop 44 b)).

Record proghdr := Proghdr { ph_type : Z; ph_off : Z; ph_vaddr : Z; ph_filesz : Z; ph_memsz : Z }.

Definition ph_of (b : list Z) : proghdr :=
  Proghdr (u32 (get32 b)) (u32 (get32 (drop 4 b))) (u32 (get32 (drop 8 b)))
    (u32 (get32 (drop 16 b))) (u32 (get32 (drop 20 b))).

(** What exec asks of the file system. *)
Class ExecFs (K : Type) := {
  fs_begin_op : K -> K;
  fs_end_op : K -> K;
  fs_namei : K -> list Z -> option Z * K;
  fs_ilock : K -> Z -> K;
  fs_iunlockput : K -> Z -> K;
  fs_readi : K -> Z -> Z -> Z -> Z * list Z }.

(** [readi] on a file with the bytes [file]. *)
Definition readi_of (file : list Z) (off n : Z) : Z * list Z :=
  if (off <=? Z.of_nat (length file)) && (off + n <? 2 ^ 32) then
    (Z.min n (Z.of_nat (length file) - off), take (Z.to_nat n) (drop (Z.to_nat off) file))
  else (-1, []).

Section exec.
Context {K : Type} `{ExecFs K} (end_ data : Z).

(** The loop over the program headers, [n] of them left; [None] is a jump to
    [bad], the result otherwise the size. *)
Fixpoint load_segs (n : nat) (readi : Z -> Z -> Z * list Z) (s : vmem) (pgdir off sz : Z) : res (option Z * vmem) :=
  match n with
  | O => Ok (Some sz, s)
  | S n' =>
      let '(r, b) := readi off PROGHDR in
      let ph := ph_of b in
      if negb (r =? PROGHDR) then Ok (None, s)
      else if negb (ph_type ph =? ELF_PROG_LOAD) then load_segs n' readi s pgdir (u32 (off + PROGHDR)) sz
      else if ph_memsz ph <? ph_filesz ph then Ok (None, s)
      else if u32 (ph_vaddr ph + ph_memsz ph) <? ph_vaddr ph then Ok (None, s)
      else
        '(sz, s) ← allocuvm end_ s pgdir sz (u32 (ph_vaddr ph + ph_memsz ph));
        if sz =? 0 then Ok (None, s)
        else if negb (ph_vaddr ph mod PGSIZE =? 0) then Ok (None, s)
        else
          '(r, s) ← loaduvm readi s pgdir (ph_vaddr ph) (ph_off ph) (ph_filesz ph);
          if r <? 0 then Ok (None, s) else load_segs n' readi s pgdir (u32 (off + PROGHDR)) sz
  end.

(** The loop that pushes the argument strings. *)
Fixpoint push_args (argv : list (list Z)) (s : vmem) (pgdir sp argc : Z) (ustack : list Z)
  : res (option (Z * Z * list Z) * vmem) :=
  match argv with
  | [] => Ok (Some (sp, argc, ustack), s)
  | a :: argv' =>
      if argc >=? MAXARG then Ok (None, s)
      else
        let len := Z.of_nat (length a) + 1 in
        let sp := Z.land (u32 (sp - len)) (u32 (Z.lnot 3)) in
        '(r, s) ← copyout s pgdir sp (a ++ [0]) len;
        if r <? 0 then Ok (None, s)
        else ustack ← aset ustack (3 + argc) sp; push_args argv' s pgdir sp (argc + 1) ustack
  end.

(** The bytes of an array of [uint]. *)
Definition words (l : list Z) : list Z := mjoin (map le32 l).

(** The stack: the arguments, the pointers to them, and the frame of [main].
    The result is the size and the stack pointer. *)
Definition build_stack (s : vmem) (pgdir sz : Z) (argv : list (list Z)) : res (option (Z * Z) * vmem) :=
  let sz := PGROUNDUP sz in
  '(sz, s) ← allocuvm end_ s pgdir sz (u32 (sz + 2 * PGSIZE));
  if sz =? 0 then Ok (None, s)
  else
    s ← clearpteu s pgdir (u32 (sz - 2 * PGSIZE));
    '(r, s) ← push_args argv s pgdir sz 0 (replicate (Z.to_nat (3 + MAXARG + 1)) 0);
    match r with
    | None => Ok (None, s)
    | Some (sp, argc, ustack) =>
        ustack ← aset ustack (3 + argc) 0;
        ustack ← aset ustack 0 0xffffffff;
        ustack ← aset ustack 1 argc;
        ustack ← aset ustack 2 (u32 (sp - (argc + 1) * 4));
        let sp := u32 (sp - (3 + argc + 1) * 4) in
        '(r, s) ← copyout s pgdir sp (words ustack) ((3 + argc + 1) * 4);
        if r <? 0 then Ok (None, s) else Ok (Some (sz, sp), s)
    end.

(** The path after its last slash. *)
Fixpoint last_elem (s last : list Z) : list Z :=
  match s with
  | [] => last
  | c :: s' => if c =? 47 then last_elem s' s' else last_elem s' last
  end.

Definition set_frame (eip esp : Z) (t : trapframe) : trapframe :=
  Trapframe (t_eax t) (t_es t) (t_ds t) (t_cs t) (t_ss t) (t_eflags t) esp eip (t_others t).

(** The code before the last [goto bad]: loading the file. *)
Definition load_file (readi : Z -> Z -> Z * list Z) (s : vmem) : res (option elfhdr * option Z * Z * vmem) :=
  let '(r, b) := readi 0 ELFHDR in
  let elf := elf_of b in
  if negb (r =? ELFHDR) then Ok (None, None, 0, s)
  else if negb (magic elf =? ELF_MAGIC) then Ok (None, None, 0, s)
  else
    '(pgdir, s) ← setupkvm end_ data s;
    if pgdir =? 0 then Ok (None, None, 0, s)
    else
      '(sz, s) ← load_segs (Z.to_nat (phnum elf)) readi s pgdir (phoff elf) 0;
      Ok (Some elf, sz, pgdir, s).

(** [bad:]; [pgdir] is 0 before [setupkvm]. *)
Definition exec_bad (s : vmem) (pgdir : Z) : res vmem := if pgdir =? 0 then Ok s else freevm end_ s pgdir.

Definition exec (k : K) (s : vmem) (curproc : proc) (path : list Z) (argv : list (list Z)) : res (Z * proc * vmem * K) :=
  let k := fs_begin_op k in
  let '(ip, k) := fs_namei k path in
  match ip with
  | None => Ok (-1, curproc, s, fs_end_op k)
  | Some ip =>
      let k := fs_ilock k ip in
      '(elf, sz, pgdir, s) ← load_file (fs_readi k ip) s;
      match elf, sz with
      | Some elf, Some sz =>
          let k := fs_end_op (fs_iunlockput k ip) in
          '(st, s) ← build_stack s pgdir sz argv;
          match st with
          | None => s ← exec_bad s pgdir; Ok (-1, curproc, s, k)
          | Some (sz, sp) =>
              nm ← Kernel.safestrcpy (Proc.name curproc) (last_elem path path ++ [0]) 16;
              let oldpgdir := Proc.pgdir curproc in
              let p := set_name nm (set_tf (set_frame (entry elf) sp (Proc.tf curproc)) (set_sz sz (set_pgdir pgdir curproc))) in
              s ← freevm end_ s oldpgdir;
              Ok (0, p, s, k)
          end
      | _, _ => s ← exec_bad s pgdir; Ok (-1, curproc, s, fs_end_op (fs_iunlockput k ip))
      end
  end.
End exec.
