(* ===== verification/Xv6Image.v ===== *)
(** Building and exchanging address spaces, for exec ([Xv6Exec]): loading bytes
    of a file into user pages ([loaduvm]), the inaccessible page under the stack
    ([clearpteu]), and freeing one address space while another one stands. *)

From S2P Require Import Prelude Bytes Xv6Kalloc Xv6Vm Xv6Pgtab Xv6Uvm Xv6Vmem Xv6Exec.

Section image.
Context (end_ : Z).

Abbreviation space := (space end_).
Abbreviation good := (good end_).

(** ** Loading from a file *)

Lemma readi_of_ok file off n r bs : 0 <= off -> 0 <= n -> readi_of file off n = (r, bs) ->
  (length bs <= Z.to_nat n)%nat /\
  (r = n -> off + n <= Z.of_nat (length file) /\ off + n < 2 ^ 32 /\ bs = take (Z.to_nat n) (drop (Z.to_nat off) file)).
Proof.
  intros Ho Hn. unfold readi_of. destruct ((off <=? _) && _) eqn:E; intros [= <- <-]; zbool.
  - split; [rewrite length_take; lia|]. intros Hr. split; [lia|]. split; [lia|done].
  - split; [cbn; lia|lia].
Qed.

Section load.
Context (file : list Z) (readi : Z -> Z -> Z * list Z).
Hypothesis Hread : forall off n, readi off n = readi_of file off n.

Lemma load_loop_S fuel s d addr offset sz i : load_loop (S fuel) readi s d addr offset sz i =
  if i <? sz then
    '(p, s) ← walkpgdir s d (u32 (addr + i)) false;
    match p with
    | None => Stuck Panicked
    | Some (pg, j) =>
        pte ← tget s pg j;
        let pa := PTE_ADDR pte in
        let n := if sz - i <? PGSIZE then sz - i else PGSIZE in
        let '(r, bs) := readi (u32 (offset + i)) n in
        old ← dget s (P2V pa);
        new ← buf_store old 0 bs;
        let s := put_frame (P2V pa) (Data new) s in
        if negb (r =? n) then Ok (-1, s)
        else load_loop fuel readi s d addr offset sz (u32 (i + PGSIZE))
    end
  else Ok (0, s).
Proof. reflexivity. Qed.

(** Page [a + j] of the loop. *)
Lemma load_loop_spec P F d A T a offset sz : 0 <= a -> PGSIZE * a + sz <= KERNBASE -> 0 <= offset ->
  (forall n, a <= n -> PGSIZE * n < PGSIZE * a + sz -> is_Some (A !! n)) ->
  forall fuel s j, space P F s d A T [] -> 0 <= j -> offset + PGSIZE * j < 2 ^ 32 -> sz - PGSIZE * j <= PGSIZE * Z.of_nat fuel ->
  exists r s', load_loop (S fuel) readi s d (PGSIZE * a) offset sz (PGSIZE * j) = Ok (r, s') /\ space P F s' d A T [] /\
    (r = -1 \/ r = 0 /\ forall x, 0 <= x < KERNBASE -> ubyte s' A x =
      if decide (PGSIZE * a + PGSIZE * j <= x < PGSIZE * a + sz) then file !! Z.to_nat (offset + (x - PGSIZE * a)) else ubyte s A x).
Proof.
  intros Ha Hend Hoff Hmap. induction fuel as [|fuel IH]; intros s j Hs Hj Ho Hf; rewrite load_loop_S;
    (destruct (Z.ltb_spec (PGSIZE * j) sz) as [Hlt|Hge];
    [|exists 0, s; split; [done|]; split; [done|]; right; split; [done|]; intros x Hx; by rewrite decide_False by lia]); [lia|].
  destruct (Hmap (a + j)) as [p Hp]; [lia|unfold PGSIZE in *; lia|]. pose proof (sp_rep _ _ _ _ _ _ _ _ Hs) as Hr.
  assert (Hn : 0 <= a + j < USERTOP) by (unfold USERTOP, KERNBASE, PGSIZE in *; lia).
  destruct (rep_ent _ _ _ _ _ Hr _ _ Hp) as [Hn20 [v Hv]].
  replace (u32 (PGSIZE * a + PGSIZE * j)) with (PGSIZE * (a + j) + 0) by (unfold USERTOP in *; page_lia).
  rewrite (walk_found _ s d A T (a + j) 0 Hr Hn20 ltac:(done) v false Hv). run.
  destruct (entry_get _ s d A T (a + j) v Hr Hv) as (x & -> & Hx). rewrite Hp in Hx. destruct Hx as [-> _]. run.
  destruct (proj1 (sp_user _ _ _ _ _ _ _ _ Hs) _ p Hp ltac:(lia)) as (_ & Hg & old & Hold & Hl). cbv zeta. fold (upage p).
  set (n := if sz - PGSIZE * j <? PGSIZE then _ else _).
  assert (Hnn : n = Z.min (sz - PGSIZE * j) PGSIZE) by (unfold n; destruct (Z.ltb_spec (sz - PGSIZE * j) PGSIZE); lia). clearbody n.
  rewrite Hread. destruct (readi_of file (u32 (offset + PGSIZE * j)) n) as [r bs] eqn:Er.
  replace (u32 (offset + PGSIZE * j)) with (offset + PGSIZE * j) in Er by (symmetry; apply Z.mod_small; unfold PGSIZE in *; lia).
  destruct (readi_of_ok file (offset + PGSIZE * j) n r bs ltac:(unfold PGSIZE in *; lia) ltac:(unfold PGSIZE in *; lia) Er) as [Hlb Hbs].
  unfold dget. rewrite Hold. run. rewrite buf_store_Ok by (rewrite ?Hl; unfold PGSIZE in *; lia). run. fold (splice (Z.to_nat 0) bs old).
  set (s1 := put_frame _ _ _).
  assert (Hs1 : space P F s1 d A T []).
  { eapply set_data; [done|done|lia|]. rewrite length_splice; [done|]. rewrite Hl. unfold PGSIZE in *. lia. }
  destruct (Z.eqb_spec r n) as [->|Hne]; cbn [negb]; [|exists (-1), s1; split; [done|]; split; [done|by left]].
  destruct (Hbs eq_refl) as (Hfile & Hwrap & ->). set (bs := take (Z.to_nat n) (drop (Z.to_nat (offset + PGSIZE * j)) file)) in *.
  assert (Hlen : Z.of_nat (length bs) = n) by (unfold bs; rewrite length_take, length_drop; unfold PGSIZE in *; lia).
  assert (Hw : forall x, 0 <= x < KERNBASE -> ubyte s1 A x =
    if decide (PGSIZE * a + PGSIZE * j <= x < PGSIZE * a + PGSIZE * j + n) then file !! Z.to_nat (offset + (x - PGSIZE * a)) else ubyte s A x).
  { intros x Hx. unfold s1. rewrite (write_page _ P F s d A T (a + j) p 0 bs old Hs Hp Hn Hold Hl) by (done || lia).
    rewrite Hlen. replace (PGSIZE * (a + j) + 0) with (PGSIZE * a + PGSIZE * j) by lia. case_decide; [|done].
    unfold bs. rewrite lookup_take_lt, lookup_drop by lia. f_equal. lia. }
  destruct (Z.lt_ge_cases (sz - PGSIZE * j) PGSIZE) as [Hlast|Hmore].
  - assert (Hdone : load_loop (S fuel) readi s1 d (PGSIZE * a) offset sz (u32 (PGSIZE * j + PGSIZE)) = Ok (0, s1)).
    { rewrite load_loop_S. replace (u32 (PGSIZE * j + PGSIZE)) with (PGSIZE * j + PGSIZE) by page_lia.
      by rewrite (proj2 (Z.ltb_ge _ _)) by lia. }
    exists 0, s1. split; [exact Hdone|]. split; [done|]. right. split; [done|]. intros x Hx. rewrite Hw by done.
    replace (PGSIZE * a + PGSIZE * j + n) with (PGSIZE * a + sz) by lia. done.
  - replace (u32 (PGSIZE * j + PGSIZE)) with (PGSIZE * (j + 1)) by page_lia.
    destruct (IH s1 (j + 1) Hs1) as (r' & s' & E & Hs' & Hres); [lia|unfold PGSIZE in *; lia|unfold PGSIZE in *; lia|].
    exists r', s'. split; [exact E|]. split; [done|]. destruct Hres as [?|[-> Hres]]; [by left|right]. split; [done|].
    intros x Hx. rewrite Hres, Hw by done. repeat case_decide; try done; exfalso; lia.
Qed.

Lemma loaduvm_spec P F s d A T addr offset sz : space P F s d A T [] -> addr mod PGSIZE = 0 -> 0 <= addr -> 0 <= sz ->
  addr + sz <= KERNBASE -> 0 <= offset < 2 ^ 32 -> (forall n, addr <= PGSIZE * n -> PGSIZE * n < addr + sz -> is_Some (A !! n)) ->
  exists r s', loaduvm readi s d addr offset sz = Ok (r, s') /\ space P F s' d A T [] /\
    (r = -1 \/ r = 0 /\ forall x, 0 <= x < KERNBASE -> ubyte s' A x =
      if decide (addr <= x < addr + sz) then file !! Z.to_nat (offset + (x - addr)) else ubyte s A x).
Proof.
  intros Hs Hal Ha Hsz Hend Hoff Hmap. unfold loaduvm. rewrite Hal. cbn [Z.eqb negb].
  assert (Ea : addr = PGSIZE * (addr / PGSIZE)) by page_lia. set (a := addr / PGSIZE) in *. clearbody a. subst addr.
  destruct (load_loop_spec P F d A T a offset sz ltac:(unfold PGSIZE in *; lia) Hend ltac:(lia)) with (fuel := Z.to_nat (sz / PGSIZE + 1)) (s := s) (j := 0)
    as (r & s' & E & Hs' & Hres); [intros n Hn; apply Hmap; unfold PGSIZE in *; lia|done|lia|unfold PGSIZE in *; lia|page_lia|].
  rewrite Z.mul_0_r in E. exists r, s'. split; [exact E|]. split; [done|].
  destruct Hres as [?|[-> Hres]]; [by left|right]. split; [done|]. intros x Hx. rewrite Hres by done.
  by replace (PGSIZE * a + PGSIZE * 0) with (PGSIZE * a) by lia.
Qed.
End load.

(** ** A page the process may not use *)

Lemma set_same P F s d A T n v p x : space P F s d A T [] -> T !! (n / 1024) = Some v ->
  0 <= n < USERTOP -> A !! n = Some p -> present x = true -> 0 <= x < 2 ^ 32 -> upage x = upage p ->
  exists s', tset s v (n mod 1024) x = Ok s' /\ space P F s' d (<[n := x]> A) T [] /\ keeps s s'.
Proof.
  intros Hs Hv Hn Hp Hx Hxb Hup. pose proof (sp_rep _ _ _ _ _ _ _ _ Hs) as Hr.
  destruct (entry_set _ s d A T n v x Hr Hv ltac:(unfold USERTOP in *; lia)) as (s' & Ht & Hr' & Hpool & Hoff & Hsv & Hsv0).
  rewrite Hx in Hr'. pose proof (set_keeps _ _ _ _ _ _ _ _ Hr Hv Hoff) as Hk.
  exists s'. split; [done|]. split; [|done].
  assert (Hown : forall y, owned d (<[n := x]> A) T y <-> owned d A T y).
  { intros y. unfold owned. do 2 (apply or_iff_compat_l). split.
    - intros (m & q & [[<- <-]|[Hne Hm]]%lookup_insert_Some & Hu & Hq); [exists n, p; rewrite <- Hq; done|by exists m, q].
    - intros (m & q & Hm & Hu & Hq). destruct (decide (m = n)) as [->|Hne].
      + exists n, x. rewrite lookup_insert_eq. split; [done|]. split; [done|]. congruence.
      + exists m, q. by rewrite lookup_insert_ne. }
  assert (Hvo : owned d A T v) by (right; left; eauto).
  constructor; try done.
  - destruct (user_ok_frame _ s s' A (sp_user _ _ _ _ _ _ _ _ Hs)) as [U1 U2]; [intros m q b _ _; apply Hk|].
    assert (Hsame : forall m q, <[n := x]> A !! m = Some q -> exists q', A !! m = Some q' /\ upage q' = upage q /\ (m <> n -> q' = q)).
    { intros m q [[<- <-]|[Hne Hm]]%lookup_insert_Some; [exists p|exists q]; done. }
    split.
    + intros m q Hm Hu. destruct (Hsame m q Hm) as (q' & Hq' & Huq & Hne). destruct (U1 m q' Hq' Hu) as (Hb & Hg & Hd).
      rewrite <- Huq. split; [|done]. apply lookup_insert_Some in Hm as [[<- <-]|[? Hm]]; [done|]. by rewrite <- Hne.
    + intros m m' q q' Hm Hm' Hu Hu' Hq. destruct (Hsame m q Hm) as (r & Hr1 & Hr2 & _). destruct (Hsame m' q' Hm') as (r' & Hr1' & Hr2' & _).
      eapply U2; [exact Hr1|exact Hr1'|done|done|congruence].
  - eapply pool_ok_set; [apply (sp_pool _ _ _ _ _ _ _ _ Hs)|done|exact Hsv0|done].
  - apply (sp_dir _ _ _ _ _ _ _ _ Hs).
  - intros y Hy. by apply elem_of_nil in Hy.
  - intros y. rewrite Hown. apply (sp_mine _ _ _ _ _ _ _ _ Hs).
  - intros y. rewrite Hown. intros Hy HyE. rewrite Hoff; [by apply (sp_frame _ _ _ _ _ _ _ _ Hs)|]. by intros ->.
  - intros y. rewrite (sp_all _ _ _ _ _ _ _ _ Hs y), Hpool.
    destruct (decide (y = v)) as [->|Hne]; [naive_solver|]. by rewrite Hoff.
Qed.

Lemma clear_user_bit p : 0 <= p < 2 ^ 32 -> PTE_FLAGS p = 7 -> Z.land p (u32 (Z.lnot PTE_U)) = p - 4.
Proof.
  intros Hp Hf. rewrite PTE_FLAGS_spec in Hf. rewrite (Z.sub_nocarry_ldiff p 4).
  - apply Z.bits_inj'. intros n Hn. change (u32 (Z.lnot PTE_U)) with (Z.lxor (Z.ones 32) 4).
    rewrite Z.land_spec, Z.ldiff_spec, Z.lxor_spec. destruct (Z.lt_ge_cases n 32).
    + rewrite Z.ones_spec_low by lia. by destruct (Z.testbit 4 n).
    + replace (Z.testbit p n) with false; [done|]. symmetry. destruct (Z.eq_dec p 0) as [->|]; [apply Z.bits_0|].
      apply Z.bits_above_log2; [lia|]. apply Z.log2_lt_pow2; [lia|]. eapply Z.lt_le_trans; [apply Hp|]. by apply Z.pow_le_mono_r.
  - apply Z.bits_inj'. intros n Hn. rewrite Z.ldiff_spec, Z.bits_0. destruct (Z.eq_dec n 2) as [->|Hne].
    + rewrite (Z.testbit_odd p), Z.shiftr_div_pow2 by lia. change (2 ^ 2) with 4.
      replace (p / 4) with (2 * (512 * (p / PGSIZE)) + 1) by page_lia. by rewrite Z.add_1_r, Z.odd_succ, Z.even_mul.
    + change 4 with (2 ^ 2). by rewrite Z.pow2_bits_false by lia.
Qed.

Lemma clearpteu_spec P F s d A T n p : space P F s d A T [] -> 0 <= n < USERTOP -> A !! n = Some p -> PTE_FLAGS p = 7 ->
  exists s', clearpteu s d (PGSIZE * n) = Ok s' /\ space P F s' d (<[n := p - 4]> A) T [] /\ keeps s s' /\
    Z.land (p - 4) PTE_U = 0 /\ upage (p - 4) = upage p.
Proof.
  intros Hs Hn Hp Hf. pose proof (sp_rep _ _ _ _ _ _ _ _ Hs) as Hr. destruct (rep_ent _ _ _ _ _ Hr _ _ Hp) as [Hn20 [v Hv]].
  destruct (proj1 (sp_user _ _ _ _ _ _ _ _ Hs) n p Hp ltac:(lia)) as (Hpb & _).
  unfold clearpteu. pose proof (walk_found _ s d A T n 0 Hr Hn20 ltac:(done) v false Hv) as Hwalk.
  rewrite Z.add_0_r in Hwalk. rewrite Hwalk. run.
  destruct (entry_get _ s d A T n v Hr Hv) as (x & -> & Hx). rewrite Hp in Hx. destruct Hx as [-> Hpr]. run.
  rewrite clear_user_bit by done. rewrite PTE_FLAGS_spec in Hf.
  assert (Hup : upage (p - 4) = upage p).
  { unfold upage. rewrite !PTE_ADDR_spec by page_lia. f_equal. page_lia. }
  destruct (set_same P F s d A T n v p (p - 4) Hs Hv Hn Hp) as (s' & E & Hs' & Hk); [|page_lia|done|].
  - rewrite present_odd. replace (p - 4) with (2 * (2048 * (p / PGSIZE) + 1) + 1) by page_lia. by rewrite Z.add_1_r, Z.odd_succ, Z.even_mul.
  - exists s'. split; [exact E|]. split; [done|]. split; [done|]. split; [|done].
    replace (p - 4) with (3 + PGSIZE * (p / PGSIZE)) by page_lia. unfold PTE_U. apply Z.bits_inj'. intros k Hk'.
    rewrite Z.land_spec, Z.bits_0. destruct (Z.eq_dec k 2) as [->|Hne].
    + rewrite Z.testbit_odd, Z.shiftr_div_pow2 by lia. change (2 ^ 2) with 4.
      replace ((3 + PGSIZE * (p / PGSIZE)) / 4) with (2 * (512 * (p / PGSIZE))) by page_lia. by rewrite Z.odd_mul.
    + change 4 with (2 ^ 2). rewrite Z.pow2_bits_false by lia. apply andb_false_r.
Qed.

(** ** Two address spaces *)

(** A space built from free pages beside an old one: the old one can be freed,
    and the new one takes its place. *)
Lemma beside P F s d0 A0 T0 s1 d A T : space P F s d0 A0 T0 [] -> space P (frames s) s1 d A T [] ->
  exists F1, space P F1 s1 d0 A0 T0 [] /\
    forall s2, only end_ P F1 s2 -> space P F s2 d A T [] /\ (forall x, owned d A T x -> frames s2 !! x = frames s1 !! x).
Proof.
  intros Ho Hn.
  assert (Hsame : forall x, owned d0 A0 T0 x -> frames s1 !! x = frames s !! x /\ ~ owned d A T x).
  { intros x Hx. destruct (owned_some _ _ _ _ _ _ _ _ _ Ho Hx) as [c Hc].
    assert (Hno : ~ owned d A T x) by (intros Hy; rewrite (sp_mine _ _ _ _ _ _ _ _ Hn x ltac:(by left)) in Hc; done).
    split; [|done]. apply (sp_frame _ _ _ _ _ _ _ _ Hn); [done|apply not_elem_of_nil]. }
  set (F1 := filter (fun e => ~ owned d0 A0 T0 e.1) (frames s1)).
  assert (HF1 : forall x, owned d0 A0 T0 x -> F1 !! x = None).
  { intros x Hx. apply map_lookup_filter_None. right. intros c _ Hc. by apply Hc. }
  assert (HF1' : forall x, ~ owned d0 A0 T0 x -> F1 !! x = frames s1 !! x).
  { intros x Hx. unfold F1. destruct (frames s1 !! x) as [c|] eqn:E.
    - apply map_lookup_filter_Some. done.
    - apply map_lookup_filter_None. by left. }
  exists F1. split.
  - constructor.
    + eapply rep_frame; [apply (sp_rep _ _ _ _ _ _ _ _ Ho)|]. intros x Hx. apply Hsame. unfold owned. naive_solver.
    + eapply user_ok_frame; [apply (sp_user _ _ _ _ _ _ _ _ Ho)|]. intros n p bs Hp Hu Hb.
      destruct (Hsame (upage p)) as [-> _]; [right; right; eauto|done].
    + apply (sp_pool _ _ _ _ _ _ _ _ Hn).
    + apply (sp_dir _ _ _ _ _ _ _ _ Ho).
    + intros x Hx. by apply elem_of_nil in Hx.
    + intros x [Hx|Hx%elem_of_nil]; [by apply HF1|done].
    + intros x Hx _. symmetry. by apply HF1'.
    + apply (sp_all _ _ _ _ _ _ _ _ Hn).
  - intros s2 [Hf2 Hp2 Ha2].
    assert (Hkeep : forall x, owned d A T x -> frames s2 !! x = frames s1 !! x).
    { intros x Hx. rewrite Hf2. apply HF1'. intros Hy. by destruct (Hsame x Hy). }
    split; [|done]. constructor; [| |done| | | | |done].
    + eapply rep_frame; [apply (sp_rep _ _ _ _ _ _ _ _ Hn)|]. intros x Hx. apply Hkeep. unfold owned. naive_solver.
    + eapply user_ok_frame; [apply (sp_user _ _ _ _ _ _ _ _ Hn)|]. intros n p bs Hp Hu Hb. rewrite Hkeep; [done|right; right; eauto].
    + apply (sp_dir _ _ _ _ _ _ _ _ Hn).
    + intros x Hx. by apply elem_of_nil in Hx.
    + intros x [Hx|Hx%elem_of_nil]; [|done]. pose proof (sp_mine _ _ _ _ _ _ _ _ Hn x ltac:(by left)) as Hnone.
      rewrite <- (sp_frame _ _ _ _ _ _ _ _ Ho x); [done| |apply not_elem_of_nil]. intros Hy. by destruct (Hsame x Hy).
    + intros x Hx _. rewrite Hf2. destruct (decide (owned d0 A0 T0 x)) as [Hy|Hy].
      * rewrite HF1 by done. symmetry. apply (sp_mine _ _ _ _ _ _ _ _ Ho). by left.
      * rewrite HF1' by done. rewrite (sp_frame _ _ _ _ _ _ _ _ Hn) by (done || apply not_elem_of_nil).
        apply (sp_frame _ _ _ _ _ _ _ _ Ho); [done|apply not_elem_of_nil].
Qed.
End image.
