(* ===== verification/Xv6Execs.v ===== *)
(** What [exec] does ([Xv6Exec]): the image of the program, the stack of
    arguments, and the exchange of address spaces. *)

From S2P Require Import Proc.
From S2P Require Import Prelude Bytes Xv6String Xv6Kalloc Xv6Vm Xv6Pgtab Xv6Uvm Xv6Vmem Xv6Exec Xv6Image Xv6Syscall.
From S2P Require Import Xv6Kalloc.

(** ** The image of a program *)

(** The program headers of [file], [n] of them from [off]. *)
Fixpoint headers (n : nat) (file : list Z) (off : Z) : list proghdr :=
  match n with
  | O => []
  | S n' => ph_of (take (Z.to_nat PROGHDR) (drop (Z.to_nat off) file)) :: headers n' file (u32 (off + PROGHDR))
  end.

(** The bytes of memory after loading a segment, and after loading all. *)
Definition put_seg (file : list Z) (img : Z -> Z) (ph : proghdr) : Z -> Z :=
  if ph_type ph =? ELF_PROG_LOAD then
    fun x => if decide (ph_vaddr ph <= x < ph_vaddr ph + ph_filesz ph)
             then default 0 (file !! Z.to_nat (ph_off ph + (x - ph_vaddr ph))) else img x
  else img.

Definition load_img (file : list Z) (phs : list proghdr) : Z -> Z := foldl (put_seg file) (fun _ => 0) phs.

Definition page_of (img : Z -> Z) (m : Z) : list Z := (fun j => img (PGSIZE * m + j)) <$> seqZ 0 PGSIZE.

(** User memory is [img] on the pages below [sz], all accessible, and nothing
    else. *)
Definition image_ok (s : vmem) (A : gmap Z Z) (sz : Z) (img : Z -> Z) : Prop :=
  0 <= sz < KERNBASE /\
  (forall m, m < USERTOP -> uview s A m = if decide (0 <= m /\ PGSIZE * m < sz) then Some (7, page_of img m) else None) /\
  (forall x, PGSIZE * first_page sz <= x -> img x = 0).

Section execs.
Context (end_ : Z) (Hend : KERNBASE < end_).

Abbreviation space := (space end_).

Lemma page_lookup img m j : 0 <= j < PGSIZE -> page_of img m !! Z.to_nat j = Some (img (PGSIZE * m + j)).
Proof. intros Hj. unfold page_of. rewrite list_lookup_fmap, lookup_seqZ_lt by lia. cbn. do 2 f_equal. lia. Qed.

Lemma length_page img m : length (page_of img m) = Z.to_nat PGSIZE.
Proof. unfold page_of. by rewrite length_fmap, length_seqZ. Qed.

Lemma page_eq img m bs : length bs = Z.to_nat PGSIZE ->
  (forall j, 0 <= j < PGSIZE -> bs !! Z.to_nat j = Some (img (PGSIZE * m + j))) -> bs = page_of img m.
Proof.
  intros Hl Hb. apply list_eq. intros i. destruct (decide (i < Z.to_nat PGSIZE)%nat) as [Hi|Hi].
  - specialize (Hb (Z.of_nat i) ltac:(lia)). rewrite Nat2Z.id in Hb. rewrite Hb, <- page_lookup, Nat2Z.id by lia. done.
  - rewrite !lookup_ge_None_2; [done|rewrite length_page; lia|lia].
Qed.

Lemma image_ubyte s A sz img x : image_ok s A sz img -> 0 <= x < PGSIZE * first_page sz -> ubyte s A x = Some (img x).
Proof.
  intros (Hsz & Hv & _) Hx. destruct (first_page_spec sz ltac:(lia)) as (_ & Hf & Hfp). unfold ubyte. unfold USERTOP in *.
  assert (x / PGSIZE < first_page sz) by (unfold PGSIZE in *; Z.div_mod_to_equations; lia).
  rewrite Hv by (unfold USERTOP; lia). rewrite decide_True by (split; [page_lia|by apply Hfp]). cbn.
  rewrite page_lookup by page_lia. do 2 f_equal. page_lia.
Qed.

Lemma image_pages P F s d A T sz img m : space P F s d A T [] -> image_ok s A sz img -> 0 <= m -> PGSIZE * m < sz ->
  exists p, A !! m = Some p /\ PTE_FLAGS p = 7.
Proof.
  intros Hs (Hsz & Hv & _) Hm Hlt. specialize (Hv m ltac:(unfold USERTOP, KERNBASE, PGSIZE in *; lia)). rewrite decide_True in Hv by done.
  unfold uview in Hv. destruct (A !! m) as [p|]; [|done]. cbn in Hv. exists p. split; [done|].
  destruct (frames s !! upage p) as [[|]|]; try done. by injection Hv.
Qed.

Lemma image_free P F s d A T sz img m : space P F s d A T [] -> image_ok s A sz img -> sz <= PGSIZE * m -> m < USERTOP -> A !! m = None.
Proof.
  intros Hs (Hsz & Hv & _) Hm Hlt. specialize (Hv m Hlt). rewrite decide_False in Hv by lia.
  destruct (A !! m) as [p|] eqn:E; [|done]. exfalso.
  assert (is_Some (uview s A m)) as [? ?] by (eapply (uview_present end_); [done|done|by rewrite E]). congruence.
Qed.

(** Growing by zeroed pages. *)
Lemma image_grow P F s d A T sz img newsz : space P F s d A T [] -> image_ok s A sz img -> sz <= newsz < KERNBASE ->
  exists r s' A' T', allocuvm end_ s d sz newsz = Ok (r, s') /\ space P F s' d A' T' [] /\
    (forall m, USERTOP <= m -> A' !! m = A !! m) /\ (r = 0 \/ r = newsz /\ image_ok s' A' newsz img).
Proof.
  intros Hs Hi Hn. pose proof Hi as (Hsz & Hv & Hz). destruct (first_page_spec sz ltac:(lia)) as (_ & Hf & Hfp).
  destruct (allocuvm_spec end_ Hend P F s d A T sz newsz Hs ltac:(lia) ltac:(lia)) as (r & s' & A' & T' & E & Hs' & Hk & Hres).
  { intros m Hm1 Hm2. eapply image_free; [done|done| |unfold USERTOP, KERNBASE, PGSIZE in *; lia].
    destruct (Z.lt_ge_cases (PGSIZE * m) sz) as [Hlt|]; [apply Hfp in Hlt; lia|done]. }
  exists r, s', A', T'. split; [done|]. split; [done|]. split; [done|]. destruct Hres as [[-> Hu]|[-> _]]; [right|by left].
  split; [done|]. split; [lia|]. destruct (first_page_spec newsz ltac:(lia)) as (_ & Hf' & Hfp'). split.
  - intros m Hm. rewrite Hu, Hv by done. specialize (Hfp m). repeat case_decide; try done; try lia.
    f_equal. f_equal. apply page_eq; [apply length_zeros|]. intros j Hj. rewrite Hz by (unfold PGSIZE in *; lia).
    unfold zeros. apply lookup_replicate_2. unfold PGSIZE in *. lia.
  - intros x Hx. apply Hz. specialize (Hfp' (first_page sz - 1)). specialize (Hfp (first_page sz - 1)). unfold PGSIZE in *. lia.
Qed.

(** A change of some bytes below [sz]. *)
Lemma image_write P F s s' d A T sz img img' : space P F s d A T [] -> space P F s' d A T [] -> image_ok s A sz img ->
  (forall x, 0 <= x < PGSIZE * first_page sz -> ubyte s' A x = Some (img' x)) -> (forall x, PGSIZE * first_page sz <= x -> img' x = 0) ->
  image_ok s' A sz img'.
Proof.
  intros Hs Hs' Hi Hb Hz. pose proof Hi as (Hsz & Hv & _). destruct (first_page_spec sz ltac:(lia)) as (_ & Hf & Hfp).
  split; [done|]. split; [|done]. intros m Hm. case_decide as Hd.
  - destruct (image_pages _ _ _ _ _ _ _ _ m Hs Hi ltac:(lia) ltac:(lia)) as (p & Hp & Hfl).
    destruct (proj1 (sp_user _ _ _ _ _ _ _ _ Hs') m p Hp Hm) as (_ & _ & bs & Hbs & Hl).
    assert (Hu : uview s' A m = Some (7, bs)) by (unfold uview; rewrite Hp; cbn; by rewrite Hbs, Hfl).
    rewrite Hu. do 2 f_equal. apply page_eq; [done|]. intros j Hj.
    rewrite <- Hb; [|split; [unfold PGSIZE in *; lia|destruct Hd as [_ Hd]; apply Hfp in Hd; unfold PGSIZE in *; lia]].
    unfold ubyte. replace ((PGSIZE * m + j) / PGSIZE) with m by page_lia. rewrite Hu. cbn. f_equal. f_equal. page_lia.
  - specialize (Hv m Hm). rewrite decide_False in Hv by done. destruct (uview s' A m) eqn:E; [|done].
    assert (is_Some (uview s A m)) as [? ?]; [|congruence]. apply (uview_present end_ P F s d A T m Hs Hm).
    by apply (uview_present end_ P F s' d A T m Hs' Hm).
Qed.

(** Loading a segment. *)
Lemma image_load P F s d A T sz img file readi ph : (forall off n, readi off n = readi_of file off n) ->
  space P F s d A T [] -> image_ok s A sz img -> ph_vaddr ph mod PGSIZE = 0 -> 0 <= ph_vaddr ph -> 0 <= ph_filesz ph ->
  ph_vaddr ph + ph_filesz ph <= sz -> 0 <= ph_off ph < 2 ^ 32 -> ph_type ph = ELF_PROG_LOAD ->
  exists r s', loaduvm readi s d (ph_vaddr ph) (ph_off ph) (ph_filesz ph) = Ok (r, s') /\ space P F s' d A T [] /\
    (r = -1 \/ r = 0 /\ image_ok s' A sz (put_seg file img ph)).
Proof.
  intros Hread Hs Hi Hal Hva Hfs Hsz Hoff Hty. pose proof Hi as (Hsz' & Hv & Hz). destruct (first_page_spec sz ltac:(lia)) as (_ & Hf & Hfp).
  destruct (loaduvm_spec end_ file readi Hread P F s d A T (ph_vaddr ph) (ph_off ph) (ph_filesz ph) Hs Hal Hva Hfs ltac:(lia) Hoff)
    as (r & s' & E & Hs' & Hres).
  { intros n Hn1 Hn2. destruct (image_pages _ _ _ _ _ _ _ _ n Hs Hi) as (p & Hp & _); [unfold PGSIZE in *; lia|lia|eauto]. }
  exists r, s'. split; [done|]. split; [done|]. destruct Hres as [?|[-> Hres]]; [by left|right]. split; [done|].
  assert (Htop : sz <= PGSIZE * first_page sz).
  { destruct (Z.lt_ge_cases (PGSIZE * first_page sz) sz) as [Hlt|]; [apply Hfp in Hlt; lia|done]. }
  assert (Hput : forall x, put_seg file img ph x = if decide (ph_vaddr ph <= x < ph_vaddr ph + ph_filesz ph)
             then default 0 (file !! Z.to_nat (ph_off ph + (x - ph_vaddr ph))) else img x) by (intros x; unfold put_seg; by rewrite Hty).
  eapply image_write; [exact Hs|done|done| |].
  - intros x Hx. rewrite Hput. assert (Hxk : 0 <= x < KERNBASE) by (unfold USERTOP, KERNBASE, PGSIZE in *; lia).
    pose proof (image_ubyte _ _ _ _ x Hi Hx) as Hb. specialize (Hres x Hxk). case_decide; [|by rewrite Hres].
    rewrite Hres. destruct (file !! _) eqn:El; [done|]. exfalso.
    destruct (proj2 (uview_present end_ P F s' d A T (x / PGSIZE) Hs' ltac:(unfold USERTOP in *; page_lia))) as [[f bs] Hu].
    { destruct (image_pages _ _ _ _ _ _ _ _ (x / PGSIZE) Hs Hi) as (p & Hp & _); [page_lia|page_lia|eauto]. }
    unfold ubyte in Hres. rewrite Hu in Hres. cbn in Hres. apply lookup_ge_None in Hres.
    unfold uview in Hu. destruct (A !! (x / PGSIZE)) as [p|] eqn:Ep; [|done]. cbn in Hu.
    destruct (proj1 (sp_user _ _ _ _ _ _ _ _ Hs') _ p Ep ltac:(unfold USERTOP in *; page_lia)) as (_ & _ & bs' & Hbs' & Hl).
    rewrite Hbs' in Hu. injection Hu as _ <-. page_lia.
  - intros x Hx. rewrite Hput, decide_False by lia. by apply Hz.
Qed.

Lemma u32_bounds z : 0 <= u32 z < 2 ^ 32.
Proof. by apply Z.mod_pos_bound. Qed.

Lemma ph_fields b : (0 <= ph_off (ph_of b) < 2 ^ 32) /\ (0 <= ph_vaddr (ph_of b) < 2 ^ 32) /\
  (0 <= ph_filesz (ph_of b) < 2 ^ 32) /\ (0 <= ph_memsz (ph_of b) < 2 ^ 32).
Proof. cbn. split_and!; apply u32_bounds. Qed.

(** [allocuvm] on a size that may be below the present one. *)
Lemma image_alloc P F s d A T sz img newsz : space P F s d A T [] -> image_ok s A sz img -> 0 <= newsz ->
  exists r s' A' T', allocuvm end_ s d sz newsz = Ok (r, s') /\ space P F s' d A' T' [] /\
    (forall m, USERTOP <= m -> A' !! m = A !! m) /\ (r = 0 \/ newsz <= r /\ image_ok s' A' r img).
Proof.
  intros Hs Hi Hn. pose proof Hi as (Hsz & _). destruct (Z.le_gt_cases KERNBASE newsz) as [Hbig|Hsmall].
  - exists 0, s, A, T. unfold allocuvm. rewrite Z.geb_leb, (proj2 (Z.leb_le _ _)) by lia. split; [done|]. split; [done|]. split; [done|by left].
  - destruct (Z.lt_ge_cases newsz sz) as [Hlt|Hge].
    + exists sz, s, A, T. unfold allocuvm. rewrite Z.geb_leb, (proj2 (Z.leb_gt _ _)), (proj2 (Z.ltb_lt _ _)) by lia.
      split; [done|]. split; [done|]. split; [done|right]. split; [lia|done].
    + destruct (image_grow P F s d A T sz img newsz Hs Hi ltac:(lia)) as (r & s' & A' & T' & E & Hs' & Hk & Hres).
      exists r, s', A', T'. split; [done|]. split; [done|]. split; [done|]. destruct Hres as [?|[-> ?]]; [by left|right]. split; [lia|done].
Qed.

Lemma load_segs_spec P F d file readi : (forall off n, readi off n = readi_of file off n) -> forall n s A T off sz img,
  space P F s d A T [] -> image_ok s A sz img -> 0 <= off < 2 ^ 32 ->
  exists r s' A' T', load_segs end_ n readi s d off sz = Ok (r, s') /\ space P F s' d A' T' [] /\
    (forall m, USERTOP <= m -> A' !! m = A !! m) /\
    (r = None \/ exists sz', r = Some sz' /\ image_ok s' A' sz' (foldl (put_seg file) img (headers n file off))).
Proof.
  intros Hread. induction n as [|n IH]; intros s A T off sz img Hs Hi Ho; cbn [load_segs headers foldl].
  { exists (Some sz), s, A, T. split; [done|]. split; [done|]. split; [done|]. right. by exists sz. }
  assert (Hbad : forall s' A' T', space P F s' d A' T' [] -> (forall m, USERTOP <= m -> A' !! m = A !! m) ->
    exists r s'' A'' T'', Ok (@None Z, s') = Ok (r, s'') /\ space P F s'' d A'' T'' [] /\
      (forall m, USERTOP <= m -> A'' !! m = A !! m) /\
      (r = None \/ exists sz', r = Some sz' /\ image_ok s'' A'' sz'
         (foldl (put_seg file) (put_seg file img (ph_of (take (Z.to_nat PROGHDR) (drop (Z.to_nat off) file)))) (headers n file (u32 (off + PROGHDR)))))).
  { intros s' A' T' Hs' Hk'. exists None, s', A', T'. split; [done|]. split; [done|]. split; [done|by left]. }
  rewrite Hread. destruct (readi_of file off PROGHDR) as [r b] eqn:Er.
  destruct (Z.eqb_spec r PROGHDR) as [->|Hne]; cbn [negb]; [|by apply (Hbad s A T)].
  destruct (readi_of_ok file off PROGHDR _ _ ltac:(lia) ltac:(done) Er) as [_ Hb]. destruct (Hb eq_refl) as (_ & _ & ->).
  set (ph := ph_of _) in *. destruct (ph_fields (take (Z.to_nat PROGHDR) (drop (Z.to_nat off) file))) as (Hf1 & Hf2 & Hf3 & Hf4). fold ph in Hf1, Hf2, Hf3, Hf4.
  destruct (Z.eqb_spec (ph_type ph) ELF_PROG_LOAD) as [Hty|Hty]; cbn [negb].
  2:{ replace (put_seg file img ph) with img by (unfold put_seg; by rewrite (proj2 (Z.eqb_neq _ _) Hty)).
      apply (IH s A T); [done|done|apply u32_bounds]. }
  destruct (Z.ltb_spec (ph_memsz ph) (ph_filesz ph)) as [|Hmem]; [by apply (Hbad s A T)|].
  destruct (Z.ltb_spec (u32 (ph_vaddr ph + ph_memsz ph)) (ph_vaddr ph)) as [|Hw]; [by apply (Hbad s A T)|].
  assert (Hnew : u32 (ph_vaddr ph + ph_memsz ph) = ph_vaddr ph + ph_memsz ph).
  { clear -Hf2 Hf4 Hw. unfold u32 in *. Z.div_mod_to_equations. lia. }
  rewrite Hnew. destruct (image_alloc P F s d A T sz img (ph_vaddr ph + ph_memsz ph) Hs Hi ltac:(lia)) as (r1 & s1 & A1 & T1 & -> & Hs1 & Hk1 & Hr1). run.
  destruct (Z.eqb_spec r1 0) as [->|Hr0]; [by apply (Hbad s1 A1 T1)|]. destruct Hr1 as [?|[Hle Hi1]]; [done|].
  destruct (Z.eqb_spec (ph_vaddr ph mod PGSIZE) 0) as [Hal|Hal]; cbn [negb]; [|by apply (Hbad s1 A1 T1)].
  destruct (image_load P F s1 d A1 T1 r1 img file readi ph Hread Hs1 Hi1 Hal ltac:(lia) ltac:(lia) ltac:(lia) Hf1 Hty)
    as (r2 & s2 & -> & Hs2 & Hr2). run.
  destruct Hr2 as [->|[-> Hi2]]; [by apply (Hbad s2 A1 T1)|]. cbn [Z.ltb Z.compare].
  destruct (IH s2 A1 T1 (u32 (off + PROGHDR)) r1 _ Hs2 Hi2 (u32_bounds _)) as (r3 & s3 & A3 & T3 & E & Hs3 & Hk3 & Hr3).
  exists r3, s3, A3, T3. split; [done|]. split; [done|]. split; [|done]. intros m Hm. rewrite Hk3 by done. by apply Hk1.
Qed.

(** ** The stack *)

Lemma word_mask x : 0 <= x < 2 ^ 32 -> Z.land x (u32 (Z.lnot 3)) = x / 4 * 4.
Proof.
  intros Hb. change (u32 (Z.lnot 3)) with (Z.shiftl (Z.ones 30) 2). change 4 with (2 ^ 2).
  rewrite <- Z.shiftr_div_pow2, <- Z.shiftl_mul_pow2 by lia.
  apply Z.bits_inj'. intros n Hn. rewrite Z.land_spec. destruct (Z.lt_ge_cases n 2).
  - rewrite !Z.shiftl_spec_low by lia. by rewrite andb_false_r.
  - rewrite !Z.shiftl_spec, Z.shiftr_spec by lia. replace (n - 2 + 2) with n by lia. destruct (Z.lt_ge_cases n 32).
    + rewrite Z.ones_spec_low by lia. by rewrite andb_true_r.
    + replace (Z.testbit x n) with false; [done|]. destruct (Z.eq_dec x 0) as [->|]; [by rewrite Z.bits_0|].
      symmetry. apply Z.bits_above_log2; [lia|]. apply Z.log2_lt_pow2; [lia|]. eapply Z.lt_le_trans; [apply Hb|]. by apply Z.pow_le_mono_r.
Qed.

(** A stack page [g + 1] above an inaccessible page [g]. *)
Definition stack_ok (A : gmap Z Z) (g : Z) : Prop :=
  0 <= g /\ g + 1 < USERTOP /\ user_page A (g + 1) /\ exists p, A !! g = Some p /\ Z.land p PTE_U = 0.

(** Pushing: the write is inside the stack page, or it starts in the page below
    and fails without any effect. *)
Lemma push_bytes P F s d A T g sp buf len : space P F s d A T [] -> stack_ok A g ->
  PGSIZE * g <= sp -> 0 < len -> sp + len <= PGSIZE * (g + 2) -> len <= Z.of_nat (length buf) ->
  exists r s', copyout s d sp buf len = Ok (r, s') /\ space P F s' d A T [] /\
    (r = -1 \/ r = 0 /\ PGSIZE * (g + 1) <= sp /\
     forall x, 0 <= x < KERNBASE -> ubyte s' A x = if decide (sp <= x < sp + len) then buf !! Z.to_nat (x - sp) else ubyte s A x).
Proof.
  intros Hs (Hg & Hg' & Hup & q & Hq & Hqu) Hsp Hlen Htop Hbuf. destruct (Z.lt_ge_cases sp (PGSIZE * (g + 1))) as [Hlow|Hin].
  - exists (-1), s. split; [|split; [done|by left]]. unfold copyout. rewrite copyout_loop_S. rewrite Z.gtb_ltb, (proj2 (Z.ltb_lt _ _)) by lia.
    cbv zeta. rewrite PGROUNDDOWN_spec by (unfold USERTOP, PGSIZE in *; lia). replace (sp / PGSIZE * PGSIZE) with (PGSIZE * g) by page_lia.
    pose proof (sp_rep _ _ _ _ _ _ _ _ Hs) as Hr. destruct (rep_ent _ _ _ _ _ Hr _ _ Hq) as [Hn20 [v Hv]]. unfold uva2ka.
    pose proof (walk_found _ s d A T g 0 Hr Hn20 ltac:(done) v false Hv) as Hwalk. rewrite Z.add_0_r in Hwalk. rewrite Hwalk. run.
    destruct (entry_get _ s d A T g v Hr Hv) as (x & -> & Hx). rewrite Hq in Hx. destruct Hx as [-> Hpr]. run. rewrite Hpr, Hqu. done.
  - destruct (copyout_loop_spec end_ P F d A T (S (Z.to_nat (len / PGSIZE + 1))) s sp buf len Hs) as (s' & E & Hs' & Hx).
    + unfold PGSIZE in *; lia.
    + lia.
    + unfold USERTOP, KERNBASE, PGSIZE in *. lia.
    + done.
    + page_lia.
    + intros n Hn1 Hn2 Hn3. replace n with (g + 1) by (unfold PGSIZE in *; lia). done.
    + exists 0, s'. split; [exact E|]. split; [done|]. right. done.
Qed.

(** The bytes [bs] are in user memory at [x]. *)
Definition holds (s : vmem) (A : gmap Z Z) (x : Z) (bs : list Z) : Prop :=
  forall j c, bs !! j = Some c -> ubyte s A (x + Z.of_nat j) = Some c.

Lemma holds_frame s s' A x bs lo hi : holds s A x bs -> 0 <= x -> x + Z.of_nat (length bs) <= KERNBASE ->
  (forall y, 0 <= y < KERNBASE -> ~ lo <= y < hi -> ubyte s' A y = ubyte s A y) -> hi <= x -> holds s' A x bs.
Proof.
  intros H Hx Hl Hf Hhi j c Hj. pose proof (lookup_lt_Some _ _ _ Hj). rewrite Hf by lia. by apply H.
Qed.

Lemma splice_cons o x xs buf : (o + S (length xs) <= length buf)%nat -> splice (S o) xs (<[o := x]> buf) = splice o (x :: xs) buf.
Proof.
  intros Hl. apply list_eq. intros j. rewrite !splice_lookup by (rewrite ?length_insert; cbn; lia). cbn [length].
  destruct (decide (j = o)) as [->|Hne].
  - rewrite decide_False, decide_True by lia. rewrite list_lookup_insert_eq by lia. by rewrite Nat.sub_diag.
  - rewrite list_lookup_insert_ne by done. repeat case_decide; try lia; [|done].
    replace (j - o)%nat with (S (j - S o)) by lia. done.
Qed.

Definition USTACK : nat := 36.

Lemma push_args_spec P F d A T g : stack_ok A g -> forall argv s sp argc ustack, space P F s d A T [] ->
  PGSIZE * (g + 1) <= sp <= PGSIZE * (g + 2) -> Forall (fun a => Z.of_nat (length a) < PGSIZE) argv ->
  0 <= argc <= MAXARG -> length ustack = USTACK ->
  exists r s', push_args argv s d sp argc ustack = Ok (r, s') /\ space P F s' d A T [] /\
    (r = None \/ exists sp' ptrs, r = Some (sp', argc + Z.of_nat (length argv), splice (Z.to_nat (3 + argc)) ptrs ustack) /\
       argc + Z.of_nat (length argv) <= MAXARG /\ length ptrs = length argv /\ PGSIZE * (g + 1) <= sp' <= sp /\
       (forall x, 0 <= x < KERNBASE -> ~ sp' <= x < sp -> ubyte s' A x = ubyte s A x) /\
       (forall i a, argv !! i = Some a -> exists p, ptrs !! i = Some p /\ sp' <= p /\ p + Z.of_nat (length a) + 1 <= sp /\
          holds s' A p (a ++ [0]))).
Proof.
  intros Hst. induction argv as [|a argv IH]; intros s sp argc ustack Hs Hsp Hargs Hargc Hus; cbn [push_args].
  { exists (Some (sp, argc, ustack)), s. split; [done|]. split; [done|]. right. exists sp, []. split; [|split; [cbn; lia|]].
    - cbn. unfold splice. cbn. rewrite Nat.add_0_r, take_drop. repeat f_equal. lia.
    - split; [done|]. split; [lia|]. done. }
  apply Forall_cons in Hargs as [Ha Hargs]. destruct (Z.geb_spec argc MAXARG) as [|Hlt]; [exists None, s; split; [done|]; split; [done|by left]|].
  set (len := Z.of_nat (length a) + 1). pose proof Hst as (Hg & Hg' & _). cbv zeta.
  assert (Hu : u32 (sp - len) = sp - len) by (apply Z.mod_small; unfold len, USERTOP, PGSIZE in *; lia).
  rewrite Hu, word_mask by (unfold len, USERTOP, PGSIZE in *; lia). set (sp1 := (sp - len) / 4 * 4).
  assert (Hsp1 : PGSIZE * g <= sp1 /\ sp1 + len <= sp).
  { unfold sp1, len. unfold PGSIZE in *. Z.div_mod_to_equations. lia. }
  destruct (push_bytes P F s d A T g sp1 (a ++ [0]) len Hs Hst ltac:(lia) ltac:(unfold len; lia) ltac:(lia)) as (r & s1 & -> & Hs1 & Hr).
  { rewrite length_app. cbn. unfold len. lia. }
  run. destruct Hr as [->|(-> & Hin & Hw)]; [exists None, s1; split; [done|]; split; [done|by left]|]. cbn [Z.ltb Z.compare].
  unfold aset. rewrite (proj2 (Z.leb_le _ _)), (proj2 (Z.ltb_lt _ _)) by (unfold USTACK, MAXARG in *; lia). cbn [andb]. run.
  destruct (IH s1 sp1 (argc + 1) (<[Z.to_nat (3 + argc) := sp1]> ustack) Hs1) as (r & s2 & E & Hs2 & Hr);
    [unfold len in *; lia|done|lia|by rewrite length_insert|].
  exists r, s2. split; [exact E|]. split; [done|]. destruct Hr as [->|(sp2 & ptrs & -> & Hc & Hlp & Hsp2 & Hf & Hargv)]; [by left|right].
  assert (Hk : PGSIZE * (g + 2) <= KERNBASE) by (unfold USERTOP, KERNBASE, PGSIZE in *; lia).
  exists sp2, (sp1 :: ptrs). cbn [length]. split; [|split; [lia|split; [lia|split; [lia|split]]]].
  - replace (Z.to_nat (3 + (argc + 1))) with (S (Z.to_nat (3 + argc))) by lia.
    rewrite splice_cons by (unfold USTACK, MAXARG in *; lia). do 3 f_equal. lia.
  - intros x Hx Hno. rewrite Hf by lia. rewrite Hw, decide_False by lia. done.
  - intros [|i] b Hb.
    + injection Hb as <-. exists sp1. split; [done|]. split; [lia|]. split; [unfold len in *; lia|].
      eapply (holds_frame s1 s2 A sp1 (a ++ [0]) sp2 sp1).
      * intros j c Hj. pose proof (lookup_lt_Some _ _ _ Hj) as Hjl. rewrite length_app in Hjl. cbn in Hjl.
        rewrite Hw, decide_True by (unfold len, PGSIZE in *; lia). rewrite <- Hj. f_equal. lia.
      * unfold PGSIZE in *. lia.
      * rewrite length_app. cbn. unfold len in *. lia.
      * intros y Hy Hno. apply Hf; [done|lia].
      * lia.
    + destruct (Hargv i b Hb) as (q & Hq & Hq1 & Hq2 & Hq3). exists q. split; [done|]. split; [lia|]. split; [lia|done].
Qed.

(** ** What the new program finds *)

(** The process as the system calls see it. *)
Definition uproc (s : vmem) (A : gmap Z Z) (sz sp : Z) : user := Xv6Syscall.User sz sp (fun x => default 0 (ubyte s A x)).

(** The frame of [main]: [argc], [argv], and the strings with a null pointer at
    the end, as [argint], [fetchint] and [fetchstr] read them. *)
Definition has_args (u : user) (argv : list (list Z)) : Prop :=
  let argc := Z.of_nat (length argv) in
  let av := uesp u + 12 in
  argint u 0 = Some argc /\ argint u 1 = Some av /\ fetchint u (av + 4 * argc) = Some 0 /\
  forall i a, argv !! i = Some a -> exists p, fetchint u (av + 4 * Z.of_nat i) = Some p /\
    fetchstr u p = Some (Z.of_nat (length a)) /\ user_bytes u p (Z.of_nat (length a)) = a.

Lemma words_lookup l i w k : l !! i = Some w -> (k < 4)%nat -> words l !! (4 * i + k)%nat = le32 w !! k.
Proof.
  revert i. induction l as [|x l IH]; intros i Hi Hk; [done|]. change (words (x :: l)) with (le32 x ++ words l).
  destruct i as [|i]; cbn in Hi.
  - injection Hi as ->. rewrite lookup_app_l; [done|]. rewrite length_le32. lia.
  - rewrite lookup_app_r by (rewrite length_le32; lia). rewrite length_le32, <- (IH i Hi Hk). f_equal. lia.
Qed.

Lemma length_words l : length (words l) = (4 * length l)%nat.
Proof. induction l as [|x l IH]; [done|]. change (words (x :: l)) with (le32 x ++ words l). rewrite length_app, length_le32, IH. cbn. lia. Qed.

(** A word of an array in memory. *)
Lemma read_word s A sz sp x l n i w : holds s A x (take (4 * n) (words l)) -> l !! i = Some w -> (i < n)%nat ->
  0 <= x -> x + 4 * Z.of_nat n <= sz -> sz < 2 ^ 31 -> in_s32 w -> fetchint (uproc s A sz sp) (x + 4 * Z.of_nat i) = Some w.
Proof.
  intros Hh Hi Hn Hx Hsz Hmax Hw. unfold fetchint, uproc. cbn [usz umem]. rewrite Z.geb_leb, (proj2 (Z.leb_gt _ _)) by lia.
  assert (u32 (x + 4 * Z.of_nat i + 4) = x + 4 * Z.of_nat i + 4) as -> by (apply Z.mod_small; lia).
  rewrite Z.gtb_ltb, (proj2 (Z.ltb_ge _ _)) by lia. cbn [orb]. f_equal. unfold load_int.
  assert (Hb : forall k c, (k < 4)%nat -> le32 w !! k = Some c -> default 0 (ubyte s A (x + 4 * Z.of_nat i + Z.of_nat k)) = c).
  { intros k c Hk Hc. replace (x + 4 * Z.of_nat i + Z.of_nat k) with (x + Z.of_nat (4 * i + k)) by lia. rewrite (Hh _ c); [done|].
    rewrite lookup_take_lt by lia. by rewrite (words_lookup l i w k). }
  pose proof (Hb 0%nat _ ltac:(lia) eq_refl) as H0. change (Z.of_nat 0) with 0 in H0. rewrite Z.add_0_r in H0.
  pose proof (Hb 1%nat _ ltac:(lia) eq_refl) as H1. pose proof (Hb 2%nat _ ltac:(lia) eq_refl) as H2. pose proof (Hb 3%nat _ ltac:(lia) eq_refl) as H3.
  change (Z.of_nat 1) with 1 in H1. change (Z.of_nat 2) with 2 in H2. change (Z.of_nat 3) with 3 in H3. rewrite H0, H1, H2, H3.
  pose proof (get32_le32 w [] Hw) as Hg. done.
Qed.

(** A string in memory. *)
Lemma read_string s A sz sp p a : holds s A p (a ++ [0]) -> 0 ∉ a -> 0 <= p -> p + Z.of_nat (length a) < sz ->
  fetchstr (uproc s A sz sp) p = Some (Z.of_nat (length a)) /\ user_bytes (uproc s A sz sp) p (Z.of_nat (length a)) = a.
Proof.
  intros Hh H0 Hp Hsz. set (u := uproc s A sz sp).
  assert (Hb : forall j c, (a ++ [0]) !! j = Some c -> umem u (p + Z.of_nat j) = c) by (intros j c Hj; cbn; by rewrite (Hh j c Hj)).
  assert (Hend' : umem u (p + Z.of_nat (length a)) = 0) by (apply Hb; by rewrite lookup_app_r, Nat.sub_diag by lia).
  assert (Hin : forall j, 0 <= j < Z.of_nat (length a) -> exists c, a !! Z.to_nat j = Some c /\ umem u (p + j) = c /\ c <> 0).
  { intros j Hj. destruct (lookup_lt_is_Some_2 a (Z.to_nat j) ltac:(lia)) as [c Hc]. exists c. split; [done|]. split.
    - rewrite <- (Hb (Z.to_nat j) c); [f_equal; lia|]. by apply lookup_app_l_Some.
    - intros ->. apply H0. by eapply list_elem_of_lookup_2. }
  split.
  - unfold fetchstr. change (usz u) with sz. rewrite Z.geb_leb, (proj2 (Z.leb_gt _ _)) by lia.
    pose proof (find_nul_spec (Z.to_nat (sz - p)) (umem u) p) as Hf. destruct (find_nul _ _ _) as [e|]; cbn.
    + destruct Hf as (He & He0 & Hne). f_equal.
      destruct (Z.lt_trichotomy (e - p) (Z.of_nat (length a))) as [Hl|[->|Hl]]; [|done|].
      * destruct (Hin (e - p) ltac:(lia)) as (c & _ & Hc & Hc0). replace (p + (e - p)) with e in Hc by lia. congruence.
      * by destruct (Hne (p + Z.of_nat (length a)) ltac:(lia)).
    + by destruct (Hf (p + Z.of_nat (length a)) ltac:(lia)).
  - apply list_eq. intros i. unfold user_bytes. rewrite list_lookup_fmap. destruct (decide (i < length a)%nat) as [Hi|Hi].
    + rewrite lookup_seqZ_lt by lia. cbn. destruct (Hin (Z.of_nat i) ltac:(lia)) as (c & Hc & Hm & _).
      rewrite Nat2Z.id in Hc. rewrite Hc. f_equal. exact Hm.
    + rewrite lookup_seqZ_ge by lia. symmetry. apply lookup_ge_None. lia.
Qed.

(** Only the memory below the size matters. *)
Section ext.
Context (u u' : user) (Hsz : usz u' = usz u) (Hsp : uesp u' = uesp u) (Hmax : 0 <= usz u <= 2 ^ 31).
Context (Hm : forall x, x < usz u -> umem u' x = umem u x).

Lemma fetchint_ext a : fetchint u' a = fetchint u a.
Proof.
  unfold fetchint. rewrite Hsz. destruct ((a >=? usz u) || (u32 (a + 4) >? usz u)) eqn:E; [done|].
  assert (Ha : a + 3 < usz u).
  { apply orb_false_iff in E as [E1 E2]. rewrite Z.geb_leb in E1. rewrite Z.gtb_ltb in E2. zbool.
    destruct (Z.lt_ge_cases a (-4)); [lia|]. unfold u32 in E2. rewrite Z.mod_small in E2 by lia. lia. }
  unfold load_int. by rewrite !Hm by lia.
Qed.

Lemma find_nul_ext k : forall x, x + Z.of_nat k <= usz u -> find_nul k (umem u') x = find_nul k (umem u) x.
Proof.
  induction k as [|k IH]; intros x Hx; [done|]. cbn [find_nul]. rewrite Hm by lia. destruct (umem u x =? 0); [done|]. apply IH. lia.
Qed.

Lemma fetchstr_ext p : fetchstr u' p = fetchstr u p.
Proof.
  unfold fetchstr. rewrite Hsz. destruct (Z.geb_spec p (usz u)); [done|]. by rewrite find_nul_ext by lia.
Qed.

Lemma has_args_ext argv : has_args u argv -> has_args u' argv.
Proof.
  unfold has_args, argint. rewrite Hsp. intros (H1 & H2 & H3 & H4). rewrite !fetchint_ext. split; [done|]. split; [done|]. split; [done|].
  intros i a Ha. destruct (H4 i a Ha) as (p & Hp & Hs & Hb). exists p. rewrite fetchint_ext, fetchstr_ext. split; [done|]. split; [done|].
  rewrite <- Hb at 2. apply list_fmap_ext. intros j x [-> Hj]%lookup_seqZ. apply Hm.
  unfold fetchstr in Hs. destruct (Z.geb_spec p (usz u)) as [|Hlt]; [done|].
  pose proof (find_nul_spec (Z.to_nat (usz u - p)) (umem u) p) as Hf. destruct (find_nul _ _ _) as [e|]; [|done]. cbn in Hs. injection Hs as Hs. lia.
Qed.
End ext.

(** ** The whole stack *)

Lemma flags_user p : PTE_FLAGS p = 7 -> Z.land p PTE_U <> 0.
Proof.
  rewrite PTE_FLAGS_spec. intros Hf E. assert (Hb : Z.testbit (Z.land p PTE_U) 2 = true); [|by rewrite E in Hb].
  rewrite Z.land_spec, (Z.testbit_odd p), Z.shiftr_div_pow2 by lia. change (2 ^ 2) with 4.
  replace (p / 4) with (2 * (512 * (p / PGSIZE)) + 1) by page_lia. by rewrite Z.add_1_r, Z.odd_succ, Z.even_mul.
Qed.

(** [A] has accessible pages below [g], the inaccessible page [g] and the stack
    page [g + 1], and no others of the user. *)
Definition layout (A : gmap Z Z) (g : Z) : Prop :=
  stack_ok A g /\ (forall m, 0 <= m < g -> user_page A m) /\ (forall m, g + 2 <= m < USERTOP -> A !! m = None).

(** [ustack] as it is copied out. *)
Definition ustack_of (sp : Z) (ptrs : list Z) : list Z :=
  let argc := length ptrs in
  <[2%nat := sp - (Z.of_nat argc + 1) * 4]> (<[1%nat := Z.of_nat argc]> (<[0%nat := 0xffffffff]>
    (<[(3 + argc)%nat := 0]> (splice 3 ptrs (replicate USTACK 0))))).

Lemma ustack_lookup sp ptrs : (length ptrs <= 32)%nat ->
  length (ustack_of sp ptrs) = USTACK /\ ustack_of sp ptrs !! 1%nat = Some (Z.of_nat (length ptrs)) /\
  ustack_of sp ptrs !! 2%nat = Some (sp - (Z.of_nat (length ptrs) + 1) * 4) /\
  ustack_of sp ptrs !! (3 + length ptrs)%nat = Some 0 /\
  forall i p, ptrs !! i = Some p -> ustack_of sp ptrs !! (3 + i)%nat = Some p.
Proof.
  intros Hl. unfold ustack_of. assert (Hsp : length (splice 3 ptrs (replicate USTACK 0)) = USTACK).
  { rewrite length_splice; [apply length_replicate|]. rewrite length_replicate. unfold USTACK. lia. }
  unfold USTACK in *. split; [by rewrite !length_insert|]. split; [|split; [|split]].
  - rewrite list_lookup_insert_ne by done. by rewrite list_lookup_insert_eq by (rewrite !length_insert, Hsp; lia).
  - by rewrite list_lookup_insert_eq by (rewrite !length_insert, Hsp; lia).
  - rewrite !list_lookup_insert_ne by lia. by rewrite list_lookup_insert_eq by (rewrite Hsp; lia).
  - intros i p Hi. pose proof (lookup_lt_Some _ _ _ Hi). rewrite !list_lookup_insert_ne by lia.
    rewrite splice_lookup by (rewrite length_replicate; lia). rewrite decide_True by lia. rewrite <- Hi. f_equal. lia.
Qed.

(** The four stores into [ustack]. *)
Lemma ustack_stores sp ptrs : (length ptrs <= 32)%nat ->
  (u ← aset (splice 3 ptrs (replicate USTACK 0)) (3 + Z.of_nat (length ptrs)) 0;
   u ← aset u 0 0xffffffff;
   u ← aset u 1 (Z.of_nat (length ptrs));
   aset u 2 (sp - (Z.of_nat (length ptrs) + 1) * 4)) = Ok (ustack_of sp ptrs).
Proof.
  intros Hl. assert (Hsp : length (splice 3 ptrs (replicate USTACK 0)) = USTACK).
  { rewrite length_splice; [apply length_replicate|]. rewrite length_replicate. unfold USTACK. lia. }
  unfold USTACK in *. replace (3 + Z.of_nat (length ptrs)) with (Z.of_nat (3 + length ptrs)) by lia.
  rewrite aset_nat by (rewrite Hsp; lia). run. rewrite (aset_nat _ 0) by (rewrite length_insert, Hsp; lia). run.
  rewrite (aset_nat _ 1) by (rewrite !length_insert, Hsp; lia). run. by rewrite (aset_nat _ 2) by (rewrite !length_insert, Hsp; lia).
Qed.

(** The frame of [main] and the strings above it. *)
Lemma stack_args s A g sp sp' sz ptrs argv : (length ptrs <= 32)%nat -> length ptrs = length argv -> 0 <= sp ->
  sp' = sp + 4 * (4 + Z.of_nat (length ptrs)) -> sp' <= sz -> sz < 2 ^ 31 -> sp' <= PGSIZE * (g + 2) <= sz ->
  Forall (fun a => 0 ∉ a) argv ->
  holds s A sp (take (4 * (4 + length ptrs)) (words (ustack_of sp' ptrs))) ->
  (forall i a, argv !! i = Some a -> exists p, ptrs !! i = Some p /\ sp' <= p /\ p + Z.of_nat (length a) + 1 <= PGSIZE * (g + 2) /\
     holds s A p (a ++ [0])) ->
  has_args (uproc s A sz sp) argv.
Proof.
  intros Hn Hlen Hsp Esp Hle Hmax Htop H0 Hw Hstr. destruct (ustack_lookup sp' ptrs Hn) as (_ & Hu1 & Hu2 & Hu0 & Hup).
  assert (Hread : forall i w, ustack_of sp' ptrs !! i = Some w -> (i < 4 + length ptrs)%nat -> in_s32 w ->
    fetchint (uproc s A sz sp) (sp + 4 * Z.of_nat i) = Some w).
  { intros i w Hi Hin Hs. eapply read_word; [exact Hw|exact Hi|done|done|lia|done|done]. }
  unfold has_args, argint, uproc. cbn [uesp]. fold (uproc s A sz sp). rewrite <- Hlen. split; [|split; [|split]].
  - replace (u32 (sp + 4 + 4 * 0)) with (sp + 4 * Z.of_nat 1) by (unfold u32; rewrite Z.mod_small; lia). apply Hread; [done|lia|unfold in_s32; lia].
  - replace (u32 (sp + 4 + 4 * 1)) with (sp + 4 * Z.of_nat 2) by (unfold u32; rewrite Z.mod_small; lia).
    rewrite (Hread 2%nat _ Hu2) by (unfold in_s32; lia). f_equal. lia.
  - replace (sp + 12 + 4 * Z.of_nat (length ptrs)) with (sp + 4 * Z.of_nat (3 + length ptrs)) by lia. apply Hread; [done|lia|done].
  - intros i a Ha. destruct (Hstr i a Ha) as (p & Hp & Hp1 & Hp2 & Hp3). exists p. pose proof (lookup_lt_Some _ _ _ Hp).
    replace (sp + 12 + 4 * Z.of_nat i) with (sp + 4 * Z.of_nat (3 + i)) by lia.
    split; [apply Hread; [by apply Hup|lia|unfold in_s32; lia]|]. apply read_string; [done| |lia|lia].
    rewrite Forall_forall in H0. apply H0. by eapply list_elem_of_lookup_2.
Qed.

(** Adding the two pages. *)
Lemma add_stack P F s d A T sz img : space P F s d A T [] -> image_ok s A sz img ->
  let g := first_page sz in
  exists r s1 A1 T1, allocuvm end_ s d (PGROUNDUP sz) (u32 (PGROUNDUP sz + 2 * PGSIZE)) = Ok (r, s1) /\ space P F s1 d A1 T1 [] /\
    (forall m, USERTOP <= m -> A1 !! m = A !! m) /\
    (r = 0 \/ r = PGSIZE * (g + 2) /\ exists s2 A2, clearpteu s1 d (u32 (r - 2 * PGSIZE)) = Ok s2 /\ space P F s2 d A2 T1 [] /\
       (forall m, USERTOP <= m -> A2 !! m = A !! m) /\ layout A2 g /\ r < KERNBASE /\
       forall x, 0 <= x < PGSIZE * g -> ubyte s2 A2 x = Some (img x)).
Proof.
  intros Hs Hi g. pose proof Hi as (Hsz & Hv & Hz). destruct (first_page_spec sz ltac:(lia)) as (Er & Hg & Hfp). fold g in Er, Hg, Hfp. rewrite Er.
  assert (u32 (PGSIZE * g + 2 * PGSIZE) = PGSIZE * (g + 2)) as -> by (unfold USERTOP in *; page_lia).
  destruct (Z.le_gt_cases KERNBASE (PGSIZE * (g + 2))) as [Hbig|Hfit].
  { exists 0, s, A, T. unfold allocuvm. rewrite Z.geb_leb, (proj2 (Z.leb_le _ _)) by lia. split; [done|]. split; [done|]. split; [done|by left]. }
  assert (Hi0 : image_ok s A (PGSIZE * g) img).
  { split; [unfold PGSIZE in *; lia|]. assert (Efp : first_page (PGSIZE * g) = g).
    { destruct (first_page_spec (PGSIZE * g) ltac:(unfold PGSIZE in *; lia)) as (_ & _ & Hfp0).
      pose proof (Hfp0 g). pose proof (Hfp0 (g - 1)). unfold PGSIZE in *. lia. }
    rewrite Efp. split; [|done]. intros m Hm. rewrite Hv by done. specialize (Hfp m). repeat case_decide; try done; unfold PGSIZE in *; lia. }
  destruct (image_grow P F s d A T (PGSIZE * g) img (PGSIZE * (g + 2)) Hs Hi0 ltac:(unfold PGSIZE in *; lia)) as (r & s1 & A1 & T1 & E & Hs1 & Hk1 & Hr).
  exists r, s1, A1, T1. split; [done|]. split; [done|]. split; [done|]. destruct Hr as [?|[-> Hi1]]; [by left|right]. split; [done|].
  replace (u32 (PGSIZE * (g + 2) - 2 * PGSIZE)) with (PGSIZE * g) by (unfold USERTOP in *; page_lia).
  assert (Hpage : forall m, 0 <= m < g + 2 -> exists p, A1 !! m = Some p /\ PTE_FLAGS p = 7).
  { intros m Hm. eapply image_pages; [exact Hs1|exact Hi1|lia|unfold PGSIZE in *; lia]. }
  assert (Hgt : 0 <= g < USERTOP) by (unfold USERTOP, KERNBASE, PGSIZE in *; lia).
  destruct (Hpage g ltac:(lia)) as (p & Hp & Hpf).
  destruct (clearpteu_spec end_ P F s1 d A1 T1 g p Hs1 Hgt Hp Hpf) as (s2 & Ec & Hs2 & Hk2 & Hnu & Hup).
  exists s2, (<[g := p - 4]> A1). split; [done|]. split; [done|]. split; [|split; [|split; [done|]]].
  - intros m Hm. rewrite lookup_insert_ne by lia. by apply Hk1.
  - assert (Hu : forall m, 0 <= m < g + 2 -> m <> g -> user_page (<[g := p - 4]> A1) m).
    { intros m Hm Hne. destruct (Hpage m Hm) as (q & Hq & Hqf). exists q. rewrite lookup_insert_ne by done. split; [done|by apply flags_user]. }
    split; [|split].
    + split; [lia|]. split; [unfold USERTOP, KERNBASE, PGSIZE in *; lia|]. split; [apply Hu; lia|]. exists (p - 4). by rewrite lookup_insert_eq.
    + intros m Hm. apply Hu; lia.
    + intros m Hm. rewrite lookup_insert_ne by lia. eapply image_free; [exact Hs1|exact Hi1|unfold PGSIZE in *; lia|lia].
  - intros x Hx. assert (Hb : ubyte s1 A1 x = Some (img x)).
    { eapply image_ubyte; [exact Hi1|]. destruct (first_page_spec (PGSIZE * (g + 2)) ltac:(unfold PGSIZE in *; lia)) as (_ & _ & Hfp2).
      pose proof (Hfp2 (g + 1)). unfold PGSIZE in *. lia. }
    rewrite <- Hb. unfold ubyte. assert (x / PGSIZE < g) by (unfold PGSIZE in *; Z.div_mod_to_equations; lia).
    rewrite (uview_keeps end_ P F s1 s2 d A1 (<[g := p - 4]> A1) T1 [] (x / PGSIZE) Hs1); [done|lia| |done].
    apply lookup_insert_ne. lia.
Qed.

Lemma build_stack_spec P F s d A T sz img argv : space P F s d A T [] -> image_ok s A sz img ->
  Forall (fun a => (0 ∉ a) /\ Z.of_nat (length a) < PGSIZE) argv ->
  let g := first_page sz in
  exists r s' A' T', build_stack end_ s d sz argv = Ok (r, s') /\ space P F s' d A' T' [] /\
    (forall m, USERTOP <= m -> A' !! m = A !! m) /\
    (r = None \/ exists sp, r = Some (PGSIZE * (g + 2), sp) /\ layout A' g /\ PGSIZE * (g + 1) <= sp /\
       (forall x, 0 <= x < PGSIZE * g -> ubyte s' A' x = Some (img x)) /\
       has_args (uproc s' A' (PGSIZE * (g + 2)) sp) argv).
Proof.
  intros Hs Hi Hargs g. unfold build_stack. cbv zeta.
  destruct (add_stack P F s d A T sz img Hs Hi) as (r & s1 & A1 & T1 & -> & Hs1 & Hk1 & Hr). fold g in Hr. run.
  destruct (Z.eqb_spec r 0) as [->|Hr0]; [exists None, s1, A1, T1; split; [done|]; split; [done|]; split; [done|by left]|].
  destruct Hr as [?|(-> & s2 & A2 & -> & Hs2 & Hk2 & Hlay & Hfit & Himg)]; [done|]. run. pose proof Hlay as (Hst & _ & _). pose proof Hst as (Hg & Hg' & _).
  destruct (push_args_spec P F d A2 T1 g Hst argv s2 (PGSIZE * (g + 2)) 0 (replicate (Z.to_nat (3 + MAXARG + 1)) 0) Hs2) as (r & s3 & -> & Hs3 & Hr);
    [unfold PGSIZE; lia|eapply Forall_impl; [exact Hargs|]; by intros a [_ ?]|done|apply length_replicate|]. run.
  destruct Hr as [->|(sp & ptrs & -> & Hmax & Hlen & Hsp & Hframe & Hstr)]; [exists None, s3, A2, T1; split; [done|]; split; [done|]; split; [done|by left]|].
  change (replicate (Z.to_nat (3 + MAXARG + 1)) 0) with (replicate USTACK 0). change (Z.to_nat (3 + 0)) with 3%nat. rewrite Z.add_0_l in *. unfold MAXARG in Hmax.
  rewrite <- Hlen in *. pose proof (ustack_stores sp ptrs ltac:(lia)) as Hstores.
  replace (u32 (sp - (Z.of_nat (length ptrs) + 1) * 4)) with (sp - (Z.of_nat (length ptrs) + 1) * 4)
    by (symmetry; apply Z.mod_small; unfold KERNBASE, PGSIZE in *; lia).
  destruct (aset _ (3 + _) 0) as [u1|]; [|done]. cbn [mbind res_bind] in Hstores |- *. destruct (aset u1 0 _) as [u2|]; [|done].
  cbn [mbind res_bind] in Hstores |- *. destruct (aset u2 1 _) as [u3|]; [|done]. cbn [mbind res_bind] in Hstores |- *. rewrite Hstores. run.
  replace (3 + Z.of_nat (length ptrs) + 1) with (4 + Z.of_nat (length ptrs)) by lia.
  set (sp1 := u32 (sp - (4 + Z.of_nat (length ptrs)) * 4)). assert (Esp : sp = sp1 + 4 * (4 + Z.of_nat (length ptrs)) /\ PGSIZE * g <= sp1).
  { assert (E1 : sp1 = sp - (4 + Z.of_nat (length ptrs)) * 4) by (apply Z.mod_small; unfold KERNBASE, PGSIZE in *; lia). unfold PGSIZE in *. lia. }
  clearbody sp1.
  destruct (ustack_lookup sp ptrs ltac:(lia)) as (Hul & _).
  destruct (push_bytes P F s3 d A2 T1 g sp1 (words (ustack_of sp ptrs)) ((4 + Z.of_nat (length ptrs)) * 4) Hs3 Hst ltac:(lia) ltac:(lia) ltac:(lia))
    as (r & s4 & -> & Hs4 & Hr); [rewrite length_words, Hul; unfold USTACK; lia|]. run.
  destruct Hr as [->|(-> & Hsp1 & Hw)]; [exists None, s4, A2, T1; split; [done|]; split; [done|]; split; [done|by left]|].
  exists (Some (PGSIZE * (g + 2), sp1)), s4, A2, T1. split; [done|]. split; [done|]. split; [done|]. right. exists sp1.
  split; [done|]. split; [done|]. split; [done|].
  assert (Hfr : forall y, 0 <= y < KERNBASE -> ~ sp1 <= y < sp -> ubyte s4 A2 y = ubyte s3 A2 y) by (intros y Hy Hno; rewrite Hw, decide_False by lia; done).
  split.
  - intros x Hx. rewrite Hfr, Hframe by (unfold PGSIZE in *; lia). by apply Himg.
  - eapply (stack_args s4 A2 g sp1 sp (PGSIZE * (g + 2)) ptrs argv); [lia|done|unfold PGSIZE in *; lia|lia|lia|unfold KERNBASE in *; lia|lia| | |].
    + eapply Forall_impl; [exact Hargs|]. by intros a [? _].
    + intros j c Hj. pose proof (lookup_lt_Some _ _ _ Hj) as Hjl. rewrite length_take in Hjl.
      rewrite Hw, decide_True by (unfold PGSIZE in *; lia). rewrite lookup_take_lt in Hj by lia. rewrite <- Hj. f_equal. lia.
    + intros i a Ha. destruct (Hstr i a Ha) as (q & Hq & Hq1 & Hq2 & Hq3). exists q. split; [done|]. split; [done|]. split; [done|].
      eapply (holds_frame s3 s4 A2 q (a ++ [0]) sp1 sp); [done|unfold PGSIZE in *; lia|rewrite length_app; cbn; lia|done|done].
Qed.

(** ** Loading the file *)

Lemma space_only P F s d A T : space P F s d A T [] -> only end_ P (frames s) s.
Proof. intros Hs. constructor; [done|apply (sp_pool _ _ _ _ _ _ _ _ Hs)|apply (sp_all _ _ _ _ _ _ _ _ Hs)]. Qed.

(** Everything but the page tables is as before in [s]. *)
Lemma load_file_spec data P F s file readi : data mod PGSIZE = 0 -> KERNLINK < data < KERNBASE + PHYSTOP ->
  (forall off n, readi off n = readi_of file off n) -> only end_ P F s ->
  let elf := elf_of (take (Z.to_nat ELFHDR) file) in
  exists oe osz d s', load_file end_ data readi s = Ok (oe, osz, d, s') /\
    ((oe = None /\ osz = None /\ d = 0 /\ only end_ P F s') \/
     (oe = Some elf /\ (d =? 0) = false /\ magic elf = ELF_MAGIC /\ exists A T, space P F s' d A T [] /\
        (forall m, USERTOP <= m -> A !! m = kernel_pte data m) /\
        (osz = None \/ exists sz, osz = Some sz /\ image_ok s' A sz (load_img file (headers (Z.to_nat (phnum elf)) file (phoff elf)))))).
Proof.
  intros Hd [Hl Hh] Hread Ho elf. unfold load_file. rewrite Hread. destruct (readi_of file 0 ELFHDR) as [r b] eqn:Er.
  destruct (Z.eqb_spec r ELFHDR) as [->|Hne]; cbn [negb]; [|exists None, None, 0, s; split; [done|by left]].
  destruct (readi_of_ok file 0 ELFHDR _ _ ltac:(lia) ltac:(done) Er) as [_ Hb]. destruct (Hb eq_refl) as (_ & _ & ->).
  change (drop (Z.to_nat 0) file) with file. fold elf.
  destruct (Z.eqb_spec (magic elf) ELF_MAGIC) as [Hm|Hm]; cbn [negb]; [|exists None, None, 0, s; split; [done|by left]].
  destruct (setupkvm_spec end_ data Hend Hd Hl Hh P F s Ho) as (d & s1 & -> & Hres). run.
  destruct Hres as [[-> Ho1]|(Hd0 & A & T & Hs1 & HA)]; [exists None, None, 0, s1; split; [done|by left]|]. rewrite Hd0.
  assert (Hi : image_ok s1 A 0 (fun _ => 0)).
  { split; [done|]. split; [|done]. intros m Hm'. rewrite decide_False by (unfold PGSIZE; lia). unfold uview. rewrite HA.
    destruct (kernel_pte data m) as [p|] eqn:Ep; [|done]. destruct (kernel_private data m p Hd Ep). unfold USERTOP, KERNBASE, PGSIZE in *. lia. }
  destruct (load_segs_spec P F d file readi Hread (Z.to_nat (phnum elf)) s1 A T (phoff elf) 0 (fun _ => 0) Hs1 Hi) as (r & s2 & A2 & T2 & -> & Hs2 & Hk2 & Hr);
    [apply u32_bounds|]. run.
  exists (Some elf), r, d, s2. split; [done|]. right. split; [done|]. split; [done|]. split; [done|]. exists A2, T2. split; [done|].
  split; [|done]. intros m Hm'. by rewrite Hk2.
Qed.

Lemma ubyte_same P F s s' d A T x : space P F s d A T [] -> (forall y, owned d A T y -> frames s' !! y = frames s !! y) ->
  x < KERNBASE -> ubyte s' A x = ubyte s A x.
Proof.
  intros Hs Hf Hx. unfold ubyte. assert (Hm : x / PGSIZE < USERTOP) by (unfold USERTOP, KERNBASE, PGSIZE in *; Z.div_mod_to_equations; lia).
  rewrite (uview_same s s' A A (x / PGSIZE)); [done|done| |].
  - intros p Hp. destruct (proj1 (sp_user _ _ _ _ _ _ _ _ Hs) _ _ Hp Hm) as (_ & _ & bs & ? & _). eauto.
  - intros p bs Hp Hb. rewrite Hf; [done|]. right; right. eauto.
Qed.

Lemma last_elem_nonzero l : forall last, 0 ∉ l -> 0 ∉ last -> 0 ∉ last_elem l last.
Proof.
  induction l as [|c l IH]; intros last Hl Hla; [done|]. apply not_elem_of_cons in Hl as [_ Hl]. cbn [last_elem].
  destruct (c =? 47); by apply IH.
Qed.
End execs.

(** ** [exec] *)

Section theorem.
Context {K : Type} `{ExecFs K} (end_ data : Z).

(** The file system after any run of [exec]: the transaction is over, and the
    program file unlocked and released. *)
Definition exec_fs (k : K) (path : list Z) : K :=
  match fs_namei (fs_begin_op k) path with
  | (None, k') => fs_end_op k'
  | (Some ip, k') => fs_end_op (fs_iunlockput (fs_ilock k' ip) ip)
  end.

(** [p] and [s'] after [exec] has started the program [file]. *)
Definition started (P : Z -> Prop) (F : gmap Z content) (file path : list Z) (argv : list (list Z)) (cur p : proc) (s' : vmem) : Prop :=
  let elf := elf_of (take (Z.to_nat ELFHDR) file) in
  magic elf = ELF_MAGIC /\ exists A T g rest,
    space end_ P F s' (Proc.pgdir p) A T [] /\ (forall m, USERTOP <= m -> A !! m = kernel_pte data m) /\ layout A g /\
    (forall x, 0 <= x < PGSIZE * g -> ubyte s' A x = Some (load_img file (headers (Z.to_nat (phnum elf)) file (phoff elf)) x)) /\
    Proc.sz p = PGSIZE * (g + 2) /\ PGSIZE * (g + 1) <= t_esp (Proc.tf p) /\
    has_args (uproc s' A (Proc.sz p) (t_esp (Proc.tf p))) argv /\
    p = set_name (take 15 (last_elem path path) ++ 0 :: rest)
          (set_tf (set_frame (entry elf) (t_esp (Proc.tf p)) (Proc.tf cur)) (set_sz (Proc.sz p) (set_pgdir (Proc.pgdir p) cur))).

End theorem.

(** C13: [exec] replaces the program of a process or does nothing.  It always
    returns, and in every case the transaction it opened is closed and the
    program file unlocked and released.  Either it returns -1, with the process
    unchanged and every page as before; or it returns 0, and the pages of the old
    address space are free, the new one shows the bytes of the segments of the
    ELF file with zeros elsewhere, then an inaccessible page and a stack page,
    the process starts at the entry point with its stack pointer in the stack
    page, and reading the stack as system calls do yields [argc], [argv], the
    argument strings and a null pointer; nothing of any other address space has
    changed.  Argument strings are shorter than a page. *)
Theorem exec_image {K : Type} `{ExecFs K} end_ data P F s cur A0 T0 (content : Z -> list Z) (k : K) path argv :
  KERNBASE < end_ -> data mod PGSIZE = 0 -> KERNLINK < data < KERNBASE + PHYSTOP ->
  space end_ P F s (Proc.pgdir cur) A0 T0 [] -> length (Proc.name cur) = 16%nat ->
  (forall k ip off n, fs_readi k ip off n = readi_of (content ip) off n) ->
  0 ∉ path -> Forall (fun a => (0 ∉ a) /\ Z.of_nat (length a) < PGSIZE) argv ->
  exists r p s', exec end_ data k s cur path argv = Ok (r, p, s', exec_fs k path) /\
    ((r = -1 /\ p = cur /\ only end_ P (frames s) s') \/
     (r = 0 /\ exists ip, (fs_namei (fs_begin_op k) path).1 = Some ip /\
        started end_ data P F (content ip) path argv cur p s')).
Proof.
  intros He Hd Hdata Hs Hname Hread Hpath Hargs. unfold exec, exec_fs.
  pose proof (space_only end_ P F s _ A0 T0 Hs) as Ho.
  destruct (fs_namei (fs_begin_op k) path) as [[ip|] k1]; [|exists (-1), cur, s; split; [done|by left]].
  destruct (load_file_spec end_ He data P (frames s) s (content ip) (fs_readi (fs_ilock k1 ip) ip) Hd Hdata (Hread _ ip) Ho)
    as (oe & osz & d & s1 & -> & Hres). run.
  destruct Hres as [(-> & -> & -> & Ho1)|(-> & Hd0 & Hmag & A & T & Hs1 & HA & Hsz)]; [exists (-1), cur, s1; split; [done|by left]|].
  assert (Hbad : forall s2 A2 T2, space end_ P (frames s) s2 d A2 T2 [] -> exists s3, exec_bad end_ s2 d = Ok s3 /\ only end_ P (frames s) s3).
  { intros s2 A2 T2 Hs2. unfold exec_bad. rewrite Hd0. by eapply freevm_spec. }
  destruct Hsz as [->|(sz & -> & Hi)]; [destruct (Hbad s1 A T Hs1) as (s2 & -> & Ho2); exists (-1), cur, s2; split; [done|by left]|].
  destruct (build_stack_spec end_ He P (frames s) s1 d A T sz _ argv Hs1 Hi Hargs) as (r & s2 & A2 & T2 & -> & Hs2 & Hk2 & Hr). run.
  destruct Hr as [->|(sp & -> & Hlay & Hsp & Himg & Hav)]; [destruct (Hbad s2 A2 T2 Hs2) as (s3 & -> & Ho3); exists (-1), cur, s3; split; [done|by left]|].
  destruct (safestrcpy_terminates (Proc.name cur) (last_elem path path) [] 16) as (nm & rest & -> & _ & Enm);
    [by apply last_elem_nonzero|done|by rewrite Hname|]. run.
  destruct (beside end_ P F s (Proc.pgdir cur) A0 T0 s2 d A2 T2 Hs Hs2) as (F1 & Hold & Hnew).
  destruct (freevm_spec end_ He P F1 s2 _ A0 T0 Hold) as (s3 & -> & Ho3). run. destruct (Hnew s3 Ho3) as [Hs3 Hsame].
  eexists 0, _, s3. split; [reflexivity|]. right. split; [done|]. exists ip. split; [done|]. split; [done|].
  assert (Hb : forall x, x < KERNBASE -> ubyte s3 A2 x = ubyte s2 A2 x) by (intros x Hx; by eapply (ubyte_same end_)).
  pose proof Hlay as ((Hg & Hg' & _) & _ & _).
  exists A2, T2, (first_page sz), rest. split; [done|]. split; [intros m Hm; by rewrite Hk2, HA|]. split; [done|]. split.
  { intros x Hx. rewrite Hb by (unfold USERTOP, KERNBASE, PGSIZE in *; lia). by apply Himg. }
  split; [done|]. split; [done|]. split; [|by rewrite Enm]. cbn [Proc.sz Proc.tf t_esp set_name set_tf set_sz set_pgdir set_frame].
  eapply has_args_ext; [| | | |exact Hav]; cbn [uproc usz uesp umem]; [done|done|unfold USERTOP, KERNBASE, PGSIZE in *; lia|].
  intros x Hx. rewrite Hb; [done|]. unfold USERTOP, KERNBASE, PGSIZE in *. lia.
Qed.

(** A file system with one program: an ELF header without segments. *)
Definition demo_elf : list Z := le32 ELF_MAGIC ++ replicate 48 0.

#[local] Instance demo_fs : ExecFs nat := {|
  fs_begin_op := S; fs_end_op := pred; fs_namei k path := (if bool_decide (path = [97]) then Some 1 else None, k);
  fs_ilock k _ := S k; fs_iunlockput k _ := pred k; fs_readi _ _ off n := readi_of demo_elf off n |}.

Definition demo_proc : proc := set_pgdir demo_dir proc0.

Lemma exec_image_witness :
  exists r p s', exec demo_end demo_data 0%nat demo_vm demo_proc [97] [[104; 105]] = Ok (r, p, s', exec_fs 0%nat [97]) /\
    ((r = -1 /\ p = demo_proc /\ only demo_end demo_P (frames demo_vm) s') \/
     (r = 0 /\ exists ip, (fs_namei (fs_begin_op 0%nat) [97]).1 = Some ip /\
        started demo_end demo_data demo_P ∅ demo_elf [97] [[104; 105]] demo_proc p s')).
Proof.
  apply (exec_image demo_end demo_data demo_P ∅ demo_vm demo_proc demo_A demo_T (fun _ => demo_elf) 0%nat [97] [[104; 105]]); try done.
  - apply demo_space.
  - set_solver.
  - constructor; [|constructor]. split; [set_solver|done].
Defined.
