(* ===== verification/Xv6Trap.v ===== *)
(** Traps, the clock, and the system calls on processes (trap.c, traps.h and
    sysproc.c of src/설계 3번/xv6/), on the processes of [Proc].

    A trap may give up the processor ([yield]) or run a system call that sleeps;
    what the others do until the process runs again is a parameter ([others],
    and part of [do_syscall]).  The loop of [sys_sleep] is cut at its calls of
    [sleep]: [sleep_pass] is a round of it.  Messages on the console, the
    interrupt controller and the lock of the clock are left out. *)

From S2P Require Import Proc.
From S2P Require Import Prelude Bytes Xv6Syscall.

Definition T_SYSCALL : Z := 64.
Definition T_IRQ0 : Z := 32.
Definition IRQ_TIMER : Z := 0.
Definition IRQ_KBD : Z := 1.
Definition IRQ_COM1 : Z := 4.
Definition IRQ_IDE : Z := 14.
Definition IRQ_SPURIOUS : Z := 31.

(** The kernel with its clock. *)
Record tst (K : Type) := Tst { kern : kst K; ticks : Z }.
Arguments Tst {K}.
Arguments kern {K}.
Arguments ticks {K}.

Section trap.
Context {K : Type} `{KernelOps K}.

(** The address of [ticks]. *)
Context (ticks_addr : Z).

Definition set_kern (k : kst K) (s : tst K) : tst K := Tst k (ticks s).

Definition current (s : tst K) : res proc := cur ← myproc (kern s); at_ (kern s) cur.

(** ** System calls *)

Definition sys_fork (s : tst K) : res (Z * tst K) := '(r, k) ← fork (kern s); Ok (r, set_kern k s).

Definition sys_kill (u : user) (s : tst K) : res (Z * tst K) :=
  match argint u 0 with
  | None => Ok (-1, s)
  | Some pid => let '(r, k) := kill (kern s) pid in Ok (r, set_kern k s)
  end.

Definition sys_getpid (s : tst K) : res Z := c ← current s; Ok (pid c).

Definition sys_sbrk (u : user) (s : tst K) : res (Z * tst K) :=
  match argint u 0 with
  | None => Ok (-1, s)
  | Some n =>
      c ← current s;
      let addr := s32 (sz c) in
      '(r, k) ← growproc (kern s) n;
      if r <? 0 then Ok (-1, set_kern k s) else Ok (addr, set_kern k s)
  end.

Definition sys_uptime (s : tst K) : Z := s32 (ticks s).

Definition sys_get_num_proc (s : tst K) : Z := get_num_proc (kern s).
Definition sys_get_max_pid (s : tst K) : Z := get_max_pid (kern s).

(** The result, and what is stored where. *)
Definition sys_get_proc_info (u : user) (s : tst K) : Z * option (Z * processInfo) :=
  match argint u 0, argptr u 1 16 with
  | Some pid, Some p => let '(r, i) := get_proc_info (kern s) pid in (r, (fun i => (p, i)) <$> i)
  | _, _ => (-1, None)
  end.

Definition sys_set_prio (u : user) (s : tst K) : res (Z * tst K) :=
  match argint u 0 with
  | None => Ok (-1, s)
  | Some n => '(r, k) ← set_prio (kern s) n; Ok (r, set_kern k s)
  end.

Definition sys_get_prio (s : tst K) : res Z := get_prio (kern s).

(** A round of the loop of [sys_sleep]: the call returns, or the process is
    asleep on the clock. *)
Inductive sleep_result := Slept (r : Z) | Asleep.

Definition sleep_pass (ticks0 n : Z) (s : tst K) : res (sleep_result * tst K) :=
  if u32 (ticks s - ticks0) <? u32 n then
    c ← current s;
    if negb (killed c =? 0) then Ok (Slept (-1), s)
    else k ← sleep (AddrChan ticks_addr) (kern s); Ok (Asleep, set_kern k s)
  else Ok (Slept 0, s).

(** [sys_sleep] up to its first sleep. *)
Definition sys_sleep (u : user) (s : tst K) : res (sleep_result * tst K) :=
  match argint u 0 with
  | None => Ok (Slept (-1), s)
  | Some n => sleep_pass (ticks s) n s
  end.

(** [sleep] returns, and the loop goes round. *)
Definition sleep_again (ticks0 n : Z) (s : tst K) : res (sleep_result * tst K) :=
  k ← sleep_resume (kern s); sleep_pass ticks0 n (set_kern k s).

(** ** Traps *)

Definition tick (s : tst K) : tst K := Tst (wakeup (AddrChan ticks_addr) (kern s)) (u32 (ticks s + 1)).

Record handlers := Handlers {
  do_syscall : tst K -> res (tst K);
  ideintr : tst K -> res (tst K);
  kbd_intr : tst K -> res (tst K);
  uartintr : tst K -> res (tst K);
  others : tst K -> res (tst K) }.

(** How a trap ends: back to where it came from, or with the end of the process. *)
Inductive outcome := Back (s : tst K) | Gone (s : tst K).

Definition from_user (cs : Z) : bool := Z.land cs 3 =? DPL_USER.

Definition die (s : tst K) : res outcome := k ← exit (kern s); Ok (Gone (set_kern k s)).

(** [myproc() && myproc()->killed]. *)
Definition must_exit (s : tst K) : res bool :=
  match cpu_proc (kern s) with
  | None => Ok false
  | Some cur => c ← at_ (kern s) cur; Ok (negb (killed c =? 0))
  end.

Definition is_running (s : tst K) : res bool :=
  match cpu_proc (kern s) with
  | None => Ok false
  | Some cur => c ← at_ (kern s) cur; Ok (bool_decide (state c = RUNNING))
  end.

Definition trap_device (h : handlers) (cpuid trapno cs : Z) (s : tst K) : res (tst K) :=
  if trapno =? T_IRQ0 + IRQ_TIMER then Ok (if cpuid =? 0 then tick s else s)
  else if trapno =? T_IRQ0 + IRQ_IDE then ideintr h s
  else if trapno =? T_IRQ0 + IRQ_IDE + 1 then Ok s
  else if trapno =? T_IRQ0 + IRQ_KBD then kbd_intr h s
  else if trapno =? T_IRQ0 + IRQ_COM1 then uartintr h s
  else if (trapno =? T_IRQ0 + 7) || (trapno =? T_IRQ0 + IRQ_SPURIOUS) then Ok s
  else
    match cpu_proc (kern s) with
    | None => Stuck Panicked
    | Some cur => if Z.land cs 3 =? 0 then Stuck Panicked else Ok (set_kern (upd cur (set_killed 1) (kern s)) s)
    end.

Definition trap (h : handlers) (cpuid trapno cs : Z) (frame : trapframe) (s : tst K) : res outcome :=
  if trapno =? T_SYSCALL then
    c ← current s;
    if negb (killed c =? 0) then die s
    else
      cur ← myproc (kern s);
      s ← do_syscall h (set_kern (upd cur (set_tf frame) (kern s)) s);
      c ← current s;
      if negb (killed c =? 0) then die s else Ok (Back s)
  else
    s ← trap_device h cpuid trapno cs s;
    b ← must_exit s;
    if b && from_user cs then die s
    else
      r ← is_running s;
      s ← (if r && (trapno =? T_IRQ0 + IRQ_TIMER) then k ← yield (kern s); others h (set_kern k s) else Ok s);
      b ← must_exit s;
      if b && from_user cs then die s else Ok (Back s).

End trap.

(** ** Returning from a trap *)

Section theorems.
Context {K : Type} `{KernelOps K}.

(** The process on the CPU has not been killed. *)
Definition alive (s : tst K) : Prop :=
  forall cur c, cpu_proc (kern s) = Some cur -> ptable (kern s) !! cur = Some c -> killed c = 0.

Lemma must_exit_spec (s : tst K) b : must_exit s = Ok b -> b = false -> alive s.
Proof.
  unfold must_exit. intros E -> cur c Hcur Hc. rewrite Hcur in E. unfold at_ in E. rewrite Hc in E. cbn in E. injection E as E.
  apply negb_false_iff, Z.eqb_eq in E. done.
Qed.

Lemma current_alive (s : tst K) c : current s = Ok c -> (killed c =? 0) = true -> alive s.
Proof.
  unfold current, myproc, at_. intros E Hk cur c' Hcur Hc'. rewrite Hcur in E. cbn in E. rewrite Hc' in E. injection E as ->.
  by apply Z.eqb_eq.
Qed.

(** Traps that the kernel knows. *)
Definition known_trap (trapno : Z) : bool :=
  existsb (Z.eqb trapno) [T_SYSCALL; T_IRQ0 + IRQ_TIMER; T_IRQ0 + IRQ_IDE; T_IRQ0 + IRQ_IDE + 1; T_IRQ0 + IRQ_KBD;
    T_IRQ0 + IRQ_COM1; T_IRQ0 + 7; T_IRQ0 + IRQ_SPURIOUS].

Lemma unknown_device (a : Z) h cpuid trapno cs (s s' : tst K) : known_trap trapno = false -> from_user cs = true ->
  trap_device a h cpuid trapno cs s = Ok s' -> exists cur, cpu_proc (kern s') = Some cur /\
    forall c, ptable (kern s') !! cur = Some c -> killed c = 1.
Proof.
  unfold known_trap, trap_device, from_user, DPL_USER. cbn [existsb]. intros Hk Hu. repeat (apply orb_false_iff in Hk as [? Hk]).
  apply Z.eqb_eq in Hu.
  repeat match goal with H : (trapno =? _) = false |- _ => rewrite ?H; clear H end. cbn [orb]. rewrite Hu. change (3 =? 0) with false. cbn iota.
  destruct (cpu_proc (kern s)) as [cur|] eqn:E; [|done]. intros [= <-]. exists cur. split; [done|]. intros c. cbn.
  rewrite list_lookup_alter_eq. destruct (ptable (kern s) !! cur); [|done]. by intros [= <-].
Qed.
End theorems.

(** C20: a trap never brings a killed process back to user space.  Whatever the
    devices, the system call and the other processes do, a trap from user space
    (or a system call) that returns finds its process not killed; and a trap
    that the kernel does not know, from user space, never returns: the process
    is ended. *)
Theorem trap_returns {K : Type} `{KernelOps K} a (h : handlers) cpuid trapno cs frame (s : tst K) :
  from_user cs = true \/ trapno = T_SYSCALL ->
  (forall s', trap a h cpuid trapno cs frame s = Ok (Back s') -> alive s') /\
  (known_trap trapno = false -> from_user cs = true -> forall s', trap a h cpuid trapno cs frame s <> Ok (Back s')).
Proof.
  intros Hu. unfold trap. split.
  - intros s' E. destruct (Z.eqb_spec trapno T_SYSCALL) as [->|Hne].
    + destruct (current s) as [c|]; [|done]. cbn [mbind res_bind] in E. destruct (killed c =? 0); cbn [negb] in E; [|by unfold die in E; destruct (exit _)].
      destruct (myproc (kern s)) as [cur|]; [|done]. cbn [mbind res_bind] in E. destruct (do_syscall h _) as [s1|]; [|done]. cbn [mbind res_bind] in E.
      destruct (current s1) as [c1|] eqn:Ec; [|done]. cbn [mbind res_bind] in E.
      destruct (killed c1 =? 0) eqn:Ek; cbn [negb] in E; [|by unfold die in E; destruct (exit _)]. injection E as <-. by eapply current_alive.
    + destruct Hu as [Hu|?]; [|done]. rewrite Hu in E. destruct (trap_device _ _ _ _ _ _) as [s1|]; [|done]. cbn [mbind res_bind] in E.
      destruct (must_exit s1) as [[]|]; [by unfold die in E; cbn in E; destruct (exit _)| |done]. cbn [mbind res_bind andb] in E.
      destruct (is_running s1) as [r|]; [|done]. cbn [mbind res_bind] in E. destruct (if r && _ then _ else _) as [s2|]; [|done]. cbn [mbind res_bind] in E.
      destruct (must_exit s2) as [[]|] eqn:Em; [by unfold die in E; cbn in E; destruct (exit _)| |done]. cbn in E. injection E as <-. by eapply must_exit_spec.
  - intros Hk Hfu s' E. assert (Hne : (trapno =? T_SYSCALL) = false) by (unfold known_trap in Hk; cbn [existsb] in Hk; by apply orb_false_iff in Hk as [? _]).
    rewrite Hne in E. destruct (trap_device _ _ _ _ _ _) as [s1|] eqn:Ed; [|done]. cbn [mbind res_bind] in E.
    destruct (unknown_device _ _ _ _ _ _ _ Hk Hfu Ed) as (cur & Hcur & Hkl). destruct (must_exit s1) as [b|] eqn:Em; [|done].
    assert (b = true) as ->.
    { unfold must_exit, at_ in Em. rewrite Hcur in Em. destruct (ptable (kern s1) !! cur) as [c|]; [|done]. cbn in Em. by rewrite (Hkl c eq_refl) in Em; injection Em as <-. }
    rewrite Hfu in E. cbn [mbind res_bind andb] in E.
    unfold die in E. by destruct (exit _).
Qed.

(** ** Sleeping on the clock *)

Section sleeping.
Context {K : Type} `{KernelOps K} (a : Z) (i : nat).

(** A call of [sys_sleep(n)] by process [i], begun at [ticks0]: [e] ticks have
    passed; the call has returned [r] or is still going on. *)
Record scfg := Scfg { st : tst K; e : nat; returned : option Z }.

Definition run_on (s : tst K) : tst K := set_kern (with_cpu (Some i) (upd i (set_state RUNNING) (kern s))) s.

Inductive sstep (ticks0 n : Z) : scfg -> scfg -> Prop :=
| step_tick s k : sstep ticks0 n (Scfg s k None) (Scfg (tick a s) (S k) None)
| step_kill s k p : sstep ticks0 n (Scfg s k None) (Scfg (set_kern (kill (kern s) p).2 s) k None)
| step_other s k s' : ticks s' = ticks s -> ptable (kern s') !! i = ptable (kern s) !! i -> sstep ticks0 n (Scfg s k None) (Scfg s' k None)
| step_resume s k c r s' : ptable (kern s) !! i = Some c -> state c = RUNNABLE ->
    sleep_again a ticks0 n (run_on s) = Ok (r, s') ->
    sstep ticks0 n (Scfg s k None) (Scfg s' k (match r with Slept v => Some v | Asleep => None end)).

Definition sleep_inv (ticks0 n : Z) (x : scfg) : Prop :=
  exists c, ptable (kern (st x)) !! i = Some c /\
    match returned x with
    | None => ticks (st x) = u32 (ticks0 + Z.of_nat (e x)) /\
        (state c = SLEEPING -> chan c = AddrChan a /\ killed c = 0 /\ u32 (Z.of_nat (e x)) < u32 n)
    | Some v => v = 0 /\ u32 n <= u32 (Z.of_nat (e x)) \/ v = -1 /\ u32 (Z.of_nat (e x)) < u32 n /\ killed c <> 0
    end.

Lemma elapsed_ticks t0 k : u32 (u32 (t0 + k) - t0) = u32 k.
Proof. unfold u32. rewrite Zminus_mod_idemp_l. f_equal. lia. Qed.

(** A round of the loop while the process runs. *)
Lemma sleep_pass_spec ticks0 n (s : tst K) c k : cpu_proc (kern s) = Some i -> ptable (kern s) !! i = Some c ->
  ticks s = u32 (ticks0 + k) ->
  exists r s', sleep_pass a ticks0 n s = Ok (r, s') /\ ticks s' = ticks s /\
    match r with
    | Slept v => s' = s /\ (v = 0 /\ u32 n <= u32 k \/ v = -1 /\ u32 k < u32 n /\ killed c <> 0)
    | Asleep => u32 k < u32 n /\ killed c = 0 /\ ptable (kern s') !! i = Some (set_state SLEEPING (set_chan (AddrChan a) c))
    end.
Proof.
  intros Hcpu Hc Ht. unfold sleep_pass, current, myproc, sleep. rewrite Hcpu, Ht, elapsed_ticks.
  destruct (Z.ltb_spec (u32 k) (u32 n)) as [Hlt|Hge].
  - unfold at_. cbn [mbind res_bind]. rewrite Hc. cbn [mbind res_bind]. destruct (Z.eqb_spec (killed c) 0) as [Hk|Hk]; cbn [negb].
    + unfold sched, myproc, at_. cbn [cpu_proc upd with_ptable ptable]. rewrite Hcpu. cbn [mbind res_bind].
      rewrite !list_lookup_alter_eq, Hc. cbn [fmap option_fmap option_map]. eexists Asleep, _. split; [reflexivity|]. split; [done|].
      split; [done|]. split; [done|]. cbn. by rewrite !list_lookup_alter_eq, Hc.
    + eexists (Slept (-1)), s. split; [done|]. split; [done|]. split; [done|]. by right.
  - eexists (Slept 0), s. split; [done|]. split; [done|]. split; [done|]. by left.
Qed.

Lemma sleep_again_spec ticks0 n (s : tst K) c k : ptable (kern s) !! i = Some c -> ticks s = u32 (ticks0 + k) ->
  exists r s', sleep_again a ticks0 n (run_on s) = Ok (r, s') /\ ticks s' = ticks s /\
    exists c', ptable (kern s') !! i = Some c' /\ killed c' = killed c /\
    match r with
    | Slept v => v = 0 /\ u32 n <= u32 k \/ v = -1 /\ u32 k < u32 n /\ killed c <> 0
    | Asleep => u32 k < u32 n /\ killed c = 0 /\ chan c' = AddrChan a
    end.
Proof.
  intros Hc Ht. unfold sleep_again, sleep_resume, myproc. cbn [run_on set_kern kern with_cpu cpu_proc mbind res_bind].
  set (s1 := set_kern _ _). set (c1 := set_chan NoChan (set_state RUNNING c)).
  assert (Hc1 : ptable (kern s1) !! i = Some c1) by (cbn; by rewrite !list_lookup_alter_eq, Hc).
  destruct (sleep_pass_spec ticks0 n s1 c1 k eq_refl Hc1 Ht) as (r & s' & E & Ht' & Hr). exists r, s'. split; [exact E|]. split; [done|].
  destruct r as [v|].
  - destruct Hr as [-> Hr]. exists c1. done.
  - destruct Hr as (Hlt & Hk & Hs'). eexists. split; [exact Hs'|]. done.
Qed.

Lemma sstep_inv ticks0 n x y : sleep_inv ticks0 n x -> sstep ticks0 n x y -> sleep_inv ticks0 n y.
Proof.
  intros (c & Hc & Hx) Hstep. destruct Hstep as [s k|s k p|s k s' Ht Hsame|s k c0 r s' Hc0 Hst E]; cbn [st e returned] in *; destruct Hx as [Ht0 Hsl].
  - exists (wake (AddrChan a) c). split; [cbn; by rewrite list_lookup_fmap, Hc|]. cbn [st e returned tick ticks]. split.
    + rewrite Ht0. unfold u32. rewrite Zplus_mod_idemp_l. f_equal. lia.
    + intros Hs. exfalso. unfold wake in Hs. case_decide as Hd; [done|]. apply Hd. split; [done|]. by apply Hsl.
  - unfold kill. cbn [st]. destruct (find_pid p (ptable (kern s)) 0) as [j|]; [|by exists c]. destruct (decide (j = i)) as [->|Hne].
    + eexists. split; [cbn; by rewrite !list_lookup_alter_eq, Hc|]. cbn. split; [done|]. case_decide as Hd; [done|]. intros Hs. by destruct Hd.
    + exists c. split; [cbn; by rewrite !list_lookup_alter_ne|]. done.
  - exists c. cbn. rewrite Hsame, Ht. done.
  - assert (c0 = c) as -> by congruence. destruct (sleep_again_spec ticks0 n s c (Z.of_nat k) Hc Ht0) as (r' & s2 & E' & Ht' & c' & Hc' & Hk & Hr).
    rewrite E' in E. injection E as -> ->. exists c'. split; [done|]. cbn [st e returned]. destruct r as [v|]; [rewrite Hk; done|].
    split; [congruence|]. intros _. rewrite Hk. tauto.
Qed.
End sleeping.

(** C19: [sys_sleep] sleeps long enough and does not oversleep.  From the moment
    process [i] has gone to sleep for [n] ticks, whatever ticks, kills and other
    activity of the kernel follow: it is asleep only while fewer than [n] ticks
    have passed and it has not been killed, so no wake-up is lost; the call
    returns 0 only after [n] ticks, and -1 only to a killed process; and once [n]
    ticks have passed the process returns 0 as soon as it runs.  The tick counter
    may wrap around. *)
Theorem sleep_wakes {K : Type} `{KernelOps K} a i n (s0 s1 : tst K) x :
  cpu_proc (kern s0) = Some i -> 0 <= ticks s0 < 2 ^ 32 -> sleep_pass a (ticks s0) n s0 = Ok (Asleep, s1) ->
  rtc (sstep a i (ticks s0) n) (Scfg s1 0 None) x ->
  exists c, ptable (kern (st x)) !! i = Some c /\
    (returned x = None -> state c = SLEEPING -> killed c = 0 /\ u32 (Z.of_nat (e x)) < u32 n) /\
    (forall v, returned x = Some v -> v = 0 /\ u32 n <= Z.of_nat (e x) \/ v = -1 /\ killed c <> 0) /\
    (returned x = None -> u32 n <= Z.of_nat (e x) < 2 ^ 32 -> state c <> SLEEPING /\
       exists s', sleep_again a (ticks s0) n (run_on i (st x)) = Ok (Slept 0, s')).
Proof.
  intros Hcpu Ht E Hr.
  assert (Hinv : sleep_inv a i (ticks s0) n x).
  { assert (Hc : exists c, ptable (kern s0) !! i = Some c).
    { unfold sleep_pass in E. destruct (_ <? _); [|done]. unfold current, myproc, at_ in E. rewrite Hcpu in E. cbn in E.
      destruct (ptable (kern s0) !! i) as [c|]; [by exists c|done]. }
    destruct Hc as [c Hc]. assert (Ht0 : ticks s0 = u32 (ticks s0 + 0)) by (rewrite Z.add_0_r; symmetry; by apply Z.mod_small).
    destruct (sleep_pass_spec a i (ticks s0) n s0 c 0 Hcpu Hc Ht0) as (r & s' & E' & Ht' & Hres). rewrite E in E'. injection E' as <- <-.
    destruct Hres as (Hlt & Hk & Hs). assert (H0 : sleep_inv a i (ticks s0) n (Scfg s1 0 None)).
    { eexists. split; [exact Hs|]. cbn [st e returned]. split; [by rewrite Ht'|]. done. }
    clear -Hr H0. induction Hr as [x|x y z Hxy _ IH]; [done|]. apply IH. by eapply sstep_inv. }
  destruct Hinv as (c & Hc & Hx). exists c. split; [done|].
  assert (Hle : u32 (Z.of_nat (e x)) <= Z.of_nat (e x)) by (apply Z.mod_le; lia).
  destruct (returned x) as [v|].
  - split; [done|]. split; [|done]. intros w [= <-]. destruct Hx as [[-> ?]|(? & ? & ?)]; [left; split; [done|lia]|by right].
  - destruct Hx as [Htx Hsl]. split; [intros _ Hs; by destruct (Hsl Hs) as (_ & ? & ?)|]. split; [done|]. intros _ He.
    assert (Eu : u32 (Z.of_nat (e x)) = Z.of_nat (e x)) by (apply Z.mod_small; lia). split.
    + intros Hs. destruct (Hsl Hs) as (_ & _ & Hlt). lia.
    + destruct (sleep_again_spec a i (ticks s0) n (st x) c (Z.of_nat (e x)) Hc Htx) as (r & s' & Er & _ & c' & _ & _ & Hr').
      destruct r as [v|]; [|lia]. destruct Hr' as [[-> _]|(-> & Hlt & _)]; [by exists s'|lia].
Qed.

(** A running process goes to sleep for two ticks; one tick passes, and it goes
    to sleep again; after the second it has returned. *)
Definition demo_kern : kst nat := upd 0 (set_state RUNNING) (Kst [proc0] 1 None (Some 0%nat) 0%nat).

#[local] Instance demo_ops : KernelOps nat := {|
  kalloc k := (0, k); kfree _ k := k; setupkvm k := (0, k); inituvm _ k := k; copyuvm _ _ k := (0, k); freevm _ k := k;
  allocuvm _ _ _ k := (0, k); deallocuvm _ _ _ k := (0, k); filedup _ k := k; fileclose _ k := k; namei_root k := (0, k);
  idup _ k := k; iput _ k := k; begin_op k := k; end_op k := k; forkret := 0 |}.

Definition demo_asleep (t : Z) : tst nat := Tst (upd 0 (set_state SLEEPING) (upd 0 (set_chan (AddrChan 64)) demo_kern)) t.

Lemma sleep_wakes_witness :
  exists c, ptable (kern (tick 64 (demo_asleep 4294967295))) !! 0%nat = Some c /\
    (None = @None Z -> state c = SLEEPING -> killed c = 0 /\ u32 1 < u32 2) /\
    (forall v, None = Some v -> v = 0 /\ u32 2 <= 1 \/ v = -1 /\ killed c <> 0) /\
    (None = @None Z -> u32 2 <= 1 < 2 ^ 32 -> state c <> SLEEPING /\
       exists s', sleep_again 64 4294967295 2 (run_on 0 (tick 64 (demo_asleep 4294967295))) = Ok (Slept 0, s')).
Proof.
  apply (sleep_wakes 64 0 2 (Tst demo_kern 4294967295) (demo_asleep 4294967295) (Scfg (tick 64 (demo_asleep 4294967295)) 1 None)); try done.
  apply rtc_once. constructor.
Defined.

Lemma trap_returns_witness :
  (forall s', trap 64 (Handlers Ok Ok Ok Ok Ok) 0 32 27 (tf proc0) (Tst demo_kern 5) = Ok (Back s') -> alive s') /\
  (known_trap 32 = false -> from_user 27 = true -> forall s', trap 64 (Handlers Ok Ok Ok Ok Ok) 0 32 27 (tf proc0) (Tst demo_kern 5) <> Ok (Back s')).
Proof. apply (trap_returns 64 (Handlers Ok Ok Ok Ok Ok) 0 32 27 (tf proc0) (Tst demo_kern 5)). by left. Defined.
