(* ===== verification/Xv6Ide.v ===== *)
(** The IDE disk driver of xv6 (src/설계 3번/xv6/ide.c): the queue of buffers that
    wait for the disk, the registers that start a request, and the interrupt that
    ends it.

    The drive is hardware: a class of the three port instructions the driver uses
    ([Drive]), with what the ATA standard says of the commands READ SECTORS and
    WRITE SECTORS as laws ([AtaDrive]).  Nothing is known of other commands, of
    other sector counts or of a transfer that its command does not announce.  The
    status of the drive at an interrupt is a parameter ([err]).  The queue lock is
    held for each of the steps below, except that [iderw] gives it up while it
    sleeps: [iderw_start] is [iderw] up to the sleep and [iderw_again] the test it
    repeats when it is woken. *)

From S2P Require Import Prelude Bytes.

Definition SECTOR_SIZE : Z := 512.
Definition BSIZE : Z := 512.
Definition FSSIZE : Z := 1000.
Definition IDE_CMD_READ : Z := 0x20.
Definition IDE_CMD_WRITE : Z := 0x30.
Definition IDE_CMD_RDMUL : Z := 0xc4.
Definition IDE_CMD_WRMUL : Z := 0xc5.
Definition B_VALID : Z := 2.
Definition B_DIRTY : Z := 4.

Record dbuf := Dbuf { bflags : Z; bdev : Z; bblockno : Z; bdata : list Z; qnext : option nat }.

Definition set_qnext (q : option nat) (x : dbuf) : dbuf := Dbuf (bflags x) (bdev x) (bblockno x) (bdata x) q.
Definition set_bdata (d : list Z) (x : dbuf) : dbuf := Dbuf (bflags x) (bdev x) (bblockno x) d (qnext x).
Definition set_bflags (f : Z) (x : dbuf) : dbuf := Dbuf f (bdev x) (bblockno x) (bdata x) (qnext x).

(** ** The drive *)

(** A pair of disks on one IDE channel: [outb port v], [outsl port bytes] and
    [insl port n], which delivers [n] bytes; [reg] is the register last written
    through a port, [command] the last command, [media] the sectors. *)
Class Drive (D : Type) := {
  outb : Z -> Z -> D -> D;
  outsl : Z -> list Z -> D -> D;
  insl : Z -> Z -> D -> list Z * D;
  reg : D -> Z -> Z;
  command : D -> option Z;
  media : D -> Z * Z -> list Z
}.

(** The disk and the sector that the registers name (28-bit addresses). *)
Definition target {D} `{Drive D} (d : D) : Z * Z :=
  (Z.land (Z.shiftr (reg d 0x1f6) 4) 1,
   reg d 0x1f3 + 2 ^ 8 * reg d 0x1f4 + 2 ^ 16 * reg d 0x1f5 + 2 ^ 24 * Z.land (reg d 0x1f6) 15).

(** The drive carries out [c] for one sector, with interrupts enabled (bit nIEN
    of the control register is clear) and sector addresses (bit LBA is set). *)
Definition working {D} `{Drive D} (d : D) (c : Z) : Prop :=
  command d = Some c /\ reg d 0x1f2 = 1 /\ Z.land (reg d 0x3f6) 2 = 0 /\ Z.land (reg d 0x1f6) 64 = 64.

(** The ATA commands READ SECTORS and WRITE SECTORS, 0x20 and 0x30, for one
    sector on drives whose writes do not fail. *)
Class AtaDrive (D : Type) `{Drive D} := {
  ata_outb_reg : forall p v d q, p <> 0x1f7 -> reg (outb p v d) q = if decide (q = p) then v else reg d q;
  ata_outb_media : forall p v d a, media (outb p v d) a = media d a;
  ata_command_reg : forall v d q, q <> 0x1f7 -> reg (outb 0x1f7 v d) q = reg d q;
  ata_command : forall v d, command (outb 0x1f7 v d) = Some v;
  ata_write : forall bs d, working d 0x30 -> length bs = 512%nat ->
    working (outsl 0x1f0 bs d) 0x30 /\ target (outsl 0x1f0 bs d) = target d /\
    forall a, media (outsl 0x1f0 bs d) a = if decide (a = target d) then bs else media d a;
  ata_read : forall d, working d 0x20 ->
    fst (insl 0x1f0 512 d) = media d (target d) /\ forall a, media (snd (insl 0x1f0 512 d)) a = media d a
}.

Section driver.
Context {D : Type} {HD : Drive D}.

(** ** The driver *)

Record ide := Ide { bufs : gmap nat dbuf; idequeue : option nat; hw : D; havedisk1 : bool; sleepers : gset nat }.

Definition set_buf (b : nat) (x : dbuf) (s : ide) : ide := Ide (<[b := x]> (bufs s)) (idequeue s) (hw s) (havedisk1 s) (sleepers s).
Definition set_queue (q : option nat) (s : ide) : ide := Ide (bufs s) q (hw s) (havedisk1 s) (sleepers s).
Definition set_hw (d : D) (s : ide) : ide := Ide (bufs s) (idequeue s) d (havedisk1 s) (sleepers s).
Definition set_sleepers (w : gset nat) (s : ide) : ide := Ide (bufs s) (idequeue s) (hw s) (havedisk1 s) w.

Definition bget (s : ide) (b : nat) : res dbuf :=
  match bufs s !! b with Some x => Ok x | None => Stuck OutOfBounds end.

Definition idestart (s : ide) (b : nat) : res ide :=
  x ← bget s b;
  if bblockno x >=? FSSIZE then Stuck Panicked
  else
    let sector_per_block := BSIZE / SECTOR_SIZE in
    let sector := bblockno x * sector_per_block in
    let read_cmd := if sector_per_block =? 1 then IDE_CMD_READ else IDE_CMD_RDMUL in
    let write_cmd := if sector_per_block =? 1 then IDE_CMD_WRITE else IDE_CMD_WRMUL in
    if sector_per_block >? 7 then Stuck Panicked
    else
      let d := outb 0x3f6 0 (hw s) in
      let d := outb 0x1f2 sector_per_block d in
      let d := outb 0x1f3 (Z.land sector 0xff) d in
      let d := outb 0x1f4 (Z.land (Z.shiftr sector 8) 0xff) d in
      let d := outb 0x1f5 (Z.land (Z.shiftr sector 16) 0xff) d in
      let d := outb 0x1f6 (Z.lor (Z.lor 0xe0 (Z.shiftl (Z.land (bdev x) 1) 4)) (Z.land (Z.shiftr sector 24) 0x0f)) d in
      if negb (Z.land (bflags x) B_DIRTY =? 0) then Ok (set_hw (outsl 0x1f0 (bdata x) (outb 0x1f7 write_cmd d)) s)
      else Ok (set_hw (outb 0x1f7 read_cmd d) s).

(** [err]: the drive reports an error. *)
Definition ideintr (err : bool) (s : ide) : res ide :=
  match idequeue s with
  | None => Ok s
  | Some b =>
      x ← bget s b;
      let s := set_queue (qnext x) s in
      let '(x, s) :=
        if (Z.land (bflags x) B_DIRTY =? 0) && negb err then
          let '(bs, d) := insl 0x1f0 (BSIZE / 4 * 4) (hw s) in (set_bdata bs x, set_hw d s)
        else (x, s) in
      let x := set_bflags (Z.lor (bflags x) B_VALID) x in
      let x := set_bflags (Z.land (bflags x) (u32 (Z.lnot B_DIRTY))) x in
      let s := set_sleepers (sleepers s ∖ {[b]}) (set_buf b x s) in
      match idequeue s with
      | None => Ok s
      | Some c => idestart s c
      end
  end.

(** The walk to the end of the queue, from the buffer [p]. *)
Fixpoint append (fuel : nat) (s : ide) (p b : nat) : res ide :=
  match fuel with
  | O => Stuck OutOfFuel
  | S fuel' =>
      x ← bget s p;
      match qnext x with
      | Some p' => append fuel' s p' b
      | None => Ok (set_buf p (set_qnext (Some b) x) s)
      end
  end.

Definition finished (x : dbuf) : bool := Z.land (bflags x) (Z.lor B_VALID B_DIRTY) =? B_VALID.

(** The test of the loop: the result says whether [iderw] returns. *)
Definition iderw_again (s : ide) (b : nat) : res (bool * ide) :=
  x ← bget s b;
  if negb (finished x) then Ok (false, set_sleepers ({[b]} ∪ sleepers s) s) else Ok (true, s).

Definition iderw_start (holdingsleep : bool) (s : ide) (b : nat) : res (bool * ide) :=
  x ← bget s b;
  if negb holdingsleep then Stuck Panicked
  else if finished x then Stuck Panicked
  else if negb (bdev x =? 0) && negb (havedisk1 s) then Stuck Panicked
  else
    let s := set_buf b (set_qnext None x) s in
    s ← match idequeue s with
        | None => Ok (set_queue (Some b) s)
        | Some p => append (S (size (bufs s))) s p b
        end;
    s ← (if decide (idequeue s = Some b) then idestart s b else Ok s);
    iderw_again s b.

(** ** The queue *)

Definition addr (x : dbuf) : Z * Z := (bdev x, bblockno x).
Definition dirty (x : dbuf) : bool := negb (Z.land (bflags x) B_DIRTY =? 0).

(** A buffer that needs the disk. *)
Definition pending (x : dbuf) : Prop := finished x = false /\ 0 <= bblockno x < FSSIZE /\ (bdev x = 0 \/ bdev x = 1) /\ length (bdata x) = 512%nat.

(** Linked in the order of [q]. *)
Definition chain (m : gmap nat dbuf) (q : list nat) : Prop :=
  forall i b, q !! i = Some b -> exists x, m !! b = Some x /\ qnext x = q !! S i.

(** What the media hold once the request of [x] has been given to the drive. *)
Definition sent (x : dbuf) (m : Z * Z -> list Z) (a : Z * Z) : list Z := if dirty x && bool_decide (a = addr x) then bdata x else m a.

(** The ATA command for [x]: WRITE SECTORS or READ SECTORS. *)
Definition request (x : dbuf) : Z := if dirty x then 0x30 else 0x20.

(** [q] is the queue: its buffers are linked and pending, a process sleeps on each
    of them and on no other, and the drive carries out the command for the first. *)
Record ide_ok (s : ide) (q : list nat) : Prop := {
  io_nodup : NoDup q;
  io_head : idequeue s = head q;
  io_chain : chain (bufs s) q;
  io_pending : forall b x, b ∈ q -> bufs s !! b = Some x -> pending x;
  io_sleepers : sleepers s = list_to_set q;
  io_drive : forall b x, head q = Some b -> bufs s !! b = Some x ->
    working (hw s) (request x) /\ target (hw s) = addr x /\ (dirty x = true -> media (hw s) (addr x) = bdata x) }.

Context {HA : AtaDrive D}.

Lemma sector_bytes z : 0 <= z < FSSIZE ->
  Z.land z 0xff + 2 ^ 8 * Z.land (Z.shiftr z 8) 0xff + 2 ^ 16 * Z.land (Z.shiftr z 16) 0xff = z /\ Z.land (Z.shiftr z 24) 0x0f = 0.
Proof.
  unfold FSSIZE. intros Hz. change 0xff with (Z.ones 8). change 0x0f with (Z.ones 4). rewrite !Z.land_ones, !Z.shiftr_div_pow2 by lia.
  change (2 ^ 8) with 256. change (2 ^ 16) with 65536. change (2 ^ 24) with 16777216. change (2 ^ 4) with 16.
  rewrite (Z.div_small z 65536), (Z.div_small z 16777216) by lia. split; [|done]. Z.div_mod_to_equations. lia.
Qed.

Lemma sent_same x m : dirty x = true -> sent x m (addr x) = bdata x.
Proof. intros Hd. unfold sent. by rewrite Hd, bool_decide_true by done. Qed.

(** The registers that [idestart] writes before the command. *)
Definition addressed (d : D) (x : dbuf) : Prop :=
  reg d 0x1f2 = 1 /\ Z.land (reg d 0x3f6) 2 = 0 /\ Z.land (reg d 0x1f6) 64 = 64 /\ target d = addr x.

Lemma command_sent d x v : addressed d x ->
  working (outb 0x1f7 v d) v /\ target (outb 0x1f7 v d) = addr x /\ forall a, media (outb 0x1f7 v d) a = media d a.
Proof.
  intros (H1 & H2 & H3 & H4). unfold working, target in *. rewrite ata_command, !ata_command_reg by done.
  split; [done|]. split; [done|]. apply ata_outb_media.
Qed.

Lemma idestart_spec s b x : bufs s !! b = Some x -> pending x ->
  exists d, idestart s b = Ok (set_hw d s) /\ working d (request x) /\ target d = addr x /\
    forall a, media d a = sent x (media (hw s)) a.
Proof.
  intros Hx (_ & Hb & Hd & Hlen). unfold idestart, bget. rewrite Hx. run. rewrite Z.geb_leb, (proj2 (Z.leb_gt _ _)) by lia.
  change (BSIZE / SECTOR_SIZE) with 1. rewrite Z.mul_1_r. change (1 =? 1) with true. change (1 >? 7) with false. cbv zeta iota.
  destruct (sector_bytes _ Hb) as [Hs H0]. rewrite H0, Z.lor_0_r.
  assert (Htop : forall v, v = 0 \/ v = 1 -> Z.land (Z.shiftr (Z.lor 0xe0 (Z.shiftl (Z.land v 1) 4)) 4) 1 = v /\
    Z.land (Z.lor 0xe0 (Z.shiftl (Z.land v 1) 4)) 15 = 0 /\ Z.land (Z.lor 0xe0 (Z.shiftl (Z.land v 1) 4)) 64 = 64)
    by (intros v [-> | ->]; done).
  destruct (Htop _ Hd) as (Ht1 & Ht2 & Ht3). set (r6 := Z.lor _ _) in *. clearbody r6.
  match goal with |- context [outb 0x1f6 r6 ?d] => set (d1 := outb 0x1f6 r6 d) end.
  assert (Hd1 : addressed d1 x).
  { unfold addressed, target, d1, addr. rewrite !ata_outb_reg by done.
    repeat first [rewrite decide_True by done|rewrite decide_False by done]. rewrite Ht1, Ht2, Ht3.
    split_and!; [done|done|done|]. f_equal. lia. }
  assert (Hm1 : forall a, media d1 a = media (hw s) a) by (intros a; unfold d1; by rewrite !ata_outb_media). clearbody d1.
  unfold request, sent, dirty. destruct (negb (Z.land (bflags x) B_DIRTY =? 0)).
  - destruct (command_sent d1 x IDE_CMD_WRITE Hd1) as (Hw & Ht & Hm). destruct (ata_write (bdata x) _ Hw Hlen) as (Hw' & Ht' & Hm').
    eexists. split; [reflexivity|]. split; [exact Hw'|]. split; [congruence|]. intros a. rewrite Hm', Ht, Hm, Hm1.
    cbn [andb]. by repeat case_decide.
  - destruct (command_sent d1 x IDE_CMD_READ Hd1) as (Hw & Ht & Hm).
    eexists. split; [reflexivity|]. split; [exact Hw|]. split; [exact Ht|]. intros a. by rewrite Hm, Hm1.
Qed.

Lemma append_spec s b q : forall p fuel, chain (bufs s) (p :: q) -> (length q < fuel)%nat ->
  exists l x, last (p :: q) = Some l /\ bufs s !! l = Some x /\ append fuel s p b = Ok (set_buf l (set_qnext (Some b) x) s).
Proof.
  induction q as [|c q IH]; intros p [|fuel] Hc Hf; try (cbn in Hf; lia); destruct (Hc 0%nat p eq_refl) as (x & Hx & Hn); cbn in Hn; cbn [append];
    unfold bget; rewrite Hx; run; rewrite Hn.
  - by exists p, x.
  - destruct (IH c fuel) as (l & y & Hl & Hy & E); [|cbn in Hf; lia|by exists l, y]. intros i d Hd. by apply (Hc (S i) d).
Qed.

Lemma chain_length m q : chain m q -> NoDup q -> (length q <= size m)%nat.
Proof.
  intros Hc Hn. rewrite <- size_dom, <- (size_list_to_set (C := gset nat) q Hn). apply subseteq_size. intros b Hb%elem_of_list_to_set.
  apply list_elem_of_lookup in Hb as [i Hi]. destruct (Hc i b Hi) as (x & Hx & _). apply elem_of_dom. by rewrite Hx.
Qed.

(** The entry behind the last one. *)
Lemma chain_snoc m q l y b x : chain m q -> NoDup q -> last q = Some l -> m !! l = Some y -> m !! b = Some x -> qnext x = None -> b ∉ q ->
  chain (<[l := set_qnext (Some b) y]> m) (q ++ [b]).
Proof.
  intros Hc Hnd Hl Hy Hb Hx Hbq i c Hi. rewrite last_lookup in Hl. pose proof (lookup_lt_Some _ _ _ Hl) as Hlen.
  destruct (decide (i < length q)%nat) as [Hin|Hge].
  - rewrite lookup_app_l in Hi by done. destruct (decide (i = Init.Nat.pred (length q))) as [->|Hne].
    + assert (c = l) as -> by congruence. eexists. split; [apply lookup_insert_eq|]. cbn.
      rewrite lookup_app_r by lia. by replace (S (Init.Nat.pred (length q)) - length q)%nat with 0%nat by lia.
    + destruct (Hc i c Hi) as (z & Hz & Hn). exists z. rewrite lookup_insert_ne; [|by intros ->; apply Hne; eapply NoDup_lookup].
      split; [done|]. rewrite lookup_app_l by lia. done.
  - rewrite lookup_app_r in Hi by lia. destruct (i - length q)%nat eqn:E; [|by destruct n]. injection Hi as <-.
    exists x. rewrite lookup_insert_ne; [|intros ->; apply Hbq; by eapply list_elem_of_lookup_2]. split; [done|].
    rewrite Hx. symmetry. apply lookup_ge_None. rewrite length_app. cbn. lia.
Qed.

Lemma pending_qnext n x : pending (set_qnext n x) <-> pending x.
Proof. done. Qed.

Lemma iderw_spec s q b x : ide_ok s q -> bufs s !! b = Some x -> b ∉ q -> pending x -> (bdev x = 0 \/ havedisk1 s = true) ->
  exists s', iderw_start true s b = Ok (false, s') /\ ide_ok s' (q ++ [b]) /\
    (forall c y, bufs s !! c = Some y -> exists n, bufs s' !! c = Some (set_qnext n y)) /\
    forall a, media (hw s') a = match q with [] => sent x (media (hw s)) a | _ => media (hw s) a end.
Proof.
  intros [Hnd Hh Hc Hp Hsl Hdr] Hx Hbq Hpx Hdev. pose proof Hpx as (Hfin & _). unfold iderw_start, bget at 1. rewrite Hx. run. rewrite Hfin.
  replace (negb (bdev x =? 0) && negb (havedisk1 s)) with false
    by (destruct Hdev as [->|Hd]; [done|rewrite Hd; by rewrite andb_false_r]). cbv zeta.
  set (x0 := set_qnext None x). set (s1 := set_buf b x0 s). change (idequeue s1) with (idequeue s). rewrite Hh.
  assert (Hs1 : bufs s1 !! b = Some x0) by apply lookup_insert_eq.
  destruct q as [|p q]; cbn [head].
  - run. rewrite decide_True by done. destruct (idestart_spec (set_queue (Some b) s1) b x0 Hs1 Hpx) as (d & -> & Hwk & Ht & Hm). run.
    unfold iderw_again, bget. change (bufs (set_hw _ _)) with (bufs s1). rewrite Hs1. run. change (finished x0) with (finished x). rewrite Hfin.
    eexists. split; [reflexivity|]. split; [|split].
    + split; cbn [bufs idequeue hw sleepers set_sleepers set_hw set_queue app head].
      * apply NoDup_singleton.
      * done.
      * intros [|[|i]] c Hi; cbn in Hi; try done. injection Hi as <-. by exists x0.
      * intros c y Hc'%list_elem_of_singleton Hy. subst c. rewrite Hs1 in Hy. by injection Hy as <-.
      * change (sleepers s1) with (sleepers s). rewrite Hsl. set_solver.
      * intros c y [= <-] Hy. rewrite Hs1 in Hy. injection Hy as <-. split; [done|]. split; [done|]. intros Hdirty. rewrite Hm. by apply sent_same.
    + intros c y Hy. cbn. destruct (decide (c = b)) as [->|Hne]; [|exists (qnext y); rewrite lookup_insert_ne by done; rewrite Hy; by destruct y].
      exists None. rewrite lookup_insert_eq. by assert (y = x) as -> by congruence.
    + exact Hm.
  - assert (Hc1 : chain (bufs s1) (p :: q)).
    { intros i c Hi. destruct (Hc i c Hi) as (y & Hy & Hn). exists y. split; [|done]. cbn. rewrite lookup_insert_ne; [done|].
      intros ->. apply Hbq. by eapply list_elem_of_lookup_2. }
    destruct (append_spec s1 b q p (S (size (bufs s1))) Hc1) as (l & y & Hl & Hy & ->); [pose proof (chain_length _ _ Hc1 Hnd); cbn in *; lia|]. run.
    assert (Hlq : l ∈ p :: q) by (apply last_Some in Hl as [k ->]; set_solver). assert (l <> b) by (intros ->; done).
    rewrite decide_False by (cbn; rewrite Hh; cbn; intros [= ->]; apply Hbq; left).
    cbn [negb]. run. unfold iderw_again, bget. change (bufs (set_buf l ?z s1)) with (<[l := z]> (bufs s1)). rewrite (lookup_insert_ne _ l) by done. rewrite Hs1. run. change (finished x0) with (finished x). rewrite Hfin.
    eexists. split; [reflexivity|]. split; [|split].
    + split; cbn [bufs idequeue hw sleepers set_sleepers set_buf].
      * apply NoDup_app. split; [done|]. split; [set_solver|apply NoDup_singleton].
      * exact Hh.
      * eapply chain_snoc; try done.
      * intros c z Hcq Hz. apply lookup_insert_Some in Hz as [[<- <-]|[Hne Hz]].
        -- apply pending_qnext. apply (Hp l y); [done|]. by rewrite <- Hy; cbn; rewrite lookup_insert_ne.
        -- change (bufs s1) with (<[b := x0]> (bufs s)) in Hz; apply lookup_insert_Some in Hz as [[<- <-]|[Hne' Hz]]; [done|]. apply (Hp c z); [set_solver|done].
      * change (sleepers s1) with (sleepers s). rewrite Hsl. set_solver.
      * intros c z Hcq Hz. cbn in Hcq. injection Hcq as <-. assert (p <> b) by (intros ->; apply Hbq; left).
        change (hw s1) with (hw s). destruct (decide (p = l)) as [->|Hne].
        -- rewrite lookup_insert_eq in Hz. injection Hz as <-. apply (Hdr l y eq_refl). by rewrite <- Hy; cbn; rewrite lookup_insert_ne.
        -- change (bufs s1) with (<[b := x0]> (bufs s)) in Hz. rewrite !lookup_insert_ne in Hz by done. by apply (Hdr p z eq_refl).
    + intros c z Hz. cbn. destruct (decide (c = l)) as [->|Hne].
      * rewrite lookup_insert_eq. exists (Some b). cbn in Hy. rewrite lookup_insert_ne in Hy by done. congruence.
      * rewrite lookup_insert_ne by done. destruct (decide (c = b)) as [->|Hnb]; [exists None; rewrite lookup_insert_eq; by assert (z = x) as -> by congruence|].
        exists (qnext z). rewrite lookup_insert_ne by done. rewrite Hz. by destruct z.
    + done.
Qed.

(** The buffer after its interrupt. *)
Definition served (err : bool) (m : Z * Z -> list Z) (x : dbuf) : dbuf :=
  let data := if dirty x || err then bdata x else m (addr x) in
  Dbuf (Z.land (Z.lor (bflags x) B_VALID) (u32 (Z.lnot B_DIRTY))) (bdev x) (bblockno x) data (qnext x).

Lemma served_finished err m x : finished (served err m x) = true.
Proof.
  unfold finished, served, B_VALID, B_DIRTY. cbn [bflags]. apply Z.eqb_eq. rewrite <- Z.land_assoc.
  change (Z.land (u32 (Z.lnot 4)) (Z.lor 2 4)) with 2. rewrite Z.land_lor_distr_l. change (Z.land 2 2) with 2.
  apply Z.bits_inj'. intros n Hn. rewrite Z.lor_spec, Z.land_spec. destruct (Z.testbit 2 n); [by rewrite orb_true_r|by rewrite andb_false_r].
Qed.

(** The transfer of a read at the interrupt, and the flags set after it. *)
Lemma transfer err s x : working (hw s) (request x) -> target (hw s) = addr x -> exists d x1,
  (if (Z.land (bflags x) B_DIRTY =? 0) && negb err then
     let '(bs, d) := insl 0x1f0 (BSIZE / 4 * 4) (hw s) in (set_bdata bs x, set_hw d s)
   else (x, s)) = (x1, set_hw d s) /\ (forall a, media d a = media (hw s) a) /\
  set_bflags (Z.land (bflags (set_bflags (Z.lor (bflags x1) B_VALID) x1)) (u32 (Z.lnot B_DIRTY))) (set_bflags (Z.lor (bflags x1) B_VALID) x1) =
    served err (media (hw s)) x.
Proof.
  intros Hw Ht. change (BSIZE / 4 * 4) with 512. unfold served, request, dirty in *.
  destruct (Z.land (bflags x) B_DIRTY =? 0); cbn [negb andb orb] in *; [destruct err; cbn [negb]|].
  - exists (hw s), x. split; [by destruct s|]. by destruct x.
  - destruct (ata_read _ Hw) as [Hb Hm]. destruct (insl 0x1f0 512 (hw s)) as [bs d] eqn:E. cbn [fst snd] in *.
    exists d, (set_bdata bs x). split; [done|]. split; [exact Hm|]. rewrite Hb, Ht. by destruct x.
  - exists (hw s), x. split; [by destruct s|]. by destruct x.
Qed.

Lemma ideintr_spec s q b x err : ide_ok s (b :: q) -> bufs s !! b = Some x ->
  exists s', ideintr err s = Ok s' /\ ide_ok s' q /\ bufs s' = <[b := served err (media (hw s)) x]> (bufs s) /\
    (forall c y, head q = Some c -> bufs s !! c = Some y -> forall a, media (hw s') a = sent y (media (hw s)) a) /\
    (q = [] -> forall a, media (hw s') a = media (hw s) a).
Proof.
  intros [Hnd Hh Hc Hp Hsl Hdr] Hx. destruct (Hdr b x eq_refl Hx) as (Hwk & Ht & Hm). apply NoDup_cons in Hnd as [Hbq Hnd].
  assert (Hqn : qnext x = head q).
  { destruct (Hc 0%nat b eq_refl) as (x' & Hx' & Hn). assert (x' = x) as -> by congruence. rewrite Hn. by destruct q. }
  unfold ideintr, bget. rewrite Hh. cbn [head]. rewrite Hx. run. cbv zeta.
  destruct (transfer err (set_queue (qnext x) s) x Hwk Ht) as (d & x1 & -> & Hd & Ex). cbv zeta iota.
  rewrite Ex. clear x1 Ex. set (x2 := served err (media (hw s)) x). set (s1 := set_sleepers _ _).
  assert (Hb1 : bufs s1 = <[b := x2]> (bufs s)) by done.
  assert (Hq1 : forall c, c ∈ q -> bufs s1 !! c = bufs s !! c) by (intros c Hcq; rewrite Hb1, lookup_insert_ne; [done|by intros ->]).
  assert (Hpend : forall c y, c ∈ q -> bufs s1 !! c = Some y -> pending y) by (intros c y Hcq; rewrite Hq1 by done; apply Hp; by right).
  assert (Hch : chain (bufs s1) q).
  { intros i c Hi. destruct (Hc (S i) c Hi) as (y & Hy & Hn). exists y. rewrite Hq1 by (by eapply list_elem_of_lookup_2). done. }
  assert (Hs1l : sleepers s1 = list_to_set q) by (cbn; rewrite Hsl; set_solver).
  change (idequeue s1) with (qnext x). rewrite Hqn. destruct q as [|c q]; cbn [head].
  - exists s1. split; [done|]. split; [split; try done|]. done.
  - destruct (Hch 0%nat c eq_refl) as (y & Hy & _). destruct (idestart_spec s1 c y Hy (Hpend c y ltac:(left) Hy)) as (d1 & -> & Hw1 & Htd & Hmd).
    exists (set_hw d1 s1). split; [done|]. split; [split; try done|].
    + intros c' y' [= <-] Hy'. change (bufs (set_hw d1 s1)) with (bufs s1) in Hy'. assert (y' = y) as -> by congruence. cbn [hw set_hw].
      split; [done|]. split; [done|]. intros Hdirty. rewrite Hmd. by apply sent_same.
    + split; [done|]. split; [|done]. intros c' y' [= <-] Hy' a. cbn [hw set_hw]. rewrite <- (Hq1 c ltac:(left)) in Hy'. assert (y' = y) as -> by congruence.
      rewrite Hmd. unfold sent. case_match; [done|]. apply Hd.
Qed.

End driver.

(** C24: the disk queue, on any ATA drive.  [ide_ok s q] says that [q] is the
    queue of requests, linked through the buffers, with a process asleep on each,
    and the drive carrying out the command for the first: READ SECTORS or WRITE
    SECTORS, one sector, at the address of the buffer, with interrupts enabled.
    It holds of an idle driver and is kept when the holder of a buffer that is
    not queued changes it.  A request for such a buffer appends it to the queue
    and sleeps; an interrupt serves exactly the first request (a dirty buffer is
    then on the disk, a clean one holds the sector of its device and block
    number, unless the drive reports an error), marks it valid and clean, wakes
    its process, which then returns, and starts the next; an interrupt without a
    request does nothing.  No sector changes but those of dirty buffers, and no
    request is lost, reordered or served twice. *)
Theorem ide_queue {D} `{AtaDrive D} (s : ide) q : ide_ok s q ->
  (forall b x, b ∉ q -> ide_ok (set_buf b x s) q) /\
  (forall b x, bufs s !! b = Some x -> b ∉ q -> pending x -> (bdev x = 0 \/ havedisk1 s = true) ->
     exists s', iderw_start true s b = Ok (false, s') /\ ide_ok s' (q ++ [b]) /\
       (forall c y, bufs s !! c = Some y -> exists n, bufs s' !! c = Some (set_qnext n y)) /\
       forall a, media (hw s') a = match q with [] => sent x (media (hw s)) a | _ => media (hw s) a end) /\
  (forall err, q = [] -> ideintr err s = Ok s) /\
  (forall err b q' x, q = b :: q' -> bufs s !! b = Some x ->
     exists s' x', ideintr err s = Ok s' /\ ide_ok s' q' /\ bufs s' = <[b := x']> (bufs s) /\
       iderw_again s' b = Ok (true, s') /\ addr x' = addr x /\
       (dirty x = true -> bdata x' = bdata x /\ media (hw s) (addr x) = bdata x) /\
       (dirty x = false -> err = false -> bdata x' = media (hw s) (addr x)) /\
       (forall c y, head q' = Some c -> bufs s !! c = Some y -> forall a, media (hw s') a = sent y (media (hw s)) a) /\
       (q' = [] -> forall a, media (hw s') a = media (hw s) a)).
Proof.
  intros Hok. split; [|split; [|split]].
  - intros b x Hbq. destruct Hok as [Hnd Hh Hc Hp Hsl Hdr].
    assert (Hsame : forall c, c ∈ q -> bufs (set_buf b x s) !! c = bufs s !! c) by (intros c Hcq; cbn; rewrite lookup_insert_ne; [done|by intros ->]).
    split; try done.
    + intros i c Hi. destruct (Hc i c Hi) as (y & Hy & Hn). exists y. rewrite Hsame by (by eapply list_elem_of_lookup_2). done.
    + intros c y Hcq. rewrite Hsame by done. by apply Hp.
    + intros c y Hcq. rewrite Hsame by (by apply head_Some_elem_of). by apply Hdr.
  - intros b x. by apply iderw_spec.
  - intros err ->. unfold ideintr. by rewrite (io_head _ _ Hok).
  - intros err b q' x -> Hx. destruct (ideintr_spec s q' b x err Hok Hx) as (s' & E & Hok' & Hb & Hm1 & Hm2).
    exists s', (served err (media (hw s)) x). split; [done|]. split; [done|]. split; [done|]. split.
    { unfold iderw_again, bget. rewrite Hb, lookup_insert_eq. run. by rewrite served_finished. }
    split; [done|]. split; [|split; [|done]].
    + intros Hd. unfold served. cbn [bdata]. rewrite Hd. split; [done|]. by apply (io_drive _ _ Hok b x eq_refl Hx).
    + intros Hd ->. unfold served. cbn [bdata]. by rewrite Hd.
Qed.

(** ** A drive *)

(** Registers, sectors and the last command, as a machine that does what the
    commands say for one sector and nothing else. *)
Record disks := Disks { d_regs : gmap Z Z; d_media : gmap (Z * Z) (list Z); d_cmd : option Z }.

Definition d_reg (d : disks) (p : Z) : Z := default 0 (d_regs d !! p).
Definition d_target (d : disks) : Z * Z :=
  (Z.land (Z.shiftr (d_reg d 0x1f6) 4) 1,
   d_reg d 0x1f3 + 2 ^ 8 * d_reg d 0x1f4 + 2 ^ 16 * d_reg d 0x1f5 + 2 ^ 24 * Z.land (d_reg d 0x1f6) 15).
Definition d_sector (d : disks) (a : Z * Z) : list Z := default (replicate 512 0) (d_media d !! a).
Definition d_doing (d : disks) (c : Z) : bool := bool_decide (d_cmd d = Some c) && (d_reg d 0x1f2 =? 1).

#[global] Instance disks_drive : Drive disks := {
  outb p v d := if p =? 0x1f7 then Disks (d_regs d) (d_media d) (Some v) else Disks (<[p := v]> (d_regs d)) (d_media d) (d_cmd d);
  outsl p bs d := if d_doing d 0x30 then Disks (d_regs d) (<[d_target d := bs]> (d_media d)) (d_cmd d) else d;
  insl p n d := (if d_doing d 0x20 then d_sector d (d_target d) else [], d);
  reg := d_reg;
  command := d_cmd;
  media := d_sector
}.

#[global] Instance disks_ata : AtaDrive disks.
Proof.
  constructor.
  - intros p v d q Hp. cbn. rewrite (proj2 (Z.eqb_neq _ _) Hp). unfold d_reg. cbn [d_regs]. case_decide as E; [by rewrite E, lookup_insert_eq|].
    by rewrite lookup_insert_ne by congruence.
  - intros p v d a. cbn. by case_match.
  - done.
  - done.
  - intros bs d (Hc & Hn & Hw) _. cbn in *. unfold d_doing. rewrite Hc, bool_decide_true, Hn by done. cbn [andb Z.eqb Pos.eqb].
    split; [done|]. split; [done|]. intros a. unfold d_sector. cbn [d_media]. change (target d) with (d_target d).
    case_decide as E; [by rewrite E, lookup_insert_eq|]. by rewrite lookup_insert_ne by congruence.
  - intros d (Hc & Hn & Hw). cbn in *. unfold d_doing. by rewrite Hc, bool_decide_true, Hn by done.
Qed.

(** Two requests, a write and a read of the same block. *)
Definition demo_ide : ide (D := disks) :=
  Ide {[1%nat := Dbuf B_DIRTY 0 7 (replicate 512 9) None; 2%nat := Dbuf 0 0 7 (replicate 512 0) None]} None (Disks ∅ ∅ None) false ∅.

Lemma demo_ide_ok : ide_ok demo_ide [].
Proof. split; [apply NoDup_nil_2|done|by intros [|i] b|by intros b x Hb%elem_of_nil|done|done]. Qed.

Lemma ide_queue_witness :
  exists s', iderw_start true demo_ide 1 = Ok (false, s') /\ ide_ok s' ([] ++ [1%nat]) /\
    (forall c y, bufs demo_ide !! c = Some y -> exists n, bufs s' !! c = Some (set_qnext n y)) /\
    forall a, media (hw s') a = sent (Dbuf B_DIRTY 0 7 (replicate 512 9) None) (media (hw demo_ide)) a.
Proof.
  apply (ide_queue demo_ide [] demo_ide_ok); [done|set_solver| |by left]. split; [done|]. split; [done|]. split; [by left|done].
Defined.

Example ide_reads_what_was_written :
  ('(_, s) ← iderw_start true demo_ide 1; '(_, s) ← iderw_start true s 2; s ← ideintr false s; s ← ideintr false s;
   x ← bget s 2; Ok (take 2 (bdata x), bflags x, idequeue s)) = Ok ([9; 9], 2, None).
Proof. vm_compute. reflexivity. Qed.

(** A read that fails is marked valid all the same, with the old bytes. *)
Lemma ide_error_valid :
  ('(_, s) ← iderw_start true demo_ide 2; s ← ideintr true s; x ← bget s 2; Ok (take 2 (bdata x), bflags x)) = Ok ([0; 0], 2).
Proof. vm_compute. reflexivity. Qed.
