(* ===== verification/Xv6Mkfs.v ===== *)
(** The program that makes the file system image of xv6
    (src/설계 3번/xv6/mkfs.c): definitions.

    The image is a file of the host that is only read and written in whole
    sectors of [BSIZE] bytes at multiples of [BSIZE], so it is the list of its
    sectors ([img]): a read past the end is short and the program gives up, a
    write past the end fills the gap with zeros.  The host's [write] does not
    fail.  A file to copy is what [open] and the calls of [read] return: nothing
    when it cannot be opened, otherwise the bytes of each call that returns any.

    The superblock is a global variable that [main] sets once, before its first
    use: the constant [sb0].  The host is little-endian. *)

From S2P Require Import Prelude Bytes Xv6Locks Xv6String Xv6Fs Xv6Bitmap Xv6Dir.

Module Mkfs.

(** [perror(...); exit(1)] *)
Definition die {A} : res A := Stuck Panicked.

Definition NINODES : Z := 200.
Definition FSSIZE : Z := 1000.
Definition LOGSIZE : Z := 10 * 3.

Definition nbitmap : Z := FSSIZE / (BSIZE * 8) + 1.
Definition ninodeblocks : Z := NINODES / IPB + 1.
Definition nlog : Z := LOGSIZE.
Definition nmeta : Z := 2 + nlog + ninodeblocks + nbitmap.
Definition nblocks : Z := FSSIZE - nmeta.

(** ** Byte order *)

Definition xshort (x : Z) : Z := getu16 [x mod 256; Z.shiftr x 8 mod 256].

Definition xint (x : Z) : Z :=
  getu32 [x mod 256; Z.shiftr x 8 mod 256; Z.shiftr x 16 mod 256; Z.shiftr x 24 mod 256].

Definition sb0 : superblock :=
  Superblock (xint FSSIZE) (xint nblocks) (xint NINODES) (xint nlog)
    (xint 2) (xint (2 + nlog)) (xint (2 + nlog + ninodeblocks)).

(** The bytes of the superblock. *)
Definition sb_bytes (v : superblock) : list Z :=
  mjoin (le32 <$> [sb_size v; sb_nblocks v; sb_ninodes v; sb_nlog v; sb_logstart v; sb_inodestart v; sb_bmapstart v]).

(** ** Sectors *)

Record mk := Mk { img : list (list Z); freeinode : Z; freeblock : Z }.

(** The position of [sec * BSIZE], an unsigned int, in sectors. *)
Definition sector (sec : Z) : nat := Z.to_nat (u32 (sec * BSIZE) / BSIZE).

Definition wsect (m : mk) (sec : Z) (buf : list Z) : mk :=
  let n := sector sec in
  let d := img m in
  Mk (take n (d ++ replicate (n - length d) zeros) ++ buf :: drop (S n) d) (freeinode m) (freeblock m).

Definition rsect (m : mk) (sec : Z) : res (list Z) :=
  match img m !! sector sec with Some d => Ok d | None => die end.

(** ** Inodes *)

Record dinode := Dinode {
  din_type : Z;
  din_major : Z;
  din_minor : Z;
  din_nlink : Z;
  din_size : Z;
  din_addrs : list Z
}.

Definition set_din_size (v : Z) (d : dinode) : dinode :=
  Dinode (din_type d) (din_major d) (din_minor d) (din_nlink d) v (din_addrs d).
Definition set_din_addrs (v : list Z) (d : dinode) : dinode :=
  Dinode (din_type d) (din_major d) (din_minor d) (din_nlink d) (din_size d) v.

(** The [struct inode] that the kernel fills from inode [n] on the disk, and
    back; both programs declare the same [struct dinode]. *)
Definition as_inode (n : Z) (d : dinode) : inode :=
  Inode ROOTDEV n 0 initsleeplock 1 (din_type d) (din_major d) (din_minor d) (din_nlink d) (din_size d) (din_addrs d).
Definition of_inode (i : inode) : dinode :=
  Dinode (itype i) (imajor i) (iminor i) (inlink i) (isize i) (addrs i).

Definition dzero : dinode := Dinode 0 0 0 0 0 (replicate 13 0).

Definition winode (m : mk) (inum' : Z) (ip : dinode) : res mk :=
  let bn := IBLOCK inum' sb0 in
  buf ← rsect m bn;
  buf ← buf_store buf (DINODE * (inum' mod IPB)) (dinode_bytes (as_inode inum' ip));
  Ok (wsect m bn buf).

Definition rinode (m : mk) (inum' : Z) : res dinode :=
  let bn := IBLOCK inum' sb0 in
  buf ← rsect m bn;
  i ← load_dinode buf (as_inode inum' dzero);
  Ok (of_inode i).

Definition ialloc (m : mk) (type : Z) : res (Z * mk) :=
  let inum' := freeinode m in
  let m := Mk (img m) (u32 (freeinode m + 1)) (freeblock m) in
  let din := Dinode (xshort type) 0 0 (xshort 1) (xint 0) (replicate 13 0) in
  m ← winode m inum' din;
  Ok (inum', m).

(** ** Blocks *)

(** [for(i = 0; i < used; i++)], with [k] values of [i] left. *)
Fixpoint mark_loop (k : nat) (i : Z) (buf : list Z) : res (list Z) :=
  match k with
  | O => Ok buf
  | S k' =>
      byte ← aget buf (i / 8);
      buf ← aset buf (i / 8) (Z.lor byte (Z.shiftl 1 (i mod 8)));
      mark_loop k' (i + 1) buf
  end.

Definition balloc (m : mk) (used : Z) : res mk :=
  _ ← c_assert (used <? BSIZE * 8);
  buf ← mark_loop (Z.to_nat used) 0 (replicate (Z.to_nat BSIZE) 0);
  Ok (wsect m (sb_bmapstart sb0) buf).

(** [freeblock++]: the block and the rest. *)
Definition take_block (m : mk) : Z * mk := (freeblock m, Mk (img m) (freeinode m) (u32 (freeblock m + 1))).

(** [if(xint(din.addrs[j]) == 0) din.addrs[j] = xint(freeblock++);] *)
Definition fill_addr (m : mk) (din : dinode) (j : Z) : res (mk * dinode) :=
  a ← aget (din_addrs din) j;
  if xint a =? 0 then
    let '(b, m) := take_block m in
    l ← aset (din_addrs din) j (xint b);
    Ok (m, set_din_addrs l din)
  else Ok (m, din).

(** Entry [j] of the indirect block [ind], filled when it is empty. *)
Definition find_indirect (m : mk) (ind j : Z) : res (Z * mk) :=
  indirect ← rsect m ind;
  w ← word indirect j;
  '(m, indirect) ← (if w =? 0 then
                      let '(b, m) := take_block m in
                      indirect ← set_word indirect j (xint b);
                      Ok (wsect m ind indirect, indirect)
                    else Ok (m, indirect));
  w ← word indirect j;
  Ok (xint w, m).

(** The two branches of the body of the loop of [iappend]: the block [x]. *)
Definition find_block (m : mk) (din : dinode) (fbn : Z) : res (Z * mk * dinode) :=
  if fbn <? NDIRECT then
    '(m, din) ← fill_addr m din fbn;
    a ← aget (din_addrs din) fbn;
    Ok (xint a, m, din)
  else
    '(m, din) ← fill_addr m din NDIRECT;
    a ← aget (din_addrs din) NDIRECT;
    '(x, m) ← find_indirect m (xint a) (fbn - NDIRECT);
    Ok (x, m, din).

(** [while(n > 0)]; [p] is what is left of the bytes. *)
Fixpoint append_loop (fuel : nat) (m : mk) (din : dinode) (p : list Z) (n off : Z) : res (mk * dinode * Z) :=
  match fuel with
  | O => Stuck OutOfFuel
  | S fuel' =>
      if n >? 0 then
        let fbn := off / BSIZE in
        _ ← c_assert (fbn <? MAXFILE);
        '(x, m, din) ← find_block m din fbn;
        let n1 := Z.min n (u32 ((fbn + 1) * BSIZE - off)) in
        buf ← rsect m x;
        bs ← buf_load p 0 n1;
        buf ← buf_store buf (off - fbn * BSIZE) bs;
        append_loop fuel' (wsect m x buf) din (drop (Z.to_nat n1) p) (n - n1) (u32 (off + n1))
      else Ok (m, din, off)
  end.

Definition iappend (m : mk) (inum' : Z) (p : list Z) (n : Z) : res mk :=
  din ← rinode m inum';
  '(m, din, off) ← append_loop (S (Z.to_nat n)) m din p n (xint (din_size din));
  winode m inum' (set_din_size (xint off) din).

(** ** main *)

(** A file named on the command line: the argument, a string in memory, and
    what [open] and [read] give. *)
Record hostfile := Hostfile { arg : list Z; reads : option (list (list Z)) }.

(** [index(s, c)]: is the character in the string? *)
Fixpoint index (s : list Z) (c : Z) : res bool :=
  match s with
  | [] => Stuck OutOfBounds
  | x :: s' => if x =? c then Ok true else if x =? 0 then Ok false else index s' c
  end.

(** [while((cc = read(fd, buf, sizeof(buf))) > 0) iappend(inum, buf, cc);] *)
Fixpoint copy_file (m : mk) (inum' : Z) (chunks : list (list Z)) : res mk :=
  match chunks with
  | [] => Ok m
  | buf :: rest => m ← iappend m inum' buf (Z.of_nat (length buf)); copy_file m inum' rest
  end.

Definition UNDERSCORE : Z := 95.

(** The body of the loop over the arguments. *)
Definition add_file (m : mk) (rootino : Z) (f : hostfile) : res mk :=
  slash ← index (arg f) SLASH;
  _ ← c_assert (negb slash);
  match reads f with
  | None => die
  | Some chunks =>
      c ← aget (arg f) 0;
      let name := if c =? UNDERSCORE then drop 1 (arg f) else arg f in
      '(inum', m) ← ialloc m T_FILE;
      nm ← Kernel.strncpy (replicate DIRSIZ 0) name DIRSIZ;
      m ← iappend m rootino (le16 (xshort inum') ++ nm) DIRENT;
      copy_file m inum' chunks
  end.

Fixpoint add_files (m : mk) (rootino : Z) (fs : list hostfile) : res mk :=
  match fs with
  | [] => Ok m
  | f :: fs' => m ← add_file m rootino f; add_files m rootino fs'
  end.

(** [for(i = 0; i < FSSIZE; i++) wsect(i, zeroes);] *)
Fixpoint zero_loop (k : nat) (i : Z) (m : mk) : mk :=
  match k with O => m | S k' => zero_loop k' (i + 1) (wsect m i zeros) end.

(** [bzero(&de, ...)], then [strcpy(de.name, s)]. *)
Definition dot_entry (inum' : Z) (s : list Z) : res (list Z) :=
  nm ← buf_store (replicate DIRSIZ 0) 0 s;
  Ok (le16 (xshort inum') ++ nm).

(** An empty image with its superblock, and the root directory with its two
    first entries. *)
Definition make_root : res (Z * mk) :=
  let m := zero_loop (Z.to_nat FSSIZE) 0 (Mk [] 1 nmeta) in
  buf ← buf_store (replicate (Z.to_nat BSIZE) 0) 0 (sb_bytes sb0);
  let m := wsect m 1 buf in
  '(rootino, m) ← ialloc m T_DIR;
  _ ← c_assert (rootino =? ROOTINO);
  de ← dot_entry rootino [46; 0];
  m ← iappend m rootino de DIRENT;
  de ← dot_entry rootino [46; 46; 0];
  m ← iappend m rootino de DIRENT;
  Ok (rootino, m).

(** [fix size of root inode dir] and the bit map. *)
Definition finish (m : mk) (rootino : Z) : res mk :=
  din ← rinode m rootino;
  let off := xint (din_size din) in
  let off := u32 ((off / BSIZE + 1) * BSIZE) in
  m ← winode m rootino (set_din_size (xint off) din);
  balloc m (freeblock m).

(** [main]: [opened] says whether the image could be created. *)
Definition main (argc : Z) (opened : bool) (files : list hostfile) : res mk :=
  if argc <? 2 then die
  else
    _ ← c_assert (BSIZE mod DINODE =? 0);
    _ ← c_assert (BSIZE mod DIRENT =? 0);
    if opened then
      '(rootino, m) ← make_root;
      m ← add_files m rootino files;
      finish m rootino
    else die.

End Mkfs.
