(* ===== verification/Xv6Mkimage.v ===== *)
(** The image of mkfs.c seen by the kernel.

    While the image is built its bit map is still empty: blocks are taken in
    order, [freeblock] being the next.  [kern m] is the disk the kernel would
    see if the bit map were written now.  On it, taking the next block is
    [balloc] of the kernel, and appending to an inode is [writei] at its end, so
    the theorems about [writei] describe what the program builds. *)

From S2P Require Import Prelude Bytes Xv6Locks Xv6String Xv6Fs Xv6Bitmap Xv6Inode Xv6Dinode Xv6Content Xv6Dir Xv6Mkfs.
Import Mkfs.

(** ** Layout *)

(** The superblock with its fields computed. *)
Lemma sb0_eq : sb0 = Superblock 1000 941 200 30 2 32 58.
Proof. reflexivity. Qed.

Lemma nmeta_eq : nmeta = 59.
Proof. reflexivity. Qed.

Lemma xint_id x : 0 <= x < 2 ^ 32 -> xint x = x.
Proof.
  intros Hx. unfold xint, getu32. rewrite !Z.shiftr_div_pow2 by lia.
  change (2 ^ 8) with 256. change (2 ^ 16) with 65536. change (2 ^ 24) with 16777216.
  rewrite le32_mod. by apply Z.mod_small.
Qed.

Lemma xshort_id x : 0 <= x < 65536 -> xshort x = x.
Proof.
  intros Hx. unfold xshort, getu16. rewrite Z.shiftr_div_pow2 by lia. change (2 ^ 8) with 256.
  Z.div_mod_to_equations. lia.
Qed.

Lemma sector_id x : 0 <= x < 8388608 -> sector x = Z.to_nat x.
Proof.
  intros Hx. unfold sector, u32, BSIZE. rewrite Z.mod_small by lia. by rewrite Z.div_mul.
Qed.

(** Sectors inside the image. *)
Lemma wsect_in m x buf :
  0 <= x < 8388608 -> (Z.to_nat x < length (img m))%nat ->
  wsect m x buf = Mk (<[Z.to_nat x := buf]> (img m)) (freeinode m) (freeblock m).
Proof.
  intros Hx Hl. unfold wsect. rewrite sector_id by done. f_equal.
  replace (Z.to_nat x - length (img m))%nat with 0%nat by lia. cbn [replicate]. rewrite app_nil_r.
  by rewrite insert_take_drop.
Qed.

Lemma rsect_in m x d : 0 <= x < 8388608 -> img m !! Z.to_nat x = Some d -> rsect m x = Ok d.
Proof. intros Hx Hd. unfold rsect. by rewrite sector_id, Hd. Qed.

(** ** The bit map *)

(** The bit map after the first [k] blocks were marked. *)
Definition marked (k : nat) : list Z :=
  match mark_loop k 0 (replicate (Z.to_nat BSIZE) 0) with Ok b => b | Stuck _ => [] end.

Definition mark1 (buf : list Z) (i : Z) : res (list Z) :=
  byte ← aget buf (i / 8); aset buf (i / 8) (Z.lor byte (Z.shiftl 1 (i mod 8))).

Lemma mark_loop_S k i buf :
  mark_loop (S k) i buf =
    byte ← aget buf (i / 8); buf ← aset buf (i / 8) (Z.lor byte (Z.shiftl 1 (i mod 8))); mark_loop k (i + 1) buf.
Proof. reflexivity. Qed.

Lemma mark_loop_snoc k : forall i buf,
  mark_loop (S k) i buf = b ← mark_loop k i buf; mark1 b (i + Z.of_nat k).
Proof.
  induction k as [|k IH]; intros i buf.
  - cbn [mark_loop]. run. rewrite Z.add_0_r. unfold mark1. destruct (aget buf (i / 8)) as [x|]; [|done].
    run. by destruct (aset _ _ _).
  - rewrite (mark_loop_S (S k)), (mark_loop_S k i buf). destruct (aget buf (i / 8)) as [x|]; [|done]. run.
    destruct (aset _ _ _) as [b|]; [|done]. run. rewrite IH.
    by replace (i + 1 + Z.of_nat k) with (i + Z.of_nat (S k)) by lia.
Qed.

Lemma marked_spec k :
  Z.of_nat k <= BPB ->
  mark_loop k 0 (replicate (Z.to_nat BSIZE) 0) = Ok (marked k) /\ length (marked k) = Z.to_nat BSIZE /\
  forall y, 0 <= y < BPB -> bit_in (marked k) y = bool_decide (y < Z.of_nat k).
Proof.
  induction k as [|k IH]; intros Hk.
  { split; [done|]. split; [by apply length_replicate|]. intros y Hy. rewrite bool_decide_eq_false_2 by lia.
    unfold bit_in, marked. cbn [mark_loop]. destruct (replicate (Z.to_nat BSIZE) 0 !! _) as [z|] eqn:E; [|apply Z.bits_0].
    apply lookup_replicate in E as [-> _]. apply Z.bits_0. }
  destruct (IH ltac:(lia)) as (E & Hl & Hb). set (i := Z.of_nat k) in *.
  assert (Hin : (Z.to_nat (i / 8) < length (marked k))%nat).
  { rewrite Hl. unfold BPB, BSIZE in *. Z.div_mod_to_equations. lia. }
  pose proof Hin as Hin'. apply lookup_lt_is_Some in Hin' as [byte Hbyte].
  assert (Hi8 : 0 <= i / 8) by (apply Z.div_pos; lia).
  assert (Eloop : mark_loop (S k) 0 (replicate (Z.to_nat BSIZE) 0) =
    Ok (<[Z.to_nat (i / 8) := Z.lor byte (Z.shiftl 1 (i mod 8))]> (marked k))).
  { rewrite mark_loop_snoc, E. run. rewrite Z.add_0_l. fold i. unfold mark1.
    rewrite (proj2 (aget_Ok _ _ byte)) by done. run. by rewrite aset_Ok by lia. }
  unfold marked at 1 2 3. rewrite Eloop. split; [done|]. split; [by rewrite length_insert|].
  intros y Hy. rewrite (mark_bit _ i byte) by (done || lia). case_decide as Ey.
  - by rewrite bool_decide_eq_true_2 by lia.
  - rewrite Hb by done. apply bool_decide_ext. lia.
Qed.

(** The next bit is marked as [balloc] of the kernel marks it. *)
Lemma marked_next k byte :
  Z.of_nat k < BPB -> marked k !! Z.to_nat (Z.of_nat k / 8) = Some byte ->
  <[Z.to_nat (Z.of_nat k / 8) := Z.lor byte (Z.shiftl 1 (Z.of_nat k mod 8))]> (marked k) = marked (S k).
Proof.
  intros Hk Hbyte. destruct (marked_spec k ltac:(lia)) as (E & _). unfold marked at 2.
  rewrite mark_loop_snoc, E. run. rewrite Z.add_0_l. unfold mark1.
  assert (0 <= Z.of_nat k / 8) by (apply Z.div_pos; lia). pose proof (lookup_lt_Some _ _ _ Hbyte).
  rewrite (proj2 (aget_Ok _ _ byte)) by done. run. by rewrite aset_Ok by lia.
Qed.

(** ** The disk of the kernel *)

(** [s] is the image with the bit map of the blocks taken so far. *)
Definition sees (s : bstate) (m : mk) : Prop :=
  blocks s = <[58%nat := marked (Z.to_nat (freeblock m))]> (img m) /\ sb s = sb0.

Definition kern (m : mk) : bstate :=
  Bstate (<[58%nat := marked (Z.to_nat (freeblock m))]> (img m)) sb0 [] [].

(** The blocks that were not taken are zero. *)
Record image_ok (m : mk) : Prop := ImageOk {
  im_len : length (img m) = 1000%nat;
  im_block : 59 <= freeblock m <= 1000;
  im_zero : forall x, freeblock m <= x < 1000 -> img m !! Z.to_nat x = Some zeros
}.

Lemma kern_sees m : sees (kern m) m.
Proof. done. Qed.

Lemma BPB_eq : BPB = 4096.
Proof. done. Qed.

Lemma filter_all (P : Z -> Prop) `{forall x, Decision (P x)} (l : list Z) :
  (forall x, x ∈ l -> P x) -> filter P l = l.
Proof.
  intros Hl. induction l as [|x l IH]; [done|]. rewrite filter_cons_True by (apply Hl; left). f_equal.
  apply IH. intros y Hy. apply Hl. by right.
Qed.

Lemma filter_none (P : Z -> Prop) `{forall x, Decision (P x)} (l : list Z) :
  (forall x, x ∈ l -> ~ P x) -> filter P l = [].
Proof.
  intros Hl. induction l as [|x l IH]; [done|]. rewrite filter_cons_False by (apply Hl; left).
  apply IH. intros y Hy. apply Hl. by right.
Qed.

Section sees.
Context (s : bstate) (m : mk) (Hs : sees s m) (Hm : image_ok m).

Lemma used_sees b : 0 <= b < 1000 -> used s b = bool_decide (b < freeblock m).
Proof.
  intros Hb. destruct Hs as [Hbl Hsb]. pose proof (im_len _ Hm). pose proof (im_block _ Hm). unfold used, BBLOCK.
  rewrite Hsb, sb0_eq. cbn [sb_bmapstart]. rewrite Z.div_small, Z.mod_small by (rewrite BPB_eq; lia).
  change (Z.to_nat (0 + 58)) with 58%nat.
  rewrite Hbl, list_lookup_insert_eq by lia. cbn [default].
  destruct (marked_spec (Z.to_nat (freeblock m))) as (_ & _ & ->); try (rewrite BPB_eq; lia).
  apply bool_decide_ext. lia.
Qed.

Lemma nfree_sees : Z.of_nat (nfree s) = 1000 - freeblock m.
Proof.
  pose proof (im_block _ Hm). unfold nfree. destruct Hs as [_ Hsb]. rewrite Hsb, sb0_eq. cbn [sb_size].
  replace 1000 with (freeblock m + (1000 - freeblock m)) at 1 by lia. rewrite seqZ_app, filter_app, length_app by lia.
  rewrite filter_none, filter_all, length_seqZ; [cbn [length]; lia| |]; intros x Hx%elem_of_seqZ;
    rewrite used_sees by lia.
  - by rewrite bool_decide_eq_false_2 by lia.
  - by rewrite bool_decide_eq_true_2 by lia.
Qed.

Lemma lookup_sees x : 0 <= x -> x <> 58 -> blocks s !! Z.to_nat x = img m !! Z.to_nat x.
Proof. intros Hx Hne. destruct Hs as [-> _]. apply list_lookup_insert_ne. lia. Qed.

Lemma rsect_sees x : fs_ok s -> 0 <= x < 1000 -> x <> 58 -> rsect m x = Ok (block s x).
Proof.
  intros Hf Hx Hne. destruct (block_lookup s x Hf) as [Hb _].
  { destruct Hs as [_ ->]. rewrite sb0_eq. cbn. lia. }
  apply rsect_in; [lia|]. by rewrite <- lookup_sees by lia.
Qed.

Lemma wsect_sees x d : 0 <= x < 1000 -> x <> 58 -> sees (stored s x d) (wsect m x d).
Proof.
  intros Hx Hne. pose proof (im_len _ Hm). rewrite wsect_in by lia. destruct Hs as [Hb Hsb]. split; [|done].
  cbn [stored blocks img freeblock]. rewrite Hb. by rewrite list_insert_insert_ne by lia.
Qed.

Lemma wsect_image x d : 0 <= x < freeblock m -> image_ok (wsect m x d).
Proof.
  intros Hx. destruct Hm as [Hl Hb Hz]. rewrite wsect_in by lia. constructor; cbn [img freeblock]; try done.
  - by rewrite length_insert.
  - intros y Hy. rewrite list_lookup_insert_ne by lia. by apply Hz.
Qed.

Lemma data_start_sees : data_start (sb s) = 59 /\ sb_size (sb s) = 1000.
Proof. destruct Hs as [_ ->]. done. Qed.

Lemma data_block_sees x : data_block s x <-> 59 <= x < freeblock m.
Proof.
  unfold data_block. destruct data_start_sees as [-> ->]. pose proof (im_block _ Hm). split.
  - intros [Hx Hu]. rewrite used_sees in Hu by lia. apply bool_decide_eq_true in Hu. lia.
  - intros Hx. split; [lia|]. rewrite used_sees by lia. apply bool_decide_eq_true. lia.
Qed.

End sees.

(** [balloc] of the kernel on a disk whose used blocks are the first ones. *)
Lemma balloc_first s m :
  sees s m -> image_ok m -> fs_ok s -> held_ok s -> freeblock m < 1000 ->
  exists byte, marked (Z.to_nat (freeblock m)) !! Z.to_nat (freeblock m / 8) = Some byte /\
    Xv6Fs.balloc s = Ok (freeblock m, stored (stored s 58
      (<[Z.to_nat (freeblock m / 8) := Z.lor byte (Z.shiftl 1 (freeblock m mod 8))]> (marked (Z.to_nat (freeblock m)))))
      (freeblock m) zeros).
Proof.
  intros Hs Hm Hf Hh Hlt. pose proof Hm as [Hl Hb Hz]. pose proof Hs as [Hbl Hsb].
  set (fb := freeblock m) in *. destruct (marked_spec (Z.to_nat fb)) as (_ & Hml & Hbits); [rewrite BPB_eq; lia|].
  assert (Hin : (Z.to_nat (fb / 8) < length (marked (Z.to_nat fb)))%nat).
  { rewrite Hml. unfold BSIZE. Z.div_mod_to_equations. lia. }
  apply lookup_lt_is_Some in Hin as [byte Hbyte]. exists byte. split; [done|].
  assert (Esz : sb_size (sb s) = 1000) by (by rewrite Hsb). assert (Ebb : BBLOCK 0 (sb s) = 58) by (by rewrite Hsb).
  assert (H58 : blocks s !! 58%nat = Some (marked (Z.to_nat fb))) by (rewrite Hbl; apply list_lookup_insert_eq; lia).
  assert (Hnh : 58 ∉ held s).
  { intros Hin. destruct (Hh _ Hin) as [Hd _]. destruct (data_start_sees s m Hs) as [E _]. lia. }
  unfold Xv6Fs.balloc. cbn [balloc_loop]. rewrite Esz. change (0 <? 1000) with true. cbn iota. rewrite Ebb.
  rewrite (get_buf_Ok s 58 _ Hnh ltac:(lia) H58). run. cbn [hold sb]. rewrite Esz.
  destruct (find_bit_spec (marked (Z.to_nat fb)) (Z.to_nat (Z.min BPB (1000 - 0))) 0) as (r & -> & Hr);
    [done|lia|rewrite BPB_eq; lia|]. run.
  assert (r = Some fb) as ->.
  { destruct r as [x|].
    - destruct Hr as (Hx & Hc & Hbefore). rewrite BPB_eq in Hx. rewrite Hbits in Hc by (rewrite BPB_eq; lia).
      apply bool_decide_eq_false in Hc. f_equal. destruct (decide (x = fb)) as [?|Hne]; [done|].
      specialize (Hbefore fb ltac:(lia)). rewrite Hbits in Hbefore by (rewrite BPB_eq; lia).
      apply bool_decide_eq_true in Hbefore. lia.
    - specialize (Hr fb ltac:(rewrite BPB_eq; lia)). rewrite Hbits in Hr by (rewrite BPB_eq; lia).
      apply bool_decide_eq_true in Hr. lia. }
  pose proof (lookup_lt_Some _ _ _ Hbyte). assert (0 <= fb / 8) by (apply Z.div_pos; lia).
  rewrite (proj2 (aget_Ok _ _ byte)) by done. run. rewrite aset_Ok by lia. run.
  rewrite put_buf_stored by done. rewrite Z.add_0_l. set (d := <[_ := _]> _).
  assert (Hnf : fb ∉ held s).
  { apply free_not_held; [done|]. rewrite (used_sees s m) by (done || lia). apply bool_decide_eq_false_2; lia. }
  unfold bzero. rewrite (get_buf_Ok (stored s 58 d) fb zeros); [|done|lia|].
  - run. by rewrite put_buf_stored.
  - cbn [stored blocks]. rewrite Hbl, !list_lookup_insert_ne by lia. by apply Hz.
Qed.

(** Taking the next block is [balloc] of the kernel. *)
Lemma take_sees s m :
  sees s m -> image_ok m -> fs_ok s -> held_ok s -> freeblock m < 1000 ->
  exists s', Xv6Fs.balloc s = Ok (freeblock m, s') /\ allocated s (freeblock m) s' /\
    sees s' (snd (take_block m)) /\ image_ok (snd (take_block m)).
Proof.
  intros Hs Hm Hf Hh Hlt. pose proof Hm as [Hl Hb Hz]. pose proof Hs as [Hbl Hsb].
  destruct (balloc_first s m Hs Hm Hf Hh Hlt) as (byte & Hbyte & E).
  eexists; split; [exact E|]. split.
  - destruct (balloc_spec s Hf Hh) as (b & s' & Eb & Ha & _); [|congruence].
    exists (freeblock m). unfold free_block. destruct (data_start_sees s m Hs) as [_ ->]. split; [lia|].
    rewrite (used_sees s m) by (done || lia). apply bool_decide_eq_false_2; lia.
  - assert (Eu : u32 (freeblock m + 1) = freeblock m + 1) by (apply Z.mod_small; lia).
    pose proof (marked_next (Z.to_nat (freeblock m)) byte) as En. rewrite Z2Nat.id in En by lia.
    rewrite En by (done || rewrite BPB_eq; lia). split.
    + split; [|done]. cbn [take_block snd stored blocks img freeblock]. change (Z.to_nat 58) with 58%nat.
      rewrite Eu, Hbl, list_insert_insert_eq. replace (Z.to_nat (freeblock m + 1)) with (S (Z.to_nat (freeblock m))) by lia.
      apply list_insert_id. rewrite list_lookup_insert_ne by lia. apply Hz. lia.
    + constructor; cbn [take_block snd img freeblock]; [done|lia|]. intros x Hx. apply Hz. lia.
Qed.

(** ** Finding a block of a file *)

Lemma fill_addr_Ok m din j a :
  0 <= j -> din_addrs din !! Z.to_nat j = Some a -> 0 <= a < 2 ^ 32 -> 0 <= freeblock m < 2 ^ 32 ->
  fill_addr m din j =
    if a =? 0 then
      Ok (snd (take_block m), set_din_addrs (<[Z.to_nat j := freeblock m]> (din_addrs din)) din)
    else Ok (m, din).
Proof.
  intros Hj Ha Hu Hb. pose proof (lookup_lt_Some _ _ _ Ha). unfold fill_addr.
  rewrite (proj2 (aget_Ok _ _ a)) by done. run. rewrite xint_id by done. destruct (a =? 0); [|done].
  cbn [take_block snd]. rewrite xint_id by done. by rewrite aset_Ok by lia.
Qed.

(** What one step of the program and of the kernel have in common: the image
    stays what the kernel sees, and [c] blocks were taken. *)
Record steps (m : mk) (c : nat) (m' : mk) (s' : bstate) : Prop := Steps {
  st_sees : sees s' m';
  st_image : image_ok m';
  st_block : freeblock m' = freeblock m + Z.of_nat c;
  st_inode : freeinode m' = freeinode m
}.

Lemma take_steps s m :
  sees s m -> image_ok m -> fs_ok s -> held_ok s -> freeblock m < 1000 ->
  exists s', Xv6Fs.balloc s = Ok (freeblock m, s') /\ allocated s (freeblock m) s' /\
    steps m 1 (snd (take_block m)) s'.
Proof.
  intros Hs Hm Hf Hh Hlt. destruct (take_sees s m Hs Hm Hf Hh Hlt) as (s' & E & Ha & Hs' & Hm').
  exists s'. split; [done|]. split; [done|]. constructor; try done.
  cbn [take_block snd freeblock]. pose proof (im_block _ Hm). unfold u32. rewrite Z.mod_small by lia. lia.
Qed.

(** Storing a data block. *)
Lemma wsect_steps m c m' s' x d :
  steps m c m' s' -> 0 <= x < freeblock m' -> x <> 58 -> steps m c (wsect m' x d) (stored s' x d).
Proof.
  intros [Hs Hm Hb Hi] Hx Hne. pose proof (im_block _ Hm). pose proof (im_len _ Hm). constructor.
  - apply wsect_sees; [done|done|lia|done].
  - by apply wsect_image.
  - rewrite wsect_in by lia. done.
  - rewrite wsect_in by lia. done.
Qed.

Lemma find_indirect_sees s m i k :
  sees s m -> image_ok m -> fs_ok s -> inode_ok s i -> held s = [] -> ind_of i <> 0 -> NDIRECT <= k < MAXFILE ->
  addr_of s i k <> 0 \/ freeblock m < 1000 ->
  exists a s' m', bmap_indirect s i (k - NDIRECT) = Ok (a, i, s') /\
    find_indirect m (ind_of i) (k - NDIRECT) = Ok (a, m') /\
    steps m (if decide (addr_of s i k = 0) then 1%nat else 0%nat) m' s'.
Proof.
  intros Hs Hm Hf Hi Hh Hi0 Hk Hfree. pose proof (i_ind _ _ Hi Hi0) as Hind.
  pose proof (proj1 (data_block_sees s m Hs Hm _) Hind) as Hir. pose proof (im_block _ Hm) as Hfb.
  destruct (data_block_buf s _ Hf Hind) as (_ & Hl & Hlen).
  assert (Hnh : ind_of i ∉ held s) by (rewrite Hh; apply not_elem_of_nil).
  assert (Hj : 0 <= k - NDIRECT < NINDIRECT) by (unfold MAXFILE in Hk; lia).
  assert (Haddr : addr_of s i k = uword (block s (ind_of i)) (k - NDIRECT)).
  { rewrite addr_indirect by lia. by rewrite (proj2 (Z.eqb_neq _ _)). }
  unfold bmap_indirect, find_indirect. rewrite (rsect_sees s m) by (done || lia).
  rewrite (get_buf_Ok s _ _ Hnh ltac:(lia) Hl). run. rewrite (word_Ok _ _ Hlen Hj). run. rewrite <- Haddr.
  destruct (Z.eqb_spec (addr_of s i k) 0) as [E|E].
  - rewrite decide_True by done. destruct Hfree as [?|Hfree]; [done|].
    assert (Hh0 : held_ok (hold (ind_of i) s)).
    { intros n Hn. cbn [hold held] in Hn. rewrite Hh in Hn. apply list_elem_of_singleton in Hn as ->.
      destruct Hind as [Hir1 Hiu]. split; [apply Hir1|exact Hiu]. }
    destruct (take_steps (hold (ind_of i) s) m Hs Hm (fs_ok_hold _ _ Hf) Hh0 Hfree) as (s1 & -> & _ & Hst). run.
    cbn [take_block]. rewrite xint_id by lia.
    destruct (set_word_Ok (block s (ind_of i)) (k - NDIRECT) (freeblock m) Hlen Hj) as (data' & -> & Hl' & Hw); [lia|].
    run. rewrite (word_Ok _ _ Hl' Hj). run. rewrite Hw, decide_True, xint_id by (done || lia).
    eexists _, _, _. split; [done|]. split; [done|].
    pose proof (wsect_steps _ _ _ _ (ind_of i) data' Hst) as Hst'.
    rewrite (st_block _ _ _ _ Hst) in Hst'. destruct (Hst' ltac:(lia) ltac:(lia)). by constructor.
  - rewrite decide_False by done. run. rewrite (word_Ok _ _ Hlen Hj), <- Haddr. run.
    assert (Hku : in_file k) by (unfold in_file; unfold NDIRECT in Hk; lia).
    pose proof (proj1 (data_block_sees s m Hs Hm _) (i_addr _ _ Hi k Hku E)).
    rewrite xint_id, put_buf_hold by (done || lia). eexists _, _, _. split; [done|]. split; [done|].
    by constructor; [..|lia|].
Qed.

Lemma steps_refl s m : sees s m -> image_ok m -> steps m 0 m s.
Proof. intros. by constructor; [..|lia|]. Qed.

Lemma steps_trans m c m1 s1 c' m' s' : steps m c m1 s1 -> steps m1 c' m' s' -> steps m (c + c') m' s'.
Proof. intros [_ _ Hb Hi] [Hs' Hm' Hb' Hi']. constructor; try done; [lia|congruence]. Qed.

(** The direct blocks. *)
Lemma find_direct_sees s m n din k :
  let i := as_inode n din in
  sees s m -> image_ok m -> fs_ok s -> inode_ok s i -> held s = [] -> 0 <= k < NDIRECT ->
  addr_of s i k <> 0 \/ freeblock m < 1000 ->
  exists a m' din' s', bmap s i k = Ok (a, as_inode n din', s') /\ find_block m din k = Ok (a, m', din') /\
    steps m (if decide (addr_of s i k = 0) then 1%nat else 0%nat) m' s'.
Proof.
  intros i Hs Hm Hf Hi Hh Hk Hfree. pose proof (i_len _ _ Hi) as Hlen. pose proof (im_block _ Hm).
  assert (HN : NDIRECT = 12) by done. cbn [i as_inode addrs] in Hlen.
  destruct (lookup_lt_is_Some_2 (din_addrs din) (Z.to_nat k)) as [z Hz]; [lia|].
  assert (Hza : addr_of s i k = z) by (rewrite addr_direct by lia; unfold i; cbn [as_inode addrs]; by rewrite Hz).
  pose proof (proj1 (Forall_lookup _ _) (addrs_u32 s i Hf Hi) _ _ Hz) as Hzu.
  unfold bmap, find_block. rewrite (proj2 (Z.ltb_lt _ _)) by lia.
  rewrite (fill_addr_Ok m din k z) by (done || lia).
  change (addrs i) with (din_addrs din). rewrite (proj2 (aget_Ok _ _ z)) by (split; [lia|done]). run.
  rewrite Hza in *. destruct (Z.eqb_spec z 0) as [E|E].
  - rewrite decide_True by done. destruct Hfree as [?|Hfree]; [done|].
    destruct (take_steps s m Hs Hm Hf (held_ok_nil s Hh) Hfree) as (s' & -> & _ & Hst). run.
    rewrite aset_Ok by lia. run. eexists _, _, (set_din_addrs _ din), _. split; [done|]. split; [|exact Hst].
    cbn [set_din_addrs din_addrs]. rewrite (proj2 (aget_Ok _ _ (freeblock m))).
    + run. by rewrite xint_id by lia.
    + split; [lia|]. apply list_lookup_insert_eq. lia.
  - rewrite decide_False by done. run. rewrite (proj2 (aget_Ok _ _ z)) by (split; [lia|done]). run.
    rewrite xint_id by done. exists z, m, din, s. split; [done|]. split; [done|]. by apply steps_refl.
Qed.

Lemma find_block_sees s m n din k :
  let i := as_inode n din in
  sees s m -> image_ok m -> fs_ok s -> inode_ok s i -> held s = [] -> in_file k ->
  freeblock m + Z.of_nat (bmap_need s i k) <= 1000 ->
  exists a m' din' s', bmap s i k = Ok (a, as_inode n din', s') /\ find_block m din k = Ok (a, m', din') /\
    steps m (bmap_need s i k) m' s' /\ mapped s i k a s' (as_inode n din').
Proof.
  intros i Hs Hm Hf Hi Hh Hk Hneed. pose proof (i_len _ _ Hi) as Hlen. pose proof (im_block _ Hm) as Hfb.
  pose proof (nfree_sees s m Hs Hm) as Hnf. unfold in_file in Hk.
  destruct (bmap_spec s i k Hf Hi Hh Hk ltac:(lia)) as (a0 & i0 & s0 & E0 & Hmap).
  enough (exists a m' din' s', bmap s i k = Ok (a, as_inode n din', s') /\ find_block m din k = Ok (a, m', din') /\
    steps m (bmap_need s i k) m' s') as (a & m' & din' & s' & Eb & Ef & Hst).
  { exists a, m', din', s'. split; [done|]. split; [done|]. split; [done|]. rewrite Eb in E0. by injection E0 as <- <- <-. }
  clear E0 Hmap. destruct (Z.ltb_spec k NDIRECT) as [Hd|Hd].
  { assert (En : bmap_need s i k = if decide (addr_of s i k = 0) then 1%nat else 0%nat).
    { unfold bmap_need. case_decide; [|done]. by rewrite decide_False by lia. }
    rewrite En in *. apply find_direct_sees; try done; [lia|]. case_decide; [right; lia|by left]. }
  assert (Hi12 : din_addrs din !! 12%nat = Some (ind_of i)).
  { cbn [i as_inode addrs] in Hlen. destruct (lookup_lt_is_Some_2 (din_addrs din) 12) as [z Hz]; [lia|].
    unfold ind_of. cbn [i as_inode addrs]. by rewrite Hz. }
  pose proof (proj1 (Forall_lookup _ _) (addrs_u32 s i Hf Hi) _ _ Hi12) as Hiu.
  unfold bmap, find_block. rewrite (proj2 (Z.ltb_ge _ _)) by lia.
  rewrite (proj2 (Z.ltb_lt _ _)) by (unfold MAXFILE in Hk; lia).
  rewrite (fill_addr_Ok m din NDIRECT (ind_of i)) by (done || lia).
  change (addrs i) with (din_addrs din). rewrite (proj2 (aget_Ok _ NDIRECT (ind_of i))) by done. run.
  unfold bmap_need in *. destruct (Z.eqb_spec (ind_of i) 0) as [E|E].
  - assert (Ha0 : addr_of s i k = 0) by (rewrite addr_indirect by lia; by rewrite E).
    rewrite decide_True, decide_True in Hneed |- * by done.
    destruct (take_steps s m Hs Hm Hf (held_ok_nil s Hh) ltac:(lia)) as (s1 & -> & Hal & Hst). run.
    cbn [i as_inode addrs] in Hlen. rewrite aset_Ok by (rewrite Hlen; unfold NDIRECT; lia). run.
    change (Z.to_nat NDIRECT) with 12%nat.
    destruct (new_indirect s i _ s1 Hf Hi Hh E Hal) as (_ & Hi1 & Hh1 & Hind1 & Hsame).
    set (din1 := set_din_addrs _ din).
    change (set_addrs (<[12%nat := freeblock m]> (addrs i)) i) with (as_inode n din1) in *.
    cbn [din1 set_din_addrs din_addrs]. rewrite (proj2 (aget_Ok _ NDIRECT (freeblock m))).
    2: { split; [done|]. apply list_lookup_insert_eq. lia. }
    run. rewrite xint_id by lia. change (set_addrs (<[12%nat := freeblock m]> (din_addrs din)) i) with (as_inode n din1).
    destruct (find_indirect_sees s1 _ (as_inode n din1) k (st_sees _ _ _ _ Hst) (st_image _ _ _ _ Hst)
      (a_ok _ _ _ Hal) Hi1 Hh1) as (a & s2 & m2 & Eb & Ef & Hst2).
    + rewrite Hind1. lia.
    + lia.
    + right. rewrite (st_block _ _ _ _ Hst). lia.
    + unfold bmap_indirect in Eb. rewrite Hind1 in Eb, Ef. rewrite Eb, Ef. run. eexists _, _, _, _. split; [done|]. split; [done|].
      rewrite Hsame, decide_True in Hst2 by done. exact (steps_trans _ _ _ _ _ _ _ Hst Hst2).
  - run. rewrite (proj2 (aget_Ok _ NDIRECT (ind_of i))) by done. run. rewrite xint_id by done.
    destruct (find_indirect_sees s m i k Hs Hm Hf Hi Hh E ltac:(lia)) as (a & s2 & m2 & Eb & Ef & Hst2).
    { destruct (decide (addr_of s i k = 0)); [right|by left]. rewrite decide_False in Hneed by tauto. lia. }
    unfold bmap_indirect in Eb. rewrite Eb, Ef. run. eexists _, _, din, _. split; [done|]. split; [done|].
    case_decide as Ea; [rewrite decide_False by tauto|]; exact Hst2.
Qed.

(** ** Appending *)

(** The disk blocks of a file of [len] bytes, the indirect block included. *)
Definition nblk (len : Z) : Z := (len + BSIZE - 1) / BSIZE + (if NDIRECT * BSIZE <? len then 1 else 0).

(** Exactly the blocks below [off] are there. *)
Record tight (s : bstate) (i : inode) (off : Z) : Prop := Tight {
  t_addr : forall k, in_file k -> addr_of s i k = 0 <-> off <= k * BSIZE;
  t_ind : ind_of i = 0 <-> off <= NDIRECT * BSIZE
}.

Lemma nblk_step s i off m :
  tight s i off -> 0 <= off -> off + m <= MAXFILE * BSIZE -> 0 < m -> off mod BSIZE + m <= BSIZE ->
  Z.of_nat (bmap_need s i (off / BSIZE)) = nblk (off + m) - nblk off.
Proof.
  intros [Ha Hi] Ho Hmax Hm Hfit. assert (Hk : in_file (off / BSIZE)) by (apply block_of_file; lia).
  unfold bmap_need, nblk. specialize (Ha _ Hk). unfold NDIRECT, BSIZE in *.
  destruct (decide (addr_of s i (off / 512) = 0)) as [E|E].
  - rewrite Ha in E. destruct (decide (12 <= off / 512 /\ ind_of i = 0)) as [[E1 E2]|E2].
    + rewrite Hi in E2. rewrite (proj2 (Z.ltb_lt _ _)), (proj2 (Z.ltb_ge _ _)); Z.div_mod_to_equations; lia.
    + rewrite Hi in E2. destruct (Z.ltb_spec (12 * 512) (off + m)), (Z.ltb_spec (12 * 512) off);
        Z.div_mod_to_equations; lia.
  - rewrite Ha in E. destruct (Z.ltb_spec (12 * 512) (off + m)), (Z.ltb_spec (12 * 512) off);
      Z.div_mod_to_equations; lia.
Qed.

Lemma nblk_mono x y : 0 <= x <= y -> nblk x <= nblk y.
Proof.
  intros H. unfold nblk. assert ((x + BSIZE - 1) / BSIZE <= (y + BSIZE - 1) / BSIZE) by (apply Z.div_le_mono; unfold BSIZE; lia).
  destruct (Z.ltb_spec (NDIRECT * BSIZE) x), (Z.ltb_spec (NDIRECT * BSIZE) y); lia.
Qed.

Lemma tight_step s i off m a s' i' :
  tight s i off -> 0 <= off -> off + m <= MAXFILE * BSIZE -> 0 < m -> off mod BSIZE + m <= BSIZE ->
  mapped s i (off / BSIZE) a s' i' -> tight s' i' (off + m).
Proof.
  intros [Ha Hi] Ho Hmax Hm Hfit Hmap. assert (Hk : in_file (off / BSIZE)) by (apply block_of_file; lia).
  pose proof (m_addr _ _ _ _ _ _ Hmap) as Hadr. pose proof (m_some _ _ _ _ _ _ Hmap) as Hsome. constructor.
  - intros k Hkk. destruct (decide (k = off / BSIZE)) as [->|Hne].
    + rewrite <- Hadr. split; [done|]. unfold BSIZE in *. Z.div_mod_to_equations. lia.
    + rewrite (m_only _ _ _ _ _ _ Hmap) by done. rewrite Ha by done. unfold BSIZE in *. Z.div_mod_to_equations. lia.
  - destruct (decide (off / BSIZE < NDIRECT)) as [E|E].
    + rewrite (m_ind _ _ _ _ _ _ Hmap E), Hi. unfold BSIZE, NDIRECT in *. Z.div_mod_to_equations. lia.
    + rewrite Hadr, addr_indirect in Hsome by lia. destruct (Z.eqb_spec (ind_of i') 0) as [E'|E']; [done|].
      split; [done|]. unfold BSIZE, NDIRECT in *. Z.div_mod_to_equations. lia.
Qed.

Lemma min_block n off : 0 <= off < 2 ^ 31 -> 0 < n -> 
  Z.min n (u32 ((off / BSIZE + 1) * BSIZE - off)) = Z.min n (BSIZE - off mod BSIZE).
Proof.
  intros Ho Hn. unfold u32. rewrite Z.mod_small; unfold BSIZE; Z.div_mod_to_equations; lia.
Qed.

(** One iteration of the loop of [iappend] and one of the loop of [writei]. *)
Lemma append_step s m n din src tot off cnt :
  let i := as_inode n din in
  let n1 := Z.min (cnt - tot) (BSIZE - off mod BSIZE) in
  sees s m -> image_ok m -> fs_ok s -> inode_ok s i -> held s = [] -> tight s i off ->
  0 <= off -> 0 <= tot < cnt -> off + (cnt - tot) <= MAXFILE * BSIZE ->
  cnt <= Z.of_nat (length src) -> freeblock m + (nblk (off + n1) - nblk off) <= 1000 ->
  exists m' din' s',
    (forall fuel, write_loop (S fuel) s i src tot off cnt =
       write_loop fuel s' (as_inode n din') src (tot + n1) (off + n1) cnt) /\
    (forall fuel, append_loop (S fuel) m din (drop (Z.to_nat tot) src) (cnt - tot) off =
       append_loop fuel m' din' (drop (Z.to_nat (tot + n1)) src) (cnt - (tot + n1)) (off + n1)) /\
    steps m (Z.to_nat (nblk (off + n1) - nblk off)) m' s' /\
    wrote s i off (take (Z.to_nat n1) (drop (Z.to_nat tot) src)) s' (as_inode n din') /\
    tight s' (as_inode n din') (off + n1).
Proof.
  intros i n1 Hs Hm Hf Hi Hh Ht Ho Htot Hmax Hsrc Hroom.
  assert (HM : MAXFILE * BSIZE < 2 ^ 31) by done. pose proof (Z.mod_pos_bound off BSIZE BSIZE_pos) as Hmod.
  assert (Hk : in_file (off / BSIZE)) by (apply block_of_file; lia).
  assert (Hneed : Z.of_nat (bmap_need s i (off / BSIZE)) = nblk (off + n1) - nblk off) by (apply nblk_step; done || lia).
  destruct (find_block_sees s m n din (off / BSIZE) Hs Hm Hf Hi Hh Hk ltac:(unfold i in Hneed; lia))
    as (a & m1 & din1 & s1 & Eb & Ef & Hst & Hmap). fold i in Eb, Hst, Hmap.
  pose proof Hmap as [_ Hf1 Hi1 Hh1 Ha Ha0 _ _ _ _ _ _ _]. set (i1 := as_inode n din1) in *.
  assert (Hka : addr_of s1 i1 (off / BSIZE) <> 0) by congruence.
  pose proof (i_addr _ _ Hi1 _ Hk Hka) as Hdb. rewrite <- Ha in Hdb.
  destruct (data_block_buf s1 _ Hf1 Hdb) as (_ & Hl & Hlen).
  pose proof (proj1 (data_block_sees s1 m1 (st_sees _ _ _ _ Hst) (st_image _ _ _ _ Hst) a) Hdb) as Har.
  pose proof (im_block _ (st_image _ _ _ _ Hst)).
  set (bs := take (Z.to_nat n1) (drop (Z.to_nat tot) src)).
  assert (Hbs : Z.of_nat (length bs) = n1) by (unfold bs; rewrite length_take, length_drop; lia).
  set (d := splice (Z.to_nat (off mod BSIZE)) bs (block s1 a)).
  exists (wsect m1 a d), din1, (stored s1 a d). split; [|split; [|split; [|split]]].
  - intros fuel. cbn [write_loop]. rewrite (proj2 (Z.ltb_lt _ _)), Eb by lia. run.
    assert (Hnh : a ∉ held s1) by (rewrite Hh1; apply not_elem_of_nil).
    rewrite (get_buf_Ok s1 a _ Hnh ltac:(lia) Hl). run. fold n1. rewrite buf_load_Ok by lia. run. fold bs.
    rewrite buf_store_Ok by lia. run. by rewrite put_buf_stored by done.
  - intros fuel. cbn [append_loop]. rewrite Z.gtb_ltb, (proj2 (Z.ltb_lt _ _)) by lia.
    unfold c_assert. rewrite (proj2 (Z.ltb_lt _ _)) by apply Hk. run. rewrite Ef. run.
    rewrite (rsect_sees s1 m1) by (apply Hst || done || lia). run.
    rewrite min_block by lia. fold n1. rewrite buf_load_Ok by (rewrite ?length_drop; lia). run.
    change (Z.to_nat 0) with 0%nat. rewrite drop_0. fold bs.
    replace (off - off / BSIZE * BSIZE) with (off mod BSIZE) by (rewrite Z.mod_eq by done; lia).
    rewrite buf_store_Ok by lia. run. replace (u32 (off + n1)) with (off + n1) by (symmetry; apply Z.mod_small; lia).
    rewrite drop_drop. replace (Z.to_nat tot + Z.to_nat n1)%nat with (Z.to_nat (tot + n1)) by lia.
    by replace (cnt - tot - n1) with (cnt - (tot + n1)) by lia.
  - rewrite <- Hneed, Nat2Z.id. apply wsect_steps; [done|lia|lia].
  - apply write_chunk; [done|lia|intros E; rewrite E in Hbs; cbn [length] in Hbs; lia|lia|done].
  - destruct (tight_step s i off n1 a s1 i1 Ht Ho ltac:(lia) ltac:(lia) ltac:(lia) Hmap) as [T1 T2].
    constructor; [|done]. intros k Hkk. rewrite addr_of_stored; [by apply T1|done|done|done|].
    rewrite Ha. by apply (i_ind_other _ _ Hi1).
Qed.

(** The loop of [iappend] does what the loop of [writei] does. *)
Lemma append_loop_sees fuel : forall s m n din src tot off cnt,
  let i := as_inode n din in
  sees s m -> image_ok m -> fs_ok s -> inode_ok s i -> held s = [] -> tight s i off ->
  0 <= off -> 0 <= tot <= cnt -> cnt - tot < Z.of_nat fuel -> off + (cnt - tot) <= MAXFILE * BSIZE ->
  cnt <= Z.of_nat (length src) -> freeblock m + (nblk (off + (cnt - tot)) - nblk off) <= 1000 ->
  exists m' din' s', write_loop fuel s i src tot off cnt = Ok (off + (cnt - tot), as_inode n din', s') /\
    append_loop fuel m din (drop (Z.to_nat tot) src) (cnt - tot) off = Ok (m', din', off + (cnt - tot)) /\
    steps m (Z.to_nat (nblk (off + (cnt - tot)) - nblk off)) m' s' /\
    wrote s i off (take (Z.to_nat (cnt - tot)) (drop (Z.to_nat tot) src)) s' (as_inode n din') /\
    tight s' (as_inode n din') (off + (cnt - tot)).
Proof.
  induction fuel as [|fuel IH]; intros s m n din src tot off cnt i Hs Hm Hf Hi Hh Ht Ho Htot Hfuel Hmax Hsrc Hroom; [lia|].
  destruct (Z.ltb_spec tot cnt) as [Hlt|Hge].
  2: { exists m, din, s. cbn [write_loop append_loop]. rewrite (proj2 (Z.ltb_ge _ _)) by lia.
       replace (cnt - tot) with 0 in * by lia. rewrite Z.add_0_r in *.
       split; [done|]. split; [done|]. rewrite Z.sub_diag. split; [by apply steps_refl|].
       split; [by apply wrote_nil|done]. }
  pose proof (Z.mod_pos_bound off BSIZE BSIZE_pos) as Hmod.
  pose proof (append_step s m n din src tot off cnt Hs Hm Hf Hi Hh Ht Ho ltac:(lia) Hmax Hsrc) as Hstep.
  set (n1 := Z.min (cnt - tot) (BSIZE - off mod BSIZE)) in *.
  pose proof (nblk_mono (off + n1) (off + (cnt - tot)) ltac:(lia)) as Hmono.
  pose proof (nblk_mono off (off + n1) ltac:(lia)) as Hmono1.
  destruct (Hstep ltac:(lia)) as (m2 & din1 & s2 & -> & -> & Hst & Hw & Ht2).
  destruct (IH s2 m2 n din1 src (tot + n1) (off + n1) cnt) as (m' & din' & s' & Ew & Ea & Hst' & Hw' & Ht');
    try apply Hw; try apply Hst; try done; try lia.
  { replace (off + n1 + (cnt - (tot + n1))) with (off + (cnt - tot)) by lia.
    rewrite (st_block _ _ _ _ Hst). lia. }
  replace (off + n1 + (cnt - (tot + n1))) with (off + (cnt - tot)) in * by lia.
  exists m', din', s'. split; [done|]. split; [done|]. split; [|split; [|done]].
  - replace (Z.to_nat (nblk (off + (cnt - tot)) - nblk off)) with
      (Z.to_nat (nblk (off + n1) - nblk off) + Z.to_nat (nblk (off + (cnt - tot)) - nblk (off + n1)))%nat by lia.
    exact (steps_trans _ _ _ _ _ _ _ Hst Hst').
  - set (bs := take (Z.to_nat n1) (drop (Z.to_nat tot) src)) in *.
    assert (Hbs : Z.of_nat (length bs) = n1) by (unfold bs; rewrite length_take, length_drop; lia).
    replace (take (Z.to_nat (cnt - tot)) (drop (Z.to_nat tot) src))
      with (bs ++ take (Z.to_nat (cnt - (tot + n1))) (drop (Z.to_nat (tot + n1)) src)).
    + apply (wrote_app s i off bs s2 (as_inode n din1)); [done| |done|by rewrite Hbs].
      rewrite length_app, length_take, length_drop. lia.
    + unfold bs. replace (Z.to_nat (cnt - tot)) with (Z.to_nat n1 + Z.to_nat (cnt - (tot + n1)))%nat by lia.
      rewrite <- take_take_drop, drop_drop. do 3 f_equal. lia.
Qed.

(** ** Inodes of the image *)

Section inode_slot.
Context (s : bstate) (m : mk) (n : Z) (Hs : sees s m) (Hm : image_ok m) (Hf : fs_ok s) (Hn : 0 <= n < 200).

Lemma slot_in_table din : in_table s (as_inode n din).
Proof. unfold in_table. destruct Hs as [_ ->]. exact Hn. Qed.

Lemma iblock_sees : IBLOCK n (sb s) = IBLOCK n sb0 /\ 32 <= IBLOCK n sb0 < 58.
Proof.
  destruct Hs as [_ ->]. split; [done|]. unfold IBLOCK, IPB. rewrite sb0_eq. cbn [sb_inodestart].
  Z.div_mod_to_equations. lia.
Qed.

Lemma rinode_sees din : synced s (as_inode n din) -> rinode m n = Ok din.
Proof.
  intros Hsy. unfold rinode. destruct iblock_sees as [E Hr]. rewrite (rsect_sees s m) by (done || lia). run.
  unfold synced in Hsy. change (inum (as_inode n din)) with n in Hsy. rewrite E in Hsy.
  change (load_dinode (block s (IBLOCK n sb0)) (as_inode n dzero)) with
    (load_dinode (block s (IBLOCK n sb0)) (as_inode n din)).
  rewrite Hsy. run. by destruct din.
Qed.

Lemma winode_sees din :
  length (din_addrs din) = 13%nat ->
  let d := put_dinode s (as_inode n din) in
  exists m', winode m n din = Ok m' /\ steps m 0 m' (stored s (IBLOCK n (sb s)) d).
Proof.
  intros Hl d. destruct iblock_sees as [E Hr]. pose proof (im_block _ Hm).
  unfold winode. rewrite (rsect_sees s m) by (done || lia). run.
  destruct (block_lookup s (IBLOCK n sb0) Hf) as [_ Hbl]; [destruct (data_start_sees s m Hs) as [_ ->]; lia|].
  pose proof (slot_range n). pose proof (length_dinode_bytes (as_inode n din) Hl) as Hld.
  rewrite buf_store_Ok by (rewrite ?Hld, ?Hbl; lia). run. eexists; split; [reflexivity|].
  fold (splice (Z.to_nat (DINODE * (n mod IPB))) (dinode_bytes (as_inode n din)) (block s (IBLOCK n sb0))).
  rewrite E. replace (splice _ _ _) with d by (unfold d, put_dinode; cbn [inum as_inode]; by rewrite E).
  apply wsect_steps; [by apply steps_refl|lia|lia].
Qed.

End inode_slot.

Section append.
Context (dev_write : Z -> option (list Z -> Z)).
Context (s : bstate) (m : mk) (n : Z) (din : dinode) (p : list Z).

(** A file of the image at whose end [p] can be appended. *)
Record appendable : Prop := Appendable {
  ap_sees : sees s m;
  ap_image : image_ok m;
  ap_fs : fs_ok s;
  ap_file : file_ok s (as_inode n din);
  ap_held : held s = [];
  ap_type : din_type din <> T_DEV;
  ap_num : 0 <= n < 200;
  ap_fields : fields_ok (as_inode n din);
  ap_synced : synced s (as_inode n din);
  ap_tight : tight s (as_inode n din) (din_size din);
  ap_some : 0 < Z.of_nat (length p);
  ap_max : din_size din + Z.of_nat (length p) <= MAXFILE * BSIZE;
  ap_room : freeblock m + (nblk (din_size din + Z.of_nat (length p)) - nblk (din_size din)) <= 1000
}.

(** [iappend] is [writei] at the end of the file. *)
Lemma iappend_sees :
  appendable ->
  let size' := din_size din + Z.of_nat (length p) in
  exists m' din1 s1 s', let i' := as_inode n (set_din_size size' din1) in
    iappend m n p (Z.of_nat (length p)) = Ok m' /\
    writei dev_write s (as_inode n din) p (din_size din) (Z.of_nat (length p)) = Ok (Z.of_nat (length p), i', s') /\
    steps m (Z.to_nat (nblk size' - nblk (din_size din))) m' s' /\
    written s (as_inode n din) (din_size din) p s' i' /\ tight s' i' size' /\
    wrote s (as_inode n din) (din_size din) p s1 (as_inode n din1) /\
    s' = stored s1 (IBLOCK n (sb s1)) (put_dinode s1 i').
Proof.
  intros [Hs Hm Hf Hfile Hh Hty Hn Hfl Hsy Ht Hp Hmax Hroom] size'. set (i := as_inode n din) in *.
  pose proof Hfile as [Hi Hsz _]. change (isize i) with (din_size din) in Hsz. assert (HM : MAXFILE * BSIZE < 2 ^ 31) by done.
  set (cnt := Z.of_nat (length p)) in *.
  destruct (append_loop_sees (S (Z.to_nat cnt)) s m n din p 0 (din_size din) cnt)
    as (m1 & din1 & s1 & Ew & Ea & Hst & Hw & Ht1); try done; try lia; [by rewrite Z.sub_0_r..|].
  rewrite Z.sub_0_r in *. fold size' in Ew, Ea, Hst, Ht1. fold i in Ew, Hw. change (Z.to_nat 0) with 0%nat in Ea, Hw. rewrite drop_0 in Ea, Hw.
  rewrite take_ge in Hw by lia. pose proof (wrote_inum _ _ _ _ _ _ Hw) as Ei.
  assert (Esz : din_size din1 = din_size din) by (apply (f_equal isize) in Ei; exact Ei).
  destruct (written_past s i (din_size din) p s1 (as_inode n din1)) as (s' & Hup & Hwr & Haddr & Hnf); try done; try lia.
  { by apply (slot_in_table s m). }
  { change (isize i) with (din_size din). lia. }
  { change (isize i) with (din_size din). lia. }
  fold cnt in Hup, Hwr, Haddr. fold size' in Hup, Hwr, Haddr.
  change (set_size size' (as_inode n din1)) with (as_inode n (set_din_size size' din1)) in Hup, Hwr, Haddr.
  pose proof (w_fs _ _ _ _ _ _ Hw) as Hf1. pose proof (st_sees _ _ _ _ Hst) as Hs1. pose proof (i_len _ _ (w_ino _ _ _ _ _ _ Hw)) as Hl1.
  destruct (winode_sees s1 m1 n Hs1 (st_image _ _ _ _ Hst) Hf1 Hn (set_din_size size' din1) Hl1) as (m' & Ewi & Hst').
  assert (Es' : s' = stored s1 (IBLOCK n (sb s1)) (put_dinode s1 (as_inode n (set_din_size size' din1)))).
  { rewrite iupdate_Ok in Hup; [by injection Hup|done|by apply (slot_in_table s1 m1)|done|].
    rewrite (w_held _ _ _ _ _ _ Hw). apply not_elem_of_nil. }
  exists m', din1, s1, s'. split; [|split; [|split; [|split; [done|split; [|split; [done|done]]]]]].
  - unfold iappend. rewrite (rinode_sees s m n Hs Hf Hn din Hsy). run. rewrite xint_id by lia. fold cnt.
    rewrite Ea. run. rewrite xint_id by lia. exact Ewi.
  - unfold writei. change (itype i) with (din_type din). rewrite (proj2 (Z.eqb_neq _ _) Hty).
    change (isize i) with (din_size din). fold size'.
    assert (Hu : u32 size' = size') by (apply Z.mod_small; lia). rewrite Hu, !Z.gtb_ltb.
    rewrite (proj2 (Z.ltb_ge (din_size din) (din_size din))), (proj2 (Z.ltb_ge size' (din_size din))) by lia. cbn [orb].
    rewrite (proj2 (Z.ltb_ge (MAXFILE * BSIZE) size')) by lia. fold i. rewrite Ew. run.
    change (isize (as_inode n din1)) with (din_size din1). rewrite !Z.gtb_ltb, Esz.
    rewrite (proj2 (Z.ltb_lt 0 cnt)), (proj2 (Z.ltb_lt (din_size din) size')) by lia. cbn [andb].
    change (set_size size' (as_inode n din1)) with (as_inode n (set_din_size size' din1)). rewrite Hup. done.
  - rewrite Es', <- (Nat.add_0_r (Z.to_nat _)). exact (steps_trans _ _ _ _ _ _ _ Hst Hst').
  - destruct Ht1 as [T1 T2]. constructor; [|done]. intros k Hk. rewrite Haddr. by apply T1.
Qed.

End append.
