(* ===== verification/Xv6Mkfiles.v ===== *)
(** The files that mkfs.c puts on the image: the invariant of its construction
    ([built]), kept by [ialloc] and [iappend], and what the whole program
    leaves on the disk. *)

From S2P Require Import Prelude Bytes Xv6Locks Xv6String Xv6Fs Xv6Bitmap Xv6Inode Xv6Dinode Xv6Content Xv6Trunc Xv6Files Xv6Dir Xv6Icache Xv6Dirs Xv6Mkfs Xv6Mkimage.
Import Mkfs.

(** ** States that differ in their log only *)

Definition unlog (s : bstate) : bstate := Bstate (blocks s) (sb s) [] [].

Lemma kern_unlog s m : sees s m -> kern m = unlog s.
Proof. intros [Hb Hsb]. unfold kern, unlog. by rewrite Hb, Hsb. Qed.

Lemma fs_ok_unlog s : fs_ok s -> fs_ok (unlog s).
Proof. intros []. by constructor. Qed.

Lemma inode_ok_unlog s i : inode_ok s i -> inode_ok (unlog s) i.
Proof. intros []. by constructor. Qed.

(** ** A file of the image *)

(** A file of the image: its inode on the disk and its bytes. *)
Record node := Node { nd : dinode; nc : list Z }.

(** Inode [n] of the disk [s] is the file [f]. *)
Record good (s : bstate) (n : Z) (f : node) : Prop := Good {
  g_file : file_ok s (as_inode n (nd f));
  g_fields : fields_ok (as_inode n (nd f));
  g_synced : synced s (as_inode n (nd f));
  g_tight : tight s (as_inode n (nd f)) (din_size (nd f));
  g_type : din_type (nd f) <> T_DEV;
  g_size : din_size (nd f) = Z.of_nat (length (nc f));
  g_bytes : contents s (as_inode n (nd f)) = nc f;
  g_tail : forall p, din_size (nd f) <= p < MAXFILE * BSIZE -> fbyte s (as_inode n (nd f)) p = 0
}.

Lemma good_unlog s n f : good s n f -> good (unlog s) n f.
Proof.
  intros [[Hi Hsz Hd] Hfl Hsy [Ht1 Ht2] Hty Hl Hb Htl]. constructor; try done.
  constructor; [by apply inode_ok_unlog|done|done].
Qed.

(** A file whose blocks and whose inode did not change. *)
Lemma good_same s s' n f :
  good s n f -> inode_ok s' (as_inode n (nd f)) -> synced s' (as_inode n (nd f)) ->
  (forall k, addr_of s' (as_inode n (nd f)) k = addr_of s (as_inode n (nd f)) k) ->
  (forall p, 0 <= p < MAXFILE * BSIZE -> fbyte s' (as_inode n (nd f)) p = fbyte s (as_inode n (nd f)) p) ->
  good s' n f.
Proof.
  intros [[Hi Hsz Hd] Hfl Hsy [Ht1 Ht2] Hty Hl Hb Htl] Hi' Hsy' Haddr Hbytes. constructor; try done.
  - constructor; [done|done|]. intros k. rewrite Haddr. apply Hd.
  - constructor; [|done]. intros k. rewrite Haddr. apply Ht1.
  - rewrite <- Hb. apply contents_ext; [done|apply Hsz|done].
  - intros p Hp. rewrite Hbytes; [by apply Htl|]. change (isize (as_inode n (nd f))) with (din_size (nd f)) in Hsz. lia.
Qed.

(** ** Two stores: the data of a file, then its inode *)

Section update.
Context (s : bstate) (n : Z) (i : inode) (off : Z) (p : list Z) (s1 : bstate) (i1 : inode) (d : list Z).
Context (Hf : fs_ok s) (Hi : inode_ok s i) (Hw : wrote s i off p s1 i1).
Context (Hn : 0 <= n < sb_ninodes (sb s1)) (Hd : length d = Z.to_nat BSIZE).

Let s' := stored s1 (IBLOCK n (sb s1)) d.

(** Another file keeps its blocks. *)
Lemma update_other j :
  inode_ok s j -> apart s i j ->
  inode_ok s' j /\ (forall k, addr_of s' j k = addr_of s j k) /\
  (forall q, 0 <= q < MAXFILE * BSIZE -> fbyte s' j q = fbyte s j q).
Proof.
  intros Hj Hap. pose proof Hw as [He Hf1 Hi1 _ _ _ _ _ _].
  destruct (inode_same s s1 j (x_sb _ _ _ _ He) Hj) as (Hj1 & Ha1 & Hb1).
  { intros x Hx. apply (data_block_forth _ _ _ _ x He), (owns_data s j x Hj Hx). }
  { intros x Hx. apply (x_frame _ _ _ _ He); [by apply (owns_data s j)|]. intros Ho. by apply (Hap x). }
  destruct (stored_iblock_file s1 n d j Hf1 Hn Hd Hj1) as (Hj' & Ha' & Hb').
  split; [done|]. split; [intros k; by rewrite Ha', Ha1|intros q Hq; by rewrite Hb', Hb1].
Qed.

(** The file itself. *)
Lemma update_self :
  (forall k, addr_of s' i1 k = addr_of s1 i1 k) /\
  (forall q, 0 <= q < MAXFILE * BSIZE -> fbyte s' i1 q = fbyte s1 i1 q) /\
  (forall x, owns s i x -> owns s' i1 x) /\
  (forall x, data_start (sb s) <= x < sb_size (sb s) -> used s' x = true -> used s x = false -> owns s' i1 x).
Proof.
  pose proof Hw as [He Hf1 Hi1 _ _ _ _ _ _]. pose proof (data_start_pos s Hf). pose proof (x_sb _ _ _ _ He) as Hsb.
  destruct (stored_iblock_file s1 n d i1 Hf1 Hn Hd Hi1) as (_ & Ha' & Hb').
  destruct (stored_iblock s1 n d Hf1 Hn Hd) as (_ & Hu & _).
  split; [done|]. split; [done|]. split.
  - intros x Hx. apply (owns_same s1 s' i1 x Ha'). by apply (owns_forth s i s1 i1).
  - intros x Hx Hu' Hu0. apply (owns_same s1 s' i1 x Ha'). apply (x_leak _ _ _ _ He); [done| |done].
    unfold s' in Hu'. rewrite Hu in Hu'; [done|]. rewrite Hsb. lia.
Qed.

End update.

(** ** The image under construction *)

Definition num (k : nat) : Z := Z.of_nat k + 1.

Definition ino (k : nat) (f : node) : inode := as_inode (num k) (nd f).

Definition blocks_of (fs : list node) : Z := foldr (fun f t => nblk (Z.of_nat (length (nc f))) + t) 0 fs.

(** The files of the image are [fs], with inode numbers from 1: each is what it
    should be, they share no block, every block taken belongs to one of them,
    and the other inodes are free. *)
Record built (m : mk) (fs : list node) : Prop := Built {
  bu_image : image_ok m;
  bu_fs : fs_ok (kern m);
  bu_next : freeinode m = num (length fs);
  bu_most : (length fs < 200)%nat;
  bu_file : forall k f, fs !! k = Some f -> good (kern m) (num k) f;
  bu_apart : forall k k' f f', fs !! k = Some f -> fs !! k' = Some f' -> k <> k' -> apart (kern m) (ino k f) (ino k' f');
  bu_leak : forall x, 59 <= x < freeblock m -> exists k f, fs !! k = Some f /\ owns (kern m) (ino k f) x;
  bu_free : forall n, num (length fs) <= n < 200 -> synced (kern m) (as_inode n dzero);
  bu_count : freeblock m = 59 + blocks_of fs
}.

Lemma num_range m fs k f : built m fs -> fs !! k = Some f -> 0 < num k < 200.
Proof. intros Hb Hk%lookup_lt_Some. pose proof (bu_most _ _ Hb). unfold num. lia. Qed.

Lemma blocks_of_insert fs k f f' :
  fs !! k = Some f ->
  blocks_of (<[k := f']> fs) = blocks_of fs + (nblk (Z.of_nat (length (nc f'))) - nblk (Z.of_nat (length (nc f)))).
Proof.
  revert k. induction fs as [|g fs IH]; intros [|k] Hk; [done..| |].
  - injection Hk as ->. change (<[0%nat := f']> (f :: fs)) with (f' :: fs). unfold blocks_of. cbn [foldr]. lia.
  - specialize (IH k Hk). change (<[S k := f']> (g :: fs)) with (g :: <[k := f']> fs).
    unfold blocks_of in *. cbn [foldr]. lia.
Qed.

Lemma blocks_of_snoc fs f : blocks_of (fs ++ [f]) = blocks_of fs + nblk (Z.of_nat (length (nc f))).
Proof. unfold blocks_of. induction fs as [|g fs IH]; cbn [app foldr]; lia. Qed.

(** The inode has the same attributes. *)
Definition like (f f' : node) : Prop :=
  din_type (nd f') = din_type (nd f) /\ din_major (nd f') = din_major (nd f) /\
  din_minor (nd f') = din_minor (nd f) /\ din_nlink (nd f') = din_nlink (nd f).

Lemma built_appendable m fs k f p :
  built m fs -> fs !! k = Some f -> p <> [] ->
  Z.of_nat (length (nc f ++ p)) <= MAXFILE * BSIZE ->
  freeblock m + (nblk (Z.of_nat (length (nc f ++ p))) - nblk (Z.of_nat (length (nc f)))) <= 1000 ->
  appendable (kern m) m (num k) (nd f) p.
Proof.
  intros Hb Hk Hp Hmax Hroom. pose proof (num_range m fs k f Hb Hk). rewrite length_app, Nat2Z.inj_add in *.
  destruct (bu_file _ _ Hb k f Hk) as [G1 G2 G3 G4 G5 G6 G7 G8].
  constructor; try done; try (by rewrite ?G6); [apply Hb|apply Hb|lia|]. destruct p; [done|cbn [length]; lia].
Qed.

(** Everything [iappend] does, in terms of the kernel's disks before and after. *)
Record grown (s : bstate) (n : Z) (f : node) (p : list Z) (s' : bstate) (f' : node) : Prop := Grown {
  gr_fs : fs_ok s';
  gr_good : good s' n f';
  gr_bytes : nc f' = nc f ++ p;
  gr_like : like f f';
  gr_other : forall n' g, 0 <= n' < 200 -> n' <> n -> good s n' g ->
    apart s (as_inode n (nd f)) (as_inode n' (nd g)) ->
    good s' n' g /\ (forall x, owns s' (as_inode n' (nd g)) x <-> owns s (as_inode n' (nd g)) x) /\
    apart s' (as_inode n (nd f')) (as_inode n' (nd g));
  gr_owns : forall x, owns s (as_inode n (nd f)) x -> owns s' (as_inode n (nd f')) x;
  gr_leak : forall x, 59 <= x < 1000 -> used s' x = true -> used s x = false -> owns s' (as_inode n (nd f')) x;
  gr_free : forall n', 0 <= n' < 200 -> n' <> n -> synced s (as_inode n' dzero) -> synced s' (as_inode n' dzero)
}.

Lemma iappend_grown s m n f p :
  appendable s m n (nd f) p -> good s n f ->
  exists m' s' f', iappend m n p (Z.of_nat (length p)) = Ok m' /\ grown s n f p s' f' /\
    steps m (Z.to_nat (nblk (Z.of_nat (length (nc f ++ p))) - nblk (Z.of_nat (length (nc f))))) m' s'.
Proof.
  intros Hap Hg. pose proof Hap as [Hs Hm Hf _ _ _ Hn _ _ _ Hp Hmax _]. destruct (data_start_sees s m Hs) as [Hds Hsz].
  destruct (iappend_sees (fun _ => None) _ _ _ _ _ Hap) as (m' & din1 & s1 & s' & Ea & _ & Hst & Hwr & Ht & Hw & Es').
  destruct Hg as [Gf Gfl Gsy Gt Gty Gl Gb Gtl].
  rewrite length_app, Nat2Z.inj_add, <- Gl. set (size' := din_size (nd f) + Z.of_nat (length p)) in *.
  set (f' := Node (set_din_size size' din1) (nc f ++ p)). pose proof (wrote_inum _ _ _ _ _ _ Hw) as Ei.
  assert (Hlike : like f f') by (injection Ei as E1 E2 E3 E4 _; repeat split; done).
  pose proof Hw as [He Hf1 Hi1 _ Hbytes _ _ _ _]. pose proof (fo_ino _ _ Gf) as Hi.
  assert (Hn1 : 0 <= n < sb_ninodes (sb s1)) by (rewrite (x_sb _ _ _ _ He); destruct Hs as [_ ->]; exact Hn).
  set (d := put_dinode s1 _) in *. assert (Hd : length d = Z.to_nat BSIZE).
  { apply length_put_dinode; [done|exact Hn1|]. exact (i_len _ _ Hi1). }
  pose proof (update_self s n _ _ _ s1 _ d Hf Hw Hn1 Hd) as (Haddr & Hself & Hown & Hleak). rewrite <- Es' in Haddr, Hself, Hown, Hleak.
  rewrite Hds, Hsz in Hleak. exists m', s', f'. split; [done|]. split; [|done]. constructor; try done.
  - apply Hwr.
  - constructor; [apply (wr_file _ _ _ _ _ _ Hwr)|apply (wr_fields _ _ _ _ _ _ Hwr)|apply (wr_synced _ _ _ _ _ _ Hwr)|exact Ht|..].
    + destruct Hlike as [-> _]. done.
    + cbn [f' nd nc set_din_size din_size]. rewrite length_app, Nat2Z.inj_add, <- Gl. done.
    + cbn [f' nd nc]. rewrite (wr_contents _ _ _ _ _ _ Hwr), Gb, take_ge, drop_ge, app_nil_r; [done|lia|lia].
    + intros q Hq. cbn [f' nd set_din_size din_size] in Hq. change (fbyte s' (as_inode n din1) q = 0).
      rewrite Hself, Hbytes, decide_False by (unfold within; lia). apply Gtl. lia.
  - intros n' g Hn' Hne Hg Hapart. pose proof Hg as [Gf' _ Gsy' _ _ _ _ _].
    destruct (update_other s n _ _ _ s1 _ d Hw Hn1 Hd (as_inode n' (nd g)) (fo_ino _ _ Gf') Hapart) as (Hj & Haj & Hbj).
    rewrite <- Es' in Hj, Haj, Hbj. split; [|split].
    + apply (good_same s); try done. apply (wr_synced_others _ _ _ _ _ _ Hwr); [by apply (slot_in_table s m)|done|done].
    + intros x. by apply owns_same.
    + apply (wr_others _ _ _ _ _ _ Hwr (as_inode n' (nd g)) Gf' Hapart).
  - intros n' Hn' Hne. apply (wr_synced_others _ _ _ _ _ _ Hwr); [by apply (slot_in_table s m)|done].
Qed.

Lemma lookup_insert_cases {A} (l : list A) k x j y :
  <[k := x]> l !! j = Some y -> (j = k /\ y = x) \/ (j <> k /\ l !! j = Some y).
Proof. intros [(-> & <- & _)|[? ?]]%list_lookup_insert_Some; [by left|right; by split]. Qed.

(** [iappend] adds the bytes to its file and keeps the rest. *)
Lemma iappend_built m fs k f p :
  built m fs -> fs !! k = Some f -> p <> [] ->
  Z.of_nat (length (nc f ++ p)) <= MAXFILE * BSIZE ->
  freeblock m + (nblk (Z.of_nat (length (nc f ++ p))) - nblk (Z.of_nat (length (nc f)))) <= 1000 ->
  exists m' f', iappend m (num k) p (Z.of_nat (length p)) = Ok m' /\
    built m' (<[k := f']> fs) /\ nc f' = nc f ++ p /\ like f f'.
Proof.
  intros Hb Hk Hp Hmax Hroom. pose proof (bu_file _ _ Hb k f Hk) as Hg. pose proof (num_range m fs k f Hb Hk) as Hnk.
  destruct (iappend_grown _ _ _ _ _ (built_appendable m fs k f p Hb Hk Hp Hmax Hroom) Hg) as (m' & s' & f' & Ea & Hgr & Hst).
  exists m', f'. split; [done|]. pose proof Hgr as [Hf' Hg' Hc Hlk Hoth Hown Hleak Hfree]. split; [|done].
  pose proof (kern_unlog s' m' (st_sees _ _ _ _ Hst)) as Ek.
  pose proof (nblk_mono (Z.of_nat (length (nc f))) (Z.of_nat (length (nc f ++ p)))) as Hmono.
  rewrite length_app in Hmono. specialize (Hmono ltac:(lia)). rewrite <- length_app in Hmono.
  assert (Hall : forall j g, fs !! j = Some g -> j <> k -> good s' (num j) g /\
    (forall x, owns s' (ino j g) x <-> owns (kern m) (ino j g) x) /\ apart s' (ino k f') (ino j g)).
  { intros j g Hj Hne. pose proof (num_range m fs j g Hb Hj). apply Hoth; [lia|unfold num; lia|by apply Hb|].
    apply (bu_apart _ _ Hb); done. }
  constructor; rewrite ?length_insert; try rewrite Ek.
  - apply Hst.
  - by apply fs_ok_unlog.
  - rewrite (st_inode _ _ _ _ Hst). apply Hb.
  - apply Hb.
  - intros j g [[-> ->]|[Hne Hj]]%lookup_insert_cases; apply good_unlog; [done|by apply (Hall j g)].
  - intros j j' g g' [[-> ->]|[Hne Hj]]%lookup_insert_cases [[-> ->]|[Hne' Hj']]%lookup_insert_cases Hjj; [done| | |].
    + by apply (Hall j' g').
    + intros x Hx Hx'. apply (proj2 (proj2 (Hall j g Hj Hne)) x); done.
    + intros x Hx Hx'. apply (proj1 (proj2 (Hall j g Hj Hne))) in Hx. apply (proj1 (proj2 (Hall j' g' Hj' Hne'))) in Hx'.
      by apply (bu_apart _ _ Hb j j' g g' Hj Hj' Hjj x).
  - intros x Hx. destruct (decide (x < freeblock m)) as [Hlt|Hge].
    + destruct (bu_leak _ _ Hb x ltac:(lia)) as (j & g & Hj & Ho). destruct (decide (j = k)) as [->|Hne].
      * exists k, f'. rewrite list_lookup_insert_eq by (by eapply lookup_lt_Some). split; [done|].
        assert (g = f) as -> by congruence. by apply Hown.
      * exists j, g. rewrite list_lookup_insert_ne by done. split; [done|]. by apply (proj1 (proj2 (Hall j g Hj Hne))).
    + exists k, f'. rewrite list_lookup_insert_eq by (by eapply lookup_lt_Some). split; [done|].
      pose proof (im_block _ (st_image _ _ _ _ Hst)). apply Hleak; [lia| |].
      * rewrite (used_sees s' m') by (apply Hst || lia). apply bool_decide_eq_true_2. lia.
      * rewrite (used_sees (kern m) m) by (apply Hb || done || lia). apply bool_decide_eq_false_2. lia.
  - intros n Hn. pose proof (lookup_lt_Some _ _ _ Hk). apply Hfree; [unfold num in *; lia|unfold num in *; lia|by apply Hb].
  - rewrite (st_block _ _ _ _ Hst), (bu_count _ _ Hb), (blocks_of_insert fs k f f' Hk), Hc. lia.
Qed.

(** ** A new inode *)

Definition fresh (type : Z) : node := Node (Dinode type 0 0 1 0 (replicate 13 0)) [].

Lemma fresh_owns s n type x : ~ owns s (as_inode n (nd (fresh type))) x.
Proof. apply (proj2 (emptied_file s (as_inode n (nd (fresh type))))). Qed.

Lemma addr_fresh s n type k : in_file k -> addr_of s (as_inode n (nd (fresh type))) k = 0.
Proof.
  intros Hk. destruct (decide (addr_of s (as_inode n (nd (fresh type))) k = 0)) as [E|E]; [done|].
  exfalso. apply (fresh_owns s n type (addr_of s (as_inode n (nd (fresh type))) k)). split; [done|]. right. by exists k.
Qed.

Lemma fresh_good s n type :
  1 <= type <= 2 -> synced s (as_inode n (nd (fresh type))) -> good s n (fresh type).
Proof.
  intros Ht Hsy. constructor; try done.
  - apply (emptied_file s (as_inode n (nd (fresh type)))).
  - constructor; try done; [unfold in_s16; cbn; lia|by apply Forall_replicate].
  - constructor; [|done]. intros k Hk. rewrite addr_fresh by done. split; [|done].
    intros _. unfold in_file in Hk. change (0 <= k * BSIZE). unfold BSIZE. lia.
  - cbn. unfold T_DEV. lia.
  - intros p Hp. unfold fbyte. rewrite addr_fresh by (apply block_of_file; cbn in Hp; lia). done.
Qed.

(** [ialloc] of mkfs.c: the next inode, empty. *)
Lemma ialloc_built m fs type :
  built m fs -> (S (length fs) < 200)%nat -> 1 <= type <= 2 ->
  exists m', ialloc m type = Ok (num (length fs), m') /\ built m' (fs ++ [fresh type]).
Proof.
  intros Hb Hroom Hty. set (n := num (length fs)). assert (Hn : 0 <= n < 200) by (unfold n, num; lia).
  set (m0 := Mk (img m) (u32 (freeinode m + 1)) (freeblock m)). pose proof (bu_fs _ _ Hb) as Hf.
  assert (Hm0 : image_ok m0) by (destruct (bu_image _ _ Hb); by constructor).
  set (din := nd (fresh type)). assert (Hs0 : sees (kern m) m0) by done.
  destruct (winode_sees (kern m) m0 n Hs0 Hm0 Hf Hn din eq_refl) as (m' & Ew & Hst). set (s' := stored _ _ _) in Hst.
  assert (Hd : length (put_dinode (kern m) (as_inode n din)) = Z.to_nat BSIZE) by (by apply length_put_dinode).
  destruct (stored_iblock (kern m) n _ Hf Hn Hd) as (Hf' & Hu & _). fold s' in Hf'.
  exists m'. split.
  { unfold ialloc. rewrite (bu_next _ _ Hb). fold n. rewrite !xshort_id, xint_id by lia.
    change (Dinode type 0 0 1 0 (replicate 13 0)) with din. unfold m0 in Ew. rewrite (bu_next _ _ Hb) in Ew. fold n in Ew. by rewrite Ew. }
  assert (Hgood : good s' n (fresh type)).
  { apply fresh_good; [done|]. unfold synced. pose proof (iblock_range (kern m) n Hf Hn). pose proof (f_len _ Hf).
    change (inum (as_inode n (nd (fresh type)))) with n. change (sb s') with (sb (kern m)). unfold s'.
    rewrite block_stored, decide_True by (done || lia). apply load_put_dinode; [done|done|].
    constructor; try done; [unfold in_s16; cbn; lia|by apply Forall_replicate]. }
  assert (Hsync : forall n' d', 0 <= n' < 200 -> n' <> n -> synced (kern m) (as_inode n' d') -> synced s' (as_inode n' d')).
  { intros n' d' Hn' Hne. apply (synced_other (kern m) (as_inode n din) (as_inode n' d')); done. }
  assert (Hold : forall k f, fs !! k = Some f -> good s' (num k) f /\ forall x, owns s' (ino k f) x <-> owns (kern m) (ino k f) x).
  { intros k f Hk. pose proof (bu_file _ _ Hb k f Hk) as Hg. pose proof (num_range m fs k f Hb Hk).
    destruct (stored_iblock_file (kern m) n _ (ino k f) Hf Hn Hd (fo_ino _ _ (g_file _ _ _ Hg))) as (Hi & Ha & Hby).
    fold s' in Hi, Ha, Hby. split; [|intros x; by apply owns_same]. apply (good_same (kern m)); try done.
    apply Hsync; [lia| |apply Hg]. pose proof (lookup_lt_Some _ _ _ Hk). unfold n, num. lia. }
  pose proof (kern_unlog s' m' (st_sees _ _ _ _ Hst)) as Ek. pose proof (st_block _ _ _ _ Hst) as Hfb. rewrite Z.add_0_r in Hfb.
  change (freeblock m0) with (freeblock m) in Hfb.
  constructor; rewrite ?length_app; cbn [length]; try rewrite Ek.
  - apply Hst.
  - by apply fs_ok_unlog.
  - rewrite (st_inode _ _ _ _ Hst). cbn [m0 freeinode]. rewrite (bu_next _ _ Hb). unfold num, u32. rewrite Z.mod_small; lia.
  - lia.
  - intros k f [Hk|[Hk Hl]]%lookup_app_Some; apply good_unlog; [by apply Hold|].
    apply list_lookup_singleton_Some in Hl as [Hl <-]. by replace k with (length fs) by lia.
  - intros k k' f f' [Hk|[_ [_ <-]%list_lookup_singleton_Some]]%lookup_app_Some
      [Hk'|[_ [_ <-]%list_lookup_singleton_Some]]%lookup_app_Some Hne x Hx Hx'; try by apply fresh_owns in Hx || apply fresh_owns in Hx'.
    apply (proj2 (Hold k f Hk)) in Hx. apply (proj2 (Hold k' f' Hk')) in Hx'. by apply (bu_apart _ _ Hb k k' f f' Hk Hk' Hne x).
  - intros x Hx. rewrite Hfb in Hx. destruct (bu_leak _ _ Hb x Hx) as (k & f & Hk & Ho). exists k, f.
    split; [by apply lookup_app_l_Some|]. by apply (proj2 (Hold k f Hk)).
  - intros n' Hn'. unfold n, num in *. apply Hsync; [lia|lia|]. apply Hb. unfold num. lia.
  - rewrite Hfb, blocks_of_snoc, (bu_count _ _ Hb). change (nblk (Z.of_nat (length (nc (fresh type))))) with 0. lia.
Qed.
