(* ===== verification/Xv6Mkmain.v ===== *)
(** The whole of mkfs.c: the image that [main] leaves for the kernel. *)

From S2P Require Import Prelude Bytes Xv6Locks Xv6String Xv6Fs Xv6Bitmap Xv6Inode Xv6Dinode Xv6Content Xv6Trunc Xv6Files Xv6Dir Xv6Icache Xv6Dirs Xv6Mkfs Xv6Mkimage Xv6Mkfiles.
Import Mkfs.

(** ** The empty image *)

Lemma zero_loop_spec k : forall d fi fb,
  Z.of_nat (length d + k) < 8388608 ->
  zero_loop k (Z.of_nat (length d)) (Mk d fi fb) = Mk (d ++ replicate k zeros) fi fb.
Proof.
  induction k as [|k IH]; intros d fi fb Hl; cbn [zero_loop]; [by rewrite app_nil_r|].
  assert (E : wsect (Mk d fi fb) (Z.of_nat (length d)) zeros = Mk (d ++ [zeros]) fi fb).
  { unfold wsect. rewrite sector_id by lia. cbn [img freeinode freeblock]. rewrite Nat2Z.id, Nat.sub_diag.
    cbn [replicate]. by rewrite app_nil_r, firstn_all, drop_ge by lia. }
  rewrite E. replace (Z.of_nat (length d) + 1) with (Z.of_nat (length (d ++ [zeros]))) by (rewrite length_app; cbn [length]; lia).
  rewrite IH by (rewrite length_app; cbn [length]; lia). by rewrite <- app_assoc.
Qed.

(** The superblock alone. *)
Definition super : list Z := splice 0 (sb_bytes sb0) zeros.

Definition empty_image : mk := Mk (<[1%nat := super]> (replicate 1000 zeros)) 1 59.

Lemma empty_block x : 0 <= x < 1000 -> x <> 1 -> x <> 58 -> block (kern empty_image) x = zeros.
Proof.
  intros Hx H1 H58. unfold block, kern, empty_image. cbn [blocks img].
  rewrite !list_lookup_insert_ne, lookup_replicate_2 by lia. done.
Qed.

Lemma load_zeros n : load_dinode zeros (as_inode n dzero) = Ok (set_valid 1 (as_inode n dzero)).
Proof.
  unfold load_dinode. cbn [inum as_inode]. pose proof (Z.mod_pos_bound n IPB ltac:(done)) as H. change IPB with 8 in *.
  assert (n mod 8 = 0 \/ n mod 8 = 1 \/ n mod 8 = 2 \/ n mod 8 = 3 \/ n mod 8 = 4 \/ n mod 8 = 5 \/ n mod 8 = 6 \/ n mod 8 = 7)
    as E by lia.
  destruct E as [->|[->|[->|[->|[->|[->|[->| ->]]]]]]]; reflexivity.
Qed.

Lemma empty_image_ok : image_ok empty_image.
Proof.
  constructor; [by vm_compute|cbn; lia|]. intros x Hx. cbn [empty_image img]. cbn [empty_image freeblock] in Hx.
  rewrite list_lookup_insert_ne, lookup_replicate_2 by lia. done.
Qed.

Lemma empty_built : built empty_image [].
Proof.
  pose proof empty_image_ok as Hm.
  assert (Hf : fs_ok (kern empty_image)).
  { constructor; try (by vm_compute).
    - apply Forall_insert; [|by apply marked_spec].
      apply Forall_insert; [by apply Forall_replicate, length_replicate|by vm_compute].
    - intros b Hb. change (data_start (sb (kern empty_image))) with 59 in Hb.
      rewrite (used_sees _ _ (kern_sees empty_image) Hm) by lia. apply bool_decide_eq_true_2. cbn. lia. }
  constructor; try done.
  - cbn. lia.
  - intros x Hx. cbn in Hx. lia.
  - intros n Hn. unfold synced. change (inum (as_inode n dzero)) with n. change (sb (kern empty_image)) with sb0.
    change (num (length [])) with 1 in Hn.
    destruct (iblock_sees (kern empty_image) empty_image n (kern_sees _) ltac:(lia)) as [_ Hr].
    rewrite empty_block by lia. apply load_zeros.
Qed.

(** ** Copying the files *)

Lemma like_refl f : like f f.
Proof. done. Qed.

Lemma like_trans f g h : like f g -> like g h -> like f h.
Proof. intros (? & ? & ? & ?) (? & ? & ? & ?). repeat split; congruence. Qed.

Lemma copy_file_built chunks : forall m fs k f,
  built m fs -> fs !! k = Some f -> Forall (fun c => c <> []) chunks ->
  Z.of_nat (length (nc f ++ mjoin chunks)) <= MAXFILE * BSIZE ->
  freeblock m + (nblk (Z.of_nat (length (nc f ++ mjoin chunks))) - nblk (Z.of_nat (length (nc f)))) <= 1000 ->
  exists m' f', copy_file m (num k) chunks = Ok m' /\ built m' (<[k := f']> fs) /\
    nc f' = nc f ++ mjoin chunks /\ like f f'.
Proof.
  induction chunks as [|c chunks IH]; intros m fs k f Hb Hk Hc Hmax Hroom; cbn [copy_file].
  { exists m, f. rewrite list_insert_id by done. change (mjoin []) with (@nil Z). by rewrite app_nil_r. }
  apply Forall_cons in Hc as [Hc Hcs]. change (mjoin (c :: chunks)) with (c ++ mjoin chunks) in *.
  rewrite app_assoc in *. pose proof (length_app (nc f ++ c) (mjoin chunks)) as Hl.
  pose proof (nblk_mono (Z.of_nat (length (nc f ++ c))) (Z.of_nat (length ((nc f ++ c) ++ mjoin chunks)))
    ltac:(rewrite Hl, Nat2Z.inj_add; split; [apply Nat2Z.is_nonneg|lia])).
  destruct (iappend_built m fs k f c Hb Hk Hc) as (m1 & f1 & -> & Hb1 & Hc1 & Hl1); [lia|lia|]. run.
  assert (Hk1 : <[k := f1]> fs !! k = Some f1) by (apply list_lookup_insert_eq; by eapply lookup_lt_Some).
  destruct (IH m1 _ k f1 Hb1 Hk1 Hcs) as (m' & f' & -> & Hb' & Hc' & Hl').
  - by rewrite Hc1.
  - rewrite Hc1. rewrite (bu_count _ _ Hb1), (blocks_of_insert fs k f f1 Hk), Hc1.
    rewrite (bu_count _ _ Hb) in Hroom. lia.
  - exists m', f'. split; [done|]. rewrite list_insert_insert_eq in Hb'. split; [done|].
    split; [by rewrite Hc', Hc1|by eapply like_trans].
Qed.

(** The name under which a file appears, and its bytes. *)
Definition name_of (h : hostfile) : list Z :=
  if decide (arg h !! 0%nat = Some UNDERSCORE) then drop 1 (arg h) else arg h.

Definition bytes_of (h : hostfile) : list Z := mjoin (default [] (reads h)).

(** A file that can be copied: its argument is a string without a slash, it can
    be read, and it is not too large. *)
Record host_ok (h : hostfile) : Prop := HostOk {
  h_end : 0 ∈ arg h;
  h_slash : SLASH ∉ upto0 (arg h);
  h_reads : exists chunks, reads h = Some chunks /\ Forall (fun c => c <> []) chunks;
  h_size : Z.of_nat (length (bytes_of h)) <= MAXFILE * BSIZE
}.

Lemma index_Ok s c : 0 ∈ s -> c <> 0 -> c ∉ upto0 s -> index s c = Ok false.
Proof.
  intros Hin Hc. induction s as [|x s IH]; [by apply elem_of_nil in Hin|]. cbn [index upto0].
  destruct (Z.eqb_spec x 0) as [->|Hx].
  - intros _. by rewrite (proj2 (Z.eqb_neq 0 c)) by congruence.
  - rewrite not_elem_of_cons. intros [Hne Hs]. rewrite (proj2 (Z.eqb_neq x c)) by congruence.
    apply IH; [|done]. by apply elem_of_cons in Hin as [?|?].
Qed.

Lemma name_of_ended h : host_ok h -> 0 ∈ name_of h.
Proof.
  intros [He _ _ _]. unfold name_of. case_decide as E; [|done]. destruct (arg h) as [|c l]; [done|].
  injection E as ->. cbn [drop]. by apply elem_of_cons in He as [?|?].
Qed.

(** The loop body: a new inode, its entry in the root directory, its bytes. *)
Lemma add_file_built m root fs h :
  built m (root :: fs) -> host_ok h -> (S (S (length fs)) < 200)%nat ->
  let e := new_entry (name_of h) (num (S (length fs))) in
  Z.of_nat (length (nc root ++ e)) <= MAXFILE * BSIZE ->
  freeblock m + (nblk (Z.of_nat (length (nc root ++ e))) - nblk (Z.of_nat (length (nc root)))) +
    nblk (Z.of_nat (length (bytes_of h))) <= 1000 ->
  exists m' root' f, add_file m 1 h = Ok m' /\ built m' (root' :: fs ++ [f]) /\
    nc root' = nc root ++ e /\ like root root' /\ nc f = bytes_of h /\ like (fresh T_FILE) f.
Proof.
  intros Hb Hh Hroom e Hmax Hfree. pose proof Hh as [He Hsl (chunks & Hr & Hch) Hsz]. unfold add_file.
  rewrite (index_Ok (arg h) SLASH) by done. run. cbn [negb c_assert]. run. rewrite Hr.
  assert (Hc : exists c, arg h !! 0%nat = Some c) by (destruct (arg h); [by apply elem_of_nil in He|by eexists]).
  destruct Hc as [c Hc]. rewrite (proj2 (aget_Ok (arg h) 0 c)) by done. run.
  assert (Hname : (if c =? UNDERSCORE then drop 1 (arg h) else arg h) = name_of h).
  { unfold name_of. rewrite Hc. destruct (Z.eqb_spec c UNDERSCORE) as [->|Hne]; [by rewrite decide_True|].
    rewrite decide_False; [done|congruence]. }
  rewrite Hname. destruct (ialloc_built m (root :: fs) T_FILE Hb) as (m1 & -> & Hb1); [cbn [length]; lia|done|]. run.
  rewrite strncpy_spec; [run|by rewrite length_replicate|right; by apply name_of_ended].
  cbn [length] in Hb1 |- *. rewrite xshort_id by (unfold num; lia).
  change (le16 (num (S (length fs))) ++ pad0 DIRSIZ (upto0 (take DIRSIZ (name_of h)))) with e.
  assert (Hle : length e = 16%nat) by apply length_new_entry.
  assert (Hlen : length (bytes_of h) = length (mjoin chunks)) by (unfold bytes_of; by rewrite Hr).
  assert (Hfb : freeblock m1 = freeblock m).
  { rewrite (bu_count _ _ Hb1), (bu_count _ _ Hb), blocks_of_snoc.
    change (nblk (Z.of_nat (length (nc (fresh T_FILE))))) with 0. lia. }
  assert (Hpos : 0 <= nblk (Z.of_nat (length (bytes_of h)))).
  { pose proof (nblk_mono 0 (Z.of_nat (length (bytes_of h))) ltac:(lia)) as H. exact H. }
  destruct (iappend_built m1 _ 0 root e Hb1 eq_refl) as (m2 & root' & E2 & Hb2 & Hc2 & Hl2); [by destruct e|done|lia|].
  change (num 0) with 1 in E2. rewrite Hle in E2. change (Z.of_nat 16) with DIRENT in E2. rewrite E2. run.
  change (<[0%nat := root']> ((root :: fs) ++ [fresh T_FILE])) with (root' :: fs ++ [fresh T_FILE]) in Hb2.
  assert (Hk : (root' :: fs ++ [fresh T_FILE]) !! S (length fs) = Some (fresh T_FILE)).
  { change ((fs ++ [fresh T_FILE]) !! length fs = Some (fresh T_FILE)). rewrite lookup_app_r, Nat.sub_diag by lia. done. }
  destruct (copy_file_built chunks m2 _ _ _ Hb2 Hk Hch) as (m3 & f & -> & Hb3 & Hc3 & Hl3).
  - change (nc (fresh T_FILE) ++ mjoin chunks) with (mjoin chunks). lia.
  - change (nc (fresh T_FILE) ++ mjoin chunks) with (mjoin chunks). rewrite <- Hlen.
    change (nblk (Z.of_nat (length (nc (fresh T_FILE))))) with 0.
    rewrite (bu_count _ _ Hb2). rewrite (bu_count _ _ Hb) in Hfree. cbn [blocks_of foldr] in Hfree |- *.
    fold (blocks_of (fs ++ [fresh T_FILE])). fold (blocks_of fs) in Hfree. rewrite blocks_of_snoc, Hc2.
    change (nblk (Z.of_nat (length (nc (fresh T_FILE))))) with 0. lia.
  - exists m3, root', f. split; [done|]. split; [|split; [done|split; [done|split; [|done]]]].
    + change (<[S (length fs) := f]> (root' :: fs ++ [fresh T_FILE])) with (root' :: <[length fs := f]> (fs ++ [fresh T_FILE])) in Hb3.
      rewrite insert_app_r_alt, Nat.sub_diag in Hb3 by lia. exact Hb3.
    + rewrite Hc3. unfold bytes_of. by rewrite Hr.
Qed.

(** The entries of the root directory for the files, the first of which gets
    inode [num (S base)], and the blocks the files take. *)
Fixpoint dir_entries (base : nat) (hs : list hostfile) : list (list Z) :=
  match hs with
  | [] => []
  | h :: hs' => new_entry (name_of h) (num (S base)) :: dir_entries (S base) hs'
  end.

Definition need (hs : list hostfile) : Z := foldr (fun h t => nblk (Z.of_nat (length (bytes_of h))) + t) 0 hs.

Lemma nblk_nonneg x : 0 <= x -> 0 <= nblk x.
Proof. intros H. exact (nblk_mono 0 x ltac:(lia)). Qed.

Lemma need_nonneg hs : 0 <= need hs.
Proof.
  unfold need. induction hs as [|h hs IH]; cbn [foldr]; [done|]. pose proof (nblk_nonneg (Z.of_nat (length (bytes_of h)))). lia.
Qed.

Lemma length_dir_entries hs : forall base, length (mjoin (dir_entries base hs)) = (16 * length hs)%nat.
Proof.
  induction hs as [|h hs IH]; intros base; [done|]. cbn [dir_entries].
  change (mjoin (?x :: ?l)) with (x ++ mjoin l). rewrite length_app, IH, length_new_entry. cbn [length]. lia.
Qed.

Lemma add_files_built hs : forall m root fs,
  built m (root :: fs) -> Forall host_ok hs -> (S (length fs) + length hs < 200)%nat ->
  Z.of_nat (length (nc root)) + 16 * Z.of_nat (length hs) <= MAXFILE * BSIZE ->
  freeblock m + (nblk (Z.of_nat (length (nc root)) + 16 * Z.of_nat (length hs)) - nblk (Z.of_nat (length (nc root)))) +
    need hs <= 1000 ->
  exists m' root' fs', add_files m 1 hs = Ok m' /\ built m' (root' :: fs ++ fs') /\
    nc root' = nc root ++ mjoin (dir_entries (length fs) hs) /\ like root root' /\
    Forall2 (fun h f => nc f = bytes_of h /\ like (fresh T_FILE) f) hs fs'.
Proof.
  induction hs as [|h hs IH]; intros m root fs Hb Hok Hroom Hmax Hfree; cbn [add_files dir_entries].
  { exists m, root, []. change (mjoin []) with (@nil Z). rewrite !app_nil_r.
    split; [done|]. split; [done|]. split; [done|]. split; [apply like_refl|constructor]. }
  apply Forall_cons in Hok as [Hh Hok]. cbn [length need foldr] in *. fold (need hs) in Hfree. pose proof (need_nonneg hs).
  assert (Hle : length (nc root ++ new_entry (name_of h) (num (S (length fs)))) = (length (nc root) + 16)%nat)
    by (by rewrite length_app, length_new_entry).
  pose proof (nblk_mono (Z.of_nat (length (nc root) + 16)) (Z.of_nat (length (nc root)) + 16 * Z.of_nat (S (length hs))) ltac:(lia)).
  destruct (add_file_built m root fs h Hb Hh) as (m1 & root1 & f & -> & Hb1 & Hr1 & Hl1 & Hf & Hlf); try (rewrite ?Hle; lia).
  run. destruct (IH m1 root1 (fs ++ [f]) Hb1 Hok) as (m' & root' & fs' & -> & Hb' & Hr' & Hl' & Hfs);
    rewrite ?length_app, ?Hr1, ?Hle; cbn [length]; try lia.
  { replace (Z.of_nat (length (nc root) + 16) + 16 * Z.of_nat (length hs))
      with (Z.of_nat (length (nc root)) + 16 * Z.of_nat (S (length hs))) by lia.
    rewrite (bu_count _ _ Hb1). rewrite (bu_count _ _ Hb) in Hfree. cbn [blocks_of foldr] in Hfree |- *.
    fold (blocks_of (fs ++ [f])). fold (blocks_of fs) in Hfree. rewrite blocks_of_snoc, Hf, Hr1, Hle. lia. }
  exists m', root', (f :: fs'). split; [done|]. rewrite <- app_assoc in Hb'. split; [done|]. split; [|split].
  - rewrite Hr', Hr1, length_app, Nat.add_1_r, <- app_assoc. done.
  - by eapply like_trans.
  - by constructor.
Qed.

(** ** The root directory *)

Definition dot2 : list Z := [46; 46; 0].

(** The bytes of the root directory. *)
Definition root_entries (hs : list hostfile) : list (list Z) :=
  new_entry dot 1 :: new_entry dot2 1 :: dir_entries 0 hs.

Lemma make_root_built :
  exists m root, make_root = Ok (1, m) /\ built m [root] /\ nc root = mjoin (root_entries []) /\ like (fresh T_DIR) root.
Proof.
  unfold make_root. pose proof (zero_loop_spec 1000 [] 1 nmeta ltac:(cbn [length]; lia)) as E0.
  change (Z.of_nat (length [])) with 0 in E0. cbn [app] in E0. change (Z.to_nat FSSIZE) with 1000%nat. rewrite E0.
  rewrite buf_store_Ok by (by vm_compute). run.
  change (take (Z.to_nat 0) (replicate (Z.to_nat BSIZE) 0) ++ sb_bytes sb0 ++
    drop (Z.to_nat 0 + length (sb_bytes sb0)) (replicate (Z.to_nat BSIZE) 0)) with super.
  rewrite wsect_in by (cbn [img]; rewrite ?length_replicate; lia). cbn [img freeinode freeblock].
  change (Mk (<[Z.to_nat 1 := super]> (replicate 1000 zeros)) 1 nmeta) with empty_image.
  clear E0.
  destruct (ialloc_built empty_image [] T_DIR empty_built) as (m1 & E1 & Hb1); [cbn [length]; lia|unfold T_DIR; lia|].
  rewrite E1. run.
  change (num (length [])) with 1. change (c_assert (1 =? ROOTINO)) with (Ok tt). run.
  change (dot_entry 1 [46; 0]) with (Ok (new_entry dot 1)). run.
  assert (Hfb : freeblock m1 = 59) by (by rewrite (bu_count _ _ Hb1)).
  destruct (iappend_built m1 [fresh T_DIR] 0 (fresh T_DIR) (new_entry dot 1) Hb1 eq_refl) as (m2 & r2 & E2 & Hb2 & Hc2 & Hl2);
    [done|done|rewrite Hfb; by vm_compute|].
  change (iappend m1 (num 0) (new_entry dot 1) _) with (iappend m1 1 (new_entry dot 1) DIRENT) in E2. rewrite E2. run.
  change (dot_entry 1 [46; 46; 0]) with (Ok (new_entry dot2 1)). run.
  assert (Hfb2 : freeblock m2 = 60) by (rewrite (bu_count _ _ Hb2); change (blocks_of _) with (nblk (Z.of_nat (length (nc r2))) + 0); rewrite Hc2; reflexivity).
  destruct (iappend_built m2 [r2] 0 r2 (new_entry dot2 1) Hb2 eq_refl) as (m3 & r3 & E3 & Hb3 & Hc3 & Hl3);
    [done|rewrite Hc2; by vm_compute|rewrite Hc2, Hfb2; by vm_compute|].
  change (iappend m2 (num 0) (new_entry dot2 1) _) with (iappend m2 1 (new_entry dot2 1) DIRENT) in E3. rewrite E3. run.
  exists m3, r3. split; [done|]. split; [done|]. split; [by rewrite Hc3, Hc2|by eapply like_trans].
Qed.

(** ** The end *)

Lemma finish_Ok m root fs :
  built m (root :: fs) -> Z.of_nat (length (nc root)) + BSIZE < 2 ^ 31 ->
  let size' := (Z.of_nat (length (nc root)) / BSIZE + 1) * BSIZE in
  let i' := as_inode 1 (set_din_size size' (nd root)) in
  exists m', finish m 1 = Ok m' /\ freeblock m' = freeblock m /\
    Bstate (img m') sb0 [] [] = unlog (stored (kern m) (IBLOCK 1 (sb (kern m))) (put_dinode (kern m) i')).
Proof.
  intros Hb Hsz size' i'. pose proof (bu_file _ _ Hb 0 root eq_refl) as Hg. change (num 0) with 1 in Hg.
  pose proof (bu_image _ _ Hb) as Hm. pose proof (bu_fs _ _ Hb) as Hf. pose proof (im_block _ Hm).
  unfold finish. rewrite (rinode_sees (kern m) m 1 (kern_sees m) Hf ltac:(lia) (nd root) (g_synced _ _ _ Hg)). run.
  rewrite (g_size _ _ _ Hg). pose proof BSIZE_pos. rewrite (xint_id (Z.of_nat _)) by lia.
  assert (Hs' : 0 <= size' < 2 ^ 32) by (unfold size', BSIZE in *; Z.div_mod_to_equations; lia).
  replace (u32 _) with size' by (symmetry; by apply Z.mod_small). rewrite (xint_id size') by done.
  pose proof (i_len _ _ (fo_ino _ _ (g_file _ _ _ Hg))) as Hl.
  destruct (winode_sees (kern m) m 1 (kern_sees m) Hm Hf ltac:(lia) (set_din_size size' (nd root)) Hl) as (m1 & -> & Hst). run.
  fold i' in Hst. set (s' := stored _ _ _) in *. pose proof (st_block _ _ _ _ Hst) as Hfb. rewrite Z.add_0_r in Hfb.
  unfold balloc, c_assert. rewrite Hfb, (proj2 (Z.ltb_lt _ _)) by (unfold BSIZE; lia). run.
  destruct (marked_spec (Z.to_nat (freeblock m))) as (-> & _); [rewrite BPB_eq; lia|]. run.
  eexists; split; [reflexivity|]. change (sb_bmapstart sb0) with 58. pose proof (im_len _ (st_image _ _ _ _ Hst)).
  rewrite wsect_in by lia. split; [done|]. destruct (st_sees _ _ _ _ Hst) as [Hbl Hsb]. unfold unlog. cbn [img].
  rewrite Hbl, Hsb, Hfb. done.
Qed.

(** The entries of a directory whose bytes are the entries one after another. *)
Lemma entries_mjoin es : Forall (fun e => length e = 16%nat) es -> entries (mjoin es) = es.
Proof.
  induction 1 as [|e es He Hes IH]; [done|]. change (mjoin (e :: es)) with (e ++ mjoin es).
  rewrite <- IH at 2. unfold entries. rewrite length_app, He.
  replace ((16 + length (mjoin es)) / 16)%nat with (S (length (mjoin es) / 16)) by (rewrite <- (Nat.div_add_l 1 16) by lia; f_equal; lia).
  cbn [seq]. rewrite fmap_cons. f_equal.
  - unfold entry. rewrite drop_0, take_app_length' by done. done.
  - rewrite <- seq_shift. change (map S) with (fmap (M := list) S). rewrite <- list_fmap_compose. apply list_fmap_ext. intros k x _.
    cbn [compose]. unfold entry. replace (16 * S x)%nat with (length e + 16 * x)%nat by lia. rewrite <- drop_drop, drop_app_length. done.
Qed.

Lemma find_entry_zeros name q : forall k, find_entry name (replicate q (replicate 16 0)) k = None.
Proof. induction q as [|q IH]; intros k; [done|]. cbn [replicate find_entry]. rewrite decide_False by (intros [H _]; by apply H). apply IH. Qed.

Lemma dir_entries_16 hs : forall base, Forall (fun e => length e = 16%nat) (dir_entries base hs).
Proof. induction hs as [|h hs IH]; intros base; constructor; [apply length_new_entry|apply IH]. Qed.

Lemma root_entries_16 hs : Forall (fun e => length e = 16%nat) (root_entries hs).
Proof. unfold root_entries. do 2 (constructor; [apply length_new_entry|]). apply dir_entries_16. Qed.

Lemma mjoin_zeros q : mjoin (replicate q (replicate 16 0)) = replicate (16 * q) (0 : Z).
Proof.
  induction q as [|q IH]; [done|]. change (mjoin (replicate (S q) ?x)) with (x ++ mjoin (replicate q x)).
  rewrite IH, <- replicate_add. f_equal. lia.
Qed.

(** Padding with zeros adds no name. *)
Lemma find_entry_padded name hs q :
  find_entry name (entries (mjoin (root_entries hs) ++ replicate (16 * q) 0)) 0 = find_entry name (root_entries hs) 0.
Proof.
  rewrite <- mjoin_zeros, <- join_app, entries_mjoin.
  - rewrite find_entry_app, find_entry_zeros. by destruct (find_entry name (root_entries hs) 0).
  - apply Forall_app. split; [apply root_entries_16|]. apply Forall_replicate. by rewrite length_replicate.
Qed.

(** ** What is on the image *)

(** The disk [s] holds the files [hs]: the root directory is inode 1, with inode
    [dr], and the files are the next inodes, [ds]; the blocks below [fb] are in
    use. *)
Record image_of (s : bstate) (fb : Z) (dr : dinode) (ds : list dinode) (hs : list hostfile) : Prop := ImageOf {
  io_fs : fs_ok s;
  io_used : forall x, 0 <= x < 1000 -> used s x = true <-> x < fb;
  io_root : inode_ok s (as_inode 1 dr) /\ fields_ok (as_inode 1 dr) /\ synced s (as_inode 1 dr) /\
    din_type dr = T_DIR /\ din_nlink dr = 1;
  io_rsize : din_size dr = (16 * (2 + Z.of_nat (length hs)) / BSIZE + 1) * BSIZE;
  io_names : forall name,
    find_entry name (entries (contents s (as_inode 1 dr))) 0 = find_entry name (root_entries hs) 0;
  io_dense : (2 + Z.of_nat (length hs)) mod 32 <> 0 -> file_ok s (as_inode 1 dr);
  io_hole : (2 + Z.of_nat (length hs)) mod 32 = 0 -> addr_of s (as_inode 1 dr) (din_size dr / BSIZE - 1) = 0;
  io_files : Forall2 (fun h d => din_type d = T_FILE /\ din_nlink d = 1) hs ds;
  io_file : forall k h d, hs !! k = Some h -> ds !! k = Some d ->
    let i := as_inode (num (S k)) d in
    file_ok s i /\ fields_ok i /\ synced s i /\ contents s i = bytes_of h;
  io_apart : forall k k' d d', (dr :: ds) !! k = Some d -> (dr :: ds) !! k' = Some d' -> k <> k' ->
    apart s (as_inode (num k) d) (as_inode (num k') d');
  io_owned : forall x, 59 <= x < fb -> exists k d, (dr :: ds) !! k = Some d /\ owns s (as_inode (num k) d) x;
  io_free : forall n, num (S (length hs)) <= n < 200 -> synced s (as_inode n dzero)
}.

(** The root directory with its size rounded up. *)
Section resize.
Context (s : bstate) (root : node) (size' : Z) (Hf : fs_ok s) (Hsb : sb s = sb0) (Hg : good s 1 root).
Context (Hsize : din_size (nd root) <= size' <= MAXFILE * BSIZE).

Let i' := as_inode 1 (set_din_size size' (nd root)).
Let s' := stored s (IBLOCK 1 (sb s)) (put_dinode s i').

Lemma resize_table : 0 <= 1 < sb_ninodes (sb s).
Proof. by rewrite Hsb. Qed.

Lemma resize_fields : fields_ok i'.
Proof.
  destruct (g_fields _ _ _ Hg) as [F1 F2 F3 F4 F5 F6 F7]. constructor; try done.
  assert (HM : MAXFILE * BSIZE < 2 ^ 32) by done. pose proof (g_size _ _ _ Hg). unfold in_u32. cbn [i' isize as_inode set_din_size din_size]. lia.
Qed.

Lemma resize_len : length (put_dinode s i') = Z.to_nat BSIZE.
Proof. apply length_put_dinode; [done|exact resize_table|]. apply (d_len _ resize_fields). Qed.

Lemma resize_ok :
  fs_ok s' /\ (forall x, 0 <= x < sb_size (sb s) -> used s' x = used s x) /\ synced s' i' /\
  inode_ok s' i' /\ (forall k, addr_of s' i' k = addr_of s (as_inode 1 (nd root)) k) /\
  contents s' i' = nc root ++ replicate (Z.to_nat (size' - din_size (nd root))) 0.
Proof.
  pose proof resize_table as Ht. pose proof resize_len as Hl. pose proof (fo_ino _ _ (g_file _ _ _ Hg)) as Hi.
  destruct (stored_iblock s 1 _ Hf Ht Hl) as (Hf' & Hu & _ & _).
  destruct (stored_iblock_file s 1 _ _ Hf Ht Hl Hi) as (Hi' & Ha & Hb). fold s' in Hf', Hu, Hi', Ha, Hb.
  pose proof (g_size _ _ _ Hg) as Hsz.
  split; [done|]. split; [done|]. split; [|split; [|split; [done|]]].
  - unfold synced. change (inum i') with 1. change (sb s') with (sb s). unfold s'.
    pose proof (iblock_range s 1 Hf Ht). pose proof (f_len _ Hf). rewrite block_stored, decide_True by (done || lia).
    apply load_put_dinode; [done|exact Ht|apply resize_fields].
  - destruct Hi'. by constructor.
  - change (contents s' i') with (fbytes s' (as_inode 1 (nd root)) 0 size').
    replace size' with (din_size (nd root) + (size' - din_size (nd root))) at 1 by lia. rewrite fbytes_app, Z.add_0_l by lia. f_equal.
    + rewrite <- (g_bytes _ _ _ Hg). apply contents_ext; [done|apply (fo_size _ _ (g_file _ _ _ Hg))|exact Hb].
    + apply list_eq. intros j. destruct (decide (j < Z.to_nat (size' - din_size (nd root)))%nat) as [Hj|Hj].
      * rewrite fbytes_lookup, lookup_replicate_2 by done. f_equal. rewrite Hb by lia. apply (g_tail _ _ _ Hg). lia.
      * rewrite !(proj2 (lookup_ge_None _ _)); rewrite ?length_replicate, ?length_fbytes; [done|lia|lia].
Qed.

(** The other inodes. *)
Lemma resize_other n f :
  0 <= n < 200 -> n <> 1 -> good s n f -> good s' n f /\ forall x, owns s' (as_inode n (nd f)) x <-> owns s (as_inode n (nd f)) x.
Proof.
  intros Hn Hne Hgf. pose proof resize_table as Ht. pose proof resize_len as Hl.
  destruct (stored_iblock_file s 1 _ _ Hf Ht Hl (fo_ino _ _ (g_file _ _ _ Hgf))) as (Hi' & Ha & Hb). fold s' in Hi', Ha, Hb.
  split; [|intros x; by apply owns_same]. apply (good_same s); try done.
  apply (synced_other s i'); try done; [unfold in_table; by rewrite Hsb|apply (d_len _ resize_fields)|apply Hgf].
Qed.

Lemma resize_free n : 0 <= n < 200 -> n <> 1 -> synced s (as_inode n dzero) -> synced s' (as_inode n dzero).
Proof.
  intros Hn Hne. apply (synced_other s i'); try done; [exact resize_table|unfold in_table; by rewrite Hsb|apply (d_len _ resize_fields)].
Qed.

(** The blocks of the files, in the list of the inodes. *)
Lemma resize_owns fs :
  (forall k f, fs !! k = Some f -> good s (num (S k)) f /\ num (S k) < 200) ->
  (forall k f, (root :: fs) !! k = Some f ->
     exists d, (set_din_size size' (nd root) :: (nd <$> fs)) !! k = Some d /\
     forall x, owns s' (as_inode (num k) d) x <-> owns s (ino k f) x) /\
  (forall k d, (set_din_size size' (nd root) :: (nd <$> fs)) !! k = Some d ->
     exists f, (root :: fs) !! k = Some f /\ forall x, owns s' (as_inode (num k) d) x <-> owns s (ino k f) x).
Proof.
  intros Hfs. destruct resize_ok as (_ & _ & _ & _ & Ha & _).
  assert (Hown : forall k f, (root :: fs) !! k = Some f ->
    exists d, (set_din_size size' (nd root) :: (nd <$> fs)) !! k = Some d /\
    forall x, owns s' (as_inode (num k) d) x <-> owns s (ino k f) x).
  { intros [|k] f Hk.
    - injection Hk as <-. eexists; split; [reflexivity|]. intros x. unfold owns. change (as_inode (num 0) _) with i'. by setoid_rewrite Ha.
    - exists (nd f). change (fs !! k = Some f) in Hk. split.
      { change ((nd <$> fs) !! k = Some (nd f)). by rewrite list_lookup_fmap, Hk. }
      destruct (Hfs k f Hk) as [Hgf Hlt]. apply (resize_other (num (S k)) f); [unfold num in *; lia|unfold num; lia|done]. }
  split; [done|]. intros k d Hk. destruct (lookup_lt_is_Some_2 (root :: fs) k) as [f Hkf].
  { apply lookup_lt_Some in Hk. cbn [length] in *. by rewrite length_fmap in Hk. }
  destruct (Hown k f Hkf) as (d' & Hd' & Ho). rewrite Hk in Hd'. injection Hd' as <-. by exists f.
Qed.

End resize.

Lemma length_root hs : length (mjoin (root_entries hs)) = (16 * (2 + length hs))%nat.
Proof.
  unfold root_entries. change (mjoin (?x :: ?y :: ?l)) with (x ++ y ++ mjoin l).
  rewrite !length_app, !length_new_entry, length_dir_entries. lia.
Qed.

(** The blocks of the root directory after its size was rounded up. *)
Lemma root_blocks s root hs size' (s' : bstate) :
  good s 1 root -> nc root = mjoin (root_entries hs) -> size' = (16 * (2 + Z.of_nat (length hs)) / BSIZE + 1) * BSIZE ->
  let i' := as_inode 1 (set_din_size size' (nd root)) in
  inode_ok s' i' -> size' <= MAXFILE * BSIZE -> (forall k, addr_of s' i' k = addr_of s (as_inode 1 (nd root)) k) ->
  ((2 + Z.of_nat (length hs)) mod 32 <> 0 -> file_ok s' i') /\
  ((2 + Z.of_nat (length hs)) mod 32 = 0 -> addr_of s' i' (size' / BSIZE - 1) = 0).
Proof.
  intros Hg Hroot -> i' Hi Hmax Ha. pose proof (g_size _ _ _ Hg) as Hsz. rewrite Hroot, length_root in Hsz.
  pose proof (t_addr _ _ _ (g_tight _ _ _ Hg)) as Ht. rewrite Hsz in Ht. unfold BSIZE in *. split; intros Hmod.
  - constructor; [done|cbn [i' isize as_inode set_din_size din_size]; split; [|done]; Z.div_mod_to_equations; lia|].
    intros k Hk Hlt. cbn [i' isize as_inode set_din_size din_size] in Hlt. rewrite Ha, Ht by done. unfold BSIZE in *.
    Z.div_mod_to_equations. lia.
  - rewrite Z.div_mul by done. rewrite Ha, Ht; [Z.div_mod_to_equations; lia|].
    unfold in_file, MAXFILE, NDIRECT, NINDIRECT in *. Z.div_mod_to_equations. lia.
Qed.

Lemma finish_image m root fs hs :
  built m (root :: fs) -> nc root = mjoin (root_entries hs) -> like (fresh T_DIR) root ->
  Forall2 (fun h f => nc f = bytes_of h /\ like (fresh T_FILE) f) hs fs ->
  exists m' dr, finish m 1 = Ok m' /\ image_of (Bstate (img m') sb0 [] []) (freeblock m') dr (nd <$> fs) hs.
Proof.
  intros Hb Hroot Hlr Hfs. pose proof (Forall2_length _ _ _ Hfs) as Hlen. pose proof (bu_most _ _ Hb) as Hmost.
  cbn [length] in Hmost. pose proof (length_root hs) as Hlroot. pose proof (bu_file _ _ Hb 0 root eq_refl) as Hg.
  change (num 0) with 1 in Hg. pose proof (g_size _ _ _ Hg) as Hsz. rewrite Hroot, Hlroot in Hsz.
  pose proof (bu_fs _ _ Hb) as Hf. assert (Hsb : sb (kern m) = sb0) by done.
  destruct (finish_Ok m root fs Hb) as (m' & Ef & Hfb & Es); [rewrite Hroot, Hlroot; unfold BSIZE; lia|].
  rewrite Hroot, Hlroot in Es. replace (Z.of_nat (16 * (2 + length hs))) with (16 * (2 + Z.of_nat (length hs))) in Es by lia.
  set (size' := (16 * (2 + Z.of_nat (length hs)) / BSIZE + 1) * BSIZE) in Es.
  assert (Hsize : din_size (nd root) <= size' <= MAXFILE * BSIZE).
  { rewrite Hsz. unfold size', MAXFILE, NDIRECT, NINDIRECT, BSIZE. Z.div_mod_to_equations. lia. }
  destruct (resize_ok (kern m) root size' Hf Hsb Hg Hsize) as (Hf' & Hu & Hsy & Hi & Ha & Hc).
  pose proof (resize_other (kern m) root size' Hf Hsb Hg Hsize) as Hoth.
  pose proof (resize_free (kern m) root size' Hf Hsb Hg Hsize) as Hfree.
  destruct (resize_owns (kern m) root size' Hf Hsb Hg Hsize fs) as [Hown Hback].
  { intros k f Hk. split; [by apply (bu_file _ _ Hb (S k) f)|apply (num_range m (root :: fs) (S k) f Hb Hk)]. }
  pose proof (resize_fields (kern m) root size' Hg Hsize) as Hfl.
  set (s' := stored (kern m) _ _) in *. set (i' := as_inode 1 (set_din_size size' (nd root))) in *.
  destruct (root_blocks (kern m) root hs size' s' Hg Hroot eq_refl Hi ltac:(lia) Ha) as [Hdense Hhole].
  exists m', (set_din_size size' (nd root)). split; [done|]. rewrite Es, Hfb. constructor.
  - by apply fs_ok_unlog.
  - intros x Hx. change (used (unlog s') x) with (used s' x). rewrite Hu by done.
    rewrite (used_sees _ _ (kern_sees m) (bu_image _ _ Hb)) by done. apply bool_decide_eq_true.
  - destruct Hlr as (E1 & _ & _ & E4). split; [by apply inode_ok_unlog|]. done.
  - done.
  - intros name. change (contents (unlog s') _) with (contents s' i'). rewrite Hc, Hroot, Hsz.
    replace (Z.to_nat (size' - Z.of_nat (16 * (2 + length hs)))) with
      (16 * Z.to_nat ((size' - Z.of_nat (16 * (2 + length hs))) / 16))%nat; [by apply find_entry_padded|].
    unfold size', BSIZE. Z.div_mod_to_equations. lia.
  - intros Hmod. destruct (Hdense Hmod) as [D1 D2 D3]. constructor; [by apply inode_ok_unlog|done|done].
  - exact Hhole.
  - rewrite Forall2_fmap_r. eapply Forall2_impl; [exact Hfs|]. intros h f [_ (E1 & _ & _ & E4)]. done.
  - intros k h d Hh Hd. rewrite list_lookup_fmap in Hd. destruct (fs !! k) as [f|] eqn:Hk; [|done]. injection Hd as <-.
    pose proof (num_range m (root :: fs) (S k) f Hb Hk).
    destruct (Hoth (num (S k)) f) as [Hgf _]; [lia|unfold num; lia|by apply (bu_file _ _ Hb (S k) f)|].
    apply good_unlog in Hgf. split; [apply Hgf|]. split; [apply Hgf|]. split; [apply Hgf|].
    rewrite (g_bytes _ _ _ Hgf). exact (proj1 (Forall2_lookup_lr _ _ _ _ _ _ Hfs Hh Hk)).
  - intros k k' d d' Hk Hk' Hne x Hx Hx'. destruct (Hback k d Hk) as (f & Hkf & Ho). destruct (Hback k' d' Hk') as (f' & Hkf' & Ho').
    apply (bu_apart _ _ Hb k k' f f' Hkf Hkf' Hne x); [by apply Ho|by apply Ho'].
  - intros x Hx. destruct (bu_leak _ _ Hb x Hx) as (k & f & Hk & Ho). destruct (Hown k f Hk) as (d & Hd & Hiff).
    exists k, d. split; [done|]. by apply Hiff.
  - intros n Hn. unfold num in *. apply Hfree; [lia|lia|]. apply (bu_free _ _ Hb). cbn [length]. unfold num. lia.
Qed.

Lemma main_image argc hs :
  2 <= argc -> Forall host_ok hs -> (length hs < 199)%nat ->
  59 + nblk (16 * (2 + Z.of_nat (length hs))) + need hs <= 1000 ->
  exists m dr ds, main argc true hs = Ok m /\ image_of (Bstate (img m) sb0 [] []) (freeblock m) dr ds hs.
Proof.
  intros Hargc Hok Hn Hfit. unfold main. rewrite (proj2 (Z.ltb_ge _ _)) by lia.
  change (c_assert (BSIZE mod DINODE =? 0)) with (Ok tt). change (c_assert (BSIZE mod DIRENT =? 0)) with (Ok tt). run.
  destruct make_root_built as (m0 & r0 & -> & Hb0 & Hc0 & Hl0). run.
  assert (Hlen0 : length (nc r0) = 32%nat) by (by rewrite Hc0).
  destruct (add_files_built hs m0 r0 [] Hb0 Hok) as (m1 & r1 & fs & -> & Hb1 & Hc1 & Hl1 & Hfs); rewrite ?Hlen0; cbn [length]; try lia.
  { unfold MAXFILE, NDIRECT, NINDIRECT, BSIZE. lia. }
  { rewrite (bu_count _ _ Hb0). change (blocks_of [r0]) with (nblk (Z.of_nat (length (nc r0))) + 0). rewrite Hlen0.
    replace (Z.of_nat 32 + 16 * Z.of_nat (length hs)) with (16 * (2 + Z.of_nat (length hs))) by lia. lia. }
  run. destruct (finish_image m1 r1 fs hs Hb1) as (m & dr & -> & Him); [|by eapply like_trans|done|].
  - rewrite Hc1, Hc0. done.
  - by exists m, dr, (nd <$> fs).
Qed.

(** ** Theorems *)

(** C12: [iappend] of mkfs.c is [writei] of the kernel at the end of the file.  On
    an image under construction the program and the kernel, run on the disk that
    the image would be with its bit map written ([sees]), take the same blocks in
    the same order and leave the same disk: the bytes are appended, the inode on
    disk is current, the other files and inodes are as before ([written]). *)
Theorem iappend_is_writei dev_write s m n din p :
  appendable s m n din p ->
  let cnt := Z.of_nat (length p) in
  exists m' din' s', iappend m n p cnt = Ok m' /\
    writei dev_write s (as_inode n din) p (din_size din) cnt = Ok (cnt, as_inode n din', s') /\
    sees s' m' /\ image_ok m' /\ freeinode m' = freeinode m /\
    freeblock m' = freeblock m + (nblk (din_size din + cnt) - nblk (din_size din)) /\
    written s (as_inode n din) (din_size din) p s' (as_inode n din').
Proof.
  intros Ha cnt. destruct (iappend_sees dev_write s m n din p Ha) as (m' & din1 & s1 & s' & E & Ew & [H1 H2 H3 H4] & Hw & _).
  exists m', (set_din_size (din_size din + cnt) din1), s'. split; [done|]. split; [done|]. split; [done|]. split; [done|].
  split; [done|]. split; [|done]. rewrite H3. pose proof (fo_size _ _ (ap_file _ _ _ _ _ Ha)) as Hs.
  change (isize (as_inode n din)) with (din_size din) in Hs. fold cnt.
  pose proof (nblk_mono (din_size din) (din_size din + cnt) ltac:(lia)). lia.
Qed.

(** C11: mkfs makes the file system it should.  When the files named on its command
    line can be read and fit on the disk, [main] succeeds, and the kernel finds on
    the image a well-formed disk that holds exactly these files: each one in the
    inode of its turn, with its bytes, found in the root directory under its name
    without the leading underscore, next to "." and ".."; no block is shared, the
    bit map marks the metadata and the blocks of the files and nothing else, and
    the other inodes are free ([image_of]). *)
Theorem mkfs_image argc hs :
  2 <= argc -> Forall host_ok hs -> (length hs < 199)%nat ->
  59 + nblk (16 * (2 + Z.of_nat (length hs))) + need hs <= 1000 ->
  exists m dr ds, main argc true hs = Ok m /\ image_of (Bstate (img m) sb0 [] []) (freeblock m) dr ds hs.
Proof. apply main_image. Qed.

Definition demo_hosts : list hostfile :=
  [Hostfile [95; 114; 109; 0] (Some [[7; 8; 9]; [10]]); Hostfile [97; 0] (Some [])].

Lemma demo_hosts_ok : Forall host_ok demo_hosts.
Proof.
  constructor; [|constructor; [|constructor]]; constructor; try (by apply (bool_decide_unpack _)).
  - exists [[7; 8; 9]; [10]]. split; [done|]. by repeat constructor.
  - exists []. split; [done|]. constructor.
Qed.

Lemma iappend_is_writei_witness :
  exists m m' s', appendable (kern m) m 1 (nd (fresh T_FILE)) [7; 8; 9] /\ iappend m 1 [7; 8; 9] 3 = Ok m' /\ sees s' m'.
Proof.
  destruct (ialloc_built empty_image [] T_FILE empty_built) as (m & _ & Hb); [cbn [length]; lia|unfold T_FILE; lia|].
  assert (Ha : appendable (kern m) m 1 (nd (fresh T_FILE)) [7; 8; 9]).
  { apply (built_appendable m [fresh T_FILE] 0 (fresh T_FILE) [7; 8; 9] Hb eq_refl); [done|by vm_compute|].
    rewrite (bu_count _ _ Hb). by vm_compute. }
  destruct (iappend_is_writei (fun _ => None) (kern m) m 1 (nd (fresh T_FILE)) [7; 8; 9] Ha) as (m' & din' & s' & E & _ & Hs & _).
  by exists m, m', s'.
Defined.

Lemma mkfs_image_witness :
  exists m dr ds, main 4 true demo_hosts = Ok m /\ image_of (Bstate (img m) sb0 [] []) (freeblock m) dr ds demo_hosts /\
    find_entry [114; 109; 0] (entries (contents (Bstate (img m) sb0 [] []) (as_inode 1 dr))) 0 = Some (2, 2).
Proof.
  destruct (mkfs_image 4 demo_hosts ltac:(lia) demo_hosts_ok ltac:(cbn [length demo_hosts]; lia) ltac:(by vm_compute))
    as (m & dr & ds & E & Him).
  exists m, dr, ds. split; [exact E|]. split; [exact Him|]. rewrite (io_names _ _ _ _ _ Him). reflexivity.
Defined.
