(* ===== verification/Xv6Mkboot.v ===== *)
(** From the image of mkfs.c to a file read by the kernel: [iinit] on the image,
    [namei] of a path, [ilock] and [readi]. *)

From S2P Require Import Prelude Bytes Xv6Locks Xv6String Xv6Fs Xv6Bitmap Xv6Inode Xv6Dinode Xv6Content Xv6Trunc Xv6Files Xv6Dir Xv6Path Xv6Icache Xv6Dirs Xv6Mkfs Xv6Mkimage Xv6Mkfiles Xv6Mkmain.
Import Mkfs.

(** ** An inode in memory *)

(** The kernel's copy of inode [n], with [r] references and lock [lk]. *)
Definition mem (n r : Z) (lk : sleeplock) (d : dinode) : inode :=
  set_ref r (set_islock lk (as_inode n d)).

Lemma load_mem data n d i :
  load_dinode data (as_inode n d) = Ok (set_valid 1 (as_inode n d)) -> inum i = n -> idev i = ROOTDEV ->
  load_dinode data i = Ok (mem n (iref i) (islock i) d).
Proof.
  intros H Hn Hd. unfold load_dinode in *. cbn [as_inode inum] in H. rewrite Hn, Hd.
  repeat match goal with
    | H : buf_load ?b ?o ?k ≫= _ = _ |- _ => destruct (buf_load b o k); [run|discriminate H]; cbn [mbind res_bind] in H
    end.
  destruct (words_from _ _ _) as [ws|] eqn:Ew; [|discriminate H]. cbn [mbind res_bind] in H.
  injection H as -> -> -> -> -> ->. done.
Qed.

Lemma contents_mem s n r lk d : contents s (mem n r lk d) = contents s (as_inode n d).
Proof. unfold contents, fbytes, fbyte, addr_of, ind_of. cbn [mem set_ref set_islock as_inode addrs isize]. reflexivity. Qed.

Lemma file_mem s n r lk d : file_ok s (as_inode n d) -> file_ok s (mem n r lk d).
Proof. intros [[H1 H2 H3 H4 H5] Hs Hd]. constructor; [by constructor|done|done]. Qed.

(** ** Names *)

Lemma upto0_split l : 0 ∈ l -> exists rest, l = upto0 l ++ 0 :: rest /\ 0 ∉ upto0 l.
Proof.
  induction l as [|c l IH]; intros H; [by apply elem_of_nil in H|]. cbn [upto0].
  destruct (Z.eqb_spec c 0) as [->|Hc]; [exists l; split; [done|apply not_elem_of_nil]|].
  apply elem_of_cons in H as [H|H]; [congruence|]. destruct (IH H) as (rest & E & Hn).
  exists rest. split; [cbn [app]; by f_equal|]. apply not_elem_of_cons. split; [congruence|done].
Qed.

Lemma upto0_ended e rest : 0 ∉ e -> upto0 (e ++ 0 :: rest) = e.
Proof.
  induction e as [|c e IH]; intros H; [done|]. apply not_elem_of_cons in H as [Hc He]. cbn [app upto0].
  rewrite (proj2 (Z.eqb_neq _ _)) by congruence. by rewrite IH.
Qed.

(** The name buffer holds the same name as the path. *)
Lemma cname_in_name e rest nm : 0 ∉ e -> cname (in_name e nm) = cname (e ++ 0 :: rest).
Proof.
  intros H0. unfold in_name, cname. case_decide as Hl.
  - rewrite take_take, Nat.min_id. by rewrite take_app_le.
  - rewrite !take_app_ge by lia. destruct (DIRSIZ - length e)%nat as [|k] eqn:E; [lia|].
    cbn [take]. by rewrite !upto0_ended.
Qed.

Lemma find_entry_cname a b es : cname a = cname b -> forall k, find_entry a es k = find_entry b es k.
Proof. intros E. induction es as [|e es IH]; intros k; cbn [find_entry]; [done|]. by rewrite E, IH. Qed.

Lemma name_of_slash h : host_ok h -> SLASH ∉ upto0 (name_of h).
Proof.
  intros [_ Hs _ _]. unfold name_of. case_decide as E; [|done]. destruct (arg h) as [|c l]; [done|].
  injection E as ->. cbn [drop]. cbn [upto0 Z.eqb UNDERSCORE] in Hs. by apply not_elem_of_cons in Hs as [_ ?].
Qed.

(** File [k] is the first one with its name. *)
Record first_named (hs : list hostfile) (k : nat) (h : hostfile) : Prop := FirstNamed {
  fn_at : hs !! k = Some h;
  fn_dot : cname (name_of h) <> cname dot;
  fn_dot2 : cname (name_of h) <> cname dot2;
  fn_first : forall (j : nat) g, (j < k)%nat -> hs !! j = Some g -> cname (name_of h) <> cname (name_of g)
}.

Lemma find_dir_entries hs h : forall k base pos,
  hs !! k = Some h -> (forall (j : nat) g, (j < k)%nat -> hs !! j = Some g -> cname (name_of h) <> cname (name_of g)) ->
  Z.of_nat (base + k) + 2 < 65536 ->
  find_entry (name_of h) (dir_entries base hs) pos = Some (pos + Z.of_nat k, num (S (base + k))).
Proof.
  induction hs as [|g hs IH]; intros k base pos Hk Hfirst Hb; [done|]. cbn [dir_entries find_entry].
  rewrite cname_new_entry, inum_new_entry by (unfold num; lia). destruct k as [|k].
  - injection Hk as ->. rewrite decide_True by (split; [unfold num; lia|done]). rewrite Nat.add_0_r. do 2 f_equal. lia.
  - rewrite decide_False by (intros [_ E]; by apply (Hfirst 0%nat g ltac:(lia) eq_refl)).
    rewrite (IH k); [|done|intros j g' Hj; apply (Hfirst (S j)); lia|lia].
    replace (S base + k)%nat with (base + S k)%nat by lia. do 2 f_equal. lia.
Qed.

Lemma find_root_entry hs k h :
  first_named hs k h -> (length hs < 199)%nat ->
  find_entry (name_of h) (root_entries hs) 0 = Some (2 + Z.of_nat k, num (S k)).
Proof.
  intros [Hk Hd Hd2 Hfirst] Hn. pose proof (lookup_lt_Some _ _ _ Hk). unfold root_entries. cbn [find_entry].
  rewrite !cname_new_entry, !decide_False by tauto. change (0 + 1 + 1) with 2. by rewrite (find_dir_entries hs h k 0 2) by (done || lia).
Qed.

(** ** The search of [iget] *)

Lemma scan_cons dev n i l k e :
  iget_scan dev n (i :: l) k e =
    if hit dev n i then inl k
    else iget_scan dev n l (k + 1) (match e with None => if iref i =? 0 then Some k else None | e => e end).
Proof. reflexivity. Qed.

Lemma scan_spare dev n q : forall k e,
  iget_scan dev n (replicate q spare) k e = inr (match e, q with None, S _ => Some k | _, _ => e end).
Proof.
  induction q as [|q IH]; intros k e; [by destruct e|]. cbn [replicate]. rewrite scan_cons.
  change (hit dev n spare) with false. cbn iota. rewrite IH. by destruct e.
Qed.

Lemma miss_other n' dev n r lk d : n' <> n -> hit dev n (mem n' r lk d) = false.
Proof. intros Hne. unfold hit. cbn [mem set_ref set_islock as_inode inum]. by rewrite (proj2 (Z.eqb_neq _ _) Hne), andb_false_r. Qed.

Section boot.
Context (me cwd : Z) (dev_read : Z -> option (Z -> Z * list Z)).

(** Locking an inode that was not loaded yet. *)
Lemma ilock_load s (p : nat) i n d :
  icache s !! p = Some i -> 1 <= iref i -> islock i = initsleeplock -> ivalid i = 0 -> inum i = n -> idev i = ROOTDEV ->
  fs_ok (fb s) -> held (fb s) = [] -> 0 <= n < sb_ninodes (sb (fb s)) -> synced (fb s) (as_inode n d) -> din_type d <> 0 ->
  ilock me s (Z.of_nat p) = Ok (Fstate (fb s) (<[p := mem n (iref i) (Sleeplock 1 me) d]> (icache s))).
Proof.
  intros Hp Hr Hl Hv Hn Hd Hf Hh Hin Hsy Hty. unfold ilock. rewrite (iat_Ok s p i Hp). run.
  rewrite (proj2 (Z.ltb_ge _ _)), Hl by lia. change (acquiresleep me initsleeplock) with (Ok (Sleeplock 1 me)). run.
  change (ivalid (set_islock _ i)) with (ivalid i). rewrite Hv. change (0 =? 0) with true. cbn iota.
  change (inum (set_islock _ i)) with (inum i). rewrite Hn.
  pose proof (iblock_range (fb s) n Hf Hin). destruct (block_lookup (fb s) (IBLOCK n (sb (fb s))) Hf) as [Hb _]; [lia|].
  assert (Hnh : IBLOCK n (sb (fb s)) ∉ held (fb s)) by (rewrite Hh; apply not_elem_of_nil).
  rewrite (get_buf_Ok (fb s) _ _ Hnh ltac:(lia) Hb). run.
  rewrite (load_mem (block (fb s) (IBLOCK n (sb (fb s)))) n d (set_islock (Sleeplock 1 me) i) Hsy Hn Hd). run. rewrite put_buf_hold by done.
  rewrite (iset_Ok (set_fb (fb s) s) p i _ Hp). run. cbn [mem set_ref set_islock as_inode itype].
  by rewrite (proj2 (Z.eqb_neq _ _) Hty).
Qed.

(** Unlocking and releasing the only reference to a linked inode. *)
Lemma iunlockput_mem s (p : nat) n d :
  icache s !! p = Some (mem n 1 (Sleeplock 1 me) d) -> din_nlink d <> 0 ->
  iunlockput me s (Z.of_nat p) = Ok (Fstate (fb s) (<[p := mem n 0 initsleeplock d]> (icache s))).
Proof.
  intros Hp Hnl. pose proof (lookup_lt_Some _ _ _ Hp) as Hlt. unfold iunlockput, iunlock. rewrite (iat_Ok s p _ Hp). run.
  unfold holdingsleep. cbn [mem set_ref set_islock as_inode islock iref locked lpid]. rewrite Z.eqb_refl.
  cbn [Z.eqb negb andb orb Z.ltb Z.compare Pos.compare Pos.compare_cont]. rewrite (iset_Ok s p _ _ Hp). run. unfold iput.
  rewrite (iat_Ok _ p (mem n 1 initsleeplock d)) by (apply list_lookup_insert_eq; done). run.
  change (acquiresleep me (islock (mem n 1 initsleeplock d))) with (Ok (Sleeplock 1 me)). run.
  cbn [mem set_ref set_islock as_inode ivalid inlink]. rewrite (proj2 (Z.eqb_neq _ _) Hnl), andb_false_r. run.
  rewrite (iset_Ok _ p (mem n 1 initsleeplock d)) by (apply list_lookup_insert_eq; done).
  cbn [set_fb fb icache]. by rewrite list_insert_insert_eq.
Qed.

(** ** Opening a file of the image *)

(** The kernel before [iinit]: an empty inode cache in front of the image. *)
Definition cold (m : mk) : fstate :=
  Fstate (Bstate (img m) (Superblock 0 0 0 0 0 0 0) [] []) (replicate NINODE spare).

Definition warm (m : mk) : fstate := Fstate (Bstate (img m) sb0 [] []) (replicate NINODE spare).

Lemma iinit_cold m : fs_ok (Bstate (img m) sb0 [] []) -> iinit (cold m) = Ok (warm m).
Proof.
  intros Hf. destruct (block_lookup _ 1 Hf) as [Hb _]; [change (sb_size (sb _)) with 1000; lia|].
  unfold iinit, readsb, cold. cbn [fb]. rewrite 
    (get_buf_Ok (Bstate (img m) (Superblock 0 0 0 0 0 0 0) [] []) 1 _ (not_elem_of_nil 1) ltac:(lia) Hb). run.
  pose proof (f_super _ Hf) as E. rewrite E. run. cbn [sb]. done.
Qed.

Section open.
Context (m : mk) (fbl : Z) (dr : dinode) (ds : list dinode) (hs : list hostfile).
Context (Him : image_of (Bstate (img m) sb0 [] []) fbl dr ds hs).
Context (Hn : (length hs < 199)%nat) (Hdense : (2 + Z.of_nat (length hs)) mod 32 <> 0).

Let b := Bstate (img m) sb0 [] [].

(** The root directory, loaded and locked in slot 0. *)
Definition at_root : fstate := Fstate b (mem 1 1 (Sleeplock 1 me) dr :: replicate 49 spare).

Lemma at_root_dir : dir_at at_root 0 (mem 1 1 (Sleeplock 1 me) dr).
Proof.
  destruct (io_root _ _ _ _ _ Him) as (_ & _ & _ & Hty & _). constructor; try done.
  - apply Him.
  - by apply file_mem, (io_dense _ _ _ _ _ Him).
  - cbn [mem set_ref set_islock as_inode isize]. rewrite (io_rsize _ _ _ _ _ Him). unfold BSIZE.
    exists (Z.to_nat ((16 * (2 + Z.of_nat (length hs)) / 512 + 1) * 32)). Z.div_mod_to_equations. lia.
Qed.

Lemma lock_root : exists s, iget (warm m) ROOTDEV ROOTINO = Ok (0, s) /\ ilock me s 0 = Ok at_root.
Proof.
  destruct (io_root _ _ _ _ _ Him) as (_ & _ & Hsy & Hty & _).
  exists (Fstate b (Inode ROOTDEV 1 1 initsleeplock 0 0 0 0 0 0 (replicate 13 0) :: replicate 49 spare)). split; [done|].
  change 0 with (Z.of_nat 0).
  rewrite (ilock_load _ 0 (Inode ROOTDEV 1 1 initsleeplock 0 0 0 0 0 0 (replicate 13 0)) 1 dr); try done.
  - apply Him.
  - by rewrite Hty.
Qed.

(** Inode [n] in slot 1, the root directory released. *)
Definition at_file (i : inode) : fstate := Fstate b (mem 1 0 initsleeplock dr :: i :: replicate 48 spare).

Definition unloaded (n : Z) : inode := Inode ROOTDEV n 1 initsleeplock 0 0 0 0 0 0 (replicate 13 0).

(** The directory search of [namex] for the name of file [k]. *)
Lemma lookup_root k h name :
  first_named hs k h -> named name -> cname name = cname (name_of h) ->
  exists s, dirlookup dev_read at_root 0 name = Ok (Some (1, 16 * (2 + Z.of_nat k)), s) /\
    iunlockput me s 0 = Ok (at_file (unloaded (num (S k)))).
Proof.
  intros Hk Hname E. destruct (io_root _ _ _ _ _ Him) as (_ & _ & _ & _ & Hnl).
  change 0 with (Z.of_nat 0) at 1. rewrite (dirlookup_Ok dev_read at_root 0 _ name at_root_dir Hname).
  change (Xv6Dir.fb at_root) with b. rewrite contents_mem.
  rewrite (io_names _ _ _ _ _ Him), (find_entry_cname _ _ _ E), (find_root_entry hs k h Hk Hn).
  exists (Fstate b (mem 1 1 (Sleeplock 1 me) dr :: unloaded (num (S k)) :: replicate 48 spare)).
  assert (Hget : iget at_root (idev (mem 1 1 (Sleeplock 1 me) dr)) (num (S k)) =
    Ok (1, Fstate b (mem 1 1 (Sleeplock 1 me) dr :: unloaded (num (S k)) :: replicate 48 spare))).
  { unfold iget. change (icache at_root) with (mem 1 1 (Sleeplock 1 me) dr :: replicate 49 spare).
    rewrite scan_cons, (miss_other 1) by (unfold num; lia). rewrite scan_spare. done. }
  rewrite Hget. run. split; [done|]. change 0 with (Z.of_nat 0) at 1. rewrite (iunlockput_mem _ 0 1 dr); [done|done|by rewrite Hnl].
Qed.

(** [namei] finds the file. *)
Lemma namei_file k h :
  first_named hs k h -> host_ok h -> upto0 (name_of h) <> [] ->
  namei me dev_read cwd (warm m) (SLASH :: name_of h) = Ok (Some 1, at_file (unloaded (num (S k)))).
Proof.
  intros Hk Hok Hne. destruct (upto0_split _ (name_of_ended h Hok)) as (rest & Ename & H0).
  set (e := upto0 (name_of h)) in *. pose proof (name_of_slash h Hok) as Hsl. fold e in Hsl.
  unfold namei, namex. change (aget (SLASH :: name_of h) 0) with (Ok SLASH). run. rewrite Z.eqb_refl.
  destruct lock_root as (s1 & -> & El). run. cbn [namex_loop].
  pose proof (skipelem_elements (SLASH :: e) rest (replicate DIRSIZ 0)) as Hskip.
  rewrite elements_slash, <- (app_nil_r e), (elements_piece e []), app_nil_r in Hskip by (done || by left).
  destruct Hskip as (l' & Es & _ & _ & _ & Hl'); [by apply not_elem_of_cons|done|].
  assert (l' = []) as -> by (by apply Hl'). cbn [app] in Es. rewrite <- Ename in Es. rewrite Es. run. rewrite El. run.
  change (iat at_root 0) with (Ok (mem 1 1 (Sleeplock 1 me) dr)). run.
  destruct (io_root _ _ _ _ _ Him) as (_ & _ & _ & Hty & _). change (itype (mem _ _ _ _)) with (din_type dr). rewrite Hty.
  change (negb (T_DIR =? T_DIR)) with false. cbn iota. change (aget (0 :: rest) 0) with (Ok 0). run. cbn [andb].
  destruct (lookup_root k h (in_name e (replicate DIRSIZ 0)) Hk) as (s2 & -> & Eu).
  - left. by rewrite length_in_name.
  - rewrite (cname_in_name e rest) by done. by rewrite <- Ename.
  - run. rewrite Eu. run. destruct (name_of h); [done|]. reflexivity.
Qed.

(** The file loaded and locked. *)
Definition at_open (n : Z) (d : dinode) : fstate := at_file (mem n 1 (Sleeplock 1 me) d).

Lemma open_made k h d :
  hs !! k = Some h -> ds !! k = Some d ->
  ilock me (at_file (unloaded (num (S k)))) 1 = Ok (at_open (num (S k)) d) /\
  forall off n, in_u32 off -> in_u32 n ->
    readi_at dev_read (at_open (num (S k)) d) 1 off n =
      if decide (off <= Z.of_nat (length (bytes_of h)) /\ off + n < 2 ^ 32) then
        Ok (Z.min n (Z.of_nat (length (bytes_of h)) - off), take (Z.to_nat n) (drop (Z.to_nat off) (bytes_of h)), at_open (num (S k)) d)
      else Ok (-1, [], at_open (num (S k)) d).
Proof.
  intros Hk Hd. destruct (io_file _ _ _ _ _ Him k h d Hk Hd) as (Hfile & _ & Hsy & Hc).
  destruct (Forall2_lookup_lr _ _ _ _ _ _ (io_files _ _ _ _ _ Him) Hk Hd) as [Hty _].
  pose proof (lookup_lt_Some _ _ _ Hk) as Hlt. pose proof (io_fs _ _ _ _ _ Him) as Hf. fold b in Hf, Hfile, Hsy, Hc. split.
  - change 1 with (Z.of_nat 1) at 1. rewrite (ilock_load _ 1 (unloaded (num (S k))) (num (S k)) d); try done.
    + change (sb_ninodes (sb _)) with 200. unfold num. lia.
    + by rewrite Hty.
  - intros off n Ho Hcnt. unfold readi_at. change 1 with (Z.of_nat 1).
    set (i := mem (num (S k)) 1 (Sleeplock 1 me) d). rewrite (iat_Ok (at_open (num (S k)) d) 1 i) by done. run.
    change (Xv6Dir.fb (at_open (num (S k)) d)) with b.
    rewrite (readi_segment dev_read b i off n Hf (file_mem _ _ _ _ _ Hfile)); try done; [|change (din_type d <> T_DEV); by rewrite Hty].
    assert (Ec : contents b i = bytes_of h) by (unfold i; by rewrite contents_mem). rewrite Ec.
    assert (Esz : isize i = Z.of_nat (length (bytes_of h))).
    { rewrite <- Hc, length_contents. change (isize (as_inode _ _)) with (din_size d). change (isize i) with (din_size d).
      pose proof (fo_size _ _ Hfile) as Hs. change (isize (as_inode _ _)) with (din_size d) in Hs. lia. }
    pose proof (iset_same (at_open (num (S k)) d) 1 i eq_refl) as Eset. change (Xv6Dir.fb (at_open (num (S k)) d)) with b in Eset.
    rewrite Esz. case_decide; run; by rewrite Eset.
Qed.

End open.

End boot.

(** C10: what goes into the image comes out of the kernel.  For a file given to
    mkfs whose name is the first of its kind, the kernel that starts on the image
    finds it: [iinit] reads the superblock, [namei] of a slash and the name
    returns an inode, [ilock] loads it, and [readi] returns the bytes of the file
    that was copied.  The number of entries of the root directory must not be a
    multiple of 32 (otherwise its last block is missing, see [io_hole]). *)
Theorem mkfs_round_trip me cwd dev_read argc hs k h :
  2 <= argc -> Forall host_ok hs -> (length hs < 199)%nat ->
  59 + nblk (16 * (2 + Z.of_nat (length hs))) + need hs <= 1000 ->
  (2 + Z.of_nat (length hs)) mod 32 <> 0 -> first_named hs k h -> upto0 (name_of h) <> [] ->
  exists m s1 ip s2 s3, main argc true hs = Ok m /\ iinit (cold m) = Ok s1 /\
    namei me dev_read cwd s1 (SLASH :: name_of h) = Ok (Some ip, s2) /\ ilock me s2 ip = Ok s3 /\
    forall off n, in_u32 off -> in_u32 n ->
      readi_at dev_read s3 ip off n =
        if decide (off <= Z.of_nat (length (bytes_of h)) /\ off + n < 2 ^ 32) then
          Ok (Z.min n (Z.of_nat (length (bytes_of h)) - off), take (Z.to_nat n) (drop (Z.to_nat off) (bytes_of h)), s3)
        else Ok (-1, [], s3).
Proof.
  intros Hargc Hok Hn Hfit Hdense Hk Hne.
  destruct (main_image argc hs Hargc Hok Hn Hfit) as (m & dr & ds & Hmain & Him).
  pose proof (proj1 (Forall_lookup _ _) Hok _ _ (fn_at _ _ _ Hk)) as Hh.
  destruct (lookup_lt_is_Some_2 ds k) as [d Hd].
  { rewrite <- (Forall2_length _ _ _ (io_files _ _ _ _ _ Him)). eapply lookup_lt_Some, Hk. }
  destruct (open_made me dev_read m _ dr ds hs Him Hn k h d (fn_at _ _ _ Hk) Hd) as [Hl Hr].
  exists m, (warm m), 1. eexists _, _. split; [done|]. split; [apply iinit_cold, Him|].
  split; [by apply (namei_file me cwd dev_read m _ dr ds hs Him Hn Hdense k h)|]. split; [exact Hl|exact Hr].
Qed.

Lemma mkfs_round_trip_witness :
  exists m s1 ip s2 s3, main 4 true demo_hosts = Ok m /\ iinit (cold m) = Ok s1 /\
    namei 7 (fun _ => None) 0 s1 [47; 114; 109; 0] = Ok (Some ip, s2) /\ ilock 7 s2 ip = Ok s3 /\
    readi_at (fun _ => None) s3 ip 1 100 = Ok (3, [8; 9; 10], s3).
Proof.
  assert (Hk : first_named demo_hosts 0 (Hostfile [95; 114; 109; 0] (Some [[7; 8; 9]; [10]]))).
  { constructor; [done|by apply (bool_decide_unpack _)|by apply (bool_decide_unpack _)|intros j g Hj; lia]. }
  destruct (mkfs_round_trip 7 0 (fun _ => None) 4 demo_hosts 0 _ ltac:(lia) demo_hosts_ok ltac:(cbn [length demo_hosts]; lia)
    ltac:(by vm_compute) ltac:(by apply (bool_decide_unpack _)) Hk ltac:(by apply (bool_decide_unpack _)))
    as (m & s1 & ip & s2 & s3 & Hm & Hi & Hn & Hl & Hr).
  exists m, s1, ip, s2, s3. split; [exact Hm|]. split; [exact Hi|]. split; [exact Hn|]. split; [exact Hl|].
  exact (Hr 1 100 ltac:(by apply (bool_decide_unpack _)) ltac:(by apply (bool_decide_unpack _))).
Defined.
