(* ===== verification/Xv6Namex.v ===== *)
(** Path lookup of xv6 ([namex] of fs.c) against a tree of directories.

    The tree is what the disk says: a directory maps names to inode numbers.
    [namei] walks it, and [nameiparent] walks to the last directory; neither
    waits for a lock of its own, and both keep the counts of the inode cache
    balanced on every way out. *)

From S2P Require Import Prelude Bytes Xv6Locks Xv6String Xv6Fs Xv6Bitmap Xv6Inode Xv6Dinode Xv6Content Xv6Trunc Xv6Files Xv6Dir Xv6Path Xv6Icache Xv6Dirs Xv6Mkfs Xv6Mkimage Xv6Mkfiles Xv6Mkmain Xv6Mkboot.
Import Mkfs.

(** ** Names and elements *)

Lemma cname_terminated e rest : 0 ∉ e -> cname (e ++ 0 :: rest) = cname e.
Proof.
  intros H0. unfold cname. destruct (decide (DIRSIZ <= length e)%nat); [by rewrite take_app_le|].
  rewrite take_app_ge, (take_ge e) by lia. destruct (DIRSIZ - length e)%nat as [|k] eqn:E; [lia|]. cbn [take].
  rewrite upto0_ended by done. symmetry. clear -H0. induction e as [|c e IH]; [done|].
  apply not_elem_of_cons in H0 as [Hc He]. cbn [upto0]. rewrite (proj2 (Z.eqb_neq _ _)) by congruence. by rewrite IH.
Qed.

Lemma elements_chars l e c : e ∈ elements l -> c ∈ e -> c ∈ l.
Proof.
  unfold elements. rewrite list_elem_of_filter. intros [_ H]. revert e H.
  induction l as [|a l IH]; intros e; cbn [split_slash].
  - rewrite list_elem_of_singleton. by intros -> ?.
  - case_if; [rewrite elem_of_cons; intros [->|H] Hc; [by apply elem_of_nil in Hc|right; by eapply IH]|].
    destruct (split_slash l) as [|e1 es]; rewrite elem_of_cons; intros [->|H] Hc.
    + apply list_elem_of_singleton in Hc as ->. left.
    + by apply elem_of_nil in H.
    + apply elem_of_cons in Hc as [->|Hc]; [left|right; eapply IH; [left|done]].
    + right. eapply IH; [right; exact H|done].
Qed.

Lemma length_elements l : (length (elements l) <= length l)%nat.
Proof.
  induction l as [|a l IH]; [done|]. destruct (decide (a = SLASH)) as [->|Ha]; [rewrite elements_slash; cbn; lia|].
  unfold elements in *. cbn [split_slash]. rewrite (proj2 (Z.eqb_neq _ _) Ha).
  destruct (split_slash_cons l) as (e & es & E). rewrite E in *. rewrite filter_cons_True by done.
  rewrite filter_cons in IH. case_decide; cbn [length] in *; lia.
Qed.

(** ** The tree on the disk *)

Section tree.
Context (b : bstate) (node : Z -> option dinode).

Definition names (n : Z) (d : dinode) : list (list Z) := entries (contents b (as_inode n d)).

(** The inodes in use, [node], are on the disk and have links, and the entries
    of directories name inodes in use. *)
Record tree_ok : Prop := TreeOk {
  t_fs : fs_ok b;
  t_held : held b = [];
  t_node : forall n d, node n = Some d -> 0 <= n < sb_ninodes (sb b) /\ synced b (as_inode n d) /\
    din_type d <> 0 /\ din_nlink d <> 0;
  t_dir : forall n d, node n = Some d -> din_type d = T_DIR ->
    file_ok b (as_inode n d) /\ exists m : nat, din_size d = 16 * Z.of_nat m;
  t_closed : forall n d name k n', node n = Some d -> din_type d = T_DIR ->
    find_entry name (names n d) 0 = Some (k, n') -> is_Some (node n');
  t_root : is_Some (node ROOTINO)
}.

Definition is_dir (n : Z) : bool := match node n with Some d => din_type d =? T_DIR | None => false end.

(** One step down: the entry with the name [e] in directory [n]. *)
Definition child (n : Z) (e : list Z) : option Z :=
  match node n with
  | Some d => if din_type d =? T_DIR then snd <$> find_entry e (names n d) 0 else None
  | None => None
  end.

(** Down along the elements of a path. *)
Fixpoint walk (n : Z) (es : list (list Z)) : option Z :=
  match es with
  | [] => Some n
  | e :: es' => match child n e with Some n' => walk n' es' | None => None end
  end.

(** The directory in which the last element of a path is looked up. *)
Definition walk_parent (n : Z) (es : list (list Z)) : option Z :=
  match es with
  | [] => None
  | _ => match walk n (removelast es) with Some m => if is_dir m then Some m else None | None => None end
  end.

Definition target (par : bool) (n : Z) (es : list (list Z)) : option Z :=
  if par then walk_parent n es else walk n es.

Lemma target_leaf par n e es : is_dir n = false -> target par n (e :: es) = None.
Proof.
  unfold is_dir, target. intros H. assert (Hc : child n e = None).
  { unfold child. destruct (node n); [|done]. by rewrite H. }
  destruct par; cbn [walk walk_parent]; [|by rewrite Hc].
  destruct es as [|e' es]; cbn [removelast walk]; [unfold is_dir; by rewrite H|by rewrite Hc].
Qed.

Lemma target_last n e : is_dir n = true -> target true n [e] = Some n.
Proof. intros H. cbn. by rewrite H. Qed.

Lemma target_next par n e es :
  (par = true -> es <> []) -> target par n (e :: es) = match child n e with Some n' => target par n' es | None => None end.
Proof.
  destruct par; [|done]. intros H. specialize (H eq_refl). destruct es as [|e' es]; [done|].
  cbn [target walk_parent]. change (removelast (e :: e' :: es)) with (e :: removelast (e' :: es)). cbn [walk].
  by destruct (child n e).
Qed.

(** ** The inode cache in front of the tree *)

Section cache.
Context (me : Z).

(** Entries that are referenced cache an inode of the tree, with its fields
    when they are loaded.  Nobody holds a lock but the running process, on the
    entry [open]. *)
Record cache_ok (open : option nat) (s : fstate) : Prop := CacheOk {
  c_fb : fb s = b;
  c_one : one_entry s;
  c_lock : forall p i, icache s !! p = Some i ->
    islock i = if decide (open = Some p) then Sleeplock 1 me else initsleeplock;
  c_live : forall p i, icache s !! p = Some i -> 0 < iref i -> idev i = ROOTDEV /\
    exists d, node (inum i) = Some d /\ (ivalid i = 0 \/ i = mem (inum i) (iref i) (islock i) d)
}.

Lemma cache_update open open' s (p : nat) i i' :
  cache_ok open s -> icache s !! p = Some i -> 0 <= iref i' < 2 ^ 31 - 1 -> reused s i i' ->
  islock i' = (if decide (open' = Some p) then Sleeplock 1 me else initsleeplock) ->
  (forall q, q <> p -> open = Some q <-> open' = Some q) ->
  (0 < iref i' -> idev i' = ROOTDEV /\
    exists d, node (inum i') = Some d /\ (ivalid i' = 0 \/ i' = mem (inum i') (iref i') (islock i') d)) ->
  cache_ok open' (Fstate b (<[p := i']> (icache s))).
Proof.
  intros [Hb Ho Hl Hv] Hp Hr Hre Hl' Hop Hv'. constructor; [done|by apply (one_entry_update s p i)| |]; cbn [icache];
    intros q j Hq; apply list_lookup_insert_Some in Hq as [(<- & <- & _)|[Hne Hq]]; [done| |exact Hv'|by apply (Hv q)].
  rewrite (Hl q j Hq). specialize (Hop q ltac:(congruence)). repeat case_decide; tauto.
Qed.

Lemma cache_one open s (p : nat) i : cache_ok open s -> icache s !! p = Some i -> 0 < iref i -> refs s ROOTDEV (inum i) = iref i.
Proof. intros Hc Hp Hr. rewrite <- (proj1 (c_live _ _ Hc p i Hp Hr)). apply (refs_entry s p); [apply Hc|done|done]. Qed.

(** *** Counting unused entries *)

Definition in_use (s : fstate) : list inode := filter (fun i => 0 < iref i) (icache s).

Lemma refs_in_use s n : refs s ROOTDEV n <> 0 -> n ∈ inum <$> in_use s.
Proof.
  unfold refs. destruct (list_find _ _) as [[q j]|] eqn:E; [|done]. intros _.
  apply list_find_Some in E as (Hq & Hh & _). apply hit_iff in Hh as (Hj & _ & <-).
  apply list_elem_of_fmap. exists j. split; [done|]. apply list_elem_of_filter. split; [done|by eapply list_elem_of_lookup_2].
Qed.

(** With two entries unused at the start, one is unused while one more inode is
    referenced. *)
Lemma unused_entry s0 s open n :
  (length (in_use s0) + 1 < length (icache s0))%nat -> length (icache s) = length (icache s0) ->
  cache_ok open s -> counted s0 ROOTDEV n 1 s -> exists (p : nat) i, icache s !! p = Some i /\ ~ 0 < iref i.
Proof.
  intros Hroom Hlen Hc Hcount. destruct (decide (Forall (fun i => 0 < iref i) (icache s))) as [Hall|Hno].
  - exfalso. rewrite Forall_lookup in Hall.
    assert (Hsub : (inum <$> icache s) ⊆+ n :: (inum <$> in_use s0)).
    { apply NoDup_submseteq.
      - apply NoDup_alt. intros p q x Hp Hq. apply list_lookup_fmap_Some in Hp as (i & -> & Hp).
        apply list_lookup_fmap_Some in Hq as (j & Ej & Hq).
        apply (o_uniq s (c_one _ _ Hc) p q i j Hp Hq); eauto.
        destruct (c_live _ _ Hc p i Hp (Hall _ _ Hp)) as [-> _]. by destruct (c_live _ _ Hc q j Hq (Hall _ _ Hq)) as [-> _].
      - intros x Hx. apply list_elem_of_fmap in Hx as (i & -> & Hi). apply list_elem_of_lookup_1 in Hi as [p Hp].
        pose proof (cache_one _ s p i Hc Hp (Hall _ _ Hp)) as Er. specialize (Hall _ _ Hp).
        rewrite (Hcount ROOTDEV (inum i)) in Er. case_decide as E; [destruct E as [_ ->]; left|].
        right. apply refs_in_use. lia. }
    apply submseteq_length in Hsub. cbn [length] in Hsub. rewrite !length_fmap in Hsub. lia.
  - apply not_Forall_Exists in Hno; [|apply _]. apply Exists_exists in Hno as (i & Hi & Hz).
    apply list_elem_of_lookup_1 in Hi as [p Hp]. by exists p, i.
Qed.


(** *** The operations *)

Context (Ht : tree_ok).

(** Another count or lock does not matter to the rest of an entry. *)
Lemma mem_live n r lk d : node n = Some d -> 0 < iref (mem n r lk d) -> idev (mem n r lk d) = ROOTDEV /\
  exists d', node (inum (mem n r lk d)) = Some d' /\
    (ivalid (mem n r lk d) = 0 \/ mem n r lk d = mem (inum (mem n r lk d)) (iref (mem n r lk d)) (islock (mem n r lk d)) d').
Proof. intros Hn _. split; [done|]. exists d. split; [done|by right]. Qed.

(** [ilock] loads the entry if necessary and locks it. *)
Lemma ilock_tree s (p : nat) i d :
  cache_ok None s -> icache s !! p = Some i -> 0 < iref i -> node (inum i) = Some d ->
  let s' := Fstate b (<[p := mem (inum i) (iref i) (Sleeplock 1 me) d]> (icache s)) in
  ilock me s (Z.of_nat p) = Ok s' /\ cache_ok (Some p) s' /\ (forall dev n, refs s' dev n = refs s dev n).
Proof.
  intros Hc Hp Hr Hn s'. destruct (c_live _ _ Hc p i Hp Hr) as [Hd (d' & Hn' & Hv)]. rewrite Hn in Hn'. injection Hn' as <-.
  pose proof (c_lock _ _ Hc p i Hp) as Hl. rewrite decide_False in Hl by done. pose proof (c_fb _ _ Hc) as Hb.
  destruct (t_node Ht _ _ Hn) as (Hin & Hsy & Hty & _). pose proof (o_refs s (c_one _ _ Hc) p i Hp) as Hri.
  assert (Hre : reused s i (mem (inum i) (iref i) (Sleeplock 1 me) d)) by (left; done). split; [|split].
  - destruct (decide (ivalid i = 0)) as [Hz|Hz].
    + rewrite (ilock_load me s p i (inum i) d); rewrite ?Hb; try done; try lia; apply Ht.
    + destruct Hv as [Hv|Hv]; [done|]. unfold ilock. rewrite (iat_Ok s p i Hp). run.
      rewrite (proj2 (Z.ltb_ge _ _)), Hl by lia. change (acquiresleep me initsleeplock) with (Ok (Sleeplock 1 me)). run.
      change (ivalid (set_islock _ i)) with (ivalid i). rewrite (proj2 (Z.eqb_neq _ _) Hz), (iset_Ok s p i _ Hp), Hb.
      unfold s'. do 3 f_equal. by rewrite Hv.
  - apply (cache_update None (Some p) s p i); [done|done|cbn; lia|done|by rewrite decide_True| |by apply mem_live].
    intros q Hq. split; [done|congruence].
  - intros dev n. unfold s'. rewrite (refs_update s p i (mem (inum i) (iref i) (Sleeplock 1 me) d) b (c_one _ _ Hc) Hp Hri Hre).
    case_decide as E; [|done]. destruct E as [<- <-]. symmetry. apply (cache_one None s p i Hc Hp Hr).
Qed.

(** [iunlockput] of the entry that is locked. *)
Lemma iunlockput_tree s (p : nat) n r d :
  cache_ok (Some p) s -> icache s !! p = Some (mem n r (Sleeplock 1 me) d) -> 0 < r -> node n = Some d ->
  let s' := Fstate b (<[p := mem n (r - 1) initsleeplock d]> (icache s)) in
  iunlockput me s (Z.of_nat p) = Ok s' /\ cache_ok None s' /\ counted s ROOTDEV n (-1) s'.
Proof.
  intros Hc Hp Hr Hn s'. pose proof (c_fb _ _ Hc) as Hb. pose proof (lookup_lt_Some _ _ _ Hp) as Hlt.
  destruct (t_node Ht _ _ Hn) as (_ & _ & _ & Hnl). pose proof (o_refs s (c_one _ _ Hc) p _ Hp) as Hri. cbn in Hri.
  assert (Hre : reused s (mem n r (Sleeplock 1 me) d) (mem n (r - 1) initsleeplock d)) by (left; done).
  split; [|split].
  - unfold iunlockput, iunlock. rewrite (iat_Ok s p _ Hp). run. unfold holdingsleep.
    cbn [mem set_ref set_islock as_inode islock iref locked lpid]. rewrite Z.eqb_refl, (proj2 (Z.ltb_ge r 1)) by lia.
    cbn [Z.eqb negb andb orb]. rewrite (iset_Ok s p _ _ Hp). run.
    set (s1 := Fstate _ _). assert (H1 : cache_ok None s1).
    { unfold s1. rewrite Hb. apply (cache_update (Some p) None s p _ (mem n r initsleeplock d) Hc Hp); [cbn; lia|by left|done| |by apply mem_live].
      intros q Hq. split; [congruence|done]. }
    assert (Hp1 : icache s1 !! p = Some (mem n r initsleeplock d)) by (by apply list_lookup_insert_eq).
    destruct (iput_Ok me s1 p _ (c_one _ _ H1) Hp1 Hr eq_refl (or_intror (or_introl Hnl))) as (s2 & -> & -> & _).
    unfold s', s1. cbn [fb icache]. by rewrite list_insert_insert_eq, Hb.
  - apply (cache_update (Some p) None s p (mem n r (Sleeplock 1 me) d)); [done|done|cbn; lia|done|done| |by apply mem_live].
    intros q Hq. split; [congruence|done].
  - unfold s'. apply (counted_update s p _ (mem n (r - 1) initsleeplock d) b (-1) (c_one _ _ Hc) Hp); [cbn; lia|done|].
    cbn [mem set_ref set_islock as_inode iref idev inum].
    pose proof (cache_one _ s p _ Hc Hp Hr) as Er. cbn [mem set_ref set_islock as_inode iref inum] in Er. lia.
Qed.

(** [iget] of an inode of the tree while [p] is locked, with an unused entry. *)
Lemma iget_tree open s n :
  cache_ok open s -> is_Some (node n) -> refs s ROOTDEV n < 2 ^ 31 - 2 ->
  (exists (q : nat) j, icache s !! q = Some j /\ ~ 0 < iref j) ->
  exists (q : nat) i s', iget s ROOTDEV n = Ok (Z.of_nat q, s') /\ cache_ok open s' /\ counted s ROOTDEV n 1 s' /\
    length (icache s') = length (icache s) /\ icache s' !! q = Some i /\ 0 < iref i /\ inum i = n /\
    (forall p j, icache s !! p = Some j -> 0 < iref j -> exists r, 0 < r /\ icache s' !! p = Some (set_ref r j) /\ (p = q -> r = iref j + 1)).
Proof.
  intros Hc [dn Hdn] Hb Hfree. pose proof (iget_Ok s ROOTDEV n (c_one _ _ Hc) Hb) as Hg.
  destruct (iget s ROOTDEV n) as [[ip s']|f].
  2:{ destruct Hg as (_ & _ & Hno). destruct Hfree as (q & j & Hq & Hz). by apply Hno in Hq. }
  destruct Hg as (q & i & i' & -> & Hq & -> & Hd' & Hn' & Ho' & Hct & Hhit & Hmiss).
  pose proof (lookup_lt_Some _ _ _ Hq) as Hlt. rewrite (c_fb _ _ Hc) in *.
  pose proof (o_refs _ Ho' q i' ltac:(by apply list_lookup_insert_eq)) as Hr'.
  pose proof (o_refs _ (c_one _ _ Hc) q i Hq) as Hr.
  assert (Hz : 0 <= refs s ROOTDEV n).
  { unfold refs. destruct (list_find _ _) as [[k j]|] eqn:E; [|lia]. apply list_find_Some in E as (Hk & _).
    apply (o_refs s (c_one _ _ Hc) k j Hk). }
  exists q, i', (Fstate b (<[q := i']> (icache s))). split; [done|].
  assert (Hpos : 0 < iref i'). { destruct (decide (0 < refs s ROOTDEV n)) as [H|H]; [destruct (Hhit H) as [_ ->]; cbn; lia|]. destruct Hmiss as (_ & -> & _); lia. }
  split; [|split; [done|split; [cbn [icache]; by rewrite length_insert|split; [by apply list_lookup_insert_eq|split; [done|split; [done|]]]]]].
  - destruct (decide (0 < refs s ROOTDEV n)) as [H|H].
    + destruct (Hhit H) as [Hh ->]. apply hit_iff in Hh as (Hi & Hd & Hn).
      apply (cache_update open open s q i); [done|done|done|by left|exact (c_lock _ _ Hc q i Hq)|done|].
      intros _. destruct (c_live _ _ Hc q i Hq Hi) as [_ (d & Hnd & Hv)]. split; [done|]. exists d. split; [done|].
      destruct Hv as [Hv|Hv]; [by left|right]. rewrite Hv. done.
    + destruct Hmiss as (Hi0 & Hi1 & Hv & Hlk); [lia|].
      apply (cache_update open open s q i); [done|done|done| |rewrite Hlk; exact (c_lock _ _ Hc q i Hq)|done|].
      * right. split; [done|]. split; [done|]. rewrite Hd', Hn'. lia.
      * intros _. split; [done|]. exists dn. split; [by rewrite Hn'|by left].
  - intros p j Hp Hj. cbn [icache]. destruct (decide (q = p)) as [->|Hne].
    + rewrite Hq in Hp. injection Hp as <-. rewrite list_lookup_insert_eq by done.
      destruct (decide (0 < refs s ROOTDEV n)) as [H|H]; [|destruct Hmiss; lia].
      destruct (Hhit H) as [_ ->]. exists (iref i + 1). split; [lia|by split].
    + rewrite list_lookup_insert_ne by done. exists (iref j). split; [done|]. rewrite Hp. split; [by destruct j|congruence].
Qed.

(** ** The walk of [namex] *)

Section loop.
Context (dev_read : Z -> option (Z -> Z * list Z)).
Context (s0 : fstate) (Hroom : (length (in_use s0) + 1 < length (icache s0))%nat).
Context (Hfew : forall n, refs s0 ROOTDEV n < 2 ^ 31 - 3).

(** [p] is the entry of inode [n], and the only reference more than in [s0] is to it. *)
Record holding (n : Z) (s : fstate) (p : nat) (i : inode) : Prop := Holding {
  h_cache : cache_ok None s;
  h_len : length (icache s) = length (icache s0);
  h_count : counted s0 ROOTDEV n 1 s;
  h_at : icache s !! p = Some i;
  h_ref : 0 < iref i;
  h_inum : inum i = n
}.

(** What [namex] returns for the inode [t] that the path denotes: an entry for it
    with a reference more, or 0 and no reference more. *)
Definition outcome (t : option Z) (r : option Z) (s' : fstate) : Prop :=
  match t, r with
  | Some n, Some ip => exists p i, ip = Z.of_nat p /\ holding n s' p i
  | None, None => cache_ok None s' /\ length (icache s') = length (icache s0) /\
      forall dev n, refs s' dev n = refs s0 dev n
  | _, _ => False
  end.

(** The entry, locked. *)
Definition opened (s : fstate) (p : nat) (i : inode) (d : dinode) : fstate :=
  Fstate b (<[p := mem (inum i) (iref i) (Sleeplock 1 me) d]> (icache s)).

Lemma opened_at n s p i d : holding n s p i -> icache (opened s p i d) !! p = Some (mem n (iref i) (Sleeplock 1 me) d).
Proof. intros [_ _ _ Hp _ <-]. apply list_lookup_insert_eq. by eapply lookup_lt_Some. Qed.

(** Giving the locked entry back. *)
Lemma leave_tree n s p i d :
  holding n s p i -> node n = Some d ->
  exists s', iunlockput me (opened s p i d) (Z.of_nat p) = Ok s' /\ outcome None None s'.
Proof.
  intros H Hn. pose proof (opened_at n s p i d H) as Hp'. destruct H as [Hc Hl Hct Hp Hr Hi]. subst n.
  destruct (ilock_tree s p i d Hc Hp Hr Hn) as (_ & Hc1 & Hrefs).
  destruct (iunlockput_tree (opened s p i d) p (inum i) (iref i) d Hc1 Hp' Hr Hn) as (E & Hc2 & Hct2).
  eexists. split; [exact E|]. split; [done|]. split; [cbn [icache opened]; by rewrite !length_insert|].
  intros dev m. rewrite Hct2. unfold opened in *. rewrite Hrefs, Hct. case_decide; lia.
Qed.

(** Giving the entry back without locking it. *)
Lemma release_tree n s p i :
  holding n s p i -> exists s', iput me s (Z.of_nat p) = Ok s' /\ outcome None None s'.
Proof.
  intros [Hc Hl Hct Hp Hr Hi]. destruct (c_live _ _ Hc p i Hp Hr) as [Hd (d & Hn & Hv)].
  pose proof (c_lock _ _ Hc p i Hp) as Hlk. rewrite decide_False in Hlk by done.
  assert (Hk : kept i).
  { destruct Hv as [Hv|Hv]; [by left|]. right. left. rewrite Hv. apply (t_node Ht _ _ Hn). }
  destruct (iput_Ok me s p i (c_one _ _ Hc) Hp Hr ltac:(by rewrite Hlk) Hk) as (s' & -> & -> & Ho & Hct').
  pose proof (o_refs s (c_one _ _ Hc) p i Hp) as Hri.
  eexists. split; [done|]. rewrite (c_fb _ _ Hc). split; [|split; [cbn [icache]; by rewrite length_insert|]].
  - apply (cache_update None None s p i); [done|done|cbn; lia|by left|done|done|]. intros _. split; [done|]. exists d. split; [done|].
    destruct Hv as [Hv|Hv]; [by left|right]. by rewrite Hv.
  - rewrite (c_fb _ _ Hc) in Hct'. intros dev m. rewrite Hct', Hct, Hd, Hi. case_decide; lia.
Qed.

Lemma holding_node n s p i : holding n s p i -> exists d, node n = Some d.
Proof. intros [Hc _ _ Hp Hr <-]. destruct (c_live _ _ Hc p i Hp Hr) as [_ (d & Hn & _)]. by exists d. Qed.

(** Unlocking the entry only. *)
Lemma unlock_tree n s p i d :
  holding n s p i -> node n = Some d ->
  exists s' i', iunlock me (opened s p i d) (Z.of_nat p) = Ok s' /\ holding n s' p i'.
Proof.
  intros H Hn. pose proof (opened_at n s p i d H) as Hp'. destruct H as [Hc Hl Hct Hp Hr Hi]. subst n.
  destruct (ilock_tree s p i d Hc Hp Hr Hn) as (_ & Hc1 & Hrefs). fold (opened s p i d) in Hc1, Hrefs.
  unfold iunlock. rewrite (iat_Ok _ p _ Hp'). run. unfold holdingsleep.
  cbn [mem set_ref set_islock as_inode islock iref locked lpid]. rewrite Z.eqb_refl, (proj2 (Z.ltb_ge (iref i) 1)) by lia.
  cbn [Z.eqb negb andb orb]. rewrite (iset_Ok _ p _ _ Hp').
  set (i' := mem (inum i) (iref i) initsleeplock d). exists (Fstate b (<[p := i']> (icache (opened s p i d)))), i'.
  pose proof (o_refs _ (c_one _ _ Hc) p i Hp) as Hri. pose proof (lookup_lt_Some _ _ _ Hp') as Hlt.
  assert (Hre : reused (opened s p i d) (mem (inum i) (iref i) (Sleeplock 1 me) d) i') by (by left).
  split; [done|]. constructor; [| |intros dev m|by apply list_lookup_insert_eq|done|done].
  - apply (cache_update (Some p) None _ p (mem (inum i) (iref i) (Sleeplock 1 me) d)); [done|done|done|done|done| |by apply mem_live].
    intros q Hq. split; [congruence|done].
  - cbn [icache opened]. by rewrite !length_insert.
  - rewrite (refs_update (opened s p i d) p _ i' b (c_one _ _ Hc1) Hp' Hri Hre), Hrefs, Hct.
    case_decide as E; [|done]. rewrite <- (Hct dev m). destruct E as [<- <-]. symmetry. by apply (cache_one None s p i Hc Hp Hr).
Qed.

(** One directory down. *)
Lemma descend_tree n s p i d e name :
  holding n s p i -> node n = Some d -> din_type d = T_DIR -> 0 ∉ e -> length name = DIRSIZ ->
  match child n e with
  | None => dirlookup dev_read (opened s p i d) (Z.of_nat p) (in_name e name) = Ok (None, opened s p i d)
  | Some n' => exists q off s1 s2 j,
      dirlookup dev_read (opened s p i d) (Z.of_nat p) (in_name e name) = Ok (Some (Z.of_nat q, off), s1) /\
      iunlockput me s1 (Z.of_nat p) = Ok s2 /\ holding n' s2 q j
  end.
Proof.
  intros H Hn Hty H0 Hlen. pose proof (opened_at n s p i d H) as Hp'. destruct H as [Hc Hl Hct Hp Hr Hi].
  rewrite <- Hi in Hn. destruct (ilock_tree s p i d Hc Hp Hr Hn) as (_ & Hc1 & Hrefs). fold (opened s p i d) in Hc1, Hrefs.
  rewrite Hi in Hn. destruct (t_dir Ht n d Hn Hty) as [Hfile Hm].
  assert (Hdir : dir_at (opened s p i d) p (mem n (iref i) (Sleeplock 1 me) d)).
  { constructor; [done|apply Ht|by apply file_mem|apply Ht|done|done]. }
  rewrite (dirlookup_Ok dev_read _ p _ (in_name e name) Hdir) by (left; by rewrite length_in_name).
  change (fb (opened s p i d)) with b. rewrite contents_mem.
  rewrite (find_entry_cname (in_name e name) e) by (rewrite (cname_in_name e []), cname_terminated by done; done).
  unfold child. rewrite Hn, Hty, Z.eqb_refl. fold (names n d).
  destruct (find_entry e (names n d) 0) as [[k n']|] eqn:Ef; [|done]. cbn [fmap option_fmap option_map snd].
  assert (Hct1 : counted s0 ROOTDEV n 1 (opened s p i d)) by (intros dev m; by rewrite Hrefs, Hct).
  assert (Hl1 : length (icache (opened s p i d)) = length (icache s0)) by (cbn [icache opened]; by rewrite length_insert).
  destruct (iget_tree (Some p) (opened s p i d) n' Hc1 (t_closed Ht n d e k n' Hn Hty Ef)) as
    (q & j & s1 & Eg & Hc2 & Hct2 & Hl2 & Hq & Hj & Hjn & Hsame).
  { rewrite Hct1. specialize (Hfew n'). case_decide; lia. }
  { by apply (unused_entry s0 _ (Some p) n). }
  change (idev (mem n (iref i) (Sleeplock 1 me) d)) with ROOTDEV. rewrite Eg. run.
  destruct (Hsame p _ Hp' Hr) as (r & Hr' & Hp1 & Hrq). change (set_ref r _) with (mem n r (Sleeplock 1 me) d) in Hp1.
  destruct (iunlockput_tree s1 p n r d Hc2 Hp1 Hr' Hn) as (Eu & Hc3 & Hct3).
  assert (Hct4 : counted s0 ROOTDEV n' 1 (Fstate b (<[p:=mem n (r - 1) initsleeplock d]> (icache s1)))).
  { intros dev m. rewrite Hct3, Hct2, Hct1. repeat case_decide; lia. }
  destruct (decide (q = p)) as [->|Hne].
  - rewrite Hp1 in Hq. injection Hq as <-. cbn in Hjn. subst n'. specialize (Hrq eq_refl). cbn in Hrq.
    exists p, (16 * k), s1. eexists _, (mem n (r - 1) initsleeplock d). split; [done|]. split; [exact Eu|].
    constructor; [done|cbn [icache]; rewrite length_insert; congruence|done|apply list_lookup_insert_eq; by eapply lookup_lt_Some|cbn; lia|done].
  - exists q, (16 * k), s1. eexists _, _. split; [done|]. split; [exact Eu|].
    constructor; [done|cbn [icache]; rewrite length_insert; congruence|done|cbn [icache]; rewrite list_lookup_insert_ne by done; exact Hq|done|done].
Qed.

(** The loop of [namex], for both callers. *)
Lemma namex_walk par rest : forall es l n s p i name fuel,
  elements l = es -> 0 ∉ l -> (length es < fuel)%nat -> holding n s p i -> length name = DIRSIZ ->
  exists r name' s', namex_loop me dev_read fuel s (Z.of_nat p) (l ++ 0 :: rest) par name = Ok (r, name', s') /\
    outcome (target par n es) r s' /\ length name' = DIRSIZ /\
    (par = true -> r <> None -> cname name' = cname (default [] (last es))).
Proof.
  induction es as [|e es IH]; intros l n s p i name fuel El H0 Hfuel H Hname; (destruct fuel as [|fuel]; [lia|]);
    pose proof (skipelem_elements l rest name H0 Hname) as Hskip; rewrite El in Hskip; cbn [namex_loop].
  - rewrite Hskip. run. destruct par; [|exists (Some (Z.of_nat p)), name, s; split; [done|split; [by exists p, i|done]]].
    destruct (release_tree n s p i H) as (s' & -> & Hs'). run. by exists None, name, s'.
  - destruct Hskip as (l' & -> & Hsuf & El' & _ & Hnil). run. destruct (holding_node n s p i H) as [d Hn].
    destruct (ilock_tree s p i d (h_cache _ _ _ _ H) (h_at _ _ _ _ H) (h_ref _ _ _ _ H)) as (-> & _); [by rewrite (h_inum _ _ _ _ H)|].
    run. fold (opened s p i d). rewrite (iat_Ok _ p _ (opened_at n s p i d H)). run.
    change (itype (mem _ _ _ d)) with (din_type d).
    assert (He : 0 ∉ e) by (intros Hc; apply H0; apply (elements_chars l e); [rewrite El; left|done]).
    assert (Hl' : 0 ∉ l') by (destruct Hsuf as [pre ->]; set_solver).
    pose proof (length_in_name e name Hname) as Hname'.
    assert (Hdir : is_dir n = (din_type d =? T_DIR)) by (unfold is_dir; by rewrite Hn).
    destruct (Z.eqb_spec (din_type d) T_DIR) as [Hty|Hty]; cbn [negb].
    2:{ destruct (leave_tree n s p i d H Hn) as (s' & -> & Hs'). run. exists None, (in_name e name), s'.
        by rewrite target_leaf by done. }
    assert (Ec : exists c, aget (l' ++ 0 :: rest) 0 = Ok c /\ (c = 0 <-> es = [])).
    { destruct l' as [|c l']; [exists 0; split; [done|]; tauto|]. exists c. split; [done|].
      split; [intros ->; exfalso; apply Hl'; left|intros E; by apply Hnil in E]. }
    destruct Ec as (c & -> & Hc). run. destruct (par && (c =? 0)) eqn:Elast.
    + apply andb_true_iff in Elast as [-> Ez%Z.eqb_eq]. apply Hc in Ez as ->.
      destruct (unlock_tree n s p i d H Hn) as (s' & i' & -> & Hs'). run. exists (Some (Z.of_nat p)), (in_name e name), s'.
      split; [done|]. rewrite target_last by done. split; [by exists p, i'|]. split; [done|]. intros _ _. cbn [last default].
      by rewrite (cname_in_name e []), cname_terminated.
    + assert (Hgo : par = true -> es <> []).
      { intros -> E. apply Hc in E as ->. done. }
      rewrite (target_next par n e es Hgo). pose proof (descend_tree n s p i d e name H Hn Hty He Hname) as Hd.
      destruct (child n e) as [n'|].
      * destruct Hd as (q & off & s1 & s2 & j & -> & E2 & Hh). run. rewrite E2. run.
        destruct (IH l' n' s2 q j (in_name e name) fuel El' Hl' ltac:(cbn [length] in Hfuel; lia) Hh Hname') as (r & name' & s' & -> & Ho & Hlen & Hcn).
        exists r, name', s'. split; [done|]. split; [done|]. split; [done|]. intros Hp Hr. rewrite (Hcn Hp Hr).
        destruct es as [|e' es]; [by destruct (Hgo Hp)|done].
      * rewrite Hd. run. destruct (leave_tree n s p i d H Hn) as (s' & -> & Hs'). run. by exists None, (in_name e name), s'.
Qed.

(** The inode at which the walk starts. *)
Definition start (l : list Z) (cwd : inode) : Z := if decide (head l = Some SLASH) then ROOTINO else inum cwd.

Lemma start_tree l rest (cw : nat) ic :
  cache_ok None s0 -> icache s0 !! cw = Some ic -> 0 < iref ic ->
  exists c p i s1, aget (l ++ 0 :: rest) 0 = Ok c /\ holding (start l ic) s1 p i /\
    (if c =? SLASH then iget s0 ROOTDEV ROOTINO else s ← idup s0 (Z.of_nat cw); Ok (Z.of_nat cw, s)) = Ok (Z.of_nat p, s1).
Proof.
  intros Hc Hcw Hr. exists (default 0 (head l)). unfold start.
  assert (Ea : aget (l ++ 0 :: rest) 0 = Ok (default 0 (head l))) by (by destruct l). rewrite Ea.
  assert (Eq : (default 0 (head l) =? SLASH) = bool_decide (head l = Some SLASH)).
  { destruct l as [|c l]; [done|]. cbn. destruct (Z.eqb_spec c SLASH); symmetry; [apply bool_decide_true|apply bool_decide_false]; congruence. }
  rewrite Eq. case_bool_decide as Hs; [rewrite decide_True by done|rewrite decide_False by done].
  - destruct (iget_tree None s0 ROOTINO Hc (t_root Ht)) as (q & i & s' & -> & Hc' & Hct & Hl & Hq & Hi & Hin & _).
    + specialize (Hfew ROOTINO). lia.
    + destruct (decide (Forall (fun i => 0 < iref i) (icache s0))) as [Hall|Hno].
      * exfalso. assert (E : in_use s0 = icache s0); [|rewrite E in Hroom; lia]. unfold in_use. clear -Hall.
        induction Hall as [|i l Hi _ IH]; [done|]. rewrite filter_cons_True by done. by f_equal.
      * apply not_Forall_Exists in Hno; [|apply _]. apply Exists_exists in Hno as (i & Hi & Hz).
        apply list_elem_of_lookup_1 in Hi as [p Hp]. by exists p, i.
    + exists q, i, s'. split; [done|]. split; [by constructor|done].
  - pose proof (cache_one None s0 cw ic Hc Hcw Hr) as Er. specialize (Hfew (inum ic)).
    destruct (c_live _ _ Hc cw ic Hcw Hr) as [Hd (d & Hn & Hv)]. pose proof (lookup_lt_Some _ _ _ Hcw) as Hlt.
    destruct (idup_Ok s0 cw ic (c_one _ _ Hc) Hcw ltac:(lia)) as (s1 & -> & -> & Ho & Hct). run.
    exists cw, (set_ref (iref ic + 1) ic). eexists. split; [done|]. split; [|done]. rewrite Hd in Hct.
    constructor; [|cbn [icache]; by rewrite length_insert|done|by apply list_lookup_insert_eq|cbn; lia|done].
    rewrite (c_fb _ _ Hc). apply (cache_update None None s0 cw ic); [done|done|cbn; lia|by left|exact (c_lock _ _ Hc cw ic Hcw)|done|].
    intros _. split; [exact Hd|]. exists d. split; [exact Hn|]. destruct Hv as [Hv|Hv]; [by left|right]. by rewrite Hv.
Qed.

Lemma namex_tree par l rest (cw : nat) ic name :
  cache_ok None s0 -> icache s0 !! cw = Some ic -> 0 < iref ic -> 0 ∉ l -> length name = DIRSIZ ->
  exists r name' s', namex me dev_read (Z.of_nat cw) s0 (l ++ 0 :: rest) par name = Ok (r, name', s') /\
    outcome (target par (start l ic) (elements l)) r s' /\
    (par = true -> r <> None -> cname name' = cname (default [] (last (elements l)))).
Proof.
  intros Hc Hcw Hr H0 Hname. destruct (start_tree l rest cw ic Hc Hcw Hr) as (c & p & i & s1 & Ec & Hh & Es).
  unfold namex. rewrite Ec. run. rewrite Es. run.
  destruct (namex_walk par rest (elements l) l (start l ic) s1 p i name (S (length (l ++ 0 :: rest))) eq_refl H0) as (r & name' & s' & E & Ho & _ & Hn).
  - pose proof (length_elements l). rewrite length_app. lia.
  - done.
  - done.
  - by exists r, name', s'.
Qed.
End loop.
End cache.
End tree.

(** ** Theorem *)

(** C9: path lookup walks the tree of directories.  Let the disk hold a tree
    whose entries name inodes in use, and the inode cache be consistent with it,
    with two entries unused, no lock taken and counts that cannot overflow.  For
    every path, absolute or relative to the working directory, [namei] returns:
    the entry of the inode that the elements of the path lead to, with one
    reference more, or 0 when an element is missing or is looked up in something
    that is not a directory, and then no reference is left behind.
    [nameiparent] does the same for the directory of the last element, and stores
    that element in [name].  Neither panics nor waits, no lock stays taken, the
    disk does not change, and the cache remains consistent. *)
Theorem namei_walks b node me dev_read s (cw : nat) ic l rest :
  tree_ok b node -> cache_ok b node me None s -> (length (in_use s) + 1 < length (icache s))%nat ->
  (forall n, refs s ROOTDEV n < 2 ^ 31 - 3) -> icache s !! cw = Some ic -> 0 < iref ic -> 0 ∉ l ->
  (exists r s', namei me dev_read (Z.of_nat cw) s (l ++ 0 :: rest) = Ok (r, s') /\
     outcome b node me s (walk b node (start l ic) (elements l)) r s') /\
  (forall name, length name = DIRSIZ ->
     exists r name' s', nameiparent me dev_read (Z.of_nat cw) s (l ++ 0 :: rest) name = Ok (r, name', s') /\
       outcome b node me s (walk_parent b node (start l ic) (elements l)) r s' /\
       (r <> None -> cname name' = cname (default [] (last (elements l))))).
Proof.
  intros Ht Hc Hroom Hfew Hcw Hr H0. split.
  - destruct (namex_tree b node me Ht dev_read s Hroom Hfew false l rest cw ic (replicate DIRSIZ 0) Hc Hcw Hr H0 eq_refl)
      as (r & nm & s' & E & Ho & _).
    exists r, s'. unfold namei. rewrite E. by run.
  - intros name Hname.
    destruct (namex_tree b node me Ht dev_read s Hroom Hfew true l rest cw ic name Hc Hcw Hr H0 Hname) as (r & nm & s' & E & Ho & Hn).
    exists r, nm, s'. split; [exact E|]. split; [exact Ho|]. by apply Hn.
Qed.

(** ** The tree of an image of mkfs.c *)

Section image.
Context (m : mk) (dr : dinode) (ds : list dinode).

Let b := Bstate (img m) sb0 [] [].

(** The root directory and the files. *)
Definition image_node (n : Z) : option dinode :=
  if decide (n = 1) then Some dr else if decide (2 <= n) then ds !! Z.to_nat (n - 2) else None.

(** The root directory is the working directory. *)
Definition booted : fstate := Fstate b (unloaded 1 :: replicate 49 spare).

Lemma booted_cases p i : icache booted !! p = Some i -> (p = 0%nat /\ i = unloaded 1) \/ i = spare.
Proof. destruct p as [|p]; [intros [= <-]; by left|]. intros H. apply (lookup_replicate_1 49 spare i p) in H as [-> _]. by right. Qed.

Lemma booted_cache me : cache_ok b image_node me None booted.
Proof.
  constructor; [done|constructor| |].
  - intros p i H. destruct (booted_cases p i H) as [[_ ->]| ->]; cbn; lia.
  - intros p q i j Hp Hq Hi Hj. destruct (booted_cases p i Hp) as [[-> ->]| ->], (booted_cases q j Hq) as [[-> ->]| ->]; done || (cbn in *; lia).
  - intros p i H. by destruct (booted_cases p i H) as [[_ ->]| ->].
  - intros p i H Hi. destruct (booted_cases p i H) as [[_ ->]| ->]; [|cbn in Hi; lia]. split; [done|]. exists dr. split; [done|by left].
Qed.

Lemma booted_room : (length (in_use booted) + 1 < length (icache booted))%nat.
Proof. apply Nat.ltb_lt. vm_compute. reflexivity. Qed.

Lemma booted_refs n : refs booted ROOTDEV n < 2 ^ 31 - 3.
Proof.
  unfold refs. destruct (list_find _ _) as [[q j]|] eqn:E; [|lia]. apply list_find_Some in E as (Hq & _).
  destruct (booted_cases q j Hq) as [[_ ->]| ->]; cbn; lia.
Qed.
Lemma image_node_file n d : image_node n = Some d -> n <> 1 -> exists k, n = num (S k) /\ ds !! k = Some d.
Proof.
  unfold image_node. intros H Hne. rewrite decide_False in H by done. case_decide; [|done].
  exists (Z.to_nat (n - 2)). split; [unfold num; lia|done].
Qed.

Context (fbl : Z) (hs : list hostfile) (Him : image_of b fbl dr ds hs).
Context (Hn : (length hs < 199)%nat) (Hdense : (2 + Z.of_nat (length hs)) mod 32 <> 0).

Lemma find_dir_entries_bound name l : forall base pos k n,
  find_entry name (dir_entries base l) pos = Some (k, n) -> Z.of_nat (base + length l) + 1 < 65536 ->
  Z.of_nat base + 2 <= n < Z.of_nat (base + length l) + 2.
Proof.
  induction l as [|h l IH]; intros base pos k n; cbn [dir_entries find_entry length]; [done|]. intros H Hb.
  rewrite inum_new_entry in H by (unfold num; lia). case_decide.
  - injection H as <- <-. unfold num. lia.
  - apply IH in H; lia.
Qed.

Lemma image_tree : tree_ok b image_node.
Proof.
  destruct (io_root _ _ _ _ _ Him) as (_ & _ & Hsy & Hty & Hnl).
  pose proof (Forall2_length _ _ _ (io_files _ _ _ _ _ Him)) as Hlen. constructor.
  - apply Him.
  - done.
  - intros n d Hd. change (sb_ninodes (sb b)) with 200. destruct (decide (n = 1)) as [->|Hne].
    + injection Hd as <-. split; [lia|]. split; [done|]. by rewrite Hty, Hnl.
    + destruct (image_node_file n d Hd Hne) as (k & -> & Hk). pose proof (lookup_lt_Some _ _ _ Hk).
      destruct (lookup_lt_is_Some_2 hs k) as [h Hh]; [lia|].
      destruct (io_file _ _ _ _ _ Him k h d Hh Hk) as (_ & _ & Hs & _).
      destruct (Forall2_lookup_lr _ _ _ _ _ _ (io_files _ _ _ _ _ Him) Hh Hk) as [-> ->].
      split; [unfold num; lia|]. split; [exact Hs|done].
  - intros n d Hd Hdir. destruct (decide (n = 1)) as [->|Hne].
    + injection Hd as <-. split; [by apply (io_dense _ _ _ _ _ Him)|]. rewrite (io_rsize _ _ _ _ _ Him). unfold BSIZE.
      exists (Z.to_nat ((16 * (2 + Z.of_nat (length hs)) / 512 + 1) * 32)). Z.div_mod_to_equations. lia.
    + destruct (image_node_file n d Hd Hne) as (k & -> & Hk). pose proof (lookup_lt_Some _ _ _ Hk).
      destruct (lookup_lt_is_Some_2 hs k) as [h Hh]; [lia|].
      destruct (Forall2_lookup_lr _ _ _ _ _ _ (io_files _ _ _ _ _ Him) Hh Hk) as [E _]. by rewrite E in Hdir.
  - intros n d name k n' Hd Hdir. destruct (decide (n = 1)) as [->|Hne].
    + injection Hd as <-. unfold names. rewrite (io_names _ _ _ _ _ Him). unfold root_entries. cbn [find_entry].
      repeat (case_decide; [intros [= <- <-]; by eexists|]). intros Hf. apply find_dir_entries_bound in Hf; [|lia].
      unfold image_node. rewrite decide_False, decide_True by lia. apply lookup_lt_is_Some_2. lia.
    + destruct (image_node_file n d Hd Hne) as (j & -> & Hk). pose proof (lookup_lt_Some _ _ _ Hk).
      destruct (lookup_lt_is_Some_2 hs j) as [h Hh]; [lia|].
      destruct (Forall2_lookup_lr _ _ _ _ _ _ (io_files _ _ _ _ _ Him) Hh Hk) as [E _]. by rewrite E in Hdir.
  - by exists dr.
Qed.

Lemma child_root e : child b image_node 1 e = snd <$> find_entry e (root_entries hs) 0.
Proof.
  destruct (io_root _ _ _ _ _ Him) as (_ & _ & _ & Hty & _). unfold child. change (image_node 1) with (Some dr). cbv iota.
  rewrite Hty. unfold names. cbn [Z.eqb T_DIR Pos.eqb]. f_equal. apply Him.
Qed.

End image.

(** ".././rm" from the root directory of an image. *)
Lemma namei_walks_witness :
  exists m dr ds, main 4 true demo_hosts = Ok m /\
  exists ip s', namei 7 (fun _ => None) 0 (booted m) [46; 46; 47; 46; 47; 114; 109; 0] = Ok (Some ip, s') /\
    outcome (Bstate (img m) sb0 [] []) (image_node dr ds) 7 (booted m) (Some 2) (Some ip) s'.
Proof.
  destruct (main_image 4 demo_hosts ltac:(lia) demo_hosts_ok ltac:(cbn [length demo_hosts]; lia) ltac:(by vm_compute))
    as (m & dr & ds & E & Him).
  exists m, dr, ds. split; [exact E|].
  destruct (namei_walks (Bstate (img m) sb0 [] []) (image_node dr ds) 7 (fun _ => None) (booted m) 0 (unloaded 1) [46; 46; 47; 46; 47; 114; 109] []
    (image_tree m dr ds _ demo_hosts Him ltac:(cbn [length demo_hosts]; lia) ltac:(by apply (bool_decide_unpack _)))
    (booted_cache m dr ds 7) (booted_room m) (booted_refs m) eq_refl eq_refl ltac:(by apply (bool_decide_unpack _)))
    as [(r & s' & En & Ho) _].
  assert (Hw : walk (Bstate (img m) sb0 [] []) (image_node dr ds) (start [46; 46; 47; 46; 47; 114; 109] (unloaded 1))
    (elements [46; 46; 47; 46; 47; 114; 109]) = Some 2).
  { change (elements _) with [[46; 46]; [46]; [114; 109]]. change (start _ _) with 1. cbn [walk].
    rewrite (child_root m dr ds _ demo_hosts Him [46; 46]). change (snd <$> find_entry [46; 46] _ _) with (Some 1). cbv iota.
    rewrite (child_root m dr ds _ demo_hosts Him [46]). change (snd <$> find_entry [46] _ _) with (Some 1). cbv iota.
    by rewrite (child_root m dr ds _ demo_hosts Him [114; 109]). }
  rewrite Hw in Ho.
  destruct r as [ip|]; [|destruct Ho]. exists ip, s'. split; [exact En|exact Ho].
Defined.
